(* ===== verification/_CoqProject ===== *)
-Q . S2P
Prelude.v
Utils.v
Platform.v
SecureElement.v
TestPlatform.v
Crypto.v
AccountKeys.v
MessageStream.v
Mbedtls.v
Advertisement.v
ClientState.v
ClientAdvertising.v
ClientPairing.v
ClientStream.v
CryptoSafety.v
AdvertisementSafety.v
ClientInvariant.v
ClientAdvertisingSafety.v
ClientPairingSafety.v
ClientStreamSafety.v
Client.v
ClientTheorems.v
ClientAcceptance.v
ClientProvenance.v
ClientPairingRun.v
ClientRetroactive.v
ClientSass.v
CppBase.v
WeavePacket.v
WeavePacketizer.v
WeaveSocket.v
WeaveSockets.v
WeaveSocketSafety.v
WeaveSocketRun.v
WeaveHandshake.v
SeekerData.v
SeekerHandshake.v
SeekerSafety.v
SeekerStream.v
SeekerRetroactive.v
InteropAdvertisement.v
InteropPairing.v
InteropStream.v
InteropRetroactive.v
BleData.v
BleTheorems.v
BleTracker.v
BleTrackerSafety.v
BleDiscovery.v
BleExamples.v
PresenceData.v
PresenceTheorems.v
PresenceBroadcast.v
PresenceScan.v
PresenceSafety.v
PresenceRun.v
PresenceExamples.v
