(* ===== verification/Prelude.v ===== *)
(** * Fast Pair, Weave, BLE discovery and Nearby Presence, verified

    This library models and verifies five parts of the repository.  The first and
    largest one is the embedded Fast Pair provider, src/embedded: the C library a
    headset or another accessory links to be paired with phones (seekers).  The
    second is the seeker of src/fastpair, in C++: recognising advertisements, the
    handshake and the pairing, the message stream and retroactive pairing; it is
    composed with the provider, and theorems show that the two interoperate.  The
    third is the Weave transport of src/internal/weave: packets and sockets over a
    Bluetooth LE connection.  The fourth is the discovery over Bluetooth LE of Nearby
    Connections, src/connections/implementation/mediums/ble_v2.  The fifth is Nearby
    Presence, src/presence/implementation: its advertisements, broadcasts and scans,
    with theorems that what one device broadcasts another one discovers.

    ** The program and its model: the provider

    - Byte utilities (common/source/nearby_utils.c): [Utils].
    - Build options, status codes, the hardware abstraction layer
      (common/source/nearby_config.h, common/target/*.h): [Platform].  A HAL call
      is a request of type [hal_request]; the class [Platform] is the device: a
      world of unknown type and a function that answers each request and changes
      the world.  Every request and its answer is appended to a log, so that a
      theorem can say what was sent to the radio or to storage.  The monad [M S]
      threads the static variables [S], the world and the log; its outcomes are
      [Done], [Crash] (a NEARBY_ASSERT failed) and [Fault] (an access outside an
      object).  [wp m Q s] says that [m] ends in [Done] from [s] with [Q]: it is
      total correctness.
    - What the HAL documents of its hash and cipher: the classes of
      [SecureElement].  [TestPlatform] is a device that can be run, used by the
      witnesses; [Mbedtls] models common/source/mbedtls (mbedtls.c, gen_secret.c)
      over the mbed TLS library as a parameter, and shows that it implements the
      interface.
    - common/source/nearby_fp_library.c is split in three: [Crypto] (SHA-256, HMAC,
      HKDF, AES-CTR, additional data packets, message authentication codes),
      [AccountKeys] (the bounded list of account keys and its stored image) and
      [Advertisement] (advertisements, Bloom filter, SASS fields, pairing
      response).
    - common/source/nearby_message_stream.c: [MessageStream].
    - client/source/nearby_fp_client.c: the record [client] of its static variables
      and the shared helpers in [ClientState], advertising and address rotation in
      [ClientAdvertising], the GATT and Bluetooth pairing handlers in
      [ClientPairing], the message stream, SASS and the application's entry points
      in [ClientStream], initialisation and the step function over all events in
      [Client].

    The handlers compose as in the code: the platform calls a handler registered
    in kBleInterface, kBtInterface, kBatteryInterface or kAudioInterface (an
    [event]), the handler reads and writes the static variables, calls the library
    and the HAL, and returns a status.

    ** The program and its model: the seeker

    What the C++ files share ([StatusCode], [StatusOr], the signedness of [char]) is
    in [CppBase].
    - internal/base/bluetooth_address.cc, dataparser, common/battery_notification.cc
      and common/account_key_filter.cc: [SeekerData], from the bytes of an
      advertisement to the test whether an account key is in its Bloom filter.
    - handshake (the GATT service client, the data encryptor, the handshake),
      pairing/fastpair/fast_pair_pairer_impl.cc and crypto: [SeekerHandshake].  The
      record [Seeker] holds the members of these classes, the jobs of the executor
      they share and the calls they make ([Output]).  A step is a job or an event of
      the GATT client, the Bluetooth stack or a timer ([step]).  OpenSSL is a
      parameter: the classes [OpenSSL] and [OpenSSLKeys], with what is documented of
      them as [OpenSSLSpec] and [OpenSSLKeysSpec]; the class [Stack] holds the bytes
      an uninitialised array happens to have.
    - message_stream: [SeekerStream].  The record [Stream] holds a message stream and
      its medium; the read loop is a state machine over the pieces the socket
      returns.
    - retroactive/retroactive.cc, fast_pair_controller and
      internal/base/observer_list.h: [SeekerRetroactive], the steps of a retroactive
      pairing over a [Seeker] and a [Stream].

    The Interop files compose them with the provider.  [duet] (in [InteropPairing])
    and [retro_duet] (in [InteropRetroactive]) run the two sides in turns: what one
    side has written reaches the handler of the other, and its answer comes back; the
    environment of the provider changes arbitrarily between turns, but for the
    conditions the turns name.  [arrive] (in [InteropStream]) lets bytes reach the
    read loop in pieces of any size.  The seeker's OpenSSL computes with the cipher and
    hash of the provider's platform ([provider_openssl], [openssl]), and the key
    agreement of the two sides gives the same secret ([agrees]).

    ** The program and its model: Weave

    - packet.h, packet.cc: [WeavePacket], the header byte and the fields of the
      control packets.
    - packet_sequence_number_generator, packetizer, message_write_request and
      control_packet_write_request: [WeavePacketizer], one Module each.
    - base_socket.h, base_socket.cc, with connection.h and socket_callback.h:
      [WeaveSocket].  The record [BaseSocket] holds the members of the class, the
      jobs posted to its executor and the outputs (packets transmitted, callbacks,
      statuses of futures).  A closure given to RunOnSocketThread is a [Job], and
      [run_next] lets the executor run the oldest one; a call from outside is a
      [Call], handled by [handle_call].  The steps of a socket are calls and jobs,
      in any order ([socket_reachable]).  The write queues are deques whose elements
      keep their addresses, and the two pointers into them are addresses, so that a
      dangling pointer is a [Fault].
    - sockets/client_socket and sockets/server_socket: [WeaveSockets].  They
      implement the classes [Overrides] and [SocketClass] (the virtual methods), and
      in [WeaveSocketSafety] the class [SocketLaws], against which the safety of
      the base class is proved once for both.

    ** The program and its model: BLE discovery

    - mediums/ble_v2: ble_advertisement, ble_advertisement_header, ble_packet,
      bloom_filter and ble_utils, with internal/platform/base_input_stream, uuid.h and
      base64_utils: [BleData], one Module for each class.  A constructor from bytes is
      [..._of_bytes], a conversion to bytes [..._bytes].  What the files call and the
      repository does not hold (SHA-256, MurmurHash3, Base64, protocol buffers) are
      the classes [Hashes], [Base64] and [ControlFrames]; the feature flags are
      [BleFlags] and [ThreadFlag].
    - mediums/ble_v2/discovered_peripheral_tracker, advertisement_read_result and
      mediums/lost_entity_tracker.h: [BleTracker].  The record [Tracker] holds the
      maps of the class, the read results they own as a store of objects with
      addresses, the jobs of the reading thread and the callbacks made ([reports]).
      A step ([tracker_step]) is a call or a turn of the thread; the clock and the
      reach of peripherals are its [Environment].  Hash containers are [gmap] and
      [gset], and the order of an iteration is the class [HashOrder].

    ** The program and its model: Nearby Presence

    - presence/data_element.h, broadcast_request.h, scan_request.h and, in
      presence/implementation, action_factory, base_broadcast_request,
      advertisement_factory, advertisement_decoder, ldt.cc and mediums/ble.h, with
      CreatePublicCredential of credential_manager_impl (the seed and the tag of a
      credential): [PresenceData].  The LDT cipher, a library in Rust, is the class [Ldt]
      after np_ldt.h, with what that header documents as [LdtSpec].  The pointer of a
      decoder is an address, looked up in the memory that is alive.
    - broadcast_manager: [PresenceBroadcast].  The record [Broadcasts] holds the
      sessions, the callbacks given to the credential manager, the jobs of the executor
      and the calls made; a callback may be called any number of times.  A step
      ([broadcast_step]) is a call, an answer or a job; random
      numbers and whether the medium advertises are its [BroadcastEnvironment].
    - scan_manager: [PresenceScan], with the record [Scans] and [scan_step] in the same way.
      The sessions have addresses, and an insertion into the hash table may move them:
      the [ScanEnvironment] of the step says whether it does.

    ** Conventions

    A w-bit integer is a [Z] with its wrap-around written out ([u8], [u16], [u32],
    [u64], [s8]); a buffer is a list of bytes, and a pointer into it a list with an
    offset; [load] and [store] give [Fault] outside the list.  RETURN_IF_ERROR is
    [return_if_error!].  The constants, functions and enumerators keep their C
    names.  A part of a long C function that has a definition of its own
    ([pairing_locked], [match_account_key], [account_key_guard],
    [announce_connection], [add_sass_field], ...) is called by the definition that
    carries the function's name.  The structure AccountKeyList has its
    little-endian LP64 layout in storage: 81 bytes, 128 with SASS.  In the C++
    files the signedness of [char], which the platform decides, is the class
    [CharType], and [char_int] the promotion of a [char] to [int]; an absl::Status
    is its code; a failed CHECK or DCHECK and an uncaught exception are [Crash],
    undefined behaviour is [Fault].  The left shift of a negative [char], undefined in
    the C++17 of the build files and defined by GCC and Clang, is [char_shift]: whether
    it is a [Fault] is part of [CharType].  The one shift that is taken to wrap around
    although C leaves it undefined is that of [nearby_utils_GetBigEndian32].  What a log
    message computes is modelled where it can go wrong.

    The options NEARBY_FP_ENABLE_SASS, NEARBY_FP_HAVE_BLE_ADDRESS_ROTATION,
    NEARBY_FP_BLE_ONLY, NEARBY_FP_PREFER_BLE_BONDING and
    NEARBY_FP_PREFER_LE_TRANSPORT are fields of the class [Config], and the
    theorems hold for every choice; the other features have the value 1 they have
    in nearby_config.h.

    ** Bounds of the loops

    A loop whose number of turns is known is a [Fixpoint] on the turns left.  The
    others take fuel and give [Fault] without it, so that a theorem that concludes
    [Done] shows the fuel to be enough: the field search [FindLtv_loop] has one
    unit per byte of the advertisement, as each turn advances by at least one byte;
    [GetUniqueAccountKeyCount_loop] and [IndicateInUseKey_loop] have the number of
    keys plus one, as the offset grows in each turn and the last one finds no key;
    the loops of HKDF and AES-CTR have one unit per byte of output.  The Weave
    sockets have no loop of their own: a message advances by one packet for each
    transmission report.  [write_all] and [run_jobs] of the theorems take a number
    of turns, and the theorems give one that is enough (the length of the message
    plus one; three turns for a disconnection, one for any other job).  [feed] has
    one unit per byte, as each piece has at least one.  Retroactive::SetPairingStep
    calls itself through the observers it registers; three nested calls are enough,
    and [SetPairingStep_unfold] is the equation of the code without a bound.

    ** What the theorems show

    - The whole provider ([Client]): every event is handled to the end in every
      reachable state, without a failed assertion or an access out of bounds, for
      any behaviour of the platform ([Client_handlers_return]); the invariant
      [client_ok] of the static variables holds in every reachable state; the
      pairing state only takes the transitions of [pairing_transition]; whatever is
      stored is the image of a valid list of keys; every call of the platform outside
      the secure element has arguments of the right shape ([request_ok]: the
      structure of advertisements, the length of notifications, 48 bit addresses,
      ...).  What is required of the caller
      is [event_ok]; of the platform, [StoredListSpec] (storage holds nothing or an
      image of a valid list when it is loaded) and [BitmapSpec] (at most three bytes
      of connection bitmap with SASS).
    - Where keys come from ([ClientProvenance]): a key enters the list only from
      storage or by an account key write accepted in a pairing, and in every run
      each key of the list was granted by an earlier event.
    - Complete pairings ([ClientPairingRun]): a seeker that follows the protocol in
      time is paired, its key stored and its name saved, with a stored account key,
      with an account key that arrives early, and at a first pairing with a public
      key; here the platform answers as [AesSpec], [Sha256Spec], [SecretSpec] and
      [NotifySpec] say.
    - The handlers ([ClientTheorems], [ClientAcceptance], [ClientSass]): which requests are
      refused and which are accepted, and exactly what an accepted one does; the
      lock after ten failures;
      SASS commands need a valid authentication code, and an authentic one is
      executed; the rotated address and its
      delay; the connection table.  The examples at the end of [ClientTheorems] run
      the code where it goes wrong.
    - The library: refinement of the key list to a bounded most-recently-used list
      and its storage round trip; the advertisement's layout and the exact contents
      of its Bloom filter; HMAC, HKDF against RFC 2104 and RFC 5869; round trip and
      rejection of additional data packets; the parser delivers the framed messages
      however they are cut and never leaves its buffer.
    - [CryptoSafety], [AdvertisementSafety] and the Client*Safety files hold the
      totality lemmas, on any platform, that the theorems of [Client] use;
      [ClientInvariant] holds the invariant and the proof rules for [safe].
    - The seeker: it recognises the advertisements of a provider that holds its
      account key ([InteropAdvertisement]); it confirms a pairing only when the
      provider has proved that it knows the key and shows the same passkey
      ([SeekerSafety]); a retroactive pairing that reports success has written the
      account key the seeker keeps ([SeekerRetroactive]).
    - Both sides together: a first pairing, a later one and a retroactive one run to
      the end, with the same account key on both sides, and different passkeys are
      refused ([InteropPairing], [InteropRetroactive]); what the provider announces on
      the message stream is what the seeker hears, and a request to ring is answered
      ([InteropStream]).  [ClientRetroactive] proves what the provider's part of a
      retroactive pairing does, and that a device it was never paired with can have an
      account key stored by giving its address as zero.
    - Weave: the codec of packets; the packets of a message reassemble to it; both
      sockets keep their invariant under any interleaving, and every call returns, but
      for a control packet of an unknown command, on which the server's behaviour is
      undefined ([WeaveSocketSafety]); the executor empties and a disconnection completes, a
      written message is sent packet by packet, a message of one packet is delivered
      ([WeaveSocketRun]); the handshake settles on the smaller packet size
      ([WeaveHandshake]).  The theorems also pin down where the code fails its
      purpose: messages of several packets disconnect the receiver, packet sizes
      with a low byte of 128 or more are misread where [char] is signed, an empty message blocks the
      socket, a disconnection by the peer is not reported.

    - BLE discovery: advertisements, headers and Bloom filters arrive as they were
      written, but for the PSM and for lengths that are read as negative ([BleTheorems]);
      without the reading thread the tracker never uses a deleted object, and reports
      no loss without a discovery before it ([BleTrackerSafety]); to a client that
      scans for one service it tells exactly what an account of the advertisements
      around says ([Presence], [Tracker_refines_presence] in [BleDiscovery]); the
      delay between attempts to read a header.  [BleExamples] holds the witnesses, and
      runs with two services and with the reading thread where the code goes wrong.

    - Nearby Presence: an advertisement is decoded to what was put into it, but for an
      action that is misread where [char] is signed ([PresenceTheorems]); from any state of a
      broadcaster and of a scanner, a broadcast under a public identity is discovered, and
      one under an identity whose public credential the scanner is given is discovered if
      and only if the tag the credential manager computes is that of the cipher's library,
      unless the scan filters it out and but for the same action ([PresenceRun]); in any run
      a scanner tells a client only of devices it asked for, and never fails as long as the
      sessions do not move in memory and the shifts of the decoder are defined; a client is
      answered once at most for a broadcast, which is started once unless the credential
      manager answers again ([PresenceSafety]).
      [PresenceExamples] holds the witnesses, and runs where the code does what its
      documentation does not say.

    ** Not modelled

    Trace and log output (nearby_trace.h); the implementation of the platform, other than
    mbedtls; handlers entered again from within a HAL call or an application
    callback (the C code has no protection against it either, and the platform is
    assumed to deliver events one after the other); the gLinux fakes and tests; the
    placeholder np_ldt.c; the other products of the repository (the rest of
    connections, of presence and of internal), which are C++, and generated or
    third-party code.  Of Nearby Presence: the service and its controller, the rest of the
    credential manager and the authentication of connections; a medium that calls back within
    a call.  Of BLE discovery: the medium above the tracker (ble_v2.cc), the
    string form of a UUID, the legacy hash of a service id, and interleavings inside
    a part of the reading thread that holds the mutex.  Of the seeker: what drives the parts above (the service, the scanners, the
    pairer broker, the repository and its server, the GATT and Bluetooth mediums, user
    interface and plugins), interleavings inside a call, a job or a callback, and
    the shutdown of an executor with jobs pending.  Of Weave: interleavings inside a call or a job (each is one
    step), a user callback that calls the socket again, the destruction of a socket
    with jobs pending, and the implementations of Connection.

    ** Possible extensions

    The pairer broker with its retries and the GATT client that reconnects; action
    requests in full, the retroactive pairing list as a timed
    set, the contents of the SASS connection status notifications, GATT reads of the
    PSM, the information on connected seekers, and the payloads set by each
    advertising mode; steps of the Weave sockets at the granularity of their
    mutexes. *)

From Stdlib Require Import ZArith Lia.
From stdpp Require Import base list numbers.

Open Scope Z_scope.

Declare Scope fp_scope.
Delimit Scope fp_scope with fp.
Open Scope fp_scope.

(** Hints of the development: [fp] holds the side conditions (bytes, lengths)
    and the rewriting lemmas for loads and stores. *)
Create HintDb fp.

(** * Outcomes

    A C computation either returns, stops in [nearby_platfrom_CrashOnAssert]
    because a [NEARBY_ASSERT] condition is false, or touches memory outside
    the object it addresses. *)
Inductive outcome (A : Type) : Type :=
| Done (a : A)
| Crash
| Fault.
Arguments Done {A} a.
Arguments Crash {A}.
Arguments Fault {A}.

#[export] Instance outcome_ret : MRet outcome := fun _ a => Done a.
#[export] Instance outcome_bind : MBind outcome := fun _ _ f m =>
  match m with
  | Done a => f a
  | Crash => Crash
  | Fault => Fault
  end.

Notation "'let!' x ':=' m 'in' k" := (mbind (fun x => k) m)
  (at level 200, x name, m at level 100, k at level 200, right associativity,
   format "'[v' 'let!'  x  ':='  m  'in' '/' k ']'") : fp_scope.
Notation "'let!' ' p ':=' m 'in' k" :=
  (mbind (fun x => match x with p => k end) m)
  (at level 200, p pattern, m at level 100, k at level 200, right associativity)
  : fp_scope.
Notation "'do!' m 'in' k" := (mbind (fun _ => k) m)
  (at level 200, m at level 100, k at level 200, right associativity,
   format "'[v' 'do!'  m  'in' '/' k ']'") : fp_scope.

(** [NEARBY_ASSERT(cond)] *)
Definition nearby_assert (cond : bool) : outcome unit :=
  if cond then Done tt else Crash.

(** * Machine integers *)
Definition u8 (x : Z) : Z := x mod 2 ^ 8.
Definition u16 (x : Z) : Z := x mod 2 ^ 16.
Definition u32 (x : Z) : Z := x mod 2 ^ 32.
Definition u64 (x : Z) : Z := x mod 2 ^ 64.

(** Conversion of a [uint8_t] to [int8_t]. *)
Definition s8 (x : Z) : Z := let y := u8 x in if y <? 128 then y else y - 256.

Definition is_byte (b : Z) : Prop := 0 <= b < 256.
Definition bytes_ok (l : list Z) : Prop := Forall is_byte l.

(** Value of a C condition on an integer expression such as [flags & MASK]. *)
Definition nonzero (x : Z) : bool := negb (x =? 0).

(** * Objects in memory

    An array of [uint8_t] is the list of its bytes; every access states its
    bounds, and one outside them is a [Fault]. *)
Definition load (b : list Z) (i : nat) : outcome Z :=
  match b !! i with Some v => Done v | None => Fault end.

Definition store (b : list Z) (i : nat) (v : Z) : outcome (list Z) :=
  if (i <? length b)%nat then Done (<[i := u8 v]> b) else Fault.

(** Source operand of [memcpy]/[memcmp] and of a HAL call taking a buffer. *)
Definition read_bytes (b : list Z) (off n : nat) : outcome (list Z) :=
  if (off + n <=? length b)%nat then Done (take n (drop off b)) else Fault.

(** Destination of [memcpy] and [memset]. *)
Definition write_bytes (b : list Z) (off : nat) (src : list Z)
  : outcome (list Z) :=
  if (off + length src <=? length b)%nat
  then Done (take off b ++ src ++ drop (off + length src) b)
  else Fault.

(** The same with a [size_t] offset and length, which arithmetic on lengths may
    have wrapped around. *)
Definition read_bytes_z (b : list Z) (off n : Z) : outcome (list Z) :=
  if (0 <=? off) && (0 <=? n) && (off + n <=? Z.of_nat (length b))
  then Done (take (Z.to_nat n) (drop (Z.to_nat off) b))
  else Fault.

(** [memcmp(a, b, n) == 0] on two byte strings of length [n]. *)
Definition bytes_eqb (a b : list Z) : bool := bool_decide (a = b).

(** * Lemmas *)

Lemma filter_ext_in {A} (P Q : A -> Prop) `{forall x, Decision (P x), forall x, Decision (Q x)} (l : list A) :
  (forall x, x ∈ l -> P x <-> Q x) -> filter P l = filter Q l.
Proof.
  induction l as [|x l IH]; intros Hl; [done|].
  rewrite !filter_cons, IH by (intros; apply Hl; by right).
  pose proof (Hl x (list_elem_of_here _ _)). destruct (decide (P x)), (decide (Q x)); tauto.
Qed.

Lemma done_bind {A B} (a : A) (f : A -> outcome B) : mbind f (Done a) = f a.
Proof. reflexivity. Qed.

Lemma outcome_bind_assoc {A B C} (m : outcome A) (f : A -> outcome B)
    (g : B -> outcome C) :
  mbind g (mbind f m) = mbind (fun a => mbind g (f a)) m.
Proof. by destruct m. Qed.

Lemma bind_done_inv {A B} (m : outcome A) (f : A -> outcome B) b :
  mbind f m = Done b -> exists a, m = Done a /\ f a = Done b.
Proof. destruct m; naive_solver. Qed.

Lemma u8_byte x : is_byte (u8 x).
Proof. unfold is_byte, u8. pose proof (Z.mod_pos_bound x (2 ^ 8)). lia. Qed.

Lemma u8_id x : is_byte x -> u8 x = x.
Proof. unfold is_byte, u8. intros. apply Z.mod_small. lia. Qed.

Lemma u8_u8 x : u8 (u8 x) = u8 x.
Proof. apply u8_id, u8_byte. Qed.

Lemma u16_range x : 0 <= u16 x < 65536.
Proof. unfold u16. pose proof (Z.mod_pos_bound x (2 ^ 16)). lia. Qed.

Lemma u16_id x : 0 <= x < 65536 -> u16 x = x.
Proof. unfold u16. intros. apply Z.mod_small. lia. Qed.

Lemma u32_range x : 0 <= u32 x < 2 ^ 32.
Proof. apply Z.mod_pos_bound. lia. Qed.

Lemma u32_id x : 0 <= x < 2 ^ 32 -> u32 x = x.
Proof. apply Z.mod_small. Qed.

Lemma u64_range x : 0 <= u64 x < 2 ^ 64.
Proof. apply Z.mod_pos_bound. lia. Qed.

Lemma u64_id x : 0 <= x < 2 ^ 64 -> u64 x = x.
Proof. apply Z.mod_small. Qed.

Lemma s8_range x : -128 <= s8 x < 128.
Proof.
  unfold s8. pose proof (u8_byte x) as H. unfold is_byte in H.
  destruct (Z.ltb_spec (u8 x) 128); lia.
Qed.

#[export] Hint Resolve u8_byte u16_range u32_range u64_range s8_range : fp.

Lemma bytes_ok_app a b : bytes_ok (a ++ b) <-> bytes_ok a /\ bytes_ok b.
Proof. apply Forall_app. Qed.

Lemma bytes_ok_replicate n b : is_byte b -> bytes_ok (replicate n b).
Proof. intros. by apply Forall_replicate. Qed.

Lemma bytes_ok_take n l : bytes_ok l -> bytes_ok (take n l).
Proof. apply Forall_take. Qed.

Lemma bytes_ok_drop n l : bytes_ok l -> bytes_ok (drop n l).
Proof. apply Forall_drop. Qed.

Lemma bytes_ok_insert i v l : bytes_ok l -> is_byte v -> bytes_ok (<[i:=v]> l).
Proof. intros. by apply Forall_insert. Qed.

#[export] Hint Resolve bytes_ok_replicate bytes_ok_take bytes_ok_drop
  bytes_ok_insert : fp.

(** Decides [bytes_ok] on concrete bytes. *)
Lemma bytes_ok_true l :
  forallb (fun b => (0 <=? b) && (b <? 256)) l = true -> bytes_ok l.
Proof.
  intros H. apply Forall_forall. intros b Hb.
  pose proof (proj1 (forallb_forall _ _) H b Hb) as E. cbn beta in E.
  apply andb_true_iff in E as [E1%Z.leb_le E2%Z.ltb_lt]. done.
Qed.

Lemma load_done b i v : b !! i = Some v -> load b i = Done v.
Proof. unfold load. by intros ->. Qed.

Lemma load_lt b i : (i < length b)%nat -> exists v, load b i = Done v /\ b !! i = Some v.
Proof. intros [v Hv]%lookup_lt_is_Some. exists v. by rewrite (load_done _ _ _ Hv). Qed.

Lemma store_done b i v : (i < length b)%nat -> store b i v = Done (<[i := u8 v]> b).
Proof. unfold store. intros H%Nat.ltb_lt. by rewrite H. Qed.

Lemma store_fault b i v : (length b <= i)%nat -> store b i v = Fault.
Proof. unfold store. intros H. by rewrite (proj2 (Nat.ltb_ge _ _) H). Qed.

Lemma store_app pre x rest v :
  store (pre ++ x :: rest) (length pre) v = Done (pre ++ u8 v :: rest).
Proof.
  rewrite store_done by (rewrite length_app; simpl; lia).
  f_equal. rewrite insert_app_r_alt by lia. by rewrite Nat.sub_diag.
Qed.

Lemma read_bytes_done b off n :
  (off + n <= length b)%nat -> read_bytes b off n = Done (take n (drop off b)).
Proof. unfold read_bytes. intros H%Nat.leb_le. by rewrite H. Qed.

Lemma read_bytes_fault b off n :
  (length b < off + n)%nat -> read_bytes b off n = Fault.
Proof. unfold read_bytes. intros H%Nat.leb_gt. by rewrite H. Qed.

Lemma read_bytes_all b : read_bytes b 0 (length b) = Done b.
Proof. rewrite read_bytes_done by lia. by rewrite drop_0, firstn_all. Qed.

Lemma read_bytes_inv b off n r :
  read_bytes b off n = Done r -> (off + n <= length b)%nat /\ r = take n (drop off b).
Proof. unfold read_bytes. destruct (Nat.leb_spec (off + n) (length b)); naive_solver. Qed.

Lemma read_bytes_app pre mid rest :
  read_bytes (pre ++ mid ++ rest) (length pre) (length mid) = Done mid.
Proof.
  rewrite read_bytes_done by (rewrite !length_app; lia).
  by rewrite drop_app_length, take_app_length.
Qed.

Lemma read_bytes_z_done b off n :
  0 <= off -> 0 <= n -> off + n <= Z.of_nat (length b) ->
  read_bytes_z b off n = Done (take (Z.to_nat n) (drop (Z.to_nat off) b)).
Proof.
  intros. unfold read_bytes_z.
  by rewrite !(proj2 (Z.leb_le _ _)) by done.
Qed.

Lemma read_bytes_z_fault b off n :
  Z.of_nat (length b) < off -> 0 <= n -> read_bytes_z b off n = Fault.
Proof.
  intros. unfold read_bytes_z. rewrite (proj2 (Z.leb_gt (off + n) _)) by lia.
  by rewrite andb_false_r.
Qed.

Lemma write_bytes_done b off src :
  (off + length src <= length b)%nat ->
  write_bytes b off src = Done (take off b ++ src ++ drop (off + length src) b).
Proof. unfold write_bytes. intros H%Nat.leb_le. by rewrite H. Qed.

Lemma write_bytes_fault b off src :
  (length b < off + length src)%nat -> write_bytes b off src = Fault.
Proof. unfold write_bytes. intros H%Nat.leb_gt. by rewrite H. Qed.

Lemma write_bytes_app pre mid rest src :
  length src = length mid ->
  write_bytes (pre ++ mid ++ rest) (length pre) src = Done (pre ++ src ++ rest).
Proof.
  intros H. rewrite write_bytes_done by (rewrite !length_app; lia).
  rewrite H, take_app_length, drop_app_add', drop_app_length; auto.
Qed.

Lemma write_bytes_tail b off src :
  (off <= length b)%nat -> length src = (length b - off)%nat ->
  write_bytes b off src = Done (take off b ++ src).
Proof.
  intros Ho Hs. rewrite write_bytes_done by lia.
  by rewrite drop_ge, app_nil_r by lia.
Qed.

Lemma write_bytes_length b off src b' :
  write_bytes b off src = Done b' -> length b' = length b.
Proof.
  unfold write_bytes. destruct (Nat.leb_spec (off + length src) (length b)); [|done].
  intros [= <-]. rewrite !length_app, length_take, length_drop. lia.
Qed.

Lemma store_length b i v b' : store b i v = Done b' -> length b' = length b.
Proof.
  unfold store. destruct (i <? length b)%nat; [|done]. intros [= <-].
  apply length_insert.
Qed.

Lemma bytes_eqb_refl a : bytes_eqb a a = true.
Proof. by apply bool_decide_eq_true. Qed.

Lemma bytes_eqb_eq a b : bytes_eqb a b = true <-> a = b.
Proof. apply bool_decide_eq_true. Qed.

Lemma bytes_eqb_neq a b : bytes_eqb a b = false <-> a <> b.
Proof. apply bool_decide_eq_false. Qed.

#[export] Hint Rewrite @done_bind u8_u8 bytes_eqb_refl : fp.

(** Every byte is the pair of its nibbles. *)
Lemma land_15 x : Z.land x 15 = x mod 16.
Proof. change 15 with (Z.ones 4). by rewrite Z.land_ones. Qed.

Lemma land_255 x : Z.land x 255 = x mod 256.
Proof. change 255 with (Z.ones 8). by rewrite Z.land_ones. Qed.

Lemma shiftr_4 x : Z.shiftr x 4 = x / 16.
Proof. by rewrite Z.shiftr_div_pow2. Qed.

Lemma land_shiftl_low n a b :
  0 <= n -> 0 <= b < 2 ^ n -> Z.land (Z.shiftl a n) b = 0.
Proof.
  intros Hn Hb. apply Z.bits_inj'. intros m Hm. rewrite Z.land_spec, Z.bits_0.
  destruct (Z.lt_ge_cases m n); [by rewrite Z.shiftl_spec_low|].
  rewrite <- (Z.mod_small b (2 ^ n)), Z.mod_pow2_bits_high by lia. apply andb_false_r.
Qed.

Lemma lor_shiftl_low n a b :
  0 <= n -> 0 <= b < 2 ^ n -> Z.lor (Z.shiftl a n) b = 2 ^ n * a + b.
Proof.
  intros Hn Hb. pose proof (Z.add_lor_land (Z.shiftl a n) b) as H.
  rewrite land_shiftl_low, Z.shiftl_mul_pow2 in * by lia. lia.
Qed.

Lemma lxor_shiftl_low n a b :
  0 <= n -> 0 <= b < 2 ^ n -> Z.lxor (Z.shiftl a n) b = 2 ^ n * a + b.
Proof.
  intros Hn Hb. rewrite Z.lxor_lor by (by apply land_shiftl_low). by apply lor_shiftl_low.
Qed.

(** A number without bits from [n] on is below [2 ^ n]. *)
Lemma bits_below n x :
  0 <= n -> 0 <= x -> (forall m, n <= m -> Z.testbit x m = false) -> x < 2 ^ n.
Proof.
  intros Hn Hx Hb. assert (x mod 2 ^ n = x) as <-; [|apply Z.mod_pos_bound; lia].
  apply Z.bits_inj'. intros m Hm. destruct (Z.lt_ge_cases m n).
  - by rewrite Z.mod_pow2_bits_low.
  - rewrite Z.mod_pow2_bits_high by lia. symmetry. by apply Hb.
Qed.

Lemma byte_nibbles b : is_byte b -> b = 16 * (b / 16) + b mod 16 /\ 0 <= b / 16 < 16 /\ 0 <= b mod 16 < 16.
Proof. unfold is_byte. intros. Z.to_euclidean_division_equations. lia. Qed.

(** Exclusive or of two byte strings, the shorter one deciding the length. *)
Definition xor_bytes (a b : list Z) : list Z := zip_with Z.lxor a b.

Lemma lxor_byte a b : is_byte a -> is_byte b -> is_byte (Z.lxor a b).
Proof.
  unfold is_byte. intros [? ?] [? ?]. split; [by apply Z.lxor_nonneg; split|].
  destruct (Z.eq_dec (Z.lxor a b) 0); [lia|].
  assert (0 <= Z.lxor a b) by (by apply Z.lxor_nonneg).
  change 256 with (2 ^ 8). apply Z.log2_lt_pow2; [lia|].
  pose proof (Z.log2_lxor a b). 
  assert (forall x, 0 <= x < 256 -> Z.log2 x < 8) as Hl.
  { intros x Hx. destruct (Z.eq_dec x 0) as [->|]; [done|]. apply Z.log2_lt_pow2; lia. }
  pose proof (Hl a). pose proof (Hl b). lia.
Qed.

Lemma xor_bytes_length a b : length (xor_bytes a b) = Nat.min (length a) (length b).
Proof. apply length_zip_with. Qed.

Lemma xor_bytes_involutive a b :
  (length a <= length b)%nat -> xor_bytes (xor_bytes a b) b = a.
Proof.
  revert b. induction a as [|x a IH]; intros [|y b] H; simpl in *; try lia; auto.
  f_equal; [|apply IH; lia]. by rewrite Z.lxor_assoc, Z.lxor_nilpotent, Z.lxor_0_r.
Qed.

Lemma xor_bytes_ok a b : bytes_ok a -> bytes_ok b -> bytes_ok (xor_bytes a b).
Proof.
  intros Ha. revert b. induction Ha; intros [|y b] Hb; simpl; [by constructor..|].
  inversion Hb; subst. constructor; [by apply lxor_byte|by apply IHHa].
Qed.

#[export] Hint Resolve lxor_byte xor_bytes_ok : fp.

(** Case analysis on the first [if]/[match] in head position of the goal or of
    a hypothesis, keeping the equation. *)
Ltac case_head :=
  match goal with
  | |- context [match ?x with _ => _ end] => destruct x eqn:?
  | H : context [match ?x with _ => _ end] |- _ => destruct x eqn:?
  end.

(** Turn boolean comparisons in the context into propositions. *)
Ltac bool_to_prop :=
  repeat match goal with
  | H : (_ && _)%bool = true |- _ => apply andb_true_iff in H as [? ?]
  | H : (_ || _)%bool = false |- _ => apply orb_false_iff in H as [? ?]
  | H : (_ || _)%bool = true |- _ => apply orb_true_iff in H
  | H : negb _ = true |- _ => apply negb_true_iff in H
  | H : negb _ = false |- _ => apply negb_false_iff in H
  | H : (_ <? _)%Z = true |- _ => apply Z.ltb_lt in H
  | H : (_ <? _)%Z = false |- _ => apply Z.ltb_ge in H
  | H : (_ <=? _)%Z = true |- _ => apply Z.leb_le in H
  | H : (_ <=? _)%Z = false |- _ => apply Z.leb_gt in H
  | H : (_ =? _)%Z = true |- _ => apply Z.eqb_eq in H
  | H : (_ =? _)%Z = false |- _ => apply Z.eqb_neq in H
  | H : (_ <? _)%nat = true |- _ => apply Nat.ltb_lt in H
  | H : (_ <? _)%nat = false |- _ => apply Nat.ltb_ge in H
  | H : (_ <=? _)%nat = true |- _ => apply Nat.leb_le in H
  | H : (_ <=? _)%nat = false |- _ => apply Nat.leb_gt in H
  | H : (_ =? _)%nat = true |- _ => apply Nat.eqb_eq in H
  | H : (_ =? _)%nat = false |- _ => apply Nat.eqb_neq in H
  | H : bytes_eqb _ _ = true |- _ => apply bytes_eqb_eq in H
  | H : bytes_eqb _ _ = false |- _ => apply bytes_eqb_neq in H
  end.
