(* ===== verification/Utils.v ===== *)
(** Model of src/embedded/common/source/nearby_utils.c: byte extraction, big
    and little endian copies, and the hexadecimal formatting of byte arrays and
    addresses used in logs.  Buffers passed by pointer are a list and an
    offset into it. *)

From Stdlib Require Import ZArith Lia.
From stdpp Require Import base list numbers.
From S2P Require Import Prelude.

Module Utils.

(** * Definitions *)

Definition nearby_utils_GetByte (source : Z) (byteNumber : nat) : Z :=
  u8 (Z.shiftr source (8 * Z.of_nat byteNumber)).

Fixpoint CopyBigEndian_loop (k i bytes : nat) (off : nat) (source : Z)
    (dest : list Z) : outcome (list Z) :=
  match k with
  | O => Done dest
  | S k' =>
    let! dest := store dest (off + (bytes - i - 1)) (nearby_utils_GetByte source i) in
    CopyBigEndian_loop k' (S i) bytes off source dest
  end.

Definition nearby_utils_CopyBigEndian (dest : list Z) (off : nat) (source : Z)
    (bytes : nat) : outcome (list Z) :=
  CopyBigEndian_loop bytes 0 bytes off source dest.

Fixpoint CopyLittleEndian_loop (k i : nat) (off : nat) (source : Z)
    (dest : list Z) : outcome (list Z) :=
  match k with
  | O => Done dest
  | S k' =>
    let! dest := store dest (off + i) (nearby_utils_GetByte source i) in
    CopyLittleEndian_loop k' (S i) off source dest
  end.

Definition nearby_utils_CopyLittleEndian (dest : list Z) (off : nat)
    (source : Z) (bytes : nat) : outcome (list Z) :=
  CopyLittleEndian_loop bytes 0 off source dest.

Definition nearby_utils_GetBigEndian24 (buffer : list Z) (off : nat)
  : outcome Z :=
  let! b0 := load buffer off in
  let! b1 := load buffer (off + 1) in
  let! b2 := load buffer (off + 2) in
  Done (u32 (256 * 256 * b0 + 256 * b1 + b2)).

(** The products are computed at type [int]; the value is the one of two's
    complement wrap-around, see [GetBigEndian32_exceeds_int]. *)
Definition nearby_utils_GetBigEndian32 (buffer : list Z) (off : nat)
  : outcome Z :=
  let! b0 := load buffer off in
  let! b1 := load buffer (off + 1) in
  let! b2 := load buffer (off + 2) in
  let! b3 := load buffer (off + 3) in
  Done (u32 (256 * 256 * 256 * b0 + 256 * 256 * b1 + 256 * b2 + b3)).

Definition nearby_utils_GetBigEndian48 (b : list Z) (off : nat) : outcome Z :=
  let! b0 := load b off in
  let! b1 := load b (off + 1) in
  let! b2 := load b (off + 2) in
  let! b3 := load b (off + 3) in
  let! b4 := load b (off + 4) in
  let! b5 := load b (off + 5) in
  Done (Z.lor (Z.lor (Z.lor (Z.lor (Z.lor (Z.shiftl b0 40) (Z.shiftl b1 32))
         (Z.shiftl b2 24)) (Z.shiftl b3 16)) (Z.shiftl b4 8)) b5).

Definition NibbleToHex (value : Z) : Z :=
  if value <? 10 then 48 + value
  else let value := u8 (value - 10) in
       if value <? 6 then 65 + value else 63.

(** [static char buffer[80]] of [nearby_utils_ArrayToString] *)
Definition ARRAY_BUFFER_SIZE : nat := 80.

Fixpoint ArrayToString_loop (k j : nat) (data buffer : list Z)
  : outcome (list Z) :=
  match k with
  | O => Done buffer
  | S k' =>
    let! x := load data j in
    let! buffer := store buffer (2 * j) (NibbleToHex (Z.shiftr x 4)) in
    let! buffer := store buffer (2 * j + 1) (NibbleToHex (Z.land x 15)) in
    ArrayToString_loop k' (S j) data buffer
  end.

(** [buffer] is the static buffer's previous content; the result is its new
    content, whose C string is the text returned. *)
Definition nearby_utils_ArrayToString (buffer data : list Z) (len : nat)
  : outcome (list Z) :=
  let buffer_size := ARRAY_BUFFER_SIZE in
  if (2 * len <? buffer_size - 1)%nat then
    let num_bytes := (2 * len)%nat in
    let! buffer := store buffer num_bytes 0 in
    ArrayToString_loop (num_bytes / 2) 0 data buffer
  else
    let! buffer := store buffer (buffer_size - 1) 0 in
    let! buffer := store buffer (buffer_size - 2) 46 in
    let! buffer := store buffer (buffer_size - 3) 46 in
    let! buffer := store buffer (buffer_size - 4) 46 in
    let num_bytes := (buffer_size - 4)%nat in
    ArrayToString_loop (num_bytes / 2) 0 data buffer.

(** [static char buffer[18]] of [nearby_utils_MacToString] *)
Definition MAC_BUFFER_SIZE : nat := 18.

(** [*p = v] for [p = buffer + i]; a negative [i] is before the object. *)
Definition store_ptr (buffer : list Z) (i v : Z) : outcome (list Z) :=
  if i <? 0 then Fault else store buffer (Z.to_nat i) v.

Fixpoint MacToString_loop (fuel : nat) (p address : Z) (buffer : list Z)
  : outcome (list Z) :=
  if 0 <? p then
    match fuel with
    | O => Fault
    | S fuel' =>
      let! buffer := store_ptr buffer p (NibbleToHex (Z.land address 15)) in
      let p := p - 1 in
      let address := Z.shiftr address 4 in
      let! buffer := store_ptr buffer p (NibbleToHex (Z.land address 15)) in
      let p := p - 1 in
      let address := Z.shiftr address 4 in
      if 0 <=? p then
        let! buffer := store_ptr buffer p 58 in
        MacToString_loop fuel' (p - 1) address buffer
      else MacToString_loop fuel' p address buffer
    end
  else Done buffer.

Definition nearby_utils_MacToString (buffer : list Z) (address : Z)
  : outcome (list Z) :=
  let p := Z.of_nat MAC_BUFFER_SIZE - 1 in
  let! buffer := store_ptr buffer p 0 in
  MacToString_loop MAC_BUFFER_SIZE (p - 1) address buffer.

(** * Reference definitions *)

Definition le_bytes (n : nat) (x : Z) : list Z :=
  nearby_utils_GetByte x <$> seq 0 n.
Definition be_bytes (n : nat) (x : Z) : list Z := reverse (le_bytes n x).

(** Value of a byte string read most significant byte first. *)
Definition be_value (l : list Z) : Z := fold_left (fun a b => 256 * a + b) l 0.

(** The two hexadecimal digits of a byte, and the digit's value. *)
Definition hex_pair (x : Z) : list Z :=
  [NibbleToHex (Z.shiftr x 4); NibbleToHex (Z.land x 15)].
Definition hex_value (c : Z) : Z := if c <? 58 then c - 48 else c - 55.

(** Text of an address: six pairs separated by colons. *)
Definition mac_text (address : Z) : list Z :=
  match be_bytes 6 address with
  | b :: bs => hex_pair b ++ (bs ≫= fun b => 58 :: hex_pair b)
  | [] => []
  end.

(** * Lemmas *)

Lemma le_bytes_length n x : length (le_bytes n x) = n.
Proof. unfold le_bytes. by rewrite length_fmap, length_seq. Qed.

Lemma be_bytes_length n x : length (be_bytes n x) = n.
Proof. unfold be_bytes. by rewrite length_reverse, le_bytes_length. Qed.

Lemma le_bytes_ok n x : bytes_ok (le_bytes n x).
Proof. apply Forall_fmap, Forall_true. intros. apply u8_byte. Qed.

Lemma be_bytes_ok n x : bytes_ok (be_bytes n x).
Proof. apply Forall_reverse, le_bytes_ok. Qed.

Lemma GetByte_spec x i :
  nearby_utils_GetByte x i = (x / 256 ^ Z.of_nat i) mod 256.
Proof.
  unfold nearby_utils_GetByte, u8. rewrite Z.shiftr_div_pow2 by lia.
  by rewrite Z.pow_mul_r by lia.
Qed.

Lemma be_bytes_S n x :
  be_bytes (S n) x = nearby_utils_GetByte x n :: be_bytes n x.
Proof.
  unfold be_bytes, le_bytes. rewrite seq_S, fmap_app, reverse_app. done.
Qed.

Lemma le_bytes_S n x : le_bytes (S n) x = u8 x :: le_bytes n (x / 256).
Proof.
  unfold le_bytes. cbn [seq]. rewrite <- fmap_S_seq, fmap_cons. f_equal.
  rewrite <- list_fmap_compose. apply list_fmap_ext. intros i y _.
  unfold compose. rewrite !GetByte_spec, Nat2Z.inj_succ, Z.pow_succ_r by lia.
  rewrite Z.div_div by lia. done.
Qed.

Lemma be_bytes_snoc n x :
  be_bytes (S n) x = be_bytes n (x / 256) ++ [u8 x].
Proof. unfold be_bytes. by rewrite le_bytes_S, reverse_cons. Qed.

Lemma be_value_app l b : be_value (l ++ [b]) = 256 * be_value l + b.
Proof. unfold be_value. by rewrite fold_left_app. Qed.

Lemma be_value_be_bytes n x : be_value (be_bytes n x) = x mod 256 ^ Z.of_nat n.
Proof.
  revert x. induction n as [|n IH]; intros x; [simpl; by rewrite Z.mod_1_r|].
  rewrite be_bytes_snoc, be_value_app, IH, Nat2Z.inj_succ, Z.pow_succ_r by lia.
  unfold u8. change (2 ^ 8) with 256.
  rewrite (Z.rem_mul_r x 256) by lia. lia.
Qed.

Lemma be_value_range l :
  bytes_ok l -> 0 <= be_value l < 256 ^ Z.of_nat (length l).
Proof.
  induction l as [|b l IH] using rev_ind; [simpl; unfold be_value; simpl; lia|].
  rewrite bytes_ok_app. intros [Hl Hb]. inversion Hb; subst.
  unfold is_byte in *. specialize (IH Hl).
  rewrite be_value_app, length_app, Nat.add_1_r, Nat2Z.inj_succ, Z.pow_succ_r by lia.
  lia.
Qed.

Lemma be_bytes_be_value l : bytes_ok l -> be_bytes (length l) (be_value l) = l.
Proof.
  induction l as [|x l IH] using rev_ind; [done|].
  rewrite bytes_ok_app. intros [Hl Hb]. inversion Hb; subst.
  rewrite length_app, Nat.add_1_r, be_bytes_snoc, be_value_app.
  unfold is_byte in *. f_equal.
  - replace ((256 * be_value l + x) / 256) with (be_value l); [by apply IH|].
    Z.to_euclidean_division_equations. lia.
  - f_equal. unfold u8. change (2 ^ 8) with 256. Z.to_euclidean_division_equations. lia.
Qed.

Lemma CopyBigEndian_loop_spec k i bytes off source dest :
  (k + i = bytes)%nat -> (off + bytes <= length dest)%nat ->
  CopyBigEndian_loop k i bytes off source dest =
  Done (take off dest
        ++ reverse (nearby_utils_GetByte source <$> seq i k)
        ++ drop (off + k) dest).
Proof.
  revert i dest. induction k as [|k IH]; intros i dest Hk Hlen.
  { simpl. rewrite Nat.add_0_r, take_drop. done. }
  cbn [CopyBigEndian_loop]. replace (bytes - i - 1)%nat with k by lia.
  rewrite store_done, done_bind by lia.
  rewrite IH by (rewrite ?length_insert; lia).
  f_equal. rewrite take_insert_ge by lia. f_equal.
  cbn [seq fmap list_fmap]. rewrite reverse_cons, <- app_assoc. f_equal.
  rewrite drop_insert_ge by lia. replace (off + k - (off + k))%nat with 0%nat by lia.
  rewrite (drop_S dest (default 0 (dest !! (off + k)%nat)) (off + k)).
  - simpl. unfold nearby_utils_GetByte. by rewrite u8_u8, Nat.add_succ_r.
  - destruct (lookup_lt_is_Some_2 dest (off + k)) as [v ->]; [lia|done].
Qed.

(** The destination range receives exactly the big endian bytes. *)
Lemma CopyBigEndian_spec dest off source bytes :
  (off + bytes <= length dest)%nat ->
  nearby_utils_CopyBigEndian dest off source bytes =
  write_bytes dest off (be_bytes bytes source).
Proof.
  intros. unfold nearby_utils_CopyBigEndian.
  rewrite CopyBigEndian_loop_spec by lia.
  by rewrite write_bytes_done; rewrite be_bytes_length.
Qed.

Lemma CopyLittleEndian_loop_spec k i off source dest :
  (off + i + k <= length dest)%nat ->
  CopyLittleEndian_loop k i off source dest =
  write_bytes dest (off + i) (nearby_utils_GetByte source <$> seq i k).
Proof.
  revert i dest. induction k as [|k IH]; intros i dest Hlen.
  { simpl. rewrite write_bytes_done by (simpl; lia). simpl.
    by rewrite Nat.add_0_r, take_drop. }
  cbn [CopyLittleEndian_loop]. rewrite store_done, done_bind by lia.
  rewrite IH by (rewrite length_insert; lia).
  rewrite !write_bytes_done
    by (rewrite ?length_insert, length_fmap, length_seq; lia).
  rewrite !length_fmap, !length_seq. f_equal.
  rewrite drop_insert_lt by lia.
  replace (off + S i)%nat with (S (off + i)) by lia.
  rewrite (take_S_r _ _ (u8 (nearby_utils_GetByte source i))).
  - rewrite take_insert_ge by lia. rewrite <- app_assoc. f_equal.
    simpl. unfold nearby_utils_GetByte at 1. rewrite u8_u8. do 3 f_equal. lia.
  - rewrite list_lookup_insert_eq; [done|lia].
Qed.

Lemma CopyLittleEndian_spec dest off source bytes :
  (off + bytes <= length dest)%nat ->
  nearby_utils_CopyLittleEndian dest off source bytes =
  write_bytes dest off (le_bytes bytes source).
Proof.
  intros. unfold nearby_utils_CopyLittleEndian.
  rewrite CopyLittleEndian_loop_spec by lia. by rewrite Nat.add_0_r.
Qed.

Lemma load_drop b off i : load b (off + i) = load (drop off b) i.
Proof. unfold load. by rewrite lookup_drop. Qed.

Lemma lor_shiftl_byte a b : is_byte b -> Z.lor (Z.shiftl a 8) b = 256 * a + b.
Proof. intros Hb. apply (lor_shiftl_low 8 a b); [lia|exact Hb]. Qed.

(** Unfold a prefix of known length of a buffer. *)
Ltac destruct_prefix l n H :=
  lazymatch n with
  | O => idtac
  | S ?m => destruct l as [|? l]; [simpl in H; lia|]; destruct_prefix l m H
  end.

Lemma GetBigEndian48_spec b off :
  bytes_ok b -> (off + 6 <= length b)%nat ->
  nearby_utils_GetBigEndian48 b off = Done (be_value (take 6 (drop off b))).
Proof.
  intros Hb Hlen. unfold nearby_utils_GetBigEndian48.
  rewrite <- (Nat.add_0_r off) at 1. rewrite !load_drop.
  apply (bytes_ok_drop off) in Hb.
  assert (6 <= length (drop off b))%nat as H by (rewrite length_drop; lia).
  destruct (drop off b) as [|x0 [|x1 [|x2 [|x3 [|x4 [|x5 r]]]]]]; simpl in H; try lia.
  unfold bytes_ok in Hb. rewrite !Forall_cons_iff in Hb. destruct_and!.
  unfold load; simpl. f_equal. unfold be_value; simpl.
  rewrite <- !lor_shiftl_byte by done.
  rewrite !Z.shiftl_lor, !Z.shiftl_shiftl by lia. done.
Qed.

Lemma GetBigEndian24_spec b off :
  bytes_ok b -> (off + 3 <= length b)%nat ->
  nearby_utils_GetBigEndian24 b off = Done (be_value (take 3 (drop off b))).
Proof.
  intros Hb Hlen. unfold nearby_utils_GetBigEndian24.
  rewrite <- (Nat.add_0_r off) at 1. rewrite !load_drop.
  apply (bytes_ok_drop off) in Hb.
  assert (3 <= length (drop off b))%nat as H by (rewrite length_drop; lia).
  destruct (drop off b) as [|x0 [|x1 [|x2 r]]]; simpl in H; try lia.
  unfold bytes_ok, is_byte in Hb. rewrite !Forall_cons_iff in Hb. destruct_and!.
  unfold load; simpl. f_equal. unfold be_value; simpl. rewrite u32_id; lia.
Qed.

Lemma GetBigEndian32_spec b off :
  bytes_ok b -> (off + 4 <= length b)%nat ->
  nearby_utils_GetBigEndian32 b off = Done (be_value (take 4 (drop off b))).
Proof.
  intros Hb Hlen. unfold nearby_utils_GetBigEndian32.
  rewrite <- (Nat.add_0_r off) at 1. rewrite !load_drop.
  apply (bytes_ok_drop off) in Hb.
  assert (4 <= length (drop off b))%nat as H by (rewrite length_drop; lia).
  destruct (drop off b) as [|x0 [|x1 [|x2 [|x3 r]]]]; simpl in H; try lia.
  unfold bytes_ok, is_byte in Hb. rewrite !Forall_cons_iff in Hb. destruct_and!.
  unfold load; simpl. f_equal. unfold be_value; simpl. rewrite u32_id; lia.
Qed.

Lemma write_be_read dest off n x d :
  write_bytes dest off (be_bytes n x) = Done d ->
  length d = length dest /\ take n (drop off d) = be_bytes n x.
Proof.
  intros H. split; [by eapply write_bytes_length|].
  unfold write_bytes in H. case_head; [|done]. bool_to_prop. injection H as <-.
  rewrite be_bytes_length in *.
  rewrite drop_app_length' by (rewrite length_take; lia).
  by rewrite take_app_length' by (rewrite be_bytes_length; lia).
Qed.

Lemma write_be_bytes_ok dest off n x d :
  bytes_ok dest -> write_bytes dest off (be_bytes n x) = Done d -> bytes_ok d.
Proof.
  intros Hd H. unfold write_bytes in H. case_head; [|done]. injection H as <-.
  rewrite !bytes_ok_app. auto using be_bytes_ok with fp.
Qed.

Lemma NibbleToHex_digit v : 0 <= v < 16 -> hex_value (NibbleToHex v) = v /\ is_byte (NibbleToHex v).
Proof.
  intros H. assert (In v (Z.of_nat <$> seq 0 16)) as Hin.
  { apply list_elem_of_In, list_elem_of_fmap. exists (Z.to_nat v).
    rewrite list_elem_of_In, in_seq. lia. }
  revert v H Hin. simpl. unfold is_byte. intros v _ Hin.
  repeat (destruct Hin as [<-|Hin]; [vm_compute; intuition congruence|]). done.
Qed.

(** Writing an address with [nearby_utils_CopyBigEndian] and reading it back
    with [nearby_utils_GetBigEndian48] returns the address, for every 48 bit
    address and every place in a buffer; the rest of the buffer is unchanged. *)
Theorem BigEndian48_roundtrip dest off x :
  bytes_ok dest -> (off + 6 <= length dest)%nat -> 0 <= x < 2 ^ 48 ->
  exists d, nearby_utils_CopyBigEndian dest off x 6 = Done d
    /\ nearby_utils_GetBigEndian48 d off = Done x
    /\ take off d = take off dest /\ drop (off + 6) d = drop (off + 6) dest.
Proof.
  intros Hd Hlen Hx. rewrite CopyBigEndian_spec by done.
  rewrite write_bytes_done by (rewrite be_bytes_length; lia).
  eexists. split; [done|].
  rewrite be_bytes_length. split; [|split].
  - rewrite GetBigEndian48_spec.
    + rewrite drop_app_length', take_app_length' by (rewrite ?be_bytes_length, ?length_take; lia).
      rewrite be_value_be_bytes. f_equal. by apply Z.mod_small.
    + rewrite !bytes_ok_app. auto using be_bytes_ok with fp.
    + rewrite !length_app, be_bytes_length, length_take, length_drop. lia.
  - rewrite take_app_length'; [done|rewrite length_take; lia].
  - rewrite app_assoc, drop_app_length'; [done|].
    rewrite length_app, be_bytes_length, length_take. lia.
Qed.

Example BigEndian48_roundtrip_witness :
  exists d, nearby_utils_CopyBigEndian (replicate 8 0) 1 0xA0A1A2A3A4A5 6 = Done d
    /\ nearby_utils_GetBigEndian48 d 1 = Done 0xA0A1A2A3A4A5
    /\ take 1 d = take 1 (replicate 8 0) /\ drop (1 + 6) d = drop (1 + 6) (replicate 8 0).
Proof.
  apply (BigEndian48_roundtrip (replicate 8 0) 1 0xA0A1A2A3A4A5).
  - apply bytes_ok_replicate. split; lia.
  - simpl. lia.
  - lia.
Defined.

(** The text of an address: whatever the static buffer held, all 18 bytes
    are written, inside the buffer, with the six hexadecimal pairs from the most
    significant byte to the least, separated by colons and NUL terminated. *)
Theorem MacToString_text buffer address :
  length buffer = MAC_BUFFER_SIZE ->
  nearby_utils_MacToString buffer address = Done (mac_text address ++ [0]).
Proof.
  intros H. do 18 (destruct buffer as [|? buffer]; [done|]).
  destruct buffer; [clear H|done].
  assert (forall x, u8 (NibbleToHex (Z.land x 15)) = NibbleToHex (Z.land x 15)) as Hn.
  { intros x. apply u8_id, NibbleToHex_digit. rewrite land_15. apply Z.mod_pos_bound. lia. }
  unfold nearby_utils_MacToString, mac_text, be_bytes, le_bytes, hex_pair.
  lazy -[NibbleToHex u8 Z.land Z.shiftr nearby_utils_GetByte].
  rewrite !Hn. rewrite !Z.shiftr_shiftr by lia.
  assert (forall i, Z.land (nearby_utils_GetByte address i) 15
    = Z.land (Z.shiftr address (8 * Z.of_nat i)) 15) as Hlo.
  { intros i. unfold nearby_utils_GetByte, u8. rewrite !land_15.
    change (2 ^ 8) with (16 * 16). rewrite Z.rem_mul_r by lia.
    Z.to_euclidean_division_equations. lia. }
  assert (forall i, Z.shiftr (nearby_utils_GetByte address i) 4
    = Z.land (Z.shiftr address (8 * Z.of_nat i + 4)) 15) as Hhi.
  { intros i. unfold nearby_utils_GetByte, u8. rewrite land_15, <- Z.shiftr_shiftr by lia.
    rewrite !shiftr_4. change (2 ^ 8) with (16 * 16). rewrite Z.rem_mul_r by lia.
    Z.to_euclidean_division_equations. lia. }
  by rewrite !Hlo, !Hhi.
Qed.

Example MacToString_text_witness :
  nearby_utils_MacToString (replicate 18 7) 0xA0B1C2D3E4F5 =
  Done (mac_text 0xA0B1C2D3E4F5 ++ [0]).
Proof. apply (MacToString_text (replicate 18 7) 0xA0B1C2D3E4F5). reflexivity. Defined.

Lemma hex_pair_stored x :
  is_byte x ->
  u8 (NibbleToHex (Z.shiftr x 4)) = NibbleToHex (Z.shiftr x 4) /\
  u8 (NibbleToHex (Z.land x 15)) = NibbleToHex (Z.land x 15).
Proof.
  intros H%byte_nibbles. rewrite shiftr_4, land_15.
  split; apply u8_id, NibbleToHex_digit; lia.
Qed.

Lemma ArrayToString_loop_spec k j data buffer :
  bytes_ok data -> (j + k <= length data)%nat -> (2 * (j + k) <= length buffer)%nat ->
  ArrayToString_loop k j data buffer =
  Done (take (2 * j) buffer ++ (take k (drop j data) ≫= hex_pair)
        ++ drop (2 * (j + k)) buffer).
Proof.
  intros Hd. revert j buffer. induction k as [|k IH]; intros j buffer Hj Hb.
  { cbn [ArrayToString_loop]. rewrite Nat.add_0_r, take_0.
    cbn [mbind list_bind app]. by rewrite take_drop. }
  cbn [ArrayToString_loop].
  destruct (lookup_lt_is_Some_2 data j) as [x Hx]; [lia|].
  rewrite (load_done _ _ _ Hx), done_bind, store_done, done_bind by lia.
  rewrite store_done, done_bind by (rewrite length_insert; lia).
  rewrite IH by (rewrite ?length_insert; lia).
  assert (is_byte x) as Hxb by (eapply Forall_lookup_1; eauto).
  destruct (hex_pair_stored x Hxb) as [-> ->].
  f_equal. rewrite (drop_S _ _ _ Hx). cbn [take mbind list_bind].
  rewrite !drop_insert_lt by lia. replace (S j + k)%nat with (j + S k)%nat by lia.
  replace (2 * S j)%nat with (S (S (2 * j))) by lia.
  rewrite (take_S_r _ (S (2 * j)) (NibbleToHex (Z.land x 15))).
  2:{ replace (2 * j + 1)%nat with (S (2 * j)) by lia.
      apply list_lookup_insert_eq. rewrite length_insert. lia. }
  rewrite take_insert_ge by lia.
  rewrite (take_S_r _ (2 * j) (NibbleToHex (Z.shiftr x 4)))
    by (apply list_lookup_insert_eq; lia).
  rewrite take_insert_ge by lia. rewrite <- !app_assoc. done.
Qed.

(** [nearby_utils_ArrayToString] never leaves its static buffer: up to 39
    bytes are printed in full and NUL terminated, and a longer array is cut to
    its first 38 bytes followed by an ellipsis. *)
Theorem ArrayToString_text buffer data len :
  length buffer = ARRAY_BUFFER_SIZE -> bytes_ok data -> (len <= length data)%nat ->
  exists s, nearby_utils_ArrayToString buffer data len = Done s
    /\ length s = ARRAY_BUFFER_SIZE
    /\ if (len <=? 39)%nat
       then take (2 * len + 1) s = (take len data ≫= hex_pair) ++ [0]
       else s = (take 38 data ≫= hex_pair) ++ [46; 46; 46; 0].
Proof.
  intros Hb Hd Hlen. unfold nearby_utils_ArrayToString, ARRAY_BUFFER_SIZE in *.
  assert (forall l, length (l ≫= hex_pair) = (2 * length l)%nat) as Hhex.
  { intros l. induction l; simpl; [done|]. unfold mbind in IHl. rewrite IHl. lia. }
  destruct (Nat.leb_spec len 39) as [Hs|Hs].
  - rewrite (proj2 (Nat.ltb_lt (2 * len) (80 - 1))) by lia.
    rewrite store_done, done_bind by lia. rewrite (Nat.mul_comm 2 len), Nat.div_mul by lia.
    rewrite ArrayToString_loop_spec by (rewrite ?length_insert; try done; lia).
    eexists. split; [done|]. rewrite drop_0, take_0.
    assert (length (take len data ≫= hex_pair) = (2 * len)%nat) as Ht
      by (rewrite Hhex, length_take; lia).
    split.
    + rewrite !length_app, length_drop, length_insert, Ht. simpl. lia.
    + simpl app. rewrite take_app_ge by lia. f_equal.
      replace (len * 2 + 1 - _)%nat with 1%nat by lia.
      rewrite drop_insert_ge by lia. replace (len * 2 - _)%nat with 0%nat by lia.
      destruct (drop _ buffer) eqn:E; [|done].
      apply (f_equal length) in E. rewrite length_drop in E. simpl in E. lia.
  - rewrite (proj2 (Nat.ltb_ge (2 * len) (80 - 1))) by lia.
    do 4 (rewrite store_done, done_bind by (rewrite ?length_insert; lia)).
    rewrite ArrayToString_loop_spec by (rewrite ?length_insert; simpl; try done; lia).
    eexists. split; [done|]. rewrite drop_0, take_0.
    change ((80 - 4) / 2)%nat with 38%nat.
    assert (drop (2 * (0 + 38)) (<[(80 - 4)%nat:=u8 46]> (<[(80 - 3)%nat:=u8 46]>
        (<[(80 - 2)%nat:=u8 46]> (<[(80 - 1)%nat:=u8 0]> buffer)))) = [46; 46; 46; 0]) as ->.
    { rewrite !drop_insert_ge by lia.
      assert (length (drop (2 * (0 + 38)) buffer) = 4%nat) as E by (rewrite length_drop; lia).
      by destruct (drop (2 * (0 + 38)) buffer) as [|? [|? [|? [|? [|]]]]]. }
    split; [|done]. rewrite !length_app, Hhex, length_take. cbn [length]. lia.
Qed.

Example ArrayToString_text_witness :
  exists s, nearby_utils_ArrayToString (replicate 80 1) (replicate 60 0xAB) 60 = Done s
    /\ length s = ARRAY_BUFFER_SIZE
    /\ if (60 <=? 39)%nat
       then take (2 * 60 + 1) s = (take 60 (replicate 60 0xAB) ≫= hex_pair) ++ [0]
       else s = (take 38 (replicate 60 0xAB) ≫= hex_pair) ++ [46; 46; 46; 0].
Proof.
  apply (ArrayToString_text (replicate 80 1) (replicate 60 0xAB) 60).
  - reflexivity.
  - apply bytes_ok_replicate. split; lia.
  - simpl. lia.
Defined.

(** The leading product of [nearby_utils_GetBigEndian32], computed at type
    [int], is outside the range of a 32 bit [int] for every leading byte of 128
    and above. *)
Lemma GetBigEndian32_exceeds_int b0 :
  is_byte b0 -> 128 <= b0 -> 2 ^ 31 - 1 < 256 * 256 * 256 * b0.
Proof. unfold is_byte. lia. Qed.

End Utils.
