(* ===== verification/Platform.v ===== *)
(** The hardware abstraction layer and the effects of the SDK.

    Models src/embedded/common/target/ (nearby.h and the nearby_platform_*.h
    headers), nearby_config.h and the event types of nearby_event.h.  The
    platform is code outside the repository: [Platform] makes it a parameter, a
    state of unknown type and a function that answers each request.  [M] is the
    monad of SDK code: global variables of type [S], the platform, and the log of
    all HAL calls, the most recent first. *)

From Stdlib Require Import ZArith Lia.
From stdpp Require Import base list numbers.
From S2P Require Import Prelude.

(** * nearby.h *)

Definition AES_MESSAGE_SIZE_BYTES : nat := 16.
Definition FP_SERVICE_UUID_SIZE : nat := 2.
Definition FP_MODEL_ID_SIZE : nat := 3.
Definition ACCOUNT_KEY_SIZE_BYTES : nat := AES_MESSAGE_SIZE_BYTES.
Definition SESSION_NONCE_SIZE : nat := 8.

Inductive nearby_platform_status : Type :=
| kNearbyStatusOK
| kNearbyStatusError
| kNearbyStatusTimeout
| kNearbyStatusResourceExhausted
| kNearbyStatusUnimplemented
| kNearbyStatusUnsupported
| kNearbyStatusInvalidInput
| kNearbyStatusRedundantAction.

#[export] Instance status_eq_dec : EqDecision nearby_platform_status.
Proof. solve_decision. Defined.

Definition status_ok (s : nearby_platform_status) : bool :=
  bool_decide (s = kNearbyStatusOK).

(** With NEARBY_FP_ENABLE_SASS off the structure has no [peer_address]; the
    field is then neither read nor written by any definition below. *)
Record nearby_platform_AccountKeyInfo : Type := AccountKeyInfo {
  account_key : list Z;
  key_peer_address : Z;
}.

#[export] Instance AccountKeyInfo_eq_dec : EqDecision nearby_platform_AccountKeyInfo.
Proof. solve_decision. Defined.

(** * nearby_config.h

    The optional features are fields of [Config]; the four that are on by
    default (battery notification, additional data, message stream, retroactive
    pairing) are on in the model. *)
Class Config : Type := {
  NEARBY_FP_ENABLE_SASS : bool;
  NEARBY_FP_HAVE_BLE_ADDRESS_ROTATION : bool;
  NEARBY_FP_BLE_ONLY : bool;
  NEARBY_FP_PREFER_BLE_BONDING : bool;
  NEARBY_FP_PREFER_LE_TRANSPORT : bool;
}.

(** The configuration nearby_config.h selects when nothing is overridden. *)
Definition default_config : Config := {|
  NEARBY_FP_ENABLE_SASS := false;
  NEARBY_FP_HAVE_BLE_ADDRESS_ROTATION := false;
  NEARBY_FP_BLE_ONLY := false;
  NEARBY_FP_PREFER_BLE_BONDING := false;
  NEARBY_FP_PREFER_LE_TRANSPORT := false;
|}.

(** The default configuration with Smart Audio Source Switching. *)
Definition sass_config : Config := {|
  NEARBY_FP_ENABLE_SASS := true;
  NEARBY_FP_HAVE_BLE_ADDRESS_ROTATION := false;
  NEARBY_FP_BLE_ONLY := false;
  NEARBY_FP_PREFER_BLE_BONDING := false;
  NEARBY_FP_PREFER_LE_TRANSPORT := false;
|}.

Definition PERSONALIZED_NAME_MAX_SIZE : nat := 64.
Definition NEARBY_FP_SALT_SIZE : nat := 2.
Definition MAX_MESSAGE_STREAM_PAYLOAD_SIZE : nat := 22.
Definition NEARBY_MAX_RFCOMM_CONNECTIONS : nat := 2.
Definition NEARBY_MAX_RETROACTIVE_PAIRING : nat := 2.
Definition NEARBY_MAX_ACCOUNT_KEYS : nat := 5.

(** * Types of the HAL headers *)

Inductive nearby_fp_Characteristic : Type :=
| kModelId
| kKeyBasedPairing
| kPasskey
| kAccountKey
| kFirmwareRevision
| kAdditionalData
| kMessageStreamPsm.

Inductive nearby_fp_AvertisementInterval : Type :=
| kDisabled
| kNoLargerThan100ms
| kNoLargerThan250ms.

Inductive nearby_fp_StoredKey : Type :=
| kStoredKeyAccountKeyList
| kStoredKeyPersonalizedName.

Record nearby_platform_BatteryInfo : Type := BatteryInfo {
  is_charging : bool;
  right_bud_battery_level : Z;
  left_bud_battery_level : Z;
  charging_case_battery_level : Z;
  remaining_time_minutes : Z;
}.

(** Callbacks the SDK hands to [nearby_platform_StartTimer]. *)
Inductive timer_callback : Type :=
| DiscardPendingAccountKey_cb
| MaybeRotateBleAddress_cb.

(** * nearby_event.h *)
Inductive nearby_event_Event : Type :=
| kNearbyEventMessageStreamConnected (peer_address : Z)
| kNearbyEventMessageStreamDisconnected (peer_address : Z)
| kNearbyEventMessageStreamReceived (peer_address message_group message_code : Z)
    (data : list Z).

(** * Requests to the platform, one type per header *)

Inductive bt_request : Type :=
| GetModelId
| GetTxLevel
| GetPublicAddress
| GetSecondaryPublicAddress
| GetPairingPassKey
| SetRemotePasskey (passkey : Z)
| SendPairingRequest (remote_party_br_edr_address : Z)
| SetDefaultCapabilities
| SetFastPairCapabilities
| SetDeviceName (name : list Z)
| IsInPairingMode
| SendMessageStream (peer_address : Z) (message : list Z)
| BtInit.

Inductive ble_request : Type :=
| GetBleAddress
| SetBleAddress (address : Z)
| RotateBleAddress
| GetMessageStreamPsm
| GattNotify (peer_address : Z) (characteristic : nearby_fp_Characteristic)
    (message : list Z)
| SetAdvertisement (payload : list Z) (interval : nearby_fp_AvertisementInterval)
| BleInit.

Inductive os_request : Type :=
| GetCurrentTimeMs
| StartTimer (callback : timer_callback) (delay_ms : Z)
| CancelTimer (timer : Z)
| OsInit
| Ring (command timeout : Z).

Inductive se_request : Type :=
| Rand
| Sha256Start
| Sha256Update (data : list Z)
| Sha256Finish
| Aes128Encrypt (input key : list Z)
| Aes128Decrypt (input key : list Z)
| GenSec256r1Secret (remote_party_public_key : list Z)
| SecureElementInit.

Inductive persistence_request : Type :=
| LoadValue (key : nearby_fp_StoredKey) (length : nat)
| SaveValue (key : nearby_fp_StoredKey) (input : list Z)
| PersistenceInit.

Inductive battery_request : Type :=
| GetBatteryInfo (battery_info : nearby_platform_BatteryInfo)
| BatteryInit.

Inductive audio_request : Type :=
| GetEarbudRightStatus
| GetEarbudLeftStatus
| GetAudioConnectionState
| OnHead
| CanAcceptConnection
| InFocusMode
| AutoReconnected
| GetConnectionBitmap (length : nat)
| IsSassOn
| IsMultipointConfigurable
| IsMultipointOn
| IsOnHeadDetectionSupported
| IsOnHeadDetectionEnabled
| SetMultipoint (peer_address : Z) (enable : bool)
| SetSwitchingPreference (flags : Z)
| GetSwitchingPreference
| SwitchActiveAudioSource (peer_address flags preferred_audio_source : Z)
| SwitchBackAudioSource (peer_address flags : Z)
| NotifySassInitiatedConnection (peer_address flags : Z)
| SetDropConnectionTarget (peer_address flags : Z)
| GetActiveAudioSource
| AudioInit.

Inductive hal_request : Type :=
| BT (r : bt_request)
| BLE (r : ble_request)
| OS (r : os_request)
| SE (r : se_request)
| PERSISTENCE (r : persistence_request)
| BATTERY (r : battery_request)
| AUDIO (r : audio_request)
| ON_EVENT (e : nearby_event_Event).

(** What a HAL call gives back: its status, its integer or boolean result, the
    bytes of its output buffer, its output structure.  Each call uses the parts
    its C prototype has. *)
Record hal_response : Type := Response {
  resp_status : nearby_platform_status;
  resp_value : Z;
  resp_bytes : list Z;
  resp_battery : nearby_platform_BatteryInfo;
}.

Class Platform : Type := {
  world : Type;
  call : hal_request -> world -> hal_response * world;
  (** content of an uninitialised automatic array *)
  garbage : world -> nat -> list Z;
}.

(** * The monad *)
Section Monad.
Context {P : Platform}.

Record sys (S : Type) : Type := Sys {
  st : S;
  env : world;
  log : list (hal_request * hal_response);
}.
#[global] Arguments Sys {S} st env log.
#[global] Arguments st {S} s.
#[global] Arguments env {S} s.
#[global] Arguments log {S} s.

Definition M (S A : Type) : Type := sys S -> outcome (A * sys S).

#[global] Instance M_ret S : MRet (M S) := fun _ a s => Done (a, s).
#[global] Instance M_bind S : MBind (M S) := fun _ _ f m s =>
  match m s with
  | Done (a, s') => f a s'
  | Crash => Crash
  | Fault => Fault
  end.

Definition lift {S A} (o : outcome A) : M S A := fun s =>
  match o with
  | Done a => Done (a, s)
  | Crash => Crash
  | Fault => Fault
  end.

Definition gets {S A} (f : S -> A) : M S A := fun s => Done (f (st s), s).
Definition modify {S} (f : S -> S) : M S unit := fun s =>
  Done (tt, Sys (f (st s)) (env s) (log s)).

Definition hal {S} (r : hal_request) : M S hal_response := fun s =>
  let '(resp, w) := call r (env s) in
  Done (resp, Sys (st s) w ((r, resp) :: log s)).

(** A HAL call whose C result is [f] of the platform's answer. *)
Definition hal_map {S A} (r : hal_request) (f : hal_response -> A) : M S A :=
  let! x := hal r in mret (f x).

(** A result array of [n] bytes, and one of at most [n]. *)
Definition fit (n : nat) (l : list Z) : list Z :=
  u8 <$> take n (l ++ replicate n 0).
Definition fit_upto (n : nat) (l : list Z) : list Z := u8 <$> take n l.

(** [uint8_t x[n];] *)
Definition uninit {S} (n : nat) : M S (list Z) := fun s =>
  Done (fit n (garbage (env s) n), s).

(** * The HAL functions, with the result types of their prototypes *)
Section Calls.
Context {S : Type}.

Definition nearby_platform_Rand : M S Z :=
  hal_map (SE Rand) (fun r => u8 (resp_value r)).
Definition nearby_platform_Sha256Start : M S nearby_platform_status :=
  hal_map (SE Sha256Start) resp_status.
Definition nearby_platform_Sha256Update (data : list Z)
  : M S nearby_platform_status :=
  hal_map (SE (Sha256Update data)) resp_status.
Definition nearby_platform_Sha256Finish
  : M S (nearby_platform_status * list Z) :=
  hal_map (SE Sha256Finish) (fun r => (resp_status r, fit 32 (resp_bytes r))).
Definition nearby_platform_Aes128Encrypt (input key : list Z)
  : M S (nearby_platform_status * list Z) :=
  hal_map (SE (Aes128Encrypt input key))
    (fun r => (resp_status r, fit AES_MESSAGE_SIZE_BYTES (resp_bytes r))).
Definition nearby_platform_Aes128Decrypt (input key : list Z)
  : M S (nearby_platform_status * list Z) :=
  hal_map (SE (Aes128Decrypt input key))
    (fun r => (resp_status r, fit AES_MESSAGE_SIZE_BYTES (resp_bytes r))).
Definition nearby_platform_GenSec256r1Secret (remote_party_public_key : list Z)
  : M S (nearby_platform_status * list Z) :=
  hal_map (SE (GenSec256r1Secret remote_party_public_key))
    (fun r => (resp_status r, fit 32 (resp_bytes r))).
Definition nearby_platform_SecureElementInit : M S nearby_platform_status :=
  hal_map (SE SecureElementInit) resp_status.

Definition nearby_platform_GetModelId : M S Z :=
  hal_map (BT GetModelId) (fun r => u32 (resp_value r)).
Definition nearby_platform_GetTxLevel : M S Z :=
  hal_map (BT GetTxLevel) (fun r => s8 (resp_value r)).
Definition nearby_platform_GetPublicAddress : M S Z :=
  hal_map (BT GetPublicAddress) (fun r => u64 (resp_value r)).
Definition nearby_platform_GetSecondaryPublicAddress : M S Z :=
  hal_map (BT GetSecondaryPublicAddress) (fun r => u64 (resp_value r)).
Definition nearby_platfrom_GetPairingPassKey : M S Z :=
  hal_map (BT GetPairingPassKey) (fun r => u32 (resp_value r)).
Definition nearby_platform_SetRemotePasskey (passkey : Z) : M S unit :=
  hal_map (BT (SetRemotePasskey passkey)) (fun _ => tt).
Definition nearby_platform_SendPairingRequest (address : Z)
  : M S nearby_platform_status :=
  hal_map (BT (SendPairingRequest address)) resp_status.
Definition nearby_platform_SetDefaultCapabilities : M S nearby_platform_status :=
  hal_map (BT SetDefaultCapabilities) resp_status.
Definition nearby_platform_SetFastPairCapabilities : M S nearby_platform_status :=
  hal_map (BT SetFastPairCapabilities) resp_status.
Definition nearby_platform_SetDeviceName (name : list Z)
  : M S nearby_platform_status :=
  hal_map (BT (SetDeviceName name)) resp_status.
Definition nearby_platform_IsInPairingMode : M S bool :=
  hal_map (BT IsInPairingMode) (fun r => nonzero (resp_value r)).
Definition nearby_platform_SendMessageStream (peer_address : Z)
    (message : list Z) : M S nearby_platform_status :=
  hal_map (BT (SendMessageStream peer_address message)) resp_status.
Definition nearby_platform_BtInit : M S nearby_platform_status :=
  hal_map (BT BtInit) resp_status.

Definition nearby_platform_GetBleAddress : M S Z :=
  hal_map (BLE GetBleAddress) (fun r => u64 (resp_value r)).
Definition nearby_platform_SetBleAddress (address : Z) : M S Z :=
  hal_map (BLE (SetBleAddress address)) (fun r => u64 (resp_value r)).
Definition nearby_platform_RotateBleAddress : M S Z :=
  hal_map (BLE RotateBleAddress) (fun r => u64 (resp_value r)).
(** [int32_t]: the value is read as a signed 32 bit integer. *)
Definition nearby_platform_GetMessageStreamPsm : M S Z :=
  hal_map (BLE GetMessageStreamPsm)
    (fun r => let v := u32 (resp_value r) in if v <? 2 ^ 31 then v else v - 2 ^ 32).
Definition nearby_platform_GattNotify (peer_address : Z)
    (characteristic : nearby_fp_Characteristic) (message : list Z)
  : M S nearby_platform_status :=
  hal_map (BLE (GattNotify peer_address characteristic message)) resp_status.
Definition nearby_platform_SetAdvertisement (payload : list Z)
    (interval : nearby_fp_AvertisementInterval) : M S nearby_platform_status :=
  hal_map (BLE (SetAdvertisement payload interval)) resp_status.
Definition nearby_platform_BleInit : M S nearby_platform_status :=
  hal_map (BLE BleInit) resp_status.

Definition nearby_platform_GetCurrentTimeMs : M S Z :=
  hal_map (OS GetCurrentTimeMs) (fun r => u32 (resp_value r)).
(** The handle; 0 is NULL. *)
Definition nearby_platform_StartTimer (callback : timer_callback) (delay_ms : Z)
  : M S Z :=
  hal_map (OS (StartTimer callback delay_ms)) resp_value.
Definition nearby_platform_CancelTimer (timer : Z) : M S nearby_platform_status :=
  hal_map (OS (CancelTimer timer)) resp_status.
Definition nearby_platform_OsInit : M S nearby_platform_status :=
  hal_map (OS OsInit) resp_status.
Definition nearby_platform_Ring (command timeout : Z)
  : M S nearby_platform_status :=
  hal_map (OS (Ring command timeout)) resp_status.

(** The bytes stored in the output buffer of [length] bytes. *)
Definition nearby_platform_LoadValue (key : nearby_fp_StoredKey) (length : nat)
  : M S (nearby_platform_status * list Z) :=
  hal_map (PERSISTENCE (LoadValue key length))
    (fun r => (resp_status r, fit_upto length (resp_bytes r))).
Definition nearby_platform_SaveValue (key : nearby_fp_StoredKey) (input : list Z)
  : M S nearby_platform_status :=
  hal_map (PERSISTENCE (SaveValue key input)) resp_status.
Definition nearby_platform_PersistenceInit : M S nearby_platform_status :=
  hal_map (PERSISTENCE PersistenceInit) resp_status.

Definition nearby_platform_GetBatteryInfo
    (battery_info : nearby_platform_BatteryInfo)
  : M S (nearby_platform_status * nearby_platform_BatteryInfo) :=
  hal_map (BATTERY (GetBatteryInfo battery_info)) (fun r =>
    let b := resp_battery r in
    (resp_status r,
     {| is_charging := is_charging b;
        right_bud_battery_level := u8 (right_bud_battery_level b);
        left_bud_battery_level := u8 (left_bud_battery_level b);
        charging_case_battery_level := u8 (charging_case_battery_level b);
        remaining_time_minutes := u16 (remaining_time_minutes b) |})).
Definition nearby_platform_BatteryInit : M S nearby_platform_status :=
  hal_map (BATTERY BatteryInit) resp_status.

(** Audio queries returning [bool], and the other audio functions. *)
Definition audio_bool (q : audio_request) : M S bool :=
  hal_map (AUDIO q) (fun r => nonzero (resp_value r)).
Definition audio_status (q : audio_request) : M S nearby_platform_status :=
  hal_map (AUDIO q) resp_status.
Definition nearby_platform_GetEarbudRightStatus : M S bool :=
  audio_bool GetEarbudRightStatus.
Definition nearby_platform_GetEarbudLeftStatus : M S bool :=
  audio_bool GetEarbudLeftStatus.
Definition nearby_platform_GetAudioConnectionState : M S Z :=
  hal_map (AUDIO GetAudioConnectionState) (fun r => u32 (resp_value r)).
Definition nearby_platform_OnHead : M S bool := audio_bool OnHead.
Definition nearby_platform_CanAcceptConnection : M S bool :=
  audio_bool CanAcceptConnection.
Definition nearby_platform_InFocusMode : M S bool := audio_bool InFocusMode.
Definition nearby_platform_AutoReconnected : M S bool := audio_bool AutoReconnected.
(** The used part of a bitmap buffer of [length] bytes. *)
Definition nearby_platform_GetConnectionBitmap (length : nat) : M S (list Z) :=
  hal_map (AUDIO (GetConnectionBitmap length))
    (fun r => fit_upto length (resp_bytes r)).
Definition nearby_platform_IsSassOn : M S bool := audio_bool IsSassOn.
Definition nearby_platform_IsMultipointConfigurable : M S bool :=
  audio_bool IsMultipointConfigurable.
Definition nearby_platform_IsMultipointOn : M S bool := audio_bool IsMultipointOn.
Definition nearby_platform_IsOnHeadDetectionSupported : M S bool :=
  audio_bool IsOnHeadDetectionSupported.
Definition nearby_platform_IsOnHeadDetectionEnabled : M S bool :=
  audio_bool IsOnHeadDetectionEnabled.
Definition nearby_platform_SetMultipoint (peer_address : Z) (enable : bool)
  : M S nearby_platform_status := audio_status (SetMultipoint peer_address enable).
Definition nearby_platform_SetSwitchingPreference (flags : Z)
  : M S nearby_platform_status := audio_status (SetSwitchingPreference flags).
Definition nearby_platform_GetSwitchingPreference : M S Z :=
  hal_map (AUDIO GetSwitchingPreference) (fun r => u8 (resp_value r)).
Definition nearby_platform_SwitchActiveAudioSource
    (peer_address flags preferred_audio_source : Z) : M S nearby_platform_status :=
  audio_status (SwitchActiveAudioSource peer_address flags preferred_audio_source).
Definition nearby_platform_SwitchBackAudioSource (peer_address flags : Z)
  : M S nearby_platform_status :=
  audio_status (SwitchBackAudioSource peer_address flags).
Definition nearby_platform_NotifySassInitiatedConnection (peer_address flags : Z)
  : M S nearby_platform_status :=
  audio_status (NotifySassInitiatedConnection peer_address flags).
Definition nearby_platform_SetDropConnectionTarget (peer_address flags : Z)
  : M S nearby_platform_status :=
  audio_status (SetDropConnectionTarget peer_address flags).
Definition nearby_platform_GetActiveAudioSource : M S Z :=
  hal_map (AUDIO GetActiveAudioSource) (fun r => u64 (resp_value r)).
Definition nearby_platform_AudioInit : M S nearby_platform_status :=
  audio_status AudioInit.

(** [client_callbacks->on_event(&event)] *)
Definition app_on_event (e : nearby_event_Event) : M S unit :=
  hal_map (ON_EVENT e) (fun _ => tt).

End Calls.

End Monad.

Arguments M {P} S A.
Arguments sys {P} S.

(** [RETURN_IF_ERROR(X)] *)
Notation "'return_if_error!' m 'in' k" :=
  (mbind (fun s => if status_ok s then k else mret s) m)
  (at level 200, m at level 100, k at level 200, right associativity) : fp_scope.

(** Like [return_if_error!] in a function that also returns a value. *)
Notation "'return_if_error!' m 'with' d 'in' k" :=
  (mbind (fun s => if status_ok s then k else mret (s, d)) m)
  (at level 200, m at level 100, d at level 100, k at level 200,
   right associativity) : fp_scope.

(** * Weakest preconditions *)
Section Wp.
Context {P : Platform} {S : Type}.
Implicit Types (s : sys S).

(** [m] returns from [s], without assertion failure or memory fault, with a
    result and a state in [Q]. *)
Definition wp {A} (m : M S A) (Q : A -> sys S -> Prop) (s : sys S) : Prop :=
  match m s with
  | Done (a, s') => Q a s'
  | _ => False
  end.

Lemma wp_run {A} (m : M S A) Q s :
  wp m Q s <-> exists a s', m s = Done (a, s') /\ Q a s'.
Proof.
  unfold wp. split.
  - destruct (m s) as [[a s']| |]; naive_solver.
  - by intros (a & s' & -> & H).
Qed.

Lemma wp_ret {A} (a : A) (Q : A -> sys S -> Prop) s : Q a s -> wp (mret a) Q s.
Proof. done. Qed.

Lemma wp_bind {A B} (m : M S A) (k : A -> M S B) Q s :
  wp m (fun a => wp (k a) Q) s -> wp (mbind k m) Q s.
Proof. unfold wp, mbind, M_bind. destruct (m s) as [[a s']| |]; done. Qed.

Lemma wp_bind_inv {A B} (m : M S A) (k : A -> M S B) Q s :
  wp (mbind k m) Q s -> wp m (fun a => wp (k a) Q) s.
Proof. unfold wp, mbind, M_bind. destruct (m s) as [[a s']| |]; done. Qed.

Lemma wp_mono {A} (m : M S A) (Q Q' : A -> sys S -> Prop) s :
  wp m Q s -> (forall a s', Q a s' -> Q' a s') -> wp m Q' s.
Proof. unfold wp. destruct (m s) as [[a s']| |]; auto. Qed.

Lemma wp_conj {A} (m : M S A) (Q Q' : A -> sys S -> Prop) s :
  wp m Q s -> wp m Q' s -> wp m (fun a s' => Q a s' /\ Q' a s') s.
Proof. unfold wp. destruct (m s) as [[a s']| |]; auto. Qed.

Lemma wp_lift {A} (o : outcome A) (Q : A -> sys S -> Prop) a s :
  o = Done a -> Q a s -> wp (lift o) Q s.
Proof. unfold wp, lift. by intros ->. Qed.

Lemma wp_gets {A} (f : S -> A) (Q : A -> sys S -> Prop) s :
  Q (f (st s)) s -> wp (gets f) Q s.
Proof. done. Qed.

Lemma wp_modify (f : S -> S) (Q : unit -> sys S -> Prop) s :
  Q tt (Sys (f (st s)) (env s) (log s)) -> wp (modify f) Q s.
Proof. done. Qed.

(** Whatever the platform answers. *)
Lemma wp_hal_map {A} r (f : hal_response -> A) (Q : A -> sys S -> Prop) s :
  (forall resp w, Q (f resp) (Sys (st s) w ((r, resp) :: log s))) ->
  wp (hal_map r f) Q s.
Proof.
  intros H. unfold wp, hal_map, mbind, M_bind, hal.
  destruct (call r (env s)) as [resp w]. apply H.
Qed.

(** The answer the platform gives in this state. *)
Lemma wp_hal_map_call {A} r (f : hal_response -> A) (Q : A -> sys S -> Prop) s :
  Q (f (fst (call r (env s))))
    (Sys (st s) (snd (call r (env s))) ((r, fst (call r (env s))) :: log s)) ->
  wp (hal_map r f) Q s.
Proof.
  unfold wp, hal_map, mbind, M_bind, hal.
  by destruct (call r (env s)) as [resp w].
Qed.

Lemma fit_length n l : length (fit n l) = n.
Proof. unfold fit. rewrite length_fmap, length_take, length_app, length_replicate. lia. Qed.

Lemma fit_ok n l : bytes_ok (fit n l).
Proof. apply Forall_fmap, Forall_true. intros. apply u8_byte. Qed.

Lemma fit_id n l : bytes_ok l -> length l = n -> fit n l = l.
Proof.
  intros Hb Hl. unfold fit. rewrite take_app_length' by done.
  clear Hl. induction Hb; simpl; [done|]. f_equal; [by apply u8_id|done].
Qed.

Lemma fit_upto_length n l : (length (fit_upto n l) <= n)%nat.
Proof. unfold fit_upto. rewrite length_fmap, length_take. lia. Qed.

Lemma fit_upto_ok n l : bytes_ok (fit_upto n l).
Proof. apply Forall_fmap, Forall_true. intros. apply u8_byte. Qed.

Lemma fit_upto_id n l : bytes_ok l -> (length l <= n)%nat -> fit_upto n l = l.
Proof.
  intros Hb Hl. unfold fit_upto. rewrite take_ge by done.
  clear Hl. induction Hb; simpl; [done|]. f_equal; [by apply u8_id|done].
Qed.

Lemma wp_uninit n (Q : list Z -> sys S -> Prop) s :
  (forall l, length l = n -> bytes_ok l -> Q l s) -> wp (uninit n) Q s.
Proof. intros H. apply H; [apply fit_length|apply fit_ok]. Qed.

Lemma status_ok_iff x : status_ok x = true <-> x = kNearbyStatusOK.
Proof. apply bool_decide_eq_true. Qed.

Lemma status_ok_not x : status_ok x = false <-> x <> kNearbyStatusOK.
Proof. apply bool_decide_eq_false. Qed.

(** ** Effects

    [ext K s s']: from [s] to [s'] only HAL calls in [K] were made. *)
Definition ext (K : hal_request -> Prop) (s s' : sys S) : Prop :=
  exists l, log s' = l ++ log s /\ Forall (fun e => K (fst e)) l.

Lemma ext_refl K s : ext K s s.
Proof. by exists []. Qed.

Lemma ext_trans K s1 s2 s3 : ext K s1 s2 -> ext K s2 s3 -> ext K s1 s3.
Proof.
  intros (l1 & H1 & F1) (l2 & H2 & F2). exists (l2 ++ l1).
  rewrite H2, H1, app_assoc. split; [done|]. by apply Forall_app.
Qed.

Lemma ext_mono (K K' : hal_request -> Prop) s s' :
  (forall r, K r -> K' r) -> ext K s s' -> ext K' s s'.
Proof. intros HK (l & H & F). exists l. split; [done|].
  eapply Forall_impl; [|exact F]. intros e He. by apply HK. Qed.

Lemma ext_call K s x w r resp l0 :
  log s = l0 -> K r -> ext K s (Sys x w ((r, resp) :: l0)).
Proof. intros <- HK. exists [(r, resp)]. by repeat constructor. Qed.

Lemma ext_log K s s' l : log s' = l -> ext K s (Sys (st s') (env s') l) <-> ext K s s'.
Proof. intros <-. by destruct s'. Qed.

(** [called r resp s s']: between [s] and [s'] the call [r] was made and answered
    with [resp]. *)
Definition called (r : hal_request) (resp : hal_response) (s s' : sys S) : Prop :=
  exists l, log s' = l ++ log s /\ (r, resp) ∈ l.

Lemma called_now r resp s x w l0 :
  log s = l0 -> called r resp s (Sys x w ((r, resp) :: l0)).
Proof. intros <-. exists [(r, resp)]. split; [done|apply list_elem_of_here]. Qed.

Lemma called_ext K r resp s1 s2 s3 : called r resp s1 s2 -> ext K s2 s3 -> called r resp s1 s3.
Proof.
  intros (l1 & H1 & Hin) (l2 & H2 & _). exists (l2 ++ l1). rewrite H2, H1, app_assoc.
  split; [done|]. apply elem_of_app. by right.
Qed.

Lemma ext_called K r resp s1 s2 s3 : ext K s1 s2 -> called r resp s2 s3 -> called r resp s1 s3.
Proof.
  intros (l1 & H1 & _) (l2 & H2 & Hin). exists (l2 ++ l1). rewrite H2, H1, app_assoc.
  split; [done|]. apply elem_of_app. by left.
Qed.

(** No global variable changed, and only HAL calls in [K] were made. *)
Definition quiet (K : hal_request -> Prop) (s s' : sys S) : Prop :=
  st s' = st s /\ ext K s s'.

#[global] Instance quiet_preorder K : PreOrder (quiet K).
Proof.
  split; [split; [done|apply ext_refl]|].
  intros s1 s2 s3 [H1 E1] [H2 E2]. split; [congruence|by eapply ext_trans].
Qed.

Lemma quiet_call (K : hal_request -> Prop) s r resp w :
  K r -> quiet K s (Sys (st s) w ((r, resp) :: log s)).
Proof. intros. split; [done|by apply ext_call]. Qed.

(** [m] leaves the global variables alone, makes only HAL calls in [K] and
    returns a result in [R], whatever the platform answers. *)
Definition effects {A} (K : hal_request -> Prop) (m : M S A) (R : A -> Prop) : Prop :=
  forall s, wp m (fun a s' => quiet K s s' /\ R a) s.

Lemma wp_effects {A} K (m : M S A) R (Q : A -> sys S -> Prop) s :
  effects K m R ->
  (forall a s', quiet K s s' -> R a -> Q a s') -> wp m Q s.
Proof. intros H HQ. eapply wp_mono; [apply H|]. intros a s' [? ?]. by apply HQ. Qed.

Lemma effects_ret {A} K (a : A) (R : A -> Prop) : R a -> effects K (mret a) R.
Proof. intros H s. by apply wp_ret. Qed.

Lemma effects_bind {A B} K (m : M S A) (k : A -> M S B) R R' :
  effects K m R -> (forall a, R a -> effects K (k a) R') ->
  effects K (mbind k m) R'.
Proof.
  intros Hm Hk s. apply wp_bind. eapply wp_mono; [apply Hm|].
  intros a s1 (H1 & Ha). eapply wp_mono; [apply (Hk a Ha)|].
  intros b s2 (H2 & Hb). split; [by etransitivity|done].
Qed.

Lemma effects_hal_map {A} (K : hal_request -> Prop) r (f : hal_response -> A)
    (R : A -> Prop) :
  K r -> (forall resp, R (f resp)) -> effects K (hal_map r f) R.
Proof. intros HK HR s. apply wp_hal_map. intros. auto using quiet_call. Qed.

Lemma effects_uninit K n (R : list Z -> Prop) :
  (forall l, length l = n -> bytes_ok l -> R l) -> effects K (uninit n) R.
Proof. intros H s. apply wp_uninit. intros. split; [done|auto]. Qed.

Lemma effects_lift {A} K (o : outcome A) a (R : A -> Prop) :
  o = Done a -> R a -> effects K (lift o) R.
Proof. intros -> H s. by eapply wp_lift. Qed.

Lemma effects_mono {A} (K K' : hal_request -> Prop) (m : M S A) (R R' : A -> Prop) :
  effects K m R -> (forall r, K r -> K' r) -> (forall a, R a -> R' a) ->
  effects K' m R'.
Proof.
  intros H HK HR s. eapply wp_mono; [apply H|]. intros a s' ((? & ?) & ?).
  split; [split; [done|by eapply ext_mono]|auto].
Qed.

End Wp.

(** Requests to the secure element. *)
Definition is_se (r : hal_request) : Prop :=
  match r with SE _ => True | _ => False end.

#[export] Hint Resolve fit_length fit_ok fit_upto_length fit_upto_ok : fp.

(** One step of symbolic execution; [wp_go] runs them until a branch or a call
    that needs a lemma. *)
Ltac wp_step :=
  lazymatch goal with
  | |- wp (mbind _ _) _ _ => apply wp_bind
  | |- wp (mret _) _ _ => apply wp_ret
  | |- wp (gets _) _ _ => apply wp_gets
  | |- wp (modify _) _ _ => apply wp_modify
  | |- wp (uninit _) _ _ => apply wp_uninit; intros ? ? ?
  | |- wp (hal_map _ _) _ _ => apply wp_hal_map; intros ? ?
  end.
Ltac wp_go := repeat (wp_step; cbn beta iota).

(** One step of an [effects] proof. *)
Ltac eff_step :=
  lazymatch goal with
  | |- effects _ (mret _) _ => apply effects_ret
  | |- effects _ (uninit _) _ => apply effects_uninit; intros ? ? ?
  | |- effects _ (hal_map _ _) _ => apply effects_hal_map; [try exact I|intros ?]
  end.
