(* ===== verification/SecureElement.v ===== *)
(** The interface between the platform's secure element
    (src/embedded/common/target/nearby_platform_se.h) and its clients: what the
    header documents of the hash and of the block cipher, as type classes.
    Crypto.v proves its theorems against these classes; Mbedtls.v discharges them
    for src/embedded/common/source/mbedtls/mbedtls.c, TestPlatform.v for a
    platform that can be run. *)

From Stdlib Require Import ZArith Lia.
From stdpp Require Import base list numbers.
From S2P Require Import Prelude Platform.

(** * The platform's hash and cipher *)

(** Documented behaviour of [nearby_platform_Sha256Start], [Update] and
    [Finish]: the calls succeed and compute one hash of the concatenation of the
    data passed since the start. *)
Class Sha256Spec (P : Platform) : Type := {
  sha256 : list Z -> list Z;
  sha256_length : forall m, length (sha256 m) = 32%nat;
  sha256_ok : forall m, bytes_ok (sha256 m);
  hashed : world -> list Z;
  sha_start_ok : forall w,
    resp_status (fst (call (SE Sha256Start) w)) = kNearbyStatusOK;
  sha_start_hashed : forall w, hashed (snd (call (SE Sha256Start) w)) = [];
  sha_update_ok : forall d w,
    resp_status (fst (call (SE (Sha256Update d)) w)) = kNearbyStatusOK;
  sha_update_hashed : forall d w,
    hashed (snd (call (SE (Sha256Update d)) w)) = hashed w ++ d;
  sha_finish_ok : forall w,
    resp_status (fst (call (SE Sha256Finish) w)) = kNearbyStatusOK;
  sha_finish_bytes : forall w,
    resp_bytes (fst (call (SE Sha256Finish) w)) = sha256 (hashed w);
}.

(** Documented behaviour of [nearby_platform_Aes128Encrypt] and [Decrypt]:
    AES-128 in ECB mode on one block. *)
Class AesSpec (P : Platform) : Type := {
  aes : list Z -> list Z -> list Z;
  aes_inv : list Z -> list Z -> list Z;
  aes_length : forall k x, length (aes k x) = 16%nat;
  aes_ok : forall k x, bytes_ok (aes k x);
  aes_inv_length : forall k x, length (aes_inv k x) = 16%nat;
  aes_inv_ok : forall k x, bytes_ok (aes_inv k x);
  aes_inv_aes : forall k x, length x = 16%nat -> bytes_ok x -> aes_inv k (aes k x) = x;
  aes_encrypt_call : forall x k w,
    resp_status (fst (call (SE (Aes128Encrypt x k)) w)) = kNearbyStatusOK /\
    resp_bytes (fst (call (SE (Aes128Encrypt x k)) w)) = aes k x;
  aes_decrypt_call : forall x k w,
    resp_status (fst (call (SE (Aes128Decrypt x k)) w)) = kNearbyStatusOK /\
    resp_bytes (fst (call (SE (Aes128Decrypt x k)) w)) = aes_inv k x;
}.

(** Documented behaviour of [nearby_platform_GenSec256r1Secret]: the secret that the
    anti-spoofing key and a public key agree on, or an error for a public key that
    is none. *)
Class SecretSpec (P : Platform) : Type := {
  shared_secret : list Z -> option (list Z);
  shared_secret_length : forall pk d, shared_secret pk = Some d -> length d = 32%nat;
  shared_secret_ok : forall pk d, shared_secret pk = Some d -> bytes_ok d;
  gen_secret_call : forall pk w,
    let r := fst (call (SE (GenSec256r1Secret pk)) w) in
    match shared_secret pk with
    | Some d => resp_status r = kNearbyStatusOK /\ resp_bytes r = d
    | None => resp_status r <> kNearbyStatusOK
    end;
}.
