(* ===== verification/TestPlatform.v ===== *)
(** A platform that can be run, in the manner of the fakes under
    src/embedded/client/tests/gLinux: fixed addresses and model id, a clock and a
    random byte that are part of its state, storage for the account key list and
    the name, and every call succeeding.  Hash and cipher are toy functions with
    the properties of the interface.  The witnesses of the theorems use it. *)

From Stdlib Require Import ZArith Lia.
From stdpp Require Import base list numbers.
From S2P Require Import Prelude Platform SecureElement.

Record test_world : Type := TestWorld {
  tw_time : Z;
  tw_rand : Z;
  tw_hashed : list Z;
  tw_ble_address : Z;
  tw_stored_keys : list Z;
  tw_stored_name : list Z;
}.

Definition test_world_0 : test_world := TestWorld 0 0xAB [] 0xBABABABA [] [].

(** Thirty-two bytes depending on the length and the sum of the message. *)
Definition toy_sha256 (m : list Z) : list Z :=
  (fun i => u8 (foldr Z.add 0 m + Z.of_nat (length m) * Z.of_nat i + Z.of_nat i)) <$> seq 0 32.

(** Xor of the block with the key. *)
Definition toy_aes (k x : list Z) : list Z := xor_bytes (fit 16 x) (fit 16 k).

Definition ok_response : hal_response :=
  Response kNearbyStatusOK 0 [] (BatteryInfo true 80 85 90 100).
Definition value_response (v : Z) : hal_response :=
  Response kNearbyStatusOK v [] (BatteryInfo true 80 85 90 100).
Definition bytes_response (l : list Z) : hal_response :=
  Response kNearbyStatusOK 0 l (BatteryInfo true 80 85 90 100).

Definition set_tw_hashed (h : list Z) (w : test_world) : test_world :=
  TestWorld (tw_time w) (tw_rand w) h (tw_ble_address w) (tw_stored_keys w) (tw_stored_name w).
Definition set_tw_ble_address (a : Z) (w : test_world) : test_world :=
  TestWorld (tw_time w) (tw_rand w) (tw_hashed w) a (tw_stored_keys w) (tw_stored_name w).
Definition set_tw_stored_keys (l : list Z) (w : test_world) : test_world :=
  TestWorld (tw_time w) (tw_rand w) (tw_hashed w) (tw_ble_address w) l (tw_stored_name w).
Definition set_tw_stored_name (l : list Z) (w : test_world) : test_world :=
  TestWorld (tw_time w) (tw_rand w) (tw_hashed w) (tw_ble_address w) (tw_stored_keys w) l.

Definition test_call (r : hal_request) (w : test_world) : hal_response * test_world :=
  match r with
  | SE Rand => (value_response (tw_rand w), w)
  | SE Sha256Start => (ok_response, set_tw_hashed [] w)
  | SE (Sha256Update d) => (ok_response, set_tw_hashed (tw_hashed w ++ d) w)
  | SE Sha256Finish => (bytes_response (toy_sha256 (tw_hashed w)), w)
  | SE (Aes128Encrypt x k) => (bytes_response (toy_aes k x), w)
  | SE (Aes128Decrypt x k) => (bytes_response (toy_aes k x), w)
  | SE (GenSec256r1Secret k) => (bytes_response (fit 32 k), w)
  | OS GetCurrentTimeMs => (value_response (tw_time w), w)
  | OS (StartTimer _ _) => (value_response 1, w)
  | BT GetModelId => (value_response 0x101112, w)
  | BT GetTxLevel => (value_response 33, w)
  | BT GetPublicAddress => (value_response 0xA0A1A2A3A4A5, w)
  | BT GetPairingPassKey => (value_response 123456, w)
  | BLE GetBleAddress => (value_response (tw_ble_address w), w)
  | BLE (SetBleAddress a) => (value_response a, set_tw_ble_address a w)
  | BLE GetMessageStreamPsm => (value_response (-1), w)
  | PERSISTENCE (LoadValue kStoredKeyAccountKeyList _) =>
    (bytes_response (tw_stored_keys w), w)
  | PERSISTENCE (LoadValue kStoredKeyPersonalizedName _) =>
    (bytes_response (tw_stored_name w), w)
  | PERSISTENCE (SaveValue kStoredKeyAccountKeyList l) =>
    (ok_response, set_tw_stored_keys l w)
  | PERSISTENCE (SaveValue kStoredKeyPersonalizedName l) =>
    (ok_response, set_tw_stored_name l w)
  | AUDIO (GetConnectionBitmap _) => (bytes_response [9], w)
  | AUDIO GetAudioConnectionState => (value_response 5, w)
  | AUDIO OnHead => (value_response 1, w)
  | AUDIO IsSassOn => (value_response 1, w)
  | AUDIO IsMultipointConfigurable => (value_response 1, w)
  | AUDIO IsOnHeadDetectionSupported => (value_response 1, w)
  | _ => (ok_response, w)
  end.

#[export] Instance test_platform : Platform := {|
  world := test_world;
  call := test_call;
  garbage := fun _ n => replicate n 0xEE;
|}.

Lemma toy_sha256_length m : length (toy_sha256 m) = 32%nat.
Proof. unfold toy_sha256. by rewrite length_fmap. Qed.

Lemma toy_sha256_ok m : bytes_ok (toy_sha256 m).
Proof. apply Forall_fmap, Forall_true. intros. apply u8_byte. Qed.

#[export, program] Instance test_sha256 : Sha256Spec test_platform := {|
  sha256 := toy_sha256;
  sha256_length := toy_sha256_length;
  sha256_ok := toy_sha256_ok;
  hashed := tw_hashed;
|}.
Solve Obligations with done.

Lemma toy_aes_length k x : length (toy_aes k x) = 16%nat.
Proof. unfold toy_aes. rewrite xor_bytes_length, !fit_length. done. Qed.

Lemma toy_aes_ok k x : bytes_ok (toy_aes k x).
Proof. apply xor_bytes_ok; apply fit_ok. Qed.

Lemma toy_aes_inv k x :
  length x = 16%nat -> bytes_ok x -> toy_aes k (toy_aes k x) = x.
Proof.
  intros Hl Hb. unfold toy_aes at 1. rewrite fit_id by auto using toy_aes_ok, toy_aes_length.
  unfold toy_aes. rewrite xor_bytes_involutive by (rewrite !fit_length; lia).
  by apply fit_id.
Qed.

#[export, program] Instance test_aes : AesSpec test_platform := {|
  aes := toy_aes;
  aes_inv := toy_aes;
  aes_length := toy_aes_length;
  aes_ok := toy_aes_ok;
  aes_inv_length := toy_aes_length;
  aes_inv_ok := toy_aes_ok;
  aes_inv_aes := toy_aes_inv;
|}.
Solve Obligations with done.

#[export, program] Instance test_secret : SecretSpec test_platform := {|
  shared_secret := fun k => Some (fit 32 k);
|}.
Next Obligation. intros pk d [= <-]. apply fit_length. Qed.
Next Obligation. intros pk d [= <-]. apply fit_ok. Qed.
Next Obligation. done. Qed.

(** The state of a program on this platform that has made no call yet. *)
Definition test_sys {S : Type} (g : S) (w : test_world) : sys S := Sys g w [].
