(* ===== verification/Crypto.v ===== *)
(** The cryptographic constructions of
    src/embedded/common/source/nearby_fp_library.c: SHA-256, HMAC-SHA-256 (one
    shot and incremental), HKDF, AES-CTR, the Additional Data packet, message
    authentication and the shared secret, over the primitives of
    nearby_platform_se.h.

    The theorems are proved against the interface of SecureElement.v
    ([Sha256Spec], [AesSpec]). *)

From Stdlib Require Import ZArith Lia.
From stdpp Require Import base list numbers.
From S2P Require Import Prelude Utils Platform SecureElement TestPlatform.
Import Utils.

Definition HMAC_SHA256_KEY_SIZE : nat := 64.
Definition SHA256_KEY_SIZE : nat := 32.
Definition MESSAGE_AUTHENTICATION_CODE_SIZE : nat := 8.
Definition OPAD : Z := 0x5C.
Definition IPAD : Z := 0x36.
Definition NONCE_SIZE : nat := 8.
Definition ADDITIONAL_DATA_SHA_SIZE : nat := 8.

(** "SASS-RRD-KEY" *)
Definition kSassRrdKey : list Z :=
  [0x53; 0x41; 0x53; 0x53; 0x2D; 0x52; 0x52; 0x44; 0x2D; 0x4B; 0x45; 0x59].

Record nearby_fp_HmacSha256Context : Type := HmacSha256Context {
  ctx_hash : list Z;
  ctx_hmac_key : list Z;
}.

(** * Definitions *)

Fixpoint PadKey_loop (k i : nat) (output key : list Z) (pad : Z)
  : outcome (list Z) :=
  match k with
  | O => Done output
  | S k' =>
    let! x := load key i in
    let! output := store output i (Z.lxor x pad) in
    PadKey_loop k' (S i) output key pad
  end.

Definition PadKey (output key : list Z) (key_length : nat) (pad : Z)
  : outcome (list Z) :=
  let! output := PadKey_loop key_length 0 output key pad in
  write_bytes output key_length (replicate (HMAC_SHA256_KEY_SIZE - key_length) pad).

Section Crypto.
Context {P : Platform} {S : Type}.

Definition nearby_fp_Sha256 (out data : list Z)
  : M S (nearby_platform_status * list Z) :=
  let! status := nearby_platform_Sha256Start in
  if status_ok status then
    let! status := nearby_platform_Sha256Update data in
    if status_ok status then nearby_platform_Sha256Finish
    else mret (status, out)
  else mret (status, out).

Definition nearby_fp_CreateSharedSecret (remote_public_key output : list Z)
  : M S (nearby_platform_status * list Z) :=
  let! ' (status, secret) := nearby_platform_GenSec256r1Secret remote_public_key in
  if negb (status_ok status) then mret (status, output) else
  let! hash := uninit 32 in
  let! ' (status, hash) := nearby_fp_Sha256 hash secret in
  if negb (status_ok status) then mret (status, output) else
  let! key := lift (read_bytes hash 0 ACCOUNT_KEY_SIZE_BYTES) in
  mret (status, key).

Definition HmacSha256 (out hmac_key data : list Z)
  : M S (nearby_platform_status * list Z) :=
  return_if_error! nearby_platform_Sha256Start with out in
  return_if_error! nearby_platform_Sha256Update hmac_key with out in
  return_if_error! nearby_platform_Sha256Update data with out in
  nearby_platform_Sha256Finish.

Definition HmacSha256WithNonce
    (out hmac_key session_nonce message_nonce data : list Z)
  : M S (nearby_platform_status * list Z) :=
  return_if_error! nearby_platform_Sha256Start with out in
  return_if_error! nearby_platform_Sha256Update hmac_key with out in
  return_if_error! nearby_platform_Sha256Update session_nonce with out in
  return_if_error! nearby_platform_Sha256Update message_nonce with out in
  return_if_error! nearby_platform_Sha256Update data with out in
  nearby_platform_Sha256Finish.

Definition nearby_fp_HmacSha256Start (context : nearby_fp_HmacSha256Context)
    (key : list Z) (key_length : nat)
  : M S (nearby_platform_status * nearby_fp_HmacSha256Context) :=
  let! k := lift (PadKey (ctx_hmac_key context) key key_length IPAD) in
  let context := HmacSha256Context (ctx_hash context) k in
  return_if_error! nearby_platform_Sha256Start with context in
  let! status := nearby_platform_Sha256Update (ctx_hmac_key context) in
  mret (status, context).

Definition nearby_fp_HmacSha256Update (data : list Z)
  : M S nearby_platform_status := nearby_platform_Sha256Update data.

Definition nearby_fp_HmacSha256Finish (context : nearby_fp_HmacSha256Context)
    (key : list Z) (key_length : nat)
  : M S (nearby_platform_status * nearby_fp_HmacSha256Context) :=
  let! ' (status, hash) := nearby_platform_Sha256Finish in
  let context := HmacSha256Context hash (ctx_hmac_key context) in
  if negb (status_ok status) then mret (status, context) else
  let! k := lift (PadKey (ctx_hmac_key context) key key_length OPAD) in
  let! ' (status, hash) := HmacSha256 (ctx_hash context) k (ctx_hash context) in
  mret (status, HmacSha256Context hash k).

Definition nearby_fp_HmacSha256 (out key : list Z) (key_length : nat)
    (data : list Z) : M S (nearby_platform_status * list Z) :=
  let! hmac_key := uninit HMAC_SHA256_KEY_SIZE in
  let! hmac_key := lift (PadKey hmac_key key key_length IPAD) in
  let! ' (status, out) := HmacSha256 out hmac_key data in
  if negb (status_ok status) then mret (status, out) else
  let! hmac_key := lift (PadKey hmac_key key key_length OPAD) in
  HmacSha256 out hmac_key out.

Definition nearby_fp_HkdfExtractSha256 (out salt : list Z) (salt_length : nat)
    (ikm : list Z) : M S (nearby_platform_status * list Z) :=
  nearby_fp_HmacSha256 out salt salt_length ikm.

(** One chunk of the while loop of [nearby_fp_HkdfExpandSha256]: its HMAC. *)
Definition HkdfExpand_chunk (context : nearby_fp_HmacSha256Context)
    (offset : nat) (chunk_number : Z) (prk : list Z) (prk_length : nat)
    (info : list Z) : M S (nearby_platform_status * nearby_fp_HmacSha256Context) :=
  let! ' (status, context) := nearby_fp_HmacSha256Start context prk prk_length in
  if negb (status_ok status) then mret (status, context) else
  let! status := if (offset =? 0)%nat then mret kNearbyStatusOK
                 else nearby_fp_HmacSha256Update (ctx_hash context) in
  if negb (status_ok status) then mret (status, context) else
  return_if_error! nearby_fp_HmacSha256Update info with context in
  return_if_error! nearby_fp_HmacSha256Update [chunk_number] with context in
  nearby_fp_HmacSha256Finish context prk prk_length.

(** The body of the while loop runs at most once per output byte. *)
Fixpoint HkdfExpand_loop (fuel : nat) (context : nearby_fp_HmacSha256Context)
    (out : list Z) (out_length offset : nat) (chunk_number : Z)
    (prk : list Z) (prk_length : nat) (info : list Z)
  : M S (nearby_platform_status * list Z) :=
  if (offset <? out_length)%nat then
    match fuel with
    | O => lift Fault
    | Datatypes.S fuel' =>
      let! ' (status, context) :=
        HkdfExpand_chunk context offset chunk_number prk prk_length info in
      if negb (status_ok status) then mret (status, out) else
      let space_left := (out_length - offset)%nat in
      let bytes_to_copy :=
        if (space_left <? SHA256_KEY_SIZE)%nat then space_left else SHA256_KEY_SIZE in
      let! src := lift (read_bytes (ctx_hash context) 0 bytes_to_copy) in
      let! out := lift (write_bytes out offset src) in
      HkdfExpand_loop fuel' context out out_length (offset + bytes_to_copy)
        (u8 (chunk_number + 1)) prk prk_length info
    end
  else mret (kNearbyStatusOK, out).

Definition nearby_fp_HkdfExpandSha256 (out : list Z) (out_length : nat)
    (prk : list Z) (prk_length : nat) (info : list Z)
  : M S (nearby_platform_status * list Z) :=
  let! hash := uninit SHA256_KEY_SIZE in
  let! hmac_key := uninit HMAC_SHA256_KEY_SIZE in
  HkdfExpand_loop out_length (HmacSha256Context hash hmac_key) out out_length 0 1
    prk prk_length info.

Definition GetRrdKey (out account_key : list Z)
  : M S (nearby_platform_status * list Z) :=
  let! prk := uninit SHA256_KEY_SIZE in
  let! ' (status, prk) := nearby_fp_HkdfExtractSha256 prk [] 0 account_key in
  if negb (status_ok status) then mret (status, out) else
  nearby_fp_HkdfExpandSha256 out AES_MESSAGE_SIZE_BYTES prk (length prk) kSassRrdKey.

(** [for (i = 0; i < bytes_left && i < sizeof(key_stream); i++)
      message[offset++] ^= key_stream[i];] *)
Fixpoint xor_loop (k i offset : nat) (message key_stream : list Z)
  : outcome (list Z) :=
  match k with
  | O => Done message
  | Datatypes.S k' =>
    let! m := load message offset in
    let! x := load key_stream i in
    let! message := store message offset (Z.lxor m x) in
    xor_loop k' (Datatypes.S i) (Datatypes.S offset) message key_stream
  end.

Fixpoint AesCtr_loop (fuel : nat) (offset : nat) (iv message key : list Z)
  : M S (nearby_platform_status * list Z) :=
  if (offset <? length message)%nat then
    match fuel with
    | O => lift Fault
    | Datatypes.S fuel' =>
      let bytes_left := (length message - offset)%nat in
      let! ' (status, key_stream) := nearby_platform_Aes128Encrypt iv key in
      if negb (status_ok status) then mret (status, message) else
      let n := Nat.min bytes_left AES_MESSAGE_SIZE_BYTES in
      let! message := lift (xor_loop n 0 offset message key_stream) in
      let! iv0 := lift (load iv 0) in
      let! iv := lift (store iv 0 (iv0 + 1)) in
      AesCtr_loop fuel' (offset + n) iv message key
    end
  else mret (kNearbyStatusOK, message).

(** [message] is the whole message, [message_length] its length. *)
Definition nearby_fp_AesCtr (message key : list Z)
  : M S (nearby_platform_status * list Z) :=
  let! iv := uninit AES_MESSAGE_SIZE_BYTES in
  let! iv := lift (write_bytes iv 0
    (replicate (AES_MESSAGE_SIZE_BYTES - NONCE_SIZE) 0)) in
  let! nonce := lift (read_bytes message 0 NONCE_SIZE) in
  let! iv := lift (write_bytes iv (AES_MESSAGE_SIZE_BYTES - NONCE_SIZE) nonce) in
  AesCtr_loop (length message) NONCE_SIZE iv message key.

Definition nearby_fp_AesEncryptIv (data iv key : list Z)
  : M S (nearby_platform_status * list Z) :=
  do! lift (nearby_assert (length data <=? AES_MESSAGE_SIZE_BYTES)%nat) in
  let! ' (status, iv) := nearby_platform_Aes128Encrypt iv key in
  if negb (status_ok status) then mret (status, data) else
  let! data := lift (xor_loop (length data) 0 0 data iv) in
  mret (kNearbyStatusOK, data).

(** [for (i = 0; i < k; i++) data[off + i] = nearby_platform_Rand();] *)
Fixpoint rand_fill (k off : nat) (data : list Z) : M S (list Z) :=
  match k with
  | O => mret data
  | Datatypes.S k' =>
    let! r := nearby_platform_Rand in
    let! data := lift (store data off r) in
    rand_fill k' (Datatypes.S off) data
  end.

Definition nearby_fp_DecodeAdditionalData (data key : list Z)
  : M S (nearby_platform_status * list Z) :=
  do! lift (nearby_assert
    (ADDITIONAL_DATA_SHA_SIZE + NONCE_SIZE <? length data)%nat) in
  let! sha := uninit 32 in
  let tail := drop ADDITIONAL_DATA_SHA_SIZE data in
  let! ' (status, sha) := nearby_fp_HmacSha256 sha key ACCOUNT_KEY_SIZE_BYTES tail in
  if negb (status_ok status) then mret (status, data) else
  if negb (bytes_eqb (take ADDITIONAL_DATA_SHA_SIZE sha)
                     (take ADDITIONAL_DATA_SHA_SIZE data))
  then mret (kNearbyStatusError, data) else
  let! ' (status, tail) := nearby_fp_AesCtr tail key in
  let! data := lift (write_bytes data ADDITIONAL_DATA_SHA_SIZE tail) in
  mret (status, data).

Definition nearby_fp_EncodeAdditionalData (data key : list Z)
  : M S (nearby_platform_status * list Z) :=
  do! lift (nearby_assert
    (ADDITIONAL_DATA_SHA_SIZE + NONCE_SIZE <=? length data)%nat) in
  let! sha := uninit 32 in
  let! data := rand_fill NONCE_SIZE ADDITIONAL_DATA_SHA_SIZE data in
  let! ' (status, tail) := nearby_fp_AesCtr (drop ADDITIONAL_DATA_SHA_SIZE data) key in
  let! data := lift (write_bytes data ADDITIONAL_DATA_SHA_SIZE tail) in
  if negb (status_ok status) then mret (status, data) else
  let! ' (status, sha) := nearby_fp_HmacSha256 sha key ACCOUNT_KEY_SIZE_BYTES
      (drop ADDITIONAL_DATA_SHA_SIZE data) in
  if negb (status_ok status) then mret (status, data) else
  let! h := lift (read_bytes sha 0 ADDITIONAL_DATA_SHA_SIZE) in
  let! data := lift (write_bytes data 0 h) in
  mret (kNearbyStatusOK, data).

(** [size_t] arithmetic: [len - 16] wraps around for a short message. *)
Definition nearby_fp_VerifyMessageAuthenticationCode (message : list Z) (len : Z)
    (key session_nonce : list Z) : M S nearby_platform_status :=
  if len <=? Z.of_nat SESSION_NONCE_SIZE - Z.of_nat MESSAGE_AUTHENTICATION_CODE_SIZE
  then mret kNearbyStatusInvalidInput else
  let data_length :=
    u64 (len - Z.of_nat SESSION_NONCE_SIZE - Z.of_nat MESSAGE_AUTHENTICATION_CODE_SIZE) in
  let! message_nonce :=
    lift (read_bytes_z message data_length (Z.of_nat SESSION_NONCE_SIZE)) in
  let! data := lift (read_bytes_z message 0 data_length) in
  let! hmac_key := uninit HMAC_SHA256_KEY_SIZE in
  let! out := uninit 32 in
  let! hmac_key := lift (PadKey hmac_key key ACCOUNT_KEY_SIZE_BYTES IPAD) in
  let! ' (status, out) :=
    HmacSha256WithNonce out hmac_key session_nonce message_nonce data in
  if negb (status_ok status) then mret status else
  let! hmac_key := lift (PadKey hmac_key key ACCOUNT_KEY_SIZE_BYTES OPAD) in
  let! ' (status, out) := HmacSha256 out hmac_key out in
  if negb (status_ok status) then mret status else
  let! mac := lift (read_bytes_z message
    (data_length + Z.of_nat SESSION_NONCE_SIZE)
    (Z.of_nat MESSAGE_AUTHENTICATION_CODE_SIZE)) in
  if negb (bytes_eqb (take MESSAGE_AUTHENTICATION_CODE_SIZE out) mac)
  then mret kNearbyStatusInvalidInput
  else mret kNearbyStatusOK.

End Crypto.

(** * Reference constructions *)

(** RFC 2104: the key padded with zeros to one block, xored with the pad. *)
Definition hmac_block (key : list Z) (pad : Z) : list Z :=
  (fun x => Z.lxor x pad) <$> (key ++ replicate (64 - length key) 0).

Definition hmac {P : Platform} {Sha : Sha256Spec P} (key data : list Z) : list Z :=
  sha256 (hmac_block key OPAD ++ sha256 (hmac_block key IPAD ++ data)).

(** RFC 5869: the blocks T(i), T(i+1), ... of HKDF-Expand, [prev] being T(i-1). *)
Fixpoint hkdf_blocks {P : Platform} {Sha : Sha256Spec P} (n : nat) (prev prk info : list Z) (i : Z)
  : list Z :=
  match n with
  | O => []
  | Datatypes.S n' =>
    let t := hmac prk (prev ++ info ++ [i]) in t ++ hkdf_blocks n' t prk info (i + 1)
  end.

(** Counter mode: the payload xored with the cipher stream of the counter
    blocks [c, c+1, ...] (modulo 256) followed by seven zeros and the nonce. *)
Fixpoint ctr_stream {P : Platform} {Aes : AesSpec P} (n : nat) (key nonce : list Z) (c : Z) : list Z :=
  match n with
  | O => []
  | Datatypes.S n' =>
    aes key (u8 c :: replicate 7 0 ++ nonce) ++ ctr_stream n' key nonce (c + 1)
  end.

(** * Lemmas *)

Lemma PadKey_loop_spec k i output key pad :
  (i + k <= length key)%nat -> (i + k <= length output)%nat ->
  PadKey_loop k i output key pad =
  Done (take i output ++ ((fun x => u8 (Z.lxor x pad)) <$> take k (drop i key))
        ++ drop (i + k) output).
Proof.
  revert i output. induction k as [|k IH]; intros i output Hk Ho.
  { cbn [PadKey_loop]. rewrite take_0, Nat.add_0_r. cbn [fmap list_fmap app].
    by rewrite take_drop. }
  cbn [PadKey_loop]. destruct (lookup_lt_is_Some_2 key i) as [x Hx]; [lia|].
  rewrite (load_done _ _ _ Hx), done_bind, store_done, done_bind by lia.
  rewrite IH by (rewrite ?length_insert; lia). f_equal.
  rewrite (drop_S _ _ _ Hx). cbn [take fmap list_fmap].
  rewrite (take_S_r _ _ (u8 (Z.lxor x pad))) by (apply list_lookup_insert_eq; lia).
  rewrite take_insert_ge, drop_insert_lt by lia.
  rewrite <- app_assoc. by replace (i + Datatypes.S k)%nat with (Datatypes.S i + k)%nat by lia.
Qed.

Lemma PadKey_spec output key pad :
  length output = HMAC_SHA256_KEY_SIZE -> (length key <= HMAC_SHA256_KEY_SIZE)%nat ->
  bytes_ok key -> is_byte pad ->
  PadKey output key (length key) pad = Done (hmac_block key pad).
Proof.
  unfold HMAC_SHA256_KEY_SIZE. intros Ho Hk Hb Hp. unfold PadKey, HMAC_SHA256_KEY_SIZE.
  rewrite PadKey_loop_spec, done_bind by lia.
  rewrite take_0, drop_0, firstn_all. cbn [app].
  assert (((fun x => u8 (Z.lxor x pad)) <$> key) = ((fun x => Z.lxor x pad) <$> key)) as ->.
  { apply list_fmap_ext. intros i x Hx. apply u8_id, lxor_byte; [|done].
    by eapply Forall_lookup_1. }
  rewrite <- (app_nil_l (_ ++ _)), <- (app_nil_r (drop _ _)), app_assoc. cbn [app].
  pose proof (write_bytes_app ((fun x => Z.lxor x pad) <$> key) (drop (0 + length key) output) []
    (replicate (64 - length key) pad)) as Hw.
  rewrite length_fmap in Hw. rewrite Hw by (rewrite length_replicate, length_drop; lia).
  unfold hmac_block. rewrite fmap_app, fmap_replicate, app_nil_r. by rewrite Z.lxor_0_l.
Qed.

Lemma PadKey_overflow output key key_length pad :
  length output = HMAC_SHA256_KEY_SIZE -> (HMAC_SHA256_KEY_SIZE < key_length)%nat ->
  (key_length <= length key)%nat -> PadKey output key key_length pad = Fault.
Proof.
  unfold HMAC_SHA256_KEY_SIZE. intros Ho Hk Hl. unfold PadKey.
  enough (forall k i out, length out = 64%nat -> (i <= 64)%nat -> (64 < i + k)%nat ->
    (i + k <= length key)%nat -> PadKey_loop k i out key pad = Fault) as ->; [done|lia..|].
  clear. intros k. induction k as [|k IH]; intros i out Ho Hi Hk Hl; [lia|].
  cbn [PadKey_loop]. destruct (lookup_lt_is_Some_2 key i) as [x Hx]; [lia|].
  rewrite (load_done _ _ _ Hx), done_bind.
  destruct (decide (i = 64)%nat) as [->|].
  - by rewrite store_fault by lia.
  - rewrite store_done, done_bind by lia. apply IH; rewrite ?length_insert; lia.
Qed.

Lemma hmac_block_length key pad :
  (length key <= 64)%nat -> length (hmac_block key pad) = 64%nat.
Proof. intros. unfold hmac_block. rewrite length_fmap, length_app, length_replicate. lia. Qed.

Lemma byte_ipad : is_byte IPAD.
Proof. split; unfold IPAD; lia. Qed.
Lemma byte_opad : is_byte OPAD.
Proof. split; unfold OPAD; lia. Qed.
#[export] Hint Resolve byte_ipad byte_opad hmac_block_length : fp.

(** Sequencing of [effects] facts: a call with a known result, and a pure
    computation that ends by the facts [tac] proves. *)
Tactic Notation "eff_bind" uconstr(H) :=
  eapply effects_bind; [apply H|cbn beta iota; intros ? ->; cbn beta iota].
Ltac eff_lift tac :=
  eapply effects_bind;
  [eapply effects_lift with (R := eq _); [tac|reflexivity]|intros ? <-].

Section ShaProofs.
Context {P : Platform} {Sha : Sha256Spec P} {S : Type}.
Implicit Types (s : sys S).

Lemma wp_sha_start (Q : nearby_platform_status -> sys S -> Prop) s :
  (forall s', quiet is_se s s' -> hashed (env s') = [] -> Q kNearbyStatusOK s') ->
  wp nearby_platform_Sha256Start Q s.
Proof.
  intros H. apply wp_hal_map_call. rewrite sha_start_ok.
  apply H; [by apply quiet_call|]. apply sha_start_hashed.
Qed.

Lemma wp_sha_update d (Q : nearby_platform_status -> sys S -> Prop) s :
  (forall s', quiet is_se s s' -> hashed (env s') = hashed (env s) ++ d ->
     Q kNearbyStatusOK s') ->
  wp (nearby_platform_Sha256Update d) Q s.
Proof.
  intros H. apply wp_hal_map_call. rewrite sha_update_ok.
  apply H; [by apply quiet_call|]. apply sha_update_hashed.
Qed.

Lemma wp_sha_finish (Q : nearby_platform_status * list Z -> sys S -> Prop) s :
  (forall s', quiet is_se s s' -> Q (kNearbyStatusOK, sha256 (hashed (env s))) s') ->
  wp nearby_platform_Sha256Finish Q s.
Proof.
  intros H. apply wp_hal_map_call. rewrite sha_finish_ok, sha_finish_bytes.
  rewrite fit_id by auto using sha256_ok, sha256_length.
  apply H. by apply quiet_call.
Qed.

(** Runs a sequence of hash calls, collecting the hashed bytes. *)
Ltac sha_step :=
  cbn beta iota;
  lazymatch goal with
  | |- wp (mbind _ _) _ _ => apply wp_bind
  | |- wp nearby_platform_Sha256Start _ _ => apply wp_sha_start; intros ? ? ?
  | |- wp (nearby_platform_Sha256Update _) _ _ => apply wp_sha_update; intros ? ? ?
  | |- wp (nearby_fp_HmacSha256Update _) _ _ => apply wp_sha_update; intros ? ? ?
  | |- wp nearby_platform_Sha256Finish _ _ => apply wp_sha_finish; intros ? ?
  | |- wp (mret _) _ _ => apply wp_ret
  | |- wp (uninit _) _ _ => apply wp_uninit; intros ? ? ?
  | |- context [status_ok kNearbyStatusOK] => change (status_ok kNearbyStatusOK) with true
  end.

(** Closes [quiet K s s'] from a chain of steps. *)
Ltac quiet_chain :=
  repeat match goal with
  | H : quiet ?K ?s ?s1 |- quiet ?K ?s ?s2 =>
    lazymatch s1 with s2 => exact H | _ => transitivity s1; [exact H|clear H] end
  end; try reflexivity.

Lemma HmacSha256_effects out k d :
  effects is_se (HmacSha256 (S:=S) out k d) (fun r => r = (kNearbyStatusOK, sha256 (k ++ d))).
Proof.
  intros s. unfold HmacSha256. repeat sha_step.
  split; [quiet_chain|]. repeat match goal with H : hashed _ = _ |- _ => rewrite H; clear H end.
  done.
Qed.


Lemma nearby_fp_HmacSha256_effects out key data :
  (length key <= HMAC_SHA256_KEY_SIZE)%nat -> bytes_ok key ->
  effects is_se (nearby_fp_HmacSha256 (S:=S) out key (length key) data)
    (fun r => r = (kNearbyStatusOK, hmac key data)).
Proof.
  intros Hk Hb. unfold nearby_fp_HmacSha256.
  eapply effects_bind; [by apply effects_uninit with (R := fun l => length l = 64%nat)|].
  intros l Hl. eff_lift ltac:(apply PadKey_spec; auto with fp).
  eff_bind HmacSha256_effects.
  eff_lift ltac:(apply PadKey_spec; auto with fp).
  eapply effects_mono; [apply HmacSha256_effects|done|]. by intros ? ->.
Qed.

Lemma nearby_fp_Sha256_effects out data :
  effects is_se (nearby_fp_Sha256 (S:=S) out data)
    (fun r => r = (kNearbyStatusOK, sha256 data)).
Proof.
  intros s. unfold nearby_fp_Sha256. repeat sha_step.
  split; [quiet_chain|]. by repeat match goal with H : hashed _ = _ |- _ => rewrite H; clear H end.
Qed.

Lemma HmacSha256WithNonce_effects out k n1 n2 d :
  effects is_se (HmacSha256WithNonce (S:=S) out k n1 n2 d)
    (fun r => r = (kNearbyStatusOK, sha256 (k ++ n1 ++ n2 ++ d))).
Proof.
  intros s. unfold HmacSha256WithNonce. repeat sha_step.
  split; [quiet_chain|]. repeat match goal with H : hashed _ = _ |- _ => rewrite H; clear H end.
  by rewrite <- !app_assoc.
Qed.

Lemma wp_HmacSha256Start ctx key Q s :
  length (ctx_hmac_key ctx) = HMAC_SHA256_KEY_SIZE ->
  (length key <= HMAC_SHA256_KEY_SIZE)%nat -> bytes_ok key ->
  (forall s', quiet is_se s s' -> hashed (env s') = hmac_block key IPAD ->
     Q (kNearbyStatusOK, HmacSha256Context (ctx_hash ctx) (hmac_block key IPAD)) s') ->
  wp (nearby_fp_HmacSha256Start (S:=S) ctx key (length key)) Q s.
Proof.
  intros Hc Hk Hb HQ. unfold nearby_fp_HmacSha256Start. apply wp_bind.
  eapply wp_lift; [apply PadKey_spec; auto with fp|]. repeat sha_step.
  apply HQ; [quiet_chain|]. by repeat match goal with H : hashed _ = _ |- _ => rewrite H; clear H end.
Qed.

Lemma wp_HmacSha256Finish ctx key data Q s :
  length (ctx_hmac_key ctx) = HMAC_SHA256_KEY_SIZE ->
  (length key <= HMAC_SHA256_KEY_SIZE)%nat -> bytes_ok key ->
  hashed (env s) = hmac_block key IPAD ++ data ->
  (forall s', quiet is_se s s' ->
     Q (kNearbyStatusOK, HmacSha256Context (hmac key data) (hmac_block key OPAD)) s') ->
  wp (nearby_fp_HmacSha256Finish (S:=S) ctx key (length key)) Q s.
Proof.
  intros Hc Hk Hb Hd HQ. unfold nearby_fp_HmacSha256Finish. repeat sha_step.
  cbn [negb]. apply wp_bind.
  eapply wp_lift; [apply PadKey_spec; auto with fp|]. apply wp_bind.
  eapply wp_effects; [apply HmacSha256_effects|]. intros a s2 Hs2 ->.
  apply wp_ret. cbn [ctx_hash]. rewrite Hd. apply HQ. quiet_chain.
Qed.

(** Incremental use of the HMAC functions, one update per chunk. *)
Fixpoint hmac_updates (chunks : list (list Z)) : M S nearby_platform_status :=
  match chunks with
  | [] => mret kNearbyStatusOK
  | c :: cs => return_if_error! nearby_fp_HmacSha256Update c in hmac_updates cs
  end.

Definition hmac_incremental (ctx : nearby_fp_HmacSha256Context) (key : list Z)
    (chunks : list (list Z))
  : M S (nearby_platform_status * nearby_fp_HmacSha256Context) :=
  let! ' (status, ctx) := nearby_fp_HmacSha256Start ctx key (length key) in
  if negb (status_ok status) then mret (status, ctx) else
  return_if_error! hmac_updates chunks with ctx in
  nearby_fp_HmacSha256Finish ctx key (length key).

Lemma wp_hmac_updates chunks Q s :
  (forall s', quiet is_se s s' -> hashed (env s') = hashed (env s) ++ concat chunks ->
     Q kNearbyStatusOK s') ->
  wp (hmac_updates chunks) Q s.
Proof.
  revert s. induction chunks as [|c cs IH]; intros s HQ; cbn [hmac_updates].
  - apply HQ; [done|]. by rewrite app_nil_r.
  - repeat sha_step. apply IH. intros s2 H2 E2. apply HQ; [quiet_chain|].
    rewrite E2, H0. by rewrite <- app_assoc.
Qed.

(** Prefixes of the HKDF blocks do not depend on how many blocks follow. *)
Lemma hkdf_blocks_prefix n m prev prk info i k :
  (k <= 32 * n)%nat -> (k <= 32 * m)%nat ->
  take k (hkdf_blocks n prev prk info i) = take k (hkdf_blocks m prev prk info i).
Proof.
  revert m prev i k. induction n as [|n IH]; intros [|m] prev i k Hn Hm;
    try (replace k with 0%nat by lia; by rewrite !take_0).
  cbn [hkdf_blocks]. set (t := hmac _ _).
  assert (length t = 32%nat) as Ht by apply sha256_length.
  rewrite !take_app, Ht. f_equal. apply IH; lia.
Qed.

Lemma HkdfExpand_chunk_effects ctx offset i prk info :
  (length prk <= HMAC_SHA256_KEY_SIZE)%nat -> bytes_ok prk ->
  length (ctx_hmac_key ctx) = HMAC_SHA256_KEY_SIZE ->
  effects is_se (HkdfExpand_chunk (S:=S) ctx offset i prk (length prk) info)
    (fun r => r = (kNearbyStatusOK, HmacSha256Context
       (hmac prk ((if (offset =? 0)%nat then [] else ctx_hash ctx) ++ info ++ [i]))
       (hmac_block prk OPAD))).
Proof.
  intros Hp Hb Hc s. unfold HkdfExpand_chunk. set (prev := if (offset =? 0)%nat then _ else _).
  apply wp_bind, wp_HmacSha256Start; try done. intros s1 Q1 H1.
  change (status_ok kNearbyStatusOK) with true. cbn [negb ctx_hash].
  assert (wp (if (offset =? 0)%nat then mret kNearbyStatusOK
    else nearby_fp_HmacSha256Update (S:=S) (ctx_hash ctx)) (fun r s2 =>
      r = kNearbyStatusOK /\ quiet is_se s s2 /\
      hashed (env s2) = hmac_block prk IPAD ++ prev) s1) as Hprev.
  { unfold prev. destruct (offset =? 0)%nat.
    - apply wp_ret. by rewrite H1, app_nil_r.
    - apply wp_sha_update. intros s2 Q2 H2. rewrite H2, H1. split; [done|]. split; [quiet_chain|done]. }
  apply wp_bind. eapply wp_mono; [exact Hprev|]. clear Hprev.
  intros r s2 (-> & Q2 & H2). change (status_ok kNearbyStatusOK) with true. cbn [negb].
  repeat sha_step. eapply wp_HmacSha256Finish with (data := prev ++ info ++ [i]); try done.
  { cbn. by apply hmac_block_length. }
  { rewrite H4, H0, H2. by rewrite <- !app_assoc. }
  intros s5 Q5. split; [quiet_chain|done].
Qed.

(** Copying a 32 byte block in front of what is still to be written. *)
Lemma block_splice (out t rest : list Z) (offset out_length : nat) :
  length t = 32%nat -> (offset + 32 <= out_length <= length out)%nat ->
  let out' := take offset out ++ t ++ drop (offset + 32) out in
  take (offset + 32) out' ++ take (out_length - (offset + 32)) rest ++ drop out_length out'
  = take offset out ++ take (out_length - offset) (t ++ rest) ++ drop out_length out.
Proof.
  intros Ht Ho out'.
  assert (out' = (take offset out ++ t) ++ drop (offset + 32) out) as ->.
  { unfold out'. by rewrite app_assoc. }
  rewrite take_app_length' by (rewrite length_app, length_take; lia).
  rewrite drop_app_ge, drop_drop by (rewrite length_app, length_take; lia).
  rewrite (take_app_ge t) by lia. rewrite <- !app_assoc, Ht. do 4 f_equal; [lia|].
  rewrite length_app, length_take. lia.
Qed.

Lemma HkdfExpand_loop_effects fuel ctx out out_length offset i prk info :
  (length prk <= HMAC_SHA256_KEY_SIZE)%nat -> bytes_ok prk ->
  length (ctx_hmac_key ctx) = HMAC_SHA256_KEY_SIZE ->
  (out_length - offset <= fuel)%nat -> (offset <= out_length <= length out)%nat ->
  1 <= i -> 32 * i + Z.of_nat (out_length - offset) <= 32 * 256 ->
  effects is_se
    (HkdfExpand_loop (S:=S) fuel ctx out out_length offset i prk (length prk) info)
    (fun r => r = (kNearbyStatusOK,
       take offset out
       ++ take (out_length - offset)
            (hkdf_blocks fuel (if (offset =? 0)%nat then [] else ctx_hash ctx) prk info i)
       ++ drop out_length out)).
Proof.
  intros Hp Hb. revert ctx out offset i.
  induction fuel as [|fuel IH]; intros ctx out offset i Hc Hf Ho Hi Hmax;
    cbn [HkdfExpand_loop]; destruct (Nat.ltb_spec offset out_length) as [Hlt|Hge]; try lia.
  1,3: apply effects_ret; replace (out_length - offset)%nat with 0%nat by lia;
    rewrite take_0; replace out_length with offset by lia; cbn [app]; by rewrite take_drop.
  eff_bind HkdfExpand_chunk_effects; try done.
  change (status_ok kNearbyStatusOK) with true. cbn [negb ctx_hash hkdf_blocks].
  set (prev := if (offset =? 0)%nat then _ else _). set (t := hmac prk (prev ++ info ++ [i])).
  assert (length t = 32%nat) as Ht by apply sha256_length.
  unfold SHA256_KEY_SIZE.
  destruct (Nat.ltb_spec (out_length - offset) 32) as [Hs|Hs].
  - (* the last, partial block *)
    eff_lift ltac:(apply read_bytes_done; lia). rewrite drop_0.
    assert (length (take (out_length - offset) t) = (out_length - offset)%nat) as Hn
      by (rewrite length_take; lia).
    eff_lift ltac:(apply write_bytes_done; lia). rewrite Hn. replace (offset + (out_length - offset))%nat with out_length by lia.
    destruct fuel; cbn [HkdfExpand_loop]; rewrite (proj2 (Nat.ltb_ge _ _)) by lia;
      apply effects_ret; rewrite take_app_le by lia; done.
  - eff_lift ltac:(apply read_bytes_done; lia). rewrite drop_0, (take_ge t) by lia.
    eff_lift ltac:(apply write_bytes_done; lia). rewrite Ht. set (out' := take offset out ++ t ++ drop (offset + 32) out).
    assert (length out' = length out) as Hlen.
    { unfold out'. rewrite !length_app, Ht, length_take, length_drop. lia. }
    destruct (decide (offset + 32 = out_length)%nat) as [Hend|Hend].
    + destruct fuel; cbn [HkdfExpand_loop]; rewrite (proj2 (Nat.ltb_ge _ _)) by lia;
        apply effects_ret; rewrite <- Hend; rewrite take_app_le by lia; rewrite (take_ge t) by lia; done.
    + rewrite u8_id by (unfold is_byte; lia).
      eapply effects_mono; [apply IH; cbn; rewrite ?Hlen; try lia; by apply hmac_block_length|done|].
      intros r ->. f_equal. rewrite (proj2 (Nat.eqb_neq (offset + 32) 0)) by lia.
      cbn [ctx_hash]. apply block_splice; [done|lia].
Qed.

End ShaProofs.

(** * AES counter mode *)

Lemma xor_bytes_app a b x y :
  length a = length x -> xor_bytes (a ++ b) (x ++ y) = xor_bytes a x ++ xor_bytes b y.
Proof. intros. unfold xor_bytes. by apply zip_with_app. Qed.

Lemma xor_bytes_short a x y :
  (length a <= length x)%nat -> xor_bytes a (x ++ y) = xor_bytes a x.
Proof.
  unfold xor_bytes. revert x. induction a as [|u a IH]; intros [|v x] H; simpl in *; try lia; try done.
  f_equal. apply IH. lia.
Qed.

Lemma xor_loop_spec k i offset message key_stream :
  bytes_ok message -> bytes_ok key_stream ->
  (offset + k <= length message)%nat -> (i + k <= length key_stream)%nat ->
  xor_loop k i offset message key_stream =
  Done (take offset message
        ++ xor_bytes (take k (drop offset message)) (drop i key_stream)
        ++ drop (offset + k) message).
Proof.
  intros Hm Hs. revert i offset message Hm.
  induction k as [|k IH]; intros i offset message Hm Ho Hi.
  { cbn [xor_loop]. rewrite take_0, Nat.add_0_r. cbn [xor_bytes zip_with app].
    by rewrite take_drop. }
  cbn [xor_loop]. destruct (lookup_lt_is_Some_2 message offset) as [m Hx]; [lia|].
  destruct (lookup_lt_is_Some_2 key_stream i) as [x Hk]; [lia|].
  assert (is_byte (Z.lxor m x)) as Hb.
  { apply lxor_byte; [eapply (Forall_lookup_1 _ message)|eapply (Forall_lookup_1 _ key_stream)]; eauto. }
  rewrite (load_done _ _ _ Hx), (load_done _ _ _ Hk), !done_bind.
  rewrite store_done, done_bind, u8_id by (auto; lia).
  rewrite IH by (rewrite ?length_insert; auto with fp; lia). f_equal.
  rewrite (drop_S _ _ _ Hx), (drop_S _ _ _ Hk). cbn [take xor_bytes zip_with].
  rewrite (take_S_r _ _ (Z.lxor m x)) by (apply list_lookup_insert_eq; lia).
  rewrite take_insert_ge, !drop_insert_lt by lia. rewrite <- app_assoc.
  by replace (offset + Datatypes.S k)%nat with (Datatypes.S offset + k)%nat by lia.
Qed.

Lemma u8_succ c : u8 (u8 c + 1) = u8 (c + 1).
Proof. unfold u8. by rewrite Zplus_mod_idemp_l. Qed.

Section AesProofs.
Context {P : Platform} {Aes : AesSpec P} {S : Type}.

(** What [nearby_fp_AesCtr] makes of a message: the nonce is kept, the payload
    is xored with the cipher stream of the counter blocks. *)
Definition ctr_crypt (key message : list Z) : list Z :=
  take NONCE_SIZE message
  ++ xor_bytes (drop NONCE_SIZE message)
       (ctr_stream (length message) key (take NONCE_SIZE message) 0).

Lemma Aes128Encrypt_effects x k :
  effects is_se (nearby_platform_Aes128Encrypt (S:=S) x k)
    (fun r => r = (kNearbyStatusOK, aes k x)).
Proof.
  intros s. apply wp_hal_map_call. destruct (aes_encrypt_call x k (env s)) as [-> ->].
  split; [by apply quiet_call|]. by rewrite fit_id by auto using aes_ok, aes_length.
Qed.

Lemma Aes128Decrypt_effects x k :
  effects is_se (nearby_platform_Aes128Decrypt (S:=S) x k)
    (fun r => r = (kNearbyStatusOK, aes_inv k x)).
Proof.
  intros s. apply wp_hal_map_call. destruct (aes_decrypt_call x k (env s)) as [-> ->].
  split; [by apply quiet_call|]. by rewrite fit_id by auto using aes_inv_ok, aes_inv_length.
Qed.

Lemma ctr_stream_length n key nonce c :
  length (ctr_stream n key nonce c) = (16 * n)%nat.
Proof.
  revert c. induction n as [|n IH]; intros c; cbn [ctr_stream]; [done|].
  rewrite length_app, IH, aes_length. lia.
Qed.

Lemma ctr_stream_ok n key nonce c : bytes_ok (ctr_stream n key nonce c).
Proof.
  revert c. induction n as [|n IH]; intros c; cbn [ctr_stream]; [constructor|].
  apply bytes_ok_app. auto using aes_ok.
Qed.

(** One block of counter mode in front of the rest. *)
Lemma ctr_splice (message block rest : list Z) offset :
  length block = 16%nat -> (offset <= length message)%nat ->
  let n := Nat.min (length message - offset) 16 in
  let message' := take offset message
    ++ xor_bytes (take n (drop offset message)) block ++ drop (offset + n) message in
  length message' = length message /\
  take (offset + n) message' ++ xor_bytes (drop (offset + n) message') rest
  = take offset message ++ xor_bytes (drop offset message) (block ++ rest).
Proof.
  intros Hb Ho n message'.
  assert (length (xor_bytes (take n (drop offset message)) block) = n) as Hx.
  { rewrite xor_bytes_length, length_take, length_drop, Hb. lia. }
  assert (message' = (take offset message ++ xor_bytes (take n (drop offset message)) block)
    ++ drop (offset + n) message) as Hm by (unfold message'; by rewrite app_assoc).
  split.
  { rewrite Hm, !length_app, Hx, length_take, length_drop. lia. }
  assert (length (take offset message ++ xor_bytes (take n (drop offset message)) block)
    = (offset + n)%nat) as Hl by (rewrite length_app, Hx, length_take; lia).
  rewrite Hm, take_app_length', drop_app_length' by done. rewrite <- app_assoc. f_equal.
  destruct (Nat.le_gt_cases 16 (length message - offset)).
  - rewrite <- (take_drop n (drop offset message)) at 2.
    rewrite xor_bytes_app, drop_drop by (rewrite length_take, length_drop; lia). done.
  - rewrite (take_ge (drop offset message)) by (rewrite length_drop; lia).
    rewrite (drop_ge message (offset + n)) by lia. cbn [xor_bytes zip_with]. rewrite app_nil_r.
    rewrite xor_bytes_short by (rewrite length_drop; lia). done.
Qed.

Lemma AesCtr_loop_effects fuel offset c nonce message key :
  bytes_ok message -> (length message - offset <= fuel)%nat ->
  (offset <= length message)%nat -> length nonce = 8%nat ->
  effects is_se
    (AesCtr_loop (S:=S) fuel offset (u8 c :: replicate 7 0 ++ nonce) message key)
    (fun r => r = (kNearbyStatusOK, take offset message
       ++ xor_bytes (drop offset message) (ctr_stream fuel key nonce c))).
Proof.
  revert offset c message. induction fuel as [|fuel IH]; intros offset c message Hm Hf Ho Hn;
    cbn [AesCtr_loop]; destruct (Nat.ltb_spec offset (length message)); try lia.
  1,3: apply effects_ret; rewrite take_ge, drop_ge, app_nil_r by lia; done.
  eff_bind Aes128Encrypt_effects. change (status_ok kNearbyStatusOK) with true. cbn [negb].
  set (block := aes key (u8 c :: replicate 7 0 ++ nonce)).
  assert (length block = 16%nat) as Hb by apply aes_length.
  unfold AES_MESSAGE_SIZE_BYTES.
  destruct (ctr_splice message block (ctr_stream fuel key nonce (c + 1)) offset Hb) as [Hl Hsp]; [lia|].
  set (n := Nat.min (length message - offset) 16) in *.
  eff_lift ltac:(apply xor_loop_spec; [done|apply aes_ok|lia|lia]). rewrite drop_0.
  set (message' := take offset message ++ _) in *.
  eff_lift ltac:(reflexivity). eff_lift ltac:(reflexivity).
  cbn [insert list_insert]. rewrite u8_succ.
  eapply effects_mono; [apply IH; rewrite ?Hl; try lia|done|].
  - assert (bytes_ok block) by apply aes_ok.
    unfold message'. rewrite !bytes_ok_app. auto 7 with fp.
  - intros r ->. f_equal. cbn [ctr_stream]. exact Hsp.
Qed.

Lemma nearby_fp_AesCtr_effects message key :
  bytes_ok message -> (NONCE_SIZE <= length message)%nat ->
  effects is_se (nearby_fp_AesCtr (S:=S) message key)
    (fun r => r = (kNearbyStatusOK, ctr_crypt key message)).
Proof.
  intros Hm Hl. unfold NONCE_SIZE in Hl. unfold nearby_fp_AesCtr.
  eapply effects_bind; [by apply effects_uninit with (R := fun l => length l = 16%nat)|].
  intros iv Hiv. do 16 (destruct iv as [|? iv]; [done|]). destruct iv; [|done].
  eff_lift ltac:(reflexivity). eff_lift ltac:(apply read_bytes_done; unfold NONCE_SIZE; lia).
  rewrite drop_0.
  assert (length (take NONCE_SIZE message) = 8%nat) as Hn
    by (rewrite length_take; unfold NONCE_SIZE; lia).
  set (nonce := take NONCE_SIZE message) in *.
  eff_lift ltac:(apply write_bytes_done; rewrite Hn; simpl; lia).
  rewrite Hn. cbn [take drop app AES_MESSAGE_SIZE_BYTES NONCE_SIZE Nat.sub Nat.add].
  rewrite app_nil_r.
  eapply effects_mono; [apply (AesCtr_loop_effects (length message) 8 0 nonce message key); try done; lia|done|].
  by intros r ->.
Qed.

Lemma ctr_crypt_length key message :
  (NONCE_SIZE <= length message)%nat -> length (ctr_crypt key message) = length message.
Proof.
  unfold NONCE_SIZE. intros. unfold ctr_crypt, NONCE_SIZE.
  rewrite length_app, xor_bytes_length, ctr_stream_length, length_take, length_drop. lia.
Qed.

Lemma ctr_crypt_ok key message : bytes_ok message -> bytes_ok (ctr_crypt key message).
Proof.
  intros. unfold ctr_crypt. apply bytes_ok_app.
  auto using ctr_stream_ok with fp.
Qed.

Lemma ctr_crypt_involutive key message :
  (NONCE_SIZE <= length message)%nat -> ctr_crypt key (ctr_crypt key message) = message.
Proof.
  intros Hl. unfold ctr_crypt at 1. rewrite ctr_crypt_length by done.
  unfold ctr_crypt, NONCE_SIZE in *.
  rewrite take_app_length', drop_app_length' by (rewrite length_take; lia).
  rewrite xor_bytes_involutive by (rewrite length_drop, ctr_stream_length; lia).
  apply take_drop.
Qed.

End AesProofs.

(** * The library's cryptographic operations *)
Section CryptoTheorems.
Context {P : Platform} {Sha : Sha256Spec P} {Aes : AesSpec P} {S : Type}.
Implicit Types (s : sys S).

(** C38. For a key of at most one block, [nearby_fp_HmacSha256] succeeds and
    returns the HMAC of RFC 2104, using only the secure element. *)
Theorem HmacSha256_rfc2104 out key data s :
  (length key <= HMAC_SHA256_KEY_SIZE)%nat -> bytes_ok key ->
  wp (nearby_fp_HmacSha256 out key (length key) data)
    (fun r s' => r = (kNearbyStatusOK, hmac key data) /\ quiet is_se s s') s.
Proof.
  intros Hk Hb. eapply wp_effects; [by apply nearby_fp_HmacSha256_effects|]. done.
Qed.

(** The incremental interface ([Start], any number of [Update]s, [Finish])
    computes the HMAC of the concatenated chunks, however the data is cut. *)
Theorem HmacSha256_incremental ctx key chunks s :
  length (ctx_hmac_key ctx) = HMAC_SHA256_KEY_SIZE ->
  (length key <= HMAC_SHA256_KEY_SIZE)%nat -> bytes_ok key ->
  wp (hmac_incremental ctx key chunks)
    (fun r s' => fst r = kNearbyStatusOK
       /\ ctx_hash (snd r) = hmac key (concat chunks) /\ quiet is_se s s') s.
Proof.
  intros Hc Hk Hb. unfold hmac_incremental. apply wp_bind, wp_HmacSha256Start; try done.
  intros s1 Q1 H1. change (status_ok kNearbyStatusOK) with true. cbn [negb].
  apply wp_bind, wp_hmac_updates. intros s2 Q2 H2.
  change (status_ok kNearbyStatusOK) with true. cbn beta iota.
  eapply wp_HmacSha256Finish with (data := concat chunks); try done.
  - by apply hmac_block_length.
  - by rewrite H2, H1.
  - intros s3 Q3. split; [done|]. split; [done|]. by etransitivity; [|etransitivity].
Qed.

(** [nearby_fp_HkdfExpandSha256] writes the first [out_length] bytes of the
    HKDF-Expand blocks T(1) | T(2) | ... of RFC 5869 and leaves the rest of the
    output alone, for every length up to the 255 blocks the RFC allows. *)
Theorem HkdfExpand_rfc5869 out out_length prk info s :
  (length prk <= HMAC_SHA256_KEY_SIZE)%nat -> bytes_ok prk ->
  (out_length <= length out)%nat -> (out_length <= 255 * SHA256_KEY_SIZE)%nat ->
  wp (nearby_fp_HkdfExpandSha256 out out_length prk (length prk) info)
    (fun r s' => r = (kNearbyStatusOK,
         take out_length (hkdf_blocks 255 [] prk info 1) ++ drop out_length out)
       /\ quiet is_se s s') s.
Proof.
  unfold SHA256_KEY_SIZE. intros Hp Hb Ho Hmax. unfold nearby_fp_HkdfExpandSha256.
  apply wp_bind, wp_uninit. intros hash _ _. apply wp_bind, wp_uninit. intros k Hk _.
  eapply wp_effects; [apply HkdfExpand_loop_effects; try done; lia|].
  intros r s' Hq ->. split; [|done].
  rewrite take_0, Nat.sub_0_r. cbn [app Nat.eqb]. do 2 f_equal.
  apply hkdf_blocks_prefix; lia.
Qed.

(** [nearby_fp_AesCtr] is its own inverse: applying it twice with the same
    key restores every message that has room for its nonce. *)
Theorem AesCtr_involutive message key s :
  bytes_ok message -> (NONCE_SIZE <= length message)%nat ->
  wp (nearby_fp_AesCtr message key) (fun r s1 =>
    fst r = kNearbyStatusOK /\ take NONCE_SIZE (snd r) = take NONCE_SIZE message /\
    wp (nearby_fp_AesCtr (snd r) key)
      (fun r' s2 => r' = (kNearbyStatusOK, message) /\ quiet is_se s s2) s1) s.
Proof.
  intros Hb Hl. eapply wp_effects; [by apply nearby_fp_AesCtr_effects|].
  intros r s1 Q1 ->. cbn [fst snd]. split; [done|]. split.
  - unfold ctr_crypt. rewrite take_app_length'; [done|]. rewrite length_take. lia.
  - eapply wp_effects; [apply nearby_fp_AesCtr_effects|].
    + by apply ctr_crypt_ok.
    + by rewrite ctr_crypt_length.
    + intros r' s2 Q2 ->. rewrite ctr_crypt_involutive by done.
      split; [done|by etransitivity].
Qed.

Lemma rand_fill_effects k off data :
  bytes_ok data -> (off + k <= length data)%nat ->
  effects is_se (rand_fill (S:=S) k off data) (fun d =>
    length d = length data /\ bytes_ok d /\
    take off d = take off data /\ drop (off + k) d = drop (off + k) data).
Proof.
  revert off data. induction k as [|k IH]; intros off data Hb Ho; cbn [rand_fill].
  { by apply effects_ret. }
  eapply effects_bind; [apply effects_hal_map with (R := is_byte); [done|intros; apply u8_byte]|].
  intros x Hx. eff_lift ltac:(apply store_done; lia). rewrite u8_id by done.
  eapply effects_mono; [apply IH; rewrite ?length_insert; auto with fp; lia|done|].
  intros d (Hl & Hd & Ht & Hdr). rewrite length_insert in Hl. split; [done|]. split; [done|].
  replace (off + Datatypes.S k)%nat with (Datatypes.S off + k)%nat by lia. split.
  - apply (f_equal (take off)) in Ht. rewrite !take_take in Ht.
    replace (off `min` Datatypes.S off)%nat with off in Ht by lia.
    by rewrite take_insert_ge in Ht by lia.
  - by rewrite drop_insert_lt in Hdr by lia.
Qed.

(** A packet: the first half of the checksum of the nonce and the encrypted
    payload, then these. *)
Definition additional_data_packet (key tail : list Z) : list Z :=
  take ADDITIONAL_DATA_SHA_SIZE (hmac key tail) ++ tail.

Lemma tag_length (key tail : list Z) : length (take 8 (hmac key tail)) = 8%nat.
Proof. rewrite length_take. unfold hmac. rewrite sha256_length. done. Qed.

Lemma EncodeAdditionalData_effects data key :
  bytes_ok data -> (16 <= length data)%nat -> length key = 16%nat -> bytes_ok key ->
  effects is_se (nearby_fp_EncodeAdditionalData (S:=S) data key) (fun r =>
    exists clear, length clear = (length data - 8)%nat /\ bytes_ok clear /\
      drop 8 clear = drop 16 data /\
      r = (kNearbyStatusOK, additional_data_packet key (ctr_crypt key clear))).
Proof.
  intros Hb Hl Hk Hkb. unfold nearby_fp_EncodeAdditionalData.
  unfold ADDITIONAL_DATA_SHA_SIZE, NONCE_SIZE, ACCOUNT_KEY_SIZE_BYTES, AES_MESSAGE_SIZE_BYTES.
  rewrite (proj2 (Nat.leb_le (8 + 8) (length data))) by lia.
  eff_lift ltac:(reflexivity).
  eapply effects_bind; [by apply effects_uninit with (R := fun l => length l = 32%nat)|].
  intros sha Hsha.
  eapply effects_bind; [apply rand_fill_effects; [done|lia]|]. intros d (Hld & Hdb & _ & Hdr).
  assert (length (drop 8 d) = (length data - 8)%nat) as Hclear by (rewrite length_drop; lia).
  eapply effects_bind; [apply nearby_fp_AesCtr_effects; [by apply bytes_ok_drop|unfold NONCE_SIZE; lia]|].
  intros ? ->. cbn beta iota. set (clear := drop 8 d) in *.
  assert (length (ctr_crypt key clear) = (length d - 8)%nat) as Htl
    by (rewrite ctr_crypt_length by (unfold NONCE_SIZE; lia); lia).
  eff_lift ltac:(apply write_bytes_tail; lia).
  change (status_ok kNearbyStatusOK) with true. cbn [negb].
  rewrite drop_app_length' by (rewrite length_take; lia). rewrite <- Hk at 1.
  eff_bind nearby_fp_HmacSha256_effects; [unfold HMAC_SHA256_KEY_SIZE; lia|done|].
  change (status_ok kNearbyStatusOK) with true. cbn [negb].
  pose proof (tag_length key (ctr_crypt key clear)) as Ht.
  eff_lift ltac:(apply read_bytes_done; unfold hmac; rewrite sha256_length; lia). rewrite drop_0.
  eff_lift ltac:(apply write_bytes_done; rewrite Ht, length_app, length_take; lia).
  apply effects_ret. exists clear. split; [done|]. split; [by apply bytes_ok_drop|].
  split; [unfold clear; by rewrite drop_drop|].
  rewrite Ht, take_0. cbn [app]. unfold additional_data_packet. do 2 f_equal.
  rewrite drop_app_length' by (rewrite length_take; lia). done.
Qed.

Lemma DecodeAdditionalData_effects tail key :
  bytes_ok tail -> (9 <= length tail)%nat -> length key = 16%nat -> bytes_ok key ->
  effects is_se
    (nearby_fp_DecodeAdditionalData (S:=S) (additional_data_packet key tail) key)
    (fun r => r = (kNearbyStatusOK, take 8 (hmac key tail) ++ ctr_crypt key tail)).
Proof.
  intros Hb Hl Hk Hkb. unfold nearby_fp_DecodeAdditionalData, additional_data_packet.
  unfold ADDITIONAL_DATA_SHA_SIZE, NONCE_SIZE, ACCOUNT_KEY_SIZE_BYTES, AES_MESSAGE_SIZE_BYTES.
  pose proof (tag_length key tail) as Ht. set (tag := take 8 (hmac key tail)) in *.
  rewrite length_app, Ht. rewrite (proj2 (Nat.ltb_lt (8 + 8) (8 + length tail))) by lia.
  eff_lift ltac:(reflexivity).
  eapply effects_bind; [by apply effects_uninit with (R := fun l => length l = 32%nat)|].
  intros sha Hsha. rewrite drop_app_length', take_app_length' by done. rewrite <- Hk at 1.
  eff_bind nearby_fp_HmacSha256_effects; [unfold HMAC_SHA256_KEY_SIZE; lia|done|].
  change (status_ok kNearbyStatusOK) with true. cbn [negb]. fold tag.
  rewrite bytes_eqb_refl. cbn [negb].
  eff_bind nearby_fp_AesCtr_effects; [done|unfold NONCE_SIZE; lia|].
  eff_lift ltac:(apply write_bytes_tail; rewrite length_app, ?ctr_crypt_length by (unfold NONCE_SIZE; lia); lia).
  apply effects_ret. by rewrite take_app_length'.
Qed.

(** C37. A packet that [nearby_fp_EncodeAdditionalData] makes of a payload that is not
    empty is accepted by [nearby_fp_DecodeAdditionalData] with the same key, which
    gives back the payload that was encoded (everything after the 16 byte header).
    A packet made of an empty payload is not: it fails an assertion of
    [nearby_fp_DecodeAdditionalData]. *)
Theorem AdditionalData_roundtrip data key s :
  bytes_ok data -> (16 < length data)%nat ->
  length key = ACCOUNT_KEY_SIZE_BYTES -> bytes_ok key ->
  wp (nearby_fp_EncodeAdditionalData data key) (fun r s1 =>
    fst r = kNearbyStatusOK /\ length (snd r) = length data /\
    wp (nearby_fp_DecodeAdditionalData (snd r) key) (fun r' s2 =>
      fst r' = kNearbyStatusOK /\ drop 16 (snd r') = drop 16 data /\ quiet is_se s s2) s1) s.
Proof.
  intros Hb Hl Hk Hkb. eapply wp_effects; [apply EncodeAdditionalData_effects; auto; lia|].
  intros r s1 Q1 (clear & Hcl & Hcb & Hdr & ->). cbn [fst snd]. split; [done|].
  assert (NONCE_SIZE <= length clear)%nat as Hn by (unfold NONCE_SIZE; lia).
  pose proof (tag_length key (ctr_crypt key clear)) as Ht. split.
  - unfold additional_data_packet, ADDITIONAL_DATA_SHA_SIZE.
    rewrite length_app, Ht, ctr_crypt_length by done. lia.
  - eapply wp_effects; [apply DecodeAdditionalData_effects; auto|].
    + by apply ctr_crypt_ok.
    + rewrite ctr_crypt_length by done. lia.
    + intros r' s2 Q2 ->. cbn [fst snd]. split; [done|]. split; [|by etransitivity].
      rewrite ctr_crypt_involutive by done.
      rewrite drop_app_ge, Ht by lia. exact Hdr.
Qed.

(** A packet whose checksum does not match is refused with
    [kNearbyStatusError] and is not decrypted. *)
Theorem DecodeAdditionalData_rejects data key s :
  bytes_ok data -> (16 < length data)%nat ->
  length key = ACCOUNT_KEY_SIZE_BYTES -> bytes_ok key ->
  take 8 (hmac key (drop 8 data)) <> take 8 data ->
  wp (nearby_fp_DecodeAdditionalData data key)
    (fun r s' => r = (kNearbyStatusError, data) /\ quiet is_se s s') s.
Proof.
  intros Hb Hl Hk Hkb Hne. eapply wp_effects with (R := fun r => r = _); [|by intros ? ? ? ->].
  unfold nearby_fp_DecodeAdditionalData.
  unfold ADDITIONAL_DATA_SHA_SIZE, NONCE_SIZE in *.
  rewrite (proj2 (Nat.ltb_lt (8 + 8) (length data))) by lia.
  eff_lift ltac:(reflexivity).
  eapply effects_bind; [by apply effects_uninit with (R := fun l => length l = 32%nat)|].
  intros sha Hsha. rewrite <- Hk.
  eff_bind nearby_fp_HmacSha256_effects; [by rewrite Hk; apply Nat.leb_le|done|].
  change (status_ok kNearbyStatusOK) with true. cbn [negb].
  rewrite (proj2 (bytes_eqb_neq _ _)) by done. by apply effects_ret.
Qed.

(** The code of a message of [len] bytes under the key and nonce of a session. *)
Definition valid_mac (key session_nonce message : list Z) (len : nat) : bool :=
  bool_decide (take 8 (hmac key (session_nonce ++ take 8 (drop (len - 16) message)
                                 ++ take (len - 16) message))
               = take 8 (drop (len - 8) message)).

Lemma VerifyMac_effects message len key session_nonce :
  (16 <= len <= length message)%nat -> Z.of_nat (length message) < 2 ^ 64 ->
  length key = ACCOUNT_KEY_SIZE_BYTES -> bytes_ok key ->
  effects is_se
    (nearby_fp_VerifyMessageAuthenticationCode (S:=S) message (Z.of_nat len) key session_nonce)
    (fun r => r = if valid_mac key session_nonce message len
                  then kNearbyStatusOK else kNearbyStatusInvalidInput).
Proof.
  intros Hl H64 Hk Hkb. set (data := take (len - 16) message).
  set (message_nonce := take 8 (drop (len - 16) message)).
  set (mac := take 8 (drop (len - 8) message)).
  unfold nearby_fp_VerifyMessageAuthenticationCode.
  unfold SESSION_NONCE_SIZE, MESSAGE_AUTHENTICATION_CODE_SIZE.
  rewrite (proj2 (Z.leb_gt _ _)) by lia. rewrite u64_id by lia.
  eff_lift ltac:(apply read_bytes_z_done; lia).
  eff_lift ltac:(apply read_bytes_z_done; lia).
  replace (Z.to_nat (Z.of_nat len - Z.of_nat 8 - Z.of_nat 8)) with (len - 16)%nat by lia.
  rewrite Nat2Z.id. change (Z.to_nat 0) with 0%nat. rewrite drop_0. fold data message_nonce.
  eapply effects_bind; [by apply effects_uninit with (R := fun l => length l = 64%nat)|].
  intros hk Hhk.
  eapply effects_bind; [by apply effects_uninit with (R := fun l => length l = 32%nat)|].
  intros out Hout. rewrite <- Hk.
  assert (length key <= HMAC_SHA256_KEY_SIZE)%nat by (rewrite Hk; by apply Nat.leb_le).
  eff_lift ltac:(apply PadKey_spec; auto with fp).
  eff_bind HmacSha256WithNonce_effects. change (status_ok kNearbyStatusOK) with true. cbn [negb].
  eff_lift ltac:(apply PadKey_spec; auto with fp).
  eff_bind HmacSha256_effects. change (status_ok kNearbyStatusOK) with true. cbn [negb].
  eff_lift ltac:(apply read_bytes_z_done; lia).
  rewrite Nat2Z.id. replace (Z.to_nat _) with (len - 8)%nat by lia. fold mac.
  change (sha256 (hmac_block key OPAD ++ sha256 (hmac_block key IPAD ++ session_nonce ++ message_nonce ++ data)))
    with (hmac key (session_nonce ++ message_nonce ++ data)).
  unfold bytes_eqb, valid_mac. fold data message_nonce mac.
  destruct (bool_decide _); by apply effects_ret.
Qed.

(** On a message of at least 16 bytes,
    [nearby_fp_VerifyMessageAuthenticationCode] answers OK exactly when the last
    8 bytes are the first 8 bytes of the HMAC of session nonce, message nonce and
    data, and [kNearbyStatusInvalidInput] otherwise. *)
Theorem VerifyMessageAuthenticationCode_iff message len key session_nonce s :
  (16 <= len <= length message)%nat -> Z.of_nat (length message) < 2 ^ 64 ->
  length key = ACCOUNT_KEY_SIZE_BYTES -> bytes_ok key ->
  let data := take (len - 16) message in
  let message_nonce := take 8 (drop (len - 16) message) in
  let mac := take 8 (drop (len - 8) message) in
  wp (nearby_fp_VerifyMessageAuthenticationCode message (Z.of_nat len) key session_nonce)
    (fun r s' =>
       r = (if bool_decide (take 8 (hmac key (session_nonce ++ message_nonce ++ data)) = mac)
            then kNearbyStatusOK else kNearbyStatusInvalidInput)
       /\ quiet is_se s s') s.
Proof.
  intros Hl H64 Hk Hkb data message_nonce mac.
  eapply wp_effects; [by apply VerifyMac_effects|]. by intros r s' Hq ->.
Qed.

(** The length test of [nearby_fp_VerifyMessageAuthenticationCode] compares
    with 8 - 8 = 0: a message of 1 to 15 bytes, too short for its nonce and its
    code, passes it, and the wrapped-around data length makes the function read
    outside the message. *)
Theorem VerifyMessageAuthenticationCode_short message len key session_nonce s :
  0 < len < 16 -> Z.of_nat (length message) < 2 ^ 63 ->
  nearby_fp_VerifyMessageAuthenticationCode message len key session_nonce s = Fault.
Proof.
  intros Hl Hm. unfold nearby_fp_VerifyMessageAuthenticationCode.
  unfold SESSION_NONCE_SIZE, MESSAGE_AUTHENTICATION_CODE_SIZE.
  rewrite (proj2 (Z.leb_gt _ _)) by lia.
  assert (u64 (len - Z.of_nat 8 - Z.of_nat 8) = 2 ^ 64 + len - 16) as ->.
  { unfold u64. rewrite <- (Z_mod_plus_full _ 1). rewrite Z.mod_small; lia. }
  rewrite (read_bytes_z_fault message (2 ^ 64 + len - 16) (Z.of_nat 8)) by lia. reflexivity.
Qed.

Lemma CreateSharedSecret_spec pk output s :
  let r := fst (call (SE (GenSec256r1Secret pk)) (env s)) in
  wp (nearby_fp_CreateSharedSecret pk output) (fun x s' =>
    (if status_ok (resp_status r)
     then x = (kNearbyStatusOK, take 16 (sha256 (fit 32 (resp_bytes r))))
     else x = (resp_status r, output) /\ log s' = (SE (GenSec256r1Secret pk), r) :: log s)
    /\ quiet is_se s s') s.
Proof.
  intros r. unfold nearby_fp_CreateSharedSecret. apply wp_bind, wp_hal_map_call. fold r.
  set (s1 := Sys (st s) _ _).
  assert (quiet is_se s s1) as Q1 by (by apply quiet_call).
  destruct (status_ok (resp_status r)) eqn:E; cbn [negb]; [|by apply wp_ret].
  eapply (wp_effects is_se) with
    (R := fun x => x = (kNearbyStatusOK, take 16 (sha256 (fit 32 (resp_bytes r))))).
  - eapply effects_bind; [by apply effects_uninit with (R := fun l => length l = 32%nat)|].
    intros h Hh. eff_bind nearby_fp_Sha256_effects.
    change (status_ok kNearbyStatusOK) with true. cbn [negb].
    eff_lift ltac:(apply read_bytes_done; rewrite sha256_length; by apply Nat.leb_le).
    apply effects_ret. rewrite drop_0. reflexivity.
  - intros x s2 Q2 ->. split; [done|by etransitivity].
Qed.

(** [nearby_fp_CreateSharedSecret] returns the first 16 bytes of the hash
    of the secret the platform derives; when the platform fails, it returns the
    platform's status, hashes nothing and leaves the output alone. *)
Theorem CreateSharedSecret_key pk output s :
  let r := fst (call (SE (GenSec256r1Secret pk)) (env s)) in
  wp (nearby_fp_CreateSharedSecret pk output) (fun x s' =>
    (if status_ok (resp_status r)
     then x = (kNearbyStatusOK, take 16 (sha256 (fit 32 (resp_bytes r))))
     else x = (resp_status r, output) /\ log s' = (SE (GenSec256r1Secret pk), r) :: log s)
    /\ quiet is_se s s') s.
Proof. apply CreateSharedSecret_spec. Qed.

End CryptoTheorems.

(** * Witnesses on the test platform *)

Definition unit_sys : sys unit := test_sys tt test_world_0.
Definition key_3 : list Z := [1; 2; 3].
Definition key_16 : list Z := replicate 16 7.

Lemma replicate_byte_ok n b : 0 <= b < 256 -> bytes_ok (replicate n b).
Proof. apply bytes_ok_replicate. Qed.

Example HmacSha256_rfc2104_witness :
  wp (nearby_fp_HmacSha256 [] key_3 (length key_3) [9; 9])
    (fun r s' => r = (kNearbyStatusOK, hmac key_3 [9; 9]) /\ quiet is_se unit_sys s') unit_sys.
Proof.
  apply (HmacSha256_rfc2104 [] key_3 [9; 9] unit_sys).
  - by apply Nat.leb_le.
  - repeat constructor; lia.
Defined.

Example HmacSha256_incremental_witness :
  let ctx := HmacSha256Context (replicate 32 0) (replicate 64 0) in
  wp (hmac_incremental ctx key_3 [[1]; []; [2; 3]])
    (fun r s' => fst r = kNearbyStatusOK
       /\ ctx_hash (snd r) = hmac key_3 (concat [[1]; []; [2; 3]])
       /\ quiet is_se unit_sys s') unit_sys.
Proof.
  intros ctx. apply (HmacSha256_incremental ctx key_3 [[1]; []; [2; 3]] unit_sys).
  - reflexivity.
  - by apply Nat.leb_le.
  - repeat constructor; lia.
Defined.

Example HkdfExpand_rfc5869_witness :
  wp (nearby_fp_HkdfExpandSha256 (replicate 50 0) 42 key_3 (length key_3) [5])
    (fun r s' => r = (kNearbyStatusOK,
         take 42 (hkdf_blocks 255 [] key_3 [5] 1) ++ drop 42 (replicate 50 0))
       /\ quiet is_se unit_sys s') unit_sys.
Proof.
  apply (HkdfExpand_rfc5869 (replicate 50 0) 42 key_3 [5] unit_sys).
  - by apply Nat.leb_le.
  - repeat constructor; lia.
  - by apply Nat.leb_le.
  - by apply Nat.leb_le.
Defined.

Example AesCtr_involutive_witness :
  let message := replicate 8 1 ++ replicate 20 2 in
  wp (nearby_fp_AesCtr message key_16) (fun r s1 =>
    fst r = kNearbyStatusOK /\ take NONCE_SIZE (snd r) = take NONCE_SIZE message /\
    wp (nearby_fp_AesCtr (snd r) key_16)
      (fun r' s2 => r' = (kNearbyStatusOK, message) /\ quiet is_se unit_sys s2) s1) unit_sys.
Proof.
  intros message. apply (AesCtr_involutive message key_16 unit_sys).
  - apply bytes_ok_app; split; apply replicate_byte_ok; lia.
  - by apply Nat.leb_le.
Defined.

Example AdditionalData_roundtrip_witness :
  let data := replicate 16 0 ++ [72; 105] in
  wp (nearby_fp_EncodeAdditionalData data key_16) (fun r s1 =>
    fst r = kNearbyStatusOK /\ length (snd r) = length data /\
    wp (nearby_fp_DecodeAdditionalData (snd r) key_16) (fun r' s2 =>
      fst r' = kNearbyStatusOK /\ drop 16 (snd r') = drop 16 data
      /\ quiet is_se unit_sys s2) s1) unit_sys.
Proof.
  intros data. apply (AdditionalData_roundtrip data key_16 unit_sys).
  - apply bytes_ok_app; split; [apply replicate_byte_ok; lia|repeat constructor; lia].
  - by apply Nat.ltb_lt.
  - reflexivity.
  - apply replicate_byte_ok; lia.
Defined.

Example DecodeAdditionalData_rejects_witness :
  wp (nearby_fp_DecodeAdditionalData (replicate 20 1) key_16)
    (fun r s' => r = (kNearbyStatusError, replicate 20 1) /\ quiet is_se unit_sys s') unit_sys.
Proof.
  apply (DecodeAdditionalData_rejects (replicate 20 1) key_16 unit_sys).
  - apply replicate_byte_ok; lia.
  - by apply Nat.ltb_lt.
  - reflexivity.
  - apply replicate_byte_ok; lia.
  - vm_compute. discriminate.
Defined.

Example VerifyMessageAuthenticationCode_iff_witness :
  let message := replicate 17 3 in
  let nonce := replicate 8 4 in
  wp (nearby_fp_VerifyMessageAuthenticationCode message (Z.of_nat 17) key_16 nonce)
    (fun r s' =>
       r = (if bool_decide (take 8 (hmac key_16 (nonce
              ++ take 8 (drop (17 - 16) message) ++ take (17 - 16) message))
              = take 8 (drop (17 - 8) message))
            then kNearbyStatusOK else kNearbyStatusInvalidInput)
       /\ quiet is_se unit_sys s') unit_sys.
Proof.
  intros message nonce.
  apply (VerifyMessageAuthenticationCode_iff message 17 key_16 nonce unit_sys).
  - split; by apply Nat.leb_le.
  - reflexivity.
  - reflexivity.
  - apply replicate_byte_ok; lia.
Defined.

Example VerifyMessageAuthenticationCode_short_witness :
  nearby_fp_VerifyMessageAuthenticationCode (replicate 8 0) 8 key_16 (replicate 8 0) unit_sys
  = Fault.
Proof.
  apply (VerifyMessageAuthenticationCode_short (replicate 8 0) 8 key_16 (replicate 8 0) unit_sys).
  - lia.
  - reflexivity.
Defined.

Example CreateSharedSecret_key_witness :
  let pk := replicate 64 5 in
  let r := fst (call (SE (GenSec256r1Secret pk)) (env unit_sys)) in
  resp_status r = kNearbyStatusOK /\
  wp (nearby_fp_CreateSharedSecret pk []) (fun x s' =>
    (if status_ok (resp_status r)
     then x = (kNearbyStatusOK, take 16 (sha256 (fit 32 (resp_bytes r))))
     else x = (resp_status r, []) /\ log s' = (SE (GenSec256r1Secret pk), r) :: log unit_sys)
    /\ quiet is_se unit_sys s') unit_sys.
Proof.
  split; [vm_compute; reflexivity|]. exact (CreateSharedSecret_key (replicate 64 5) [] unit_sys).
Defined.
