(* ===== verification/AccountKeys.v ===== *)
(** The account key list of src/embedded/common/source/nearby_fp_library.c: the
    keys of the accounts the device is registered with, most recently used first,
    and its image in persistent storage.

    The C code keeps the list in the static [account_key_list]; here it is passed
    explicitly.  [abs_list] is the abstract list, [lru_add] and [move_to_front]
    what the operations promise of it. *)

From Stdlib Require Import ZArith Lia.
From stdpp Require Import base list numbers.
From S2P Require Import Prelude Utils Platform SecureElement TestPlatform.
Import Utils.

(** [key] has NEARBY_MAX_ACCOUNT_KEYS entries, [num_keys] of them in use.
    [padding] are the bytes the compiler leaves between the two fields, which the
    image in persistent storage contains. *)
Record AccountKeyList : Type := {
  num_keys : Z;
  padding : list Z;
  key : list nearby_platform_AccountKeyInfo;
}.

Section AccountKeys.
Context {C : Config}.

(** * Operations *)

(** Access to [account_key_list.key[i]]. *)
Definition load_key (keys : list nearby_platform_AccountKeyInfo) (i : nat)
  : outcome nearby_platform_AccountKeyInfo :=
  match keys !! i with Some k => Done k | None => Fault end.

Definition store_key (keys : list nearby_platform_AccountKeyInfo) (i : nat)
    (k : nearby_platform_AccountKeyInfo)
  : outcome (list nearby_platform_AccountKeyInfo) :=
  if (i <? length keys)%nat then Done (<[i := k]> keys) else Fault.

Definition nearby_fp_GetAccountKeyCount (l : AccountKeyList) : Z := num_keys l.

Definition nearby_fp_GetAccountKey (l : AccountKeyList) (key_number : Z)
  : outcome nearby_platform_AccountKeyInfo :=
  do! nearby_assert (key_number <? nearby_fp_GetAccountKeyCount l) in
  load_key (key l) (Z.to_nat key_number).

(** The loop [for (i = i; i < end_offset; i++)], [k] iterations from [i] on. *)
Fixpoint IsAccountKeyInRange_loop (k : nat) (i : Z) (l : AccountKeyList)
    (key : list Z) : outcome bool :=
  match k with
  | O => Done false
  | S k' =>
    let! info := nearby_fp_GetAccountKey l i in
    if bytes_eqb key (account_key info) then Done true
    else IsAccountKeyInRange_loop k' (i + 1) l key
  end.

Definition IsAccountKeyInRange (l : AccountKeyList) (key : list Z)
    (end_offset : Z) : outcome bool :=
  IsAccountKeyInRange_loop (Z.to_nat end_offset) 0 l key.

(** [while (offset < nearby_fp_GetAccountKeyCount())], [k] iterations left. *)
Fixpoint GetNextUniqueAccountKeyIndex_loop (k : nat) (offset : Z)
    (l : AccountKeyList) : outcome Z :=
  match k with
  | O => Done (-1)
  | S k' =>
    let! account_key_info := nearby_fp_GetAccountKey l offset in
    let! dup := IsAccountKeyInRange l (account_key account_key_info) offset in
    if (dup : bool) then GetNextUniqueAccountKeyIndex_loop k' (offset + 1) l
    else Done offset
  end.

Definition nearby_fp_GetNextUniqueAccountKeyIndex (l : AccountKeyList)
    (offset : Z) : outcome Z :=
  GetNextUniqueAccountKeyIndex_loop
    (Z.to_nat (nearby_fp_GetAccountKeyCount l - offset)) offset l.

(** [while (true)]: every iteration but the last finds a further index, so that
    the loop runs at most [num_keys + 1] times. *)
Fixpoint GetUniqueAccountKeyCount_loop (fuel : nat) (count offset : Z)
    (l : AccountKeyList) : outcome Z :=
  match fuel with
  | O => Fault
  | S fuel' =>
    let! offset := nearby_fp_GetNextUniqueAccountKeyIndex l offset in
    if offset =? -1 then Done count
    else GetUniqueAccountKeyCount_loop fuel' (count + 1) (offset + 1) l
  end.

Definition nearby_fp_GetUniqueAccountKeyCount (l : AccountKeyList) : outcome Z :=
  GetUniqueAccountKeyCount_loop (S (Z.to_nat (num_keys l))) 0 0 l.

(** [for (i = i; i > 0; i--) account_key_list.key[i] = account_key_list.key[i - 1];] *)
Fixpoint shift_keys (i : nat) (keys : list nearby_platform_AccountKeyInfo)
  : outcome (list nearby_platform_AccountKeyInfo) :=
  match i with
  | O => Done keys
  | S i' =>
    let! x := load_key keys i' in
    let! keys := store_key keys i x in
    shift_keys i' keys
  end.

Definition set_key (l : AccountKeyList)
    (keys : list nearby_platform_AccountKeyInfo) : AccountKeyList :=
  {| num_keys := num_keys l; padding := padding l; key := keys |}.

Definition nearby_fp_MarkAccountKeyAsActive (l : AccountKeyList) (key_number : Z)
  : outcome AccountKeyList :=
  do! nearby_assert (key_number <? nearby_fp_GetAccountKeyCount l) in
  if key_number =? 0 then Done l else
  let! tmp := load_key (key l) (Z.to_nat key_number) in
  let! keys := shift_keys (Z.to_nat key_number) (key l) in
  let! keys := store_key keys 0 tmp in
  Done (set_key l keys).

Definition nearby_fp_CopyAccountKey (l : AccountKeyList) (key_number : Z)
  : outcome nearby_platform_AccountKeyInfo :=
  do! nearby_assert (key_number <? nearby_fp_GetAccountKeyCount l) in
  load_key (key l) (Z.to_nat key_number).

Definition AccountKeyInfoEquals (a b : nearby_platform_AccountKeyInfo) : bool :=
  (if NEARBY_FP_ENABLE_SASS then key_peer_address a =? key_peer_address b else true)
  && bytes_eqb (account_key a) (account_key b).

(** The search loop of [nearby_fp_AddAccountKey]: the index of the key. *)
Fixpoint AddAccountKey_find (k : nat) (i : Z) (l : AccountKeyList)
    (key : nearby_platform_AccountKeyInfo) : outcome (option Z) :=
  match k with
  | O => Done None
  | S k' =>
    let! x := nearby_fp_GetAccountKey l i in
    if AccountKeyInfoEquals key x then Done (Some i)
    else AddAccountKey_find k' (i + 1) l key
  end.

Definition nearby_fp_AddAccountKey (l : AccountKeyList)
    (k : nearby_platform_AccountKeyInfo) : outcome AccountKeyList :=
  let key_count := nearby_fp_GetAccountKeyCount l in
  let! found := AddAccountKey_find (Z.to_nat key_count) 0 l k in
  match (found : option Z) with
  | Some i => nearby_fp_MarkAccountKeyAsActive l i
  | None =>
    let keys_to_copy :=
      if key_count <? Z.of_nat NEARBY_MAX_ACCOUNT_KEYS then key_count
      else Z.of_nat NEARBY_MAX_ACCOUNT_KEYS - 1 in
    let! keys := shift_keys (Z.to_nat keys_to_copy) (key l) in
    let! keys := store_key keys 0 k in
    Done {| num_keys := if key_count <? Z.of_nat NEARBY_MAX_ACCOUNT_KEYS
                        then u8 (num_keys l + 1) else num_keys l;
            padding := padding l; key := keys |}
  end.

(** ** The image of the list in memory

    [sizeof] and field offsets on a little-endian LP64 target: with SASS, each
    entry ends with a 64 bit address, which aligns the array to 8 bytes. *)
Definition ACCOUNT_KEY_INFO_SIZE : nat :=
  if NEARBY_FP_ENABLE_SASS then 24 else 16.
Definition LIST_PADDING : nat := if NEARBY_FP_ENABLE_SASS then 7 else 0.
Definition GetAccountKeyListUsedSize : nat :=
  1 + LIST_PADDING + NEARBY_MAX_ACCOUNT_KEYS * ACCOUNT_KEY_INFO_SIZE.

Definition info_image (k : nearby_platform_AccountKeyInfo) : list Z :=
  account_key k ++ (if NEARBY_FP_ENABLE_SASS then le_bytes 8 (key_peer_address k) else []).

Definition list_image (l : AccountKeyList) : list Z :=
  num_keys l :: padding l ++ concat (info_image <$> key l).

Definition le_value (l : list Z) : Z := be_value (reverse l).

Definition info_of_image (b : list Z) : nearby_platform_AccountKeyInfo :=
  {| account_key := take ACCOUNT_KEY_SIZE_BYTES b;
     key_peer_address :=
       if NEARBY_FP_ENABLE_SASS then le_value (take 8 (drop ACCOUNT_KEY_SIZE_BYTES b))
       else 0 |}.

Fixpoint infos_of_image (n : nat) (b : list Z) : list nearby_platform_AccountKeyInfo :=
  match n with
  | O => []
  | S n' => info_of_image (take ACCOUNT_KEY_INFO_SIZE b)
            :: infos_of_image n' (drop ACCOUNT_KEY_INFO_SIZE b)
  end.

Definition list_of_image (b : list Z) : AccountKeyList :=
  {| num_keys := hd 0 b;
     padding := take LIST_PADDING (drop 1 b);
     key := infos_of_image NEARBY_MAX_ACCOUNT_KEYS (drop (1 + LIST_PADDING) b) |}.

Section Storage.
Context {P : Platform} {S : Type}.

(** [memset] and [nearby_platform_LoadValue] into the static list. *)
Definition nearby_fp_LoadAccountKeys
  : M S (nearby_platform_status * AccountKeyList) :=
  let size := GetAccountKeyListUsedSize in
  let! ' (status, b) := nearby_platform_LoadValue kStoredKeyAccountKeyList size in
  mret (status, list_of_image (b ++ replicate (size - length b) 0)).

Definition nearby_fp_SaveAccountKeys (l : AccountKeyList)
  : M S nearby_platform_status :=
  nearby_platform_SaveValue kStoredKeyAccountKeyList (list_image l).

End Storage.

(** * Specification *)

(** What of an entry takes part in comparisons. *)
Definition abs_key (k : nearby_platform_AccountKeyInfo) : list Z * Z :=
  (account_key k, if NEARBY_FP_ENABLE_SASS then key_peer_address k else 0).

Definition keys_in_use (l : AccountKeyList) : list nearby_platform_AccountKeyInfo :=
  take (Z.to_nat (num_keys l)) (key l).

Definition abs_list (l : AccountKeyList) : list (list Z * Z) := abs_key <$> keys_in_use l.

(** A bounded list, most recently used first. *)
Definition lru_add (k : list Z * Z) (ks : list (list Z * Z)) : list (list Z * Z) :=
  take NEARBY_MAX_ACCOUNT_KEYS (k :: filter (fun x => x <> k) ks).

Definition move_to_front {A} (i : nat) (ks : list A) : list A :=
  match ks !! i with Some k => k :: delete i ks | None => ks end.

Definition key_ok (k : nearby_platform_AccountKeyInfo) : Prop :=
  length (account_key k) = ACCOUNT_KEY_SIZE_BYTES /\ bytes_ok (account_key k)
  /\ 0 <= key_peer_address k < 2 ^ 64.

(** The representation invariant. *)
Record list_ok (l : AccountKeyList) : Prop := {
  ok_count : 0 <= num_keys l <= Z.of_nat NEARBY_MAX_ACCOUNT_KEYS;
  ok_length : length (key l) = NEARBY_MAX_ACCOUNT_KEYS;
  ok_padding : length (padding l) = LIST_PADDING /\ bytes_ok (padding l);
  ok_keys : Forall key_ok (key l);
}.

(** No key is stored twice. *)
Definition list_nodup (l : AccountKeyList) : Prop := NoDup (abs_list l).

(** [ks !! i] is the first occurrence of its value. *)
Definition first_at (ks : list (list Z)) (i : nat) : Prop :=
  match ks !! i with Some k => k ∉ take i ks | None => False end.

#[global] Instance first_at_dec ks i : Decision (first_at ks i).
Proof. unfold first_at. destruct (ks !! i); apply _. Defined.

End AccountKeys.

(** * Lists *)

Lemma delete_filter {A} `{EqDecision A} (ks : list A) (j : nat) (k : A) :
  NoDup ks -> ks !! j = Some k -> delete j ks = filter (fun x => x <> k) ks.
Proof.
  intros Hn. revert j. induction Hn as [|x ks Hx Hn IH]; intros [|j] Hj; try done.
  - injection Hj as ->. cbn [delete list_delete]. rewrite filter_cons, decide_False by auto.
    clear IH Hn. induction ks as [|y ks IH]; [done|].
    apply not_elem_of_cons in Hx as [? ?].
    rewrite filter_cons, decide_True by auto. f_equal. auto.
  - change (delete (S j) (x :: ks)) with (x :: delete j ks).
    rewrite filter_cons_True; [f_equal; by apply IH|].
    intros ->. apply Hx. by eapply list_elem_of_lookup_2.
Qed.

Lemma filter_none {A} `{EqDecision A} (ks : list A) (k : A) :
  k ∉ ks -> filter (fun x => x <> k) ks = ks.
Proof.
  induction ks as [|x ks IH]; intros Hk; [done|].
  apply not_elem_of_cons in Hk as [? ?]. rewrite filter_cons, decide_True by auto.
  f_equal. auto.
Qed.

Lemma remove_dups_snoc {A} `{EqDecision A} (l : list A) (k : A) :
  length (remove_dups (l ++ [k])) =
  (length (remove_dups l) + if decide (k ∈ l) then 0 else 1)%nat.
Proof.
  assert (remove_dups (l ++ [k]) ≡ₚ
    if decide (k ∈ l) then remove_dups l else k :: remove_dups l) as ->.
  { apply NoDup_Permutation; [apply NoDup_remove_dups| |].
    - destruct (decide (k ∈ l)); [apply NoDup_remove_dups|].
      constructor; [by rewrite elem_of_remove_dups|apply NoDup_remove_dups].
    - intros x. rewrite elem_of_remove_dups, elem_of_app, list_elem_of_singleton.
      destruct (decide (k ∈ l)) as [Hk|Hk]; rewrite ?elem_of_cons, elem_of_remove_dups;
        split; [intros [?| ->]| |intros [?|?]|intros [?|?]]; auto. }
  destruct (decide (k ∈ l)); simpl; lia.
Qed.

(** As many first occurrences as distinct values. *)
Lemma count_first (ks : list (list Z)) :
  length (filter (first_at ks) (seq 0 (length ks))) = length (remove_dups ks).
Proof.
  induction ks as [|k ks IH] using rev_ind; [done|].
  rewrite length_app, seq_app, list.filter_app, length_app, remove_dups_snoc, <- IH. f_equal.
  - f_equal. apply filter_ext_in. intros i Hi%elem_of_seq. unfold first_at.
    by rewrite lookup_app_l, take_app_le by lia.
  - cbn [seq Nat.add length]. rewrite list.filter_cons.
    assert (first_at (ks ++ [k]) (length ks) <-> k ∉ ks) as Hk.
    { unfold first_at. by rewrite (list_lookup_middle ks [] k _ eq_refl), take_app_length. }
    destruct (decide (k ∈ ks)), (decide _) as [H|H]; cbn; tauto.
Qed.

(** * Lemmas on the operations *)
Section Operations.
Context {C : Config}.

Lemma AccountKeyInfoEquals_abs a b :
  AccountKeyInfoEquals a b = bool_decide (abs_key a = abs_key b).
Proof.
  unfold AccountKeyInfoEquals, abs_key, bytes_eqb. destruct NEARBY_FP_ENABLE_SASS.
  - destruct (Z.eqb_spec (key_peer_address a) (key_peer_address b)) as [E|E]; cbn.
    + apply bool_decide_ext. rewrite E. split; [by intros ->|by intros [= ->]].
    + symmetry. apply bool_decide_eq_false. by intros [= _ ?].
  - apply bool_decide_ext. split; [by intros ->|by intros [= ->]].
Qed.

Lemma in_use_length l :
  list_ok l -> length (keys_in_use l) = Z.to_nat (num_keys l).
Proof.
  intros [Hc Hl _ _]. unfold keys_in_use. rewrite length_take, Hl.
  unfold NEARBY_MAX_ACCOUNT_KEYS in *. lia.
Qed.

Lemma GetAccountKey_done l i :
  list_ok l -> 0 <= i < num_keys l ->
  exists k, nearby_fp_GetAccountKey l i = Done k
    /\ keys_in_use l !! Z.to_nat i = Some k /\ key_ok k.
Proof.
  intros Hok Hi. pose proof (in_use_length l Hok) as Hn.
  destruct (lookup_lt_is_Some_2 (keys_in_use l) (Z.to_nat i)) as [k Hk]; [lia|].
  assert (key l !! Z.to_nat i = Some k) as Hkey.
  { unfold keys_in_use in Hk. by apply lookup_take_Some in Hk as [? _]. }
  exists k. unfold nearby_fp_GetAccountKey, nearby_fp_GetAccountKeyCount.
  rewrite (proj2 (Z.ltb_lt _ _)) by lia. cbn [nearby_assert].
  unfold load_key. rewrite done_bind, Hkey. split; [done|]. split; [done|].
  eapply Forall_lookup_1; [apply Hok|exact Hkey].
Qed.

Lemma in_use_abs l i k :
  keys_in_use l !! i = Some k -> abs_list l !! i = Some (abs_key k).
Proof. intros H. unfold abs_list. by rewrite list_lookup_fmap, H. Qed.

Lemma shift_keys_spec i keys :
  (i < length keys)%nat ->
  shift_keys i keys = Done (take 1 keys ++ take i keys ++ drop (S i) keys).
Proof.
  revert keys. induction i as [|i IH]; intros keys Hi; cbn [shift_keys].
  { rewrite take_0. cbn [app]. by rewrite take_drop. }
  destruct (lookup_lt_is_Some_2 keys i) as [x Hx]; [lia|].
  unfold load_key, store_key. rewrite Hx, done_bind, (proj2 (Nat.ltb_lt _ _)), done_bind by lia.
  rewrite IH by (rewrite length_insert; lia). f_equal.
  rewrite !take_insert_ge by lia. f_equal.
  rewrite (take_S_r _ _ x) by done. rewrite <- app_assoc. f_equal.
  rewrite (drop_S _ x) by (apply list_lookup_insert_eq; lia).
  by rewrite drop_insert_lt by lia.
Qed.

(** Shifting and storing at the front: entry [i] is overwritten. *)
Lemma shift_store i keys k :
  (i < length keys)%nat ->
  mbind (fun keys => store_key keys 0 k) (shift_keys i keys)
  = Done (k :: take i keys ++ drop (S i) keys).
Proof.
  intros Hi. rewrite shift_keys_spec, done_bind by done.
  destruct keys as [|x keys]; [cbn in Hi; lia|]. reflexivity.
Qed.

Lemma MarkAccountKeyAsActive_done l i k :
  list_ok l -> 0 <= i < num_keys l -> keys_in_use l !! Z.to_nat i = Some k ->
  nearby_fp_MarkAccountKeyAsActive l i
  = Done (set_key l (k :: delete (Z.to_nat i) (key l))).
Proof.
  intros Hok Hi Hk. pose proof (ok_length l Hok) as Hl. pose proof (ok_count l Hok) as Hc.
  assert (key l !! Z.to_nat i = Some k) as Hkey.
  { unfold keys_in_use in Hk. by apply lookup_take_Some in Hk as [? _]. }
  unfold nearby_fp_MarkAccountKeyAsActive, nearby_fp_GetAccountKeyCount.
  rewrite (proj2 (Z.ltb_lt _ _)) by lia. cbn [nearby_assert]. rewrite done_bind.
  destruct (Z.eqb_spec i 0) as [->|Hne].
  - destruct l as [n p [|x ks]]; [done|]. cbn in Hkey. injection Hkey as ->. reflexivity.
  - unfold load_key. rewrite Hkey, done_bind, <- outcome_bind_assoc, shift_store, done_bind by lia.
    by rewrite delete_take_drop.
Qed.

(** Moving entry [i] of the part in use. *)
Lemma move_in_use l i k :
  list_ok l -> 0 <= i < num_keys l -> keys_in_use l !! Z.to_nat i = Some k ->
  keys_in_use (set_key l (k :: delete (Z.to_nat i) (key l)))
  = k :: delete (Z.to_nat i) (keys_in_use l).
Proof.
  intros Hok Hi Hk. unfold keys_in_use. cbn [key num_keys set_key].
  destruct (Z.to_nat (num_keys l)) as [|n] eqn:En; [lia|]. cbn [take]. f_equal.
  rewrite !delete_take_drop, take_app, length_take, take_take.
  pose proof (ok_length l Hok) as Hl. unfold NEARBY_MAX_ACCOUNT_KEYS in Hl.
  pose proof (ok_count l Hok) as Hc. unfold NEARBY_MAX_ACCOUNT_KEYS in Hc.
  replace (n `min` Z.to_nat i)%nat with (Z.to_nat i) by lia.
  f_equal; [rewrite take_take; f_equal; lia|].
  rewrite skipn_firstn_comm. f_equal. lia.
Qed.

Lemma list_ok_move l i k :
  list_ok l -> 0 <= i < num_keys l -> keys_in_use l !! Z.to_nat i = Some k ->
  list_ok (set_key l (k :: delete (Z.to_nat i) (key l))).
Proof.
  intros Hok Hi Hk. pose proof (in_use_length l Hok) as Hn.
  assert (key l !! Z.to_nat i = Some k) as Hkey.
  { unfold keys_in_use in Hk. by apply lookup_take_Some in Hk as [? _]. }
  destruct Hok as [Hc Hl Hp Hk']. split; cbn [num_keys padding key set_key]; try done.
  - cbn [length]. rewrite length_delete by (by eexists). unfold NEARBY_MAX_ACCOUNT_KEYS in *. lia.
  - constructor; [by eapply Forall_lookup_1|by apply Forall_delete].
Qed.

(** ** Unique keys *)

Definition key_bytes (l : AccountKeyList) : list (list Z) := account_key <$> keys_in_use l.

Lemma key_bytes_length l : list_ok l -> length (key_bytes l) = Z.to_nat (num_keys l).
Proof. intros. unfold key_bytes. rewrite length_fmap. by apply in_use_length. Qed.

Lemma GetAccountKey_bytes l i k :
  keys_in_use l !! i = Some k -> key_bytes l !! i = Some (account_key k).
Proof. intros H. unfold key_bytes. by rewrite list_lookup_fmap, H. Qed.

Lemma IsAccountKeyInRange_spec l k n :
  list_ok l -> 0 <= n <= num_keys l ->
  IsAccountKeyInRange l k n
  = Done (bool_decide (k ∈ take (Z.to_nat n) (key_bytes l))).
Proof.
  intros Hok Hn. unfold IsAccountKeyInRange.
  enough (forall m i, i + Z.of_nat m <= num_keys l -> 0 <= i ->
    IsAccountKeyInRange_loop m i l k
    = Done (bool_decide (k ∈ take m (drop (Z.to_nat i) (key_bytes l))))) as ->.
  { done. } { lia. } { lia. }
  intros m. induction m as [|m IH]; intros i Hm Hi; cbn [IsAccountKeyInRange_loop].
  { rewrite take_0. by rewrite bool_decide_eq_false_2 by apply not_elem_of_nil. }
  destruct (GetAccountKey_done l i Hok) as (x & Hx & Hu & _); [lia|].
  rewrite Hx, done_bind. apply GetAccountKey_bytes in Hu.
  rewrite (drop_S _ _ _ Hu). cbn [take]. unfold bytes_eqb.
  destruct (bool_decide_reflect (k = account_key x)) as [->|Hne].
  - by rewrite bool_decide_eq_true_2 by apply list_elem_of_here.
  - rewrite IH by lia. f_equal. apply bool_decide_ext.
    rewrite elem_of_cons. replace (Z.to_nat (i + 1)) with (S (Z.to_nat i)) by lia. tauto.
Qed.

(** The first index not below [offset] that holds a first occurrence. *)
Lemma GetNextUnique_spec l offset :
  list_ok l -> 0 <= offset <= num_keys l ->
  exists r, nearby_fp_GetNextUniqueAccountKeyIndex l offset = Done r /\
    filter (first_at (key_bytes l)) (seq (Z.to_nat offset) (Z.to_nat (num_keys l - offset)))
    = (if r =? -1 then [] else
       Z.to_nat r :: filter (first_at (key_bytes l))
         (seq (S (Z.to_nat r)) (Z.to_nat (num_keys l - r - 1)))) /\
    (r = -1 \/ offset <= r < num_keys l).
Proof.
  intros Hok Ho. unfold nearby_fp_GetNextUniqueAccountKeyIndex, nearby_fp_GetAccountKeyCount.
  remember (Z.to_nat (num_keys l - offset)) as m eqn:Em. revert offset Ho Em.
  induction m as [|m IH]; intros offset Ho Em; cbn [GetNextUniqueAccountKeyIndex_loop].
  { exists (-1). by auto. }
  destruct (GetAccountKey_done l offset Hok) as (x & Hx & Hu & _); [lia|].
  rewrite Hx, done_bind, IsAccountKeyInRange_spec, done_bind by (done || lia).
  apply GetAccountKey_bytes in Hu. cbn [seq]. rewrite list.filter_cons.
  assert (first_at (key_bytes l) (Z.to_nat offset)
          <-> account_key x ∉ take (Z.to_nat offset) (key_bytes l)) as Hf.
  { unfold first_at. by rewrite Hu. }
  case_bool_decide as Hin.
  - rewrite decide_False by tauto.
    destruct (IH (offset + 1)) as (r & Hr & Hs & Hb); [lia|lia|].
    exists r. rewrite <- Hs. replace (Z.to_nat (offset + 1)) with (S (Z.to_nat offset)) by lia.
    split; [done|]. split; [done|]. lia.
  - rewrite decide_True by tauto. exists offset. rewrite (proj2 (Z.eqb_neq _ _)) by lia.
    split; [done|]. split; [|lia]. do 3 f_equal. lia.
Qed.

Lemma GetUnique_loop_spec l fuel count offset :
  list_ok l -> 0 <= offset <= num_keys l ->
  (Z.to_nat (num_keys l - offset) < fuel)%nat ->
  GetUniqueAccountKeyCount_loop fuel count offset l
  = Done (count + Z.of_nat (length (filter (first_at (key_bytes l))
       (seq (Z.to_nat offset) (Z.to_nat (num_keys l - offset)))))).
Proof.
  intros Hok. revert count offset. induction fuel as [|fuel IH]; intros count offset Ho Hf; [lia|].
  cbn [GetUniqueAccountKeyCount_loop].
  destruct (GetNextUnique_spec l offset Hok Ho) as (r & -> & Hs & Hb).
  rewrite done_bind, Hs. clear Hs. destruct (Z.eqb_spec r (-1)) as [E|Hr].
  - cbn. f_equal. lia.
  - rewrite IH by lia. cbn [length]. replace (Z.to_nat (r + 1)) with (S (Z.to_nat r)) by lia.
    replace (num_keys l - (r + 1)) with (num_keys l - r - 1) by lia. f_equal. lia.
Qed.

Lemma GetUnique_spec l :
  list_ok l ->
  nearby_fp_GetUniqueAccountKeyCount l = Done (Z.of_nat (length (remove_dups (key_bytes l)))).
Proof.
  intros Hok. unfold nearby_fp_GetUniqueAccountKeyCount. pose proof (ok_count l Hok).
  rewrite GetUnique_loop_spec by (done || lia). f_equal.
  rewrite Z.sub_0_r, <- (key_bytes_length l) by done. by rewrite count_first.
Qed.

Lemma remove_dups_le {A} `{EqDecision A} (l : list A) : (length (remove_dups l) <= length l)%nat.
Proof. induction l as [|x l IH]; cbn; [done|]. destruct (decide_rel _ _ _); cbn; lia. Qed.

Lemma unique_count_le l :
  list_ok l -> (length (remove_dups (key_bytes l)) <= NEARBY_MAX_ACCOUNT_KEYS)%nat.
Proof.
  intros Hok. pose proof (remove_dups_le (key_bytes l)) as H.
  rewrite key_bytes_length in H by done. pose proof (ok_count l Hok). lia.
Qed.

(** ** Adding a key *)

Lemma AddAccountKey_find_spec l k n i :
  list_ok l -> 0 <= i -> i + Z.of_nat n <= num_keys l ->
  (AddAccountKey_find n i l k = Done None
   /\ abs_key k ∉ take n (drop (Z.to_nat i) (abs_list l))) \/
  (exists j x, AddAccountKey_find n i l k = Done (Some j) /\ i <= j < num_keys l
   /\ keys_in_use l !! Z.to_nat j = Some x /\ abs_key x = abs_key k).
Proof.
  intros Hok. revert i. induction n as [|n IH]; intros i Hi Hn; cbn [AddAccountKey_find].
  { left. split; [done|]. rewrite take_0. apply not_elem_of_nil. }
  destruct (GetAccountKey_done l i Hok) as (x & Hx & Hu & _); [lia|].
  rewrite Hx, done_bind, AccountKeyInfoEquals_abs.
  case_bool_decide as E.
  - right. exists i, x. split; [done|]. split; [lia|]. by split.
  - destruct (IH (i + 1)) as [[H1 H2]|(j & y & H1 & H2 & H3)]; [lia|lia| |].
    + left. split; [done|]. rewrite (drop_S _ _ _ (in_use_abs _ _ _ Hu)).
      replace (Z.to_nat (i + 1)) with (S (Z.to_nat i)) in H2 by lia. cbn [take].
      by apply not_elem_of_cons.
    + right. exists j, y. split; [done|]. split; [lia|done].
Qed.

(** The list after inserting a key that is not in it. *)
Definition insert_front (l : AccountKeyList) (k : nearby_platform_AccountKeyInfo)
  : AccountKeyList :=
  let n := Z.to_nat (num_keys l `min` 4) in
  {| num_keys := (num_keys l + 1) `min` 5; padding := padding l;
     key := k :: take n (key l) ++ drop (S n) (key l) |}.

Lemma AddAccountKey_cases l k :
  list_ok l ->
  (exists j x, nearby_fp_AddAccountKey l k = nearby_fp_MarkAccountKeyAsActive l j
   /\ 0 <= j < num_keys l /\ keys_in_use l !! Z.to_nat j = Some x /\ abs_key x = abs_key k) \/
  (nearby_fp_AddAccountKey l k = Done (insert_front l k) /\ abs_key k ∉ abs_list l).
Proof.
  intros Hok. unfold nearby_fp_AddAccountKey, nearby_fp_GetAccountKeyCount.
  pose proof (ok_count l Hok) as Hc. pose proof (ok_length l Hok) as Hl.
  unfold NEARBY_MAX_ACCOUNT_KEYS in *.
  destruct (AddAccountKey_find_spec l k (Z.to_nat (num_keys l)) 0 Hok)
    as [[-> Hnot]|(j & x & -> & Hj)]; [lia|lia| |].
  2:{ left. exists j, x. by rewrite done_bind. }
  right. rewrite done_bind. rewrite drop_0, take_ge in Hnot
    by (unfold abs_list; rewrite length_fmap, in_use_length by done; lia).
  split; [|done]. unfold insert_front. change (Z.of_nat 5) with 5.
  rewrite <- outcome_bind_assoc.
  destruct (Z.ltb_spec (num_keys l) 5).
  - rewrite shift_store by lia. rewrite done_bind. unfold u8. rewrite Z.mod_small by lia.
    replace (num_keys l `min` 4) with (num_keys l) by lia.
    by replace ((num_keys l + 1) `min` 5) with (num_keys l + 1) by lia.
  - rewrite shift_store by lia. rewrite done_bind.
    replace (num_keys l `min` 4) with (5 - 1) by lia.
    by replace ((num_keys l + 1) `min` 5) with (num_keys l) by lia.
Qed.

Lemma insert_front_in_use l k :
  list_ok l -> keys_in_use (insert_front l k) = k :: take 4 (keys_in_use l).
Proof.
  intros Hok. pose proof (ok_count l Hok) as Hc. pose proof (ok_length l Hok) as Hl.
  unfold NEARBY_MAX_ACCOUNT_KEYS in *. unfold keys_in_use, insert_front. cbn [num_keys key].
  replace (Z.to_nat ((num_keys l + 1) `min` 5)) with (S (Z.to_nat (num_keys l `min` 4))) by lia.
  cbn [take]. f_equal. rewrite take_app_length' by (rewrite length_take; lia).
  rewrite take_take. f_equal. lia.
Qed.

Lemma insert_front_ok l k : list_ok l -> key_ok k -> list_ok (insert_front l k).
Proof.
  intros [Hc Hl Hp Hk] Hkk. unfold NEARBY_MAX_ACCOUNT_KEYS in *. split; cbn [insert_front num_keys padding key].
  - unfold NEARBY_MAX_ACCOUNT_KEYS. lia.
  - cbn [length]. rewrite length_app, length_take, length_drop. unfold NEARBY_MAX_ACCOUNT_KEYS. lia.
  - done.
  - constructor; [done|]. apply Forall_app; split; [by apply Forall_take|by apply Forall_drop].
Qed.

Lemma lru_add_nodup k ks : NoDup ks -> NoDup (lru_add k ks).
Proof.
  intros Hn. unfold lru_add. eapply sublist_NoDup; [|apply sublist_take].
  constructor; [|by apply list.NoDup_filter]. rewrite list_elem_of_filter. tauto.
Qed.

(** Insertion keeps the invariants and refines [lru_add]. *)
Lemma AddAccountKey_lru l k :
  list_ok l -> list_nodup l -> key_ok k ->
  exists l', nearby_fp_AddAccountKey l k = Done l'
    /\ abs_list l' = lru_add (abs_key k) (abs_list l)
    /\ list_ok l' /\ list_nodup l'.
Proof.
  intros Hok Hnd Hk.
  assert (forall l', abs_list l' = lru_add (abs_key k) (abs_list l) -> list_nodup l') as Hnd'.
  { unfold list_nodup. intros l' ->. by apply lru_add_nodup. }
  pose proof (in_use_length l Hok) as Hlen. pose proof (ok_count l Hok) as Hc.
  unfold NEARBY_MAX_ACCOUNT_KEYS in Hc.
  assert (length (abs_list l) = Z.to_nat (num_keys l)) as Hla
    by (unfold abs_list; by rewrite length_fmap).
  destruct (AddAccountKey_cases l k Hok) as [(j & x & -> & Hj & Hx & E)|[-> Hnot]].
  - rewrite (MarkAccountKeyAsActive_done l j x) by done. eexists. split; [done|].
    assert (abs_list (set_key l (x :: delete (Z.to_nat j) (key l)))
            = lru_add (abs_key k) (abs_list l)) as Ha.
    { unfold abs_list at 1. rewrite move_in_use by done. cbn [fmap list_fmap].
      unfold lru_add. rewrite <- (delete_filter _ (Z.to_nat j)); [|done|by rewrite <- E; apply in_use_abs].
      rewrite list_fmap_delete, E. symmetry. apply take_ge. cbn [length].
      rewrite length_delete by (rewrite list_lookup_fmap, Hx; by eexists).
      unfold NEARBY_MAX_ACCOUNT_KEYS. unfold abs_list in Hla. lia. }
    split; [done|]. split; [by apply list_ok_move|by apply Hnd'].
  - eexists. split; [done|].
    assert (abs_list (insert_front l k) = lru_add (abs_key k) (abs_list l)) as Ha.
    { unfold abs_list at 1. rewrite insert_front_in_use by done. cbn [fmap list_fmap].
      unfold lru_add. rewrite filter_none by done. cbn [take NEARBY_MAX_ACCOUNT_KEYS].
      f_equal. by rewrite fmap_take. }
    split; [done|]. split; [by apply insert_front_ok|by apply Hnd'].
Qed.

(** Moving a key to the front keeps the invariants. *)
Lemma MarkAccountKeyAsActive_ok l i :
  list_ok l -> list_nodup l -> 0 <= i < num_keys l ->
  exists l', nearby_fp_MarkAccountKeyAsActive l i = Done l' /\ list_ok l' /\ list_nodup l'
    /\ key_bytes l' ≡ₚ key_bytes l.
Proof.
  intros Hok Hnd Hi. destruct (GetAccountKey_done l i Hok) as (x & _ & Hx & _); [lia|].
  rewrite (MarkAccountKeyAsActive_done l i x) by done. eexists. split; [done|].
  split; [by apply list_ok_move|]. unfold list_nodup, abs_list, key_bytes in *.
  rewrite move_in_use by done. split.
  - eapply NoDup_Permutation_proper; [|exact Hnd].
    apply fmap_Permutation. symmetry. by apply delete_Permutation.
  - apply fmap_Permutation. symmetry. by apply delete_Permutation.
Qed.

(** The keys of the list after an insertion. *)
Lemma lru_add_keys (Q : list Z -> Prop) l l' k :
  abs_list l' = lru_add (abs_key k) (abs_list l) ->
  Forall Q (key_bytes l) -> Q (account_key k) -> Forall Q (key_bytes l').
Proof.
  assert (forall m, key_bytes m = fst <$> abs_list m) as E
    by (intros m; unfold key_bytes, abs_list; by rewrite <- list_fmap_compose).
  rewrite !E. intros -> Hl Hk. unfold lru_add. rewrite fmap_take. apply Forall_take.
  cbn [fmap list_fmap]. constructor; [done|].
  rewrite Forall_fmap in Hl |- *. rewrite list.Forall_forall in Hl |- *.
  intros x [_ Hx]%list_elem_of_filter. by apply Hl.
Qed.

(** ** The image *)

Lemma le_value_le_bytes n x : le_value (le_bytes n x) = x mod 256 ^ Z.of_nat n.
Proof. apply be_value_be_bytes. Qed.

Lemma info_image_length k : key_ok k -> length (info_image k) = ACCOUNT_KEY_INFO_SIZE.
Proof.
  intros (Hl & _). unfold info_image, ACCOUNT_KEY_INFO_SIZE. rewrite length_app, Hl.
  by destruct NEARBY_FP_ENABLE_SASS.
Qed.

Lemma info_image_ok k : key_ok k -> bytes_ok (info_image k).
Proof.
  intros (_ & Hb & _). apply bytes_ok_app. split; [done|].
  destruct NEARBY_FP_ENABLE_SASS; [apply le_bytes_ok|constructor].
Qed.

(** Without SASS the field [peer_address] does not exist; equality of entries up
    to it. *)
Definition info_visible (k : nearby_platform_AccountKeyInfo)
  : nearby_platform_AccountKeyInfo :=
  AccountKeyInfo (account_key k) (if NEARBY_FP_ENABLE_SASS then key_peer_address k else 0).
Definition list_visible (l : AccountKeyList) : AccountKeyList :=
  set_key l (info_visible <$> key l).

Lemma info_of_image_image k : key_ok k -> info_of_image (info_image k) = info_visible k.
Proof.
  intros (Hl & Hb & Hp). unfold info_of_image, info_image, info_visible.
  rewrite take_app_length' by done. f_equal.
  destruct NEARBY_FP_ENABLE_SASS; [|done].
  rewrite drop_app_length' by done. rewrite take_ge by (rewrite le_bytes_length; lia).
  rewrite le_value_le_bytes. by apply Z.mod_small.
Qed.

Lemma infos_of_image_image ks rest :
  Forall key_ok ks ->
  infos_of_image (length ks) (concat (info_image <$> ks) ++ rest) = info_visible <$> ks.
Proof.
  induction 1 as [|k ks Hk Hks IH]; [done|]. cbn [length infos_of_image fmap list_fmap concat].
  pose proof (info_image_length k Hk) as Hl. rewrite <- app_assoc.
  rewrite take_app_length', drop_app_length' by done.
  by rewrite info_of_image_image, IH.
Qed.

Lemma concat_image_length ks :
  Forall key_ok ks ->
  length (concat (info_image <$> ks)) = (length ks * ACCOUNT_KEY_INFO_SIZE)%nat.
Proof.
  induction 1 as [|k ks Hk Hks IH]; [done|]. cbn [length fmap list_fmap concat].
  rewrite length_app, info_image_length, IH by done. lia.
Qed.

Lemma list_image_length l : list_ok l -> length (list_image l) = GetAccountKeyListUsedSize.
Proof.
  intros [_ Hl [Hp _] Hk]. unfold list_image, GetAccountKeyListUsedSize. cbn [length].
  rewrite length_app, Hp, concat_image_length, Hl by done. lia.
Qed.

Lemma list_image_ok l : list_ok l -> bytes_ok (list_image l).
Proof.
  intros [Hc _ [_ Hp] Hk]. unfold NEARBY_MAX_ACCOUNT_KEYS in Hc. unfold list_image.
  constructor; [unfold is_byte; lia|]. apply bytes_ok_app. split; [done|].
  clear -Hk. induction Hk as [|k ks Hk Hks IH]; cbn; [constructor|].
  apply bytes_ok_app. split; [by apply info_image_ok|done].
Qed.

Lemma list_of_image_image l : list_ok l -> list_of_image (list_image l) = list_visible l.
Proof.
  intros [_ Hl [Hp _] Hk]. unfold list_of_image, list_image, list_visible, set_key.
  set (infos := concat _).
  change (drop 1 (num_keys l :: padding l ++ infos)) with (padding l ++ infos).
  change (drop (1 + LIST_PADDING) (num_keys l :: padding l ++ infos))
    with (drop LIST_PADDING (padding l ++ infos)).
  rewrite take_app_length', drop_app_length' by done.
  unfold infos. rewrite <- Hl, <- (app_nil_r (concat _)), infos_of_image_image by done. done.
Qed.

End Operations.

(** * The storage interface

    Documented behaviour of nearby_platform_persistence.h: a load gives back the
    bytes of the last successful save of the same key. *)
Class StorageSpec (P : Platform) : Type := {
  stored : nearby_fp_StoredKey -> world -> list Z;
  save_stored : forall k v w,
    resp_status (fst (call (PERSISTENCE (SaveValue k v)) w)) = kNearbyStatusOK ->
    stored k (snd (call (PERSISTENCE (SaveValue k v)) w)) = v;
  load_stored : forall k n w,
    (length (stored k w) <= n)%nat ->
    resp_status (fst (call (PERSISTENCE (LoadValue k n)) w)) = kNearbyStatusOK /\
    resp_bytes (fst (call (PERSISTENCE (LoadValue k n)) w)) = stored k w;
}.

#[export, program] Instance test_storage : StorageSpec test_platform := {|
  stored := fun k => match k with
    | kStoredKeyAccountKeyList => tw_stored_keys
    | kStoredKeyPersonalizedName => tw_stored_name
    end;
|}.
Next Obligation. by intros []. Qed.
Next Obligation. by intros []. Qed.

(** * Theorems *)
Section AccountKeyTheorems.
Context {C : Config}.

(** C22. [nearby_fp_AddAccountKey] refines insertion in a bounded
    most-recently-used list: the key is in front, the other keys follow in their
    order without a second copy of it, and the sixth key falls off the end.  The
    call never fails an assertion or leaves the array, and it preserves the
    representation invariant and the absence of duplicates. *)
Theorem AddAccountKey_refines_lru l k :
  list_ok l -> list_nodup l -> key_ok k ->
  exists l', nearby_fp_AddAccountKey l k = Done l'
    /\ abs_list l' = lru_add (abs_key k) (abs_list l)
    /\ list_ok l' /\ list_nodup l'.
Proof. apply AddAccountKey_lru. Qed.

(** [nearby_fp_MarkAccountKeyAsActive] moves the chosen key to the front and
    keeps the order of the others; an index past the last key fails the
    assertion. *)
Theorem MarkAccountKeyAsActive_moves l i :
  list_ok l -> 0 <= i ->
  if i <? num_keys l
  then exists l', nearby_fp_MarkAccountKeyAsActive l i = Done l'
    /\ keys_in_use l' = move_to_front (Z.to_nat i) (keys_in_use l) /\ list_ok l'
  else nearby_fp_MarkAccountKeyAsActive l i = Crash.
Proof.
  intros Hok Hi. destruct (Z.ltb_spec i (num_keys l)) as [Hlt|Hge].
  - destruct (GetAccountKey_done l i Hok) as (x & _ & Hx & _); [lia|].
    rewrite (MarkAccountKeyAsActive_done l i x) by (done || lia). eexists. split; [done|].
    unfold move_to_front. rewrite Hx, move_in_use by (done || lia).
    split; [done|]. apply list_ok_move; [done|lia|done].
  - unfold nearby_fp_MarkAccountKeyAsActive, nearby_fp_GetAccountKeyCount.
    by rewrite (proj2 (Z.ltb_ge _ _)) by lia.
Qed.

(** [nearby_fp_GetUniqueAccountKeyCount] terminates with the number of
    distinct keys in use, which the size of the Bloom filter depends on; it is
    between 1 and 5 unless the list is empty. *)
Theorem GetUniqueAccountKeyCount_distinct l :
  list_ok l ->
  exists n, nearby_fp_GetUniqueAccountKeyCount l = Done (Z.of_nat n)
    /\ n = length (remove_dups (account_key <$> keys_in_use l))
    /\ (n <= NEARBY_MAX_ACCOUNT_KEYS)%nat /\ (n = 0%nat <-> num_keys l = 0).
Proof.
  intros Hok. eexists. split; [by apply GetUnique_spec|]. split; [done|].
  split; [by apply unique_count_le|].
  pose proof (key_bytes_length l Hok) as Hl. pose proof (ok_count l Hok) as Hc.
  split.
  - intros H%nil_length_inv. destruct (key_bytes l) as [|k ks] eqn:E.
    + cbn in Hl. lia.
    + exfalso. apply (not_elem_of_nil k). rewrite <- H. apply elem_of_remove_dups.
      apply list_elem_of_here.
  - intros H0. rewrite H0 in Hl. by apply nil_length_inv in Hl as ->.
Qed.

Section StorageTheorems.
Context {P : Platform} {St : StorageSpec P} {S : Type}.

(** A list that [nearby_fp_SaveAccountKeys] stored successfully is the list
    [nearby_fp_LoadAccountKeys] restores, in every configuration of the
    structure's layout. *)
Theorem AccountKeys_save_load l (s : sys S) :
  list_ok l ->
  wp (nearby_fp_SaveAccountKeys l) (fun r s1 =>
    r = kNearbyStatusOK ->
    wp nearby_fp_LoadAccountKeys (fun r' _ => r' = (kNearbyStatusOK, list_visible l)) s1) s.
Proof.
  intros Hok. apply wp_hal_map_call. intros Hs.
  unfold nearby_fp_LoadAccountKeys. apply wp_bind, wp_hal_map_call. cbn [env].
  pose proof (save_stored kStoredKeyAccountKeyList (list_image l) (env s) Hs) as Hst.
  set (w := snd (call _ (env s))) in *.
  destruct (load_stored kStoredKeyAccountKeyList GetAccountKeyListUsedSize w) as [-> ->].
  { rewrite Hst. by rewrite list_image_length. }
  rewrite Hst. apply wp_ret. f_equal.
  rewrite fit_upto_id by (auto using list_image_ok; by rewrite list_image_length).
  rewrite list_image_length by done. rewrite Nat.sub_diag, app_nil_r.
  by apply list_of_image_image.
Qed.

End StorageTheorems.
End AccountKeyTheorems.

(** * Witnesses *)

Definition test_key (b : Z) : nearby_platform_AccountKeyInfo :=
  AccountKeyInfo (replicate 16 b) 0xA0.

Lemma test_key_ok b : is_byte b -> key_ok (test_key b).
Proof. intros. split; [done|]. split; [by apply bytes_ok_replicate|]. cbn. lia. Qed.

(** A full list of distinct keys, with SASS. *)
Definition test_list : AccountKeyList :=
  {| num_keys := 5; padding := replicate 7 0;
     key := [test_key 1; test_key 2; test_key 3; test_key 4; test_key 5] |}.

Lemma test_list_ok : list_ok (C:=sass_config) test_list.
Proof.
  split; [by split|done|split; [done|apply bytes_ok_replicate; unfold is_byte; lia]|].
  repeat (apply Forall_cons; [apply test_key_ok; unfold is_byte; lia|]). apply Forall_nil.
Qed.

Lemma test_list_nodup : list_nodup (C:=sass_config) test_list.
Proof. unfold list_nodup. apply (bool_decide_unpack _). vm_compute. exact I. Qed.

Example AddAccountKey_refines_lru_witness :
  exists l', nearby_fp_AddAccountKey (C:=sass_config) test_list (test_key 6) = Done l'
    /\ abs_list (C:=sass_config) l'
       = lru_add (abs_key (C:=sass_config) (test_key 6)) (abs_list (C:=sass_config) test_list)
    /\ list_ok (C:=sass_config) l' /\ list_nodup (C:=sass_config) l'.
Proof.
  apply (AddAccountKey_refines_lru (C:=sass_config) test_list (test_key 6)).
  - apply test_list_ok.
  - apply test_list_nodup.
  - apply test_key_ok. unfold is_byte. lia.
Defined.

Example MarkAccountKeyAsActive_moves_witness :
  exists l', nearby_fp_MarkAccountKeyAsActive test_list 3 = Done l'
    /\ keys_in_use l' = move_to_front 3 (keys_in_use test_list)
    /\ list_ok (C:=sass_config) l'.
Proof.
  apply (MarkAccountKeyAsActive_moves (C:=sass_config) test_list 3).
  - apply test_list_ok.
  - lia.
Defined.

Example GetUniqueAccountKeyCount_distinct_witness :
  exists n, nearby_fp_GetUniqueAccountKeyCount test_list = Done (Z.of_nat n)
    /\ n = length (remove_dups (account_key <$> keys_in_use test_list))
    /\ (n <= NEARBY_MAX_ACCOUNT_KEYS)%nat /\ (n = 0%nat <-> num_keys test_list = 0).
Proof. apply (GetUniqueAccountKeyCount_distinct (C:=sass_config) test_list test_list_ok). Defined.

Example AccountKeys_save_load_witness :
  wp (nearby_fp_SaveAccountKeys (C:=sass_config) test_list) (fun r s1 =>
    r = kNearbyStatusOK ->
    wp (nearby_fp_LoadAccountKeys (C:=sass_config)) (fun r' _ =>
      r' = (kNearbyStatusOK, list_visible (C:=sass_config) test_list)) s1)
    (test_sys tt test_world_0).
Proof.
  apply (AccountKeys_save_load (C:=sass_config) test_list (test_sys tt test_world_0)).
  apply test_list_ok.
Defined.
