(* ===== verification/MessageStream.v ===== *)
(** The message stream of src/embedded/common/source/nearby_message_stream.c:
    framing of messages (group, code, big-endian 16 bit length, payload) on the
    RFCOMM channel, and the incremental parser of the received bytes.

    [nearby_message_stream_State] is the parser with its buffer, the start of
    which holds the metadata; the callback [on_message_received] is a parameter of
    [nearby_message_stream_Read]. *)

From Stdlib Require Import ZArith Lia.
From stdpp Require Import base list numbers.
From S2P Require Import Prelude Utils Platform TestPlatform.
Import Utils.

Definition HEADER_SIZE : Z := 4.
Definition ACK_MESSAGE_SIZE : nat := 6.
Definition NACK_MESSAGE_SIZE : nat := 7.
Definition ACKNOWLEDGEMENT_GROUP : Z := 0xFF.
Definition ACK_CODE : Z := 1.
Definition NACK_CODE : Z := 2.
Definition FAIL_REASON_INVALID_MAC : Z := 3.
Definition FAIL_REASON_REDUNDANT_DEVICE_ACTION : Z := 4.

(** [sizeof(nearby_message_stream_Metadata)] on an LP64 target. *)
Definition METADATA_SIZE : Z := 24.

(** [data] is the object the pointer addresses, of at least [length] bytes. *)
Record nearby_message_stream_Message : Type := Message {
  message_group : Z;
  message_code : Z;
  message_length : Z;
  message_data : list Z;
}.

(** [bytes_read] and [message] are the metadata at the start of the buffer,
    [message_data message] is the rest of the buffer. *)
Record nearby_message_stream_State : Type := StreamState {
  stream_peer_address : Z;
  stream_length : Z;
  bytes_read : Z;
  message : nearby_message_stream_Message;
}.

(** * Operations *)

Definition set_message (s : nearby_message_stream_State)
    (m : nearby_message_stream_Message) : nearby_message_stream_State :=
  StreamState (stream_peer_address s) (stream_length s) (bytes_read s) m.
Definition set_bytes_read (s : nearby_message_stream_State) (n : Z)
  : nearby_message_stream_State :=
  StreamState (stream_peer_address s) (stream_length s) n (message s).
Definition set_length (m : nearby_message_stream_Message) (n : Z)
  : nearby_message_stream_Message :=
  Message (message_group m) (message_code m) n (message_data m).

Definition nearby_message_stream_Init (s : nearby_message_stream_State)
  : nearby_message_stream_State :=
  StreamState (stream_peer_address s) (stream_length s) 0
    (Message 0 0 0 (message_data (message s))).

Definition nearby_message_stream_GetMaxPayloadSize
    (s : nearby_message_stream_State) : Z :=
  u16 (stream_length s - METADATA_SIZE).

(** The [switch] on the number of bytes read. *)
Definition Read_switch (s : nearby_message_stream_State) (byte : Z)
  : outcome nearby_message_stream_State :=
  let available_space := u16 (stream_length s - METADATA_SIZE) in
  let m := message s in
  if bytes_read s =? 0 then
    Done (set_message s (Message byte (message_code m) (message_length m) (message_data m)))
  else if bytes_read s =? 1 then
    Done (set_message s (Message (message_group m) byte (message_length m) (message_data m)))
  else if bytes_read s =? 2 then
    Done (set_message s (set_length m (u16 (Z.shiftl byte 8))))
  else if bytes_read s =? 3 then
    Done (set_message s (set_length m (u16 (message_length m + byte))))
  else
    let offset := u16 (bytes_read s - HEADER_SIZE) in
    if (offset <? message_length m) && (offset <? available_space) then
      let! data := store (message_data m) (Z.to_nat offset) byte in
      Done (set_message s (Message (message_group m) (message_code m) (message_length m) data))
    else Done s.

Section Stream.
Context {P : Platform} {S : Type}.
Variable on_message_received : Z -> nearby_message_stream_Message -> M S unit.

Fixpoint nearby_message_stream_Read (s : nearby_message_stream_State)
    (data : list Z) : M S nearby_message_stream_State :=
  match data with
  | [] => mret s
  | byte :: data =>
    let! s := lift (Read_switch s byte) in
    let s := set_bytes_read s (u16 (bytes_read s + 1)) in
    if bytes_read s - HEADER_SIZE =? message_length (message s) then
      let available_space := u16 (stream_length s - METADATA_SIZE) in
      let m := if available_space <? message_length (message s)
               then set_length (message s) available_space else message s in
      do! on_message_received (stream_peer_address s) m in
      nearby_message_stream_Read (set_bytes_read (set_message s (set_length m 0)) 0) data
    else nearby_message_stream_Read s data
  end.

End Stream.

Section Send.
Context {P : Platform} {S : Type}.

Definition nearby_message_stream_Send (peer_address : Z)
    (m : nearby_message_stream_Message) : M S nearby_platform_status :=
  let header := [u8 (message_group m); u8 (message_code m);
                 u8 (Z.shiftr (message_length m) 8); u8 (message_length m)] in
  let! status := nearby_platform_SendMessageStream peer_address header in
  if status_ok status && (0 <? message_length m) then
    let! data := lift (read_bytes (message_data m) 0 (Z.to_nat (message_length m))) in
    nearby_platform_SendMessageStream peer_address data
  else mret status.

Definition nearby_message_stream_SendAck (peer_address : Z)
    (m : nearby_message_stream_Message) : M S nearby_platform_status :=
  nearby_platform_SendMessageStream peer_address
    [ACKNOWLEDGEMENT_GROUP; ACK_CODE; 0; Z.of_nat ACK_MESSAGE_SIZE - HEADER_SIZE;
     u8 (message_group m); u8 (message_code m)].

Definition nearby_message_stream_SendNack (peer_address : Z)
    (m : nearby_message_stream_Message) (fail_reason : Z)
  : M S nearby_platform_status :=
  nearby_platform_SendMessageStream peer_address
    [ACKNOWLEDGEMENT_GROUP; NACK_CODE; 0; Z.of_nat NACK_MESSAGE_SIZE - HEADER_SIZE;
     u8 fail_reason; u8 (message_group m); u8 (message_code m)].

End Send.

(** * Specification *)

(** A message on the wire: group, code, payload. *)
Record wire_message : Type := WireMessage {
  wire_group : Z;
  wire_code : Z;
  wire_payload : list Z;
}.

Definition frame (w : wire_message) : list Z :=
  wire_group w :: wire_code w :: be_bytes 2 (Z.of_nat (length (wire_payload w)))
  ++ wire_payload w.

(** The payload cut to the space there is. *)
Definition truncate_to (space : Z) (w : wire_message) : wire_message :=
  WireMessage (wire_group w) (wire_code w) (take (Z.to_nat space) (wire_payload w)).

(** The longest payload the 16 bit counter [bytes_read] can take in. *)
Definition MAX_WIRE_PAYLOAD : Z := 65531.

Definition wire_ok (w : wire_message) : Prop :=
  is_byte (wire_group w) /\ is_byte (wire_code w) /\ bytes_ok (wire_payload w)
  /\ Z.of_nat (length (wire_payload w)) <= MAX_WIRE_PAYLOAD.

(** What a callback sees of a message. *)
Definition wire_of (m : nearby_message_stream_Message) : wire_message :=
  WireMessage (message_group m) (message_code m)
    (take (Z.to_nat (message_length m)) (message_data m)).

(** Invariant of the parser: the buffer has the size the state says and the
    counters are in range. *)
Record stream_ok (s : nearby_message_stream_State) : Prop := {
  ok_space : METADATA_SIZE <= stream_length s < METADATA_SIZE + 65536;
  ok_data : Z.of_nat (length (message_data (message s))) = stream_length s - METADATA_SIZE;
  ok_bytes : bytes_ok (message_data (message s));
  ok_read : 0 <= bytes_read s < 65536;
  ok_msg_length : 0 <= message_length (message s) < 65536;
  ok_group : is_byte (message_group (message s));
  ok_code : is_byte (message_code (message s));
}.

(** Between two messages. *)
Definition at_start (s : nearby_message_stream_State) : Prop :=
  stream_ok s /\ bytes_read s = 0.

Definition space (s : nearby_message_stream_State) : Z := stream_length s - METADATA_SIZE.

(** * Lemmas *)

Lemma space_u16 s : stream_ok s -> u16 (stream_length s - METADATA_SIZE) = space s.
Proof. intros [H _ _ _ _ _ _]. apply u16_id. unfold space, METADATA_SIZE in *. lia. Qed.

(** The state after one payload byte. *)
Definition put_byte (s : nearby_message_stream_State) (b : Z)
  : nearby_message_stream_State :=
  let m := message s in
  let i := bytes_read s - 4 in
  StreamState (stream_peer_address s) (stream_length s) (bytes_read s)
    (Message (message_group m) (message_code m) (message_length m)
       (if (i <? message_length m) && (i <? space s)
        then <[Z.to_nat i := u8 b]> (message_data m) else message_data m)).

Lemma Read_switch_payload s b :
  stream_ok s -> 4 <= bytes_read s -> Read_switch s b = Done (put_byte s b).
Proof.
  intros Hok Hr. unfold Read_switch, put_byte. rewrite space_u16 by done.
  destruct Hok as [Hsp Hd _ Hbr _ _ _]. unfold HEADER_SIZE, METADATA_SIZE in *.
  rewrite !(proj2 (Z.eqb_neq (bytes_read s) _)) by lia. rewrite u16_id by lia.
  destruct (_ && _) eqn:E; [|by destruct s as [? ? ? []]].
  bool_to_prop. unfold space, METADATA_SIZE in *. rewrite store_done by lia. done.
Qed.

(** Every byte is processed without a memory fault and keeps the invariant. *)
Lemma Read_switch_ok s b :
  stream_ok s -> is_byte b ->
  exists s', Read_switch s b = Done s' /\ stream_ok s'
    /\ stream_length s' = stream_length s /\ stream_peer_address s' = stream_peer_address s
    /\ bytes_read s' = bytes_read s.
Proof.
  intros Hok Hb. destruct (Z_lt_le_dec (bytes_read s) 4) as [Hr|Hr].
  - destruct Hok. unfold Read_switch.
    destruct (Z.eqb_spec (bytes_read s) 0); [eexists; split; [done|]; split; [by constructor|done]|].
    destruct (Z.eqb_spec (bytes_read s) 1); [eexists; split; [done|]; split; [by constructor|done]|].
    destruct (Z.eqb_spec (bytes_read s) 2).
    { eexists; split; [done|]. split; [|done]. constructor; try done; apply u16_range. }
    destruct (Z.eqb_spec (bytes_read s) 3); [|lia].
    eexists; split; [done|]. split; [|done]. constructor; try done; apply u16_range.
  - rewrite Read_switch_payload by done. eexists. split; [done|].
    destruct Hok. unfold put_byte. split; [|done]. constructor; cbn; try done.
    + destruct (_ && _); [|done]. by rewrite length_insert.
    + destruct (_ && _); auto with fp.
Qed.

Lemma stream_ok_read s n : stream_ok s -> 0 <= n < 65536 -> stream_ok (set_bytes_read s n).
Proof. intros [] ?. by split. Qed.

Lemma stream_ok_reset s n :
  stream_ok s -> at_start (set_bytes_read (set_message s (set_length (set_length (message s) n) 0)) 0).
Proof. intros []. split; [|done]. split; try done; cbn; lia. Qed.

(** What is delivered when the last byte is in. *)
Definition delivered (s : nearby_message_stream_State) : nearby_message_stream_Message :=
  if space s <? message_length (message s)
  then set_length (message s) (space s) else message s.

Definition after_delivery (s : nearby_message_stream_State) : nearby_message_stream_State :=
  set_bytes_read (set_message s (set_length (delivered s) 0)) 0.

Lemma after_delivery_start s :
  stream_ok s -> at_start (after_delivery s) /\ space (after_delivery s) = space s
  /\ stream_length (after_delivery s) = stream_length s
  /\ stream_peer_address (after_delivery s) = stream_peer_address s.
Proof.
  intros Hok. split; [|done]. unfold after_delivery, delivered.
  destruct (_ <? _); [by apply stream_ok_reset|].
  destruct Hok. split; [|done]. split; try done; cbn; lia.
Qed.

Lemma delivered_bounds s :
  stream_ok s ->
  0 <= message_length (delivered s) <= space s
  /\ Z.of_nat (length (message_data (delivered s))) = space s
  /\ bytes_ok (message_data (delivered s))
  /\ is_byte (message_group (delivered s)) /\ is_byte (message_code (delivered s)).
Proof.
  intros [Hs Hd Hb _ Hl Hg Hc]. unfold delivered, space in *.
  destruct (Z.ltb_spec (stream_length s - METADATA_SIZE) (message_length (message s)));
    cbn [set_length message_group message_code message_length message_data].
  - split; [lia|done].
  - split; [lia|done].
Qed.

Section Reading.
Context {P : Platform} {S : Type}.
Variable cb : Z -> nearby_message_stream_Message -> M S unit.
Implicit Types (x : sys S).

Lemma Read_cons s b rest s1 x :
  Read_switch s b = Done s1 -> stream_ok s1 ->
  nearby_message_stream_Read cb s (b :: rest) x =
  (let s2 := set_bytes_read s1 (u16 (bytes_read s1 + 1)) in
   if bytes_read s2 - 4 =? message_length (message s2)
   then (do! cb (stream_peer_address s2) (delivered s2) in
         nearby_message_stream_Read cb (after_delivery s2) rest) x
   else nearby_message_stream_Read cb s2 rest x).
Proof.
  intros Hs Hok. cbn [nearby_message_stream_Read].
  unfold mbind at 1, M_bind at 1, lift. rewrite Hs. cbv zeta.
  unfold HEADER_SIZE. destruct (_ =? _); [|done].
  unfold after_delivery, delivered.
  rewrite space_u16; [done|]. apply stream_ok_read; [done|apply u16_range].
Qed.

(** ** The header *)
Lemma Read_header s g c hi lo rest x :
  at_start s -> is_byte g -> is_byte c -> is_byte hi -> is_byte lo ->
  let s4 := StreamState (stream_peer_address s) (stream_length s) 4
    (Message g c (256 * hi + lo) (message_data (message s))) in
  stream_ok s4 /\
  nearby_message_stream_Read cb s (g :: c :: hi :: lo :: rest) x =
  (if 256 * hi + lo =? 0
   then (do! cb (stream_peer_address s) (delivered s4) in
         nearby_message_stream_Read cb (after_delivery s4) rest) x
   else nearby_message_stream_Read cb s4 rest x).
Proof.
  intros [Hok H0] Hg Hc Hhi Hlo s4. unfold is_byte in *.
  assert (stream_ok s4) as Hok4.
  { destruct Hok. split; try done; cbn; unfold METADATA_SIZE in *; lia. }
  split; [done|]. destruct s as [pa len br [g0 c0 n0 d]]. cbn in H0. subst br.
  assert (stream_ok (StreamState pa len 0 (Message g c0 n0 d))) as Ok0.
  { destruct Hok. by split. }
  erewrite Read_cons; [|reflexivity|exact Ok0]. cbn [bytes_read set_bytes_read set_message set_length message message_length message_group message_code message_data stream_peer_address stream_length].
  destruct (Z.eqb_spec (u16 (0 + 1) - 4) n0) as [E|_];
    [exfalso; destruct Hok; cbn in *; change (u16 (0 + 1)) with 1 in E; lia|].
  change (u16 (0 + 1)) with 1.
  assert (stream_ok (StreamState pa len 1 (Message g c n0 d))) as Ok1.
  { destruct Hok. split; try done; cbn; lia. }
  erewrite Read_cons; [|reflexivity|exact Ok1]. cbn [bytes_read set_bytes_read set_message set_length message message_length message_group message_code message_data stream_peer_address stream_length].
  change (u16 (1 + 1)) with 2. pose proof (ok_msg_length _ Ok0) as Hn0. cbn in Hn0.
  rewrite (proj2 (Z.eqb_neq (2 - 4) n0)) by lia.
  assert (u16 (Z.shiftl hi 8) = 256 * hi) as E8.
  { rewrite Z.shiftl_mul_pow2 by lia. rewrite u16_id by lia. lia. }
  assert (stream_ok (StreamState pa len 2 (Message g c (256 * hi) d))) as Ok2.
  { destruct Hok. split; try done; cbn; lia. }
  erewrite Read_cons; [|cbn; rewrite E8; reflexivity|exact Ok2].
  cbn [bytes_read set_bytes_read set_message set_length message message_length message_group message_code message_data stream_peer_address stream_length].
  change (u16 (2 + 1)) with 3. rewrite (proj2 (Z.eqb_neq (3 - 4) _)) by lia.
  assert (stream_ok (StreamState pa len 3 (Message g c (256 * hi + lo) d))) as Ok3.
  { destruct Hok. split; try done; cbn; lia. }
  erewrite Read_cons; [|cbn; rewrite u16_id by lia; reflexivity|exact Ok3].
  cbn [bytes_read set_bytes_read set_message set_length message message_length message_group message_code message_data stream_peer_address stream_length].
  change (u16 (3 + 1)) with 4. by rewrite Z.eqb_sym.
Qed.

(** ** The payload *)

(** [pre] has been received of a message: it fills the start of the buffer. *)
Definition received_prefix (s : nearby_message_stream_State) (pre : list Z) : Prop :=
  bytes_read s = 4 + Z.of_nat (length pre) /\
  take (Nat.min (length pre) (Z.to_nat (space s))) (message_data (message s))
  = take (Z.to_nat (space s)) pre.

Lemma put_byte_prefix s pre b :
  stream_ok s -> received_prefix s pre -> is_byte b ->
  Z.of_nat (length pre) < message_length (message s) ->
  Z.of_nat (length pre) < 65535 - 4 ->
  received_prefix (set_bytes_read (put_byte s b) (u16 (bytes_read s + 1))) (pre ++ [b]).
Proof.
  intros Hok [Hr Hp] Hb Hl Hm. unfold received_prefix, put_byte.
  cbn [set_bytes_read bytes_read message message_data]. rewrite length_app, u16_id by lia.
  split; [cbn; lia|]. rewrite Hr.
  change (space (set_bytes_read _ _)) with (space s).
  replace (4 + Z.of_nat (length pre) - 4) with (Z.of_nat (length pre)) by lia.
  rewrite (proj2 (Z.ltb_lt _ _)) by lia. cbn [andb]. rewrite Nat2Z.id, u8_id by done.
  pose proof (ok_data s Hok) as Hd. unfold space in *.
  set (n := Z.to_nat (stream_length s - METADATA_SIZE)) in *.
  cbn [length]. destruct (Z.ltb_spec (Z.of_nat (length pre)) (stream_length s - METADATA_SIZE)) as [Hlt|Hge].
  - assert (length pre < n)%nat by lia.
    replace (Nat.min (length pre + 1) n) with (Datatypes.S (length pre)) by lia.
    rewrite (take_S_r _ _ b) by (apply list_lookup_insert_eq; lia).
    rewrite take_insert_ge by lia. rewrite (take_ge (pre ++ [b])) by (rewrite length_app; cbn; lia).
    replace (Nat.min (length pre) n) with (length pre) in Hp by lia.
    rewrite Hp, take_ge by lia. done.
  - assert (n <= length pre)%nat by lia.
    replace (Nat.min (length pre + 1) n) with (Nat.min (length pre) n) by lia.
    rewrite Hp. by rewrite take_app_le by lia.
Qed.

Lemma put_byte_ok s b : stream_ok s -> 4 <= bytes_read s -> is_byte b -> stream_ok (put_byte s b).
Proof.
  intros Hok Hr Hb. destruct (Read_switch_ok s b Hok Hb) as (s' & E & Hok' & _).
  rewrite Read_switch_payload in E by done. by injection E as <-.
Qed.

Lemma delivered_wire s pre :
  stream_ok s -> received_prefix s pre ->
  message_length (message s) = Z.of_nat (length pre) ->
  wire_of (delivered s) = truncate_to (space s)
    (WireMessage (message_group (message s)) (message_code (message s)) pre).
Proof.
  intros Hok [_ Hp] Hl. unfold delivered, wire_of, truncate_to. cbn [wire_payload wire_group wire_code].
  destruct (Z.ltb_spec (space s) (message_length (message s)));
    cbn [set_length message_group message_code message_length message_data]; f_equal.
  - rewrite <- Hp. f_equal. lia.
  - rewrite <- Hp. f_equal. lia.
Qed.

(** Bytes of a message that is not complete yet are stored. *)
Lemma Read_partial s pre bs rest x :
  stream_ok s -> received_prefix s pre -> bytes_ok bs ->
  Z.of_nat (length pre + length bs) < message_length (message s) ->
  Z.of_nat (length pre + length bs) <= 65531 ->
  exists s', stream_ok s' /\ received_prefix s' (pre ++ bs)
    /\ stream_length s' = stream_length s /\ stream_peer_address s' = stream_peer_address s
    /\ message_group (message s') = message_group (message s)
    /\ message_code (message s') = message_code (message s)
    /\ message_length (message s') = message_length (message s)
    /\ nearby_message_stream_Read cb s (bs ++ rest) x
       = nearby_message_stream_Read cb s' rest x.
Proof.
  intros Hok Hp Hb. revert s pre Hok Hp. induction Hb as [|b bs Hb Hbs IH]; intros s pre Hok Hp Hl Hm.
  { exists s. by rewrite app_nil_r. }
  cbn [length] in *. pose proof (proj1 Hp) as Hr.
  set (s1 := set_bytes_read (put_byte s b) (u16 (bytes_read s + 1))).
  assert (stream_ok s1) as Hok1.
  { apply stream_ok_read; [apply put_byte_ok; auto; lia|apply u16_range]. }
  destruct (IH s1 (pre ++ [b])) as (s' & ? & Hp' & ? & ? & ? & ? & ? & E); [done|..].
  { apply put_byte_prefix; auto; lia. }
  { rewrite length_app. cbn. lia. }
  { rewrite length_app. cbn. lia. }
  rewrite <- app_assoc in Hp'. exists s'. do 7 (split; [done|]).
  rewrite <- E. cbn [app]. erewrite Read_cons; [|apply Read_switch_payload; [done|lia]|apply put_byte_ok; auto; lia].
  cbv zeta. change (bytes_read (put_byte s b)) with (bytes_read s). fold s1.
  rewrite (proj2 (Z.eqb_neq _ _)); [done|].
  unfold s1. cbn. rewrite Hr, u16_id by lia. lia.
Qed.

(** The last byte delivers the message. *)
Lemma Read_last s pre b rest x :
  stream_ok s -> received_prefix s pre -> is_byte b ->
  message_length (message s) = Z.of_nat (length pre) + 1 ->
  message_length (message s) <= MAX_WIRE_PAYLOAD ->
  exists s', stream_ok s' /\ stream_length s' = stream_length s
    /\ stream_peer_address s' = stream_peer_address s
    /\ wire_of (delivered s') = truncate_to (space s)
         (WireMessage (message_group (message s)) (message_code (message s)) (pre ++ [b]))
    /\ nearby_message_stream_Read cb s (b :: rest) x
       = (do! cb (stream_peer_address s) (delivered s') in
          nearby_message_stream_Read cb (after_delivery s') rest) x.
Proof.
  intros Hok Hp Hb Hl Hm. unfold MAX_WIRE_PAYLOAD in Hm. pose proof (proj1 Hp) as Hr.
  set (s1 := set_bytes_read (put_byte s b) (u16 (bytes_read s + 1))).
  assert (stream_ok s1) as Hok1.
  { apply stream_ok_read; [apply put_byte_ok; auto; lia|apply u16_range]. }
  exists s1. do 3 (split; [done|]). split.
  - change (space s) with (space s1). change (message_group (message s)) with (message_group (message s1)).
    change (message_code (message s)) with (message_code (message s1)).
    apply delivered_wire; [done| |cbn; rewrite length_app; cbn; lia].
    apply put_byte_prefix; auto; lia.
  - erewrite Read_cons; [|apply Read_switch_payload; [done|lia]|apply put_byte_ok; auto; lia].
    cbv zeta. change (bytes_read (put_byte s b)) with (bytes_read s). fold s1.
    rewrite (proj2 (Z.eqb_eq _ _)); [done|].
    unfold s1. cbn. rewrite Hr, u16_id by lia. lia.
Qed.

Lemma be_bytes_2 n : 0 <= n < 65536 ->
  exists hi lo, be_bytes 2 n = [hi; lo] /\ is_byte hi /\ is_byte lo /\ n = 256 * hi + lo.
Proof.
  intros Hn. pose proof (be_value_be_bytes 2 n) as Hv. pose proof (be_bytes_length 2 n) as Hl.
  pose proof (be_bytes_ok 2 n) as Hb.
  destruct (be_bytes 2 n) as [|hi [|lo []]]; try done. exists hi, lo.
  inversion Hb as [|? ? ? Hb']; subst. inversion Hb'; subst.
  cbn in Hv. unfold be_value in Hv. cbn [fold_left] in Hv.
  rewrite Z.mod_small in Hv by lia. split; [done|]. split; [done|]. split; [done|]. lia.
Qed.

(** One complete message. *)
Lemma Read_frame s w rest x :
  at_start s -> wire_ok w ->
  exists s', stream_ok s' /\ stream_length s' = stream_length s
    /\ stream_peer_address s' = stream_peer_address s
    /\ wire_of (delivered s') = truncate_to (space s) w
    /\ nearby_message_stream_Read cb s (frame w ++ rest) x
       = (do! cb (stream_peer_address s) (delivered s') in
          nearby_message_stream_Read cb (after_delivery s') rest) x.
Proof.
  intros Hs (Hg & Hc & Hb & Hl). unfold MAX_WIRE_PAYLOAD in Hl. destruct w as [g c p].
  cbn [wire_group wire_code wire_payload] in *.
  destruct (be_bytes_2 (Z.of_nat (length p))) as (hi & lo & E & Hhi & Hlo & En); [lia|].
  unfold frame. cbn [wire_group wire_code wire_payload app]. rewrite E. cbn [app].
  destruct (Read_header s g c hi lo (p ++ rest) x) as [Hok4 ->]; try done.
  rewrite <- En in *.
  set (s4 := StreamState _ _ _ _) in *.
  assert (received_prefix s4 []) as H4 by (split; [done|]; cbn; by rewrite take_nil).
  destruct p as [|b p _] using rev_ind.
  - cbn [length]. exists s4. do 3 (split; [done|]). split; [|done].
    change (space s) with (space s4). by apply delivered_wire.
  - rewrite (proj2 (Z.eqb_neq _ _)) by (rewrite length_app; cbn; lia).
    apply bytes_ok_app in Hb as [Hb1 Hb2]. inversion Hb2; subst. rewrite <- app_assoc.
    destruct (Read_partial s4 [] p ([b] ++ rest) x)
      as (s5 & Hok5 & Hp5 & Hl5 & Hpa & Hg5 & Hc5 & Hn5 & ->); try done.
    { cbn. rewrite length_app. cbn. lia. }
    { rewrite length_app in Hl. cbn in Hl |- *. lia. }
    destruct (Read_last s5 p b rest x) as (s6 & Hok6 & Hl6 & Hpa6 & Hw & Er); try done.
    { rewrite Hn5. cbn. rewrite length_app. cbn. lia. }
    { rewrite Hn5. cbn. rewrite length_app in *. cbn in *. unfold MAX_WIRE_PAYLOAD. lia. }
    exists s6. rewrite Hl6, Hpa6, Hl5, Hpa. do 3 (split; [done|]). split.
    + rewrite Hw, Hg5, Hc5. unfold space. by rewrite Hl5.
    + cbn [app]. rewrite Er, Hpa. done.
Qed.

End Reading.

Section StreamTheorems.
Context {P : Platform}.

(** Cutting the input in two makes no difference. *)
Lemma Read_app {S} (cb : Z -> nearby_message_stream_Message -> M S unit) s a b x :
  nearby_message_stream_Read cb s (a ++ b) x
  = (let! s' := nearby_message_stream_Read cb s a in nearby_message_stream_Read cb s' b) x.
Proof.
  revert s x. induction a as [|y a IH]; intros s x; [done|].
  cbn [app nearby_message_stream_Read]. unfold mbind, M_bind, lift.
  destruct (Read_switch s y) as [s1| |]; [|done..]. cbv zeta.
  destruct (_ =? _).
  - destruct (cb _ _ x) as [[u x1]| |]; [|done..]. rewrite IH. done.
  - rewrite IH. done.
Qed.

(** The bytes of a stream arrive in chunks, one call of
    [nearby_message_stream_Read] each. *)
Fixpoint Read_chunks {S} (cb : Z -> nearby_message_stream_Message -> M S unit)
    (s : nearby_message_stream_State) (chunks : list (list Z))
  : M S nearby_message_stream_State :=
  match chunks with
  | [] => mret s
  | c :: cs => let! s := nearby_message_stream_Read cb s c in Read_chunks cb s cs
  end.

Lemma Read_chunks_concat {S} (cb : Z -> nearby_message_stream_Message -> M S unit) s chunks x :
  Read_chunks cb s chunks x = nearby_message_stream_Read cb s (concat chunks) x.
Proof.
  revert s x. induction chunks as [|c cs IH]; intros s x; [done|].
  cbn [Read_chunks concat]. rewrite Read_app. unfold mbind, M_bind.
  destruct (nearby_message_stream_Read cb s c x) as [[s1 x1]| |]; [apply IH|done..].
Qed.

(** A callback that records the messages it is given. *)
Definition record_message (peer_address : Z) (m : nearby_message_stream_Message)
  : M (list wire_message) unit := modify (fun l => l ++ [wire_of m]).

Lemma Read_frames s ms (x : sys (list wire_message)) :
  at_start s -> Forall wire_ok ms ->
  wp (nearby_message_stream_Read record_message s (concat (frame <$> ms)))
    (fun s' x' => at_start s' /\ stream_length s' = stream_length s
       /\ st x' = st x ++ (truncate_to (space s) <$> ms)) x.
Proof.
  intros Hs Hms. revert s x Hs. induction Hms as [|w ms Hw Hms IH]; intros s x Hs.
  { apply wp_ret. by rewrite app_nil_r. }
  cbn [fmap list_fmap concat].
  destruct (Read_frame record_message s w (concat (frame <$> ms)) x Hs Hw)
    as (s1 & Hok & Hl & Hpa & Hd & E).
  unfold wp. rewrite E. destruct (after_delivery_start s1 Hok) as (Ha & Hsp & Hl1 & _).
  unfold mbind, M_bind, record_message, modify.
  set (x1 := Sys _ _ _).
  pose proof (IH (after_delivery s1) x1 Ha) as H. unfold wp in H.
  destruct (nearby_message_stream_Read _ _ _ x1) as [[s' x']| |]; [|done..].
  destruct H as (H1 & H2 & H3). split; [done|]. split; [congruence|].
  rewrite H3. unfold x1. cbn [st]. rewrite Hd, <- app_assoc. cbn [app].
  unfold space. by rewrite Hl1, Hl.
Qed.

(** C21. However the bytes of a sequence of messages, with payloads of at most 65531
    bytes each, are cut into chunks, the parser calls the callback once per message,
    in order, with the group, the code and the payload cut to the space of the
    buffer, and is ready for the next message afterwards.  The bound is that of the
    code: a longer payload, which the length field allows, makes its 16-bit counter
    wrap, and the message is not delivered (Read_counter_wraps). *)
Theorem Read_delivers_messages s ms chunks (x : sys (list wire_message)) :
  at_start s -> Forall wire_ok ms -> concat chunks = concat (frame <$> ms) ->
  wp (Read_chunks record_message s chunks)
    (fun s' x' => at_start s' /\ stream_length s' = stream_length s
       /\ st x' = st x ++ (truncate_to (space s) <$> ms)) x.
Proof.
  intros Hs Hms Hc. unfold wp. rewrite Read_chunks_concat, Hc.
  by apply Read_frames.
Qed.

(** Preservation of the invariants of the parser and of the rest of the program. *)
Lemma Read_invariant {S} (cb : Z -> nearby_message_stream_Message -> M S unit)
    (I : sys S -> Prop) s data x :
  (forall m y, I y ->
     0 <= message_length m <= space s -> Z.of_nat (length (message_data m)) = space s ->
     bytes_ok (message_data m) -> is_byte (message_group m) -> is_byte (message_code m) ->
     wp (cb (stream_peer_address s) m) (fun _ y' => I y') y) ->
  stream_ok s -> bytes_ok data -> I x ->
  wp (nearby_message_stream_Read cb s data)
    (fun s' x' => stream_ok s' /\ stream_length s' = stream_length s
       /\ stream_peer_address s' = stream_peer_address s /\ I x') x.
Proof.
  intros Hcb Hok Hb. revert s x Hcb Hok. induction Hb as [|b data Hb Hdata IH];
    intros s x Hcb Hok Hx; [by apply wp_ret|].
  destruct (Read_switch_ok s b Hok Hb) as (s1 & E & Hok1 & Hl1 & Hp1 & _).
  unfold wp. rewrite (Read_cons cb s b data s1 x E Hok1). cbv zeta.
  set (s2 := set_bytes_read s1 _).
  assert (stream_ok s2) as Hok2 by (apply stream_ok_read; [done|apply u16_range]).
  assert (stream_length s2 = stream_length s) as Hl2 by done.
  assert (stream_peer_address s2 = stream_peer_address s) as Hp2 by done.
  destruct (_ =? _).
  - destruct (after_delivery_start s2 Hok2) as ([Ha _] & Hsp & Hl3 & Hp3).
    eapply wp_bind, wp_mono.
    + destruct (delivered_bounds s2 Hok2) as (B1 & B2 & B3 & B4 & B5).
      unfold space in B1, B2. rewrite Hl2 in B1, B2. rewrite Hp2. by apply Hcb.
    + intros [] y Hy. cbn beta. eapply wp_mono; [apply IH; [|done|done]|].
      * rewrite Hp3, Hp2, Hsp. unfold space in *. rewrite Hl2. exact Hcb.
      * intros s' x' (H1 & H2 & H3 & H4). split; [done|]. split; [congruence|]. split; [congruence|done].
  - eapply wp_mono; [apply (IH s2 x); [|done|done]|].
    + rewrite Hp2. unfold space in *. rewrite Hl2. exact Hcb.
    + intros s' x' (H1 & H2 & H3 & H4). split; [done|]. split; [congruence|]. split; [congruence|done].
Qed.

(** On any input, from any valid parser state, the parser writes only inside
    its buffer, keeps its invariant, and gives the callback only messages whose
    length does not exceed the buffer; an invariant [I] of the rest of the program
    that the callback preserves is preserved. *)
Theorem Read_memory_safe {S} (cb : Z -> nearby_message_stream_Message -> M S unit)
    (I : sys S -> Prop) s data x :
  (forall m y, I y ->
     0 <= message_length m <= space s -> Z.of_nat (length (message_data m)) = space s ->
     bytes_ok (message_data m) -> is_byte (message_group m) -> is_byte (message_code m) ->
     wp (cb (stream_peer_address s) m) (fun _ y' => I y') y) ->
  stream_ok s -> bytes_ok data -> I x ->
  wp (nearby_message_stream_Read cb s data)
    (fun s' x' => stream_ok s' /\ stream_length s' = stream_length s
       /\ stream_peer_address s' = stream_peer_address s /\ I x') x.
Proof. apply Read_invariant. Qed.

(** Fewer than four bytes of a header deliver nothing. *)
Lemma Read_header_part s bs (x : sys (list wire_message)) :
  stream_ok s -> bytes_ok bs -> bytes_read s + Z.of_nat (length bs) <= 3 ->
  wp (nearby_message_stream_Read record_message s bs)
    (fun s' x' => bytes_read s' = bytes_read s + Z.of_nat (length bs) /\ st x' = st x) x.
Proof.
  intros Hok Hb. revert s x Hok. induction Hb as [|b bs Hb Hbs IH]; intros s x Hok Hn.
  { apply wp_ret. split; [cbn; lia|done]. }
  cbn [length] in *.
  destruct (Read_switch_ok s b Hok Hb) as (s1 & E & Hok1 & _ & _ & Hr).
  pose proof (ok_read s Hok) as Hr0.
  unfold wp. rewrite (Read_cons _ s b bs s1 x E Hok1). cbv zeta.
  set (s2 := set_bytes_read s1 _).
  assert (bytes_read s2 = bytes_read s + 1) as Hr2
    by (unfold s2; cbn; rewrite Hr; apply u16_id; lia).
  assert (stream_ok s2) as Hok2 by (apply stream_ok_read; [done|apply u16_range]).
  pose proof (ok_msg_length s2 Hok2). rewrite (proj2 (Z.eqb_neq _ _)) by lia.
  eapply wp_mono; [apply (IH s2 x Hok2); lia|]. intros s' x' [H1 H2]. split; [lia|done].
Qed.

(** A message whose length field is 65532 or more is never delivered: the
    16 bit counter of received bytes wraps around before the end of the payload,
    and the rest of the payload is taken for the next header. *)
Theorem Read_counter_wraps s w (x : sys (list wire_message)) :
  at_start s -> is_byte (wire_group w) -> is_byte (wire_code w) ->
  bytes_ok (wire_payload w) -> 65532 <= Z.of_nat (length (wire_payload w)) <= 65535 ->
  wp (nearby_message_stream_Read record_message s (frame w))
    (fun s' x' => st x' = st x
       /\ bytes_read s' = Z.of_nat (length (wire_payload w)) - 65532) x.
Proof.
  intros Hs Hg Hc Hb Hl. destruct w as [g c p]. cbn [wire_group wire_code wire_payload] in *.
  destruct (be_bytes_2 (Z.of_nat (length p))) as (hi & lo & E & Hhi & Hlo & En); [lia|].
  unfold frame. cbn [wire_group wire_code wire_payload app]. rewrite E. cbn [app].
  destruct (Read_header record_message s g c hi lo p x) as [Hok4 E4]; try done.
  unfold wp. rewrite E4, <- En in *. rewrite (proj2 (Z.eqb_neq _ _)) by lia.
  set (s4 := StreamState _ _ _ _) in *.
  assert (received_prefix s4 []) as H4 by (split; [done|]; cbn; by rewrite take_nil).
  set (n := Z.to_nat 65531). assert (Z.of_nat n = 65531) as Hn by (unfold n; lia). clearbody n.
  rewrite <- (take_drop n p). pose proof (bytes_ok_take n p Hb) as Hb1.
  pose proof (bytes_ok_drop n p Hb) as Hb2.
  assert (length (take n p) = n) as Ht by (rewrite length_take; lia).
  destruct (Read_partial record_message s4 [] (take n p) (drop n p) x)
    as (s5 & Hok5 & [Hr5 _] & _ & _ & _ & _ & Hn5 & ->); try done;
    [cbn [length Nat.add s4 message message_length]; lia..|].
  rewrite app_nil_l, Ht in Hr5.
  assert (length (drop n p) = length p - n)%nat as Hd by apply length_drop.
  destruct (drop n p) as [|b rest]; [cbn in Hd; lia|]. cbn [length] in Hd.
  inversion Hb2 as [|? ? Hbb Hbr]; subst.
  erewrite Read_cons; [|apply Read_switch_payload; [done|lia]|apply put_byte_ok; auto; lia].
  cbv zeta. change (bytes_read (put_byte s5 b)) with (bytes_read s5).
  rewrite Hr5, Hn. change (u16 (4 + 65531 + 1)) with 0. cbn [set_bytes_read bytes_read message].
  set (s6 := set_bytes_read (put_byte s5 b) 0).
  assert (stream_ok s6) as Hok6 by (apply stream_ok_read; [apply put_byte_ok; auto; lia|lia]).
  rewrite (proj2 (Z.eqb_neq _ _)); [|cbn; rewrite Hn5; cbn; lia].
  eapply wp_mono; [apply (Read_header_part s6 rest x Hok6 Hbr); change (bytes_read s6) with 0; lia|].
  intros s' x' [H1 H2]. split; [done|]. rewrite H1, length_app, Ht.
  change (bytes_read s6) with 0. cbn [length]. lia.
Qed.

(** The chunks a run handed to [nearby_platform_SendMessageStream], in order. *)
Definition sent_chunks {S} (peer_address : Z) (before after : sys S)
    (chunks : list (list Z)) : Prop :=
  map fst (log after)
  = rev (map (fun c => BT (SendMessageStream peer_address c)) chunks)
    ++ map fst (log before).

Definition message_ok (m : nearby_message_stream_Message) : Prop :=
  is_byte (message_group m) /\ is_byte (message_code m)
  /\ 0 <= message_length m < 65536 /\ bytes_ok (message_data m)
  /\ message_length m <= Z.of_nat (length (message_data m)).

Lemma be_bytes_2_shift n : [u8 (Z.shiftr n 8); u8 n] = be_bytes 2 n.
Proof.
  unfold be_bytes. rewrite !le_bytes_S. cbn. unfold u8. rewrite Z.shiftr_div_pow2 by lia. done.
Qed.

Lemma frame_wire_of m :
  message_ok m ->
  frame (wire_of m) = [u8 (message_group m); u8 (message_code m);
      u8 (Z.shiftr (message_length m) 8); u8 (message_length m)]
    ++ take (Z.to_nat (message_length m)) (message_data m).
Proof.
  intros (Hg & Hc & Hl & Hb & Hd). unfold frame, wire_of. cbn [wire_group wire_code wire_payload].
  rewrite length_take_le, Z2Nat.id, <- be_bytes_2_shift, !(u8_id (message_group m)), !(u8_id (message_code m)) by (done || lia).
  done.
Qed.

(** When [nearby_message_stream_Send] reports success, it has passed to the
    platform, in one or two pieces, exactly the frame of the message; a parser at
    the other end with enough space gets the message back.  On failure it has
    passed a prefix of the frame. *)
Theorem Send_Read_roundtrip {S} peer_address m (x : sys S) :
  message_ok m -> message_length m <= MAX_WIRE_PAYLOAD ->
  wp (nearby_message_stream_Send peer_address m) (fun r x' =>
    exists chunks, sent_chunks peer_address x x' chunks /\
      concat chunks `prefix_of` frame (wire_of m) /\
      (r = kNearbyStatusOK ->
       forall s (y : sys (list wire_message)), at_start s -> message_length m <= space s ->
       wp (Read_chunks record_message s chunks)
         (fun s' y' => at_start s' /\ st y' = st y ++ [wire_of m]) y)) x.
Proof.
  intros Hm Hmax. pose proof (frame_wire_of m Hm) as Hf. pose proof Hm as (Hg & Hc & Hl & Hb & Hd).
  assert (wire_ok (wire_of m)) as Hw.
  { repeat split; try apply Hg; try apply Hc; cbn [wire_payload wire_of].
    - by apply bytes_ok_take.
    - rewrite length_take_le by lia. lia. }
  assert (forall chunks s (y : sys (list wire_message)), concat chunks = frame (wire_of m) ->
    at_start s -> message_length m <= space s ->
    wp (Read_chunks record_message s chunks)
         (fun s' y' => at_start s' /\ st y' = st y ++ [wire_of m]) y) as Hread.
  { intros chunks s y Hch Hs Hsp. unfold wp. rewrite Read_chunks_concat, Hch.
    rewrite <- (app_nil_r (frame (wire_of m))).
    eapply wp_mono; [apply (Read_frames s [wire_of m] y Hs); by constructor|].
    intros s' y' (H1 & _ & H3). split; [done|]. rewrite H3. cbn [fmap list_fmap]. do 2 f_equal.
    unfold truncate_to, wire_of. cbn [wire_group wire_code wire_payload]. f_equal.
    rewrite take_ge; [done|]. rewrite length_take. lia. }
  unfold nearby_message_stream_Send. set (header := [_; _; _; _]) in *.
  apply wp_bind. apply wp_hal_map. intros resp w.
  destruct (status_ok (resp_status resp)) eqn:Es; cbn [andb].
  2:{ apply wp_ret. exists [header]. split; [done|]. split.
      - rewrite Hf. cbn [concat app]. rewrite app_nil_r. by exists (take (Z.to_nat (message_length m)) (message_data m)).
      - intros E. by apply status_ok_not in Es. }
  destruct (Z.ltb_spec 0 (message_length m)) as [Hpos|Hzero].
  - apply wp_bind. eapply wp_lift; [apply read_bytes_done; lia|]. apply wp_hal_map. intros resp2 w2.
    rewrite drop_0. exists [header; take (Z.to_nat (message_length m)) (message_data m)].
    split; [done|]. rewrite Hf. cbn [concat app]. rewrite app_nil_r. split; [done|].
    intros _ s y Hs Hsp. apply Hread; [|done|done]. rewrite Hf. cbn [concat app]. by rewrite app_nil_r.
  - apply wp_ret. assert (message_length m = 0) as E0 by lia.
    assert (frame (wire_of m) = header) as Hfh.
    { rewrite Hf, E0. change (Z.to_nat 0) with 0%nat. by rewrite take_0, app_nil_r. }
    exists [header]. cbn [concat app]. rewrite app_nil_r. split; [done|].
    rewrite Hfh. split; [done|]. intros _ s y Hs Hsp. apply Hread; [|done|done].
    rewrite Hfh. cbn [concat]. by rewrite app_nil_r.
Qed.

(** An acknowledgement is one frame of the acknowledgement group that names
    the group and code of the message; a negative one also carries the reason. *)
Theorem SendAck_SendNack_frames {S} peer_address m reason (x : sys S) :
  is_byte (message_group m) -> is_byte (message_code m) -> is_byte reason ->
  wp (nearby_message_stream_SendAck peer_address m) (fun _ x1 =>
    sent_chunks peer_address x x1
      [frame (WireMessage ACKNOWLEDGEMENT_GROUP ACK_CODE [message_group m; message_code m])] /\
    wp (nearby_message_stream_SendNack peer_address m reason) (fun _ x2 =>
      sent_chunks peer_address x1 x2
        [frame (WireMessage ACKNOWLEDGEMENT_GROUP NACK_CODE
                  [reason; message_group m; message_code m])]) x1) x.
Proof.
  intros Hg Hc Hr. apply wp_hal_map. intros resp w. split.
  - unfold sent_chunks. cbn [log map fst rev app].
    by rewrite !(u8_id (message_group m)), !(u8_id (message_code m)).
  - apply wp_hal_map. intros resp2 w2. unfold sent_chunks. cbn [log map fst rev app].
    by rewrite !(u8_id (message_group m)), !(u8_id (message_code m)), !(u8_id reason).
Qed.

End StreamTheorems.

(** * Witnesses *)

Definition test_stream : nearby_message_stream_State :=
  StreamState 0xA0 46 0 (Message 0 0 0 (replicate 22 0)).

Lemma test_stream_start : at_start test_stream.
Proof.
  split; [|done]. split; try (cbn; unfold METADATA_SIZE, is_byte; lia).
  apply bytes_ok_replicate. unfold is_byte. lia.
Qed.

Definition wire_sys : sys (list wire_message) := test_sys [] test_world_0.

(** Two messages, in three chunks that split the first header and the second
    payload. *)
Example Read_delivers_messages_witness :
  let ms := [WireMessage 3 1 [1; 2; 3]; WireMessage 4 2 []] in
  wp (Read_chunks record_message test_stream [[3]; [1; 0; 3; 1; 2]; [3; 4; 2; 0; 0]])
    (fun s' x' => at_start s' /\ stream_length s' = stream_length test_stream
       /\ st x' = st wire_sys ++ (truncate_to (space test_stream) <$> ms)) wire_sys.
Proof.
  intros ms.
  apply (Read_delivers_messages test_stream ms [[3]; [1; 0; 3; 1; 2]; [3; 4; 2; 0; 0]] wire_sys).
  - apply test_stream_start.
  - apply Forall_cons; [|apply Forall_cons; [|apply Forall_nil]];
      (split; [unfold is_byte; cbn; lia|]); (split; [unfold is_byte; cbn; lia|]);
      (split; [by apply bytes_ok_true|]); cbn; unfold MAX_WIRE_PAYLOAD; lia.
  - reflexivity.
Defined.

Example Read_memory_safe_witness :
  wp (nearby_message_stream_Read record_message test_stream [9; 9; 255; 255; 1; 2])
    (fun s' x' => stream_ok s' /\ stream_length s' = stream_length test_stream
       /\ stream_peer_address s' = stream_peer_address test_stream /\ True) wire_sys.
Proof.
  apply (Read_memory_safe record_message (fun _ => True) test_stream [9; 9; 255; 255; 1; 2] wire_sys).
  - intros m y _ _ _ _ _ _. apply wp_modify. exact I.
  - apply test_stream_start.
  - repeat constructor; lia.
  - exact I.
Defined.

Example Read_counter_wraps_witness :
  let w := WireMessage 1 1 (replicate (Z.to_nat 65533) 7) in
  wp (nearby_message_stream_Read record_message test_stream (frame w))
    (fun s' x' => st x' = st wire_sys
       /\ bytes_read s' = Z.of_nat (length (wire_payload w)) - 65532) wire_sys.
Proof.
  intros w. apply (Read_counter_wraps test_stream w wire_sys).
  - apply test_stream_start.
  - unfold is_byte, w. cbn [wire_group]. lia.
  - unfold is_byte, w. cbn [wire_code]. lia.
  - unfold w. cbn [wire_payload]. apply bytes_ok_replicate. unfold is_byte. lia.
  - unfold w. cbn [wire_payload]. rewrite length_replicate. lia.
Defined.

Example Send_Read_roundtrip_witness :
  let m := Message 3 2 2 [7; 8] in
  wp (nearby_message_stream_Send 5 m) (fun r x' =>
    exists chunks, sent_chunks 5 wire_sys x' chunks /\
      concat chunks `prefix_of` frame (wire_of m) /\
      (r = kNearbyStatusOK ->
       forall s (y : sys (list wire_message)), at_start s -> message_length m <= space s ->
       wp (Read_chunks record_message s chunks)
         (fun s' y' => at_start s' /\ st y' = st y ++ [wire_of m]) y)) wire_sys.
Proof.
  intros m. apply (Send_Read_roundtrip 5 m wire_sys).
  - repeat constructor; cbn; lia.
  - cbn. unfold MAX_WIRE_PAYLOAD. lia.
Defined.

Example SendAck_SendNack_frames_witness :
  let m := Message 3 2 0 [] in
  wp (nearby_message_stream_SendAck 5 m) (fun _ x1 =>
    sent_chunks 5 wire_sys x1
      [frame (WireMessage ACKNOWLEDGEMENT_GROUP ACK_CODE [message_group m; message_code m])] /\
    wp (nearby_message_stream_SendNack 5 m FAIL_REASON_INVALID_MAC) (fun _ x2 =>
      sent_chunks 5 x1 x2
        [frame (WireMessage ACKNOWLEDGEMENT_GROUP NACK_CODE
                  [FAIL_REASON_INVALID_MAC; message_group m; message_code m])]) x1) wire_sys.
Proof.
  intros m. apply (SendAck_SendNack_frames 5 m FAIL_REASON_INVALID_MAC wire_sys);
    unfold is_byte, FAIL_REASON_INVALID_MAC; cbn; lia.
Defined.
