(* ===== verification/Mbedtls.v ===== *)
(** The secure element over mbed TLS:
    src/embedded/common/source/mbedtls/mbedtls.c and gen_secret.c.

    mbed TLS is a library outside the repository: [Mbedtls] makes its functions
    parameters, with their C result codes, and [MbedtlsSpec] states what its
    documentation promises of the hash and the cipher.  [mbedtls_platform] is a
    platform whose hash and cipher are the functions of mbedtls.c; its instances
    discharge the interface of SecureElement.v for it, so that the theorems
    of Crypto.v hold for a device built with this module.  The initialisation and
    the release of the library's objects are not modelled, except for those of the
    static hash context. *)

From Stdlib Require Import ZArith Lia.
From stdpp Require Import base list numbers.
From S2P Require Import Prelude Utils Platform SecureElement TestPlatform Crypto.
Import Utils.

(** * The library *)

Inductive aes_mode : Type := MBEDTLS_AES_ENCRYPT | MBEDTLS_AES_DECRYPT.

Class Mbedtls : Type := {
  mbedtls_sha256_context : Type;
  mbedtls_aes_context : Type;
  mbedtls_mpi : Type;
  mbedtls_ecp_group : Type;
  rand_state : Type;
  mbedtls_sha256_init : mbedtls_sha256_context -> mbedtls_sha256_context;
  mbedtls_sha256_free : mbedtls_sha256_context -> mbedtls_sha256_context;
  mbedtls_sha256_starts_ret : mbedtls_sha256_context -> Z -> Z * mbedtls_sha256_context;
  mbedtls_sha256_update_ret :
    mbedtls_sha256_context -> list Z -> Z * mbedtls_sha256_context;
  mbedtls_sha256_finish_ret :
    mbedtls_sha256_context -> Z * list Z * mbedtls_sha256_context;
  mbedtls_aes_init : mbedtls_aes_context;
  mbedtls_aes_setkey_enc : mbedtls_aes_context -> list Z -> Z -> Z * mbedtls_aes_context;
  mbedtls_aes_setkey_dec : mbedtls_aes_context -> list Z -> Z -> Z * mbedtls_aes_context;
  mbedtls_aes_crypt_ecb : mbedtls_aes_context -> aes_mode -> list Z -> Z * list Z;
  mbedtls_mpi_init : mbedtls_mpi;
  mbedtls_ecp_group_init : mbedtls_ecp_group;
  (** with MBEDTLS_ECP_DP_SECP256R1 *)
  mbedtls_ecp_group_load : mbedtls_ecp_group -> Z * mbedtls_ecp_group;
  mbedtls_mpi_read_binary : mbedtls_mpi -> list Z -> Z * mbedtls_mpi;
  mbedtls_mpi_write_binary : mbedtls_mpi -> nat -> Z * list Z;
  (** group, public point (X, Y), private key, random generator *)
  mbedtls_ecdh_compute_shared :
    mbedtls_ecp_group -> mbedtls_mpi -> mbedtls_mpi * mbedtls_mpi -> mbedtls_mpi ->
    (nat -> rand_state -> list Z * rand_state) -> rand_state ->
    Z * mbedtls_mpi * rand_state;
  (** [rand()] of the C library *)
  rand : rand_state -> Z * rand_state;
}.

(** * mbedtls.c *)
Section Mbedtls.
Context {Lib : Mbedtls}.

(** The functions on the static [sha256_ctx]: status, new context. *)
Definition mbed_Sha256Start (sha256_ctx : mbedtls_sha256_context)
  : nearby_platform_status * mbedtls_sha256_context :=
  let sha256_ctx := mbedtls_sha256_init sha256_ctx in
  let '(r, sha256_ctx) := mbedtls_sha256_starts_ret sha256_ctx 0 in
  if r =? 0 then (kNearbyStatusOK, sha256_ctx)
  else (kNearbyStatusError, mbedtls_sha256_free sha256_ctx).

Definition mbed_Sha256Update (sha256_ctx : mbedtls_sha256_context) (data : list Z)
  : nearby_platform_status * mbedtls_sha256_context :=
  let '(r, sha256_ctx) := mbedtls_sha256_update_ret sha256_ctx data in
  if r =? 0 then (kNearbyStatusOK, sha256_ctx)
  else (kNearbyStatusError, mbedtls_sha256_free sha256_ctx).

Definition mbed_Sha256Finish (sha256_ctx : mbedtls_sha256_context)
  : nearby_platform_status * list Z * mbedtls_sha256_context :=
  let '(r, out, sha256_ctx) := mbedtls_sha256_finish_ret sha256_ctx in
  let status := if r =? 0 then kNearbyStatusOK else kNearbyStatusError in
  (status, out, mbedtls_sha256_free sha256_ctx).

(** The output buffer is left alone when a call before the encryption fails. *)
Definition mbed_Aes128Encrypt (input output key : list Z)
  : nearby_platform_status * list Z :=
  let ctx := mbedtls_aes_init in
  let '(r, ctx) := mbedtls_aes_setkey_enc ctx key 128 in
  if negb (r =? 0) then (kNearbyStatusError, output) else
  let '(r, output) := mbedtls_aes_crypt_ecb ctx MBEDTLS_AES_ENCRYPT input in
  if negb (r =? 0) then (kNearbyStatusError, output) else (kNearbyStatusOK, output).

Definition mbed_Aes128Decrypt (input output key : list Z)
  : nearby_platform_status * list Z :=
  let ctx := mbedtls_aes_init in
  let '(r, ctx) := mbedtls_aes_setkey_dec ctx key 128 in
  if negb (r =? 0) then (kNearbyStatusError, output) else
  let '(r, output) := mbedtls_aes_crypt_ecb ctx MBEDTLS_AES_DECRYPT input in
  if negb (r =? 0) then (kNearbyStatusError, output) else (kNearbyStatusOK, output).

(** * gen_secret.c *)

Definition UINT8_MAX : Z := 255.

Fixpoint crypto_rand (size : nat) (seed : rand_state) : list Z * rand_state :=
  match size with
  | O => ([], seed)
  | S size' =>
    let '(x, seed) := rand seed in
    let '(out, seed) := crypto_rand size' seed in
    (u8 (Z.rem x UINT8_MAX) :: out, seed)
  end.

(** Each failing call leaves by [goto exit] with the status it had from the
    start. *)
Definition mbed_GenSec256r1Secret (private_key : option (list Z))
    (remote_party_public_key shared_secret : list Z) (seed : rand_state)
  : nearby_platform_status * list Z * rand_state :=
  match private_key with
  | None => (kNearbyStatusError, shared_secret, seed)
  | Some pkp =>
    let '(r, grp) := mbedtls_ecp_group_load mbedtls_ecp_group_init in
    if negb (r =? 0) then (kNearbyStatusError, shared_secret, seed) else
    let '(r, x) := mbedtls_mpi_read_binary mbedtls_mpi_init
                     (take 32 remote_party_public_key) in
    if negb (r =? 0) then (kNearbyStatusError, shared_secret, seed) else
    let '(r, y) := mbedtls_mpi_read_binary mbedtls_mpi_init
                     (take 32 (drop 32 remote_party_public_key)) in
    if negb (r =? 0) then (kNearbyStatusError, shared_secret, seed) else
    let '(r, prv) := mbedtls_mpi_read_binary mbedtls_mpi_init (take 32 pkp) in
    if negb (r =? 0) then (kNearbyStatusError, shared_secret, seed) else
    let '(r, secret, seed) :=
      mbedtls_ecdh_compute_shared grp mbedtls_mpi_init (x, y) prv crypto_rand seed in
    if negb (r =? 0) then (kNearbyStatusError, shared_secret, seed) else
    let '(r, out) := mbedtls_mpi_write_binary secret 32 in
    if negb (r =? 0) then (kNearbyStatusError, out, seed) else
    (kNearbyStatusOK, out, seed)
  end.

End Mbedtls.

(** * What the library documents *)

(** SHA-256 and AES-128-ECB: the calls return 0; the context of a started hash
    determines what has been absorbed; the key schedules belong to the key. *)
Class MbedtlsSpec (Lib : Mbedtls) : Type := {
  lib_sha256 : list Z -> list Z;
  lib_sha256_length : forall m, length (lib_sha256 m) = 32%nat;
  lib_sha256_ok : forall m, bytes_ok (lib_sha256 m);
  absorbed : mbedtls_sha256_context -> list Z;
  starts_spec : forall c, fst (mbedtls_sha256_starts_ret c 0) = 0
    /\ absorbed (snd (mbedtls_sha256_starts_ret c 0)) = [];
  update_spec : forall c d, fst (mbedtls_sha256_update_ret c d) = 0
    /\ absorbed (snd (mbedtls_sha256_update_ret c d)) = absorbed c ++ d;
  finish_spec : forall c,
    fst (mbedtls_sha256_finish_ret c) = (0, lib_sha256 (absorbed c));
  lib_aes : list Z -> list Z -> list Z;
  lib_aes_inv : list Z -> list Z -> list Z;
  lib_aes_length : forall k x, length (lib_aes k x) = 16%nat;
  lib_aes_ok : forall k x, bytes_ok (lib_aes k x);
  lib_aes_inv_length : forall k x, length (lib_aes_inv k x) = 16%nat;
  lib_aes_inv_ok : forall k x, bytes_ok (lib_aes_inv k x);
  lib_aes_inv_aes : forall k x,
    length x = 16%nat -> bytes_ok x -> lib_aes_inv k (lib_aes k x) = x;
  encrypt_spec : forall c k x,
    fst (mbedtls_aes_setkey_enc c k 128) = 0 /\
    mbedtls_aes_crypt_ecb (snd (mbedtls_aes_setkey_enc c k 128)) MBEDTLS_AES_ENCRYPT x
    = (0, lib_aes k x);
  decrypt_spec : forall c k x,
    fst (mbedtls_aes_setkey_dec c k 128) = 0 /\
    mbedtls_aes_crypt_ecb (snd (mbedtls_aes_setkey_dec c k 128)) MBEDTLS_AES_DECRYPT x
    = (0, lib_aes_inv k x);
}.

(** * The platform built on mbedtls.c *)
Section MbedPlatform.
Context {Lib : Mbedtls} (base : Platform).
(** the anti-spoofing private key the platform provides *)
Variable private_key : option (list Z).

Definition status_response (x : nearby_platform_status) (b : list Z) : hal_response :=
  Response x 0 b (BatteryInfo false 0 0 0 0).

Record mbed_world : Type := MbedWorld {
  mw_sha256_ctx : mbedtls_sha256_context;
  mw_rand : rand_state;
  mw_base : world;
}.

(** The secure element's calls go to mbedtls.c and gen_secret.c, the others to
    the rest of the platform. *)
Definition mbed_call (r : hal_request) (w : mbed_world) : hal_response * mbed_world :=
  match r with
  | SE Sha256Start =>
    let '(x, c) := mbed_Sha256Start (mw_sha256_ctx w) in
    (status_response x [], MbedWorld c (mw_rand w) (mw_base w))
  | SE (Sha256Update d) =>
    let '(x, c) := mbed_Sha256Update (mw_sha256_ctx w) d in
    (status_response x [], MbedWorld c (mw_rand w) (mw_base w))
  | SE Sha256Finish =>
    let '(x, out, c) := mbed_Sha256Finish (mw_sha256_ctx w) in
    (status_response x out, MbedWorld c (mw_rand w) (mw_base w))
  | SE (Aes128Encrypt input key) =>
    let '(x, out) := mbed_Aes128Encrypt input [] key in (status_response x out, w)
  | SE (Aes128Decrypt input key) =>
    let '(x, out) := mbed_Aes128Decrypt input [] key in (status_response x out, w)
  | SE (GenSec256r1Secret pk) =>
    let '(x, out, s) := mbed_GenSec256r1Secret private_key pk [] (mw_rand w) in
    (status_response x out, MbedWorld (mw_sha256_ctx w) s (mw_base w))
  | _ =>
    let '(resp, b) := call r (mw_base w) in
    (resp, MbedWorld (mw_sha256_ctx w) (mw_rand w) b)
  end.

Definition mbedtls_platform : Platform := {|
  world := mbed_world;
  call := mbed_call;
  garbage := fun w n => garbage (mw_base w) n;
|}.

Context {Spec : MbedtlsSpec Lib}.

Lemma mbed_Sha256Start_spec c :
  fst (mbed_Sha256Start c) = kNearbyStatusOK /\ absorbed (snd (mbed_Sha256Start c)) = [].
Proof.
  unfold mbed_Sha256Start. destruct (starts_spec (mbedtls_sha256_init c)) as [H1 H2].
  destruct (mbedtls_sha256_starts_ret _ 0) as [r c']. cbn in H1, H2 |- *. by rewrite H1.
Qed.

Lemma mbed_Sha256Update_spec c d :
  fst (mbed_Sha256Update c d) = kNearbyStatusOK
  /\ absorbed (snd (mbed_Sha256Update c d)) = absorbed c ++ d.
Proof.
  unfold mbed_Sha256Update. destruct (update_spec c d) as [H1 H2].
  destruct (mbedtls_sha256_update_ret _ d) as [r c']. cbn in H1, H2 |- *. by rewrite H1.
Qed.

Lemma mbed_Sha256Finish_spec c :
  fst (mbed_Sha256Finish c) = (kNearbyStatusOK, lib_sha256 (absorbed c)).
Proof.
  unfold mbed_Sha256Finish. pose proof (finish_spec c) as H.
  destruct (mbedtls_sha256_finish_ret c) as [[r out] c']. cbn in H. by injection H as -> ->.
Qed.

Lemma mbed_Aes128Encrypt_spec x o k :
  mbed_Aes128Encrypt x o k = (kNearbyStatusOK, lib_aes k x).
Proof.
  unfold mbed_Aes128Encrypt. destruct (encrypt_spec mbedtls_aes_init k x) as [H1 H2].
  destruct (mbedtls_aes_setkey_enc _ k 128) as [r c]. cbn in H1, H2. by rewrite H1, H2.
Qed.

Lemma mbed_Aes128Decrypt_spec x o k :
  mbed_Aes128Decrypt x o k = (kNearbyStatusOK, lib_aes_inv k x).
Proof.
  unfold mbed_Aes128Decrypt. destruct (decrypt_spec mbedtls_aes_init k x) as [H1 H2].
  destruct (mbedtls_aes_setkey_dec _ k 128) as [r c]. cbn in H1, H2. by rewrite H1, H2.
Qed.

#[global, program] Instance mbed_sha256_spec : Sha256Spec mbedtls_platform := {|
  sha256 := lib_sha256;
  sha256_length := lib_sha256_length;
  sha256_ok := lib_sha256_ok;
  hashed := fun w : mbed_world => absorbed (mw_sha256_ctx w);
|}.
Next Obligation.
  intros w. cbn. destruct (mbed_Sha256Start_spec (mw_sha256_ctx w)) as [H _].
  by destruct (mbed_Sha256Start _).
Qed.
Next Obligation.
  intros w. cbn. destruct (mbed_Sha256Start_spec (mw_sha256_ctx w)) as [_ H].
  by destruct (mbed_Sha256Start _).
Qed.
Next Obligation.
  intros d w. cbn. destruct (mbed_Sha256Update_spec (mw_sha256_ctx w) d) as [H _].
  by destruct (mbed_Sha256Update _ d).
Qed.
Next Obligation.
  intros d w. cbn. destruct (mbed_Sha256Update_spec (mw_sha256_ctx w) d) as [_ H].
  by destruct (mbed_Sha256Update _ d).
Qed.
Next Obligation.
  intros w. cbn. pose proof (mbed_Sha256Finish_spec (mw_sha256_ctx w)) as H.
  destruct (mbed_Sha256Finish _) as [[x o] c]. cbn in H. by injection H as -> ->.
Qed.
Next Obligation.
  intros w. cbn. pose proof (mbed_Sha256Finish_spec (mw_sha256_ctx w)) as H.
  destruct (mbed_Sha256Finish _) as [[x o] c]. cbn in H. by injection H as -> ->.
Qed.

#[global, program] Instance mbed_aes_spec : AesSpec mbedtls_platform := {|
  aes := lib_aes;
  aes_inv := lib_aes_inv;
  aes_length := lib_aes_length;
  aes_ok := lib_aes_ok;
  aes_inv_length := lib_aes_inv_length;
  aes_inv_ok := lib_aes_inv_ok;
  aes_inv_aes := lib_aes_inv_aes;
|}.
Next Obligation. intros x k w. cbn. by rewrite mbed_Aes128Encrypt_spec. Qed.
Next Obligation. intros x k w. cbn. by rewrite mbed_Aes128Decrypt_spec. Qed.

End MbedPlatform.

(** Documented behaviour of the elliptic curve functions gen_secret.c calls:
    [read_binary] imports an unsigned big-endian number, [compute_shared] refuses
    a point that is not on the curve and otherwise gives the x coordinate of the
    product, [write_binary] exports a number that fits, with leading zeros. *)
Class EcdhSpec (Lib : Mbedtls) : Type := {
  mpi_value : mbedtls_mpi -> Z;
  loaded : mbedtls_ecp_group -> Prop;
  on_curve : Z * Z -> bool;
  ecdh : Z * Z -> Z -> Z;
  ecdh_range : forall q d, 0 <= ecdh q d < 256 ^ 32;
  group_load_spec : forall g, fst (mbedtls_ecp_group_load g) = 0
    /\ loaded (snd (mbedtls_ecp_group_load g));
  read_binary_spec : forall m b, fst (mbedtls_mpi_read_binary m b) = 0
    /\ mpi_value (snd (mbedtls_mpi_read_binary m b)) = be_value b;
  compute_shared_spec : forall g z x y d f s,
    loaded g ->
    let r := fst (mbedtls_ecdh_compute_shared g z (x, y) d f s) in
    if on_curve (mpi_value x, mpi_value y)
    then fst r = 0 /\ mpi_value (snd r) = ecdh (mpi_value x, mpi_value y) (mpi_value d)
    else fst r <> 0;
  write_binary_spec : forall m n, 0 <= mpi_value m < 256 ^ Z.of_nat n ->
    mbedtls_mpi_write_binary m n = (0, be_bytes n (mpi_value m));
}.

Section MbedTheorems.
Context {Lib : Mbedtls} {Ecdh : EcdhSpec Lib} {Spec : MbedtlsSpec Lib}.

Lemma GenSec256r1Secret_spec private_key public_key output seed :
  let q := (be_value (take 32 public_key), be_value (take 32 (drop 32 public_key))) in
  let r := fst (mbed_GenSec256r1Secret private_key public_key output seed) in
  match private_key with
  | Some d =>
    r = if on_curve q
        then (kNearbyStatusOK, be_bytes 32 (ecdh q (be_value (take 32 d))))
        else (kNearbyStatusError, output)
  | None => r = (kNearbyStatusError, output)
  end.
Proof.
  intros q r. unfold r, mbed_GenSec256r1Secret. destruct private_key as [d|]; [|done].
  destruct (group_load_spec mbedtls_ecp_group_init) as [Hg0 Hg].
  destruct (mbedtls_ecp_group_load _) as [r0 g]. cbn in Hg0, Hg. subst r0.
  destruct (read_binary_spec mbedtls_mpi_init (take 32 public_key)) as [Hx0 Hx].
  destruct (mbedtls_mpi_read_binary _ (take 32 public_key)) as [r1 x]. cbn in Hx0, Hx. subst r1.
  destruct (read_binary_spec mbedtls_mpi_init (take 32 (drop 32 public_key))) as [Hy0 Hy].
  destruct (mbedtls_mpi_read_binary _ (take 32 (drop 32 public_key))) as [r2 y].
  cbn in Hy0, Hy. subst r2.
  destruct (read_binary_spec mbedtls_mpi_init (take 32 d)) as [Hd0 Hd].
  destruct (mbedtls_mpi_read_binary _ (take 32 d)) as [r3 prv]. cbn in Hd0, Hd. subst r3.
  cbn [negb Z.eqb].
  pose proof (compute_shared_spec g mbedtls_mpi_init x y prv crypto_rand seed Hg) as Hs.
  destruct (mbedtls_ecdh_compute_shared _ _ _ _ _ _) as [[r4 sec] seed'].
  cbn [fst snd] in Hs. rewrite Hx, Hy, Hd in Hs. fold q in Hs.
  destruct (on_curve q).
  - destruct Hs as [-> Hs]. cbn [negb Z.eqb].
    rewrite write_binary_spec by (rewrite Hs; apply ecdh_range). by rewrite Hs.
  - by rewrite (proj2 (Z.eqb_neq _ _) Hs).
Qed.

(** [nearby_platform_GenSec256r1Secret] of gen_secret.c returns the ECDH
    secret of the point whose coordinates are the two halves of the remote key, as
    32 big-endian bytes, when that point is on the curve; without a private key, or
    for a point off the curve, it returns an error and leaves the output alone. *)
Theorem GenSec256r1Secret_ecdh private_key public_key output seed :
  let q := (be_value (take 32 public_key), be_value (take 32 (drop 32 public_key))) in
  let r := fst (mbed_GenSec256r1Secret private_key public_key output seed) in
  match private_key with
  | Some d =>
    r = if on_curve q
        then (kNearbyStatusOK, be_bytes 32 (ecdh q (be_value (take 32 d))))
        else (kNearbyStatusError, output)
  | None => r = (kNearbyStatusError, output)
  end.
Proof. apply GenSec256r1Secret_spec. Qed.

(** The bytes [crypto_rand] produces are never 255: the generator is reduced
    modulo UINT8_MAX. *)
Lemma crypto_rand_below_255 size seed :
  (forall s, 0 <= fst (rand s)) ->
  Forall (fun b => 0 <= b < 255) (fst (crypto_rand size seed)).
Proof.
  intros Hr. revert seed. induction size as [|size IH]; intros seed; cbn; [constructor|].
  pose proof (Hr seed) as Hx. destruct (rand seed) as [x seed1]. cbn in Hx.
  pose proof (IH seed1) as H. destruct (crypto_rand size seed1) as [out seed2].
  constructor; [|done]. unfold UINT8_MAX, u8.
  pose proof (Z.rem_bound_pos x 255 Hx). rewrite Z.mod_small; lia.
Qed.

(** On a device whose secure element is mbedtls.c and gen_secret.c, the key
    agreement of the library gives the first 16 bytes of the SHA-256 of the ECDH
    secret, and fails for a remote key that is not a point of the curve. *)
Theorem CreateSharedSecret_mbedtls {S} base d public_key output
    (s : @sys (mbedtls_platform base (Some d)) S) :
  let q := (be_value (take 32 public_key), be_value (take 32 (drop 32 public_key))) in
  wp (P := mbedtls_platform base (Some d))
    (nearby_fp_CreateSharedSecret public_key output) (fun x _ =>
      x = if on_curve q
          then (kNearbyStatusOK,
                take 16 (lib_sha256 (be_bytes 32 (ecdh q (be_value (take 32 d))))))
          else (kNearbyStatusError, output)) s.
Proof.
  intros q. set (P := mbedtls_platform base (Some d)) in *.
  assert (fst (call (SE (GenSec256r1Secret public_key)) (env s))
    = if on_curve q
      then status_response kNearbyStatusOK (be_bytes 32 (ecdh q (be_value (take 32 d))))
      else status_response kNearbyStatusError []) as Hr.
  { unfold P, call, mbedtls_platform, mbed_call.
    pose proof (GenSec256r1Secret_spec (Some d) public_key [] (mw_rand _ (env s))) as H.
    cbn zeta iota in H. fold q in H.
    destruct (mbed_GenSec256r1Secret _ _ _ _) as [[x out] seed]. cbn [fst] in H.
    destruct (on_curve q); by injection H as -> ->. }
  eapply wp_mono; [apply (CreateSharedSecret_spec public_key output s)|].
  intros x s' [H _]. rewrite Hr in H. destruct (on_curve q);
    cbn [status_response resp_status resp_bytes] in H; [|by destruct H].
  rewrite fit_id in H by auto using be_bytes_ok, be_bytes_length. exact H.
Qed.

End MbedTheorems.

(** * A library that can be run: toy hash, cipher and curve *)

#[export] Instance test_mbedtls : Mbedtls := {|
  mbedtls_sha256_context := list Z;
  mbedtls_aes_context := list Z;
  mbedtls_mpi := Z;
  mbedtls_ecp_group := bool;
  rand_state := Z;
  mbedtls_sha256_init := fun c => c;
  mbedtls_sha256_free := fun _ => [];
  mbedtls_sha256_starts_ret := fun _ _ => (0, []);
  mbedtls_sha256_update_ret := fun c d => (0, c ++ d);
  mbedtls_sha256_finish_ret := fun c => (0, toy_sha256 c, c);
  mbedtls_aes_init := [];
  mbedtls_aes_setkey_enc := fun _ k _ => (0, k);
  mbedtls_aes_setkey_dec := fun _ k _ => (0, k);
  mbedtls_aes_crypt_ecb := fun k _ x => (0, toy_aes k x);
  mbedtls_mpi_init := 0;
  mbedtls_ecp_group_init := false;
  mbedtls_ecp_group_load := fun _ => (0, true);
  mbedtls_mpi_read_binary := fun _ b => (0, be_value b);
  mbedtls_mpi_write_binary := fun m n => (0, be_bytes n m);
  mbedtls_ecdh_compute_shared := fun _ _ q d _ s =>
    if fst q <? snd q then (0, (fst q * d) mod 256 ^ 32, s) else (-1, 0, s);
  rand := fun s => (s, s + 1);
|}.

#[export, program] Instance test_mbedtls_spec : MbedtlsSpec test_mbedtls := {|
  lib_sha256 := toy_sha256;
  lib_sha256_length := toy_sha256_length;
  lib_sha256_ok := toy_sha256_ok;
  absorbed := fun c : list Z => c;
  lib_aes := toy_aes;
  lib_aes_inv := toy_aes;
  lib_aes_length := toy_aes_length;
  lib_aes_ok := toy_aes_ok;
  lib_aes_inv_length := toy_aes_length;
  lib_aes_inv_ok := toy_aes_ok;
  lib_aes_inv_aes := toy_aes_inv;
|}.
Solve Obligations with done.

#[export, program] Instance test_ecdh_spec : EcdhSpec test_mbedtls := {|
  mpi_value := fun m : Z => m;
  loaded := fun g : bool => g = true;
  on_curve := fun q => fst q <? snd q;
  ecdh := fun q d => (fst q * d) mod 256 ^ 32;
|}.
Next Obligation. intros. apply Z.mod_pos_bound. lia. Qed.
Next Obligation. done. Qed.
Next Obligation. done. Qed.
Next Obligation.
  intros g z x y d f s Hg. cbn -[Z.pow Z.modulo]. by destruct (x <? y).
Qed.
Next Obligation. done. Qed.

(** Instances at a key on the toy curve. *)
Example GenSec256r1Secret_ecdh_witness :
  on_curve (be_value (replicate 32 1), be_value (replicate 32 2)) = true
  /\ fst (mbed_GenSec256r1Secret (Some (replicate 32 1))
       (replicate 32 1 ++ replicate 32 2) [] 0)
     = (kNearbyStatusOK, be_bytes 32 (ecdh
         (be_value (replicate 32 1), be_value (replicate 32 2))
         (be_value (replicate 32 1)))).
Proof.
  split; [reflexivity|].
  exact (GenSec256r1Secret_ecdh (Some (replicate 32 1)) (replicate 32 1 ++ replicate 32 2) [] 0).
Defined.

Definition mbed_sys : @sys (mbedtls_platform test_platform (Some (replicate 32 1))) unit :=
  @Sys (mbedtls_platform test_platform (Some (replicate 32 1))) unit tt
    (MbedWorld test_platform [] 0 test_world_0) [].

Example CreateSharedSecret_mbedtls_witness :
  wp (P := mbedtls_platform test_platform (Some (replicate 32 1)))
    (nearby_fp_CreateSharedSecret (replicate 32 1 ++ replicate 32 2) []) (fun x _ =>
      x = (kNearbyStatusOK,
           take 16 (toy_sha256 (be_bytes 32
             ((be_value (replicate 32 1) * be_value (replicate 32 1)) mod 256 ^ 32))))) mbed_sys.
Proof.
  exact (CreateSharedSecret_mbedtls test_platform (replicate 32 1)
    (replicate 32 1 ++ replicate 32 2) [] mbed_sys).
Defined.
