(* ===== verification/Advertisement.v ===== *)
(** The advertisements of src/embedded/common/source/nearby_fp_library.c: the
    discoverable and the non-discoverable payload, the Length|Type fields, the
    Bloom filter of the account keys, the SASS fields, and the raw key-based
    pairing response.

    A function that writes through a pointer into a larger array takes the array
    and the offset of the pointer; [nearby_fp_FindLtv] returns an offset. *)

From Stdlib Require Import ZArith Lia.
From stdpp Require Import base list numbers.
From S2P Require Import Prelude Utils Platform SecureElement TestPlatform Crypto AccountKeys.
Import Utils.

Definition SASS_HEADER : Z := 0x10.
Definition HEADER_OFFSET : nat := 4.
Definition ACCOUNT_KEY_DATA_OFFSET : nat := 5.
Definition LTV_HEADER_SIZE : nat := 1.
Definition SHOW_PAIRING_INDICATION_BYTE : Z := 0.
Definition DONT_SHOW_PAIRING_INDICATION_BYTE : Z := 2.
Definition SHOW_BATTERY_INDICATION_BYTE : Z := 0x33.
Definition DONT_SHOW_BATTERY_INDICATION_BYTE : Z := 0x34.
Definition BATTERY_INFO_CHARGING : Z := Z.shiftl 1 7.
Definition BATTERY_INFO_NOT_CHARGING : Z := 0.
Definition BATTERY_LEVEL_MASK : Z := 0x7F.
Definition SALT_FIELD_LENGTH_AND_TYPE_BYTE : Z :=
  Z.lor (Z.shiftl (Z.of_nat NEARBY_FP_SALT_SIZE) 4) 1.
Definition BATTERY_INFO_SIZE_BYTES : nat := 4.
Definition KEY_BASED_PAIRING_RESPONSE_FLAG : Z := 0x01.
Definition KEY_BASED_PAIRING_EXTENDED_RESPONSE_FLAG : Z := 0x02.
Definition GAP_DATA_TYPE_SERVICE_DATA_UUID : Z := 0x16.
Definition FP_SERVICE_UUID : Z := 0xFE2C.
Definition GAP_DATA_TYPE_TX_POWER_LEVEL_UUID : Z := 0x0A.
Definition TX_POWER_DATA_SIZE : nat := 2.
Definition SASS_HEADER_SIZE : nat := 1.
Definition MIN_SASS_ADERTISEMENT_SIZE : nat := 3.
Definition SASS_CONN_STATE_ON_HEAD_OFFSET : Z := 7.
Definition SASS_CONN_STATE_AVAIL_OFFSET : Z := 6.
Definition SASS_CONN_STATE_FOCUS_OFFSET : Z := 5.
Definition SASS_CONN_STATE_AUTO_RECONNECTED_OFFSET : Z := 4.
Definition SASS_CONN_STATE_MASK : Z := 0x0F.
Definition MOST_RECENTLY_USED_ACCOUNT_KEY_BIT : Z := 0x01.
Definition IN_USE_ACCOUNT_KEY_BIT : Z := 0x02.
Definition SASS_CF_ON_OFFSET : Z := 15.
Definition SASS_CF_MULTIPOINT_CONFIGURABLE : Z := 14.
Definition SASS_CF_MULTIPOINT_ON : Z := 13.
Definition SASS_CF_OHD_SUPPORTED : Z := 12.
Definition SASS_CF_OHD_ENABLED : Z := 11.
Definition BT_ADDRESS_LENGTH : nat := 6.
Definition DISCOVERABLE_ADV_SIZE_BYTES : nat := 10.
Definition NON_DISCOVERABLE_ADV_SIZE_BYTES {C : Config} : nat :=
  if NEARBY_FP_ENABLE_SASS then 32 else 25.
Definition ADDITIONAL_DATA_HEADER_SIZE : nat := 16.
Definition RRF_HEADER_SIZE : nat := 1.
Definition SALT_FIELD_TYPE : Z := 1.
Definition BATTERY_INFO_WITH_UI_INDICATION_FIELD_TYPE : Z := 3.
Definition BATTERY_INFO_WITHOUT_UI_INDICATION_FIELD_TYPE : Z := 4.
Definition SASS_ADVERTISEMENT_FIELD_TYPE : Z := 5.
Definition RANDOM_RESOLVABLE_FIELD_TYPE : Z := 6.

(** * Length|Type fields *)

Definition GetLtLength (value : Z) : Z := Z.shiftr value 4.
Definition GetLtType (value : Z) : Z := Z.land value 0x0F.
Definition combineNibbles (high low : Z) : Z :=
  Z.lor (Z.land (Z.shiftl high 4) 0xF0) (Z.land low 0x0F).

(** The offset grows in every iteration, so that the loop runs at most
    [advertisement_length] times. *)
Fixpoint FindLtv_loop (fuel : nat) (advertisement : list Z)
    (offset advertisement_length : nat) (type : Z) : outcome (option nat) :=
  if (offset <? advertisement_length)%nat then
    match fuel with
    | O => Fault
    | S fuel' =>
      let! b := load advertisement offset in
      if type =? GetLtType b then Done (Some offset)
      else FindLtv_loop fuel' advertisement
             (offset + (Z.to_nat (GetLtLength b) + LTV_HEADER_SIZE))
             advertisement_length type
    end
  else Done None.

Definition nearby_fp_FindLtv (advertisement : list Z) (type : Z)
  : outcome (option nat) :=
  let! len := load advertisement 0 in
  FindLtv_loop (Z.to_nat len) advertisement ACCOUNT_KEY_DATA_OFFSET (Z.to_nat len) type.

Definition FindBatteryInfoLt (advertisement : list Z) : outcome (option nat) :=
  let! battery_info :=
    nearby_fp_FindLtv advertisement BATTERY_INFO_WITH_UI_INDICATION_FIELD_TYPE in
  match (battery_info : option nat) with
  | None => nearby_fp_FindLtv advertisement BATTERY_INFO_WITHOUT_UI_INDICATION_FIELD_TYPE
  | Some _ => Done battery_info
  end.

(** * Battery *)

Definition SerializeBatteryInfo (output : list Z) (off : nat)
    (battery_info : nearby_platform_BatteryInfo) : outcome (list Z) :=
  let charging := if is_charging battery_info then BATTERY_INFO_CHARGING
                  else BATTERY_INFO_NOT_CHARGING in
  let level l := Z.lor charging (Z.land l BATTERY_LEVEL_MASK) in
  let! output := store output off (level (left_bud_battery_level battery_info)) in
  let! output := store output (off + 1) (level (right_bud_battery_level battery_info)) in
  store output (off + 2) (level (charging_case_battery_level battery_info)).

Definition AddBatteryInfo (output : list Z) (off len : nat) (show_ui_indicator : bool)
    (battery_info : nearby_platform_BatteryInfo) : outcome (list Z) :=
  do! nearby_assert (BATTERY_INFO_SIZE_BYTES <=? len)%nat in
  let! output := store output off
    (if show_ui_indicator then SHOW_BATTERY_INDICATION_BYTE
     else DONT_SHOW_BATTERY_INDICATION_BYTE) in
  SerializeBatteryInfo output (off + 1) battery_info.

Section Advertisement.
Context {C : Config} {P : Platform} {S : Type}.

(** * Payloads *)

(** The functions return the written buffer and the length of the payload. *)
Definition nearby_fp_CreateDiscoverableAdvertisement (output : list Z) (len : nat)
  : M S (list Z * nat) :=
  do! lift (nearby_assert (DISCOVERABLE_ADV_SIZE_BYTES <=? len)%nat) in
  let! output := lift (store output 0
    (1 + Z.of_nat FP_SERVICE_UUID_SIZE + Z.of_nat FP_MODEL_ID_SIZE)) in
  let! output := lift (store output 1 GAP_DATA_TYPE_SERVICE_DATA_UUID) in
  let! output := lift (nearby_utils_CopyLittleEndian output 2 FP_SERVICE_UUID
    FP_SERVICE_UUID_SIZE) in
  let i := (2 + FP_SERVICE_UUID_SIZE)%nat in
  let! model := nearby_platform_GetModelId in
  let! output := lift (nearby_utils_CopyBigEndian output i model FP_MODEL_ID_SIZE) in
  mret (output, (i + FP_MODEL_ID_SIZE)%nat).

(** Size of the Bloom filter for [n] keys. *)
Definition filter_size (n : Z) : Z := (6 * n + 15) / 5.

Definition CreateNondiscoverableAdvertisement (l : AccountKeyList)
    (output : list Z) (len : nat) (show_pairing_indicator show_battery_indicator : bool)
    (battery_info : option nearby_platform_BatteryInfo) : M S (list Z * nat) :=
  let kHeaderSize := (FP_SERVICE_UUID_SIZE + 2)%nat in
  do! lift (nearby_assert (kHeaderSize <=? len)%nat) in
  let! salt := uninit NEARBY_FP_SALT_SIZE in
  let! output := lift (store output 1 GAP_DATA_TYPE_SERVICE_DATA_UUID) in
  let! output := lift (nearby_utils_CopyLittleEndian output 2 FP_SERVICE_UUID
    FP_SERVICE_UUID_SIZE) in
  let! salt := rand_fill NEARBY_FP_SALT_SIZE 0 salt in
  let! n := lift (nearby_fp_GetUniqueAccountKeyCount l) in
  let! ' (output, i) :=
    if n =? 0 then
      do! lift (nearby_assert (4 + 2 <=? len)%nat) in
      let! output := lift (store output 4 0) in
      let! output := lift (store output 5 0) in
      mret (output, 6%nat)
    else
      let s := Z.to_nat (filter_size n) in
      let kAccountKeyDataSize := (s + (3 + NEARBY_FP_SALT_SIZE))%nat in
      do! lift (nearby_assert (4 + kAccountKeyDataSize <=? len)%nat) in
      let! output :=
        match battery_info with
        | Some b =>
          let battery_chunk_offset := Z.to_nat (u8 (4 + Z.of_nat kAccountKeyDataSize)) in
          lift (AddBatteryInfo output battery_chunk_offset (len - battery_chunk_offset)
                  show_battery_indicator b)
        | None => mret output
        end in
      let! output := lift (store output 4 0) in
      let! output := lift (store output 5 (combineNibbles (filter_size n)
        (if show_pairing_indicator then SHOW_PAIRING_INDICATION_BYTE
         else DONT_SHOW_PAIRING_INDICATION_BYTE))) in
      let! output := lift (write_bytes output 6 (replicate s 0)) in
      let! output := lift (store output (6 + s) SALT_FIELD_LENGTH_AND_TYPE_BYTE) in
      let! output := lift (write_bytes output (7 + s) salt) in
      let i := (7 + s + NEARBY_FP_SALT_SIZE)%nat in
      mret (output, match battery_info with
                    | Some _ => (i + BATTERY_INFO_SIZE_BYTES)%nat
                    | None => i
                    end) in
  let! output := lift (store output 0 (Z.of_nat i - 1)) in
  mret (output, i).

Definition nearby_fp_CreateNondiscoverableAdvertisement (l : AccountKeyList)
    (output : list Z) (len : nat) (show_pairing_indicator : bool) : M S (list Z * nat) :=
  CreateNondiscoverableAdvertisement l output len show_pairing_indicator false None.

Definition nearby_fp_CreateNondiscoverableAdvertisementWithBattery (l : AccountKeyList)
    (output : list Z) (len : nat) (show_pairing_indicator show_battery_indicator : bool)
    (battery_info : option nearby_platform_BatteryInfo) : M S (list Z * nat) :=
  CreateNondiscoverableAdvertisement l output len show_pairing_indicator
    show_battery_indicator battery_info.

(** * The Bloom filter *)

(** Calls of [nearby_platform_Sha256Update], the results of which the code
    ignores. *)
Fixpoint sha_updates (parts : list (list Z)) : M S unit :=
  match parts with
  | [] => mret tt
  | p :: ps => do! nearby_platform_Sha256Update p in sha_updates ps
  end.

(** [for (j = 0; j < 8; j++)]: the bits one hash selects. *)
Fixpoint set_filter_bits (k j : nat) (advertisement sha_buffer : list Z) (s : Z)
  : outcome (list Z) :=
  match k with
  | O => Done advertisement
  | Datatypes.S k' =>
    let! x := nearby_utils_GetBigEndian32 sha_buffer (4 * j) in
    let m := x mod (s * 8) in
    let i := (ACCOUNT_KEY_DATA_OFFSET + LTV_HEADER_SIZE + Z.to_nat (m / 8))%nat in
    let! b := load advertisement i in
    let! advertisement := store advertisement i (Z.lor b (Z.shiftl 1 (m mod 8))) in
    set_filter_bits k' (Datatypes.S j) advertisement sha_buffer s
  end.

(** The first byte of the [k]-th key as it is hashed. *)
Definition key_flags (use_sass_format : bool) (in_use_key : option (list Z)) (k : nat)
    (key : list Z) : outcome Z :=
  let! flags := load key 0 in
  Done (if use_sass_format then
          match in_use_key with
          | Some u => if bytes_eqb key u then Z.lor flags IN_USE_ACCOUNT_KEY_BIT else flags
          | None => if (k =? 0)%nat then Z.lor flags MOST_RECENTLY_USED_ACCOUNT_KEY_BIT
                    else flags
          end
        else flags).

(** An optional field with its header byte. *)
Definition field_with_header (advertisement : list Z) (field : option nat)
  : outcome (list Z) :=
  match field with
  | None => Done []
  | Some off =>
    let! b := load advertisement off in
    read_bytes advertisement off (Z.to_nat (GetLtLength b) + LTV_HEADER_SIZE)
  end.

(** [for (k = k; k < n; k++)], [r] iterations left. *)
Fixpoint SetBloomFilter_loop (r k : nat) (key_offset : Z) (l : AccountKeyList)
    (advertisement : list Z) (use_sass_format : bool) (in_use_key : option (list Z))
    (salt_field : nat) (battery_info_field random_resolvable_field : option nat)
    (s : Z) : M S (list Z) :=
  match r with
  | O => mret advertisement
  | Datatypes.S r' =>
    let! key_offset := lift (nearby_fp_GetNextUniqueAccountKeyIndex l key_offset) in
    let key_offset := u32 key_offset in
    let! info := lift (nearby_fp_GetAccountKey l key_offset) in
    let key := account_key info in
    let! flags := lift (key_flags use_sass_format in_use_key k key) in
    let! salt_header := lift (load advertisement salt_field) in
    let! salt := lift (read_bytes advertisement (salt_field + LTV_HEADER_SIZE)
      (Z.to_nat (GetLtLength salt_header))) in
    let! battery := lift (field_with_header advertisement battery_info_field) in
    let! rrf := lift (field_with_header advertisement random_resolvable_field) in
    do! nearby_platform_Sha256Start in
    do! sha_updates [[u8 flags]; drop 1 key; salt; battery; rrf] in
    let! ' (_, sha_buffer) := nearby_platform_Sha256Finish in
    let! advertisement := lift (set_filter_bits 8 0 advertisement sha_buffer s) in
    SetBloomFilter_loop r' (Datatypes.S k) (u32 (key_offset + 1)) l advertisement
      use_sass_format in_use_key salt_field battery_info_field random_resolvable_field s
  end.

Definition nearby_fp_SetBloomFilter (l : AccountKeyList) (advertisement : list Z)
    (use_sass_format : bool) (in_use_key : option (list Z)) : M S (list Z * Z) :=
  let! filter_lt := lift (load advertisement ACCOUNT_KEY_DATA_OFFSET) in
  if filter_lt =? 0 then mret (advertisement, 0) else
  let! salt_field := lift (nearby_fp_FindLtv advertisement SALT_FIELD_TYPE) in
  match (salt_field : option nat) with
  | None => lift Crash
  | Some salt_field =>
    let! battery_info_field := lift (FindBatteryInfoLt advertisement) in
    let! random_resolvable_field :=
      lift (nearby_fp_FindLtv advertisement RANDOM_RESOLVABLE_FIELD_TYPE) in
    let! n := lift (nearby_fp_GetUniqueAccountKeyCount l) in
    let s := filter_size n in
    do! lift (nearby_assert (s =? GetLtLength filter_lt)) in
    let! advertisement := lift (write_bytes advertisement
      (ACCOUNT_KEY_DATA_OFFSET + LTV_HEADER_SIZE) (replicate (Z.to_nat s) 0)) in
    let! advertisement := SetBloomFilter_loop (Z.to_nat n) 0 0 l advertisement
      use_sass_format in_use_key salt_field battery_info_field random_resolvable_field s in
    let! advertisement :=
      if use_sass_format then lift (store advertisement HEADER_OFFSET SASS_HEADER)
      else mret advertisement in
    mret (advertisement, s)
  end.

Definition nearby_fp_AppendTxPower (advertisement : list Z) (off len : nat)
    (tx_power : Z) : outcome (list Z * nat) :=
  do! nearby_assert (1 + TX_POWER_DATA_SIZE <=? len)%nat in
  let! advertisement := store advertisement off (Z.of_nat TX_POWER_DATA_SIZE) in
  let! advertisement := store advertisement (off + 1) GAP_DATA_TYPE_TX_POWER_LEVEL_UUID in
  let! advertisement := store advertisement (off + 2) tx_power in
  Done (advertisement, 3%nat).

(** * GATT *)

(** Status, output, new value of [*length]. *)
Definition nearby_fp_GattReadModelId (output : list Z) (len : nat)
  : M S (nearby_platform_status * list Z * nat) :=
  do! lift (nearby_assert (FP_MODEL_ID_SIZE <=? len)%nat) in
  let! model := nearby_platform_GetModelId in
  let! output := lift (nearby_utils_CopyBigEndian output 0 model FP_MODEL_ID_SIZE) in
  mret (kNearbyStatusOK, output, FP_MODEL_ID_SIZE).

Definition response_flags : Z :=
  Z.lor (Z.lor (if NEARBY_FP_BLE_ONLY then 0x80 else 0)
               (if NEARBY_FP_PREFER_BLE_BONDING then 0x40 else 0))
        (if NEARBY_FP_PREFER_LE_TRANSPORT then 0x20 else 0).

Definition nearby_fp_CreateRawKeybasedPairingResponse (output : list Z)
    (extended_response : bool) : M S (nearby_platform_status * list Z) :=
  let! ' (output, i, secondary_address) :=
    if extended_response then
      let! secondary_address := nearby_platform_GetSecondaryPublicAddress in
      let! output := lift (store output 0 KEY_BASED_PAIRING_EXTENDED_RESPONSE_FLAG) in
      let! output := lift (store output 1 response_flags) in
      let! output := lift (store output 2 (if negb (secondary_address =? 0) then 2 else 1)) in
      mret (output, 3%nat, secondary_address)
    else
      let! output := lift (store output 0 KEY_BASED_PAIRING_RESPONSE_FLAG) in
      mret (output, 1%nat, 0) in
  let! address := nearby_platform_GetPublicAddress in
  let! output := lift (nearby_utils_CopyBigEndian output i address BT_ADDRESS_LENGTH) in
  let i := (i + BT_ADDRESS_LENGTH)%nat in
  let! ' (output, i) :=
    if negb (secondary_address =? 0) then
      let! output := lift (nearby_utils_CopyBigEndian output i secondary_address
        BT_ADDRESS_LENGTH) in
      mret (output, (i + BT_ADDRESS_LENGTH)%nat)
    else mret (output, i) in
  let! output := rand_fill (AES_MESSAGE_SIZE_BYTES - i) i output in
  mret (kNearbyStatusOK, output).

(** * SASS *)

Definition BOOL_TO_INT (x : bool) : Z := if x then 1 else 0.

Definition nearby_fp_GetSassConnectionState : M S Z :=
  let! on_head := nearby_platform_OnHead in
  let! available := nearby_platform_CanAcceptConnection in
  let! focus := nearby_platform_InFocusMode in
  let! auto := nearby_platform_AutoReconnected in
  let! state := nearby_platform_GetAudioConnectionState in
  mret (u8 (Z.lor (Z.lor (Z.lor (Z.lor
    (Z.shiftl (BOOL_TO_INT on_head) SASS_CONN_STATE_ON_HEAD_OFFSET)
    (Z.shiftl (BOOL_TO_INT available) SASS_CONN_STATE_AVAIL_OFFSET))
    (Z.shiftl (BOOL_TO_INT focus) SASS_CONN_STATE_FOCUS_OFFSET))
    (Z.shiftl (BOOL_TO_INT auto) SASS_CONN_STATE_AUTO_RECONNECTED_OFFSET))
    (Z.land state SASS_CONN_STATE_MASK))).

Definition nearby_fp_GenerateSassAdvertisement (advertisement : list Z) (off len : nat)
    (connection_state custom_data : Z) (devices_bitmap : list Z)
  : outcome (list Z * nat) :=
  let advert_size := (MIN_SASS_ADERTISEMENT_SIZE + length devices_bitmap)%nat in
  do! nearby_assert (advert_size <=? len)%nat in
  let! advertisement := store advertisement off
    (combineNibbles (Z.of_nat advert_size - Z.of_nat SASS_HEADER_SIZE)
       SASS_ADVERTISEMENT_FIELD_TYPE) in
  let! advertisement := store advertisement (off + 1) connection_state in
  let! advertisement := store advertisement (off + 2) custom_data in
  let! advertisement := write_bytes advertisement (off + 3) devices_bitmap in
  Done (advertisement, advert_size).

(** [salt_field] is an offset in the same advertisement. *)
Definition nearby_fp_EncryptRandomResolvableField (advertisement : list Z)
    (off len : nat) (key : list Z) (salt_field : option nat)
  : M S (nearby_platform_status * list Z) :=
  do! lift (nearby_assert (len <=? AES_MESSAGE_SIZE_BYTES + RRF_HEADER_SIZE)%nat) in
  let! rrd_key := uninit AES_MESSAGE_SIZE_BYTES in
  let iv := replicate AES_MESSAGE_SIZE_BYTES 0 in
  let! iv :=
    match salt_field with
    | Some f =>
      let! b := lift (load advertisement f) in
      let! salt := lift (read_bytes advertisement (f + LTV_HEADER_SIZE)
        (Z.to_nat (GetLtLength b))) in
      lift (write_bytes iv 0 salt)
    | None => mret iv
    end in
  let! ' (status, rrd_key) := GetRrdKey rrd_key key in
  if negb (status_ok status) then mret (status, advertisement) else
  let! ' (status, iv) := nearby_platform_Aes128Encrypt iv rrd_key in
  if negb (status_ok status) then mret (status, advertisement) else
  let! advertisement := lift (store advertisement off
    (combineNibbles (Z.of_nat len - Z.of_nat RRF_HEADER_SIZE) RANDOM_RESOLVABLE_FIELD_TYPE)) in
  let! advertisement := lift (xor_loop (len - RRF_HEADER_SIZE) 0 (off + RRF_HEADER_SIZE)
    advertisement iv) in
  mret (kNearbyStatusOK, advertisement).

Definition nearby_fp_GetSassCapabilityFlags : M S Z :=
  let! on := nearby_platform_IsSassOn in
  let! mp_conf := nearby_platform_IsMultipointConfigurable in
  let! mp_on := nearby_platform_IsMultipointOn in
  let! ohd_s := nearby_platform_IsOnHeadDetectionSupported in
  let! ohd_e := nearby_platform_IsOnHeadDetectionEnabled in
  mret (u16 (Z.lor (Z.lor (Z.lor (Z.lor
    (Z.shiftl (BOOL_TO_INT on) SASS_CF_ON_OFFSET)
    (Z.shiftl (BOOL_TO_INT mp_conf) SASS_CF_MULTIPOINT_CONFIGURABLE))
    (Z.shiftl (BOOL_TO_INT mp_on) SASS_CF_MULTIPOINT_ON))
    (Z.shiftl (BOOL_TO_INT ohd_s) SASS_CF_OHD_SUPPORTED))
    (Z.shiftl (BOOL_TO_INT ohd_e) SASS_CF_OHD_ENABLED))).

End Advertisement.

(** * Specification *)

(** A Length|Type field: type and payload. *)
Definition field : Type := Z * list Z.
Definition field_bytes (f : field) : list Z :=
  (16 * Z.of_nat (length (snd f)) + fst f) :: snd f.
Definition fields_bytes (fs : list field) : list Z := concat (field_bytes <$> fs).

(** The type and the length fit their nibbles; there is a payload. *)
Definition field_ok (f : field) : Prop :=
  0 <= fst f < 16 /\ (1 <= length (snd f) <= 15)%nat.

(** Offset of the first field of type [t], the fields starting at [off]. *)
Fixpoint find_field (fs : list field) (t : Z) (off : nat) : option nat :=
  match fs with
  | [] => None
  | f :: fs => if t =? fst f then Some off
               else find_field fs t (off + S (length (snd f)))
  end.

(** Fast Pair service data: length, data type, UUID, flags, fields. *)
Definition service_data (flags : Z) (fs : list field) : list Z :=
  (Z.of_nat (length (fields_bytes fs)) + 4)
  :: [GAP_DATA_TYPE_SERVICE_DATA_UUID; 0x2C; 0xFE; flags] ++ fields_bytes fs.

Definition battery_levels (b : nearby_platform_BatteryInfo) : list Z :=
  let charging := if is_charging b then 128 else 0 in
  [Z.lor charging (Z.land (left_bud_battery_level b) 127);
   Z.lor charging (Z.land (right_bud_battery_level b) 127);
   Z.lor charging (Z.land (charging_case_battery_level b) 127)].

(** The fields of a non-discoverable advertisement. *)
Definition nondiscoverable_fields (filter salt : list Z) (show_pairing show_battery : bool)
    (battery_info : option nearby_platform_BatteryInfo) : list field :=
  [(if show_pairing then 0 else 2, filter); (1, salt)]
  ++ match battery_info with
     | Some b => [(if show_battery then 3 else 4, battery_levels b)]
     | None => []
     end.

(** * Lemmas *)

Lemma lt_header n t :
  0 <= t < 16 -> (n <= 15)%nat ->
  GetLtLength (16 * Z.of_nat n + t) = Z.of_nat n /\ GetLtType (16 * Z.of_nat n + t) = t.
Proof.
  intros Ht Hn. unfold GetLtLength, GetLtType. rewrite shiftr_4, land_15.
  Z.to_euclidean_division_equations. lia.
Qed.

Lemma combineNibbles_spec h t :
  0 <= h < 16 -> 0 <= t < 16 -> combineNibbles h t = 16 * h + t.
Proof.
  intros Hh Ht. unfold combineNibbles. rewrite land_15, (Z.mod_small t 16) by lia.
  assert (Z.land (Z.shiftl h 4) 240 = Z.shiftl h 4) as ->.
  { change 240 with (Z.shiftl 15 4). rewrite <- Z.shiftl_land, land_15. f_equal.
    apply Z.mod_small. lia. }
  by rewrite lor_shiftl_low by lia.
Qed.

Lemma field_bytes_length f : length (field_bytes f) = S (length (snd f)).
Proof. done. Qed.

Lemma fields_bytes_cons f fs : fields_bytes (f :: fs) = field_bytes f ++ fields_bytes fs.
Proof. done. Qed.

Lemma FindLtv_loop_spec fs fuel adv off len t rest :
  Forall field_ok fs -> drop off adv = fields_bytes fs ++ rest ->
  (len + 1 = off + length (fields_bytes fs))%nat -> (length fs <= fuel)%nat ->
  FindLtv_loop fuel adv off len t = Done (find_field fs t off).
Proof.
  intros Hfs. revert fuel off. induction Hfs as [|f fs Hf Hfs IH]; intros fuel off Hd Hl Hu.
  { cbn in Hl. assert (off <? len = false)%nat as E by (apply Nat.ltb_ge; lia).
    destruct fuel; cbn [FindLtv_loop]; by rewrite E. }
  destruct Hf as [Ht Hp]. destruct fuel as [|fuel]; [cbn in Hu; lia|].
  rewrite fields_bytes_cons in Hd, Hl. rewrite length_app, field_bytes_length in Hl.
  cbn [FindLtv_loop length] in *. rewrite (proj2 (Nat.ltb_lt off len)) by lia.
  assert (load adv off = Done (16 * Z.of_nat (length (snd f)) + fst f)) as ->.
  { apply load_done. rewrite <- (Nat.add_0_r off), <- lookup_drop, Hd. done. }
  rewrite done_bind. destruct (lt_header (length (snd f)) (fst f) Ht) as [-> ->]; [lia|].
  cbn [find_field]. destruct (t =? fst f); [done|]. rewrite Nat2Z.id.
  unfold LTV_HEADER_SIZE. rewrite Nat.add_1_r. apply IH; [|lia|lia].
  rewrite <- drop_drop, Hd, <- app_assoc, drop_app_length'; [done|]. by rewrite field_bytes_length.
Qed.

Lemma length_fields_bytes fs : Forall field_ok fs -> (2 * length fs <= length (fields_bytes fs))%nat.
Proof.
  induction 1 as [|f fs [_ Hf] _ IH]; [done|]. rewrite fields_bytes_cons, length_app, field_bytes_length.
  cbn. lia.
Qed.

Lemma FindLtv_spec flags fs rest t :
  Forall field_ok fs -> fs <> [] ->
  nearby_fp_FindLtv (service_data flags fs ++ rest) t = Done (find_field fs t 5).
Proof.
  intros Hfs Hne. unfold nearby_fp_FindLtv, service_data.
  set (n := Z.of_nat (length (fields_bytes fs)) + 4). cbn [app load lookup list_lookup].
  rewrite done_bind. pose proof (length_fields_bytes fs Hfs).
  eapply FindLtv_loop_spec; [done|reflexivity|unfold ACCOUNT_KEY_DATA_OFFSET, n; lia|].
  unfold n. lia.
Qed.

(** ** Writing at the end of a known prefix *)
Lemma store_at pre x rest i v :
  i = length pre -> store (pre ++ x :: rest) i v = Done (pre ++ u8 v :: rest).
Proof. intros ->. apply store_app. Qed.

Lemma write_at pre mid rest i src :
  i = length pre -> length src = length mid ->
  write_bytes (pre ++ mid ++ rest) i src = Done (pre ++ src ++ rest).
Proof. intros -> H. by apply write_bytes_app. Qed.

Lemma copy_be_at pre mid rest i v n :
  i = length pre -> length mid = n ->
  nearby_utils_CopyBigEndian (pre ++ mid ++ rest) i v n = Done (pre ++ be_bytes n v ++ rest).
Proof.
  intros -> Hm. rewrite CopyBigEndian_spec by (rewrite !length_app; lia).
  apply write_at; [done|]. by rewrite be_bytes_length.
Qed.

Lemma land_127 x : 0 <= Z.land x 127 < 128.
Proof. change 127 with (Z.ones 7). rewrite Z.land_ones by lia. apply Z.mod_pos_bound. lia. Qed.

Lemma battery_levels_ok b : bytes_ok (battery_levels b).
Proof.
  assert (forall c x, c = 128 \/ c = 0 -> is_byte (Z.lor c (Z.land x 127))) as H.
  { intros c x [-> | ->]; pose proof (land_127 x).
    - change 128 with (Z.shiftl 1 7). rewrite lor_shiftl_low by lia. unfold is_byte. lia.
    - rewrite Z.lor_0_l. unfold is_byte. lia. }
  unfold battery_levels. repeat constructor; apply H; destruct (is_charging b); auto.
Qed.

Lemma AddBatteryInfo_spec pre b0 b1 b2 b3 rest off len show b :
  off = length pre -> (4 <= len)%nat ->
  AddBatteryInfo (pre ++ b0 :: b1 :: b2 :: b3 :: rest) off len show b
  = Done (pre ++ field_bytes (if show then 3 else 4, battery_levels b) ++ rest).
Proof.
  intros -> Hl. unfold AddBatteryInfo, BATTERY_INFO_SIZE_BYTES.
  rewrite (proj2 (Nat.leb_le 4 len) Hl). cbn [nearby_assert]. rewrite done_bind.
  rewrite (store_at pre b0) by done. rewrite done_bind. unfold SerializeBatteryInfo.
  pose proof (battery_levels_ok b) as Hb. unfold battery_levels in Hb.
  inversion Hb as [|? ? H1 Hb1]; subst. inversion Hb1 as [|? ? H2 Hb2]; subst.
  inversion Hb2 as [|? ? H3 _]; subst. clear Hb Hb1 Hb2.
  set (h := u8 (if show then _ else _)).
  assert (h = 16 * Z.of_nat 3 + (if show then 3 else 4)) as Hh by (by destruct show).
  change (pre ++ h :: b1 :: b2 :: b3 :: rest) with (pre ++ [h] ++ b1 :: b2 :: b3 :: rest).
  rewrite app_assoc, (store_at (pre ++ [h]) b1) by (rewrite length_app; cbn; lia).
  rewrite done_bind.
  match goal with |- context [u8 ?v :: b2 :: _] => set (v1 := u8 v) end.
  change ((pre ++ [h]) ++ v1 :: b2 :: b3 :: rest) with ((pre ++ [h]) ++ [v1] ++ b2 :: b3 :: rest).
  rewrite app_assoc, (store_at ((pre ++ [h]) ++ [v1]) b2) by (rewrite !length_app; cbn; lia).
  rewrite done_bind.
  match goal with |- context [u8 ?v :: b3 :: _] => set (v2 := u8 v) end.
  change (((pre ++ [h]) ++ [v1]) ++ v2 :: b3 :: rest)
    with (((pre ++ [h]) ++ [v1]) ++ [v2] ++ b3 :: rest).
  rewrite app_assoc, (store_at (((pre ++ [h]) ++ [v1]) ++ [v2]) b3) by (rewrite !length_app; cbn; lia).
  f_equal. rewrite <- !app_assoc. unfold field_bytes, battery_levels. cbn [app snd fst length].
  rewrite <- Hh. unfold v1, v2. change BATTERY_LEVEL_MASK with 127.
  change BATTERY_INFO_CHARGING with 128. change BATTERY_INFO_NOT_CHARGING with 0.
  by rewrite !u8_id.
Qed.

(** A buffer cut at the positions a non-discoverable advertisement uses. *)
Lemma cut_buffer (output : list Z) (s k : nat) :
  (9 + s + k <= length output)%nat ->
  exists x0 x1 x2 x3 x4 x5 ms y0 y1 y2 bt tl,
    output = [x0; x1; x2; x3; x4; x5] ++ ms ++ [y0; y1; y2] ++ bt ++ tl
    /\ length ms = s /\ length bt = k /\ tl = drop (9 + s + k) output.
Proof.
  intros H. destruct output as [|x0 [|x1 [|x2 [|x3 [|x4 [|x5 o]]]]]]; cbn in H; try lia.
  assert (length (take 3 (drop s o)) = 3)%nat as H3 by (rewrite length_take, length_drop; lia).
  destruct (take 3 (drop s o)) as [|y0 [|y1 [|y2 []]]] eqn:E3; try done.
  exists x0, x1, x2, x3, x4, x5, (take s o), y0, y1, y2, (take k (drop (3 + s) o)), (drop (3 + s + k) o).
  split; [|split; [rewrite length_take; lia|split; [rewrite length_take, length_drop; lia|]]].
  - cbn [app]. do 6 f_equal. change (y0 :: y1 :: y2 :: ?r) with ([y0; y1; y2] ++ r). rewrite <- E3.
    replace (drop (3 + s + k) o) with (drop k (drop (3 + s) o)) by (rewrite drop_drop; f_equal; lia).
    rewrite take_drop. replace (drop (3 + s) o) with (drop 3 (drop s o)) by (rewrite drop_drop; f_equal; lia).
    by rewrite !take_drop.
  - replace (9 + s + k)%nat with (6 + (3 + s + k))%nat by lia. done.
Qed.

Lemma filter_size_range n : 1 <= n <= 5 -> 4 <= filter_size n <= 9.
Proof. intros. unfold filter_size. Z.to_euclidean_division_equations. lia. Qed.

Section Layout.
Context {C : Config} {P : Platform} {S : Type}.

(** Number of distinct keys. *)
Definition unique_count (l : AccountKeyList) : nat := length (remove_dups (key_bytes l)).

Lemma unique_count_pos l : list_ok l -> 0 < num_keys l -> (1 <= unique_count l <= 5)%nat.
Proof.
  intros Hok Hn. split; [|by apply unique_count_le]. unfold unique_count.
  pose proof (key_bytes_length l Hok) as Hl. destruct (key_bytes l) as [|k ks] eqn:E; [cbn in Hl; lia|].
  destruct (remove_dups (k :: ks)) eqn:E2; [|cbn; lia].
  exfalso. apply (not_elem_of_nil k). rewrite <- E2. apply elem_of_remove_dups, list_elem_of_here.
Qed.

(** Filter size for the keys of [l]. *)
Definition key_filter_size (l : AccountKeyList) : nat :=
  Z.to_nat (filter_size (Z.of_nat (unique_count l))).

Definition nondiscoverable_size (l : AccountKeyList)
    (battery_info : option nearby_platform_BatteryInfo) : nat :=
  9 + key_filter_size l + match battery_info with Some _ => 4 | None => 0 end.

Lemma rand_salt_effects salt :
  length salt = 2%nat -> bytes_ok salt ->
  effects is_se (rand_fill (S:=S) 2 0 salt) (fun d => length d = 2%nat /\ bytes_ok d).
Proof.
  intros Hl Hb. eapply effects_mono; [apply rand_fill_effects; [done|lia]|done|].
  intros d (H1 & H2 & _). split; [lia|done].
Qed.

(** The battery field and its size, when there is battery information. *)
Definition battery_chunk (sb : bool) (bi : option nearby_platform_BatteryInfo) : list Z :=
  match bi with Some b => field_bytes (if sb then 3 else 4, battery_levels b) | None => [] end.
Definition battery_chunk_size (bi : option nearby_platform_BatteryInfo) : nat :=
  match bi with Some _ => 4 | None => 0 end.

(** Adding the battery field behind the [9 + s] bytes of [pre]. *)
Lemma battery_chunk_effects s pre bt tl len sb bi :
  length pre = (9 + s)%nat -> (s <= 15)%nat -> length bt = battery_chunk_size bi ->
  (9 + s + battery_chunk_size bi <= len)%nat ->
  effects (S:=S) is_se
    match bi with
    | Some b =>
      let off := Z.to_nat (u8 (4 + Z.of_nat (s + (3 + 2)))) in
      lift (AddBatteryInfo (pre ++ bt ++ tl) off (len - off) sb b)
    | None => mret (pre ++ bt ++ tl)
    end (fun o => o = pre ++ battery_chunk sb bi ++ tl).
Proof.
  intros Hp Hs Hbt Hlen. destruct bi as [b|]; cbn [battery_chunk_size battery_chunk] in *; cbv zeta.
  - destruct bt as [|b0 [|b1 [|b2 [|b3 []]]]]; try done.
    replace (Z.to_nat (u8 (4 + Z.of_nat (s + (3 + 2))))) with (9 + s)%nat
      by (unfold u8; rewrite Z.mod_small; lia).
    eapply effects_lift; [|reflexivity]. apply AddBatteryInfo_spec; lia.
  - apply effects_ret. by destruct bt.
Qed.

(** Writing flags, filter and salt in front of [rest]. *)
Lemma key_data_effects {B} x0 x4 x5 ms y0 y1 y2 rest s salt (sp : bool) (k : list Z -> M S B) R :
  length ms = s -> length salt = 2%nat -> (s <= 15)%nat ->
  effects is_se (k ([x0; 0x16; 0x2C; 0xFE; 0; 16 * Z.of_nat s + if sp then 0 else 2]
    ++ replicate s 0 ++ (0x21 :: salt) ++ rest)) R ->
  effects is_se
    (let! o := lift (store ([x0; 0x16; 0x2C; 0xFE; x4; x5] ++ ms ++ [y0; y1; y2] ++ rest) 4 0) in
     let! o := lift (store o 5 (combineNibbles (Z.of_nat s)
       (if sp then SHOW_PAIRING_INDICATION_BYTE else DONT_SHOW_PAIRING_INDICATION_BYTE))) in
     let! o := lift (write_bytes o 6 (replicate s 0)) in
     let! o := lift (store o (6 + s) SALT_FIELD_LENGTH_AND_TYPE_BYTE) in
     let! o := lift (write_bytes o (7 + s) salt) in
     k o) R.
Proof.
  intros Hms Hsl Hs Hk. eff_lift ltac:(reflexivity). eff_lift ltac:(reflexivity).
  change (if sp then SHOW_PAIRING_INDICATION_BYTE else DONT_SHOW_PAIRING_INDICATION_BYTE)
    with (if sp then 0 else 2).
  set (t := if sp then 0 else 2) in *. assert (0 <= t < 3) by (unfold t; destruct sp; lia).
  assert (u8 (combineNibbles (Z.of_nat s) t) = 16 * Z.of_nat s + t) as Hc.
  { rewrite combineNibbles_spec by lia. apply u8_id. unfold is_byte. lia. }
  cbn [app insert list_insert]. rewrite Hc. change (u8 0) with 0.
  set (pre := [x0; 22; 44; 254; 0; 16 * Z.of_nat s + t]) in *.
  change (x0 :: 22 :: 44 :: 254 :: 0 :: 16 * Z.of_nat s + t :: ?r) with (pre ++ r).
  eff_lift ltac:(apply write_at; [done|by rewrite length_replicate]).
  rewrite app_assoc.
  eff_lift ltac:(apply store_at; rewrite length_app, length_replicate; cbn; lia).
  change (u8 SALT_FIELD_LENGTH_AND_TYPE_BYTE) with 0x21.
  change (0x21 :: y1 :: y2 :: rest) with ([0x21] ++ [y1; y2] ++ rest).
  rewrite app_assoc.
  eff_lift ltac:(apply write_at; [rewrite !length_app, length_replicate; cbn; lia|by rewrite Hsl]).
  rewrite <- !app_assoc. exact Hk.
Qed.

(** Writing the length of the service data completes the payload. *)
Lemma service_data_completed s salt (sp sb : bool) bi x0 tl :
  length salt = 2%nat -> (s <= 15)%nat ->
  <[0%nat := u8 (Z.of_nat (9 + s + battery_chunk_size bi) - 1)]>
    ([x0; 0x16; 0x2C; 0xFE; 0; 16 * Z.of_nat s + if sp then 0 else 2]
       ++ replicate s 0 ++ (0x21 :: salt) ++ battery_chunk sb bi ++ tl)
  = service_data 0 (nondiscoverable_fields (replicate s 0) salt sp sb bi) ++ tl.
Proof.
  intros Hsl Hs. cbn [app insert list_insert].
  assert (Z.of_nat (length (fields_bytes (nondiscoverable_fields (replicate s 0) salt sp sb bi))) + 4
          = Z.of_nat (9 + s + battery_chunk_size bi) - 1) as Hlen.
  { unfold nondiscoverable_fields, fields_bytes. destruct bi;
      cbn [app fmap list_fmap concat battery_chunk_size];
      rewrite ?length_app, !field_bytes_length; cbn [snd length];
      rewrite ?length_replicate; cbn; lia. }
  unfold service_data. rewrite Hlen, u8_id by (unfold is_byte; destruct bi; cbn; lia).
  unfold fields_bytes, nondiscoverable_fields, battery_chunk, field_bytes.
  destruct bi; cbn [app fmap list_fmap concat snd fst length]; rewrite !length_replicate, Hsl;
    rewrite ?app_nil_r, <- ?app_assoc; cbn [app]; rewrite <- ?app_assoc; done.
Qed.

(** The layout of the payload. *)
Lemma CreateNondiscoverable_effects l output len sp sb bi :
  list_ok l -> 0 < num_keys l ->
  (nondiscoverable_size l bi <= len <= length output)%nat ->
  effects is_se (CreateNondiscoverableAdvertisement (S:=S) l output len sp sb bi) (fun r =>
    exists salt, length salt = 2%nat /\ bytes_ok salt /\
      r = (service_data 0 (nondiscoverable_fields (replicate (key_filter_size l) 0) salt sp sb bi)
             ++ drop (nondiscoverable_size l bi) output,
           nondiscoverable_size l bi)).
Proof.
  intros Hok Hn Hlen. unfold CreateNondiscoverableAdvertisement.
  pose proof (unique_count_pos l Hok Hn) as Hu.
  pose proof (filter_size_range (Z.of_nat (unique_count l))) as Hfs.
  change (nondiscoverable_size l bi) with (9 + key_filter_size l + battery_chunk_size bi)%nat in *.
  set (s := key_filter_size l) in *.
  assert (Z.of_nat s = filter_size (Z.of_nat (unique_count l))) as Hs
    by (unfold s, key_filter_size; lia).
  destruct (cut_buffer output s (battery_chunk_size bi))
    as (x0&x1&x2&x3&x4&x5&ms&y0&y1&y2&bt&tl&Eo&Hms&Hbt&Htl); [lia|].
  rewrite <- Htl. clear Htl. unfold FP_SERVICE_UUID_SIZE, NEARBY_FP_SALT_SIZE.
  rewrite (proj2 (Nat.leb_le (2 + 2) len)) by lia. eff_lift ltac:(reflexivity).
  eapply effects_bind; [apply effects_uninit with (R := fun l => length l = 2%nat /\ bytes_ok l); auto|].
  intros salt0 [Hs0 Hb0].
  assert (exists o1, store output 1 GAP_DATA_TYPE_SERVICE_DATA_UUID = Done o1 /\
    nearby_utils_CopyLittleEndian o1 2 FP_SERVICE_UUID 2
    = Done ([x0; 0x16; 0x2C; 0xFE; x4; x5] ++ ms ++ [y0; y1; y2] ++ bt ++ tl)) as (o1 & E1 & E2).
  { rewrite Eo. eexists. split; [reflexivity|]. rewrite CopyLittleEndian_spec by (cbn; lia). reflexivity. }
  eff_lift ltac:(exact E1). eff_lift ltac:(exact E2). clear E1 E2 Eo.
  eapply effects_bind; [by apply rand_salt_effects|]. intros salt [Hsl Hsb].
  rewrite GetUnique_spec by done. eff_lift ltac:(reflexivity). fold (unique_count l).
  rewrite (proj2 (Z.eqb_neq _ _)) by lia. fold (key_filter_size l). fold s. rewrite <- Hs in *.
  rewrite (proj2 (Nat.leb_le (4 + (s + (3 + 2))) len)) by lia.
  apply effects_bind with (R := fun r => r =
    ([x0; 0x16; 0x2C; 0xFE; 0; 16 * Z.of_nat s + if sp then 0 else 2]
       ++ replicate s 0 ++ (0x21 :: salt) ++ battery_chunk sb bi ++ tl,
     (9 + s + battery_chunk_size bi)%nat)).
  - eff_lift ltac:(reflexivity).
    eapply effects_bind.
    { rewrite (app_assoc ms), (app_assoc [x0; _; _; _; _; _]).
      apply battery_chunk_effects; [rewrite !length_app; cbn|..]; lia. }
    intros o ->. rewrite <- !app_assoc. apply key_data_effects; [done|done|lia|].
    apply effects_ret. f_equal. unfold BATTERY_INFO_SIZE_BYTES. destruct bi; cbn; lia.
  - intros r ->. eff_lift ltac:(reflexivity). apply effects_ret. exists salt.
    split; [done|]. split; [done|]. f_equal. apply service_data_completed; [done|lia].
Qed.
End Layout.

(** * The Bloom filter *)

(** Bit [m] of a filter, and setting it. *)
Definition has_bit (f : list Z) (m : Z) : bool :=
  Z.testbit (default 0 (f !! Z.to_nat (m / 8))) (m mod 8).
Definition set_bit (f : list Z) (m : Z) : list Z :=
  <[Z.to_nat (m / 8) := Z.lor (default 0 (f !! Z.to_nat (m / 8))) (Z.shiftl 1 (m mod 8))]> f.

(** The eight bits a hash selects in a filter of [s] bytes. *)
Definition bloom_bits (s : Z) (hash : list Z) : list Z :=
  (fun j => be_value (take 4 (drop (4 * j) hash)) mod (s * 8)) <$> seq 0 8.

(** The first byte of the [k]-th key as it is hashed. *)
Definition hashed_flags (sass : bool) (in_use : option (list Z)) (k : nat) (key : list Z) : Z :=
  let flags := default 0 (key !! 0%nat) in
  if sass then
    match in_use with
    | Some u => if bool_decide (key = u) then Z.lor flags 2 else flags
    | None => if (k =? 0)%nat then Z.lor flags 1 else flags
    end
  else flags.

(** The payload of the first field of type [t]. *)
Fixpoint field_of (fs : list field) (t : Z) : option (list Z) :=
  match fs with
  | [] => None
  | f :: fs => if t =? fst f then Some (snd f) else field_of fs t
  end.

(** What is hashed for a key: the salt without its header, the battery field and
    the random resolvable field with theirs. *)
Definition battery_field (fs : list field) : list Z :=
  match field_of fs 3 with
  | Some p => field_bytes (3, p)
  | None => match field_of fs 4 with Some p => field_bytes (4, p) | None => [] end
  end.
Definition rrf_field (fs : list field) : list Z :=
  match field_of fs 6 with Some p => field_bytes (6, p) | None => [] end.
Definition bloom_message (sass : bool) (in_use : option (list Z)) (fs : list field)
    (k : nat) (key : list Z) : list Z :=
  u8 (hashed_flags sass in_use k key) :: drop 1 key
  ++ default [] (field_of fs 1) ++ battery_field fs ++ rrf_field fs.

(** The distinct keys, in the order of their first occurrences. *)
Definition unique_keys (l : AccountKeyList) : list (list Z) :=
  (fun i => default [] (key_bytes l !! i))
    <$> filter (first_at (key_bytes l)) (seq 0 (length (key_bytes l))).

Lemma set_bit_length f m : length (set_bit f m) = length f.
Proof. apply length_insert. Qed.

Lemma lor_byte a b : is_byte a -> is_byte b -> is_byte (Z.lor a b).
Proof.
  unfold is_byte. intros [? ?] [? ?]. split; [by apply Z.lor_nonneg|].
  destruct (Z.eq_dec (Z.lor a b) 0); [lia|].
  assert (0 <= Z.lor a b) by (by apply Z.lor_nonneg).
  change 256 with (2 ^ 8). apply Z.log2_lt_pow2; [lia|]. rewrite Z.log2_lor by lia.
  assert (forall x, 0 <= x < 256 -> Z.log2 x < 8) as Hl.
  { intros x Hx. destruct (Z.eq_dec x 0) as [->|]; [done|]. apply Z.log2_lt_pow2; lia. }
  pose proof (Hl a). pose proof (Hl b). lia.
Qed.

Lemma bit_byte m : is_byte (Z.shiftl 1 (m mod 8)).
Proof.
  pose proof (Z.mod_pos_bound m 8). rewrite Z.shiftl_mul_pow2, Z.mul_1_l by lia.
  unfold is_byte. pose proof (Z.pow_le_mono_r 2 (m mod 8) 7).
  pose proof (Z.pow_pos_nonneg 2 (m mod 8)). lia.
Qed.

Lemma set_bit_byte f m : bytes_ok f -> is_byte (Z.lor (default 0 (f !! Z.to_nat (m / 8))) (Z.shiftl 1 (m mod 8))).
Proof.
  intros Hf. apply lor_byte; [|apply bit_byte]. destruct (f !! _) eqn:E; cbn.
  - by eapply (Forall_lookup_1 _ f).
  - unfold is_byte. lia.
Qed.

Lemma set_bit_ok f m : bytes_ok f -> bytes_ok (set_bit f m).
Proof. intros Hf. apply bytes_ok_insert; [done|by apply set_bit_byte]. Qed.

Lemma has_set_bit f m m' :
  0 <= m < 8 * Z.of_nat (length f) -> 0 <= m' ->
  has_bit (set_bit f m) m' = has_bit f m' || (m =? m').
Proof.
  intros Hm Hm'. unfold has_bit, set_bit.
  pose proof (Z.mod_pos_bound m 8). pose proof (Z.mod_pos_bound m' 8).
  pose proof (Z.div_mod m 8). pose proof (Z.div_mod m' 8).
  assert (m / 8 < Z.of_nat (length f)) by lia.
  assert (0 <= m / 8) by lia. assert (0 <= m' / 8) by lia.
  destruct (decide (m / 8 = m' / 8)) as [E|E].
  - rewrite <- E, list_lookup_insert_eq by lia. cbn [default from_option id].
    rewrite Z.lor_spec. f_equal. rewrite Z.shiftl_spec by lia.
    destruct (Z.eqb_spec m m') as [->|Hne]; [by rewrite Z.sub_diag|].
    destruct (Z.lt_ge_cases (m' mod 8 - m mod 8) 0); [by rewrite Z.testbit_neg_r|].
    apply Z.bits_above_log2; cbn; lia.
  - rewrite list_lookup_insert_ne by lia.
    rewrite (proj2 (Z.eqb_neq m m')) by (intros ->; lia). by rewrite orb_false_r.
Qed.

Lemma set_bits_spec ms f :
  bytes_ok f -> Forall (fun m => 0 <= m < 8 * Z.of_nat (length f)) ms ->
  length (fold_left set_bit ms f) = length f /\ bytes_ok (fold_left set_bit ms f) /\
  forall m', 0 <= m' ->
    has_bit (fold_left set_bit ms f) m' = has_bit f m' || existsb (Z.eqb m') ms.
Proof.
  intros Hf Hms. revert f Hf Hms. induction ms as [|m ms IH]; intros f Hf Hms; cbn [fold_left existsb].
  { split; [done|]. split; [done|]. intros. by rewrite orb_false_r. }
  inversion Hms as [|? ? Hm Hms']; subst.
  destruct (IH (set_bit f m)) as (H1 & H2 & H3); [by apply set_bit_ok|by rewrite set_bit_length|].
  rewrite set_bit_length in H1. split; [done|]. split; [done|]. intros m' Hm'.
  rewrite H3, has_set_bit by done. rewrite (Z.eqb_sym m' m). by rewrite orb_assoc.
Qed.

Lemma bloom_bits_range s hash : 0 < s -> Forall (fun m => 0 <= m < 8 * s) (bloom_bits s hash).
Proof.
  intros Hs. apply Forall_fmap, Forall_true. intros j. unfold compose.
  pose proof (Z.mod_pos_bound (be_value (take 4 (drop (4 * j) hash))) (s * 8)). lia.
Qed.

Lemma set_filter_bits_spec k j pre filt tail sha s :
  length pre = 6%nat -> Z.of_nat (length filt) = s -> 0 < s -> bytes_ok filt ->
  bytes_ok sha -> (4 * (j + k) <= length sha)%nat ->
  set_filter_bits k j (pre ++ filt ++ tail) sha s
  = Done (pre ++ fold_left set_bit
      ((fun j => be_value (take 4 (drop (4 * j) sha)) mod (s * 8)) <$> seq j k) filt ++ tail).
Proof.
  intros Hp Hl Hs Hf Hsha. revert j filt Hl Hf.
  induction k as [|k IH]; intros j filt Hl Hf Hk; [done|].
  cbn [set_filter_bits seq fmap list_fmap fold_left].
  rewrite GetBigEndian32_spec, done_bind by (done || lia).
  set (m := be_value _ mod (s * 8)).
  assert (0 <= m < s * 8) as Hm by (apply Z.mod_pos_bound; lia).
  assert (0 <= m / 8 < s) as Hd by (Z.to_euclidean_division_equations; lia).
  unfold ACCOUNT_KEY_DATA_OFFSET, LTV_HEADER_SIZE.
  destruct (lookup_lt_is_Some_2 filt (Z.to_nat (m / 8))) as [b Hb]; [lia|].
  assert ((pre ++ filt ++ tail) !! (5 + 1 + Z.to_nat (m / 8))%nat = Some b) as Hx.
  { rewrite lookup_app_r, Hp by lia. replace (5 + 1 + Z.to_nat (m / 8) - 6)%nat with (Z.to_nat (m / 8)) by lia.
    by rewrite lookup_app_l by lia. }
  rewrite (load_done _ _ _ Hx), done_bind, store_done, done_bind
    by (rewrite !length_app; lia).
  rewrite insert_app_r_alt, Hp by lia.
  replace (5 + 1 + Z.to_nat (m / 8) - 6)%nat with (Z.to_nat (m / 8)) by lia.
  rewrite insert_app_l by lia.
  pose proof (set_bit_byte filt m Hf) as Hby. rewrite Hb in Hby. cbn [default from_option id] in Hby.
  rewrite u8_id by done.
  assert (<[Z.to_nat (m / 8):=Z.lor b (Z.shiftl 1 (m mod 8))]> filt = set_bit filt m) as ->.
  { unfold set_bit. by rewrite Hb. }
  rewrite IH; [done|by rewrite set_bit_length|by apply set_bit_ok|lia].
Qed.

(** ** Finding fields *)
Lemma find_field_some fs t off o rest :
  find_field fs t off = Some o ->
  (off <= o)%nat /\ exists p rest', field_of fs t = Some p /\
    drop (o - off) (fields_bytes fs ++ rest) = field_bytes (t, p) ++ rest'.
Proof.
  revert off. induction fs as [|f fs IH]; intros off; cbn [find_field field_of]; [done|].
  destruct (Z.eqb_spec t (fst f)) as [->|Hne].
  - intros [= <-]. split; [done|]. rewrite Nat.sub_diag, drop_0, fields_bytes_cons, <- app_assoc.
    exists (snd f), (fields_bytes fs ++ rest). by destruct f.
  - intros H. destruct (IH _ H) as (Ho & p & rest' & Hf & Hd). split; [lia|]. exists p, rest'.
    split; [done|]. rewrite fields_bytes_cons, <- app_assoc.
    rewrite drop_app_ge by (rewrite field_bytes_length; lia). rewrite field_bytes_length, <- Hd.
    f_equal. lia.
Qed.

Lemma find_field_none fs t off : find_field fs t off = None -> field_of fs t = None.
Proof.
  revert off. induction fs as [|f fs IH]; intros off; cbn [find_field field_of]; [done|].
  destruct (t =? fst f); [done|]. apply IH.
Qed.

Lemma field_of_ok fs t p : Forall field_ok fs -> field_of fs t = Some p -> field_ok (t, p).
Proof.
  induction 1 as [|f fs Hf _ IH]; cbn [field_of]; [done|].
  destruct (Z.eqb_spec t (fst f)) as [->|]; [|done]. intros [= <-]. by destruct f.
Qed.

(** Reading a field at its offset. *)
Lemma read_field adv o t p rest :
  field_ok (t, p) -> drop o adv = field_bytes (t, p) ++ rest ->
  load adv o = Done (16 * Z.of_nat (length p) + t) /\
  field_with_header adv (Some o) = Done (field_bytes (t, p)) /\
  read_bytes adv (o + 1) (length p) = Done p.
Proof.
  intros [Ht Hp] Hd. cbn [fst snd] in *.
  assert (load adv o = Done (16 * Z.of_nat (length p) + t)) as Hload.
  { apply load_done. rewrite <- (Nat.add_0_r o), <- lookup_drop, Hd. done. }
  assert (length (drop o adv) = length (field_bytes (t, p) ++ rest)) as Hl by (by rewrite Hd).
  rewrite length_drop, length_app, field_bytes_length in Hl. cbn [snd] in Hl.
  split; [done|]. split.
  - unfold field_with_header. rewrite Hload, done_bind.
    destruct (lt_header (length p) t Ht) as [-> _]; [lia|]. rewrite Nat2Z.id.
    rewrite read_bytes_done by (unfold LTV_HEADER_SIZE; lia). rewrite Hd. f_equal.
    apply take_app_length'. rewrite field_bytes_length. unfold LTV_HEADER_SIZE. cbn [snd]. lia.
  - rewrite read_bytes_done by lia. f_equal.
    rewrite <- drop_drop, Hd. cbn [field_bytes snd fst app drop]. by apply take_app_length.
Qed.

Section Bloom.
Context {C : Config} {P : Platform} {Sha : Sha256Spec P} {S : Type}.

Lemma wp_sha_updates parts (Q : unit -> sys S -> Prop) s :
  (forall s', quiet is_se s s' -> hashed (env s') = hashed (env s) ++ concat parts -> Q tt s') ->
  wp (sha_updates parts) Q s.
Proof.
  revert s. induction parts as [|p ps IH]; intros s HQ; cbn [sha_updates].
  - apply wp_ret, HQ; [done|by rewrite app_nil_r].
  - apply wp_bind, wp_sha_update. intros s1 Q1 H1. apply IH. intros s2 Q2 H2.
    apply HQ; [by etransitivity|]. rewrite H2, H1. cbn [concat]. by rewrite <- app_assoc.
Qed.

(** Hashing the concatenation of [parts], then continuing with the hash. *)
Lemma effects_sha_parts {A} parts (k : list Z -> M S A) R :
  effects is_se (k (sha256 (concat parts))) R ->
  effects is_se
    (do! nearby_platform_Sha256Start in do! sha_updates parts in
     let! ' (_, x) := nearby_platform_Sha256Finish in k x) R.
Proof.
  intros H s. apply wp_bind, wp_sha_start. intros s1 Q1 H1.
  apply wp_bind, wp_sha_updates. intros s2 Q2 H2. apply wp_bind, wp_sha_finish. intros s3 Q3.
  rewrite H2, H1. cbn [app]. eapply wp_mono; [apply H|]. intros a s4 [Q4 HR]. split; [|done].
  etransitivity; [exact Q1|]. etransitivity; [exact Q2|]. by etransitivity.
Qed.

(** The filter after hashing [keys], the first of which has number [k]. *)
Fixpoint bloom_fill (s : Z) (msg : nat -> list Z -> list Z) (k : nat) (keys : list (list Z))
    (f : list Z) : list Z :=
  match keys with
  | [] => f
  | key :: keys =>
    bloom_fill s msg (Datatypes.S k) keys
      (fold_left set_bit (bloom_bits s (sha256 (msg k key))) f)
  end.

Lemma bloom_fill_spec s msg k keys f :
  bytes_ok f -> Z.of_nat (length f) = s -> 0 < s ->
  length (bloom_fill s msg k keys f) = length f /\ bytes_ok (bloom_fill s msg k keys f) /\
  forall m, 0 <= m ->
    has_bit (bloom_fill s msg k keys f) m = true <->
    has_bit f m = true \/
    exists i key, keys !! i = Some key /\ m ∈ bloom_bits s (sha256 (msg (k + i)%nat key)).
Proof.
  intros Hf Hl Hs. revert k f Hf Hl. induction keys as [|key keys IH]; intros k f Hf Hl; cbn [bloom_fill].
  { split; [done|]. split; [done|]. intros m Hm. split; [by left|].
    intros [?|(i & key & Hi & _)]; [done|]. by rewrite lookup_nil in Hi. }
  set (f1 := fold_left set_bit _ f).
  destruct (set_bits_spec (bloom_bits s (sha256 (msg k key))) f) as (L1 & B1 & X1); [done| |].
  { rewrite Hl. by apply bloom_bits_range. }
  fold f1 in L1, B1, X1.
  destruct (IH (Datatypes.S k) f1) as (L2 & B2 & X2); [done|by rewrite L1|].
  split; [by rewrite L2|]. split; [done|]. intros m Hm. rewrite X2, X1 by done.
  rewrite orb_true_iff, existsb_exists. split.
  - intros [[H|(x & Hx & Ex)]|(i & key' & Hi & Hin)].
    + by left.
    + right. apply Z.eqb_eq in Ex as <-. exists 0%nat, key. split; [done|].
      rewrite Nat.add_0_r. by apply list_elem_of_In.
    + right. exists (Datatypes.S i), key'. split; [done|].
      by replace (k + Datatypes.S i)%nat with (Datatypes.S k + i)%nat by lia.
  - intros [H|([|i] & key' & Hi & Hin)].
    + by left; left.
    + injection Hi as <-. left. right. rewrite Nat.add_0_r in Hin. exists m.
      split; [by apply list_elem_of_In|apply Z.eqb_refl].
    + right. exists i, key'. split; [done|].
      by replace (Datatypes.S k + i)%nat with (k + Datatypes.S i)%nat by lia.
Qed.

(** The keys at the first occurrences from [off] on. *)
Definition unique_keys_from (l : AccountKeyList) (off : Z) : list (list Z) :=
  (fun i => default [] (key_bytes l !! i))
    <$> filter (first_at (key_bytes l)) (seq (Z.to_nat off) (Z.to_nat (num_keys l - off))).

Lemma unique_keys_from_0 l : list_ok l -> unique_keys_from l 0 = unique_keys l.
Proof.
  intros Hok. unfold unique_keys_from, unique_keys. rewrite key_bytes_length by done.
  by rewrite Z.sub_0_r.
Qed.

Lemma unique_keys_length l : length (unique_keys l) = unique_count l.
Proof. unfold unique_keys. rewrite length_fmap. apply count_first. Qed.

Lemma next_unique_key l off key keys :
  list_ok l -> 0 <= off <= num_keys l -> unique_keys_from l off = key :: keys ->
  exists r info, nearby_fp_GetNextUniqueAccountKeyIndex l off = Done r /\ off <= r < num_keys l
    /\ nearby_fp_GetAccountKey l r = Done info /\ account_key info = key /\ key_ok info
    /\ unique_keys_from l (r + 1) = keys.
Proof.
  intros Hok Ho Hk. destruct (GetNextUnique_spec l off Hok Ho) as (r & Hr & Hs & Hb).
  unfold unique_keys_from in *. rewrite Hs in Hk. clear Hs.
  destruct (Z.eqb_spec r (-1)) as [E|Hne]; [done|]. cbn [fmap list_fmap] in Hk.
  injection Hk as Hk1 Hk2. destruct Hb as [Hb|Hb]; [done|].
  destruct (GetAccountKey_done l r Hok) as (info & Hi & Hu & Hok'); [lia|].
  exists r, info. apply GetAccountKey_bytes in Hu. rewrite Hu in Hk1.
  split; [done|]. split; [done|]. split; [done|]. split; [done|]. split; [done|].
  rewrite <- Hk2. do 3 f_equal; lia.
Qed.

Lemma key_flags_spec sass iu k key :
  (1 <= length key)%nat ->
  key_flags sass iu k key = Done (hashed_flags sass iu k key).
Proof.
  intros Hl. unfold key_flags, hashed_flags. destruct key as [|b key]; [cbn in Hl; lia|].
  cbn [load lookup list_lookup]. rewrite done_bind. cbn [default from_option id]. done.
Qed.

(** The parts of the advertisement the loop reads do not depend on the filter. *)
Record fields_at (adv : list Z -> list Z) (s : nat) (fs : list field)
    (salt_off : nat) (batt_off rrf_off : option nat) : Prop := {
  at_salt : forall f, length f = s -> exists p, field_of fs 1 = Some p /\
    load (adv f) salt_off = Done (16 * Z.of_nat (length p) + 1) /\ (length p <= 15)%nat /\
    read_bytes (adv f) (salt_off + 1) (length p) = Done p;
  at_battery : forall f, length f = s ->
    field_with_header (adv f) batt_off = Done (battery_field fs);
  at_rrf : forall f, length f = s ->
    field_with_header (adv f) rrf_off = Done (rrf_field fs);
}.

Lemma SetBloomFilter_loop_effects r k off l pre filt tail sass iu fs so bo ro s keys :
  list_ok l -> 0 <= off <= num_keys l -> unique_keys_from l off = keys -> length keys = r ->
  length pre = 6%nat -> Z.of_nat (length filt) = s -> 0 < s -> bytes_ok filt ->
  fields_at (fun f => pre ++ f ++ tail) (length filt) fs so bo ro ->
  effects is_se
    (SetBloomFilter_loop (S:=S) r k off l (pre ++ filt ++ tail) sass iu so bo ro s)
    (fun a => a = pre ++ bloom_fill s (bloom_message sass iu fs) k keys filt ++ tail).
Proof.
  intros Hok Ho Hk Hr Hp Hl Hs Hb Hat. revert k off keys filt Ho Hk Hr Hl Hb Hat.
  induction r as [|r IH]; intros k off keys filt Ho Hk Hr Hl Hb Hat.
  { destruct keys; [|done]. by apply effects_ret. }
  destruct keys as [|key keys]; [done|]. cbn [SetBloomFilter_loop bloom_fill].
  destruct (next_unique_key l off key keys Hok Ho Hk) as (i & info & Hn & Hi & Hg & Hkey & Hko & Hrest).
  pose proof (ok_count l Hok) as Hc. unfold NEARBY_MAX_ACCOUNT_KEYS in Hc.
  eff_lift ltac:(exact Hn). rewrite (u32_id i) by lia. eff_lift ltac:(exact Hg).
  destruct Hko as (Hkl & _). rewrite Hkey in *.
  eff_lift ltac:(apply key_flags_spec; rewrite Hkl; by apply Nat.leb_le).
  destruct (at_salt _ _ _ _ _ _ Hat filt eq_refl) as (salt & Hsalt & Hl0 & Hsl & Hr0).
  eff_lift ltac:(exact Hl0). destruct (lt_header (length salt) 1) as [-> _]; [lia|done|].
  rewrite Nat2Z.id. unfold LTV_HEADER_SIZE. eff_lift ltac:(exact Hr0).
  eff_lift ltac:(exact (at_battery _ _ _ _ _ _ Hat filt eq_refl)).
  eff_lift ltac:(exact (at_rrf _ _ _ _ _ _ Hat filt eq_refl)).
  apply effects_sha_parts.
  assert (concat [[u8 (hashed_flags sass iu k key)]; drop 1 key; salt; battery_field fs; rrf_field fs]
          = bloom_message sass iu fs k key) as ->.
  { unfold bloom_message. rewrite Hsalt. cbn [concat app default from_option id]. by rewrite app_nil_r. }
  eff_lift ltac:(apply set_filter_bits_spec; rewrite ?sha256_length; auto using sha256_ok; lia).
  fold (bloom_bits s (sha256 (bloom_message sass iu fs k key))).
  destruct (set_bits_spec (bloom_bits s (sha256 (bloom_message sass iu fs k key))) filt)
    as (L1 & B1 & _); [done|rewrite Hl; by apply bloom_bits_range|].
  rewrite u32_id by lia. apply IH; [lia|done|by injection Hr|by rewrite L1|done|by rewrite L1].
Qed.

(** An advertisement with a filter: header, filter, other fields, spare bytes. *)
Definition with_filter (flags ft : Z) (fs : list field) (rest f : list Z) : list Z :=
  service_data flags ((ft, f) :: fs) ++ rest.

Definition with_filter_head (flags ft : Z) (fs : list field) (s : nat) : list Z :=
  [Z.of_nat (1 + s + length (fields_bytes fs)) + 4; GAP_DATA_TYPE_SERVICE_DATA_UUID; 0x2C; 0xFE;
   flags; 16 * Z.of_nat s + ft].

Lemma with_filter_app flags ft fs rest f :
  with_filter flags ft fs rest f
  = with_filter_head flags ft fs (length f) ++ f ++ fields_bytes fs ++ rest.
Proof.
  unfold with_filter, service_data, with_filter_head. rewrite fields_bytes_cons.
  rewrite length_app, field_bytes_length. cbn [snd]. unfold field_bytes at 1. cbn [app fst snd].
  by rewrite <- app_assoc.
Qed.

Lemma with_filter_drop flags ft fs rest f o :
  (6 + length f <= o)%nat ->
  drop o (with_filter flags ft fs rest f)
  = drop (o - (6 + length f)) (fields_bytes fs ++ rest).
Proof.
  intros Ho. rewrite with_filter_app, app_assoc.
  rewrite drop_app_ge by (rewrite length_app; cbn; lia). by rewrite length_app.
Qed.

Lemma found_field flags ft fs rest s t o :
  Forall field_ok fs -> find_field fs t (6 + s) = Some o ->
  exists p, field_of fs t = Some p /\ field_ok (t, p) /\ forall f, length f = s ->
    exists rest', drop o (with_filter flags ft fs rest f) = field_bytes (t, p) ++ rest'.
Proof.
  intros Hfs Hf. destruct (find_field_some fs t (6 + s) o rest Hf) as (Ho & p & rest' & Hp & Hd).
  exists p. split; [done|]. split; [by eapply field_of_ok|]. intros f Hl. exists rest'.
  rewrite with_filter_drop, Hl by lia. exact Hd.
Qed.

Lemma found_with_header flags ft fs rest s t f :
  Forall field_ok fs -> length f = s ->
  field_with_header (with_filter flags ft fs rest f) (find_field fs t (6 + s))
  = Done (match field_of fs t with Some p => field_bytes (t, p) | None => [] end).
Proof.
  intros Hfs Hl. destruct (find_field fs t (6 + s)) as [o|] eqn:E.
  - destruct (found_field flags ft fs rest s t o Hfs E) as (p & -> & Hp & Hd).
    destruct (Hd f Hl) as (rest' & Hd'). by eapply read_field.
  - by rewrite (find_field_none _ _ _ E).
Qed.

(** The field types the filter computation looks up. *)
Definition filter_type (ft : Z) : Prop := ft = 0 \/ ft = 2.

Lemma with_filter_fields_at flags ft fs rest s salt so :
  Forall field_ok fs -> field_of fs 1 = Some salt -> find_field fs 1 (6 + s) = Some so ->
  fields_at (with_filter flags ft fs rest) s fs so
    (match find_field fs 3 (6 + s) with
     | Some o => Some o | None => find_field fs 4 (6 + s) end)
    (find_field fs 6 (6 + s)).
Proof.
  intros Hfs Hs Hso. split; intros f Hl.
  - destruct (found_field flags ft fs rest s 1 so Hfs Hso) as (p & Hp & Hpo & Hd).
    destruct (Hd f Hl) as (rest' & Hd'). destruct (read_field _ _ _ _ _ Hpo Hd') as (H1 & _ & H3).
    exists p. destruct Hpo as [_ Hpo]. cbn in Hpo. split; [done|]. split; [done|]. split; [lia|done].
  - unfold battery_field. destruct (find_field fs 3 (6 + s)) as [o|] eqn:E3.
    + rewrite <- E3, found_with_header by done.
      destruct (found_field flags ft fs rest s 3 o Hfs E3) as (p & -> & _). done.
    + rewrite (find_field_none _ _ _ E3). by apply found_with_header.
  - by apply found_with_header.
Qed.

Lemma find_after_filter ft filt fs t :
  filter_type ft -> t <> 0 -> t <> 2 ->
  find_field ((ft, filt) :: fs) t 5 = find_field fs t (6 + length filt).
Proof.
  intros [-> | ->] H0 H2; cbn [find_field fst snd]; rewrite (proj2 (Z.eqb_neq _ _)) by done;
    f_equal; lia.
Qed.

Lemma find_field_exists fs t off p : field_of fs t = Some p -> is_Some (find_field fs t off).
Proof.
  revert off. induction fs as [|f fs IH]; intros off; cbn [find_field field_of]; [done|].
  destruct (t =? fst f); [by eexists|]. apply IH.
Qed.

Lemma FindBatteryInfoLt_spec flags ft filt fs rest :
  Forall field_ok ((ft, filt) :: fs) -> filter_type ft ->
  FindBatteryInfoLt (with_filter flags ft fs rest filt)
  = Done (match find_field fs 3 (6 + length filt) with
          | Some o => Some o | None => find_field fs 4 (6 + length filt) end).
Proof.
  intros Hfs Hft. unfold FindBatteryInfoLt, with_filter.
  rewrite !FindLtv_spec by done. rewrite done_bind.
  rewrite !find_after_filter by done. by destruct (find_field fs _ _).
Qed.

(** The filter of an advertisement with a salt is replaced by the filter of the
    keys; the SASS format also sets the flags byte. *)
Lemma SetBloomFilter_effects l flags ft filt fs rest sass iu salt :
  list_ok l -> 0 < num_keys l -> filter_type ft ->
  Forall field_ok ((ft, filt) :: fs) -> length filt = key_filter_size l ->
  field_of fs 1 = Some salt -> is_byte flags ->
  effects is_se (nearby_fp_SetBloomFilter (S:=S) l (with_filter flags ft fs rest filt) sass iu)
    (fun r => r = (with_filter (if sass then 0x10 else flags) ft fs rest
       (bloom_fill (Z.of_nat (key_filter_size l)) (bloom_message sass iu fs) 0 (unique_keys l)
          (replicate (key_filter_size l) 0)), Z.of_nat (key_filter_size l))).
Proof.
  intros Hok Hn Hft Hfs Hl Hsalt Hfl. unfold nearby_fp_SetBloomFilter.
  pose proof (unique_count_pos l Hok Hn) as Hu.
  pose proof (filter_size_range (Z.of_nat (unique_count l))) as Hfr.
  set (s := key_filter_size l) in *.
  assert (Z.of_nat s = filter_size (Z.of_nat (unique_count l))) as Hs
    by (unfold s, key_filter_size; lia).
  assert (load (with_filter flags ft fs rest filt) 5 = Done (16 * Z.of_nat s + ft)) as Hh
    by (rewrite with_filter_app, Hl; reflexivity).
  eff_lift ltac:(exact Hh). assert (0 <= ft < 3) as Hft' by (destruct Hft; lia).
  rewrite (proj2 (Z.eqb_neq _ _)) by lia.
  assert (Forall field_ok fs) as Hfs' by (by inversion Hfs).
  destruct (find_field_exists fs 1 (6 + s) salt Hsalt) as [so Hso].
  assert (nearby_fp_FindLtv (with_filter flags ft fs rest filt) 1 = Done (Some so)) as Hf1.
  { unfold with_filter. by rewrite FindLtv_spec, find_after_filter, Hl, Hso. }
  assert (nearby_fp_FindLtv (with_filter flags ft fs rest filt) 6 = Done (find_field fs 6 (6 + s))) as Hf6.
  { unfold with_filter. by rewrite FindLtv_spec, find_after_filter, Hl. }
  eff_lift ltac:(exact Hf1). cbn beta iota.
  eff_lift ltac:(by apply FindBatteryInfoLt_spec). rewrite Hl.
  eff_lift ltac:(exact Hf6). eff_lift ltac:(by apply GetUnique_spec). fold (unique_count l).
  destruct (lt_header s ft) as [-> _]; [lia|lia|]. rewrite <- Hs, Z.eqb_refl.
  eff_lift ltac:(reflexivity). rewrite !Nat2Z.id.
  rewrite with_filter_app, Hl. set (pre := with_filter_head flags ft fs s).
  eff_lift ltac:(apply write_at; [done|by rewrite length_replicate]).
  set (z := replicate s 0).
  assert (length z = s) as Hz by apply length_replicate.
  pose proof (with_filter_fields_at flags ft fs rest s salt so Hfs' Hsalt Hso) as Hat.
  assert (fields_at (fun f => pre ++ f ++ fields_bytes fs ++ rest) (length z) fs so
    (match find_field fs 3 (6 + s) with Some o => Some o | None => find_field fs 4 (6 + s) end)
    (find_field fs 6 (6 + s))) as Hat'.
  { destruct Hat as [A1 A2 A3]. split; intros f Hf; rewrite Hz in Hf;
      [specialize (A1 f Hf)|specialize (A2 f Hf)|specialize (A3 f Hf)];
      rewrite with_filter_app, Hf in *; done. }
  assert (bytes_ok z) as Hzb by (apply bytes_ok_replicate; unfold is_byte; lia).
  eff_bind SetBloomFilter_loop_effects; [done|lia|by apply unique_keys_from_0|
    by rewrite unique_keys_length|done|by rewrite Hz|lia|done|exact Hat'|].
  set (f' := bloom_fill _ _ _ _ _).
  assert (length f' = s) as Hf'.
  { unfold f'. destruct (bloom_fill_spec (Z.of_nat s) (bloom_message sass iu fs) 0 (unique_keys l) z)
      as (-> & _); [done|by rewrite Hz|lia|done]. }
  apply effects_bind with (R := fun a => a = with_filter (if sass then 0x10 else flags) ft fs rest f').
  - rewrite with_filter_app, Hf'. destruct sass.
    + eapply effects_lift; reflexivity.
    + by apply effects_ret.
  - intros a ->. by apply effects_ret.
Qed.

End Bloom.

(** * Theorems *)
Section AdvertisementTheorems.
Context {C : Config} {P : Platform} {S : Type}.
Implicit Types (x : sys S).

(** On service data made of well-formed Length|Type fields,
    [nearby_fp_FindLtv] terminates, stays inside the data and returns the offset of
    the first field of the type asked for, or NULL when there is none. *)
Theorem FindLtv_first_field flags fs rest t :
  Forall field_ok fs -> fs <> [] ->
  nearby_fp_FindLtv (service_data flags fs ++ rest) t = Done (find_field fs t 5)
  /\ (forall o, find_field fs t 5 = Some o -> exists p rest', field_of fs t = Some p /\
        drop o (service_data flags fs ++ rest) = field_bytes (t, p) ++ rest')
  /\ (find_field fs t 5 = None -> field_of fs t = None).
Proof.
  intros Hfs Hne. split; [by apply FindLtv_spec|]. split; [|apply find_field_none].
  intros o Ho. destruct (find_field_some fs t 5 o rest Ho) as (Hle & p & rest' & Hp & Hd).
  exists p, rest'. split; [done|]. rewrite <- Hd. unfold service_data.
  do 6 (destruct o as [|o]; try lia). done. replace (Datatypes.S (Datatypes.S (Datatypes.S (Datatypes.S (Datatypes.S (Datatypes.S o))))) - 5)%nat
    with (Datatypes.S o) by lia. done.
Qed.

(** C23. A non-discoverable advertisement for at least one account key, in a
    buffer that is large enough: the service data header, the filter field, a two
    byte salt and, when asked for, the battery field, the rest of the buffer being
    untouched; and after [nearby_fp_SetBloomFilter], bit [m] of the filter is set
    exactly when one of the eight 32 bit words of the hash of some distinct account
    key, salt and battery field is [m] modulo the filter size: no account key is
    missed and no other bit is set. *)
Theorem NonDiscoverable_bloom_exact {Sha : Sha256Spec P} l output len sp sb bi x :
  list_ok l -> 0 < num_keys l -> (nondiscoverable_size l bi <= len <= length output)%nat ->
  wp (let! ' (a, n) := CreateNondiscoverableAdvertisement l output len sp sb bi in
      let! ' (a, s) := nearby_fp_SetBloomFilter l a false None in mret (a, n))
    (fun r x' => quiet is_se x x' /\ snd r = nondiscoverable_size l bi /\
       exists filter salt,
         let fs := nondiscoverable_fields filter salt sp sb bi in
         fst r = service_data 0 fs ++ drop (nondiscoverable_size l bi) output /\
         length filter = key_filter_size l /\ length salt = 2%nat /\
         forall m, 0 <= m < 8 * Z.of_nat (key_filter_size l) ->
           has_bit filter m = true <->
           exists i k, unique_keys l !! i = Some k /\
             m ∈ bloom_bits (Z.of_nat (key_filter_size l))
                   (sha256 (bloom_message false None (drop 1 fs) i k))) x.
Proof.
  intros Hok Hn Hlen. eapply wp_effects with (K := is_se)
    (R := fun r => snd r = nondiscoverable_size l bi /\ exists salt, length salt = 2%nat /\
      let fs := drop 1 (nondiscoverable_fields [] salt sp sb bi) in
      fst r = with_filter 0 (if sp then 0 else 2) fs (drop (nondiscoverable_size l bi) output)
       (bloom_fill (Z.of_nat (key_filter_size l)) (bloom_message false None fs) 0 (unique_keys l)
          (replicate (key_filter_size l) 0))).
  - eapply effects_bind; [by apply CreateNondiscoverable_effects|].
    intros r (salt & Hs & Hb & ->). cbn beta iota.
    eapply effects_bind.
    + apply (SetBloomFilter_effects l 0 (if sp then 0 else 2) (replicate (key_filter_size l) 0)
        (drop 1 (nondiscoverable_fields [] salt sp sb bi)) (drop (nondiscoverable_size l bi) output)
        false None salt); [done|done|destruct sp; [by left|by right]| |by rewrite length_replicate|done|unfold is_byte; lia].
      pose proof (unique_count_pos l Hok Hn) as Hu.
      pose proof (filter_size_range (Z.of_nat (unique_count l))) as Hfr.
      assert (4 <= key_filter_size l <= 9)%nat as Hks by (unfold key_filter_size; lia).
      constructor; [split; cbn; [destruct sp; lia|rewrite length_replicate; lia]|].
      constructor; [split; cbn; lia|]. destruct bi; constructor; [|constructor].
      split; cbn; [destruct sb; lia|lia].
    + intros r ->. cbn beta iota. apply effects_ret. split; [done|]. exists salt. split; [done|]. done.
  - intros r x' Hq (Hr & salt & Hs & Hf). split; [done|]. split; [done|].
    cbv zeta in Hf. set (filter := bloom_fill _ _ _ _ _) in Hf.
    pose proof (unique_count_pos l Hok Hn) as Hu.
    pose proof (filter_size_range (Z.of_nat (unique_count l))) as Hfr.
    destruct (bloom_fill_spec (Z.of_nat (key_filter_size l))
      (bloom_message false None (drop 1 (nondiscoverable_fields [] salt sp sb bi))) 0 (unique_keys l)
      (replicate (key_filter_size l) 0)) as (L & _ & X);
      [apply bytes_ok_replicate; unfold is_byte; lia|by rewrite length_replicate|unfold key_filter_size; lia|].
    exists filter, salt. split; [exact Hf|]. split; [unfold filter; by rewrite L, length_replicate|].
    split; [done|]. intros m Hm. unfold filter. rewrite X by lia.
    assert (has_bit (replicate (key_filter_size l) 0) m = false) as ->.
    { unfold has_bit. destruct (replicate _ 0 !! _) eqn:E; cbn; [|apply Z.bits_0].
      apply lookup_replicate in E as [-> _]. apply Z.bits_0. }
    split; [by intros [?|?]|by right].
Qed.

Lemma bytes_ok_3 a b c : is_byte b -> bytes_ok [u8 a; b; u8 c].
Proof. intros Hb. by repeat (apply Forall_cons; [first [apply u8_byte|exact Hb]|]). Qed.

(** The parts of a response are bytes. *)
Ltac response_bytes :=
  rewrite ?bytes_ok_app; repeat split;
  first [apply be_bytes_ok|by apply bytes_ok_3|by apply bytes_ok_true].

(** The calls that make a response: the device's addresses and random bytes. *)
Definition asks_address (r : hal_request) : Prop :=
  match r with SE _ | BT GetPublicAddress | BT GetSecondaryPublicAddress => True | _ => False end.

Ltac response_calls :=
  first [eexists [_; _]; split; [reflexivity|by repeat constructor]
        |eexists [_]; split; [reflexivity|by repeat constructor]].

(** Filling the end of a response whose start is [pre]. *)
Lemma response_fill (pre pre' mid : list Z) i x0 x :
  st x = st x0 -> ext asks_address x0 x ->
  length pre = i -> (length pre + length mid = 16)%nat -> bytes_ok pre -> bytes_ok mid ->
  pre' = pre ->
  wp (let! o := rand_fill (AES_MESSAGE_SIZE_BYTES - i) i (pre ++ mid) in mret (kNearbyStatusOK, o))
    (fun r x' => fst r = kNearbyStatusOK /\ length (snd r) = 16%nat /\ bytes_ok (snd r)
       /\ st x' = st x0 /\ ext asks_address x0 x' /\ exists salt, snd r = pre' ++ salt) x.
Proof.
  intros Hst Hx <- Hl Hp Hm ->. apply wp_bind.
  eapply wp_effects;
    [apply rand_fill_effects; [by rewrite bytes_ok_app|
       rewrite length_app; unfold AES_MESSAGE_SIZE_BYTES; lia]|].
  intros d y' [Hq Hx'] (H1 & H2 & H3 & _). apply wp_ret. cbn [fst snd].
  rewrite <- (take_drop (length pre) d), H3, take_app_length. rewrite length_app in H1.
  split; [done|]. split; [rewrite length_app, length_drop; lia|].
  split; [rewrite bytes_ok_app; split; [done|by apply bytes_ok_drop]|].
  split; [congruence|]. split; [|by eexists].
  eapply ext_trans; [exact Hx|]. eapply ext_mono; [|exact Hx']. by intros [].
Qed.

(** The raw key-based pairing response. *)
Lemma KeybasedPairingResponse_spec output (extended : bool) x :
  length output = AES_MESSAGE_SIZE_BYTES -> bytes_ok output ->
  let ask r w := call (BT r) w in
  let second := u64 (resp_value (fst (ask GetSecondaryPublicAddress (env x)))) in
  let w := if extended then snd (ask GetSecondaryPublicAddress (env x)) else env x in
  let address := u64 (resp_value (fst (ask GetPublicAddress w))) in
  wp (nearby_fp_CreateRawKeybasedPairingResponse output extended) (fun r x' =>
    fst r = kNearbyStatusOK /\ length (snd r) = 16%nat /\ bytes_ok (snd r) /\ st x' = st x /\
    ext asks_address x x' /\ exists salt, snd r =
      (if extended
       then [2; response_flags; if second =? 0 then 1 else 2] ++ be_bytes 6 address
            ++ (if second =? 0 then [] else be_bytes 6 second)
       else [1] ++ be_bytes 6 address) ++ salt) x.
Proof.
  intros Hl Hb ask second w address.
  cbv delta [ask] beta in second, w, address. clear ask. unfold nearby_fp_CreateRawKeybasedPairingResponse.
  assert (forall i, bytes_ok (drop i output)) as Hd by (intros; by apply bytes_ok_drop).
  assert (is_byte response_flags) as Hrf.
  { unfold response_flags, is_byte.
    destruct NEARBY_FP_BLE_ONLY, NEARBY_FP_PREFER_BLE_BONDING, NEARBY_FP_PREFER_LE_TRANSPORT; by split. }
  do 16 (destruct output as [|? output]; [done|]). destruct output; [|done].
  clear Hl Hb. destruct extended; cbv iota in w.
  - apply wp_bind, wp_bind, wp_hal_map_call. fold second. cbn [env st].
    do 3 (apply wp_bind; eapply wp_lift; [reflexivity|]). apply wp_ret. cbn beta iota.
    apply wp_bind, wp_hal_map_call. cbn [env st]. fold w. fold address.
    apply wp_bind. cbn [insert list_insert]. eapply wp_lift.
    { apply (copy_be_at [_; _; _] [_; _; _; _; _; _]); done. }
    rewrite (u8_id response_flags) by done.
    destruct (Z.eqb_spec second 0) as [E0|E0]; cbn [negb]; apply wp_bind.
    + apply wp_ret. cbn beta iota. rewrite app_assoc.
      apply response_fill; [done|response_calls| | |response_bytes|exact (Hd 9%nat)|by rewrite app_nil_r];
        by rewrite length_app, be_bytes_length.
    + apply wp_bind. rewrite app_assoc. eapply wp_lift.
      { apply (copy_be_at _ [_; _; _; _; _; _]); [by rewrite length_app, be_bytes_length|done]. }
      apply wp_ret. cbn beta iota. rewrite app_assoc.
      apply response_fill; [done|response_calls| | |response_bytes|exact (Hd 15%nat)|by rewrite <- app_assoc];
        by rewrite !length_app, !be_bytes_length.
  - apply wp_bind, wp_bind. eapply wp_lift; [reflexivity|]. apply wp_ret. cbn beta iota.
    apply wp_bind, wp_hal_map_call. cbn [env st]. fold w. fold address.
    apply wp_bind. cbn [insert list_insert]. eapply wp_lift.
    { apply (copy_be_at [_] [_; _; _; _; _; _]); done. }
    apply wp_bind, wp_ret. cbn beta iota. rewrite app_assoc.
    apply response_fill; [done|response_calls| | |response_bytes|exact (Hd 7%nat)|done];
      by rewrite length_app, be_bytes_length.
Qed.

(** The raw key-based pairing response is 16 bytes long.  The basic one is
    the flag 1, the public address in big-endian order and nine random bytes; the
    extended one is the flag 2, the transport flags, the number of addresses, the
    public address, the secondary address when there is one, and random bytes.
    Only the addresses and random bytes are asked of the platform, and no variable
    changes. *)
Theorem KeybasedPairingResponse_layout output (extended : bool) x :
  length output = AES_MESSAGE_SIZE_BYTES -> bytes_ok output ->
  let ask r w := call (BT r) w in
  let second := u64 (resp_value (fst (ask GetSecondaryPublicAddress (env x)))) in
  let w := if extended then snd (ask GetSecondaryPublicAddress (env x)) else env x in
  let address := u64 (resp_value (fst (ask GetPublicAddress w))) in
  wp (nearby_fp_CreateRawKeybasedPairingResponse output extended) (fun r x' =>
    fst r = kNearbyStatusOK /\ length (snd r) = 16%nat /\ bytes_ok (snd r) /\ st x' = st x /\
    ext asks_address x x' /\ exists salt, snd r =
      (if extended
       then [2; response_flags; if second =? 0 then 1 else 2] ++ be_bytes 6 address
            ++ (if second =? 0 then [] else be_bytes 6 second)
       else [1] ++ be_bytes 6 address) ++ salt) x.
Proof. apply KeybasedPairingResponse_spec. Qed.
End AdvertisementTheorems.

(** * Witnesses *)

Example FindLtv_first_field_witness :
  let fs : list field := [(0, [1; 2; 3; 4]); (1, [7; 8]); (3, [5; 6; 7])] in
  nearby_fp_FindLtv (service_data 0 fs ++ [9]) 3 = Done (find_field fs 3 5)
  /\ (forall o, find_field fs 3 5 = Some o -> exists p rest', field_of fs 3 = Some p /\
        drop o (service_data 0 fs ++ [9]) = field_bytes (3, p) ++ rest')
  /\ (find_field fs 3 5 = None -> field_of fs 3 = None).
Proof.
  intros fs. apply (FindLtv_first_field 0 fs [9] 3); [|discriminate].
  apply Forall_cons; [|apply Forall_cons; [|apply Forall_cons; [|apply Forall_nil]]];
    split; cbn; lia.
Defined.

Example NonDiscoverable_bloom_exact_witness :
  let l := test_list in
  let bi := Some (BatteryInfo true 80 85 90 100) in
  let output := replicate 25 0 in
  wp (let! ' (a, n) := CreateNondiscoverableAdvertisement l output 25 true false bi in
      let! ' (a, s) := nearby_fp_SetBloomFilter l a false None in mret (a, n))
    (fun r x' => quiet is_se unit_sys x' /\ snd r = nondiscoverable_size l bi /\
       exists filter salt,
         let fs := nondiscoverable_fields filter salt true false bi in
         fst r = service_data 0 fs ++ drop (nondiscoverable_size l bi) output /\
         length filter = key_filter_size l /\ length salt = 2%nat /\
         forall m, 0 <= m < 8 * Z.of_nat (key_filter_size l) ->
           has_bit filter m = true <->
           exists i k, unique_keys l !! i = Some k /\
             m ∈ bloom_bits (Z.of_nat (key_filter_size l))
                   (sha256 (bloom_message false None (drop 1 fs) i k))) unit_sys.
Proof.
  intros l bi output.
  apply (NonDiscoverable_bloom_exact (C:=sass_config) l output 25 true false bi unit_sys).
  - apply test_list_ok.
  - reflexivity.
  - split; apply Nat.leb_le; vm_compute; reflexivity.
Defined.

Example KeybasedPairingResponse_layout_witness :
  wp (nearby_fp_CreateRawKeybasedPairingResponse (C:=default_config) (replicate 16 0) false)
    (fun r x' => fst r = kNearbyStatusOK /\ length (snd r) = 16%nat /\ bytes_ok (snd r)
       /\ st x' = st unit_sys /\ ext asks_address unit_sys x'
       /\ exists salt, snd r = ([1] ++ be_bytes 6 0xA0A1A2A3A4A5) ++ salt) unit_sys.
Proof.
  apply (KeybasedPairingResponse_layout (C:=default_config) (replicate 16 0) false unit_sys).
  - reflexivity.
  - by apply bytes_ok_true.
Defined.
