(* ===== verification/ClientState.v ===== *)
(** The state of the Fast Pair provider, src/embedded/client/source/nearby_fp_client.c:
    its static variables as the record [client], the list of peers that may pair
    retroactively, the table of message stream connections, and the predicates and
    small helpers the handlers share.

    [client_callbacks] is represented by [on_event_set] (the pointer and its
    [on_event] are not NULL), a timer handle by an integer, NULL being 0.  The
    static [account_key_list] of nearby_fp_library.c is part of the state. *)

From Stdlib Require Import ZArith Lia.
From stdpp Require Import base list numbers.
From S2P Require Import Prelude Utils Platform SecureElement TestPlatform Crypto AccountKeys.
From S2P Require Import MessageStream Advertisement.
Import Utils.

(** * Constants *)

Definition ENCRYPTED_REQUEST_LENGTH : nat := 16.
Definition PUBLIC_KEY_LENGTH : nat := 64.
Definition REQUEST_BT_ADDRESS_OFFSET : nat := 2.
Definition MAX_PAIRING_FAILURE_COUNT : Z := 10.
Definition REJECT_PAIRING_TIMEOUT_MS : Z := 5 * 60 * 1000.
Definition PASSKEY_MAX_WAIT_TIME_MS : Z := 10000.
Definition WAIT_FOR_PAIRING_REQUEST_TIME_MS : Z := 10000.
Definition ACCOUNT_KEY_WRITE_TIME_MS : Z := 60000.
Definition RETRO_PAIRING_REQUEST_TIME_MS : Z := 60000.
Definition WAIT_FOR_PAIRING_RESULT_AFTER_ACCOUNT_KEY_TIME_MS : Z := 60000.
Definition KEY_BASED_PAIRING_REQUEST_FLAG : Z := 0x00.
Definition ACTION_REQUEST_FLAG : Z := 0x10.
Definition KBPR_INITIATE_PAIRING_MASK : Z := Z.shiftl 1 6.
Definition KBPR_NOTIFY_EXISTING_NAME_MASK : Z := Z.shiftl 1 5.
Definition KBPR_RETROACTIVELY_WRITE_ACCOUNT_KEY_MASK : Z := Z.shiftl 1 4.
Definition KBPR_SEEKER_SUPPORTS_BLE_DEVICES_MASK : Z := Z.shiftl 1 3.
Definition KBPR_SEEKER_ADDRESS_OFFSET : nat := 8.
Definition ACTION_REQUEST_DEVICE_ACTION_MASK : Z := Z.shiftl 1 7.
Definition ACTION_REQUEST_WILL_WRITE_DATA_CHARACTERISTIC_MASK : Z := Z.shiftl 1 6.
Definition SEEKER_PASSKEY_MESSAGE_TYPE : Z := 0x02.
Definition PROVIDER_PASSKEY_MESSAGE_TYPE : Z := 0x03.
Definition ACCOUNT_KEY_WRITE_MESSAGE_TYPE : Z := 0x04.
Definition PERSONALIZED_NAME_DATA_ID : Z := 1.
Definition INVALID_BATTERY_LEVEL : Z := -1.
Definition INVALID_PEER_ADDRESS : Z := 0.
Definition BATTERY_LEVELS_SIZE : nat := 3.
Definition BATTERY_TIME_SIZE : nat := 2.
Definition PSM_MESSAGE_LENGTH : nat := 3.
Definition ADDRESS_ROTATION_PERIOD_MS : Z := 1024000.
Definition MAX_DEVICE_BITMAP_SIZE : nat := 4.
Definition MAX_NOTIFY_CONNECTION_STATUS_MESSAGE_SIZE : nat :=
  3 + MAX_DEVICE_BITMAP_SIZE + SESSION_NONCE_SIZE.
Definition SEEKER_IS_NOT_ACTIVE_DEVICE : Z := 0.
Definition SEEKER_IS_ACTIVE_DEVICE : Z := 1.
Definition SEEKER_IS_NON_SASS : Z := 2.
Definition SASS_NOTIFY_MULTIPOINT_SWITCH_EVENT_NAME_OFFSET : nat := 2.
Definition SASS_NOTIFY_MULTIPOINT_SWITCH_EVENT_TARGET_THIS_DEVICE : Z := 1.
Definition SASS_NOTIFY_MULTIPOINT_SWITCH_EVENT_TARGET_ANOTHER_DEVICE : Z := 2.
Definition kSassVersion : Z := 0x101.

(** nearby_fp_client.h *)
Definition NEARBY_FP_ADVERTISEMENT_NONE : Z := 0x00.
Definition NEARBY_FP_ADVERTISEMENT_DISCOVERABLE : Z := 0x01.
Definition NEARBY_FP_ADVERTISEMENT_NON_DISCOVERABLE : Z := 0x02.
Definition NEARBY_FP_ADVERTISEMENT_PAIRING_UI_INDICATOR : Z := 0x04.
Definition NEARBY_FP_ADVERTISEMENT_INCLUDE_BATTERY_INFO : Z := 0x08.
Definition NEARBY_FP_ADVERTISEMENT_BATTERY_UI_INDICATOR : Z := 0x10.
Definition NEARBY_FP_ADVERTISEMENT_SASS : Z := 0x20.

(** nearby_event.h *)
Definition MESSAGE_GROUP_BLUETOOTH : Z := 1.
Definition MESSAGE_CODE_ENABLE_SILENCE_MODE : Z := 1.
Definition MESSAGE_CODE_DISABLE_SILENCE_MODE : Z := 2.
Definition MESSAGE_GROUP_COMPANION_APP_EVENT : Z := 2.
Definition MESSAGE_CODE_LOG_BUFFER_FULL : Z := 1.
Definition MESSAGE_GROUP_DEVICE_INFORMATION_EVENT : Z := 3.
Definition MESSAGE_CODE_MODEL_ID : Z := 1.
Definition MESSAGE_CODE_BLE_ADDRESS_UPDATED : Z := 2.
Definition MESSAGE_CODE_BATTERY_UPDATED : Z := 3.
Definition MESSAGE_CODE_REMAINING_BATTERY_TIME : Z := 4.
Definition MESSAGE_CODE_ACTIVE_COMPONENT_REQUEST : Z := 5.
Definition MESSAGE_CODE_ACTIVE_COMPONENT_RESPONSE : Z := 6.
Definition MESSAGE_CODE_CAPABILITIES : Z := 7.
Definition MESSAGE_CODE_CAPABILITIES_COMPANION_APP_INSTALLED : Z := 0.
Definition MESSAGE_CODE_CAPABILITIES_SILENCE_MODE_SUPPORTED : Z := 1.
Definition MESSAGE_CODE_PLATFORM_TYPE : Z := 8.
Definition MESSAGE_CODE_SESSION_NONCE : Z := 0x0A.
Definition MESSAGE_GROUP_DEVICE_ACTION_EVENT : Z := 4.
Definition MESSAGE_CODE_RING : Z := 1.
Definition MESSAGE_GROUP_SASS : Z := 7.
Definition MESSAGE_CODE_SASS_GET_CAPABILITY : Z := 0x10.
Definition MESSAGE_CODE_SASS_NOTIFY_CAPABILITY : Z := 0x11.
Definition MESSAGE_CODE_SASS_SET_MULTIPOINT_STATE : Z := 0x12.
Definition MESSAGE_CODE_SASS_SET_SWITCHING_PREFERENCE : Z := 0x20.
Definition MESSAGE_CODE_SASS_GET_SWITCHING_PREFERENCE : Z := 0x21.
Definition MESSAGE_CODE_SASS_NOTIFY_SWITCHING_PREFERENCE : Z := 0x22.
Definition MESSAGE_CODE_SASS_SWITCH_ACTIVE_AUDIO_SOURCE : Z := 0x30.
Definition MESSAGE_CODE_SASS_SWITCH_BACK_AUDIO_SOURCE : Z := 0x31.
Definition MESSAGE_CODE_SASS_NOTIFY_MULTIPOINT_SWITCH_EVENT : Z := 0x32.
Definition MESSAGE_CODE_SASS_GET_CONNECTION_STATUS : Z := 0x33.
Definition MESSAGE_CODE_SASS_NOTIFY_CONNECTION_STATUS : Z := 0x34.
Definition MESSAGE_CODE_SASS_NOTIFY_SASS_INITIATED_CONNECTION : Z := 0x40.
Definition MESSAGE_CODE_SASS_IN_USE_ACCOUNT_KEY : Z := 0x41.
Definition MESSAGE_CODE_SASS_SEND_CUSTOM_DATA : Z := 0x42.
Definition MESSAGE_CODE_SASS_SET_DROP_CONNECTION_TARGET : Z := 0x43.

(** * State *)

Inductive PairingState : Type :=
| kPairingStateIdle
| kPairingStateWaitingForPairingRequest
| kPairingStateWaitingForPasskey
| kPairingStateWaitingForPairingResult
| kPairingStateWaitingForAccountKeyWrite
| kPairingStateWaitingForAdditionalData.

#[export] Instance PairingState_eq_dec : EqDecision PairingState.
Proof. solve_decision. Defined.

Definition state_eqb (a b : PairingState) : bool := bool_decide (a = b).

(** The buffer is inside [input_state]. *)
Record rfcomm_input : Type := RfcommInput {
  input_state : nearby_message_stream_State;
  session_nonce : list Z;
  in_use_account_key : list Z;
  capabilities : Z;
  platform_type : Z;
  platform_build : Z;
}.

Record retroactive_pairing_peer : Type := RetroPeer {
  retro_public_address : Z;
  retro_le_address : Z;
  retroactive_pairing_time_start_ms : Z;
}.

Record client : Type := Client {
  pairing_state : PairingState;
  on_event_set : bool;
  timeout_start_ms : Z;
  pairing_failure_count : Z;
  reject_pairing_time_start_ms : Z;
  peer_public_address : Z;
  advertisement_mode : Z;
  account_key_info : nearby_platform_AccountKeyInfo;
  pending_account_key_info : nearby_platform_AccountKeyInfo;
  gatt_peer_address : Z;
  address_rotation_timestamp : Z;
  address_rotation_task : Z;
  additional_data_id : Z;
  sass_custom_data : Z;
  rfcomm_inputs : list rfcomm_input;
  retroactive_pairing_list : list retroactive_pairing_peer;
  account_key_list : AccountKeyList;
}.

Definition set_pairing_state (v : PairingState) (c : client) : client :=
  Client v (on_event_set c) (timeout_start_ms c) (pairing_failure_count c)
    (reject_pairing_time_start_ms c) (peer_public_address c) (advertisement_mode c)
    (account_key_info c) (pending_account_key_info c) (gatt_peer_address c)
    (address_rotation_timestamp c) (address_rotation_task c) (additional_data_id c)
    (sass_custom_data c) (rfcomm_inputs c) (retroactive_pairing_list c)
    (account_key_list c).
Definition set_on_event_set (v : bool) (c : client) : client :=
  Client (pairing_state c) v (timeout_start_ms c) (pairing_failure_count c)
    (reject_pairing_time_start_ms c) (peer_public_address c) (advertisement_mode c)
    (account_key_info c) (pending_account_key_info c) (gatt_peer_address c)
    (address_rotation_timestamp c) (address_rotation_task c) (additional_data_id c)
    (sass_custom_data c) (rfcomm_inputs c) (retroactive_pairing_list c)
    (account_key_list c).
Definition set_timeout_start_ms (v : Z) (c : client) : client :=
  Client (pairing_state c) (on_event_set c) v (pairing_failure_count c)
    (reject_pairing_time_start_ms c) (peer_public_address c) (advertisement_mode c)
    (account_key_info c) (pending_account_key_info c) (gatt_peer_address c)
    (address_rotation_timestamp c) (address_rotation_task c) (additional_data_id c)
    (sass_custom_data c) (rfcomm_inputs c) (retroactive_pairing_list c)
    (account_key_list c).
Definition set_pairing_failure_count (v : Z) (c : client) : client :=
  Client (pairing_state c) (on_event_set c) (timeout_start_ms c) v
    (reject_pairing_time_start_ms c) (peer_public_address c) (advertisement_mode c)
    (account_key_info c) (pending_account_key_info c) (gatt_peer_address c)
    (address_rotation_timestamp c) (address_rotation_task c) (additional_data_id c)
    (sass_custom_data c) (rfcomm_inputs c) (retroactive_pairing_list c)
    (account_key_list c).
Definition set_reject_pairing_time_start_ms (v : Z) (c : client) : client :=
  Client (pairing_state c) (on_event_set c) (timeout_start_ms c)
    (pairing_failure_count c) v (peer_public_address c) (advertisement_mode c)
    (account_key_info c) (pending_account_key_info c) (gatt_peer_address c)
    (address_rotation_timestamp c) (address_rotation_task c) (additional_data_id c)
    (sass_custom_data c) (rfcomm_inputs c) (retroactive_pairing_list c)
    (account_key_list c).
Definition set_peer_public_address (v : Z) (c : client) : client :=
  Client (pairing_state c) (on_event_set c) (timeout_start_ms c)
    (pairing_failure_count c) (reject_pairing_time_start_ms c) v (advertisement_mode c)
    (account_key_info c) (pending_account_key_info c) (gatt_peer_address c)
    (address_rotation_timestamp c) (address_rotation_task c) (additional_data_id c)
    (sass_custom_data c) (rfcomm_inputs c) (retroactive_pairing_list c)
    (account_key_list c).
Definition set_advertisement_mode (v : Z) (c : client) : client :=
  Client (pairing_state c) (on_event_set c) (timeout_start_ms c)
    (pairing_failure_count c) (reject_pairing_time_start_ms c) (peer_public_address c) v
    (account_key_info c) (pending_account_key_info c) (gatt_peer_address c)
    (address_rotation_timestamp c) (address_rotation_task c) (additional_data_id c)
    (sass_custom_data c) (rfcomm_inputs c) (retroactive_pairing_list c)
    (account_key_list c).
Definition set_account_key_info (v : nearby_platform_AccountKeyInfo) (c : client) : client :=
  Client (pairing_state c) (on_event_set c) (timeout_start_ms c)
    (pairing_failure_count c) (reject_pairing_time_start_ms c) (peer_public_address c)
    (advertisement_mode c) v (pending_account_key_info c) (gatt_peer_address c)
    (address_rotation_timestamp c) (address_rotation_task c) (additional_data_id c)
    (sass_custom_data c) (rfcomm_inputs c) (retroactive_pairing_list c)
    (account_key_list c).
Definition set_pending_account_key_info (v : nearby_platform_AccountKeyInfo) (c : client) : client :=
  Client (pairing_state c) (on_event_set c) (timeout_start_ms c)
    (pairing_failure_count c) (reject_pairing_time_start_ms c) (peer_public_address c)
    (advertisement_mode c) (account_key_info c) v (gatt_peer_address c)
    (address_rotation_timestamp c) (address_rotation_task c) (additional_data_id c)
    (sass_custom_data c) (rfcomm_inputs c) (retroactive_pairing_list c)
    (account_key_list c).
Definition set_gatt_peer_address (v : Z) (c : client) : client :=
  Client (pairing_state c) (on_event_set c) (timeout_start_ms c)
    (pairing_failure_count c) (reject_pairing_time_start_ms c) (peer_public_address c)
    (advertisement_mode c) (account_key_info c) (pending_account_key_info c) v
    (address_rotation_timestamp c) (address_rotation_task c) (additional_data_id c)
    (sass_custom_data c) (rfcomm_inputs c) (retroactive_pairing_list c)
    (account_key_list c).
Definition set_address_rotation_timestamp (v : Z) (c : client) : client :=
  Client (pairing_state c) (on_event_set c) (timeout_start_ms c)
    (pairing_failure_count c) (reject_pairing_time_start_ms c) (peer_public_address c)
    (advertisement_mode c) (account_key_info c) (pending_account_key_info c)
    (gatt_peer_address c) v (address_rotation_task c) (additional_data_id c)
    (sass_custom_data c) (rfcomm_inputs c) (retroactive_pairing_list c)
    (account_key_list c).
Definition set_address_rotation_task (v : Z) (c : client) : client :=
  Client (pairing_state c) (on_event_set c) (timeout_start_ms c)
    (pairing_failure_count c) (reject_pairing_time_start_ms c) (peer_public_address c)
    (advertisement_mode c) (account_key_info c) (pending_account_key_info c)
    (gatt_peer_address c) (address_rotation_timestamp c) v (additional_data_id c)
    (sass_custom_data c) (rfcomm_inputs c) (retroactive_pairing_list c)
    (account_key_list c).
Definition set_additional_data_id (v : Z) (c : client) : client :=
  Client (pairing_state c) (on_event_set c) (timeout_start_ms c)
    (pairing_failure_count c) (reject_pairing_time_start_ms c) (peer_public_address c)
    (advertisement_mode c) (account_key_info c) (pending_account_key_info c)
    (gatt_peer_address c) (address_rotation_timestamp c) (address_rotation_task c) v
    (sass_custom_data c) (rfcomm_inputs c) (retroactive_pairing_list c)
    (account_key_list c).
Definition set_sass_custom_data (v : Z) (c : client) : client :=
  Client (pairing_state c) (on_event_set c) (timeout_start_ms c)
    (pairing_failure_count c) (reject_pairing_time_start_ms c) (peer_public_address c)
    (advertisement_mode c) (account_key_info c) (pending_account_key_info c)
    (gatt_peer_address c) (address_rotation_timestamp c) (address_rotation_task c)
    (additional_data_id c) v (rfcomm_inputs c) (retroactive_pairing_list c)
    (account_key_list c).
Definition set_rfcomm_inputs (v : list rfcomm_input) (c : client) : client :=
  Client (pairing_state c) (on_event_set c) (timeout_start_ms c)
    (pairing_failure_count c) (reject_pairing_time_start_ms c) (peer_public_address c)
    (advertisement_mode c) (account_key_info c) (pending_account_key_info c)
    (gatt_peer_address c) (address_rotation_timestamp c) (address_rotation_task c)
    (additional_data_id c) (sass_custom_data c) v (retroactive_pairing_list c)
    (account_key_list c).
Definition set_retroactive_pairing_list (v : list retroactive_pairing_peer) (c : client) : client :=
  Client (pairing_state c) (on_event_set c) (timeout_start_ms c)
    (pairing_failure_count c) (reject_pairing_time_start_ms c) (peer_public_address c)
    (advertisement_mode c) (account_key_info c) (pending_account_key_info c)
    (gatt_peer_address c) (address_rotation_timestamp c) (address_rotation_task c)
    (additional_data_id c) (sass_custom_data c) (rfcomm_inputs c) v (account_key_list c).
Definition set_account_key_list (v : AccountKeyList) (c : client) : client :=
  Client (pairing_state c) (on_event_set c) (timeout_start_ms c)
    (pairing_failure_count c) (reject_pairing_time_start_ms c) (peer_public_address c)
    (advertisement_mode c) (account_key_info c) (pending_account_key_info c)
    (gatt_peer_address c) (address_rotation_timestamp c) (address_rotation_task c)
    (additional_data_id c) (sass_custom_data c) (rfcomm_inputs c)
    (retroactive_pairing_list c) v.

(** Entries of the tables after [memset]. *)
Definition zero_key_info : nearby_platform_AccountKeyInfo :=
  AccountKeyInfo (replicate ACCOUNT_KEY_SIZE_BYTES 0) 0.
Definition zero_rfcomm_input : rfcomm_input :=
  RfcommInput (StreamState 0 0 0 (Message 0 0 0 [])) (replicate SESSION_NONCE_SIZE 0)
    (replicate ACCOUNT_KEY_SIZE_BYTES 0) 0 0 0.
Definition zero_retro_peer : retroactive_pairing_peer := RetroPeer 0 0 0.

Definition input_peer_address (r : rfcomm_input) : Z := stream_peer_address (input_state r).

Definition set_input_state (x : nearby_message_stream_State) (r : rfcomm_input) : rfcomm_input :=
  RfcommInput x (session_nonce r) (in_use_account_key r) (capabilities r) (platform_type r)
    (platform_build r).
Definition set_in_use_account_key (x : list Z) (r : rfcomm_input) : rfcomm_input :=
  RfcommInput (input_state r) (session_nonce r) x (capabilities r) (platform_type r)
    (platform_build r).
Definition set_capabilities (x : Z) (r : rfcomm_input) : rfcomm_input :=
  RfcommInput (input_state r) (session_nonce r) (in_use_account_key r) x (platform_type r)
    (platform_build r).
Definition set_platform (ty build : Z) (r : rfcomm_input) : rfcomm_input :=
  RfcommInput (input_state r) (session_nonce r) (in_use_account_key r) (capabilities r) ty build.
Definition set_input_peer_address (a : Z) (r : rfcomm_input) : rfcomm_input :=
  set_input_state (StreamState a (stream_length (input_state r)) (bytes_read (input_state r))
    (message (input_state r))) r.

(** [v & BIT(b)] *)
Definition BIT (b : Z) : Z := Z.shiftl 1 b.
Definition ISSET (v b : Z) : bool := nonzero (Z.land v (BIT b)).

Section ClientState.
Context {C : Config} {P : Platform}.

(** * Table access *)

Definition get_input (i : nat) : M client rfcomm_input :=
  let! l := gets rfcomm_inputs in
  match (l : list rfcomm_input) !! i with Some r => mret r | None => lift Fault end.

Definition update_input (i : nat) (f : rfcomm_input -> rfcomm_input) : M client unit :=
  let! r := get_input i in
  modify (fun c => set_rfcomm_inputs (<[i := f r]> (rfcomm_inputs c)) c).

Definition get_peer (i : nat) : M client retroactive_pairing_peer :=
  let! l := gets retroactive_pairing_list in
  match (l : list retroactive_pairing_peer) !! i with Some r => mret r | None => lift Fault end.

Definition put_peer (i : nat) (p : retroactive_pairing_peer) : M client unit :=
  do! get_peer i in
  modify (fun c => set_retroactive_pairing_list (<[i := p]> (retroactive_pairing_list c)) c).

(** * Retroactive pairing *)

(** First loop of [AddRetroactivePairingPeer]: drops expired entries; [true] when
    the peer is already listed.  [k] iterations left. *)
Fixpoint AddRetroactive_expire (k i : nat) (peer_address : Z) : M client bool :=
  match k with
  | O => mret false
  | S k' =>
    let! peer := get_peer i in
    let! now := nearby_platform_GetCurrentTimeMs in
    let! peer :=
      if RETRO_PAIRING_REQUEST_TIME_MS
         <? u32 (now - retroactive_pairing_time_start_ms peer) then
        let peer := RetroPeer INVALID_PEER_ADDRESS INVALID_PEER_ADDRESS
                      (retroactive_pairing_time_start_ms peer) in
        do! put_peer i peer in mret peer
      else mret peer in
    if retro_public_address peer =? peer_address then mret true
    else AddRetroactive_expire k' (S i) peer_address
  end.

(** Second loop: takes the first free entry. *)
Fixpoint AddRetroactive_insert (k i : nat) (peer_address : Z) : M client bool :=
  match k with
  | O => mret false
  | S k' =>
    let! peer := get_peer i in
    if retro_public_address peer =? INVALID_PEER_ADDRESS then
      let! now := nearby_platform_GetCurrentTimeMs in
      do! put_peer i (RetroPeer peer_address (retro_le_address peer) now) in
      mret true
    else AddRetroactive_insert k' (S i) peer_address
  end.

Definition AddRetroactivePairingPeer (peer_address : Z) : M client bool :=
  let! listed := AddRetroactive_expire NEARBY_MAX_RETROACTIVE_PAIRING 0 peer_address in
  if (listed : bool) then mret false
  else AddRetroactive_insert NEARBY_MAX_RETROACTIVE_PAIRING 0 peer_address.

Fixpoint SetRetroactiveLe_loop (k i : nat) (public_address le_address : Z)
  : M client bool :=
  match k with
  | O => mret false
  | S k' =>
    let! peer := get_peer i in
    if retro_public_address peer =? public_address then
      do! put_peer i (RetroPeer (retro_public_address peer) le_address
                        (retroactive_pairing_time_start_ms peer)) in
      mret true
    else SetRetroactiveLe_loop k' (S i) public_address le_address
  end.

Definition SetRetroactivePairingPeerLe (peer_public_address peer_le_address : Z)
  : M client bool :=
  SetRetroactiveLe_loop NEARBY_MAX_RETROACTIVE_PAIRING 0 peer_public_address peer_le_address.

(** [peer->peer_public_address == peer_address || peer->peer_le_address == peer_address] *)
Definition peer_matches (peer_address : Z) (p : retroactive_pairing_peer) : bool :=
  (retro_public_address p =? peer_address) || (retro_le_address p =? peer_address).

Fixpoint RetroactivePending_loop (k i : nat) (peer_address : Z) : M client bool :=
  match k with
  | O => mret false
  | S k' =>
    let! peer := get_peer i in
    if peer_matches peer_address peer then mret true
    else RetroactivePending_loop k' (S i) peer_address
  end.

Definition RetroactivePairingPeerPending (peer_address : Z) : M client bool :=
  RetroactivePending_loop NEARBY_MAX_RETROACTIVE_PAIRING 0 peer_address.

(** The clock is read only for a matching entry. *)
Fixpoint RetroactiveTimeout_loop (k i : nat) (peer_address : Z) : M client bool :=
  match k with
  | O => mret false
  | S k' =>
    let! peer := get_peer i in
    if peer_matches peer_address peer then
      let! now := nearby_platform_GetCurrentTimeMs in
      if RETRO_PAIRING_REQUEST_TIME_MS
         <? u32 (now - retroactive_pairing_time_start_ms peer)
      then mret true
      else RetroactiveTimeout_loop k' (S i) peer_address
    else RetroactiveTimeout_loop k' (S i) peer_address
  end.

Definition RetroactivePairingPeerTimeout (peer_address : Z) : M client bool :=
  RetroactiveTimeout_loop NEARBY_MAX_RETROACTIVE_PAIRING 0 peer_address.

Fixpoint RemoveRetroactive_loop (k i : nat) (peer_address : Z) : M client unit :=
  match k with
  | O => mret tt
  | S k' =>
    let! peer := get_peer i in
    do! (if peer_matches peer_address peer then
           put_peer i (RetroPeer INVALID_PEER_ADDRESS INVALID_PEER_ADDRESS
                         (retroactive_pairing_time_start_ms peer))
         else mret tt) in
    RemoveRetroactive_loop k' (S i) peer_address
  end.

Definition RemoveRetroactivePairingPeer (peer_address : Z) : M client unit :=
  RemoveRetroactive_loop NEARBY_MAX_RETROACTIVE_PAIRING 0 peer_address.

(** * Predicates *)

Definition BtAddressMatch (a b : list Z) : bool :=
  bytes_eqb (take BT_ADDRESS_LENGTH a) (take BT_ADDRESS_LENGTH b).

(** [advertisement_mode & flag] *)
Definition mode_has (flag : Z) : M client bool :=
  let! mode := gets advertisement_mode in mret (nonzero (Z.land mode flag)).

Definition ShowPairingIndicator : M client bool :=
  mode_has NEARBY_FP_ADVERTISEMENT_PAIRING_UI_INDICATOR.
Definition ShowBatteryIndicator : M client bool :=
  mode_has NEARBY_FP_ADVERTISEMENT_BATTERY_UI_INDICATOR.
Definition IncludeBatteryInfo : M client bool :=
  mode_has NEARBY_FP_ADVERTISEMENT_INCLUDE_BATTERY_INFO.

Definition IncludeSass : M client bool :=
  if NEARBY_FP_ENABLE_SASS then mode_has NEARBY_FP_ADVERTISEMENT_SASS else mret false.

(** A connected seeker that has told its in-use key: account keys start with 4. *)
Definition IsSassSeeker (input : rfcomm_input) : bool :=
  negb (input_peer_address input =? INVALID_PEER_ADDRESS)
  && (default 0 (in_use_account_key input !! 0%nat) =? 4).

Definition IsDeviceSass (peer_address : Z) : M client bool :=
  let! l := gets rfcomm_inputs in
  mret (match find (fun r => input_peer_address r =? peer_address) l with
        | Some r => IsSassSeeker r
        | None => false
        end).

Definition FindInUseKey : M client (option (list Z)) :=
  let! l := gets rfcomm_inputs in
  mret (in_use_account_key <$> find IsSassSeeker l).

Definition SelectInUseKey : M client (option (list Z)) :=
  if NEARBY_FP_ENABLE_SASS then
    let! sass := IncludeSass in
    if (sass : bool) then FindInUseKey else mret None
  else mret None.

(** The states in which a pairing procedure is under way. *)
Definition in_pairing_process (s : PairingState) : bool :=
  negb (state_eqb s kPairingStateIdle)
  && negb (state_eqb s kPairingStateWaitingForAccountKeyWrite)
  && negb (state_eqb s kPairingStateWaitingForAdditionalData).

Definition IsInPairingMode : M client bool :=
  let! b := nearby_platform_IsInPairingMode in
  if (b : bool) then mret true else
  let! s := gets pairing_state in mret (in_pairing_process s).

Definition ShouldTimeout (timeout_ms : Z) : M client bool :=
  let! now := nearby_platform_GetCurrentTimeMs in
  let! start := gets timeout_start_ms in
  mret (timeout_ms <? u32 (now - start)).

Definition HasPendingAccountKey : M client bool :=
  let! k := gets pending_account_key_info in
  let! b := lift (load (account_key k) 0) in
  mret (b =? ACCOUNT_KEY_WRITE_MESSAGE_TYPE).

(** * Small updates *)

Definition AccountKeyRejected : M client unit :=
  let! n := gets pairing_failure_count in
  let n := u8 (n + 1) in
  do! modify (set_pairing_failure_count n) in
  if n =? MAX_PAIRING_FAILURE_COUNT then
    let! now := nearby_platform_GetCurrentTimeMs in
    modify (set_reject_pairing_time_start_ms now)
  else mret tt.

Definition DiscardAccountKey : M client unit := modify (set_account_key_info zero_key_info).
Definition DiscardPendingAccountKey : M client unit :=
  modify (set_pending_account_key_info zero_key_info).

Definition SetCustomData (data : Z) : M client unit := modify (set_sass_custom_data data).

(** [*key = value] with [nearby_fp_AddAccountKey] and the save that follows it. *)
Definition add_account_key (k : nearby_platform_AccountKeyInfo) : M client unit :=
  let! l := gets account_key_list in
  let! l := lift (nearby_fp_AddAccountKey l k) in
  modify (set_account_key_list l).

Definition save_account_keys : M client nearby_platform_status :=
  let! l := gets account_key_list in nearby_fp_SaveAccountKeys l.

(** * Message stream connections *)

(** The first index that satisfies [p]. *)
Fixpoint find_index (p : rfcomm_input -> bool) (l : list rfcomm_input) (i : nat)
  : option nat :=
  match l with
  | [] => None
  | r :: l => if p r then Some i else find_index p l (S i)
  end.

Definition GetRfcommInput (peer_address : Z) : M client (option nat) :=
  let! l := gets rfcomm_inputs in
  mret (find_index (fun r => input_peer_address r =? peer_address) l 0).

(** The entry after [memset] and the assignments of [InitRfcommInput]; the nonce
    is drawn before the parser is initialised. *)
Definition InitRfcommInput (peer_address : Z) (i : nat) : M client unit :=
  do! get_input i in
  let! nonce := rand_fill SESSION_NONCE_SIZE 0 (replicate SESSION_NONCE_SIZE 0) in
  let len := METADATA_SIZE + Z.of_nat MAX_MESSAGE_STREAM_PAYLOAD_SIZE in
  let state := StreamState peer_address len 0
    (Message 0 0 0 (replicate MAX_MESSAGE_STREAM_PAYLOAD_SIZE 0)) in
  update_input i (fun _ =>
    RfcommInput (nearby_message_stream_Init state) nonce (replicate ACCOUNT_KEY_SIZE_BYTES 0)
      (Z.lor (BIT MESSAGE_CODE_CAPABILITIES_COMPANION_APP_INSTALLED)
             (BIT MESSAGE_CODE_CAPABILITIES_SILENCE_MODE_SUPPORTED)) 0 0).

Definition FindAvailableRfcommInput (peer_address : Z) : M client (option nat) :=
  let! l := gets rfcomm_inputs in
  match find_index (fun r => (input_peer_address r =? INVALID_PEER_ADDRESS)
                             || (input_peer_address r =? peer_address)) l 0 with
  | Some i => do! InitRfcommInput peer_address i in mret (Some i)
  | None => mret None
  end.

(** * Battery *)

(** [None] is NULL. *)
Definition PrepareBatteryInfo : M client (option nearby_platform_BatteryInfo) :=
  let level := u8 INVALID_BATTERY_LEVEL in
  let! ' (status, b) := nearby_platform_GetBatteryInfo (BatteryInfo false level level level 0) in
  if negb (status_ok status) then mret None else mret (Some b).

Definition SendBatteryInfoMessage (peer_address : Z) : M client nearby_platform_status :=
  let! levels := uninit BATTERY_LEVELS_SIZE in
  let! battery_info := PrepareBatteryInfo in
  match (battery_info : option nearby_platform_BatteryInfo) with
  | None => mret kNearbyStatusOK
  | Some b =>
    let! levels := lift (SerializeBatteryInfo levels 0 b) in
    nearby_message_stream_Send peer_address
      (Message MESSAGE_GROUP_DEVICE_INFORMATION_EVENT MESSAGE_CODE_BATTERY_UPDATED
         (Z.of_nat BATTERY_LEVELS_SIZE) levels)
  end.

Definition SendBatteryTimeMessage (peer_address : Z) : M client nearby_platform_status :=
  let! time := uninit BATTERY_TIME_SIZE in
  let! battery_info := PrepareBatteryInfo in
  match (battery_info : option nearby_platform_BatteryInfo) with
  | None => mret kNearbyStatusOK
  | Some b =>
    let minutes := remaining_time_minutes b in
    let! ' (time, len) :=
      if 255 <? minutes then
        let! time := lift (store time 0 (Z.shiftr minutes 8)) in
        let! time := lift (store time 1 (Z.land minutes 0xff)) in
        mret (time, 2)
      else
        let! time := lift (store time 0 minutes) in
        mret (time, 1) in
    nearby_message_stream_Send peer_address
      (Message MESSAGE_GROUP_DEVICE_INFORMATION_EVENT MESSAGE_CODE_REMAINING_BATTERY_TIME len time)
  end.

(** * BLE address messages *)

Definition ble_address_message : M client nearby_message_stream_Message :=
  let! buffer := uninit BT_ADDRESS_LENGTH in
  let! address := nearby_platform_GetBleAddress in
  let! buffer := lift (nearby_utils_CopyBigEndian buffer 0 address BT_ADDRESS_LENGTH) in
  mret (Message MESSAGE_GROUP_DEVICE_INFORMATION_EVENT MESSAGE_CODE_BLE_ADDRESS_UPDATED
          (Z.of_nat BT_ADDRESS_LENGTH) buffer).

Definition SendBleAddressUpdated (peer_address : Z) : M client nearby_platform_status :=
  let! m := ble_address_message in nearby_message_stream_Send peer_address m.

(** [k] connections left. *)
Fixpoint send_to_connected (k i : nat) (m : nearby_message_stream_Message) : M client unit :=
  match k with
  | O => mret tt
  | S k' =>
    let! input := get_input i in
    do! (if negb (input_peer_address input =? INVALID_PEER_ADDRESS) then
           do! nearby_message_stream_Send (input_peer_address input) m in mret tt
         else mret tt) in
    send_to_connected k' (S i) m
  end.

Definition SendBleAddressUpdatedToAll : M client unit :=
  let! m := ble_address_message in
  send_to_connected NEARBY_MAX_RFCOMM_CONNECTIONS 0 m.

End ClientState.
