(* ===== verification/ClientAdvertising.v ===== *)
(** Advertising and address rotation of
    src/embedded/client/source/nearby_fp_client.c: the advertisement modes, the
    non-discoverable advertisement with battery and SASS information, the rotation
    of the BLE address and its timer, and the battery notification. *)

From Stdlib Require Import ZArith Lia.
From stdpp Require Import base list numbers.
From S2P Require Import Prelude Utils Platform SecureElement TestPlatform Crypto AccountKeys.
From S2P Require Import MessageStream Advertisement ClientState.
Import Utils.

Section Advertising.
Context {C : Config} {P : Platform}.

(** * Address rotation *)

(** [for (i = 0; i < BT_ADDRESS_LENGTH; i++) address = (address << 8) ^ nearby_platform_Rand();] *)
Fixpoint random_address (k : nat) (address : Z) : M client Z :=
  match k with
  | O => mret address
  | S k' =>
    let! r := nearby_platform_Rand in
    random_address k' (Z.lxor (u64 (Z.shiftl address 8)) r)
  end.

Definition RotateBleAddress : M client unit :=
  let! now := nearby_platform_GetCurrentTimeMs in
  do! modify (set_address_rotation_timestamp now) in
  do! nearby_platform_SetAdvertisement [] kDisabled in
  if NEARBY_FP_HAVE_BLE_ADDRESS_ROTATION then
    do! nearby_platform_RotateBleAddress in mret tt
  else
    let! address := random_address BT_ADDRESS_LENGTH 0 in
    let address := Z.lor address (Z.shiftl 1 46) in
    let address := Z.land address (Z.lnot (Z.shiftl 1 47)) in
    do! nearby_platform_SetBleAddress address in
    SendBleAddressUpdatedToAll.

(** [for (i = i; i < 5; i++)], [k] iterations left. *)
Fixpoint GetRotationDelayMs_loop (k i : nat) (delay_ms : Z) : M client Z :=
  match k with
  | O => mret delay_ms
  | S k' =>
    let! r := nearby_platform_Rand in
    GetRotationDelayMs_loop k' (S i)
      (u32 (delay_ms + Z.shiftl 50 (Z.of_nat i) * s8 r))
  end.

Definition GetRotationDelayMs : M client Z :=
  GetRotationDelayMs_loop 5 0 ADDRESS_ROTATION_PERIOD_MS.

Definition CancelAddressRotationTimer : M client unit :=
  let! task := gets address_rotation_task in
  do! modify (set_address_rotation_task 0) in
  if negb (task =? 0) then do! nearby_platform_CancelTimer task in mret tt
  else mret tt.

Definition ScheduleAddressRotation : M client unit :=
  do! CancelAddressRotationTimer in
  let! delay := GetRotationDelayMs in
  let! task := nearby_platform_StartTimer MaybeRotateBleAddress_cb delay in
  modify (set_address_rotation_task task).

(** * Advertisements *)

(** The SASS part of [SetNonDiscoverableAdvertisement]: the advertisement, its new
    length, and a status other than OK when the function returns early. *)
Definition add_sass_field (advertisement : list Z) (len : nat) (in_use_key : option (list Z))
  : M client (nearby_platform_status * (list Z * nat)) :=
  let size := NON_DISCOVERABLE_ADV_SIZE_BYTES in
  let! l := gets account_key_list in
  let! key :=
    match in_use_key with
    | Some k => mret k
    | None => let! info := lift (nearby_fp_GetAccountKey l 0) in mret (account_key info)
    end in
  let! device_bitmap := nearby_platform_GetConnectionBitmap MAX_DEVICE_BITMAP_SIZE in
  let! state := nearby_fp_GetSassConnectionState in
  let! custom := gets sass_custom_data in
  let! ' (advertisement, sass_length) :=
    lift (nearby_fp_GenerateSassAdvertisement advertisement (len + RRF_HEADER_SIZE)
            (size - len - RRF_HEADER_SIZE) state custom device_bitmap) in
  let! salt_field := lift (nearby_fp_FindLtv advertisement SALT_FIELD_TYPE) in
  let! ' (status, advertisement) :=
    nearby_fp_EncryptRandomResolvableField advertisement len (RRF_HEADER_SIZE + sass_length)
      key salt_field in
  if negb (status_ok status) then mret (status, (advertisement, len)) else
  let len := (len + (RRF_HEADER_SIZE + sass_length))%nat in
  let! advertisement := lift (store advertisement 0 (Z.of_nat len - 1)) in
  mret (kNearbyStatusOK, (advertisement, len)).

Definition SetNonDiscoverableAdvertisement : M client nearby_platform_status :=
  let size := NON_DISCOVERABLE_ADV_SIZE_BYTES in
  let! advertisement := uninit size in
  let! in_use_key := SelectInUseKey in
  let! show_pairing := ShowPairingIndicator in
  let! show_battery := ShowBatteryIndicator in
  let! include_battery := IncludeBatteryInfo in
  let! battery := if (include_battery : bool) then PrepareBatteryInfo else mret None in
  let! l := gets account_key_list in
  let! ' (advertisement, len) :=
    nearby_fp_CreateNondiscoverableAdvertisementWithBattery l advertisement size
      show_pairing show_battery battery in
  let! sass := IncludeSass in
  let! ' (status, (advertisement, len)) :=
    if sass && (0 <? nearby_fp_GetAccountKeyCount l)
    then add_sass_field advertisement len in_use_key
    else mret (kNearbyStatusOK, (advertisement, len)) in
  if negb (status_ok status) then mret status else
  let! ' (advertisement, _) := nearby_fp_SetBloomFilter l advertisement sass in_use_key in
  let! tx := nearby_platform_GetTxLevel in
  let! ' (advertisement, n) := lift (nearby_fp_AppendTxPower advertisement len (size - len) tx) in
  let! payload := lift (read_bytes advertisement 0 (len + n)) in
  nearby_platform_SetAdvertisement payload kNoLargerThan250ms.

Definition EnterDisabledMode : M client nearby_platform_status :=
  do! nearby_platform_SetDefaultCapabilities in
  nearby_platform_SetAdvertisement [] kDisabled.

Definition EnterDiscoverableMode : M client nearby_platform_status :=
  let! advertisement := uninit DISCOVERABLE_ADV_SIZE_BYTES in
  let! s := gets pairing_state in
  if in_pairing_process s then mret kNearbyStatusError else
  let! ' (advertisement, len) :=
    nearby_fp_CreateDiscoverableAdvertisement advertisement DISCOVERABLE_ADV_SIZE_BYTES in
  let! tx := nearby_platform_GetTxLevel in
  let! ' (advertisement, n) :=
    lift (nearby_fp_AppendTxPower advertisement len (DISCOVERABLE_ADV_SIZE_BYTES - len) tx) in
  let! payload := lift (read_bytes advertisement 0 (len + n)) in
  nearby_platform_SetAdvertisement payload kNoLargerThan100ms.

Definition EnterNonDiscoverableMode : M client nearby_platform_status :=
  let! s := gets pairing_state in
  if in_pairing_process s then mret kNearbyStatusError else
  do! nearby_platform_SetDefaultCapabilities in
  SetNonDiscoverableAdvertisement.

Definition UpdateAdvertisements : M client nearby_platform_status :=
  let! mode := gets advertisement_mode in
  if mode =? NEARBY_FP_ADVERTISEMENT_NONE then EnterDisabledMode else
  if nonzero (Z.land mode NEARBY_FP_ADVERTISEMENT_DISCOVERABLE) then EnterDiscoverableMode else
  if nonzero (Z.land mode NEARBY_FP_ADVERTISEMENT_NON_DISCOVERABLE)
  then EnterNonDiscoverableMode
  else mret kNearbyStatusUnsupported.

Definition ShouldRotateBleAddress (mode : Z) : M client bool :=
  let! pairing := IsInPairingMode in
  if (pairing : bool) then mret false else
  let! current := gets advertisement_mode in
  mret (nonzero (Z.land mode NEARBY_FP_ADVERTISEMENT_DISCOVERABLE)
        && negb (nonzero (Z.land current NEARBY_FP_ADVERTISEMENT_DISCOVERABLE))).

(** The callback of the rotation timer. *)
Definition MaybeRotateBleAddress : M client unit :=
  do! ScheduleAddressRotation in
  let! pairing := IsInPairingMode in
  if (pairing : bool) then mret tt else
  do! RotateBleAddress in
  do! UpdateAdvertisements in mret tt.

Definition NeedsPeriodicAddressRotation : M client bool :=
  mode_has (Z.lor NEARBY_FP_ADVERTISEMENT_DISCOVERABLE NEARBY_FP_ADVERTISEMENT_NON_DISCOVERABLE).

Definition nearby_fp_client_SetAdvertisement (mode : Z) : M client nearby_platform_status :=
  let! current := gets advertisement_mode in
  if current =? mode then mret kNearbyStatusOK else
  let! rotate := ShouldRotateBleAddress mode in
  do! (if (rotate : bool)
       then do! CancelAddressRotationTimer in RotateBleAddress
       else mret tt) in
  do! modify (set_advertisement_mode mode) in
  let! periodic := NeedsPeriodicAddressRotation in
  let! task := gets address_rotation_task in
  do! (if periodic && (task =? 0) then ScheduleAddressRotation else mret tt) in
  UpdateAdvertisements.

(** * Battery notification *)

Fixpoint send_battery_to_connected (k i : nat) : M client unit :=
  match k with
  | O => mret tt
  | S k' =>
    let! input := get_input i in
    do! (if negb (input_peer_address input =? INVALID_PEER_ADDRESS) then
           do! SendBatteryInfoMessage (input_peer_address input) in
           do! SendBatteryTimeMessage (input_peer_address input) in mret tt
         else mret tt) in
    send_battery_to_connected k' (S i)
  end.

Definition OnBatteryChanged : M client unit :=
  let! s := gets pairing_state in
  if in_pairing_process s then mret tt else
  let! include := IncludeBatteryInfo in
  let! nondiscoverable := mode_has NEARBY_FP_ADVERTISEMENT_NON_DISCOVERABLE in
  let! ok :=
    if include && nondiscoverable then
      let! status := nearby_platform_SetAdvertisement [] kDisabled in
      if negb (status_ok status) then mret false else
      let! status := SetNonDiscoverableAdvertisement in
      mret (status_ok status)
    else mret true in
  if negb ok then mret tt else
  send_battery_to_connected NEARBY_MAX_RFCOMM_CONNECTIONS 0.

End Advertising.
