(* ===== verification/ClientPairing.v ===== *)
(** Pairing in src/embedded/client/source/nearby_fp_client.c: the GATT
    characteristics (key-based pairing, passkey, account key, additional data,
    message stream PSM, model id) and the Bluetooth pairing events.

    A handler is the whole C function: its guards in the order of the code, its
    HAL calls, its changes of the static variables and its status. *)

From Stdlib Require Import ZArith Lia.
From stdpp Require Import base list numbers.
From S2P Require Import Prelude Utils Platform SecureElement TestPlatform Crypto AccountKeys.
From S2P Require Import MessageStream Advertisement ClientState ClientAdvertising.
Import Utils.

Section Pairing.
Context {C : Config} {P : Platform}.

(** * Key-based pairing *)

Definition SendKeyBasedPairingResponse (peer_address : Z) (extended_response : bool)
  : M client nearby_platform_status :=
  let! raw := uninit AES_MESSAGE_SIZE_BYTES in
  let! ' (_, raw) := nearby_fp_CreateRawKeybasedPairingResponse raw extended_response in
  let! info := gets account_key_info in
  let! ' (status, encrypted) := nearby_platform_Aes128Encrypt raw (account_key info) in
  if negb (status_ok status) then mret status else
  nearby_platform_GattNotify peer_address kKeyBasedPairing encrypted.

Definition NotifyPersonalizedName (peer_address : Z) : M client nearby_platform_status :=
  let! data := uninit (ADDITIONAL_DATA_HEADER_SIZE + PERSONALIZED_NAME_MAX_SIZE) in
  let! ' (status, name) :=
    nearby_platform_LoadValue kStoredKeyPersonalizedName PERSONALIZED_NAME_MAX_SIZE in
  if negb (status_ok status) then mret status else
  let! data := lift (write_bytes data ADDITIONAL_DATA_HEADER_SIZE name) in
  let len := (length name + ADDITIONAL_DATA_HEADER_SIZE)%nat in
  let! packet := lift (read_bytes data 0 len) in
  let! info := gets account_key_info in
  let! ' (status, packet) := nearby_fp_EncodeAdditionalData packet (account_key info) in
  if negb (status_ok status) then mret status else
  do! nearby_platform_GattNotify peer_address kAdditionalData packet in
  mret kNearbyStatusOK.

(** The characters of a C string: the bytes before the first NUL. *)
Fixpoint c_string (l : list Z) : list Z :=
  match l with
  | [] => []
  | c :: l => if c =? 0 then [] else c :: c_string l
  end.

(** [name] has room for PERSONALIZED_NAME_MAX_SIZE characters and the NUL. *)
Definition SaveAdditionalData (data : list Z) : M client nearby_platform_status :=
  let! id := gets additional_data_id in
  if id =? PERSONALIZED_NAME_DATA_ID then
    let! name := uninit (PERSONALIZED_NAME_MAX_SIZE + 1) in
    let! name := lift (write_bytes name 0 data) in
    let! name := lift (store name (length data) 0) in
    do! nearby_platform_SetDeviceName (c_string name) in
    nearby_platform_SaveValue kStoredKeyPersonalizedName data
  else mret kNearbyStatusUnsupported.

Definition OnAdditionalDataWrite (peer_address : Z) (request : list Z)
  : M client nearby_platform_status :=
  let! s := gets pairing_state in
  if negb (state_eqb s kPairingStateWaitingForAdditionalData) then mret kNearbyStatusError else
  let! info := gets account_key_info in
  let! ' (status, request) := nearby_fp_DecodeAdditionalData request (account_key info) in
  do! DiscardAccountKey in
  let! status :=
    if status_ok status then SaveAdditionalData (drop ADDITIONAL_DATA_HEADER_SIZE request)
    else mret status in
  do! modify (set_pairing_state kPairingStateIdle) in
  mret status.

Definition HandleKeyBasedPairingRequest (peer_address : Z) (request : list Z)
  : M client nearby_platform_status :=
  let! flags := lift (load request 1) in
  do! (if nonzero (Z.land flags KBPR_NOTIFY_EXISTING_NAME_MASK)
       then do! NotifyPersonalizedName peer_address in mret tt
       else mret tt) in
  if nonzero (Z.land flags KBPR_RETROACTIVELY_WRITE_ACCOUNT_KEY_MASK) then
    let! public_address :=
      lift (nearby_utils_GetBigEndian48 request KBPR_SEEKER_ADDRESS_OFFSET) in
    let! pending := RetroactivePairingPeerPending public_address in
    if negb pending then
      do! RemoveRetroactivePairingPeer public_address in
      mret kNearbyStatusError
    else
    let! set := SetRetroactivePairingPeerLe public_address peer_address in
    if negb set then
      do! RemoveRetroactivePairingPeer public_address in
      mret kNearbyStatusError
    else mret kNearbyStatusOK
  else
  do! nearby_platform_SetFastPairCapabilities in
  if nonzero (Z.land flags KBPR_INITIATE_PAIRING_MASK) then
    let! address := lift (nearby_utils_GetBigEndian48 request KBPR_SEEKER_ADDRESS_OFFSET) in
    do! modify (set_peer_public_address address) in
    do! nearby_platform_SendPairingRequest address in
    do! modify (set_pairing_state kPairingStateWaitingForPasskey) in
    mret kNearbyStatusOK
  else
    do! modify (set_pairing_state kPairingStateWaitingForPairingRequest) in
    let! now := nearby_platform_GetCurrentTimeMs in
    do! modify (set_timeout_start_ms now) in
    mret kNearbyStatusOK.

Definition HandleActionRequest (peer_address : Z) (request : list Z)
  : M client nearby_platform_status :=
  let! flags := lift (load request 1) in
  if nonzero (Z.land flags ACTION_REQUEST_DEVICE_ACTION_MASK)
  then mret kNearbyStatusUnimplemented else
  do! (if nonzero (Z.land flags ACTION_REQUEST_WILL_WRITE_DATA_CHARACTERISTIC_MASK) then
         do! modify (set_pairing_state kPairingStateWaitingForAdditionalData) in
         let! id := lift (load request 10) in
         modify (set_additional_data_id id)
       else mret tt) in
  mret kNearbyStatusOK.

(** The address in a decrypted request is one of the device's. *)
Definition address_matches (ble_address public_address decrypted_request : list Z) : bool :=
  let a := drop REQUEST_BT_ADDRESS_OFFSET decrypted_request in
  BtAddressMatch ble_address a || BtAddressMatch public_address a.

(** Outcome of a step that finds the key of a request: the handler returns a
    status, or goes on with the decrypted request. *)
Inductive key_search : Type :=
| Return (s : nearby_platform_status)
| Matched (decrypted_request : list Z)
| NoMatch.

(** A request with a public key. *)
Definition match_public_key (peer_address : Z) (request ble_address public_address : list Z)
  : M client key_search :=
  let! key := uninit ACCOUNT_KEY_SIZE_BYTES in
  let! remote_public_key := lift (read_bytes request ENCRYPTED_REQUEST_LENGTH PUBLIC_KEY_LENGTH) in
  let! ' (status, key) := nearby_fp_CreateSharedSecret remote_public_key key in
  if negb (status_ok status) then mret (Return status) else
  let! ' (status, decrypted_request) :=
    nearby_platform_Aes128Decrypt (take ENCRYPTED_REQUEST_LENGTH request) key in
  if negb (status_ok status) then mret (Return status) else
  if negb (address_matches ble_address public_address decrypted_request) then mret NoMatch else
  do! modify (fun c => set_account_key_info
        (AccountKeyInfo key (if NEARBY_FP_ENABLE_SASS then peer_address
                             else key_peer_address (account_key_info c))) c) in
  mret (Matched decrypted_request).

(** [for (i = i; i < num_keys; i++)] over the persisted keys, [k] keys left. *)
Fixpoint match_account_key (k : nat) (i : Z) (peer_address : Z)
    (request ble_address public_address : list Z) : M client key_search :=
  match k with
  | O => mret NoMatch
  | S k' =>
    let! l := gets account_key_list in
    let! info := lift (nearby_fp_GetAccountKey l i) in
    let! ' (status, decrypted_request) :=
      nearby_platform_Aes128Decrypt request (account_key info) in
    if negb (status_ok status) then mret (Return status) else
    if address_matches ble_address public_address decrypted_request then
      let! info := lift (nearby_fp_CopyAccountKey l i) in
      let info := if NEARBY_FP_ENABLE_SASS then AccountKeyInfo (account_key info) peer_address
                  else info in
      do! modify (set_account_key_info info) in
      do! add_account_key info in
      do! save_account_keys in
      mret (Matched decrypted_request)
    else match_account_key k' (i + 1) peer_address request ble_address public_address
  end.

(** What follows once a request is authenticated. *)
Definition accept_request (peer_address : Z) (decrypted_request : list Z)
  : M client nearby_platform_status :=
  do! modify (set_pairing_failure_count 0) in
  do! modify (set_gatt_peer_address peer_address) in
  do! DiscardPendingAccountKey in
  let! b0 := lift (load decrypted_request 0) in
  let! b1 := lift (load decrypted_request 1) in
  let extended_response :=
    (b0 =? KEY_BASED_PAIRING_REQUEST_FLAG)
    && nonzero (Z.land b1 KBPR_SEEKER_SUPPORTS_BLE_DEVICES_MASK) in
  return_if_error! SendKeyBasedPairingResponse peer_address extended_response in
  if b0 =? KEY_BASED_PAIRING_REQUEST_FLAG
  then HandleKeyBasedPairingRequest peer_address decrypted_request
  else if b0 =? ACTION_REQUEST_FLAG
  then HandleActionRequest peer_address decrypted_request
  else mret kNearbyStatusOK.

(** The lock after too many failures: [true] when the request is ignored. *)
Definition pairing_locked : M client bool :=
  let! n := gets pairing_failure_count in
  if MAX_PAIRING_FAILURE_COUNT <=? n then
    let! current_time := nearby_platform_GetCurrentTimeMs in
    let! start := gets reject_pairing_time_start_ms in
    if u32 (current_time - start) <? REJECT_PAIRING_TIMEOUT_MS then mret true
    else do! modify (set_pairing_failure_count 0) in mret false
  else mret false.

Definition OnWriteKeyBasedPairing (peer_address : Z) (request : list Z)
  : M client nearby_platform_status :=
  let! locked := pairing_locked in
  if (locked : bool) then mret kNearbyStatusOK else
  let! ble_address := uninit BT_ADDRESS_LENGTH in
  let! public_address := uninit BT_ADDRESS_LENGTH in
  let! a := nearby_platform_GetBleAddress in
  let! ble_address := lift (nearby_utils_CopyBigEndian ble_address 0 a BT_ADDRESS_LENGTH) in
  let! a := nearby_platform_GetPublicAddress in
  let! public_address := lift (nearby_utils_CopyBigEndian public_address 0 a BT_ADDRESS_LENGTH) in
  let len := length request in
  let! found :=
    if (len =? ENCRYPTED_REQUEST_LENGTH + PUBLIC_KEY_LENGTH)%nat
    then match_public_key peer_address request ble_address public_address
    else if (len =? ENCRYPTED_REQUEST_LENGTH)%nat then
      let! l := gets account_key_list in
      match_account_key (Z.to_nat (nearby_fp_GetAccountKeyCount l)) 0 peer_address request
        ble_address public_address
    else mret (Return kNearbyStatusError) in
  match found with
  | Return status => mret status
  | NoMatch => do! AccountKeyRejected in mret kNearbyStatusOK
  | Matched decrypted_request => accept_request peer_address decrypted_request
  end.

(** * Passkey *)

Definition NotifyProviderPasskey (peer_address : Z) : M client nearby_platform_status :=
  let! raw := uninit AES_MESSAGE_SIZE_BYTES in
  let! provider_passkey := nearby_platfrom_GetPairingPassKey in
  let! raw := lift (store raw 0 PROVIDER_PASSKEY_MESSAGE_TYPE) in
  let! raw := lift (nearby_utils_CopyBigEndian raw 1 provider_passkey 3) in
  let! raw := rand_fill (AES_MESSAGE_SIZE_BYTES - 4) 4 raw in
  let! info := gets account_key_info in
  let! ' (status, encrypted) := nearby_platform_Aes128Encrypt raw (account_key info) in
  if negb (status_ok status) then mret status else
  nearby_platform_GattNotify peer_address kPasskey encrypted.

Definition OnPasskeyWrite (peer_address : Z) (request : list Z)
  : M client nearby_platform_status :=
  let! s := gets pairing_state in
  if negb (state_eqb s kPairingStateWaitingForPasskey) then mret kNearbyStatusError else
  let! gatt := gets gatt_peer_address in
  if negb (gatt =? peer_address) then mret kNearbyStatusError else
  let! timeout := ShouldTimeout PASSKEY_MAX_WAIT_TIME_MS in
  if (timeout : bool) then mret kNearbyStatusTimeout else
  if negb (length request =? AES_MESSAGE_SIZE_BYTES)%nat then mret kNearbyStatusError else
  let! info := gets account_key_info in
  let! ' (status, raw) := nearby_platform_Aes128Decrypt request (account_key info) in
  if negb (status_ok status) then do! DiscardAccountKey in mret status else
  let! b0 := lift (load raw 0) in
  if negb (b0 =? SEEKER_PASSKEY_MESSAGE_TYPE) then mret kNearbyStatusError else
  do! modify (set_pairing_state kPairingStateWaitingForPairingResult) in
  do! NotifyProviderPasskey peer_address in
  let! seeker_passkey := lift (nearby_utils_GetBigEndian24 raw 1) in
  do! nearby_platform_SetRemotePasskey seeker_passkey in
  mret kNearbyStatusOK.

(** * Account key *)

(** The second part of [RunPostPairingSteps], after the retroactive pairing
    branch. *)
Definition finish_pairing : M client unit :=
  do! modify (set_pairing_state kPairingStateIdle) in
  do! modify (set_pairing_state kPairingStateWaitingForAdditionalData) in
  do! modify (set_additional_data_id PERSONALIZED_NAME_DATA_ID) in
  let! nondiscoverable := mode_has NEARBY_FP_ADVERTISEMENT_NON_DISCOVERABLE in
  if (nondiscoverable : bool) then
    do! nearby_platform_SetAdvertisement [] kDisabled in
    do! SetNonDiscoverableAdvertisement in mret tt
  else mret tt.

Definition RunPostPairingSteps (peer_address : Z) (k : nearby_platform_AccountKeyInfo)
  : M client unit :=
  do! add_account_key k in
  do! save_account_keys in
  do! DiscardPendingAccountKey in
  let! pending := RetroactivePairingPeerPending peer_address in
  if (pending : bool) then
    do! RemoveRetroactivePairingPeer peer_address in
    do! RetroactivePairingPeerPending peer_address in
    let! s := gets pairing_state in
    if negb (state_eqb s kPairingStateIdle) then mret tt else finish_pairing
  else finish_pairing.

(** The guards of [OnAccountKeyWrite]: a status to return, or whether the key has
    to wait for the end of the pairing. *)
Definition account_key_guard (peer_address : Z) : M client (nearby_platform_status + bool) :=
  let! pending := RetroactivePairingPeerPending peer_address in
  if (pending : bool) then
    let! timeout := RetroactivePairingPeerTimeout peer_address in
    if (timeout : bool) then
      do! RemoveRetroactivePairingPeer peer_address in
      mret (inl kNearbyStatusTimeout)
    else mret (inr false)
  else
    let! s := gets pairing_state in
    let wait_until_paired :=
      state_eqb s kPairingStateWaitingForPairingRequest
      || state_eqb s kPairingStateWaitingForPairingResult
      || state_eqb s kPairingStateWaitingForPasskey in
    if negb wait_until_paired && negb (state_eqb s kPairingStateWaitingForAccountKeyWrite)
    then mret (inl kNearbyStatusError) else
    let! gatt := gets gatt_peer_address in
    let! public := gets peer_public_address in
    if negb (gatt =? peer_address) && negb (public =? peer_address)
    then mret (inl kNearbyStatusError) else
    let! timeout := ShouldTimeout ACCOUNT_KEY_WRITE_TIME_MS in
    if (timeout : bool) then mret (inl kNearbyStatusTimeout)
    else mret (inr wait_until_paired).

Definition OnAccountKeyWrite (peer_address : Z) (request : list Z)
  : M client nearby_platform_status :=
  let! guard := account_key_guard peer_address in
  match guard with
  | inl status => mret status
  | inr wait_until_paired =>
    if negb (length request =? AES_MESSAGE_SIZE_BYTES)%nat then mret kNearbyStatusError else
    let! info := gets account_key_info in
    let! ' (status, decrypted_request) :=
      nearby_platform_Aes128Decrypt request (account_key info) in
    if negb (status_ok status) then mret status else
    let! b0 := lift (load decrypted_request 0) in
    if negb (b0 =? ACCOUNT_KEY_WRITE_MESSAGE_TYPE) then mret kNearbyStatusError else
    if (wait_until_paired : bool) then
      do! modify (fun c => set_pending_account_key_info
            (AccountKeyInfo decrypted_request (key_peer_address (pending_account_key_info c))) c) in
      do! nearby_platform_StartTimer DiscardPendingAccountKey_cb
            WAIT_FOR_PAIRING_RESULT_AFTER_ACCOUNT_KEY_TIME_MS in
      mret kNearbyStatusOK
    else
      do! RunPostPairingSteps peer_address
            (AccountKeyInfo decrypted_request
               (if NEARBY_FP_ENABLE_SASS then peer_address else 0)) in
      mret kNearbyStatusOK
  end.

(** * GATT interface *)

Definition OnGattWrite (peer_address : Z) (characteristic : nearby_fp_Characteristic)
    (request : list Z) : M client nearby_platform_status :=
  match characteristic with
  | kKeyBasedPairing => OnWriteKeyBasedPairing peer_address request
  | kPasskey => OnPasskeyWrite peer_address request
  | kAccountKey => OnAccountKeyWrite peer_address request
  | kAdditionalData => OnAdditionalDataWrite peer_address request
  | kMessageStreamPsm | kModelId | kFirmwareRevision => mret kNearbyStatusUnsupported
  end.

Definition GetMessageStreamPsm : M client Z :=
  if NEARBY_FP_PREFER_LE_TRANSPORT then nearby_platform_GetMessageStreamPsm
  else mret (-1).

(** Status, output buffer, [*length]. *)
Definition OnMesssageStreamPsmRead (output : list Z) (len : nat)
  : M client (nearby_platform_status * list Z * nat) :=
  let! psm := GetMessageStreamPsm in
  if (len <? PSM_MESSAGE_LENGTH)%nat then mret (kNearbyStatusError, output, len) else
  let! output := lift (write_bytes output 0 (replicate PSM_MESSAGE_LENGTH 0)) in
  if (0 <=? psm) && (psm <=? 0xFFFF) then
    let! output := lift (store output 0 1) in
    let! output := lift (store output 1 (Z.shiftr psm 8)) in
    let! output := lift (store output 2 psm) in
    mret (kNearbyStatusOK, output, PSM_MESSAGE_LENGTH)
  else mret (kNearbyStatusOK, output, PSM_MESSAGE_LENGTH).

Definition OnGattRead (peer_address : Z) (characteristic : nearby_fp_Characteristic)
    (output : list Z) (len : nat) : M client (nearby_platform_status * list Z * nat) :=
  match characteristic with
  | kModelId => nearby_fp_GattReadModelId output len
  | kMessageStreamPsm => OnMesssageStreamPsmRead output len
  | kKeyBasedPairing | kPasskey | kAccountKey | kFirmwareRevision | kAdditionalData =>
    mret (kNearbyStatusUnsupported, output, len)
  end.

(** * Bluetooth pairing events *)

Definition OnPairingRequest (peer_address : Z) : M client unit :=
  let! s := gets pairing_state in
  if state_eqb s kPairingStateWaitingForPairingRequest then
    let! timeout := ShouldTimeout WAIT_FOR_PAIRING_REQUEST_TIME_MS in
    if (timeout : bool) then modify (set_pairing_state kPairingStateIdle)
    else
      do! modify (set_pairing_state kPairingStateWaitingForPasskey) in
      do! modify (set_peer_public_address peer_address) in
      let! now := nearby_platform_GetCurrentTimeMs in
      modify (set_timeout_start_ms now)
  else mret tt.

Definition OnPaired (peer_address : Z) : M client unit :=
  let! public := gets peer_public_address in
  let! has := HasPendingAccountKey in
  if (public =? peer_address) && has then
    let! k := gets pending_account_key_info in
    RunPostPairingSteps peer_address k
  else
    do! modify (set_peer_public_address peer_address) in
    let! s := gets pairing_state in
    if state_eqb s kPairingStateWaitingForPairingResult then
      do! modify (set_pairing_state kPairingStateWaitingForAccountKeyWrite) in
      let! now := nearby_platform_GetCurrentTimeMs in
      modify (set_timeout_start_ms now)
    else
      do! AddRetroactivePairingPeer peer_address in mret tt.

Definition OnPairingFailed (peer_address : Z) : M client unit :=
  do! DiscardAccountKey in
  DiscardPendingAccountKey.

End Pairing.
