(* ===== verification/ClientStream.v ===== *)
(** The message stream in src/embedded/client/source/nearby_fp_client.c:
    connections, the messages the provider handles itself (device information,
    ring, Smart Audio Source Switching), the notifications it sends, and the API of
    the client application for messages.

    A [rfcomm_input*] is the index of its entry in the table. *)

From Stdlib Require Import ZArith Lia.
From stdpp Require Import base list numbers.
From S2P Require Import Prelude Utils Platform SecureElement TestPlatform Crypto AccountKeys.
From S2P Require Import MessageStream Advertisement ClientState ClientAdvertising.
Import Utils.

Section Stream.
Context {C : Config} {P : Platform}.

(** [client_callbacks != NULL && client_callbacks->on_event != NULL] *)
Definition notify_event (e : nearby_event_Event) : M client unit :=
  let! set := gets on_event_set in
  if (set : bool) then app_on_event e else mret tt.

(** * Client application API *)

Definition nearby_fp_client_SetSilenceMode (peer_address : Z) (enable : bool)
  : M client nearby_platform_status :=
  let! input := GetRfcommInput peer_address in
  match (input : option nat) with
  | None => mret kNearbyStatusError
  | Some i =>
    let! r := get_input i in
    if negb (ISSET (capabilities r) MESSAGE_CODE_CAPABILITIES_SILENCE_MODE_SUPPORTED)
    then mret kNearbyStatusUnsupported
    else nearby_message_stream_Send peer_address
           (Message MESSAGE_GROUP_BLUETOOTH
              (if enable then MESSAGE_CODE_ENABLE_SILENCE_MODE
               else MESSAGE_CODE_DISABLE_SILENCE_MODE) 0 [])
  end.

Definition nearby_fp_client_SignalLogBufferFull (peer_address : Z)
  : M client nearby_platform_status :=
  let! input := GetRfcommInput peer_address in
  match (input : option nat) with
  | None => mret kNearbyStatusError
  | Some i =>
    let! r := get_input i in
    if negb (ISSET (capabilities r) MESSAGE_CODE_CAPABILITIES_COMPANION_APP_INSTALLED)
    then mret kNearbyStatusOK
    else nearby_message_stream_Send peer_address
           (Message MESSAGE_GROUP_COMPANION_APP_EVENT MESSAGE_CODE_LOG_BUFFER_FULL 0 [])
  end.

Definition nearby_fp_client_SendMessage (peer_address : Z)
    (m : nearby_message_stream_Message) : M client nearby_platform_status :=
  nearby_message_stream_Send peer_address m.

Definition nearby_fp_client_SendAck (peer_address group code : Z)
  : M client nearby_platform_status :=
  nearby_message_stream_SendAck peer_address (Message group code 0 []).

Definition nearby_fp_client_SendNack (peer_address group code fail_reason : Z)
  : M client nearby_platform_status :=
  nearby_message_stream_SendNack peer_address (Message group code 0 []) fail_reason.

Record nearby_fp_client_SeekerInfo : Type := SeekerInfo {
  seeker_peer_address : Z;
  seeker_capabilities : Z;
  seeker_platform_type : Z;
  seeker_platform_build : Z;
}.

(** Entries [i], [i+1], ... of the table; [info] is what has been written. *)
Fixpoint GetSeekerInfo_loop (inputs : list rfcomm_input) (sl : nat)
    (info : list nearby_fp_client_SeekerInfo)
  : nearby_platform_status * list nearby_fp_client_SeekerInfo :=
  match inputs with
  | [] => (kNearbyStatusOK, info)
  | r :: inputs =>
    if negb (input_peer_address r =? INVALID_PEER_ADDRESS) then
      if (sl <=? length info)%nat then (kNearbyStatusInvalidInput, info)
      else GetSeekerInfo_loop inputs sl
             (info ++ [SeekerInfo (input_peer_address r) (capabilities r) (platform_type r)
                         (platform_build r)])
    else GetSeekerInfo_loop inputs sl info
  end.

(** [sl] is the capacity of the caller's array; the result is the part written. *)
Definition nearby_fp_client_GetSeekerInfo (sl : nat)
  : M client (nearby_platform_status * list nearby_fp_client_SeekerInfo) :=
  let! inputs := gets rfcomm_inputs in mret (GetSeekerInfo_loop inputs sl []).

(** * Helpers of the message handlers *)

Definition VerifyMessageLength (peer_address : Z) (m : nearby_message_stream_Message)
    (expected_length : Z) : M client nearby_platform_status :=
  if negb (message_length m =? expected_length) then
    do! nearby_message_stream_SendNack peer_address m 0 in
    mret kNearbyStatusInvalidInput
  else mret kNearbyStatusOK.

Definition SendResponse (peer_address : Z) (m : nearby_message_stream_Message)
    (status : nearby_platform_status) : M client nearby_platform_status :=
  if status_ok status then nearby_message_stream_SendAck peer_address m
  else nearby_message_stream_SendNack peer_address m
         (if bool_decide (status = kNearbyStatusRedundantAction)
          then FAIL_REASON_REDUNDANT_DEVICE_ACTION else 0).

(** * Smart Audio Source Switching *)

Definition GetActiveDeviceFlag (peer_address : Z) : M client Z :=
  let! active_address := nearby_platform_GetActiveAudioSource in
  let! sass := IsDeviceSass active_address in
  mret (if negb sass && negb (active_address =? 0) then SEEKER_IS_NON_SASS
        else if peer_address =? active_address then SEEKER_IS_ACTIVE_DEVICE
        else SEEKER_IS_NOT_ACTIVE_DEVICE).

(** The status and the message as the function leaves it. *)
Definition PrepareNotifyConnectionStatus (m : nearby_message_stream_Message) (i : nat)
  : M client (nearby_platform_status * nearby_message_stream_Message) :=
  do! lift (nearby_assert
    (Z.of_nat MAX_NOTIFY_CONNECTION_STATUS_MESSAGE_SIZE <=? message_length m)) in
  let! input := get_input i in
  let! iv := uninit AES_MESSAGE_SIZE_BYTES in
  let! iv := lift (write_bytes iv 0 (session_nonce input)) in
  let! iv := rand_fill (AES_MESSAGE_SIZE_BYTES - SESSION_NONCE_SIZE) SESSION_NONCE_SIZE iv in
  let code := MESSAGE_CODE_SASS_NOTIFY_CONNECTION_STATUS in
  let! flag := GetActiveDeviceFlag (input_peer_address input) in
  let! data := lift (store (message_data m) 0 flag) in
  let! state := nearby_fp_GetSassConnectionState in
  let! data := lift (store data 1 state) in
  let! custom := gets sass_custom_data in
  let! data := lift (store data 2 custom) in
  let! device_bitmap := nearby_platform_GetConnectionBitmap MAX_DEVICE_BITMAP_SIZE in
  let! data := lift (write_bytes data 3 device_bitmap) in
  let offset := (3 + length device_bitmap)%nat in
  let! nonce := lift (read_bytes iv SESSION_NONCE_SIZE SESSION_NONCE_SIZE) in
  let! data := lift (write_bytes data offset nonce) in
  let! plain := lift (read_bytes data 1 (offset - 1)) in
  let! ' (status, encrypted) := nearby_fp_AesEncryptIv plain iv (in_use_account_key input) in
  let! data := lift (write_bytes data 1 encrypted) in
  if negb (status_ok status)
  then mret (status, Message (message_group m) code (message_length m) data)
  else mret (kNearbyStatusOK,
             Message (message_group m) code (Z.of_nat (offset + SESSION_NONCE_SIZE)) data).

(** [seeker] and [input] are table indexes; [None] is NULL. *)
Definition IsSameAccountKey (a : nat) (b : option nat) : M client bool :=
  match b with
  | None => mret false
  | Some b =>
    if (a =? b)%nat then mret true else
    let! ra := get_input a in
    let! rb := get_input b in
    mret (bytes_eqb (in_use_account_key ra) (in_use_account_key rb))
  end.

Definition UsesInUseAccountKey (input : rfcomm_input) (account_key : option (list Z)) : bool :=
  match account_key with
  | None => false
  | Some k => bytes_eqb (in_use_account_key input) k
  end.

Fixpoint NotifySass_loop (k i : nat) (seeker : option nat) (in_use_key : option (list Z))
  : M client nearby_platform_status :=
  match k with
  | O => mret kNearbyStatusOK
  | S k' =>
    let! input := get_input i in
    let! same := IsSameAccountKey i seeker in
    if IsSassSeeker input && (same || UsesInUseAccountKey input in_use_key) then
      let! buffer := uninit MAX_NOTIFY_CONNECTION_STATUS_MESSAGE_SIZE in
      let! ' (status, reply) := PrepareNotifyConnectionStatus
        (Message MESSAGE_GROUP_SASS 0 (Z.of_nat MAX_NOTIFY_CONNECTION_STATUS_MESSAGE_SIZE) buffer) i in
      if negb (status_ok status) then mret status else
      do! nearby_message_stream_Send (input_peer_address input) reply in
      NotifySass_loop k' (S i) seeker in_use_key
    else NotifySass_loop k' (S i) seeker in_use_key
  end.

Definition NotifySassConnectionStatus (seeker : option nat) : M client nearby_platform_status :=
  let! in_use_key := match seeker with None => SelectInUseKey | Some _ => mret None end in
  NotifySass_loop NEARBY_MAX_RFCOMM_CONNECTIONS 0 seeker in_use_key.

Definition UpdateAndNotifySass (seeker : option nat) : M client unit :=
  let! nondiscoverable := mode_has NEARBY_FP_ADVERTISEMENT_NON_DISCOVERABLE in
  let! sass := IncludeSass in
  do! (if nondiscoverable && sass then
         do! nearby_platform_SetAdvertisement [] kDisabled in
         do! SetNonDiscoverableAdvertisement in mret tt
       else mret tt) in
  do! NotifySassConnectionStatus seeker in mret tt.

Definition OnAudioStateChange : M client unit := UpdateAndNotifySass None.

Definition HexDigit (digit : Z) : Z :=
  if digit <? 10 then 48 + digit else if digit <? 16 then 65 + digit - 10 else 63.

Fixpoint send_switch_event (k i : nat) (peer_address : Z) (m : nearby_message_stream_Message)
  : M client unit :=
  match k with
  | O => mret tt
  | S k' =>
    let! input := get_input i in
    if IsSassSeeker input then
      let! data := lift (store (message_data m) 1
        (if input_peer_address input =? peer_address
         then SASS_NOTIFY_MULTIPOINT_SWITCH_EVENT_TARGET_THIS_DEVICE
         else SASS_NOTIFY_MULTIPOINT_SWITCH_EVENT_TARGET_ANOTHER_DEVICE)) in
      let m := Message (message_group m) (message_code m) (message_length m) data in
      do! nearby_message_stream_Send (input_peer_address input) m in
      send_switch_event k' (S i) peer_address m
    else send_switch_event k' (S i) peer_address m
  end.

(** [name] is the C string without its NUL, [None] is NULL. *)
Definition OnMultipointSwitchEvent (reason peer_address : Z) (name : option (list Z))
  : M client unit :=
  let! data := uninit MAX_MESSAGE_STREAM_PAYLOAD_SIZE in
  let! data := lift (store data 0 reason) in
  let off := SASS_NOTIFY_MULTIPOINT_SWITCH_EVENT_NAME_OFFSET in
  let! ' (data, len) :=
    match name with
    | Some name =>
      let name_length := Nat.min (length name) (MAX_MESSAGE_STREAM_PAYLOAD_SIZE - off) in
      let! data := lift (write_bytes data off (take name_length name)) in
      mret (data, Z.of_nat (off + name_length))
    | None =>
      let digit k := HexDigit (Z.land (Z.shiftr peer_address k) 0xF) in
      let! data := lift (store data 2 (digit 12)) in
      let! data := lift (store data 3 (digit 8)) in
      let! data := lift (store data 4 (digit 4)) in
      let! data := lift (store data 5 (digit 0)) in
      mret (data, 6)
    end in
  send_switch_event NEARBY_MAX_RFCOMM_CONNECTIONS 0 peer_address
    (Message MESSAGE_GROUP_SASS MESSAGE_CODE_SASS_NOTIFY_MULTIPOINT_SWITCH_EVENT len data).

Definition PrepareNotifySassCapabilityResponse (m : nearby_message_stream_Message)
  : M client nearby_message_stream_Message :=
  do! lift (nearby_assert (2 * 2 <=? message_length m)) in
  let! data := lift (nearby_utils_CopyBigEndian (message_data m) 0 kSassVersion 2) in
  let! flags := nearby_fp_GetSassCapabilityFlags in
  let! data := lift (nearby_utils_CopyBigEndian data 2 flags 2) in
  mret (Message (message_group m) MESSAGE_CODE_SASS_NOTIFY_CAPABILITY 4 data).

Definition PrepareNotifySwitchingPreferenceResponse (m : nearby_message_stream_Message)
  : M client nearby_message_stream_Message :=
  do! lift (nearby_assert (2 <=? message_length m)) in
  let! p := nearby_platform_GetSwitchingPreference in
  let! data := lift (store (message_data m) 0 p) in
  let! data := lift (store data 1 0) in
  mret (Message (message_group m) MESSAGE_CODE_SASS_NOTIFY_SWITCHING_PREFERENCE 2 data).

Definition VerifyMac (peer_address : Z) (m : nearby_message_stream_Message) (i : nat)
  : M client nearby_platform_status :=
  let! input := get_input i in
  let! status := nearby_fp_VerifyMessageAuthenticationCode (message_data m) (message_length m)
    (in_use_account_key input) (session_nonce input) in
  do! (if negb (status_ok status)
       then do! nearby_message_stream_SendNack peer_address m FAIL_REASON_INVALID_MAC in mret tt
       else mret tt) in
  mret status.

(** [while (true)] over the distinct account keys; every iteration but the last
    finds a further one, so that [num_keys + 1] iterations are enough. *)
Fixpoint IndicateInUseKey_loop (fuel : nat) (offset : Z) (m : nearby_message_stream_Message)
    (i : nat) : M client nearby_platform_status :=
  match fuel with
  | O => lift Fault
  | S fuel' =>
    let! l := gets account_key_list in
    let! offset := lift (nearby_fp_GetNextUniqueAccountKeyIndex l offset) in
    if offset =? -1 then mret kNearbyStatusInvalidInput else
    let! info := lift (nearby_fp_GetAccountKey l offset) in
    let! input := get_input i in
    let! status := nearby_fp_VerifyMessageAuthenticationCode (message_data m) (message_length m)
      (account_key info) (session_nonce input) in
    if status_ok status then
      do! update_input i (set_in_use_account_key (account_key info)) in
      let! l := lift (nearby_fp_MarkAccountKeyAsActive l offset) in
      do! modify (set_account_key_list l) in
      do! UpdateAndNotifySass None in
      mret kNearbyStatusOK
    else IndicateInUseKey_loop fuel' (offset + 1) m i
  end.

Definition IndicateInUseKey (m : nearby_message_stream_Message) (i : nat)
  : M client nearby_platform_status :=
  let! l := gets account_key_list in
  IndicateInUseKey_loop (S (Z.to_nat (num_keys l))) 0 m i.

Definition FindNextAudioSource (i : nat) : M client Z :=
  let! input := get_input i in
  let! inputs := gets rfcomm_inputs in
  let other r := negb (input_peer_address r =? INVALID_PEER_ADDRESS)
                 && negb (input_peer_address r =? input_peer_address input) in
  mret (match find (fun r => other r && bytes_eqb (in_use_account_key r) (in_use_account_key input))
                inputs with
        | Some r => input_peer_address r
        | None =>
          match find other inputs with
          | Some r => input_peer_address r
          | None => INVALID_PEER_ADDRESS
          end
        end).

(** A command whose payload is one byte (and [expected_length] includes the nonce
    and the code): the length and the code are checked, then [act] is applied to
    the first byte of the data and its status is reported to the peer. *)
Definition authenticated_command (peer_address : Z) (m : nearby_message_stream_Message)
    (i : nat) (expected_length : Z) (act : Z -> M client nearby_platform_status)
  : M client nearby_platform_status :=
  return_if_error! VerifyMessageLength peer_address m expected_length in
  return_if_error! VerifyMac peer_address m i in
  let! b := lift (load (message_data m) 0) in
  let! status := act b in
  SendResponse peer_address m status.

Definition HandleSassMessage (peer_address : Z) (m : nearby_message_stream_Message)
  : M client nearby_platform_status :=
  let! input := GetRfcommInput peer_address in
  match (input : option nat) with
  | None => lift Crash
  | Some i =>
    let! buffer := uninit MAX_MESSAGE_STREAM_PAYLOAD_SIZE in
    let reply := Message MESSAGE_GROUP_SASS 0 (Z.of_nat MAX_MESSAGE_STREAM_PAYLOAD_SIZE) buffer in
    let code := message_code m in
    if code =? MESSAGE_CODE_SASS_GET_CAPABILITY then
      let! reply := PrepareNotifySassCapabilityResponse reply in
      nearby_message_stream_Send peer_address reply
    else if code =? MESSAGE_CODE_SASS_SET_MULTIPOINT_STATE then
      authenticated_command peer_address m i 17
        (fun b => nearby_platform_SetMultipoint peer_address (b =? 1))
    else if code =? MESSAGE_CODE_SASS_SET_SWITCHING_PREFERENCE then
      authenticated_command peer_address m i 18 nearby_platform_SetSwitchingPreference
    else if code =? MESSAGE_CODE_SASS_GET_SWITCHING_PREFERENCE then
      let! reply := PrepareNotifySwitchingPreferenceResponse reply in
      nearby_message_stream_Send peer_address reply
    else if code =? MESSAGE_CODE_SASS_SWITCH_ACTIVE_AUDIO_SOURCE then
      authenticated_command peer_address m i 17 (fun flags =>
        let! preferred := if ISSET flags 7 then mret peer_address else FindNextAudioSource i in
        nearby_platform_SwitchActiveAudioSource peer_address flags preferred)
    else if code =? MESSAGE_CODE_SASS_SWITCH_BACK_AUDIO_SOURCE then
      authenticated_command peer_address m i 17
        (nearby_platform_SwitchBackAudioSource peer_address)
    else if code =? MESSAGE_CODE_SASS_GET_CONNECTION_STATUS then
      let! ' (_, reply) := PrepareNotifyConnectionStatus reply i in
      nearby_message_stream_Send peer_address reply
    else if code =? MESSAGE_CODE_SASS_NOTIFY_SASS_INITIATED_CONNECTION then
      authenticated_command peer_address m i 17
        (nearby_platform_NotifySassInitiatedConnection peer_address)
    else if code =? MESSAGE_CODE_SASS_IN_USE_ACCOUNT_KEY then
      return_if_error! VerifyMessageLength peer_address m 22 in
      let! status := IndicateInUseKey m i in
      SendResponse peer_address m status
    else if code =? MESSAGE_CODE_SASS_SEND_CUSTOM_DATA then
      authenticated_command peer_address m i 17 (fun data =>
        let! current := gets sass_custom_data in
        do! (if negb (current =? data) then
               do! SetCustomData data in UpdateAndNotifySass (Some i)
             else mret tt) in
        mret kNearbyStatusOK)
    else if code =? MESSAGE_CODE_SASS_SET_DROP_CONNECTION_TARGET then
      authenticated_command peer_address m i 17
        (nearby_platform_SetDropConnectionTarget peer_address)
    else mret kNearbyStatusOK
  end.

(** * Device information and device action *)

Definition PrepareActiveComponentResponse (m : nearby_message_stream_Message)
  : M client nearby_message_stream_Message :=
  do! lift (nearby_assert (2 * 2 <=? message_length m)) in
  let! left := nearby_platform_GetEarbudLeftStatus in
  let! right := nearby_platform_GetEarbudRightStatus in
  let! data := lift (store (message_data m) 0
    (Z.lor (Z.shiftl (BOOL_TO_INT left) 1) (BOOL_TO_INT right))) in
  mret (Message (message_group m) MESSAGE_CODE_ACTIVE_COMPONENT_RESPONSE 1 data).

Definition HandleGeneralMessage (peer_address : Z) (m : nearby_message_stream_Message)
  : M client nearby_platform_status :=
  let! input := GetRfcommInput peer_address in
  match (input : option nat) with
  | None => lift Crash
  | Some i =>
    let! buffer := uninit MAX_MESSAGE_STREAM_PAYLOAD_SIZE in
    let size := Z.of_nat MAX_MESSAGE_STREAM_PAYLOAD_SIZE in
    let code := message_code m in
    if message_group m =? MESSAGE_GROUP_DEVICE_INFORMATION_EVENT then
      if code =? MESSAGE_CODE_ACTIVE_COMPONENT_REQUEST then
        let! reply := PrepareActiveComponentResponse
          (Message MESSAGE_GROUP_DEVICE_INFORMATION_EVENT 0 size buffer) in
        nearby_message_stream_Send peer_address reply
      else if code =? MESSAGE_CODE_CAPABILITIES then
        return_if_error! VerifyMessageLength peer_address m 1 in
        let! flags := lift (load (message_data m) 0) in
        do! update_input i (set_capabilities flags) in
        mret kNearbyStatusOK
      else if code =? MESSAGE_CODE_PLATFORM_TYPE then
        return_if_error! VerifyMessageLength peer_address m 2 in
        let! type := lift (load (message_data m) 0) in
        let! build := lift (load (message_data m) 1) in
        do! update_input i (set_platform type build) in
        mret kNearbyStatusOK
      else mret kNearbyStatusOK
    else if message_group m =? MESSAGE_GROUP_DEVICE_ACTION_EVENT then
      if code =? MESSAGE_CODE_RING then
        if (message_length m <? 1) || (2 <? message_length m) then
          do! nearby_message_stream_SendNack peer_address m 0 in
          mret kNearbyStatusInvalidInput
        else
          let! command := lift (load (message_data m) 0) in
          let! timeout := if 1 <? message_length m then lift (load (message_data m) 1)
                          else mret 0 in
          let! status := nearby_platform_Ring command (u16 (timeout * 10)) in
          SendResponse peer_address m status
      else mret kNearbyStatusOK
    else mret kNearbyStatusOK
  end.

(** * Stream events *)

Definition OnMessageReceived (peer_address : Z) (m : nearby_message_stream_Message)
  : M client unit :=
  let! status := HandleGeneralMessage peer_address m in
  if negb (status_ok status) then mret tt else
  let! status :=
    if NEARBY_FP_ENABLE_SASS && (message_group m =? MESSAGE_GROUP_SASS)
    then HandleSassMessage peer_address m else mret kNearbyStatusOK in
  if negb (status_ok status) then mret tt else
  let! data := lift (read_bytes (message_data m) 0 (Z.to_nat (message_length m))) in
  notify_event (kNearbyEventMessageStreamReceived peer_address (message_group m)
                  (message_code m) data).

(** What a new connection is told, entry [i] being its entry of the table. *)
Definition announce_connection (peer_address : Z) (i : nat) (buffer : list Z) : M client unit :=
  let! ' (_, buffer, len) := nearby_fp_GattReadModelId buffer MAX_MESSAGE_STREAM_PAYLOAD_SIZE in
  let group := MESSAGE_GROUP_DEVICE_INFORMATION_EVENT in
  let! status := nearby_message_stream_Send peer_address
    (Message group MESSAGE_CODE_MODEL_ID (Z.of_nat len) buffer) in
  if negb (status_ok status) then mret tt else
  let! status := SendBleAddressUpdated peer_address in
  if negb (status_ok status) then mret tt else
  let! r := get_input i in
  let! status := nearby_message_stream_Send peer_address
    (Message group MESSAGE_CODE_SESSION_NONCE (Z.of_nat SESSION_NONCE_SIZE) (session_nonce r)) in
  if negb (status_ok status) then mret tt else
  let! status := SendBatteryInfoMessage peer_address in
  if negb (status_ok status) then mret tt else
  let! status := SendBatteryTimeMessage peer_address in
  if negb (status_ok status) then mret tt else
  notify_event (kNearbyEventMessageStreamConnected peer_address).

Definition OnMessageStreamConnected (peer_address : Z) : M client unit :=
  let! buffer := uninit MAX_MESSAGE_STREAM_PAYLOAD_SIZE in
  let! input := FindAvailableRfcommInput peer_address in
  match (input : option nat) with
  | None => mret tt
  | Some i => announce_connection peer_address i buffer
  end.

Definition OnMessageStreamDisconnected (peer_address : Z) : M client unit :=
  let! input := GetRfcommInput peer_address in
  match (input : option nat) with
  | None => mret tt
  | Some i =>
    let! r := get_input i in
    let! sass := IncludeSass in
    let update_advert := sass && IsSassSeeker r in
    do! update_input i (set_input_peer_address INVALID_PEER_ADDRESS) in
    do! notify_event (kNearbyEventMessageStreamDisconnected peer_address) in
    do! RemoveRetroactivePairingPeer peer_address in
    if NEARBY_FP_ENABLE_SASS && update_advert then UpdateAndNotifySass None else mret tt
  end.

(** An entry that was never initialised has a NULL buffer: reading into it is a
    memory fault. *)
Definition OnMessageStreamReceived (peer_address : Z) (data : list Z) : M client unit :=
  let! input := GetRfcommInput peer_address in
  match (input : option nat) with
  | None => mret tt
  | Some i =>
    let! r := get_input i in
    if (stream_length (input_state r) =? 0) && (0 <? length data)%nat then lift Fault else
    let! s := nearby_message_stream_Read OnMessageReceived (input_state r) data in
    update_input i (set_input_state s)
  end.

End Stream.
