(* ===== verification/CryptoSafety.v ===== *)
(** Totality of the cryptographic operations of Crypto.v on any platform: whatever
    the secure element answers, failures included, the operations return, stay
    inside their buffers, call nothing but the secure element, and leave buffers of
    the same length.  The invariants of the client build on these lemmas. *)

From Stdlib Require Import ZArith Lia.
From stdpp Require Import base list numbers.
From S2P Require Import Prelude Utils Platform SecureElement Crypto.
Import Utils.

(** A buffer of [n] bytes. *)
Definition buf (n : nat) (l : list Z) : Prop := length l = n /\ bytes_ok l.
Definition status_buf (n : nat) (r : nearby_platform_status * list Z) : Prop := buf n (snd r).

Lemma buf_fit n l : buf n (fit n l).
Proof. split; [apply fit_length|apply fit_ok]. Qed.
#[export] Hint Resolve buf_fit : fp.

Section Totality.
Context {P : Platform} {S : Type}.

Lemma uninit_total n : effects is_se (uninit (S:=S) n) (buf n).
Proof. apply effects_uninit. by split. Qed.

(** Case analysis on a status with an early return. *)
Ltac early := match goal with
  | |- effects _ (if status_ok ?s then _ else _) _ => destruct (status_ok s); [|by apply effects_ret]
  | |- effects _ (if negb (status_ok ?s) then _ else _) _ =>
    destruct (status_ok s); cbn [negb]; [|by apply effects_ret]
  end.
Ltac hal_any := eapply effects_bind; [apply effects_hal_map with (R := fun _ => True); [exact I|done]|intros ? _].

Lemma finish_total : effects is_se (nearby_platform_Sha256Finish (S:=S)) (status_buf 32).
Proof. apply effects_hal_map; [exact I|]. intros. apply buf_fit. Qed.

Lemma encrypt_total x k : effects is_se (nearby_platform_Aes128Encrypt (S:=S) x k) (status_buf 16).
Proof. apply effects_hal_map; [exact I|]. intros. apply buf_fit. Qed.

Lemma decrypt_total x k : effects is_se (nearby_platform_Aes128Decrypt (S:=S) x k) (status_buf 16).
Proof. apply effects_hal_map; [exact I|]. intros. apply buf_fit. Qed.

Lemma HmacSha256_total out k d :
  buf 32 out -> effects is_se (HmacSha256 (S:=S) out k d) (status_buf 32).
Proof.
  intros Hb. unfold HmacSha256. do 3 (hal_any; early). apply finish_total.
Qed.

Lemma HmacSha256WithNonce_total out k n1 n2 d :
  buf 32 out -> effects is_se (HmacSha256WithNonce (S:=S) out k n1 n2 d) (status_buf 32).
Proof.
  intros Hb. unfold HmacSha256WithNonce. do 5 (hal_any; early). apply finish_total.
Qed.

Lemma nearby_fp_HmacSha256_total out key n d :
  buf 32 out -> n = length key -> (n <= 64)%nat -> bytes_ok key ->
  effects is_se (nearby_fp_HmacSha256 (S:=S) out key n d) (status_buf 32).
Proof.
  intros Hb -> Hk Hkb. unfold nearby_fp_HmacSha256.
  eapply effects_bind; [apply uninit_total|]. intros hk [Hhk _].
  eff_lift ltac:(apply PadKey_spec; auto with fp).
  eapply effects_bind; [by apply HmacSha256_total|]. intros [st o] Ho. early.
  eff_lift ltac:(apply PadKey_spec; auto with fp). by apply HmacSha256_total.
Qed.

Lemma nearby_fp_Sha256_total out d :
  buf 32 out -> effects is_se (nearby_fp_Sha256 (S:=S) out d) (status_buf 32).
Proof. intros Hb. unfold nearby_fp_Sha256. do 2 (hal_any; early). apply finish_total. Qed.

Lemma CreateSharedSecret_total pk out :
  buf 16 out -> effects is_se (nearby_fp_CreateSharedSecret (S:=S) pk out) (status_buf 16).
Proof.
  intros Hb. unfold nearby_fp_CreateSharedSecret.
  eapply effects_bind; [apply effects_hal_map with (R := status_buf 32); [exact I|intros; apply buf_fit]|].
  intros [st sec] _. early.
  eapply effects_bind; [apply uninit_total|]. intros h Hh.
  eapply effects_bind; [by apply nearby_fp_Sha256_total|]. intros [st' hash] [Hl Hok]. early.
  cbn in Hl, Hok. eff_lift ltac:(apply read_bytes_done; rewrite Hl; by apply Nat.leb_le).
  apply effects_ret. split; cbn [snd]; [|auto with fp].
  rewrite length_take, length_drop, Hl. done.
Qed.

(** ** HKDF *)

Definition ctx_ok (c : nearby_fp_HmacSha256Context) : Prop :=
  buf 32 (ctx_hash c) /\ length (ctx_hmac_key c) = 64%nat.
Definition status_ctx (r : nearby_platform_status * nearby_fp_HmacSha256Context) : Prop :=
  ctx_ok (snd r).

Lemma HmacSha256Start_total ctx key n :
  ctx_ok ctx -> n = length key -> (n <= 64)%nat -> bytes_ok key ->
  effects is_se (nearby_fp_HmacSha256Start (S:=S) ctx key n) status_ctx.
Proof.
  intros [Hh Hk] -> Hn Hb. unfold nearby_fp_HmacSha256Start.
  eff_lift ltac:(apply PadKey_spec; auto with fp).
  assert (ctx_ok (HmacSha256Context (ctx_hash ctx) (hmac_block key IPAD))) as Hok
    by (split; [done|by apply hmac_block_length]).
  hal_any. early. hal_any. by apply effects_ret.
Qed.

Lemma HmacSha256Finish_total ctx key n :
  ctx_ok ctx -> n = length key -> (n <= 64)%nat -> bytes_ok key ->
  effects is_se (nearby_fp_HmacSha256Finish (S:=S) ctx key n) status_ctx.
Proof.
  intros [Hh Hk] -> Hn Hb. unfold nearby_fp_HmacSha256Finish.
  eapply effects_bind; [apply finish_total|]. intros [st h] Hh2. early.
  eff_lift ltac:(apply PadKey_spec; auto with fp).
  eapply effects_bind; [by apply HmacSha256_total|]. intros [st' h'] Hh3.
  apply effects_ret. split; [done|by apply hmac_block_length].
Qed.

Lemma HkdfExpand_chunk_total ctx offset i prk n info :
  ctx_ok ctx -> n = length prk -> (n <= 64)%nat -> bytes_ok prk ->
  effects is_se (HkdfExpand_chunk (S:=S) ctx offset i prk n info) status_ctx.
Proof.
  intros Hc Hn Hl Hb. unfold HkdfExpand_chunk.
  eapply effects_bind; [by apply HmacSha256Start_total|]. intros [st c1] Hc1. early.
  eapply effects_bind with (R := fun _ => True).
  { destruct (offset =? 0)%nat; [by apply effects_ret|]. by apply effects_hal_map. }
  intros st1 _. early. do 2 (hal_any; early). by apply HmacSha256Finish_total.
Qed.

Lemma write_bytes_buf n b off src b' :
  buf n b -> bytes_ok src -> write_bytes b off src = Done b' -> buf n b'.
Proof.
  intros [Hl Hb] Hs H. split; [by rewrite (write_bytes_length _ _ _ _ H)|].
  unfold write_bytes in H. case_head; [|done]. injection H as <-.
  rewrite !bytes_ok_app. auto with fp.
Qed.

Lemma HkdfExpand_loop_total fuel ctx out n offset i prk m info :
  ctx_ok ctx -> m = length prk -> (m <= 64)%nat -> bytes_ok prk -> buf n out ->
  (n - offset <= fuel)%nat -> (offset <= n)%nat ->
  effects is_se (HkdfExpand_loop (S:=S) fuel ctx out n offset i prk m info) (status_buf n).
Proof.
  intros Hc -> Hl Hb. revert ctx out offset i Hc.
  induction fuel as [|fuel IH]; intros ctx out offset i Hc Ho Hf Hoff; cbn [HkdfExpand_loop];
    destruct (Nat.ltb_spec offset n) as [Hlt|Hge]; try (by apply effects_ret); try lia.
  eapply effects_bind; [by apply HkdfExpand_chunk_total|]. intros [st c1] Hc1. early.
  destruct Hc1 as [[Hh Hhb] Hk]. cbn [snd] in *. unfold SHA256_KEY_SIZE.
  set (b := if (n - offset <? 32)%nat then (n - offset)%nat else 32%nat).
  assert (1 <= b <= 32)%nat as Hb1
    by (unfold b; destruct (Nat.ltb_spec (n - offset) 32); lia).
  assert (offset + b <= n)%nat as Hb2
    by (unfold b; destruct (Nat.ltb_spec (n - offset) 32); lia).
  eff_lift ltac:(apply read_bytes_done; lia). rewrite drop_0.
  assert (length (take b (ctx_hash c1)) = b) as Ht by (rewrite length_take; lia).
  destruct Ho as [Hol Hob].
  destruct (write_bytes out offset (take b (ctx_hash c1))) as [out'| |] eqn:Ew;
    [|unfold write_bytes in Ew; by case_head|].
  2:{ unfold write_bytes in Ew. rewrite Ht, (proj2 (Nat.leb_le _ _)) in Ew by lia. done. }
  eff_lift ltac:(reflexivity).
  apply IH; [by split| |lia|lia].
  apply (write_bytes_buf n out offset (take b (ctx_hash c1))); [by split|by apply bytes_ok_take|exact Ew].
Qed.

Lemma GetRrdKey_total out key :
  buf 16 out -> effects is_se (GetRrdKey (S:=S) out key) (status_buf 16).
Proof.
  intros Hb. unfold GetRrdKey. eapply effects_bind; [apply uninit_total|]. intros prk Hp.
  unfold nearby_fp_HkdfExtractSha256.
  eapply effects_bind; [apply nearby_fp_HmacSha256_total; [done|done|lia|constructor]|].
  intros [st prk'] [Hl Hok]. early. unfold nearby_fp_HkdfExpandSha256. cbn [snd] in *.
  eapply effects_bind; [apply uninit_total|]. intros h Hh.
  eapply effects_bind; [apply uninit_total|]. intros k [Hk _].
  apply HkdfExpand_loop_total; auto; [by split|lia|lia].
Qed.

(** ** AES *)

Lemma xor_loop_buf n k i off m s m' :
  buf n m -> bytes_ok s -> xor_loop k i off m s = Done m' -> buf n m'.
Proof.
  intros Hm Hs. revert i off m Hm. induction k as [|k IH]; intros i off m Hm; cbn [xor_loop].
  { by intros [= <-]. }
  intros H. apply bind_done_inv in H as (a & Ha & H). apply bind_done_inv in H as (b & Hb & H).
  apply bind_done_inv in H as (m1 & H1 & H). apply (IH _ _ _) in H; [done|].
  destruct Hm as [Hl Hok]. split; [by rewrite (store_length _ _ _ _ H1)|].
  unfold store in H1. case_head; [|done]. injection H1 as <-. apply bytes_ok_insert; auto with fp.
Qed.

Lemma xor_loop_done k i off m s :
  bytes_ok m -> bytes_ok s -> (off + k <= length m)%nat -> (i + k <= length s)%nat ->
  exists m', xor_loop k i off m s = Done m' /\ buf (length m) m'.
Proof.
  intros Hm Hs Ho Hi. rewrite xor_loop_spec by done. eexists. split; [done|].
  eapply xor_loop_buf; [by split|exact Hs|by apply xor_loop_spec].
Qed.

Lemma AesCtr_loop_total fuel off iv m key n :
  buf n m -> length iv = 16%nat -> (n - off <= fuel)%nat ->
  effects is_se (AesCtr_loop (S:=S) fuel off iv m key) (status_buf n).
Proof.
  revert off iv m. induction fuel as [|fuel IH]; intros off iv m [Hl Hb] Hiv Hf; cbn [AesCtr_loop];
    rewrite Hl; destruct (Nat.ltb_spec off n) as [Hlt|Hge]; try (by apply effects_ret); try lia.
  eapply effects_bind; [apply encrypt_total|]. intros [st ks] [Hk Hkb]. cbn [snd] in *. early.
  destruct (xor_loop_done (Nat.min (n - off) 16) 0 off m ks) as (m' & E & Hm'); [done|done|lia|lia|].
  unfold AES_MESSAGE_SIZE_BYTES. eff_lift ltac:(exact E).
  destruct (load_lt iv 0) as (v & Hv & _); [lia|]. eff_lift ltac:(exact Hv).
  eff_lift ltac:(apply store_done; lia). rewrite Hl in Hm'.
  apply IH; [done|by rewrite length_insert|lia].
Qed.

Lemma AesCtr_total m key n :
  buf n m -> (8 <= n)%nat -> effects is_se (nearby_fp_AesCtr (S:=S) m key) (status_buf n).
Proof.
  intros [Hl Hb] Hn. unfold nearby_fp_AesCtr. eapply effects_bind; [apply uninit_total|].
  intros iv [Hiv _]. unfold AES_MESSAGE_SIZE_BYTES, NONCE_SIZE in *.
  eff_lift ltac:(apply write_bytes_done; rewrite length_replicate, Hiv; lia).
  eff_lift ltac:(apply read_bytes_done; lia).
  eff_lift ltac:(apply write_bytes_done; rewrite !length_app, length_take, length_drop, length_replicate,
    length_take, length_drop, Hiv; lia).
  apply AesCtr_loop_total; [by split| |lia].
  rewrite !length_app, !length_take, !length_drop, !length_app, !length_take, !length_drop, !length_replicate, Hiv. lia.
Qed.

Lemma AesEncryptIv_total d iv key n :
  buf n d -> (n <= 16)%nat -> effects is_se (nearby_fp_AesEncryptIv (S:=S) d iv key) (status_buf n).
Proof.
  intros [Hl Hb] Hn. unfold nearby_fp_AesEncryptIv, AES_MESSAGE_SIZE_BYTES. rewrite Hl.
  rewrite (proj2 (Nat.leb_le n 16)) by done. eff_lift ltac:(reflexivity).
  eapply effects_bind; [apply encrypt_total|]. intros [st ks] [Hk Hkb]. cbn [snd] in *. early.
  destruct (xor_loop_done n 0 0 d ks) as (m' & E & Hm'); [done|done|lia|lia|].
  eff_lift ltac:(exact E). apply effects_ret. by rewrite Hl in Hm'.
Qed.

Lemma rand_fill_total k off d n :
  buf n d -> (off + k <= n)%nat -> effects is_se (rand_fill (S:=S) k off d) (buf n).
Proof.
  intros [Hl Hb] Ho. eapply effects_mono; [apply rand_fill_effects; [done|lia]|done|].
  intros d' (H1 & H2 & _). split; [lia|done].
Qed.

(** ** Additional data and message authentication *)

Lemma buf_drop n k d : buf n d -> buf (n - k) (drop k d).
Proof. intros [Hl Hb]. split; [rewrite length_drop; lia|auto with fp]. Qed.

Lemma write_tail_total n d t :
  buf n d -> (8 <= n)%nat -> buf (n - 8) t ->
  effects is_se (lift (S:=S) (write_bytes d 8 t)) (buf n).
Proof.
  intros [Hl Hb] Hn [Htl Htb].
  eapply effects_lift; [apply write_bytes_tail; lia|]. split.
  - rewrite length_app, length_take. lia.
  - rewrite bytes_ok_app. auto with fp.
Qed.

Lemma DecodeAdditionalData_total d key n :
  buf n d -> (16 < n)%nat -> buf 16 key ->
  effects is_se (nearby_fp_DecodeAdditionalData (S:=S) d key) (status_buf n).
Proof.
  intros Hd Hn [Hk Hkb]. unfold nearby_fp_DecodeAdditionalData, ADDITIONAL_DATA_SHA_SIZE, NONCE_SIZE.
  rewrite (proj2 (Nat.ltb_lt (8 + 8) (length d))) by (rewrite (proj1 Hd); lia).
  eff_lift ltac:(reflexivity). eapply effects_bind; [apply uninit_total|]. intros sha Hs.
  eapply effects_bind; [apply nearby_fp_HmacSha256_total; [done|by rewrite Hk|by apply Nat.leb_le|done]|].
  intros [st h] _. early. destruct (negb _); [by apply effects_ret|].
  eapply effects_bind; [apply AesCtr_total; [apply buf_drop, Hd|lia]|]. intros [st' t] Ht.
  eapply effects_bind; [by apply write_tail_total; [apply Hd|lia|]|]. intros d' Hd'. by apply effects_ret.
Qed.

Lemma EncodeAdditionalData_total d key n :
  buf n d -> (16 <= n)%nat -> buf 16 key ->
  effects is_se (nearby_fp_EncodeAdditionalData (S:=S) d key) (status_buf n).
Proof.
  intros Hd Hn [Hk Hkb]. unfold nearby_fp_EncodeAdditionalData, ADDITIONAL_DATA_SHA_SIZE, NONCE_SIZE.
  rewrite (proj2 (Nat.leb_le (8 + 8) (length d))) by (rewrite (proj1 Hd); lia).
  eff_lift ltac:(reflexivity). eapply effects_bind; [apply uninit_total|]. intros sha Hs.
  eapply effects_bind; [apply rand_fill_total; [exact Hd|lia]|]. intros d1 Hd1.
  eapply effects_bind; [apply AesCtr_total; [apply buf_drop, Hd1|lia]|]. intros [st t] Ht.
  eapply effects_bind; [by apply write_tail_total; [apply Hd1|lia|]|]. intros d2 Hd2. early.
  eapply effects_bind; [apply nearby_fp_HmacSha256_total; [done|by rewrite Hk|by apply Nat.leb_le|done]|].
  intros [st2 h] [Hl Hhb]. cbn [snd] in *. early.
  eff_lift ltac:(apply read_bytes_done; lia). rewrite drop_0.
  assert (length (take 8 h) = 8%nat) as Ht8 by (rewrite length_take; lia).
  destruct Hd2 as [Hl2 Hb2].
  eff_lift ltac:(apply write_bytes_done; lia). apply effects_ret. split; cbn [snd].
  - rewrite !length_app, length_drop, Ht8, take_0. cbn. lia.
  - rewrite !bytes_ok_app. auto with fp.
Qed.

Lemma VerifyMac_total message len key nonce :
  bytes_ok message -> 16 <= len <= Z.of_nat (length message) -> len < 2 ^ 64 -> buf 16 key ->
  effects is_se (nearby_fp_VerifyMessageAuthenticationCode (S:=S) message len key nonce) (fun _ => True).
Proof.
  intros Hm Hl H64 [Hk Hkb]. unfold nearby_fp_VerifyMessageAuthenticationCode.
  unfold SESSION_NONCE_SIZE, MESSAGE_AUTHENTICATION_CODE_SIZE.
  rewrite (proj2 (Z.leb_gt _ _)) by lia. rewrite u64_id by lia.
  eff_lift ltac:(apply read_bytes_z_done; lia). eff_lift ltac:(apply read_bytes_z_done; lia).
  eapply effects_bind; [apply uninit_total|]. intros hk [Hhk _].
  eapply effects_bind; [apply uninit_total|]. intros out Ho. replace ACCOUNT_KEY_SIZE_BYTES with (length key) by exact Hk.
  assert (length key <= HMAC_SHA256_KEY_SIZE)%nat by (rewrite Hk; by apply Nat.leb_le).
  eff_lift ltac:(apply PadKey_spec; auto with fp).
  eapply effects_bind; [by apply HmacSha256WithNonce_total|]. intros [st o1] Ho1. early.
  eff_lift ltac:(apply PadKey_spec; auto with fp).
  eapply effects_bind; [by apply HmacSha256_total|]. intros [st2 o2] Ho2. early.
  eff_lift ltac:(apply read_bytes_z_done; lia). destruct (negb _); by apply effects_ret.
Qed.

End Totality.
