(* ===== verification/AdvertisementSafety.v ===== *)
(** Totality of the advertisement functions of Advertisement.v on any platform:
    whatever the platform answers, they return, stay inside the buffer, and leave
    well-formed service data. *)

From Stdlib Require Import ZArith Lia.
From stdpp Require Import base list numbers.
From S2P Require Import Prelude Utils Platform SecureElement Crypto AccountKeys Advertisement.
From S2P Require Import CryptoSafety.
Import Utils.

(** Requests to the secure element, and audio requests that change nothing. *)
Definition is_query (r : hal_request) : Prop :=
  match r with
  | SE _ => True
  | AUDIO (SetMultipoint _ _ | SetSwitchingPreference _ | SwitchActiveAudioSource _ _ _
           | SwitchBackAudioSource _ _ | NotifySassInitiatedConnection _ _
           | SetDropConnectionTarget _ _ | AudioInit) => False
  | AUDIO _ => True
  | _ => False
  end.

Section Totality.
Context {C : Config} {P : Platform} {S : Type}.

Lemma effects_query {A} (m : M S A) R : effects is_se m R -> effects is_query m R.
Proof. intros H. eapply effects_mono; [exact H| |done]. by intros []. Qed.

Lemma sha_updates_total parts : effects is_se (sha_updates (S:=S) parts) (fun _ => True).
Proof.
  induction parts as [|p ps IH]; cbn [sha_updates]; [by apply effects_ret|].
  eapply effects_bind; [apply effects_hal_map with (R := fun _ => True); [exact I|done]|].
  intros _ _. apply IH.
Qed.

Lemma SetBloomFilter_loop_total r k off l pre filt tail sass iu fs so bo ro s keys :
  list_ok l -> 0 <= off <= num_keys l -> unique_keys_from l off = keys -> length keys = r ->
  length pre = 6%nat -> Z.of_nat (length filt) = s -> 0 < s -> bytes_ok filt ->
  fields_at (fun f => pre ++ f ++ tail) (length filt) fs so bo ro ->
  effects is_se
    (SetBloomFilter_loop (S:=S) r k off l (pre ++ filt ++ tail) sass iu so bo ro s)
    (fun a => exists f, a = pre ++ f ++ tail /\ buf (length filt) f).
Proof.
  intros Hok Ho Hk Hr Hp Hl Hs Hb Hat. revert k off keys filt Ho Hk Hr Hl Hb Hat.
  induction r as [|r IH]; intros k off keys filt Ho Hk Hr Hl Hb Hat.
  { apply effects_ret. by exists filt. }
  destruct keys as [|key keys]; [done|]. cbn [SetBloomFilter_loop].
  destruct (next_unique_key l off key keys Hok Ho Hk) as (i & info & Hn & Hi & Hg & Hkey & Hko & Hrest).
  pose proof (ok_count l Hok) as Hc. unfold NEARBY_MAX_ACCOUNT_KEYS in Hc.
  eff_lift ltac:(exact Hn). rewrite (u32_id i) by lia. eff_lift ltac:(exact Hg).
  destruct Hko as (Hkl & _). rewrite Hkey in *.
  eff_lift ltac:(apply key_flags_spec; rewrite Hkl; by apply Nat.leb_le).
  destruct (at_salt _ _ _ _ _ _ Hat filt eq_refl) as (salt & Hsalt & Hl0 & Hsl & Hr0).
  eff_lift ltac:(exact Hl0). destruct (lt_header (length salt) 1) as [-> _]; [lia|done|].
  rewrite Nat2Z.id. unfold LTV_HEADER_SIZE. eff_lift ltac:(exact Hr0).
  eff_lift ltac:(exact (at_battery _ _ _ _ _ _ Hat filt eq_refl)).
  eff_lift ltac:(exact (at_rrf _ _ _ _ _ _ Hat filt eq_refl)).
  eapply effects_bind; [apply effects_hal_map with (R := fun _ => True); [exact I|done]|intros _ _].
  eapply effects_bind; [apply sha_updates_total|intros _ _].
  eapply effects_bind; [apply finish_total|]. intros [st sha] [Hsh Hshb]. cbn [snd] in *.
  eff_lift ltac:(apply set_filter_bits_spec; auto; lia).
  fold (bloom_bits s sha).
  destruct (set_bits_spec (bloom_bits s sha) filt) as (L1 & B1 & _);
    [done|rewrite Hl; by apply bloom_bits_range|].
  rewrite u32_id by lia. eapply effects_mono;
    [apply IH with keys; [lia|done|by injection Hr|by rewrite L1|done|by rewrite L1]|done|].
  intros a (f & -> & Hf). rewrite L1 in Hf. by exists f.
Qed.

Lemma SetBloomFilter_total l flags ft filt fs rest sass iu salt :
  list_ok l -> 0 < num_keys l -> filter_type ft ->
  Forall field_ok ((ft, filt) :: fs) -> length filt = key_filter_size l ->
  field_of fs 1 = Some salt ->
  effects is_se (nearby_fp_SetBloomFilter (S:=S) l (with_filter flags ft fs rest filt) sass iu)
    (fun r => exists f, buf (key_filter_size l) f /\
       fst r = with_filter (if sass then 0x10 else flags) ft fs rest f).
Proof.
  intros Hok Hn Hft Hfs Hl Hsalt. unfold nearby_fp_SetBloomFilter.
  pose proof (unique_count_pos l Hok Hn) as Hu.
  pose proof (filter_size_range (Z.of_nat (unique_count l))) as Hfr.
  set (s := key_filter_size l) in *.
  assert (Z.of_nat s = filter_size (Z.of_nat (unique_count l))) as Hs
    by (unfold s, key_filter_size; lia).
  assert (load (with_filter flags ft fs rest filt) 5 = Done (16 * Z.of_nat s + ft)) as Hh
    by (rewrite with_filter_app, Hl; reflexivity).
  eff_lift ltac:(exact Hh). assert (0 <= ft < 3) as Hft' by (destruct Hft; lia).
  rewrite (proj2 (Z.eqb_neq _ _)) by lia.
  assert (Forall field_ok fs) as Hfs' by (by inversion Hfs).
  destruct (find_field_exists fs 1 (6 + s) salt Hsalt) as [so Hso].
  assert (nearby_fp_FindLtv (with_filter flags ft fs rest filt) 1 = Done (Some so)) as Hf1.
  { unfold with_filter. by rewrite FindLtv_spec, find_after_filter, Hl, Hso. }
  assert (nearby_fp_FindLtv (with_filter flags ft fs rest filt) 6 = Done (find_field fs 6 (6 + s))) as Hf6.
  { unfold with_filter. by rewrite FindLtv_spec, find_after_filter, Hl. }
  eff_lift ltac:(exact Hf1). cbn beta iota.
  eff_lift ltac:(by apply FindBatteryInfoLt_spec). rewrite Hl.
  eff_lift ltac:(exact Hf6). eff_lift ltac:(by apply GetUnique_spec). fold (unique_count l).
  destruct (lt_header s ft) as [-> _]; [lia|lia|]. rewrite <- Hs, Z.eqb_refl.
  eff_lift ltac:(reflexivity). rewrite !Nat2Z.id.
  rewrite with_filter_app, Hl. set (pre := with_filter_head flags ft fs s).
  eff_lift ltac:(apply write_at; [done|by rewrite length_replicate]).
  set (z := replicate s 0).
  assert (length z = s) as Hz by apply length_replicate.
  pose proof (with_filter_fields_at flags ft fs rest s salt so Hfs' Hsalt Hso) as Hat.
  assert (fields_at (fun f => pre ++ f ++ fields_bytes fs ++ rest) (length z) fs so
    (match find_field fs 3 (6 + s) with Some o => Some o | None => find_field fs 4 (6 + s) end)
    (find_field fs 6 (6 + s))) as Hat'.
  { destruct Hat as [A1 A2 A3]. split; intros f Hf; rewrite Hz in Hf;
      [specialize (A1 f Hf)|specialize (A2 f Hf)|specialize (A3 f Hf)];
      rewrite with_filter_app, Hf in *; done. }
  assert (bytes_ok z) as Hzb by (apply bytes_ok_replicate; unfold is_byte; lia).
  eapply effects_bind; [eapply SetBloomFilter_loop_total; [done|lia|by apply unique_keys_from_0|
    by rewrite unique_keys_length|done|by rewrite Hz|lia|done|exact Hat']|].
  intros a (f & -> & Hf). rewrite Hz in Hf.
  apply effects_bind with (R := fun a => a = with_filter (if sass then 0x10 else flags) ft fs rest f).
  - rewrite with_filter_app, (proj1 Hf). destruct sass.
    + eapply effects_lift; reflexivity.
    + by apply effects_ret.
  - intros a ->. apply effects_ret. by exists f.
Qed.

(** ** SASS *)

Lemma query_any {A} q (f : hal_response -> A) :
  is_query (AUDIO q) -> effects is_query (hal_map (S:=S) (AUDIO q) f) (fun _ => True).
Proof. intros. by apply effects_hal_map. Qed.

Lemma GetSassConnectionState_total :
  effects is_query (nearby_fp_GetSassConnectionState (S:=S)) (fun _ => True).
Proof.
  unfold nearby_fp_GetSassConnectionState.
  do 5 (eapply effects_bind; [by apply query_any|intros ? _]). by apply effects_ret.
Qed.

Lemma GetSassCapabilityFlags_total :
  effects is_query (nearby_fp_GetSassCapabilityFlags (S:=S)) (fun _ => True).
Proof.
  unfold nearby_fp_GetSassCapabilityFlags.
  do 5 (eapply effects_bind; [by apply query_any|intros ? _]). by apply effects_ret.
Qed.

(** The SASS field in the spare bytes after the service data. *)
Lemma GenerateSass_spec pre h rest len state custom bitmap n :
  n = (3 + length bitmap)%nat -> (n <= len)%nat -> (n <= length rest)%nat -> bytes_ok bitmap ->
  exists p, buf n p /\
    nearby_fp_GenerateSassAdvertisement (pre ++ h :: rest) (length pre + 1) len state custom bitmap
    = Done (pre ++ h :: p ++ drop n rest, n).
Proof.
  intros -> Hl Hr Hbm. unfold nearby_fp_GenerateSassAdvertisement, MIN_SASS_ADERTISEMENT_SIZE.
  rewrite (proj2 (Nat.leb_le (3 + length bitmap) len)) by done.
  cbn [nearby_assert]. rewrite done_bind.
  destruct rest as [|r0 [|r1 [|r2 rest]]]; cbn in Hr; try lia.
  replace (pre ++ h :: r0 :: r1 :: r2 :: rest) with ((pre ++ [h]) ++ r0 :: r1 :: r2 :: rest)
    by (by rewrite <- app_assoc).
  rewrite store_at, done_bind by (rewrite length_app; cbn; lia).
  match goal with |- context [u8 ?v :: r1 :: _] => set (v0 := u8 v) end.
  replace ((pre ++ [h]) ++ v0 :: r1 :: r2 :: rest) with ((pre ++ [h; v0]) ++ r1 :: r2 :: rest)
    by (rewrite <- !app_assoc; done).
  rewrite store_at, done_bind by (rewrite length_app; cbn; lia).
  replace ((pre ++ [h; v0]) ++ u8 state :: r2 :: rest) with ((pre ++ [h; v0; u8 state]) ++ r2 :: rest)
    by (rewrite <- !app_assoc; done).
  rewrite store_at, done_bind by (rewrite length_app; cbn; lia).
  replace ((pre ++ [h; v0; u8 state]) ++ u8 custom :: rest)
    with ((pre ++ [h; v0; u8 state; u8 custom]) ++ take (length bitmap) rest ++ drop (length bitmap) rest)
    by (rewrite <- !app_assoc, take_drop; done).
  rewrite write_at, done_bind by (rewrite ?length_app, ?length_take; cbn; lia).
  exists (v0 :: u8 state :: u8 custom :: bitmap). split.
  { split; [done|]. unfold v0. repeat (apply Forall_cons; [apply u8_byte|]). done. }
  f_equal. f_equal. rewrite <- !app_assoc. done.
Qed.

(** The encryption of the payload [p] of a field, in place. *)
Lemma xor_payload sd h p rest iv :
  bytes_ok sd -> is_byte h -> bytes_ok p -> bytes_ok rest -> bytes_ok iv ->
  (length p <= length iv)%nat ->
  xor_loop (length p) 0 (length sd + 1) (sd ++ h :: p ++ rest) iv
  = Done (sd ++ h :: xor_bytes p iv ++ rest).
Proof.
  intros Hs Hh Hp Hr Hi Hl.
  replace (sd ++ h :: p ++ rest) with ((sd ++ [h]) ++ p ++ rest) by (rewrite <- app_assoc; done).
  rewrite xor_loop_spec; [| |done|rewrite !length_app; cbn; lia|lia].
  2:{ rewrite !bytes_ok_app. repeat split; try done. by apply Forall_cons; [|apply Forall_nil]. }
  rewrite take_app_length' by (rewrite length_app; cbn; lia).
  rewrite drop_app_length' by (rewrite length_app; cbn; lia). rewrite take_app_length, drop_0.
  rewrite (app_assoc _ p rest), drop_app_length' by (rewrite !length_app; cbn; lia).
  by rewrite <- !app_assoc.
Qed.

(** Encrypting a field of [n] bytes behind the service data makes it the last
    field. *)
Lemma EncryptRRF_total flags ft filt fs p rest h key salt n l0 :
  Forall field_ok ((ft, filt) :: fs) -> filter_type ft -> field_of fs 1 = Some salt ->
  (1 <= n <= 15)%nat -> length p = n -> bytes_ok (service_data flags ((ft, filt) :: fs) ++ h :: p ++ rest) ->
  l0 = length (service_data flags ((ft, filt) :: fs)) ->
  let adv := service_data flags ((ft, filt) :: fs) ++ h :: p ++ rest in
  exists so, nearby_fp_FindLtv adv SALT_FIELD_TYPE = Done (Some so) /\
  effects is_se
    (nearby_fp_EncryptRandomResolvableField (S:=S) adv l0 (1 + n) key (Some so))
    (fun r => fst r = kNearbyStatusOK -> exists q, length q = n /\ bytes_ok q /\
       snd r = service_data flags ((ft, filt) :: fs)
               ++ field_bytes (RANDOM_RESOLVABLE_FIELD_TYPE, q) ++ rest).
Proof.
  intros Hfs Hft Hsalt Hn Hp Hb -> adv.
  assert (Forall field_ok fs) as Hfs' by (by inversion Hfs).
  destruct (find_field_exists fs 1 (6 + length filt) salt Hsalt) as [so Hso].
  assert (nearby_fp_FindLtv adv 1 = Done (Some so)) as Hf.
  { unfold adv. rewrite FindLtv_spec by done. by rewrite find_after_filter, Hso. }
  exists so. split; [exact Hf|]. unfold nearby_fp_EncryptRandomResolvableField.
  unfold AES_MESSAGE_SIZE_BYTES, RRF_HEADER_SIZE.
  rewrite (proj2 (Nat.leb_le (1 + n) (16 + 1))) by lia. eff_lift ltac:(reflexivity).
  eapply effects_bind; [apply uninit_total|]. intros rrd Hrrd.
  destruct (found_field flags ft fs (h :: p ++ rest) (length filt) 1 so Hfs' Hso)
    as (p' & Hp' & Hpo & Hd). destruct (Hd filt eq_refl) as (rest' & Hd').
  destruct (read_field adv so 1 p' rest' Hpo Hd') as (Hl0 & _ & Hr0).
  apply effects_bind with (R := fun iv => length iv = 16%nat).
  { eff_lift ltac:(exact Hl0). destruct Hpo as [_ Hpl]. cbn [snd] in Hpl.
    destruct (lt_header (length p') 1) as [-> _]; [lia|lia|].
    rewrite Nat2Z.id. eff_lift ltac:(exact Hr0).
    eapply effects_lift; [apply write_bytes_done; rewrite length_replicate; lia|].
    rewrite !length_app, length_take, length_drop, length_replicate. lia. }
  intros iv Hiv. eapply effects_bind; [by apply GetRrdKey_total|]. intros [st k'] _.
  destruct (status_ok st) eqn:E1; cbn [negb].
  2:{ apply effects_ret. cbn. intros E. apply status_ok_not in E1. done. }
  eapply effects_bind; [apply encrypt_total|]. intros [st2 iv2] [Hi2 Hib2]. cbn [snd] in *.
  destruct (status_ok st2) eqn:E2; cbn [negb].
  2:{ apply effects_ret. cbn. intros E. apply status_ok_not in E2. done. }
  unfold adv. eff_lift ltac:(by apply store_at).
  rewrite combineNibbles_spec by (unfold RANDOM_RESOLVABLE_FIELD_TYPE; lia).
  replace (16 * (Z.of_nat (1 + n) - Z.of_nat 1) + RANDOM_RESOLVABLE_FIELD_TYPE)
    with (16 * Z.of_nat n + RANDOM_RESOLVABLE_FIELD_TYPE) by lia.
  rewrite u8_id by (unfold is_byte, RANDOM_RESOLVABLE_FIELD_TYPE; lia).
  rewrite !bytes_ok_app in Hb. destruct Hb as [Hb1 Hb2]. apply Forall_cons_1 in Hb2 as [Hbh Hb3].
  apply bytes_ok_app in Hb3 as [Hb3 Hb4]. subst n.
  replace (1 + length p - 1)%nat with (length p) by lia.
  eff_lift ltac:(apply xor_payload; [done| |done|done|done|lia]);
    [unfold is_byte, RANDOM_RESOLVABLE_FIELD_TYPE; lia|].
  apply effects_ret. intros _. exists (xor_bytes p iv2).
  split; [rewrite xor_bytes_length; lia|]. split; [auto with fp|]. cbn [snd].
  unfold field_bytes. cbn [fst snd]. rewrite xor_bytes_length.
  by replace (length p `min` length iv2)%nat with (length p) by lia.
Qed.

(** ** Whole advertisements *)

Lemma fields_bytes_app fs gs : fields_bytes (fs ++ gs) = fields_bytes fs ++ fields_bytes gs.
Proof. unfold fields_bytes. by rewrite fmap_app, concat_app. Qed.

Definition field_bytes_ok (f : field) : Prop := field_ok f /\ bytes_ok (snd f).

Lemma fields_bytes_ok fs : Forall field_bytes_ok fs -> bytes_ok (fields_bytes fs).
Proof.
  induction 1 as [|f fs [[Ht Hl] Hb] _ IH]; [by constructor|]. rewrite fields_bytes_cons.
  apply bytes_ok_app. split; [|done]. apply Forall_cons; [unfold is_byte; lia|done].
Qed.

Lemma service_data_ok flags fs :
  is_byte flags -> Forall field_bytes_ok fs -> (length (fields_bytes fs) < 252)%nat ->
  bytes_ok (service_data flags fs).
Proof.
  intros Hf Hfs Hl. apply Forall_cons; [unfold is_byte; lia|]. cbn [app].
  do 3 (apply Forall_cons; [unfold is_byte, GAP_DATA_TYPE_SERVICE_DATA_UUID; lia|]).
  apply Forall_cons; [done|by apply fields_bytes_ok].
Qed.

Lemma AppendTxPower_total adv off len tx :
  (3 <= len)%nat -> (off + 3 <= length adv)%nat ->
  exists adv', nearby_fp_AppendTxPower adv off len tx = Done (adv', 3%nat)
    /\ length adv' = length adv
    /\ take (off + 3) adv' = take off adv ++ [2; GAP_DATA_TYPE_TX_POWER_LEVEL_UUID; u8 tx].
Proof.
  intros Hl Ho. unfold nearby_fp_AppendTxPower, TX_POWER_DATA_SIZE.
  rewrite (proj2 (Nat.leb_le (1 + 2) len)) by lia. cbn [nearby_assert]. rewrite done_bind.
  assert (exists pre b0 b1 b2 rest, adv = pre ++ b0 :: b1 :: b2 :: rest /\ length pre = off)
    as (pre & b0 & b1 & b2 & rest & -> & <-).
  { exists (take off adv). rewrite length_take, Nat.min_l by lia.
    pose proof (length_drop adv off) as Hd. pose proof (take_drop off adv) as E.
    destruct (drop off adv) as [|b0 [|b1 [|b2 rest]]]; cbn in Hd; try lia. by exists b0, b1, b2, rest. }
  rewrite store_app, done_bind.
  assert (forall x y l, pre ++ x :: y :: l = (pre ++ [x]) ++ y :: l) as E by (intros; by rewrite <- app_assoc).
  rewrite E. replace (length pre + 1)%nat with (length (pre ++ [u8 (Z.of_nat 2)])) by (rewrite length_app; done).
  rewrite store_app, done_bind, <- E.
  assert (forall x y z l, pre ++ x :: y :: z :: l = (pre ++ [x; y]) ++ z :: l) as E2 by (intros; by rewrite <- app_assoc).
  rewrite E2. set (p2 := pre ++ [_; _]).
  replace (length pre + 2)%nat with (length p2) by (unfold p2; rewrite length_app; done).
  rewrite store_app, done_bind. eexists. split; [done|]. unfold p2. rewrite <- E2.
  split; [by rewrite !length_app|]. rewrite take_app_length.
  rewrite (take_app_ge pre) by lia. replace (length pre + 3 - length pre)%nat with 3%nat by lia. done.
Qed.

(** Without account keys: a payload of six bytes whose filter field is empty. *)
Lemma CreateNondiscoverable_empty l output len sp sb bi :
  list_ok l -> num_keys l = 0 -> (9 <= len <= length output)%nat ->
  effects is_se (CreateNondiscoverableAdvertisement (S:=S) l output len sp sb bi) (fun r =>
    fst r = [5; GAP_DATA_TYPE_SERVICE_DATA_UUID; 0x2C; 0xFE; 0; 0] ++ drop 6 output /\ snd r = 6%nat).
Proof.
  intros Hok Hn Hl. unfold CreateNondiscoverableAdvertisement, FP_SERVICE_UUID_SIZE.
  rewrite (proj2 (Nat.leb_le (2 + 2) len)) by lia. eff_lift ltac:(reflexivity).
  eapply effects_bind; [apply uninit_total|]. intros salt [Hs Hsb].
  destruct output as [|b0 [|b1 [|b2 [|b3 [|b4 [|b5 output]]]]]]; cbn in Hl; try lia.
  eff_lift ltac:(reflexivity). eff_lift ltac:(reflexivity).
  eapply effects_bind; [by apply rand_salt_effects|]. intros salt' _.
  assert (unique_count l = 0%nat) as Hu.
  { unfold unique_count. pose proof (key_bytes_length l Hok) as Hk. rewrite Hn in Hk.
    by apply nil_length_inv in Hk as ->. }
  eff_lift ltac:(by apply GetUnique_spec). fold (unique_count l). rewrite Hu.
  rewrite (proj2 (Nat.leb_le (4 + 2) len)) by lia.
  apply effects_bind with (R := fun r =>
    r = (b0 :: [GAP_DATA_TYPE_SERVICE_DATA_UUID; 0x2C; 0xFE; 0; 0] ++ output, 6%nat)).
  { do 3 eff_lift ltac:(reflexivity). by apply effects_ret. }
  intros r ->. eff_lift ltac:(reflexivity). by apply effects_ret.
Qed.

End Totality.
