(* ===== verification/ClientInvariant.v ===== *)
(** The invariant of the provider's state and the rules to prove that a handler
    keeps it.

    [client_ok] is the well-formedness of the static variables of
    nearby_fp_client.c; [safe] says that a function returns (no assertion fails, no
    access leaves its object), that it keeps an invariant, and that it makes only
    HAL calls of a given kind, whatever the platform answers.  The last part of the
    file proves the shared helpers of ClientState.v safe. *)

From Stdlib Require Import ZArith Lia.
From stdpp Require Import base list numbers.
From S2P Require Import Prelude Utils Platform SecureElement TestPlatform Crypto AccountKeys.
From S2P Require Import MessageStream Advertisement CryptoSafety AdvertisementSafety.
From S2P Require Import ClientState.
Import Utils.

(** * The invariant *)

Definition is_u32 (x : Z) : Prop := 0 <= x < 2 ^ 32.
Definition is_u64 (x : Z) : Prop := 0 <= x < 2 ^ 64.

(** Size of the buffer of a message stream connection. *)
Definition INPUT_LENGTH : Z := METADATA_SIZE + Z.of_nat MAX_MESSAGE_STREAM_PAYLOAD_SIZE.

(** An entry of the connection table: its nonce and key have their sizes, and its
    parser is valid, or it has never been used and is not connected. *)
Record input_ok (r : rfcomm_input) : Prop := {
  ok_nonce : buf SESSION_NONCE_SIZE (session_nonce r);
  ok_in_use_key : buf ACCOUNT_KEY_SIZE_BYTES (in_use_account_key r);
  ok_address : is_u64 (input_peer_address r);
  ok_parser : (stream_ok (input_state r) /\ stream_length (input_state r) = INPUT_LENGTH)
    \/ (stream_length (input_state r) = 0 /\ input_peer_address r = INVALID_PEER_ADDRESS);
}.

Definition peers (c : client) : list Z := input_peer_address <$> rfcomm_inputs c.

Record client_ok {C : Config} (c : client) : Prop := {
  ok_failures : 0 <= pairing_failure_count c <= MAX_PAIRING_FAILURE_COUNT;
  ok_timeout : is_u32 (timeout_start_ms c);
  ok_reject : is_u32 (reject_pairing_time_start_ms c);
  ok_public : is_u64 (peer_public_address c);
  ok_gatt : is_u64 (gatt_peer_address c);
  ok_data_id : is_byte (additional_data_id c);
  ok_custom : is_byte (sass_custom_data c);
  ok_key_info : key_ok (account_key_info c);
  ok_pending : key_ok (pending_account_key_info c);
  ok_table : length (rfcomm_inputs c) = NEARBY_MAX_RFCOMM_CONNECTIONS;
  ok_inputs : Forall input_ok (rfcomm_inputs c);
  ok_retro : length (retroactive_pairing_list c) = NEARBY_MAX_RETROACTIVE_PAIRING;
  ok_list : list_ok (account_key_list c);
  ok_nodup : list_nodup (account_key_list c);
}.

(** Where the account keys come from: the keys that may be in the list, and the
    ones that may be kept until the pairing completes. *)
Record key_origins : Type := KeyOrigins {
  listed : list Z -> Prop;
  awaited : list Z -> Prop;
}.

Definition any_origin : key_origins := KeyOrigins (fun _ => True) (fun _ => True).

Definition keys_from {C : Config} (o : key_origins) (c : client) : Prop :=
  Forall (listed o) (key_bytes (account_key_list c))
  /\ (account_key (pending_account_key_info c) = replicate ACCOUNT_KEY_SIZE_BYTES 0
      \/ awaited o (account_key (pending_account_key_info c))).

(** [client_ok] with at most [n] failures, a pairing state in [q], the addresses of
    the connection table when [a] is given, and keys from [o]. *)
Definition inv {C : Config} (n : Z) (q : PairingState -> Prop) (a : option (list Z))
    (o : key_origins) (c : client) : Prop :=
  client_ok c /\ pairing_failure_count c <= n /\ q (pairing_state c)
  /\ from_option (fun l => peers c = l) True a /\ keys_from o c.

Definition any_state (x : PairingState) : Prop := True.

(** ** Calls of the platform

    The arguments the platform may rely on.  An advertisement is empty (disabled)
    or a sequence of AD structures, a length byte followed by as many bytes. *)
Inductive ad_structures : list Z -> Prop :=
| ad_nil : ad_structures []
| ad_cons body rest :
    (1 <= length body <= 255)%nat -> ad_structures rest ->
    ad_structures (Z.of_nat (length body) :: body ++ rest).

Definition advertisement_ok {C : Config} (payload : list Z)
    (interval : nearby_fp_AvertisementInterval) : Prop :=
  bytes_ok payload /\ ad_structures payload /\
  match interval with
  | kDisabled => payload = []
  | kNoLargerThan100ms => length payload = DISCOVERABLE_ADV_SIZE_BYTES
  | kNoLargerThan250ms => (0 < length payload <= NON_DISCOVERABLE_ADV_SIZE_BYTES)%nat
  end.

Definition notification_ok (characteristic : nearby_fp_Characteristic) (message : list Z) : Prop :=
  match characteristic with
  | kKeyBasedPairing | kPasskey => buf AES_MESSAGE_SIZE_BYTES message
  | kAdditionalData =>
    bytes_ok message /\ (ADDITIONAL_DATA_HEADER_SIZE <= length message
                         <= ADDITIONAL_DATA_HEADER_SIZE + PERSONALIZED_NAME_MAX_SIZE)%nat
  | _ => False
  end.

(** A static random address: the two most significant of its 48 bits are 01. *)
Definition rotated_address (a : Z) : Prop :=
  0 <= a < 2 ^ 48 /\ Z.testbit a 46 = true /\ Z.testbit a 47 = false.

Definition request_ok {C : Config} (r : hal_request) : Prop :=
  match r with
  | PERSISTENCE (SaveValue kStoredKeyAccountKeyList b) =>
    exists l, list_ok l /\ list_nodup l /\ b = list_image l
  | PERSISTENCE (SaveValue kStoredKeyPersonalizedName b) =>
    bytes_ok b /\ (length b <= PERSONALIZED_NAME_MAX_SIZE)%nat
  | BT (SetDeviceName name) =>
    Forall (fun c => 0 < c < 256) name /\ (length name <= PERSONALIZED_NAME_MAX_SIZE)%nat
  | BT (SetRemotePasskey passkey) => 0 <= passkey < 2 ^ 24
  | BT (SendPairingRequest address) => 0 <= address < 2 ^ 48
  | BT (SendMessageStream _ message) => bytes_ok message
  | BLE (SetBleAddress address) => rotated_address address
  | BLE (GattNotify _ characteristic message) => notification_ok characteristic message
  | BLE (SetAdvertisement payload interval) => advertisement_ok payload interval
  | OS (StartTimer _ delay_ms) => 0 < delay_ms < 2 ^ 31
  | OS (Ring command timeout) => is_byte command /\ 0 <= timeout <= 2550
  | AUDIO (SetSwitchingPreference flags) | AUDIO (SwitchBackAudioSource _ flags)
  | AUDIO (NotifySassInitiatedConnection _ flags) | AUDIO (SetDropConnectionTarget _ flags)
  | AUDIO (SwitchActiveAudioSource _ flags _) => is_byte flags
  | _ => True
  end.

Lemma disabled_ok {C : Config} : request_ok (BLE (SetAdvertisement [] kDisabled)).
Proof. split; [by constructor|split; [constructor|done]]. Qed.

Lemma query_ok {C : Config} r : is_query r -> request_ok r.
Proof. by destruct r as [| | | | | |[]|]. Qed.

Lemma ad_app l1 l2 : ad_structures l1 -> ad_structures l2 -> ad_structures (l1 ++ l2).
Proof.
  induction 1 as [|body rest Hb _ IH]; intros H2; [done|]. cbn [app]. rewrite <- app_assoc.
  constructor; [done|by apply IH].
Qed.

Lemma ad_single body : (1 <= length body <= 255)%nat -> ad_structures (Z.of_nat (length body) :: body).
Proof. intros H. rewrite <- (app_nil_r body) at 2. constructor; [done|constructor]. Qed.

Lemma keys_any {C : Config} c : keys_from any_origin c.
Proof. split; [by apply Forall_true|by right]. Qed.

Lemma inv_client_ok {C : Config} c :
  inv MAX_PAIRING_FAILURE_COUNT any_state None any_origin c <-> client_ok c.
Proof.
  split; [by intros []|]. intros H. pose proof (keys_any c).
  by destruct (ok_failures c H); split; [|split; [|split; [|split]]].
Qed.

(** * Rules *)
Section Safe.
Context {P : Platform} {S : Type}.
Variable K : hal_request -> Prop.
Variable I : S -> Prop.

Definition safe {A} (m : M S A) (R : A -> Prop) : Prop :=
  forall s, I (st s) -> wp m (fun a s' => I (st s') /\ ext K s s' /\ R a) s.

Lemma safe_ret {A} (a : A) (R : A -> Prop) : R a -> safe (mret a) R.
Proof. intros Ha s Hs. apply wp_ret. split; [done|]. split; [apply ext_refl|done]. Qed.

Lemma safe_bind {A B} (m : M S A) (k : A -> M S B) R R' :
  safe m R -> (forall a, R a -> safe (k a) R') -> safe (mbind k m) R'.
Proof.
  intros Hm Hk s Hs. apply wp_bind. eapply wp_mono; [by apply Hm|].
  intros a s1 (H1 & E1 & Ha). eapply wp_mono; [by apply (Hk a Ha)|].
  intros b s2 (H2 & E2 & Hb). split; [done|]. split; [by eapply ext_trans|done].
Qed.

Lemma safe_mono {A} (m : M S A) (R R' : A -> Prop) :
  safe m R -> (forall a, R a -> R' a) -> safe m R'.
Proof.
  intros Hm HR s Hs. eapply wp_mono; [by apply Hm|]. intros a s' (? & ? & ?). auto.
Qed.

Lemma safe_effects {A} K' (m : M S A) R :
  effects K' m R -> (forall r, K' r -> K r) -> safe m R.
Proof.
  intros Hm HK s Hs. eapply wp_mono; [by apply Hm|].
  intros a s' ((-> & E) & Ha). split; [done|]. split; [by eapply ext_mono|done].
Qed.

Lemma safe_hal {A} r (f : hal_response -> A) (R : A -> Prop) :
  K r -> (forall resp, R (f resp)) -> safe (hal_map r f) R.
Proof. intros HK HR. eapply safe_effects; [by apply effects_hal_map|done]. Qed.

Lemma safe_uninit n : safe (uninit n) (buf n).
Proof. apply safe_effects with K; [|done]. by apply effects_uninit. Qed.

Lemma safe_lift {A} (o : outcome A) a (R : A -> Prop) : o = Done a -> R a -> safe (lift o) R.
Proof. intros. apply safe_effects with K; [|done]. by eapply effects_lift. Qed.

Lemma safe_gets {A} (f : S -> A) (R : A -> Prop) : (forall c, I c -> R (f c)) -> safe (gets f) R.
Proof. intros HR s Hs. apply wp_gets. split; [done|]. split; [apply ext_refl|auto]. Qed.

Lemma safe_modify (f : S -> S) : (forall c, I c -> I (f c)) -> safe (modify f) (fun _ => True).
Proof. intros HI s Hs. apply wp_modify. split; [by apply HI|]. split; [|done]. by exists []. Qed.

End Safe.

(** A function that does not change the state may refer to it. *)
Lemma safe_frozen {P : Platform} {S A} K (I : S -> Prop) (m : M S A) R :
  (forall c, I c -> safe K (eq c) m R) -> safe K I m R.
Proof.
  intros H s Hs. eapply wp_mono; [by apply (H (st s) Hs s)|].
  intros a s' (E & ? & ?). by rewrite <- E.
Qed.

Section SafeBuffers.
Context {P : Platform} {S : Type}.
Variable K : hal_request -> Prop.
Variable I : S -> Prop.

(** Stores into a buffer of known length. *)
Lemma store_ok k b i v : buf k b -> (i < k)%nat -> safe K I (lift (store b i v)) (buf k).
Proof.
  intros [Hl Hb] Hi. eapply safe_lift; [apply store_done; lia|].
  split; [by rewrite length_insert|auto with fp].
Qed.

Lemma write_ok k b i src :
  buf k b -> bytes_ok src -> (i + length src <= k)%nat -> safe K I (lift (write_bytes b i src)) (buf k).
Proof.
  intros Hb Hs Hi. eapply safe_lift; [apply write_bytes_done; destruct Hb; lia|].
  eapply (write_bytes_buf k b i src); [done|done|]. apply write_bytes_done. destruct Hb. lia.
Qed.

Lemma copy_be_ok k b i x m :
  buf k b -> (i + m <= k)%nat -> safe K I (lift (nearby_utils_CopyBigEndian b i x m)) (buf k).
Proof.
  intros Hb Hi. rewrite CopyBigEndian_spec by (destruct Hb; lia).
  apply write_ok; [done|apply be_bytes_ok|by rewrite be_bytes_length].
Qed.

End SafeBuffers.

(** ** Automation *)

(** Bind a step with its lemma, and continue with its result. *)
Ltac step lem := eapply safe_bind; [lem|].
Ltac step_hal := step ltac:(apply safe_hal with (R := fun _ => True); [first [exact I|apply disabled_ok]|done]); intros ? _.
Ltac step_lift tac := step ltac:(eapply safe_lift with (R := eq _); [tac|reflexivity]); intros ? <-.
Ltac step_gets := step ltac:(apply safe_gets with (R := fun _ => True); done); intros ? _.
Ltac step_any lem := step ltac:(eapply safe_mono with (R' := fun _ => True); [lem|done]); intros ? _.
(** An early return on a status. *)
Ltac on_status :=
  match goal with
  | |- safe _ _ (if negb (status_ok ?s) then _ else _) _ => destruct (status_ok s); cbn [negb]
  | |- safe _ _ (if status_ok ?s then _ else _) _ => destruct (status_ok s)
  end; try (apply safe_ret; done).
Ltac on_if :=
  match goal with |- safe _ _ (if ?b then _ else _) _ => destruct b eqn:? end;
  try (apply safe_ret; done).
Ltac step_store b :=
  eapply safe_bind; [eapply store_ok; [eassumption|first [lia|by apply Nat.ltb_lt]]|intros b ?].
Ltac safe_se lem := eapply safe_effects; [lem|by intros []].

(** An update of fields the invariant does not constrain, or constrains by a fact
    at hand. *)
Ltac keep_inv :=
  intros ? [[] (? & ? & ?)]; split; [split; cbn; auto with fp|split; [cbn; auto|split; [cbn; auto|auto]]].

(** * Queries of the state are safe under any invariant *)
Section Queries.
Context {C : Config} {P : Platform}.
Variable I : client -> Prop.
Notation ok := (safe request_ok I).

Lemma ShouldTimeout_ok t : ok (ShouldTimeout t) (fun _ => True).
Proof. unfold ShouldTimeout. step_hal. step_gets. by apply safe_ret. Qed.

Lemma mode_has_ok f : ok (mode_has f) (fun _ => True).
Proof. unfold mode_has. step_gets. by apply safe_ret. Qed.

Lemma IncludeSass_ok : ok IncludeSass (fun _ => True).
Proof. unfold IncludeSass. on_if. apply mode_has_ok. Qed.

Lemma IsInPairingMode_ok : ok IsInPairingMode (fun _ => True).
Proof. unfold IsInPairingMode. step_hal. on_if. step_gets. by apply safe_ret. Qed.

Lemma PrepareBatteryInfo_ok : ok PrepareBatteryInfo (fun _ => True).
Proof. unfold PrepareBatteryInfo. step_hal. destruct a as [s b]. on_status. Qed.

Lemma SelectInUseKey_safe :
  (forall c, I c -> Forall input_ok (rfcomm_inputs c)) ->
  ok SelectInUseKey (fun o => from_option (buf 16) True o).
Proof.
  intros HI. unfold SelectInUseKey. on_if. step ltac:(apply IncludeSass_ok). intros b _. on_if.
  unfold FindInUseKey.
  step ltac:(apply safe_gets with (R := Forall input_ok); done). intros l Hl.
  apply safe_ret. destruct (find _ l) as [r|] eqn:E; [|done]. cbn.
  apply find_some in E as [Hin _]. rewrite List.Forall_forall in Hl. by apply Hl.
Qed.

(** ** Sending *)

(** The data of a message to send are bytes, as many as its length says. *)
Definition sendable (m : nearby_message_stream_Message) : Prop :=
  message_length m <= Z.of_nat (length (message_data m)) /\ bytes_ok (message_data m).

Lemma sendable_buf k m :
  buf k (message_data m) -> message_length m <= Z.of_nat k -> sendable m.
Proof. intros [Hl Hb] Hm. split; [lia|done]. Qed.

Lemma sendable_nil g c : sendable (Message g c 0 []).
Proof. split; [done|constructor]. Qed.

Lemma Send_ok p m : sendable m -> ok (nearby_message_stream_Send p m) (fun _ => True).
Proof.
  unfold sendable. intros [Hm Hb]. unfold nearby_message_stream_Send.
  step ltac:(apply safe_hal with (R := fun _ => True); [|done]).
  { cbn. repeat constructor; apply u8_byte. }
  intros st _. on_if. bool_to_prop. step_lift ltac:(apply read_bytes_done; lia).
  apply safe_hal; [|done]. cbn. auto with fp.
Qed.

Lemma SendAck_ok p m : ok (nearby_message_stream_SendAck p m) (fun _ => True).
Proof. apply safe_hal; [|done]. cbn. repeat constructor; done || apply u8_byte. Qed.
Lemma SendNack_ok p m f : ok (nearby_message_stream_SendNack p m f) (fun _ => True).
Proof. apply safe_hal; [|done]. cbn. repeat constructor; done || apply u8_byte. Qed.

(** An entry of the connection table. *)
Lemma get_input_safe i :
  (forall c, I c -> client_ok c) -> (i < 2)%nat -> ok (get_input i) input_ok.
Proof.
  intros HI Hi. apply safe_frozen. intros c Hc. unfold get_input.
  step ltac:(apply safe_gets with (R := eq (rfcomm_inputs c)); by intros ? <-). intros l <-.
  destruct (HI c Hc). unfold NEARBY_MAX_RFCOMM_CONNECTIONS in *.
  destruct (rfcomm_inputs c !! i) as [r|] eqn:E; [|apply lookup_ge_None in E; lia].
  apply safe_ret. by eapply Forall_lookup_1.
Qed.

End Queries.

(** * The helpers of ClientState.v are safe *)
Section Helpers.
Context {C : Config} {P : Platform}.
Variables (n : Z) (q : PairingState -> Prop) (a : option (list Z)) (o : key_origins).
Notation ok := (safe request_ok (inv n q a o)).

Lemma set_pairing_state_ok v : q v -> ok (modify (set_pairing_state v)) (fun _ => True).
Proof. intros. apply safe_modify. keep_inv. Qed.
Lemma get_pairing_state_ok : ok (gets pairing_state) q.
Proof. apply safe_gets. by intros c (_ & _ & ? & _). Qed.
Lemma set_timeout_ok v : is_u32 v -> ok (modify (set_timeout_start_ms v)) (fun _ => True).
Proof. intros. apply safe_modify. keep_inv. Qed.
Lemma set_peer_public_ok v : is_u64 v -> ok (modify (set_peer_public_address v)) (fun _ => True).
Proof. intros. apply safe_modify. keep_inv. Qed.
Lemma set_gatt_ok v : is_u64 v -> ok (modify (set_gatt_peer_address v)) (fun _ => True).
Proof. intros. apply safe_modify. keep_inv. Qed.
Lemma set_mode_ok v : ok (modify (set_advertisement_mode v)) (fun _ => True).
Proof. apply safe_modify. keep_inv. Qed.
Lemma set_data_id_ok v : is_byte v -> ok (modify (set_additional_data_id v)) (fun _ => True).
Proof. intros. apply safe_modify. keep_inv. Qed.
Lemma set_custom_ok v : is_byte v -> ok (SetCustomData v) (fun _ => True).
Proof. intros. apply safe_modify. keep_inv. Qed.
Lemma set_key_info_ok v : key_ok v -> ok (modify (set_account_key_info v)) (fun _ => True).
Proof. intros. apply safe_modify. keep_inv. Qed.
Lemma set_rotation_time_ok v : ok (modify (set_address_rotation_timestamp v)) (fun _ => True).
Proof. apply safe_modify. keep_inv. Qed.
Lemma set_rotation_task_ok v : ok (modify (set_address_rotation_task v)) (fun _ => True).
Proof. apply safe_modify. keep_inv. Qed.
Lemma set_list_ok v :
  list_ok v -> list_nodup v -> Forall (listed o) (key_bytes v) ->
  ok (modify (set_account_key_list v)) (fun _ => True).
Proof.
  intros ? ? Hv. apply safe_modify. intros c [[] (? & ? & ? & _ & ?)].
  split; [by split|by split; [|split; [|split; [|split]]]].
Qed.

Lemma zero_key_info_ok : key_ok zero_key_info.
Proof.
  split; [done|]. split; [|cbn; lia]. apply bytes_ok_replicate. unfold is_byte. lia.
Qed.

Lemma DiscardAccountKey_ok : ok DiscardAccountKey (fun _ => True).
Proof. apply set_key_info_ok, zero_key_info_ok. Qed.
Lemma DiscardPendingAccountKey_ok : ok DiscardPendingAccountKey (fun _ => True).
Proof.
  pose proof zero_key_info_ok. apply safe_modify. intros c [[] (? & ? & ? & ? & _)].
  split; [by split|by split; [|split; [|split; [|split; [|left]]]]].
Qed.

Lemma get_key_info_ok : ok (gets account_key_info) key_ok.
Proof. apply safe_gets. by intros c [[] _]. Qed.
Lemma get_list_ok :
  ok (gets account_key_list) (fun l => list_ok l /\ list_nodup l /\ Forall (listed o) (key_bytes l)).
Proof. apply safe_gets. by intros c [[] (_ & _ & _ & ? & _)]. Qed.

Lemma now_ok : ok nearby_platform_GetCurrentTimeMs is_u32.
Proof. apply safe_hal; [exact I|]. intros. apply u32_range. Qed.

Lemma HasPendingAccountKey_ok : ok HasPendingAccountKey (fun _ => True).
Proof.
  unfold HasPendingAccountKey.
  step ltac:(apply safe_gets with (R := key_ok); by intros c [[] _]). intros k (Hk & _).
  destruct (load_lt (account_key k) 0) as (v & Hv & _); [unfold ACCOUNT_KEY_SIZE_BYTES, AES_MESSAGE_SIZE_BYTES in Hk; lia|].
  step_lift ltac:(exact Hv). by apply safe_ret.
Qed.

(** ** Account keys *)

Lemma add_account_key_ok k :
  key_ok k -> listed o (account_key k) -> ok (add_account_key k) (fun _ => True).
Proof.
  intros Hk Ho. unfold add_account_key. step ltac:(apply get_list_ok). intros l (Hl & Hn & Hf).
  destruct (AddAccountKey_lru l k Hl Hn Hk) as (l' & E & Habs & Hl' & Hn').
  step_lift ltac:(exact E). apply set_list_ok; [done|done|]. by eapply lru_add_keys.
Qed.

Lemma listed_key c i x :
  inv n q a o c -> keys_in_use (account_key_list c) !! i = Some x -> listed o (account_key x).
Proof.
  intros (_ & _ & _ & _ & Hf & _) Hx. eapply Forall_lookup_1; [exact Hf|]. by apply GetAccountKey_bytes.
Qed.

Lemma save_account_keys_ok : ok save_account_keys (fun _ => True).
Proof.
  unfold save_account_keys. step ltac:(apply get_list_ok). intros l (Hl & Hn & _).
  apply safe_hal; [|done]. by exists l.
Qed.

(** ** The connection table *)

Lemma inputs_ok c i r :
  inv n q a o c -> rfcomm_inputs c !! i = Some r ->
  input_ok r /\ from_option (fun l => l !! i = Some (input_peer_address r)) True a.
Proof.
  intros [[] (_ & _ & Ha & _)] Hr. split; [by eapply Forall_lookup_1|].
  destruct a; [|done]. cbn in *. subst. unfold peers. by rewrite list_lookup_fmap, Hr.
Qed.

Lemma get_input_ok i : (i < 2)%nat ->
  ok (get_input i) (fun r => input_ok r /\
    from_option (fun l => l !! i = Some (input_peer_address r)) True a).
Proof.
  intros Hi. apply safe_frozen. intros c Hc. unfold get_input.
  step ltac:(apply safe_gets with (R := eq (rfcomm_inputs c)); by intros ? <-). intros l <-.
  pose proof Hc as [[] _]. unfold NEARBY_MAX_RFCOMM_CONNECTIONS in *.
  destruct (rfcomm_inputs c !! i) as [r|] eqn:E.
  - apply safe_ret. by eapply inputs_ok.
  - apply lookup_ge_None in E. lia.
Qed.

Lemma update_input_at i f : (i < 2)%nat ->
  (forall r, input_ok r -> from_option (fun l => l !! i = Some (input_peer_address r)) True a ->
     input_ok (f r) /\ (a = None \/ input_peer_address (f r) = input_peer_address r)) ->
  ok (update_input i f) (fun _ => True).
Proof.
  intros Hi Hf s Hs. unfold update_input, get_input.
  apply wp_bind, wp_bind, wp_gets. pose proof Hs as [[] (Hn & Hq & Ha & Hk)].
  unfold NEARBY_MAX_RFCOMM_CONNECTIONS in *.
  destruct (rfcomm_inputs (st s) !! i) as [r|] eqn:E; [|apply lookup_ge_None in E; lia].
  destruct (inputs_ok _ _ _ Hs E) as [Hr Hra]. destruct (Hf r Hr Hra) as [Hfr Hfa].
  apply wp_ret, wp_modify. cbn [st]. split; [|split; [by exists []|done]]. split.
  - split; cbn; auto; [by rewrite length_insert|]. by apply Forall_insert.
  - split; [done|]. split; [done|]. split; [|done]. destruct a as [l|]; [|done]. destruct Hfa as [?|Hfa]; [done|].
    cbn in *. subst l. unfold peers. cbn. rewrite list_fmap_insert, Hfa.
    apply list_insert_id. by rewrite list_lookup_fmap, E.
Qed.

Lemma update_input_ok i f : (i < 2)%nat ->
  (forall r, input_ok r -> input_ok (f r)) ->
  a = None \/ (forall r, input_peer_address (f r) = input_peer_address r) ->
  ok (update_input i f) (fun _ => True).
Proof.
  intros Hi Hf Ha. apply update_input_at; [done|]. intros r Hr _.
  split; [by apply Hf|]. destruct Ha as [Ha|Ha]; [by left|by right].
Qed.

Lemma find_index_some p l k i :
  find_index p l k = Some i -> exists r, (k <= i)%nat /\ l !! (i - k)%nat = Some r /\ p r = true.
Proof.
  revert k. induction l as [|r l IH]; intros k; cbn [find_index]; [done|].
  destruct (p r) eqn:E; [intros [= <-]; exists r; by rewrite Nat.sub_diag|].
  intros (r' & Hk & Hr & Hp)%IH. exists r'. split; [lia|].
  by replace (i - k)%nat with (S (i - S k)) by lia.
Qed.

Lemma find_index_none p l k r : find_index p l k = None -> r ∈ l -> p r = false.
Proof.
  revert k. induction l as [|x l IH]; intros k H Hr; [by apply not_elem_of_nil in Hr|].
  cbn [find_index] in H. destruct (p x) eqn:E; [done|].
  apply elem_of_cons in Hr as [->|Hr]; [done|by eapply IH].
Qed.

Lemma GetRfcommInput_ok p :
  ok (GetRfcommInput p) (fun o => match o with
    | Some i => (i < 2)%nat /\ from_option (fun l => l !! i = Some p) True a
    | None => from_option (fun l => p ∉ l) True a
    end).
Proof.
  unfold GetRfcommInput. apply safe_frozen. intros c Hc.
  step ltac:(apply safe_gets with (R := eq (rfcomm_inputs c)); by intros ? <-). intros l <-.
  apply safe_ret. pose proof Hc as [[] (_ & _ & Ha & _)]. unfold NEARBY_MAX_RFCOMM_CONNECTIONS in *.
  destruct (find_index _ _ _) as [i|] eqn:E.
  - apply find_index_some in E as (r & _ & Hr & Hp). rewrite Nat.sub_0_r in Hr. bool_to_prop.
    split; [apply lookup_lt_Some in Hr; lia|].
    destruct (inputs_ok c i r Hc Hr) as [_ H]. by rewrite Hp in H.
  - destruct a as [l|]; [|done]. cbn in *. subst l. intros (r & -> & Hr)%list_elem_of_fmap.
    apply (find_index_none _ _ _ r) in E; [|done]. cbn beta in E.
    by rewrite Z.eqb_refl in E.
Qed.

(** ** The list of retroactive peers *)

Lemma get_peer_ok i : (i < 2)%nat -> ok (get_peer i) (fun _ => True).
Proof.
  intros Hi. apply safe_frozen. intros c Hc. unfold get_peer.
  step ltac:(apply safe_gets with (R := eq (retroactive_pairing_list c)); by intros ? <-). intros l <-.
  pose proof Hc as [[] _]. unfold NEARBY_MAX_RETROACTIVE_PAIRING in *.
  destruct (_ !! i) as [r|] eqn:E; [by apply safe_ret|]. apply lookup_ge_None in E. lia.
Qed.

Lemma put_peer_ok i p : (i < 2)%nat -> ok (put_peer i p) (fun _ => True).
Proof.
  intros Hi. unfold put_peer. step ltac:(by apply get_peer_ok). intros _ _.
  apply safe_modify. intros c [[] (? & ? & ?)]. split; [|done].
  split; cbn; auto. by rewrite length_insert.
Qed.

Lemma AddRetroactive_expire_ok k i p :
  (k + i <= 2)%nat -> ok (AddRetroactive_expire k i p) (fun _ => True).
Proof.
  revert i. induction k as [|k IH]; intros i Hi; cbn [AddRetroactive_expire]; [by apply safe_ret|].
  step ltac:(apply get_peer_ok; lia). intros peer _. step_hal.
  eapply safe_bind with (R := fun _ => True).
  { on_if. step ltac:(apply put_peer_ok; lia). intros _ _. by apply safe_ret. }
  intros p' _. on_if. apply IH. lia.
Qed.

Lemma AddRetroactive_insert_ok k i p :
  (k + i <= 2)%nat -> ok (AddRetroactive_insert k i p) (fun _ => True).
Proof.
  revert i. induction k as [|k IH]; intros i Hi; cbn [AddRetroactive_insert]; [by apply safe_ret|].
  step ltac:(apply get_peer_ok; lia). intros peer _. on_if.
  - step_hal. step ltac:(apply put_peer_ok; lia). intros _ _. by apply safe_ret.
  - apply IH. lia.
Qed.

Lemma AddRetroactivePairingPeer_ok p : ok (AddRetroactivePairingPeer p) (fun _ => True).
Proof.
  unfold AddRetroactivePairingPeer. step ltac:(by apply AddRetroactive_expire_ok). intros b _.
  on_if. by apply AddRetroactive_insert_ok.
Qed.

Lemma SetRetroactiveLe_loop_ok k i p le :
  (k + i <= 2)%nat -> ok (SetRetroactiveLe_loop k i p le) (fun _ => True).
Proof.
  revert i. induction k as [|k IH]; intros i Hi; cbn [SetRetroactiveLe_loop]; [by apply safe_ret|].
  step ltac:(apply get_peer_ok; lia). intros peer _. on_if; [|apply IH; lia].
  step ltac:(apply put_peer_ok; lia). intros _ _. by apply safe_ret.
Qed.

Lemma SetRetroactivePairingPeerLe_ok p le : ok (SetRetroactivePairingPeerLe p le) (fun _ => True).
Proof. by apply SetRetroactiveLe_loop_ok. Qed.

Lemma RetroactivePending_loop_ok k i p :
  (k + i <= 2)%nat -> ok (RetroactivePending_loop k i p) (fun _ => True).
Proof.
  revert i. induction k as [|k IH]; intros i Hi; cbn [RetroactivePending_loop]; [by apply safe_ret|].
  step ltac:(apply get_peer_ok; lia). intros peer _. on_if. apply IH. lia.
Qed.

Lemma RetroactivePairingPeerPending_ok p : ok (RetroactivePairingPeerPending p) (fun _ => True).
Proof. by apply RetroactivePending_loop_ok. Qed.

Lemma RetroactiveTimeout_loop_ok k i p :
  (k + i <= 2)%nat -> ok (RetroactiveTimeout_loop k i p) (fun _ => True).
Proof.
  revert i. induction k as [|k IH]; intros i Hi; cbn [RetroactiveTimeout_loop]; [by apply safe_ret|].
  step ltac:(apply get_peer_ok; lia). intros peer _. on_if; [|apply IH; lia].
  step_hal. on_if. apply IH. lia.
Qed.

Lemma RetroactivePairingPeerTimeout_ok p : ok (RetroactivePairingPeerTimeout p) (fun _ => True).
Proof. by apply RetroactiveTimeout_loop_ok. Qed.

Lemma RemoveRetroactive_loop_ok k i p :
  (k + i <= 2)%nat -> ok (RemoveRetroactive_loop k i p) (fun _ => True).
Proof.
  revert i. induction k as [|k IH]; intros i Hi; cbn [RemoveRetroactive_loop]; [by apply safe_ret|].
  step ltac:(apply get_peer_ok; lia). intros peer _. eapply safe_bind with (R := fun _ => True).
  { on_if. apply put_peer_ok. lia. }
  intros _ _. apply IH. lia.
Qed.

Lemma RemoveRetroactivePairingPeer_ok p : ok (RemoveRetroactivePairingPeer p) (fun _ => True).
Proof. by apply RemoveRetroactive_loop_ok. Qed.

(** ** Battery and address messages *)

Lemma SerializeBatteryInfo_ok k b off info :
  buf k b -> (off + 3 <= k)%nat -> ok (lift (SerializeBatteryInfo b off info)) (buf k).
Proof.
  intros [Hl Hb] Ho. unfold SerializeBatteryInfo. eapply safe_lift.
  - rewrite store_done by lia. cbn. rewrite store_done by (rewrite length_insert; lia). cbn.
    rewrite store_done by (rewrite !length_insert; lia). reflexivity.
  - split; [by rewrite !length_insert|auto 10 with fp].
Qed.

Lemma SendBatteryInfoMessage_ok p : ok (SendBatteryInfoMessage p) (fun _ => True).
Proof.
  unfold SendBatteryInfoMessage. step ltac:(apply safe_uninit). intros levels Hl.
  step ltac:(apply PrepareBatteryInfo_ok). intros [b|] _; [|by apply safe_ret].
  step ltac:(by apply SerializeBatteryInfo_ok). intros l' Hl'.
  apply Send_ok. by apply (sendable_buf 3).
Qed.

Lemma SendBatteryTimeMessage_ok p : ok (SendBatteryTimeMessage p) (fun _ => True).
Proof.
  unfold SendBatteryTimeMessage. step ltac:(apply safe_uninit). intros time Hl.
  step ltac:(apply PrepareBatteryInfo_ok). intros [b|] _; [|by apply safe_ret].
  eapply safe_bind with (R := fun r => buf 2 (fst r) /\ snd r <= 2).
  - on_if.
    + step_store t1. step_store t2. by apply safe_ret.
    + step_store t1. by apply safe_ret.
  - intros [t l] [Ht Hn]. apply Send_ok. by apply (sendable_buf 2).
Qed.

Lemma ble_address_message_ok : ok ble_address_message sendable.
Proof.
  unfold ble_address_message. step ltac:(apply safe_uninit). intros b Hb. step_hal.
  step ltac:(by apply copy_be_ok). intros b' Hb'. apply safe_ret. by apply (sendable_buf 6).
Qed.

Lemma SendBleAddressUpdated_ok p : ok (SendBleAddressUpdated p) (fun _ => True).
Proof. unfold SendBleAddressUpdated. step ltac:(apply ble_address_message_ok). intros m Hm. by apply Send_ok. Qed.

Lemma send_to_connected_ok k i m :
  sendable m -> (k + i <= 2)%nat -> ok (send_to_connected k i m) (fun _ => True).
Proof.
  intros Hm. revert i. induction k as [|k IH]; intros i Hi; cbn [send_to_connected]; [by apply safe_ret|].
  step ltac:(apply get_input_ok; lia). intros r _. eapply safe_bind with (R := fun _ => True).
  { on_if. step ltac:(by apply Send_ok). intros _ _. by apply safe_ret. }
  intros _ _. apply IH. lia.
Qed.

Lemma SendBleAddressUpdatedToAll_ok : ok SendBleAddressUpdatedToAll (fun _ => True).
Proof.
  unfold SendBleAddressUpdatedToAll. step ltac:(apply ble_address_message_ok). intros m Hm.
  by apply send_to_connected_ok.
Qed.

Lemma SelectInUseKey_ok : ok SelectInUseKey (fun o => from_option (buf 16) True o).
Proof. apply SelectInUseKey_safe. by intros c [[] _]. Qed.

End Helpers.
