(* ===== verification/ClientAdvertisingSafety.v ===== *)
(** The advertising functions of ClientAdvertising.v are safe: the payloads fit
    their buffers on every path and the invariant of the client is kept. *)

From Stdlib Require Import ZArith Lia.
From stdpp Require Import base list numbers.
From S2P Require Import Prelude Utils Platform SecureElement TestPlatform Crypto AccountKeys.
From S2P Require Import MessageStream Advertisement CryptoSafety AdvertisementSafety.
From S2P Require Import ClientState ClientAdvertising ClientInvariant.
Import Utils.

(** What [SetNonDiscoverableAdvertisement] needs of the platform: with SASS the
    payload has room for a connection bitmap of three bytes, although
    MAX_DEVICE_BITMAP_SIZE is four. *)
Class BitmapSpec (C : Config) (P : Platform) : Prop :=
  bitmap_small : NEARBY_FP_ENABLE_SASS = true -> forall n w,
    (length (resp_bytes (fst (call (AUDIO (GetConnectionBitmap n)) w))) <= 3)%nat.

#[export] Instance test_bitmap C : BitmapSpec C test_platform.
Proof. intros _ n w. cbn. lia. Qed.

(** * The non-discoverable advertisement *)
Section Payload.
Context {C : Config} {P : Platform} {B : BitmapSpec C P}.
Variable I : client -> Prop.
Notation ok := (safe request_ok I).

Lemma GetConnectionBitmap_ok n :
  NEARBY_FP_ENABLE_SASS = true ->
  ok (nearby_platform_GetConnectionBitmap n) (fun b => (length b <= 3)%nat /\ bytes_ok b).
Proof.
  intros Hsass s Hs. apply wp_hal_map_call. split; [done|]. split; [by apply ext_call|].
  split; [|apply fit_upto_ok]. unfold fit_upto. rewrite length_fmap, length_take.
  pose proof (bitmap_small Hsass n (env s)). lia.
Qed.

(** The service data of the advertisement under construction, [rest] being the
    spare bytes of the buffer. *)
Definition under_way (l : AccountKeyList) (fs : list field) (rest adv : list Z) (len : nat)
  : Prop :=
  exists ft filt, filter_type ft /\ buf (key_filter_size l) filt
    /\ adv = with_filter 0 ft fs rest filt
    /\ len = (6 + key_filter_size l + length (fields_bytes fs))%nat
    /\ Forall field_bytes_ok ((ft, filt) :: fs) /\ is_Some (field_of fs 1) /\ bytes_ok rest.

Lemma service_data_length flags ft f fs :
  length (service_data flags ((ft, f) :: fs)) = (6 + length f + length (fields_bytes fs))%nat.
Proof.
  unfold service_data. rewrite fields_bytes_cons. cbn [app length].
  rewrite !length_app, field_bytes_length. cbn [snd]. lia.
Qed.

Lemma with_filter_length flags ft fs rest f :
  length (with_filter flags ft fs rest f)
  = (6 + length f + length (fields_bytes fs) + length rest)%nat.
Proof. unfold with_filter. by rewrite length_app, service_data_length. Qed.

Lemma field_ok_all fs : Forall field_bytes_ok fs -> Forall field_ok fs.
Proof. intros H. eapply Forall_impl; [|exact H]. by intros f []. Qed.

(** Filter, transmission power, transmission. *)
Definition send_payload (l : AccountKeyList) (adv : list Z) (len : nat) (sass : bool)
    (iu : option (list Z)) : M client nearby_platform_status :=
  let! ' (advertisement, _) := nearby_fp_SetBloomFilter l adv sass iu in
  let! tx := nearby_platform_GetTxLevel in
  let! ' (advertisement, n) := lift (nearby_fp_AppendTxPower advertisement len
    (NON_DISCOVERABLE_ADV_SIZE_BYTES - len) tx) in
  let! payload := lift (read_bytes advertisement 0 (len + n)) in
  nearby_platform_SetAdvertisement payload kNoLargerThan250ms.

Lemma service_data_ad flags fs :
  (length (fields_bytes fs) <= 251)%nat -> ad_structures (service_data flags fs).
Proof.
  intros Hl. unfold service_data. set (body := _ ++ fields_bytes fs).
  replace (Z.of_nat (length (fields_bytes fs)) + 4) with (Z.of_nat (length body))
    by (unfold body; rewrite length_app; cbn [length]; lia).
  apply ad_single. unfold body. rewrite length_app. cbn [length]. lia.
Qed.

(** The transmission power is a further AD structure. *)
Lemma payload_ok pre tx :
  bytes_ok pre -> ad_structures pre ->
  bytes_ok (pre ++ [2; GAP_DATA_TYPE_TX_POWER_LEVEL_UUID; u8 tx])
  /\ ad_structures (pre ++ [2; GAP_DATA_TYPE_TX_POWER_LEVEL_UUID; u8 tx]).
Proof.
  intros Hb Ha. split.
  - apply bytes_ok_app. split; [done|]. repeat constructor; done || apply u8_byte.
  - apply ad_app; [done|]. by apply (ad_single [_; _]); cbn; lia.
Qed.

Lemma append_payload_ok adv len :
  (len + 3 <= NON_DISCOVERABLE_ADV_SIZE_BYTES)%nat -> length adv = NON_DISCOVERABLE_ADV_SIZE_BYTES ->
  bytes_ok (take len adv) -> ad_structures (take len adv) ->
  ok (let! tx := nearby_platform_GetTxLevel in
      let! ' (advertisement, n) := lift (nearby_fp_AppendTxPower adv len
        (NON_DISCOVERABLE_ADV_SIZE_BYTES - len) tx) in
      let! payload := lift (read_bytes advertisement 0 (len + n)) in
      nearby_platform_SetAdvertisement payload kNoLargerThan250ms) (fun _ => True).
Proof.
  intros Hl Ha Hb Had. step_hal.
  destruct (AppendTxPower_total adv len (NON_DISCOVERABLE_ADV_SIZE_BYTES - len) a)
    as (adv' & E & Hl' & Et); [lia|lia|].
  step_lift ltac:(exact E). step_lift ltac:(apply read_bytes_done; lia). rewrite drop_0, Et.
  destruct (payload_ok (take len adv) a Hb Had). apply safe_hal; [|done].
  split; [done|]. split; [done|]. cbn. rewrite length_app, length_take. cbn [length]. lia.
Qed.

Lemma send_payload_ok l fs rest adv len sass iu :
  list_ok l -> 0 < num_keys l -> under_way l fs rest adv len ->
  (3 <= length rest)%nat -> (len + length rest)%nat = NON_DISCOVERABLE_ADV_SIZE_BYTES ->
  ok (send_payload l adv len sass iu) (fun _ => True).
Proof.
  intros Hok Hn Hu Hr Hs. pose proof Hu as (ft & filt & Hft & [Hfl Hfb] & -> & -> & Hfs & [salt Hsalt] & Hrb).
  unfold send_payload. step ltac:(safe_se ltac:(eapply SetBloomFilter_total with (salt := salt);
    [done|done|done|by apply field_ok_all|done|done])).
  intros [adv s'] (f & [Hf Hb] & E). cbn [fst] in E. subst adv.
  set (flags := if sass then _ else _).
  assert (take (6 + key_filter_size l + length (fields_bytes fs)) (with_filter flags ft fs rest f)
    = service_data flags ((ft, f) :: fs)) as Et.
  { unfold with_filter. apply take_app_length'. rewrite service_data_length. lia. }
  assert (length (fields_bytes ((ft, f) :: fs)) <= 32)%nat as Hle.
  { rewrite fields_bytes_cons, length_app, field_bytes_length. cbn [snd].
    pose proof Hs. unfold NON_DISCOVERABLE_ADV_SIZE_BYTES in *. case_head; lia. }
  apply append_payload_ok; [lia|rewrite with_filter_length; lia| |]; rewrite Et.
  - apply service_data_ok; [unfold flags, is_byte; destruct sass; lia| |lia].
    apply Forall_cons_1 in Hfs as [[[Hft1 Hft2] Hft3] Hfs]. constructor; [|done].
    split; [|done]. split; [done|]. cbn in *. by rewrite Hf, <- Hfl.
  - apply service_data_ad. lia.
Qed.

End Payload.

(** ** The SASS field *)
Section NonDiscoverable.
Context {C : Config} {P : Platform} {B : BitmapSpec C P}.

Lemma with_filter_snoc ft filt fs g rest :
  (length (fields_bytes (fs ++ [g])) + length filt < 250)%nat ->
  store (service_data 0 ((ft, filt) :: fs) ++ field_bytes g ++ rest) 0
    (Z.of_nat (6 + length filt + length (fields_bytes (fs ++ [g]))) - 1)
  = Done (with_filter 0 ft (fs ++ [g]) rest filt).
Proof.
  intros Hl. unfold with_filter, service_data. rewrite !fields_bytes_cons, fields_bytes_app.
  rewrite store_done by (cbn; lia). cbn [app insert list_insert].
  rewrite u8_id by (rewrite fields_bytes_app in Hl; unfold is_byte; rewrite length_app in *; lia).
  f_equal. f_equal.
  - rewrite !length_app, field_bytes_length. cbn [snd]. lia.
  - rewrite fields_bytes_cons, app_nil_r. by rewrite <- !app_assoc.
Qed.

Lemma field_of_app fs gs t :
  field_of (fs ++ gs) t = match field_of fs t with Some p => Some p | None => field_of gs t end.
Proof. induction fs as [|[t' p] fs IH]; cbn; [done|]. by destruct (t =? t'). Qed.

Lemma split_rest (rest : list Z) n :
  (1 + n <= length rest)%nat -> exists h tl, rest = h :: tl /\ (n <= length tl)%nat.
Proof. destruct rest as [|h tl]; cbn; intros; [lia|]. exists h, tl. split; [done|lia]. Qed.

Lemma add_sass_field_ok c l fs rest adv len iu :
  NEARBY_FP_ENABLE_SASS = true -> account_key_list c = l -> list_ok l -> 0 < num_keys l ->
  under_way l fs rest adv len -> (7 <= length rest)%nat ->
  (len + length rest)%nat = NON_DISCOVERABLE_ADV_SIZE_BYTES ->
  safe request_ok (eq c) (add_sass_field adv len iu) (fun r => fst r = kNearbyStatusOK ->
    exists q tl, under_way l (fs ++ [(RANDOM_RESOLVABLE_FIELD_TYPE, q)]) tl (fst (snd r)) (snd (snd r))
      /\ (length q <= 6)%nat /\ (snd (snd r) = len + (1 + length q))%nat
      /\ (length rest = length tl + (1 + length q))%nat).
Proof.
  intros Hsass <- Hok Hn (ft & filt & Hft & [Hfl Hfb] & -> & -> & Hfs & [salt Hsalt] & Hrb) Hr Hs.
  unfold add_sass_field.
  step ltac:(apply safe_gets with (R := eq (account_key_list c)); by intros ? <-). intros l <-.
  eapply safe_bind with (R := fun _ => True).
  { destruct iu; [by apply safe_ret|].
    destruct (GetAccountKey_done (account_key_list c) 0 Hok) as (x & E & _); [lia|].
    step_lift ltac:(exact E). by apply safe_ret. }
  intros key _. step ltac:(by apply GetConnectionBitmap_ok). intros bm [Hbm Hbb].
  step ltac:(eapply safe_effects; [apply GetSassConnectionState_total|exact query_ok]). intros state _.
  step_gets. rename a into custom.
  destruct (split_rest rest (3 + length bm)) as (h & tl & -> & Htl); [lia|].
  set (sd := service_data 0 ((ft, filt) :: fs)).
  assert (length sd = 6 + key_filter_size (account_key_list c) + length (fields_bytes fs))%nat as Hsd
    by (unfold sd; by rewrite service_data_length, Hfl).
  rewrite <- Hsd in Hs |- *. unfold RRF_HEADER_SIZE. cbn [length] in *.
  destruct (GenerateSass_spec sd h tl (NON_DISCOVERABLE_ADV_SIZE_BYTES - length sd - 1)
    state custom bm (3 + length bm) eq_refl) as (p & [Hp Hpb] & Eg); [lia|lia|done|].
  step_lift ltac:(exact Eg). apply Forall_cons_1 in Hrb as [Hh Htb].
  apply Forall_cons_1 in Hfs as Hfs'. destruct Hfs' as [[[Hft1 Hfl1] _] Hfs'].
  cbn [snd] in Hfl1.
  destruct (EncryptRRF_total (S:=client) 0 ft filt fs p (drop (3 + length bm) tl) h key salt
    (3 + length bm) (length sd)) as (so & Ef & Heff); [by apply field_ok_all|done|done|lia|done| |done|].
  { apply bytes_ok_app. split; [apply service_data_ok; [unfold is_byte; lia|done|]|].
    - assert (length sd <= 32)%nat by (pose proof Hs; unfold NON_DISCOVERABLE_ADV_SIZE_BYTES in *; case_head; lia).
      rewrite fields_bytes_cons, length_app, field_bytes_length. cbn [snd]. lia.
    - apply Forall_cons; [done|]. apply bytes_ok_app. auto with fp. }
  step_lift ltac:(exact Ef). step ltac:(eapply safe_effects; [exact Heff|by intros []]).
  intros [st adv] Hr'. cbn [fst snd] in Hr'. destruct (status_ok st) eqn:Est; cbn [negb].
  2:{ apply safe_ret. cbn. intros ->. done. }
  destruct Hr' as (q & Hq & Hqb & ->); [by apply status_ok_iff|].
  assert (length (fields_bytes (fs ++ [(RANDOM_RESOLVABLE_FIELD_TYPE, q)])) = length (fields_bytes fs) + (1 + length q))%nat as Hg
    by (rewrite fields_bytes_app, length_app, fields_bytes_cons, app_nil_r, field_bytes_length; done).
  assert (length sd <= 32)%nat
    by (pose proof Hs; unfold NON_DISCOVERABLE_ADV_SIZE_BYTES in *; case_head; lia).
  assert (length sd + (1 + (3 + length bm))
    = 6 + length filt + length (fields_bytes (fs ++ [(RANDOM_RESOLVABLE_FIELD_TYPE, q)])))%nat as El by lia.
  assert (length (fields_bytes (fs ++ [(RANDOM_RESOLVABLE_FIELD_TYPE, q)])) + length filt < 250)%nat
    as Hb by lia.
  rewrite El. step_lift ltac:(apply with_filter_snoc; exact Hb).
  apply safe_ret. cbn [fst snd]. intros _. exists q, (drop (3 + length bm) tl).
  split; [|rewrite length_drop; lia].
  exists ft, filt. split; [done|]. split; [done|]. split; [done|]. split; [lia|].
  split; [|split; [|auto with fp]].
  - rewrite app_comm_cons. apply Forall_app. split; [done|].
    apply Forall_cons; [|constructor]. split; [|done].
    unfold RANDOM_RESOLVABLE_FIELD_TYPE. split; cbn; lia.
  - rewrite field_of_app, Hsalt. by eexists.
Qed.

Lemma IncludeSass_enabled I :
  safe request_ok I IncludeSass (fun b => b = true -> NEARBY_FP_ENABLE_SASS = true).
Proof. unfold IncludeSass. on_if. eapply safe_mono; [apply mode_has_ok|done]. Qed.

Lemma nondiscoverable_fits l bi :
  list_ok l -> 0 < num_keys l ->
  (nondiscoverable_size l bi + (if NEARBY_FP_ENABLE_SASS then 10 else 3)
   <= NON_DISCOVERABLE_ADV_SIZE_BYTES)%nat /\ (4 <= key_filter_size l <= 9)%nat.
Proof.
  intros Hok Hn. pose proof (unique_count_pos l Hok Hn) as Hu.
  pose proof (filter_size_range (Z.of_nat (unique_count l))) as Hf.
  unfold nondiscoverable_size, key_filter_size, NON_DISCOVERABLE_ADV_SIZE_BYTES.
  destruct NEARBY_FP_ENABLE_SASS, bi; lia.
Qed.

Lemma battery_levels_length b : length (battery_levels b) = 3%nat.
Proof. done. Qed.

(** What [CreateNondiscoverableAdvertisement] leaves is the start of an
    advertisement under construction. *)
Lemma under_way_created l sp sb bi salt output :
  list_ok l -> 0 < num_keys l -> buf NON_DISCOVERABLE_ADV_SIZE_BYTES output -> buf 2 salt ->
  exists fs, under_way l fs (drop (nondiscoverable_size l bi) output)
    (service_data 0 (nondiscoverable_fields (replicate (key_filter_size l) 0) salt sp sb bi)
     ++ drop (nondiscoverable_size l bi) output) (nondiscoverable_size l bi).
Proof.
  intros Hok Hn [Hl Hb] [Hs Hsb]. destruct (nondiscoverable_fits l bi Hok Hn) as [_ Hk].
  exists (drop 1 (nondiscoverable_fields [] salt sp sb bi)), (if sp then 0 else 2),
    (replicate (key_filter_size l) 0).
  assert (bytes_ok (replicate (key_filter_size l) 0)) as Hz
    by (apply bytes_ok_replicate; unfold is_byte; lia).
  split; [by destruct sp; [left|right]|]. split; [by split; [apply length_replicate|]|].
  split; [done|]. split; [|split; [|split; [by eexists|auto with fp]]].
  - unfold nondiscoverable_size, nondiscoverable_fields. cbn [drop app].
    rewrite fields_bytes_cons, length_app, field_bytes_length. cbn [snd]. rewrite Hs.
    destruct bi; [rewrite fields_bytes_cons, app_nil_r, field_bytes_length|]; cbn; lia.
  - unfold nondiscoverable_fields. cbn [drop app].
    apply Forall_cons.
    { split; [|done]. split; cbn; [destruct sp; lia|rewrite length_replicate; lia]. }
    apply Forall_cons; [split; [split; cbn; lia|done]|].
    destruct bi; [|done]. apply Forall_cons; [|done].
    split; [split; cbn; [destruct sb; lia|lia]|apply battery_levels_ok].
Qed.

(** The variables are only read. *)
Lemma SetNonDiscoverableAdvertisement_frozen c :
  client_ok c -> safe request_ok (eq c) SetNonDiscoverableAdvertisement (fun _ => True).
Proof.
  intros Hc. pose proof (ok_list c Hc) as Hok. pose proof (ok_inputs c Hc) as Hin.
  unfold SetNonDiscoverableAdvertisement, ShowPairingIndicator, ShowBatteryIndicator, IncludeBatteryInfo.
  step ltac:(apply safe_uninit). intros output [Hl Hb].
  step ltac:(apply SelectInUseKey_safe; by intros ? <-). intros iu _.
  step ltac:(apply mode_has_ok). intros sp _. step ltac:(apply mode_has_ok). intros sb _.
  step ltac:(apply mode_has_ok). intros ib _.
  eapply safe_bind with (R := fun _ => True); [on_if; apply PrepareBatteryInfo_ok|]. intros bi _.
  step ltac:(apply safe_gets with (R := eq (account_key_list c)); by intros ? <-). intros l <-.
  unfold nearby_fp_CreateNondiscoverableAdvertisementWithBattery.
  destruct (Z.lt_ge_cases 0 (num_keys (account_key_list c))) as [Hn|Hn].
  2:{ assert (num_keys (account_key_list c) = 0) as H0 by (pose proof (ok_count _ Hok); lia).
      step ltac:(safe_se ltac:(apply CreateNondiscoverable_empty; [done|done|
        rewrite Hl; unfold NON_DISCOVERABLE_ADV_SIZE_BYTES; case_head; lia])).
      intros [adv len] [Hadv Hlen]. cbn [fst snd] in Hadv, Hlen. subst adv len.
      step ltac:(apply IncludeSass_enabled). intros sass Hsass. unfold nearby_fp_GetAccountKeyCount.
      rewrite H0, andb_false_r.
      eapply safe_bind with (R := eq _); [apply safe_ret; reflexivity|]. intros ? <-. cbn beta iota.
      unfold nearby_fp_SetBloomFilter.
      eapply safe_bind with (R := eq (_, 0)).
      { step_lift ltac:(reflexivity). by apply safe_ret. }
      intros [? ?] [= <- <-].
      apply append_payload_ok; [unfold NON_DISCOVERABLE_ADV_SIZE_BYTES; case_head; lia| | |].
      + cbn [app length]. rewrite length_drop, Hl. unfold NON_DISCOVERABLE_ADV_SIZE_BYTES. case_head; lia.
      + cbn [app take]. by apply bytes_ok_true.
      + cbn [app take]. apply (ad_single [_; _; _; _; _]). cbn. lia. }
  destruct (nondiscoverable_fits (account_key_list c) bi Hok Hn) as [Hfit Hk].
  step ltac:(safe_se ltac:(apply CreateNondiscoverable_effects; [done|done|
    rewrite Hl; split; [destruct NEARBY_FP_ENABLE_SASS; lia|done]])).
  intros r (salt & Hs1 & Hs2 & ->). cbn beta iota.
  destruct (under_way_created (account_key_list c) sp sb bi salt output Hok Hn (conj Hl Hb) (conj Hs1 Hs2))
    as [fs Hu]. set (adv := _ ++ _) in *. clearbody adv.
  assert (length (drop (nondiscoverable_size (account_key_list c) bi) output)
    = NON_DISCOVERABLE_ADV_SIZE_BYTES - nondiscoverable_size (account_key_list c) bi)%nat as Hrl
    by (rewrite length_drop; lia).
  step ltac:(apply IncludeSass_enabled). intros sass Hsass.
  eapply safe_bind with (R := fun r => fst r = kNearbyStatusOK ->
    exists fs' rest', under_way (account_key_list c) fs' rest' (fst (snd r)) (snd (snd r))
      /\ (3 <= length rest')%nat /\ (snd (snd r) + length rest')%nat = NON_DISCOVERABLE_ADV_SIZE_BYTES).
  - destruct sass; cbn [andb].
    + rewrite Hsass in Hfit by done. unfold nearby_fp_GetAccountKeyCount. rewrite (proj2 (Z.ltb_lt _ _)) by done.
      eapply safe_mono; [by eapply add_sass_field_ok; eauto; lia|].
      intros r Hr Hst. destruct (Hr Hst) as (qq & tl & Hu' & Hq & Hlen & Htl).
      eexists _, tl. split; [exact Hu'|lia].
    + apply safe_ret. intros _. eexists fs, _. cbn [fst snd]. split; [exact Hu|].
      destruct NEARBY_FP_ENABLE_SASS; lia.
  - intros [st [adv' len']] Hr. cbn [fst snd] in Hr.
    destruct (status_ok st) eqn:E; cbn [negb]; [|by apply safe_ret].
    destruct Hr as (fs' & rest' & Hu' & Hr3 & Hrs); [by apply status_ok_iff|].
    by eapply send_payload_ok.
Qed.

Lemma SetNonDiscoverableAdvertisement_ok n q a o :
  safe request_ok (inv n q a o) SetNonDiscoverableAdvertisement (fun _ => True).
Proof. apply safe_frozen. intros c [Hc _]. by apply SetNonDiscoverableAdvertisement_frozen. Qed.

End NonDiscoverable.

(** * The values of an address rotation *)
Section Rotation.
Context {C : Config} {P : Platform}.

Lemma rotation_step k i d c lo hi (R : Z -> Prop) :
  Z.shiftl 50 (Z.of_nat i) = c -> 0 <= lo - c * 128 -> hi + c * 127 < 2 ^ 32 -> 0 < c -> lo <= d <= hi ->
  (forall d', lo - c * 128 <= d' <= hi + c * 127 ->
     effects is_se (GetRotationDelayMs_loop k (S i) d') R) ->
  effects is_se (GetRotationDelayMs_loop (S k) i d) R.
Proof.
  intros <- H1 H2 H3 Hd Hk. cbn [GetRotationDelayMs_loop].
  eapply effects_bind; [apply effects_hal_map with (R := fun _ => True); [exact I|done]|].
  intros r _. pose proof (s8_range r) as Hr. rewrite u32_id by nia. apply Hk. nia.
Qed.

Lemma GetRotationDelayMs_range :
  effects is_se GetRotationDelayMs (fun d => 825600 <= d <= 1220850).
Proof.
  unfold GetRotationDelayMs, ADDRESS_ROTATION_PERIOD_MS.
  apply (rotation_step 4 0 _ 50 1024000 1024000); [done|lia|lia|lia|lia|].
  intros d1 H1. apply (rotation_step 3 1 d1 100 1017600 1030350); [done|lia|lia|lia|lia|].
  intros d2 H2. apply (rotation_step 2 2 d2 200 1004800 1043050); [done|lia|lia|lia|lia|].
  intros d3 H3. apply (rotation_step 1 3 d3 400 979200 1068450); [done|lia|lia|lia|lia|].
  intros d4 H4. apply (rotation_step 0 4 d4 800 928000 1119250); [done|lia|lia|lia|lia|].
  intros d5 H5. apply effects_ret. lia.
Qed.

Lemma random_address_range k x j :
  0 <= x < 2 ^ (8 * Z.of_nat j) -> (j + k <= 6)%nat ->
  effects is_se (random_address k x) (fun y => 0 <= y < 2 ^ (8 * Z.of_nat (j + k))).
Proof.
  revert x j. induction k as [|k IH]; intros x j Hx Hj; cbn [random_address].
  { apply effects_ret. by rewrite Nat.add_0_r. }
  eapply effects_bind; [apply effects_hal_map with (R := is_byte); [exact I|intros; apply u8_byte]|].
  unfold is_byte. intros r Hr.
  assert (2 ^ (8 * Z.of_nat (S j)) = 256 * 2 ^ (8 * Z.of_nat j)) as E
    by (rewrite Nat2Z.inj_succ, Z.mul_succ_r, Z.pow_add_r by lia; lia).
  assert (2 ^ (8 * Z.of_nat (S j)) <= 2 ^ 48) as Hle by (apply Z.pow_le_mono_r; lia).
  rewrite u64_id by (rewrite Z.shiftl_mul_pow2 by lia; lia).
  rewrite lxor_shiftl_low by lia. replace (j + S k)%nat with (S j + k)%nat by lia.
  apply IH; [lia|lia].
Qed.

Lemma rotated_address_bits x :
  0 <= x < 2 ^ 48 -> rotated_address (Z.land (Z.lor x (Z.shiftl 1 46)) (Z.lnot (Z.shiftl 1 47))).
Proof.
  intros Hx. set (a := Z.land _ _).
  assert (forall m, 0 <= m -> Z.testbit a m
    = (Z.testbit x m || (m =? 46)) && negb (m =? 47)) as Hbit.
  { intros m Hm. unfold a. rewrite Z.land_spec, Z.lor_spec, Z.lnot_spec by done.
    rewrite !Z.shiftl_1_l, !Z.pow2_bits_eqb by lia. by rewrite (Z.eqb_sym 46), (Z.eqb_sym 47). }
  assert (0 <= a) as Ha by (apply Z.land_nonneg; left; apply Z.lor_nonneg; split; [lia|by apply Z.shiftl_nonneg]).
  split; [split; [done|]|split].
  - apply bits_below; [lia|done|]. intros m Hm. rewrite Hbit by lia.
    rewrite (proj2 (Z.eqb_neq m 46)), orb_false_r by lia.
    rewrite <- (Z.mod_small x (2 ^ 48)), Z.mod_pow2_bits_high by lia. done.
  - rewrite Hbit by lia. cbn. by rewrite orb_true_r.
  - rewrite Hbit by lia. apply andb_false_r.
Qed.

End Rotation.

(** * Modes and address rotation *)
Section Modes.
Context {C : Config} {P : Platform} {B : BitmapSpec C P}.
Variables (n : Z) (q : PairingState -> Prop) (a : option (list Z)) (o : key_origins).
Notation ok := (safe request_ok (inv n q a o)).

Lemma RotateBleAddress_ok : ok ClientAdvertising.RotateBleAddress (fun _ => True).
Proof.
  unfold ClientAdvertising.RotateBleAddress. step_hal.
  step ltac:(apply set_rotation_time_ok). intros _ _. step_hal. on_if.
  - step_hal. by apply safe_ret.
  - step ltac:(safe_se ltac:(apply (random_address_range 6 0 0); [cbn; lia|lia])). intros addr Ha.
    step ltac:(apply safe_hal with (R := fun _ => True); [by apply rotated_address_bits|done]). intros _ _.
    apply SendBleAddressUpdatedToAll_ok.
Qed.

Lemma CancelAddressRotationTimer_ok : ok CancelAddressRotationTimer (fun _ => True).
Proof.
  unfold CancelAddressRotationTimer. step_gets. step ltac:(apply set_rotation_task_ok). intros _ _.
  on_if. step_hal. by apply safe_ret.
Qed.

Lemma ScheduleAddressRotation_ok : ok ScheduleAddressRotation (fun _ => True).
Proof.
  unfold ScheduleAddressRotation. step ltac:(apply CancelAddressRotationTimer_ok). intros _ _.
  step ltac:(safe_se ltac:(apply GetRotationDelayMs_range)). intros d Hd. cbn beta in Hd.
  step ltac:(apply safe_hal with (R := fun _ => True); [unfold request_ok; lia|done]). intros task _.
  apply set_rotation_task_ok.
Qed.

Lemma EnterDiscoverableMode_ok : ok EnterDiscoverableMode (fun _ => True).
Proof.
  unfold EnterDiscoverableMode. step ltac:(apply safe_uninit). intros adv [Hl Hb].
  step_gets. on_if.
  do 10 (destruct adv as [|? adv]; [done|]). destruct adv; [|done].
  eapply safe_bind with (R := fun r => exists m x, length m = 3%nat /\ bytes_ok m /\ length x = 3%nat
    /\ r = ([6; GAP_DATA_TYPE_SERVICE_DATA_UUID; 0x2C; 0xFE] ++ m ++ x, 7%nat)).
  { unfold nearby_fp_CreateDiscoverableAdvertisement. do 4 step_lift ltac:(reflexivity).
    step_hal. match goal with |- context [nearby_utils_CopyBigEndian ?b] =>
      change b with ([6; GAP_DATA_TYPE_SERVICE_DATA_UUID; 0x2C; 0xFE] ++ [z3; z4; z5] ++ [z6; z7; z8]) end.
    step_lift ltac:(rewrite CopyBigEndian_spec by (by apply Nat.leb_le);
      apply (write_bytes_app [6; GAP_DATA_TYPE_SERVICE_DATA_UUID; 0x2C; 0xFE]); apply be_bytes_length).
    apply safe_ret. eexists _, [_; _; _]. split; [apply be_bytes_length|]. split; [apply be_bytes_ok|done]. }
  intros [adv len] (m & x & Hm & Hmb & Hx & [= -> ->]). step_hal.
  destruct (AppendTxPower_total ([6; GAP_DATA_TYPE_SERVICE_DATA_UUID; 0x2C; 0xFE] ++ m ++ x) 7
    (DISCOVERABLE_ADV_SIZE_BYTES - 7) a1) as (adv' & E & Hl' & Et);
    [by apply Nat.leb_le|rewrite !length_app; cbn [length]; lia|].
  rewrite !length_app in Hl'. cbn [length] in Hl'.
  step_lift ltac:(exact E). step_lift ltac:(apply read_bytes_done; lia). rewrite drop_0, Et.
  rewrite app_assoc, take_app_length' by (rewrite length_app; cbn [length]; lia).
  destruct (payload_ok ([6; GAP_DATA_TYPE_SERVICE_DATA_UUID; 0x2C; 0xFE] ++ m) a1) as [Hp1 Hp2].
  { apply bytes_ok_app. split; [by apply bytes_ok_true|done]. }
  { destruct m as [|m0 [|m1 [|m2 [|]]]]; try done. apply (ad_single [_; _; _; _; _; _]). cbn. lia. }
  apply safe_hal; [|done]. split; [done|]. split; [done|].
  cbn. rewrite length_app. cbn [length]. rewrite Hm. done.
Qed.

Lemma EnterNonDiscoverableMode_ok : ok EnterNonDiscoverableMode (fun _ => True).
Proof.
  unfold EnterNonDiscoverableMode. step_gets. on_if. step_hal.
  apply SetNonDiscoverableAdvertisement_ok.
Qed.

Lemma UpdateAdvertisements_ok : ok UpdateAdvertisements (fun _ => True).
Proof.
  unfold UpdateAdvertisements. step_gets. on_if.
  { unfold EnterDisabledMode. step_hal. apply safe_hal; [apply disabled_ok|done]. }
  on_if; [apply EnterDiscoverableMode_ok|]. on_if. apply EnterNonDiscoverableMode_ok.
Qed.

Lemma MaybeRotateBleAddress_ok : ok MaybeRotateBleAddress (fun _ => True).
Proof.
  unfold MaybeRotateBleAddress. step ltac:(apply ScheduleAddressRotation_ok). intros _ _.
  step ltac:(apply IsInPairingMode_ok). intros b _. on_if.
  step ltac:(apply RotateBleAddress_ok). intros _ _.
  step ltac:(apply UpdateAdvertisements_ok). intros _ _. by apply safe_ret.
Qed.

Lemma SetAdvertisement_ok mode : ok (nearby_fp_client_SetAdvertisement mode) (fun _ => True).
Proof.
  unfold nearby_fp_client_SetAdvertisement. step_gets. on_if. unfold ShouldRotateBleAddress.
  eapply safe_bind with (R := fun _ => True).
  { step ltac:(apply IsInPairingMode_ok). intros b _. on_if. step_gets. by apply safe_ret. }
  intros rotate _. eapply safe_bind with (R := fun _ => True).
  { on_if. step ltac:(apply CancelAddressRotationTimer_ok). intros _ _. apply RotateBleAddress_ok. }
  intros _ _. step ltac:(apply set_mode_ok). intros _ _.
  step ltac:(apply mode_has_ok). intros p _. step_gets. eapply safe_bind with (R := fun _ => True).
  { on_if. apply ScheduleAddressRotation_ok. }
  intros _ _. apply UpdateAdvertisements_ok.
Qed.

Lemma send_battery_to_connected_ok k i :
  (k + i <= 2)%nat -> ok (send_battery_to_connected k i) (fun _ => True).
Proof.
  revert i. induction k as [|k IH]; intros i Hi; cbn [send_battery_to_connected]; [by apply safe_ret|].
  step ltac:(apply get_input_ok; lia). intros r _. eapply safe_bind with (R := fun _ => True).
  { on_if. step ltac:(apply SendBatteryInfoMessage_ok). intros _ _.
    step ltac:(apply SendBatteryTimeMessage_ok). intros _ _. by apply safe_ret. }
  intros _ _. apply IH. lia.
Qed.

Lemma OnBatteryChanged_ok : ok OnBatteryChanged (fun _ => True).
Proof.
  unfold OnBatteryChanged. step_gets. on_if. unfold IncludeBatteryInfo.
  do 2 (step ltac:(apply mode_has_ok); intros ? _). eapply safe_bind with (R := fun _ => True).
  { on_if. step_hal. on_status. step ltac:(apply SetNonDiscoverableAdvertisement_ok).
    intros st _. by apply safe_ret. }
  intros b _. on_if. by apply send_battery_to_connected_ok.
Qed.

End Modes.
