(* ===== verification/ClientPairingSafety.v ===== *)
(** The pairing handlers of ClientPairing.v are safe. *)

From Stdlib Require Import ZArith Lia.
From stdpp Require Import base list numbers.
From S2P Require Import Prelude Utils Platform SecureElement TestPlatform Crypto AccountKeys.
From S2P Require Import MessageStream Advertisement CryptoSafety AdvertisementSafety.
From S2P Require Import ClientState ClientAdvertising ClientPairing ClientInvariant.
From S2P Require Import ClientAdvertisingSafety.
Import Utils.

Section Pairing.
Context {C : Config} {P : Platform} {B : BitmapSpec C P}.
Variables (n : Z) (q : PairingState -> Prop) (a : option (list Z)) (o : key_origins).
Notation ok := (safe request_ok (inv n q a o)).

Lemma key_ok_buf k : key_ok k -> buf 16 (account_key k).
Proof. by intros (? & ? & _). Qed.

Lemma CreateRawKeybasedPairingResponse_ok raw e :
  buf 16 raw -> ok (nearby_fp_CreateRawKeybasedPairingResponse raw e) (fun r => buf 16 (snd r)).
Proof.
  intros Hr. unfold nearby_fp_CreateRawKeybasedPairingResponse.
  eapply safe_bind with (R := fun r => buf 16 (fst (fst r)) /\ (snd (fst r) <= 3)%nat).
  { on_if.
    - step_hal. step_store r1. step_store r2. step_store r3. apply safe_ret. split; [done|cbn; lia].
    - step_store r1. apply safe_ret. split; [done|cbn; lia]. }
  intros [[out i] sec] [Ho Hi]. cbn [fst snd] in *. unfold BT_ADDRESS_LENGTH, AES_MESSAGE_SIZE_BYTES in *.
  step_hal. step ltac:(apply copy_be_ok; [exact Ho|lia]). intros o1 H1.
  eapply safe_bind with (R := fun r => buf 16 (fst r) /\ (snd r <= 15)%nat).
  { on_if.
    - step ltac:(apply copy_be_ok; [exact H1|lia]). intros o2 H2. apply safe_ret. split; [done|cbn; lia].
    - apply safe_ret. split; [done|cbn; lia]. }
  intros [o2 j] [H2 Hj]. cbn [fst snd] in *.
  step ltac:(safe_se ltac:(apply rand_fill_total; [exact H2|lia])). intros o3 H3. by apply safe_ret.
Qed.

Lemma SendKeyBasedPairingResponse_ok p e : ok (SendKeyBasedPairingResponse p e) (fun _ => True).
Proof.
  unfold SendKeyBasedPairingResponse. step ltac:(apply safe_uninit). intros raw Hr.
  step ltac:(by apply CreateRawKeybasedPairingResponse_ok). intros [st r] _. step_gets.
  step ltac:(safe_se ltac:(apply encrypt_total)). intros [st' enc] He. on_status. by apply safe_hal.
Qed.

Lemma NotifyPersonalizedName_safe (I : client -> Prop) p :
  (forall c, I c -> key_ok (account_key_info c)) ->
  safe request_ok I (NotifyPersonalizedName p) (fun _ => True).
Proof.
  intros HI. unfold NotifyPersonalizedName, ADDITIONAL_DATA_HEADER_SIZE, PERSONALIZED_NAME_MAX_SIZE.
  step ltac:(apply safe_uninit). intros data Hd.
  step ltac:(apply safe_hal with (R := fun r => (length (snd r) <= 64)%nat /\ bytes_ok (snd r));
    [done|intros; split; [apply fit_upto_length|apply fit_upto_ok]]).
  intros [st name] [Hl Hb]. cbn [snd] in *. on_status.
  step ltac:(apply write_ok; [exact Hd|done|lia]). intros d1 [H1 H1b].
  step_lift ltac:(apply read_bytes_done; lia).
  step ltac:(apply safe_gets with (R := key_ok); exact HI). intros info Hi.
  step ltac:(safe_se ltac:(apply EncodeAdditionalData_total; [|shelve|by apply key_ok_buf])).
  { split; [reflexivity|auto with fp]. }
  Unshelve. 2:{ rewrite drop_0, length_take. lia. }
  intros [st' pk] [Hpl Hpb]. cbn [snd] in *. rewrite drop_0, length_take in Hpl. on_status.
  step ltac:(apply safe_hal with (R := fun _ => True); [|done]).
  { split; [done|]. unfold ADDITIONAL_DATA_HEADER_SIZE, PERSONALIZED_NAME_MAX_SIZE. lia. }
  intros _ _. by apply safe_ret.
Qed.

Lemma NotifyPersonalizedName_ok p : ok (NotifyPersonalizedName p) (fun _ => True).
Proof. apply NotifyPersonalizedName_safe. intros c [Hc _]. apply (ok_key_info _ Hc). Qed.

Lemma c_string_ok l : bytes_ok l -> Forall (fun c => 0 < c < 256) (c_string l).
Proof.
  induction 1 as [|c l Hc _ IH]; cbn [c_string]; [constructor|].
  destruct (Z.eqb_spec c 0); constructor; [unfold is_byte in Hc; lia|done].
Qed.

(** The string ends at the first NUL. *)
Lemma c_string_length l i : l !! i = Some 0 -> (length (c_string l) <= i)%nat.
Proof.
  revert i. induction l as [|c l IH]; intros i Hi; cbn [c_string]; [done|].
  destruct (Z.eqb_spec c 0) as [|Hc]; [cbn; lia|]. destruct i as [|i]; [by injection Hi|].
  cbn [length]. apply le_n_S, IH, Hi.
Qed.

Lemma SaveAdditionalData_ok data :
  bytes_ok data -> (length data <= 64)%nat -> ok (SaveAdditionalData data) (fun _ => True).
Proof.
  intros Hb Hl. unfold SaveAdditionalData, PERSONALIZED_NAME_MAX_SIZE. step_gets. on_if.
  step ltac:(apply safe_uninit). intros name Hn.
  step ltac:(apply write_ok; [exact Hn|done|lia]). intros n1 H1.
  destruct H1 as [H1 H1b]. step_lift ltac:(apply store_done; lia).
  step ltac:(apply safe_hal with (R := fun _ => True); [|done]).
  { split; [apply c_string_ok; auto with fp|]. etransitivity; [apply (c_string_length _ (length data))|done].
    by rewrite list_lookup_insert_eq by lia. }
  intros _ _. by apply safe_hal.
Qed.

(** An additional data packet that can be decoded and stored. *)
Definition data_packet_ok (request : list Z) : Prop :=
  bytes_ok request /\ (16 < length request <= 16 + PERSONALIZED_NAME_MAX_SIZE)%nat.

Lemma OnAdditionalDataWrite_ok p request :
  data_packet_ok request ->
  (q kPairingStateWaitingForAdditionalData -> q kPairingStateIdle) ->
  ok (OnAdditionalDataWrite p request) (fun _ => True).
Proof.
  unfold data_packet_ok, PERSONALIZED_NAME_MAX_SIZE. intros [Hb Hl] Hq.
  unfold OnAdditionalDataWrite. step ltac:(apply get_pairing_state_ok). intros x Hx. on_if.
  apply negb_false_iff, bool_decide_eq_true in Heqb. subst x. step ltac:(apply get_key_info_ok). intros info Hi.
  step ltac:(safe_se ltac:(apply DecodeAdditionalData_total; [by split|lia|by apply key_ok_buf])).
  intros [st r] [Hr Hrb]. cbn [snd] in *. step ltac:(apply DiscardAccountKey_ok). intros _ _.
  eapply safe_bind with (R := fun _ => True).
  { on_status. apply SaveAdditionalData_ok; [auto with fp|].
    unfold ADDITIONAL_DATA_HEADER_SIZE. rewrite length_drop. lia. }
  intros st' _. step ltac:(by apply set_pairing_state_ok, Hq). intros _ _. by apply safe_ret.
Qed.

Lemma load_ok k b i : buf k b -> (i < k)%nat -> ok (lift (load b i)) is_byte.
Proof.
  intros [Hl Hb] Hi. destruct (load_lt b i) as (v & Hv & Hlk); [lia|].
  eapply safe_lift; [exact Hv|]. by eapply Forall_lookup_1.
Qed.

Lemma get48_ok b off : buf 16 b -> (off + 6 <= 16)%nat ->
  ok (lift (nearby_utils_GetBigEndian48 b off)) (fun a => 0 <= a < 2 ^ 48).
Proof.
  intros [Hl Hb] Ho. eapply safe_lift; [apply GetBigEndian48_spec; [done|lia]|].
  pose proof (be_value_range (take 6 (drop off b))) as Hr.
  rewrite length_take, length_drop in Hr. replace (6 `min` (length b - off))%nat with 6%nat in Hr by lia.
  specialize (Hr (bytes_ok_take _ _ (bytes_ok_drop _ _ Hb))). lia.
Qed.

(** ** Key-based pairing *)

Ltac step_load j := eapply safe_bind; [eapply (load_ok _ _ j); [eassumption|lia]|intros ? ?].

Lemma HandleKeyBasedPairingRequest_ok p request :
  buf 16 request -> is_u64 p ->
  q kPairingStateWaitingForPasskey -> q kPairingStateWaitingForPairingRequest ->
  ok (HandleKeyBasedPairingRequest p request) (fun _ => True).
Proof.
  intros Hr Hp Hq1 Hq2. unfold HandleKeyBasedPairingRequest. step_load 1%nat.
  eapply safe_bind with (R := fun _ => True).
  { on_if. step ltac:(apply NotifyPersonalizedName_ok). intros _ _. by apply safe_ret. }
  intros _ _. unfold KBPR_SEEKER_ADDRESS_OFFSET. on_if.
  - step ltac:(apply get48_ok; [done|lia]). intros addr Ha.
    step ltac:(apply RetroactivePairingPeerPending_ok). intros b _. on_if.
    { step ltac:(apply RemoveRetroactivePairingPeer_ok). intros _ _. by apply safe_ret. }
    step ltac:(apply SetRetroactivePairingPeerLe_ok). intros b' _. on_if.
    step ltac:(apply RemoveRetroactivePairingPeer_ok). intros _ _. by apply safe_ret.
  - step_hal. on_if.
    + step ltac:(apply get48_ok; [done|lia]). intros addr Ha. cbn beta in Ha.
      step ltac:(apply set_peer_public_ok; unfold is_u64; lia). intros _ _.
      step ltac:(apply safe_hal with (R := fun _ => True); [exact Ha|done]). intros _ _.
      step ltac:(by apply set_pairing_state_ok). intros _ _. by apply safe_ret.
    + step ltac:(by apply set_pairing_state_ok). intros _ _. step ltac:(apply now_ok). intros now Hn.
      step ltac:(by apply set_timeout_ok). intros _ _. by apply safe_ret.
Qed.

Lemma HandleActionRequest_ok p request :
  buf 16 request -> q kPairingStateWaitingForAdditionalData ->
  ok (HandleActionRequest p request) (fun _ => True).
Proof.
  intros Hr Hq. unfold HandleActionRequest. step_load 1%nat. on_if.
  eapply safe_bind with (R := fun _ => True).
  { on_if. step ltac:(by apply set_pairing_state_ok). intros _ _. step_load 10%nat. by apply set_data_id_ok. }
  intros _ _. by apply safe_ret.
Qed.

Definition search_ok (k : key_search) : Prop :=
  match k with Matched d => buf 16 d | _ => True end.

Lemma match_public_key_ok p request ba pa :
  length request = 80%nat -> is_u64 p -> ok (match_public_key p request ba pa) search_ok.
Proof.
  intros Hl Hp. unfold match_public_key. step ltac:(apply safe_uninit). intros key Hk.
  step_lift ltac:(apply read_bytes_done; rewrite Hl; by apply Nat.leb_le).
  step ltac:(safe_se ltac:(by apply CreateSharedSecret_total)). intros [st k] [Hk1 Hk2]. on_status.
  step ltac:(safe_se ltac:(apply decrypt_total)). intros [st' d] Hd. on_status.
  on_if. step ltac:(apply safe_modify).
  - intros c [[] (? & ? & ?)]. cbn [snd] in *. split; [|done].
    split; cbn; auto. split; [done|]. split; [done|]. cbn.
    destruct NEARBY_FP_ENABLE_SASS; [done|]. by destruct ok_key_info as (_ & _ & ?).
  - intros _ _. by apply safe_ret.
Qed.

Lemma match_account_key_ok k i p request ba pa : is_u64 p ->
  forall s, inv n q a o (st s) -> 0 <= i -> i + Z.of_nat k <= num_keys (account_key_list (st s)) ->
  wp (match_account_key k i p request ba pa)
    (fun r s' => inv n q a o (st s') /\ ext request_ok s s' /\ search_ok r) s.
Proof.
  intros Hp. revert i. induction k as [|k IH]; intros i s Hs Hi Hk.
  { apply wp_ret. split; [done|]. split; [apply ext_refl|done]. }
  cbn [match_account_key]. apply wp_bind, wp_gets. pose proof (ok_list _ (proj1 Hs)) as Hok.
  destruct (GetAccountKey_done _ i Hok) as (x & E & Hxi & Hx); [lia|].
  pose proof (listed_key n q a o _ _ _ Hs Hxi) as Hxo.
  apply wp_bind. eapply wp_lift; [exact E|].
  apply wp_bind. eapply wp_effects; [apply decrypt_total|]. intros [st d] s1 [E1 Hx1] Hd. cbn [snd] in *.
  assert (ext request_ok s s1) as Hext by (eapply ext_mono; [|exact Hx1]; by intros []).
  destruct (status_ok st) eqn:Est; cbn [negb]; [|apply wp_ret; rewrite E1; done].
  destruct (address_matches ba pa d).
  - apply wp_bind. eapply wp_lift; [exact E|]. cbn beta.
    set (info := if NEARBY_FP_ENABLE_SASS then _ else _).
    assert (key_ok info) as Hinfo.
    { destruct Hx as (? & ? & ?). unfold info. by destruct NEARBY_FP_ENABLE_SASS. }
    rewrite <- E1 in Hs.
    eapply wp_mono; [eapply (safe_bind request_ok (inv n q a o)); [by apply set_key_info_ok|intros _ _;
      eapply safe_bind; [apply add_account_key_ok; [done|by unfold info; destruct NEARBY_FP_ENABLE_SASS]|intros _ _;
      eapply safe_bind; [apply save_account_keys_ok|intros _ _; apply safe_ret with (R := search_ok); exact Hd]]|done]|].
    intros r s2 (H2 & E2 & Hr). split; [done|]. split; [by eapply ext_trans|done].
  - eapply wp_mono; [apply IH; rewrite ?E1; [done|lia|lia]|].
    intros r s2 (H2 & E2 & Hr). split; [done|]. split; [by eapply ext_trans|done].
Qed.

(** The states a key-based pairing request may lead to. *)
Definition request_states : Prop :=
  q kPairingStateWaitingForPasskey /\ q kPairingStateWaitingForPairingRequest
  /\ q kPairingStateWaitingForAdditionalData.

Lemma accept_request_ok p d :
  0 <= n -> is_u64 p -> buf 16 d -> request_states -> ok (accept_request p d) (fun _ => True).
Proof.
  intros Hn Hp Hd (Hq1 & Hq2 & Hq3). unfold accept_request.
  step ltac:(apply safe_modify; intros ? [[] (? & ? & ?)]; split; [split; cbn; auto; split; [done|unfold MAX_PAIRING_FAILURE_COUNT; lia]|done]). intros _ _.
  step ltac:(by apply set_gatt_ok). intros _ _. step ltac:(apply DiscardPendingAccountKey_ok). intros _ _.
  step_load 0%nat. step_load 1%nat. step ltac:(apply SendKeyBasedPairingResponse_ok). intros st _. on_status.
  on_if; [by apply HandleKeyBasedPairingRequest_ok|]. on_if. by apply HandleActionRequest_ok.
Qed.

(** ** Passkey *)

Lemma NotifyProviderPasskey_ok p : ok (NotifyProviderPasskey p) (fun _ => True).
Proof.
  unfold NotifyProviderPasskey. step ltac:(apply safe_uninit). intros raw Hr. step_hal.
  step_store r1. step ltac:(apply copy_be_ok; [eassumption|by apply Nat.leb_le]). intros r2 H2.
  step ltac:(safe_se ltac:(apply rand_fill_total; [exact H2|by apply Nat.leb_le])). intros r3 H3.
  step_gets. step ltac:(safe_se ltac:(apply encrypt_total)). intros [st enc] He. on_status. by apply safe_hal.
Qed.

Lemma OnPasskeyWrite_ok p request :
  (q kPairingStateWaitingForPasskey -> q kPairingStateWaitingForPairingResult) ->
  ok (OnPasskeyWrite p request) (fun _ => True).
Proof.
  intros Hq. unfold OnPasskeyWrite. step ltac:(apply get_pairing_state_ok). intros x Hx. on_if.
  apply negb_false_iff, bool_decide_eq_true in Heqb. subst x. step_gets. on_if.
  step ltac:(apply ShouldTimeout_ok). intros t _. on_if. on_if. step_gets.
  step ltac:(safe_se ltac:(apply decrypt_total)). intros [st raw] Hraw. cbn [status_buf snd] in Hraw. on_status.
  2:{ step ltac:(apply DiscardAccountKey_ok). intros _ _. by apply safe_ret. }
  step_load 0%nat. on_if. step ltac:(by apply set_pairing_state_ok, Hq). intros _ _.
  step ltac:(apply NotifyProviderPasskey_ok). intros _ _. destruct Hraw as [Hl Hb].
  step_lift ltac:(apply GetBigEndian24_spec; [exact Hb|cbn in Hl; rewrite Hl; by apply Nat.leb_le]).
  step ltac:(apply safe_hal with (R := fun _ => True); [|done]).
  { pose proof (be_value_range (take 3 (drop 1 raw))) as Hv. cbn [snd] in Hl.
    rewrite length_take, length_drop in Hv. replace (3 `min` (length raw - 1))%nat with 3%nat in Hv by lia.
    apply Hv. auto with fp. }
  intros _ _. by apply safe_ret.
Qed.

(** ** Account key *)

Lemma finish_pairing_ok :
  q kPairingStateWaitingForAdditionalData -> ok finish_pairing (fun _ => True).
Proof.
  intros Hq s Hs. unfold finish_pairing. apply wp_bind, wp_modify.
  apply wp_bind, wp_modify. cbn [st env log].
  change (set_pairing_state _ (set_pairing_state _ (st s)))
    with (set_pairing_state kPairingStateWaitingForAdditionalData (st s)).
  set (s1 := Sys _ _ _). assert (inv n q a o (st s1)) as H1.
  { unfold s1. cbn. revert Hs. generalize (st s). keep_inv. }
  assert (ext request_ok s s1) as E1 by (by exists []).
  clearbody s1. eapply wp_mono with (Q := fun _ s' => inv n q a o (st s') /\ ext request_ok s1 s' /\ True);
    [clear E1; revert s1 H1|intros ? s2 (? & ? & _); split; [done|]; split; [by eapply ext_trans|done]].
  match goal with |- forall s1, _ -> wp ?m _ _ => change (ok m (fun _ => True)) end.
  step ltac:(apply set_data_id_ok; unfold is_byte, PERSONALIZED_NAME_DATA_ID; lia). intros _ _.
  step ltac:(apply mode_has_ok). intros b _. on_if. step_hal.
  step ltac:(apply SetNonDiscoverableAdvertisement_ok). intros _ _. by apply safe_ret.
Qed.

Lemma RunPostPairingSteps_ok p k :
  key_ok k -> listed o (account_key k) -> q kPairingStateWaitingForAdditionalData -> ok (RunPostPairingSteps p k) (fun _ => True).
Proof.
  intros Hk Ho Hq. unfold RunPostPairingSteps. step ltac:(by apply add_account_key_ok). intros _ _.
  step ltac:(apply save_account_keys_ok). intros _ _.
  step ltac:(apply DiscardPendingAccountKey_ok). intros _ _.
  step ltac:(apply RetroactivePairingPeerPending_ok). intros b _. on_if; [|by apply finish_pairing_ok].
  step ltac:(apply RemoveRetroactivePairingPeer_ok). intros _ _.
  step ltac:(apply RetroactivePairingPeerPending_ok). intros _ _. step_gets. on_if. by apply finish_pairing_ok.
Qed.

Lemma account_key_guard_ok p : ok (account_key_guard p) (fun _ => True).
Proof.
  unfold account_key_guard. step ltac:(apply RetroactivePairingPeerPending_ok). intros b _. on_if.
  - step ltac:(apply RetroactivePairingPeerTimeout_ok). intros t _. on_if.
    step ltac:(apply RemoveRetroactivePairingPeer_ok). intros _ _. by apply safe_ret.
  - step_gets. cbv zeta. on_if. do 2 step_gets. on_if.
    step ltac:(apply ShouldTimeout_ok). intros t _. on_if.
Qed.

Lemma OnAccountKeyWrite_ok p request :
  is_u64 p -> (forall d, listed o d /\ awaited o d) -> q kPairingStateWaitingForAdditionalData ->
  ok (OnAccountKeyWrite p request) (fun _ => True).
Proof.
  intros Hp Ho Hq. unfold OnAccountKeyWrite. step ltac:(apply account_key_guard_ok). intros [st|w] _; [by apply safe_ret|].
  on_if. step_gets. step ltac:(safe_se ltac:(apply decrypt_total)). intros [st d] Hd. cbn [status_buf snd] in Hd.
  on_status. step_load 0%nat. on_if. destruct Hd as [Hl Hb]. cbn [snd] in *. on_if.
  - step ltac:(apply safe_modify; intros c [[] (? & ? & ? & ? & _)]; split;
      [split; cbn; auto; split; [done|split; [done|by destruct ok_pending as (_ & _ & ?)]]
      |split; [done|]; split; [done|]; split; [done|]; split; [done|right; apply Ho]]). intros _ _.
    step ltac:(apply safe_hal with (R := fun _ => True); done). intros _ _. by apply safe_ret.
  - step ltac:(apply RunPostPairingSteps_ok; [|apply Ho|done]; split; [done|split; [done|cbn; destruct NEARBY_FP_ENABLE_SASS; [done|lia]]]).
    intros _ _. by apply safe_ret.
Qed.

(** ** Reads *)

Lemma GattReadModelId_ok k out len :
  buf k out -> (3 <= len <= k)%nat ->
  ok (nearby_fp_GattReadModelId out len) (fun r => buf k (snd (fst r)) /\ snd r = 3%nat).
Proof.
  intros Ho Hl. unfold nearby_fp_GattReadModelId, FP_MODEL_ID_SIZE.
  rewrite (proj2 (Nat.leb_le 3 len)) by lia. step_lift ltac:(reflexivity). step_hal.
  step ltac:(apply copy_be_ok; [exact Ho|lia]). intros o1 Ho'. by apply safe_ret.
Qed.

Lemma OnMesssageStreamPsmRead_ok k out len :
  buf k out -> (len <= k)%nat -> ok (OnMesssageStreamPsmRead out len) (fun _ => True).
Proof.
  intros Ho Hl. unfold OnMesssageStreamPsmRead, PSM_MESSAGE_LENGTH, GetMessageStreamPsm.
  eapply safe_bind with (R := fun _ => True); [on_if; by apply safe_hal|]. intros psm _.
  on_if. bool_to_prop. step ltac:(apply write_ok; [exact Ho| |rewrite length_replicate; lia]).
  { apply bytes_ok_replicate. unfold is_byte. lia. }
  intros o1 H1. on_if. step_store o2. step_store o3. step_store o4. by apply safe_ret.
Qed.

Lemma OnGattRead_ok p ch k out len :
  buf k out -> (3 <= len <= k)%nat -> ok (OnGattRead p ch out len) (fun _ => True).
Proof.
  intros Ho Hl. unfold OnGattRead. destruct ch; try by apply safe_ret.
  - eapply safe_mono; [by eapply GattReadModelId_ok|done].
  - eapply OnMesssageStreamPsmRead_ok; [done|lia].
Qed.

(** ** Bluetooth events *)

Lemma OnPairingRequest_ok p :
  is_u64 p ->
  (q kPairingStateWaitingForPairingRequest -> q kPairingStateWaitingForPasskey /\ q kPairingStateIdle) ->
  ok (OnPairingRequest p) (fun _ => True).
Proof.
  intros Hp Hq. unfold OnPairingRequest. step ltac:(apply get_pairing_state_ok). intros x Hx. on_if.
  apply bool_decide_eq_true in Heqb. subst x. destruct (Hq Hx) as [Hq1 Hq2].
  step ltac:(apply ShouldTimeout_ok). intros t _.
  on_if; [by apply set_pairing_state_ok|]. step ltac:(by apply set_pairing_state_ok). intros _ _.
  step ltac:(by apply set_peer_public_ok). intros _ _. step ltac:(apply now_ok). intros now Hn.
  by apply set_timeout_ok.
Qed.

(** A pending key is one that may be awaited. *)
Lemma pending_key_ok s :
  inv n q a o (st s) ->
  wp HasPendingAccountKey (fun b s' => s' = s /\
    (b = true -> let k := account_key (pending_account_key_info (st s)) in
       k !! 0%nat = Some ACCOUNT_KEY_WRITE_MESSAGE_TYPE /\ awaited o k)) s.
Proof.
  intros (Hc & _ & _ & _ & _ & Hp). unfold HasPendingAccountKey. apply wp_bind, wp_gets.
  destruct (ok_pending _ Hc) as (Hl & _ & _).
  destruct (load_lt (account_key (pending_account_key_info (st s))) 0) as (v & Hv & Hlk);
    [rewrite Hl; by apply Nat.ltb_lt|].
  apply wp_bind. eapply wp_lift; [exact Hv|]. apply wp_ret. split; [done|].
  intros ->%Z.eqb_eq. split; [done|]. destruct Hp as [Hp|Hp]; [|done]. by rewrite Hp in Hlk.
Qed.

Lemma OnPaired_at p s :
  inv n q a o (st s) -> is_u64 p ->
  (peer_public_address (st s) = p -> forall d, d !! 0%nat = Some ACCOUNT_KEY_WRITE_MESSAGE_TYPE ->
     awaited o d -> listed o d) ->
  q kPairingStateWaitingForAdditionalData ->
  (q kPairingStateWaitingForPairingResult -> q kPairingStateWaitingForAccountKeyWrite) ->
  wp (OnPaired p) (fun _ s' => inv n q a o (st s') /\ ext request_ok s s' /\ True) s.
Proof.
  intros Hs Hp Ho Hq1 Hq2. unfold OnPaired. apply wp_bind, wp_gets. apply wp_bind.
  eapply wp_mono; [by apply pending_key_ok|]. intros has s' [-> Hhas]. destruct (_ && has) eqn:E.
  - apply andb_true_iff in E as [E%Z.eqb_eq ->]. apply wp_bind, wp_gets.
    apply RunPostPairingSteps_ok; [apply (ok_pending _ (proj1 Hs))|by apply Ho; [|apply Hhas..]|done|done].
  - clear Hhas E Ho. revert s Hs.
    match goal with |- forall s, _ -> wp ?m _ _ => change (ok m (fun _ => True)) end.
    step ltac:(by apply set_peer_public_ok). intros _ _.
    step ltac:(apply get_pairing_state_ok). intros x Hx. on_if.
    + apply bool_decide_eq_true in Heqb. subst x.
      step ltac:(by apply set_pairing_state_ok, Hq2). intros _ _. step ltac:(apply now_ok). intros now Hn.
      by apply set_timeout_ok.
    + step ltac:(apply AddRetroactivePairingPeer_ok). intros _ _. by apply safe_ret.
Qed.

Lemma OnPaired_ok p :
  is_u64 p -> (forall d, awaited o d -> listed o d) -> q kPairingStateWaitingForAdditionalData ->
  (q kPairingStateWaitingForPairingResult -> q kPairingStateWaitingForAccountKeyWrite) ->
  ok (OnPaired p) (fun _ => True).
Proof. intros Hp Ho. intros. intros s Hs. apply OnPaired_at; auto. Qed.

Lemma OnPairingFailed_ok p : ok (OnPairingFailed p) (fun _ => True).
Proof. unfold OnPairingFailed. step ltac:(apply DiscardAccountKey_ok). intros _ _. apply DiscardPendingAccountKey_ok. Qed.

End Pairing.

(** * The lock *)
Section Lock.
Context {C : Config} {P : Platform} {B : BitmapSpec C P}.
Variables (q : PairingState -> Prop) (a : option (list Z)) (o : key_origins).

Lemma inv_le n m c : n <= m -> inv n q a o c -> inv m q a o c.
Proof. intros Hl (H & Hn & Ha). split; [done|]. split; [lia|done]. Qed.

(** A function that leads from one invariant to another. *)
Definition leads (I J : client -> Prop) {A} (m : M client A) (R : A -> Prop) : Prop :=
  forall s, I (st s) -> wp m (fun r s' => J (st s') /\ ext request_ok s s' /\ R r) s.

Lemma leads_bind I J J' {A X} (m : M client A) (k : A -> M client X) R R' :
  leads I J m R -> (forall r, R r -> leads J J' (k r) R') -> leads I J' (mbind k m) R'.
Proof.
  intros Hm Hk s Hs. apply wp_bind. eapply wp_mono; [by apply Hm|].
  intros r s1 (H1 & E1 & Hr). eapply wp_mono; [by apply (Hk r Hr)|].
  intros b s2 (H2 & E2 & Hb). split; [done|]. split; [by eapply ext_trans|done].
Qed.

Lemma leads_weaken (I J : client -> Prop) {A} (m : M client A) R :
  safe request_ok I m R -> (forall c, I c -> J c) -> leads I J m R.
Proof.
  intros Hm HI s Hs. eapply wp_mono; [by apply Hm|]. intros r s' (? & ? & ?). auto.
Qed.

(** Below the maximum a failure can be counted. *)
Lemma AccountKeyRejected_ok : leads (inv 9 q a o) (inv 10 q a o) AccountKeyRejected (fun _ => True).
Proof.
  intros s [Hc (Hn & Hq & Ha)]. unfold AccountKeyRejected.
  apply wp_bind, wp_gets. apply wp_bind, wp_modify.
  pose proof (ok_failures _ Hc) as Hf. unfold MAX_PAIRING_FAILURE_COUNT in *.
  rewrite u8_id by (unfold is_byte; lia).
  set (s1 := Sys _ _ _). assert (inv 10 q a o (st s1)) as H1.
  { unfold s1. cbn. destruct Hc. split; [|split; [cbn; lia|done]].
    split; cbn; auto. unfold MAX_PAIRING_FAILURE_COUNT. lia. }
  assert (ext request_ok s s1) as E1 by (by exists []).
  destruct (_ =? 10).
  - apply wp_bind, wp_hal_map. intros resp w. apply wp_modify. cbn [st env log].
    split; [|split; [by apply ext_call|done]].
    destruct H1 as [[] (? & ? & ?)]. split; [split; cbn; auto; apply u32_range|done].
  - by apply wp_ret.
Qed.

(** The lock is off, or has expired and is reset. *)
Lemma pairing_locked_ok s :
  inv 10 q a o (st s) ->
  wp pairing_locked (fun b s' => ext request_ok s s' /\ inv (if b then 10 else 9) q a o (st s')) s.
Proof.
  intros Hs. unfold pairing_locked. apply wp_bind, wp_gets. unfold MAX_PAIRING_FAILURE_COUNT.
  destruct (Z.leb_spec 10 (pairing_failure_count (st s))) as [Hn|Hn].
  - apply wp_bind, wp_hal_map. intros resp w. apply wp_bind, wp_gets. cbn [st].
    destruct (_ <? _); [apply wp_ret; split; [by apply ext_call|done]|].
    apply wp_bind, wp_modify, wp_ret. cbn [st env log]. split; [by apply ext_call|].
    destruct Hs as [[] (? & ? & ?)]. split; [|split; [cbn; lia|done]]. split; cbn; auto.
    unfold MAX_PAIRING_FAILURE_COUNT. lia.
  - apply wp_ret. split; [apply ext_refl|]. destruct Hs as (? & ? & ?). split; [done|]. split; [lia|done].
Qed.

Lemma find_key_ok p request ba pa :
  is_u64 p -> safe request_ok (inv 9 q a o)
    (let len := length request in
     if (len =? ENCRYPTED_REQUEST_LENGTH + PUBLIC_KEY_LENGTH)%nat
     then match_public_key p request ba pa
     else if (len =? ENCRYPTED_REQUEST_LENGTH)%nat then
       let! l := gets account_key_list in
       match_account_key (Z.to_nat (nearby_fp_GetAccountKeyCount l)) 0 p request ba pa
     else mret (Return kNearbyStatusError)) search_ok.
Proof.
  intros Hp. cbv zeta. on_if; [by apply match_public_key_ok; [apply Nat.eqb_eq|]|]. on_if.
  intros s Hs. apply wp_bind, wp_gets. pose proof (ok_count _ (ok_list _ (proj1 Hs))) as Hc.
  apply match_account_key_ok; [done|done|lia|]. unfold nearby_fp_GetAccountKeyCount. lia.
Qed.

Lemma OnWriteKeyBasedPairing_ok p request :
  is_u64 p -> request_states q ->
  safe request_ok (inv 10 q a o) (OnWriteKeyBasedPairing p request) (fun _ => True).
Proof.
  intros Hp Hq s Hs. unfold OnWriteKeyBasedPairing. apply wp_bind.
  eapply wp_mono; [by apply pairing_locked_ok|]. intros [|] s1 [E1 H1]; [by apply wp_ret|].
  eapply wp_mono with (Q := fun _ s' => inv 10 q a o (st s') /\ ext request_ok s1 s' /\ True);
    [|intros ? s2 (? & ? & _); split; [done|]; split; [by eapply ext_trans|done]].
  clear s Hs E1. revert s1 H1.
  match goal with |- forall s1, _ -> wp ?m _ _ => change (leads (inv 9 q a o) (inv 10 q a o) m (fun _ => True)) end.
  do 2 (eapply leads_bind; [apply (safe_uninit request_ok (inv 9 q a o))|intros ? ?]).
  do 2 (eapply leads_bind; [apply (safe_hal request_ok (inv 9 q a o)) with (R := fun _ => True); done|intros ? _];
        eapply leads_bind; [by apply (copy_be_ok request_ok (inv 9 q a o))|intros ? _]).
  eapply leads_bind; [by apply find_key_ok|]. intros [st| d|] Hd.
  - apply leads_weaken; [by apply safe_ret|]. intros c. apply inv_le. lia.
  - apply leads_weaken; [by apply accept_request_ok; [lia| | |]|]. intros c. apply inv_le. lia.
  - eapply leads_bind; [apply AccountKeyRejected_ok|]. intros _ _. by apply (safe_ret request_ok (inv 10 q a o)).
Qed.

End Lock.
