(* ===== verification/ClientStreamSafety.v ===== *)
(** The message stream handlers of ClientStream.v are safe. *)

From Stdlib Require Import ZArith Lia.
From stdpp Require Import base list numbers.
From S2P Require Import Prelude Utils Platform SecureElement TestPlatform Crypto AccountKeys.
From S2P Require Import MessageStream Advertisement CryptoSafety AdvertisementSafety.
From S2P Require Import ClientState ClientAdvertising ClientPairing ClientStream.
From S2P Require Import ClientInvariant ClientAdvertisingSafety ClientPairingSafety.
Import Utils.

(** * Connection status

    The functions that tell the peers the state of the audio connections only read
    the variables of the client. *)
Section Status.
Context {C : Config} {P : Platform} {B : BitmapSpec C P}.
Variable I : client -> Prop.
Hypothesis HI : forall c, I c -> client_ok c.
Notation ok := (safe request_ok I).

Lemma SetNonDiscoverable_safe : ok SetNonDiscoverableAdvertisement (fun _ => True).
Proof. apply safe_frozen. intros c Hc. by apply SetNonDiscoverableAdvertisement_frozen, HI. Qed.

Lemma IsDeviceSass_ok p : ok (IsDeviceSass p) (fun _ => True).
Proof. unfold IsDeviceSass. step_gets. by apply safe_ret. Qed.

Lemma GetActiveDeviceFlag_ok p : ok (GetActiveDeviceFlag p) (fun _ => True).
Proof.
  unfold GetActiveDeviceFlag. step_hal. step ltac:(apply IsDeviceSass_ok). intros b _. by apply safe_ret.
Qed.

Lemma PrepareNotifyConnectionStatus_safe k m i :
  NEARBY_FP_ENABLE_SASS = true -> (i < 2)%nat -> buf k (message_data m) ->
  message_length m = Z.of_nat k -> (15 <= k)%nat ->
  ok (PrepareNotifyConnectionStatus m i) (fun r => sendable (snd r)).
Proof.
  intros Hsass Hi Hm Hlen Hk. unfold PrepareNotifyConnectionStatus.
  unfold MAX_NOTIFY_CONNECTION_STATUS_MESSAGE_SIZE, MAX_DEVICE_BITMAP_SIZE, SESSION_NONCE_SIZE.
  rewrite (proj2 (Z.leb_le _ _)) by lia. step_lift ltac:(reflexivity).
  step ltac:(by apply get_input_safe). intros input [Hn Hk' _ _].
  step ltac:(apply safe_uninit). intros iv Hiv. destruct Hn as [Hn Hnb]. unfold SESSION_NONCE_SIZE in Hn.
  step ltac:(apply write_ok; [exact Hiv|done|rewrite Hn; by apply Nat.leb_le]). intros iv1 Hiv1.
  step ltac:(safe_se ltac:(apply rand_fill_total; [exact Hiv1|by apply Nat.leb_le])). intros iv2 [Hiv2 Hivb].
  step ltac:(apply GetActiveDeviceFlag_ok). intros flag _. step_store d1.
  step ltac:(eapply safe_effects; [apply GetSassConnectionState_total|exact query_ok]). intros state _.
  step_store d2. step_gets. step_store d3. step ltac:(by apply GetConnectionBitmap_ok). intros bm [Hbm Hbb].
  step ltac:(apply write_ok; [eassumption|done|lia]). intros d4 H4.
  step_lift ltac:(apply read_bytes_done; rewrite Hiv2; by apply Nat.leb_le).
  assert (length (take 8 (drop 8 iv2)) = 8%nat) as H8
    by (rewrite length_take, length_drop, Hiv2; done).
  step ltac:(apply write_ok; [eassumption|auto with fp|rewrite H8; lia]). intros d5 [H5 H5b].
  step_lift ltac:(apply read_bytes_done; lia). cbv zeta.
  assert (length (take (3 + length bm - 1) (drop 1 d5)) = 2 + length bm)%nat as Hpl
    by (rewrite length_take, length_drop; lia).
  step ltac:(safe_se ltac:(apply AesEncryptIv_total; [split; [exact Hpl|auto with fp]|lia])).
  intros [st enc] [He Heb]. cbn [snd] in *. step ltac:(apply (write_ok _ _ k); [by split|done|lia]). intros d6 [H6 H6b].
  on_status; apply safe_ret; unfold sendable; cbn; (split; [lia|done]).
Qed.

Lemma IsSameAccountKey_ok i x :
  (i < 2)%nat -> from_option (fun j => j < 2)%nat True x -> ok (IsSameAccountKey i x) (fun _ => True).
Proof.
  intros Hi Ho. unfold IsSameAccountKey. destruct x as [j|]; [|by apply safe_ret]. on_if.
  do 2 (step ltac:(by apply get_input_safe); intros ? _). by apply safe_ret.
Qed.

Lemma NotifySass_loop_safe k i seeker iu :
  NEARBY_FP_ENABLE_SASS = true -> from_option (fun j => j < 2)%nat True seeker -> (k + i <= 2)%nat ->
  ok (NotifySass_loop k i seeker iu) (fun _ => True).
Proof.
  intros Hs Hsk. revert i. induction k as [|k IH]; intros i Hi; cbn [NotifySass_loop]; [by apply safe_ret|].
  step ltac:(apply get_input_safe; [exact HI|lia]). intros r _.
  step ltac:(apply IsSameAccountKey_ok; [lia|done]). intros b _. on_if; [|apply IH; lia].
  step ltac:(apply safe_uninit). intros buffer Hb.
  step ltac:(eapply PrepareNotifyConnectionStatus_safe; [done|lia|exact Hb|done|by apply Nat.leb_le]).
  intros [st reply] Hr. on_status. step ltac:(by apply Send_ok). intros _ _. apply IH. lia.
Qed.

Lemma UpdateAndNotifySass_safe seeker :
  NEARBY_FP_ENABLE_SASS = true -> from_option (fun j => j < 2)%nat True seeker ->
  ok (UpdateAndNotifySass seeker) (fun _ => True).
Proof.
  intros Hs Hsk. unfold UpdateAndNotifySass. step ltac:(apply mode_has_ok). intros nd _.
  step ltac:(apply IncludeSass_ok). intros b _. eapply safe_bind with (R := fun _ => True).
  { on_if. step_hal. step ltac:(apply SetNonDiscoverable_safe). intros _ _. by apply safe_ret. }
  intros _ _. unfold NotifySassConnectionStatus. eapply safe_bind with (R := fun _ => True).
  - eapply safe_bind with (R := fun _ => True).
    { destruct seeker; [by apply safe_ret|]. eapply safe_mono; [apply SelectInUseKey_safe; intros c Hc; apply (ok_inputs c (HI c Hc))|done]. }
    intros iu _. by apply NotifySass_loop_safe.
  - intros _ _. by apply safe_ret.
Qed.

End Status.

Section Stream.
Context {C : Config} {P : Platform} {B : BitmapSpec C P}.
Variables (n : Z) (q : PairingState -> Prop) (a : option (list Z)) (o : key_origins).
Notation ok := (safe request_ok (inv n q a o)).

Lemma notify_event_ok e : ok (notify_event e) (fun _ => True).
Proof. unfold notify_event. step_gets. on_if. by apply safe_hal. Qed.

Lemma VerifyMessageLength_ok p m len :
  ok (VerifyMessageLength p m len) (fun st => status_ok st = true -> message_length m = len).
Proof.
  unfold VerifyMessageLength. on_if.
  - step ltac:(apply SendNack_ok). intros _ _. by apply safe_ret.
  - apply safe_ret. intros _. by bool_to_prop.
Qed.

Lemma SendResponse_ok p m st : ok (SendResponse p m st) (fun _ => True).
Proof. unfold SendResponse. on_status; [apply SendAck_ok|apply SendNack_ok]. Qed.

(** A message as the parser delivers it: a payload buffer of 22 bytes. *)
Definition received (m : nearby_message_stream_Message) : Prop :=
  buf 22 (message_data m) /\ 0 <= message_length m <= 22
  /\ is_byte (message_group m) /\ is_byte (message_code m).

(** ** API *)

Lemma SetSilenceMode_ok p e : ok (nearby_fp_client_SetSilenceMode p e) (fun _ => True).
Proof.
  unfold nearby_fp_client_SetSilenceMode. step ltac:(apply GetRfcommInput_ok).
  intros [i|] Hi; [destruct Hi as [Hi _]|by apply safe_ret]. step ltac:(by apply get_input_ok). intros r _. on_if.
  apply Send_ok, sendable_nil.
Qed.

Lemma SignalLogBufferFull_ok p : ok (nearby_fp_client_SignalLogBufferFull p) (fun _ => True).
Proof.
  unfold nearby_fp_client_SignalLogBufferFull. step ltac:(apply GetRfcommInput_ok).
  intros [i|] Hi; [destruct Hi as [Hi _]|by apply safe_ret]. step ltac:(by apply get_input_ok). intros r _. on_if.
  apply Send_ok, sendable_nil.
Qed.

(** ** Connection status *)

Lemma inv_ok c : inv n q a o c -> client_ok c.
Proof. by intros []. Qed.

Lemma PrepareNotifyConnectionStatus_ok k m i :
  NEARBY_FP_ENABLE_SASS = true -> (i < 2)%nat -> buf k (message_data m) ->
  message_length m = Z.of_nat k -> (15 <= k)%nat ->
  ok (PrepareNotifyConnectionStatus m i) (fun r => sendable (snd r)).
Proof. apply PrepareNotifyConnectionStatus_safe, inv_ok. Qed.

Lemma UpdateAndNotifySass_ok seeker :
  NEARBY_FP_ENABLE_SASS = true -> from_option (fun j => j < 2)%nat True seeker ->
  ok (UpdateAndNotifySass seeker) (fun _ => True).
Proof. apply UpdateAndNotifySass_safe, inv_ok. Qed.

Lemma send_switch_event_ok k i p m :
  (k + i <= 2)%nat -> buf 22 (message_data m) -> message_length m <= 22 ->
  ok (send_switch_event k i p m) (fun _ => True).
Proof.
  revert i m. induction k as [|k IH]; intros i m Hi Hm Hl; cbn [send_switch_event]; [by apply safe_ret|].
  step ltac:(apply get_input_ok; lia). intros r _. on_if; [|apply IH; [lia|done|done]].
  step_store d. step ltac:(apply Send_ok; by apply (sendable_buf 22)). intros _ _.
  apply IH; [lia|done|done].
Qed.

Lemma OnMultipointSwitchEvent_ok reason p name :
  from_option bytes_ok True name -> ok (OnMultipointSwitchEvent reason p name) (fun _ => True).
Proof.
  intros Hn. unfold OnMultipointSwitchEvent, MAX_MESSAGE_STREAM_PAYLOAD_SIZE,
    SASS_NOTIFY_MULTIPOINT_SWITCH_EVENT_NAME_OFFSET.
  step ltac:(apply safe_uninit). intros data Hd. step_store d1.
  eapply safe_bind with (R := fun r => buf 22 (fst r) /\ snd r <= 22).
  - destruct name as [name|].
    + step ltac:(apply write_ok; [eassumption|by apply bytes_ok_take|rewrite length_take; lia]). intros d2 H2.
      apply safe_ret. split; [done|cbn [snd]; lia].
    + step_store d2. step_store d3. step_store d4. step_store d5. apply safe_ret. by split.
  - intros [d len] [H1 H2]. by apply send_switch_event_ok.
Qed.

(** ** Replies *)

Lemma PrepareNotifySassCapabilityResponse_ok m :
  buf 22 (message_data m) -> message_length m = 22 ->
  ok (PrepareNotifySassCapabilityResponse m) sendable.
Proof.
  intros Hm Hl. unfold PrepareNotifySassCapabilityResponse. rewrite Hl. step_lift ltac:(reflexivity).
  step ltac:(apply copy_be_ok; [exact Hm|lia]). intros d1 H1.
  step ltac:(eapply safe_effects; [apply GetSassCapabilityFlags_total|exact query_ok]). intros f _.
  step ltac:(apply copy_be_ok; [exact H1|lia]). intros d2 H2. apply safe_ret. by apply (sendable_buf 22).
Qed.

Lemma PrepareNotifySwitchingPreferenceResponse_ok m :
  buf 22 (message_data m) -> message_length m = 22 ->
  ok (PrepareNotifySwitchingPreferenceResponse m) sendable.
Proof.
  intros Hm Hl. unfold PrepareNotifySwitchingPreferenceResponse. rewrite Hl.
  step_lift ltac:(reflexivity). step_hal. step_store d1. step_store d2. apply safe_ret.
  by apply (sendable_buf 22).
Qed.

Lemma PrepareActiveComponentResponse_ok m :
  buf 22 (message_data m) -> message_length m = 22 ->
  ok (PrepareActiveComponentResponse m) sendable.
Proof.
  intros Hm Hl. unfold PrepareActiveComponentResponse. rewrite Hl. step_lift ltac:(reflexivity).
  do 2 step_hal. step_store d1. apply safe_ret. by apply (sendable_buf 22).
Qed.

(** ** Authenticated commands *)

Lemma verify_ok m key nonce :
  received m -> 16 <= message_length m -> buf 16 key ->
  ok (nearby_fp_VerifyMessageAuthenticationCode (message_data m) (message_length m) key nonce)
    (fun _ => True).
Proof.
  intros ([Hl Hb] & Hlen & _) H16 Hk. safe_se ltac:(apply VerifyMac_total; [done|lia|lia|done]).
Qed.

Lemma VerifyMac_ok p m i :
  received m -> 16 <= message_length m -> (i < 2)%nat -> ok (VerifyMac p m i) (fun _ => True).
Proof.
  intros Hm H16 Hi. unfold VerifyMac. step ltac:(by apply get_input_ok). intros input [Hin _].
  step ltac:(apply verify_ok; [done|done|apply Hin]). intros st _.
  eapply safe_bind with (R := fun _ => True).
  { on_status. step ltac:(apply SendNack_ok). intros _ _. by apply safe_ret. }
  intros _ _. by apply safe_ret.
Qed.

Lemma authenticated_command_ok p m i len act :
  received m -> (i < 2)%nat -> 16 <= len -> (forall b, is_byte b -> ok (act b) (fun _ => True)) ->
  ok (authenticated_command p m i len act) (fun _ => True).
Proof.
  intros Hm Hi Hlen Hact. unfold authenticated_command.
  step ltac:(apply VerifyMessageLength_ok). intros st Hst.
  destruct (status_ok st) eqn:E; [|by apply safe_ret]. rewrite <- (Hst E) in Hlen.
  step ltac:(by apply VerifyMac_ok). intros st2 _. on_status.
  step ltac:(apply load_ok with (k := 22%nat); [apply Hm|lia]). intros b Hb.
  step ltac:(by apply Hact). intros st3 _. apply SendResponse_ok.
Qed.

Lemma FindNextAudioSource_ok i : (i < 2)%nat -> ok (FindNextAudioSource i) (fun _ => True).
Proof.
  intros Hi. unfold FindNextAudioSource. step ltac:(by apply get_input_ok). intros r _. step_gets.
  by apply safe_ret.
Qed.

Lemma set_in_use_account_key_ok key r :
  buf 16 key -> input_ok r -> input_ok (set_in_use_account_key key r).
Proof. intros Hk []. by split. Qed.

(** The loop over the distinct account keys ends within [num_keys + 1] rounds. *)
Lemma IndicateInUseKey_loop_ok fuel offset m i s :
  NEARBY_FP_ENABLE_SASS = true -> received m -> 16 <= message_length m -> (i < 2)%nat ->
  inv n q a o (st s) -> 0 <= offset <= num_keys (account_key_list (st s)) ->
  num_keys (account_key_list (st s)) - offset < Z.of_nat fuel ->
  wp (IndicateInUseKey_loop fuel offset m i)
    (fun _ s' => inv n q a o (st s') /\ ext request_ok s s' /\ True) s.
Proof.
  intros Hsass Hm H16 Hi. revert offset s. induction fuel as [|fuel IH]; intros offset s Hs Ho Hf; [lia|].
  cbn [IndicateInUseKey_loop]. apply wp_bind, wp_gets.
  pose proof (ok_list _ (proj1 Hs)) as Hok. pose proof (ok_nodup _ (proj1 Hs)) as Hnd.
  destruct (GetNextUnique_spec _ offset Hok Ho) as (r & Er & _ & Hr).
  apply wp_bind. eapply wp_lift; [exact Er|]. cbn beta.
  destruct (Z.eqb_spec r (-1)) as [->|Hne].
  { apply wp_ret. split; [done|]. split; [apply ext_refl|done]. }
  destruct Hr as [?|Hr]; [done|].
  destruct (GetAccountKey_done _ r Hok) as (x & Ex & _ & Hx); [lia|].
  pose proof (proj1 (proj2 (proj2 (proj2 (proj2 Hs))))) as Hf0.
  apply wp_bind. eapply wp_lift; [exact Ex|]. cbn beta.
  unfold get_input. apply wp_bind, wp_bind, wp_gets.
  pose proof (ok_table _ (proj1 Hs)) as Ht. unfold NEARBY_MAX_RFCOMM_CONNECTIONS in Ht.
  destruct (rfcomm_inputs (st s) !! i) as [input|] eqn:Ei; [|apply lookup_ge_None in Ei; lia].
  apply wp_ret. apply wp_bind. destruct Hm as ([Hml Hmb] & Hlen & Hgc).
  eapply wp_effects; [apply VerifyMac_total; [done|lia|lia|by apply key_ok_buf]|].
  intros st1 s1 [E1 Hx1] _.
  assert (ext request_ok s s1) as Hext by (eapply ext_mono; [|exact Hx1]; by intros []).
  rewrite <- E1 in Hs.
  destruct (status_ok st1).
  - destruct (MarkAccountKeyAsActive_ok _ r Hok Hnd) as (l' & El & Hl' & Hn' & Hp'); [lia|].
    rewrite <- Hp' in Hf0.
    eapply wp_mono; [eapply (safe_bind request_ok (inv n q a o)); [|intros ? ?;
      eapply safe_bind; [eapply safe_lift with (R := eq l'); [exact El|done]|intros ? <-;
      eapply safe_bind; [by apply set_list_ok|intros _ _;
      eapply safe_bind; [by apply UpdateAndNotifySass_ok|intros _ _; by apply safe_ret with (R := fun _ => True)]]]|done]|].
    + apply update_input_ok; [done| |by right]. intros r'. by apply set_in_use_account_key_ok, key_ok_buf.
    + intros ? s2 (H2 & E2 & _). split; [done|]. split; [by eapply ext_trans|done].
  - eapply wp_mono; [apply IH; rewrite ?E1; [by rewrite <- E1|lia|lia]|].
    intros ? s2 (H2 & E2 & _). split; [done|]. split; [by eapply ext_trans|done].
Qed.

Lemma IndicateInUseKey_ok m i :
  NEARBY_FP_ENABLE_SASS = true -> received m -> 16 <= message_length m -> (i < 2)%nat ->
  ok (IndicateInUseKey m i) (fun _ => True).
Proof.
  intros Hsass Hm H16 Hi s Hs. unfold IndicateInUseKey. apply wp_bind, wp_gets.
  pose proof (ok_count _ (ok_list _ (proj1 Hs))) as Hc.
  apply IndicateInUseKey_loop_ok; [done|done|done|done|done|lia|lia].
Qed.

(** ** Messages from a connected peer *)

Definition connected (p : Z) : Prop := from_option (fun l => p ∈ l) False a.

Lemma connected_input p (x : option nat) :
  connected p ->
  match x with
  | Some i => (i < 2)%nat /\ from_option (fun l => l !! i = Some p) True a
  | None => from_option (fun l => p ∉ l) True a
  end -> exists i, x = Some i /\ (i < 2)%nat.
Proof. unfold connected. destruct x as [i|]; [intros _ []; by exists i|]. by destruct a. Qed.

Lemma HandleSassMessage_ok p m :
  NEARBY_FP_ENABLE_SASS = true -> connected p -> received m ->
  ok (HandleSassMessage p m) (fun _ => True).
Proof.
  intros Hs Hp Hm. unfold HandleSassMessage. step ltac:(apply GetRfcommInput_ok).
  intros x Hx. destruct (connected_input p x Hp Hx) as (i & -> & Hi).
  step ltac:(apply safe_uninit). intros buffer Hb. unfold MAX_MESSAGE_STREAM_PAYLOAD_SIZE in *.
  on_if. { step ltac:(by apply PrepareNotifySassCapabilityResponse_ok). intros reply Hr. by apply Send_ok. }
  on_if. { apply authenticated_command_ok; [done|done|lia|]. intros b Hb'. by apply safe_hal. }
  on_if. { apply authenticated_command_ok; [done|done|lia|]. intros b Hb'. by apply safe_hal. }
  on_if. { step ltac:(by apply PrepareNotifySwitchingPreferenceResponse_ok). intros reply Hr. by apply Send_ok. }
  on_if. { apply authenticated_command_ok; [done|done|lia|]. intros b Hb'.
    eapply safe_bind with (R := fun _ => True); [on_if; by apply FindNextAudioSource_ok|]. intros pr _. by apply safe_hal. }
  on_if. { apply authenticated_command_ok; [done|done|lia|]. intros b Hb'. by apply safe_hal. }
  on_if. { step ltac:(eapply PrepareNotifyConnectionStatus_ok; [done|done|exact Hb|done|lia]).
    intros [st reply] Hr. by apply Send_ok. }
  on_if. { apply authenticated_command_ok; [done|done|lia|]. intros b Hb'. by apply safe_hal. }
  on_if. { step ltac:(apply VerifyMessageLength_ok). intros st Hst.
    destruct (status_ok st) eqn:E; [|by apply safe_ret].
    step ltac:(apply IndicateInUseKey_ok; [done|done|rewrite (Hst E); lia|done]). intros st' _. apply SendResponse_ok. }
  on_if. { apply authenticated_command_ok; [done|done|lia|]. intros b Hb'. step_gets.
    eapply safe_bind with (R := fun _ => True); [|intros _ _; by apply safe_ret]. on_if.
    step ltac:(by apply set_custom_ok). intros _ _. by apply UpdateAndNotifySass_ok. }
  on_if. apply authenticated_command_ok; [done|done|lia|]. intros b Hb'. by apply safe_hal.
Qed.

Lemma input_ok_flags r x y z :
  input_ok r -> input_ok (RfcommInput (input_state r) (session_nonce r) (in_use_account_key r) x y z).
Proof. intros []. by split. Qed.

Lemma HandleGeneralMessage_ok p m :
  connected p -> received m -> ok (HandleGeneralMessage p m) (fun _ => True).
Proof.
  intros Hp Hm. unfold HandleGeneralMessage. step ltac:(apply GetRfcommInput_ok).
  intros x Hx. destruct (connected_input p x Hp Hx) as (i & -> & Hi).
  step ltac:(apply safe_uninit). intros buffer Hb. unfold MAX_MESSAGE_STREAM_PAYLOAD_SIZE in *.
  assert (forall j, (j < 22)%nat -> ok (lift (load (message_data m) j)) is_byte) as Hload
    by (intros j Hj; eapply load_ok; [apply Hm|lia]).
  on_if.
  - on_if. { step ltac:(by apply PrepareActiveComponentResponse_ok). intros reply Hr. by apply Send_ok. }
    on_if. { step_any ltac:(apply VerifyMessageLength_ok). on_status.
      step ltac:(apply Hload; lia). intros f Hf.
      step ltac:(apply update_input_ok; [done| |by right]; intros r; apply input_ok_flags). intros _ _. by apply safe_ret. }
    on_if. step_any ltac:(apply VerifyMessageLength_ok). on_status.
    do 2 (step ltac:(apply Hload; lia); intros ? ?).
    step ltac:(apply update_input_ok; [done| |by right]; intros r; apply input_ok_flags). intros _ _. by apply safe_ret.
  - on_if. on_if. on_if.
    { step ltac:(apply SendNack_ok). intros _ _. by apply safe_ret. }
    step ltac:(apply Hload; lia). intros cmd Hcmd.
    eapply safe_bind with (R := is_byte).
    { on_if. apply Hload. lia. }
    intros t Ht. unfold is_byte in Ht.
    step ltac:(apply safe_hal with (R := fun _ => True); [|done]).
    { split; [done|]. rewrite u16_id by lia. lia. }
    intros st _. apply SendResponse_ok.
Qed.

Lemma OnMessageReceived_ok p m :
  connected p -> received m -> ok (OnMessageReceived p m) (fun _ => True).
Proof.
  intros Hp Hm. unfold OnMessageReceived. step ltac:(by apply HandleGeneralMessage_ok). intros st _. on_status.
  eapply safe_bind with (R := fun _ => True).
  { on_if. bool_to_prop. by apply HandleSassMessage_ok. }
  intros st' _. on_status. destruct Hm as ([Hl Hb] & Hlen & _).
  step_lift ltac:(apply read_bytes_done; lia). apply notify_event_ok.
Qed.

Lemma announce_connection_ok p i buffer :
  (i < 2)%nat -> buf 22 buffer -> ok (announce_connection p i buffer) (fun _ => True).
Proof.
  intros Hi Hb. unfold announce_connection, MAX_MESSAGE_STREAM_PAYLOAD_SIZE.
  step ltac:(apply (GattReadModelId_ok n q a o 22); [done|lia]). intros [[st b] len] [Hb1 Hlen]. cbn [fst snd] in *.
  step ltac:(apply Send_ok, (sendable_buf 22); [done|cbn; lia]). intros s1 _. on_status.
  step ltac:(apply SendBleAddressUpdated_ok). intros s2 _. on_status.
  step ltac:(by apply get_input_ok). intros r [[Hn _ _ _] _].
  step ltac:(by apply Send_ok, (sendable_buf 8)). intros s3 _. on_status.
  step ltac:(apply SendBatteryInfoMessage_ok). intros s4 _. on_status.
  step ltac:(apply SendBatteryTimeMessage_ok). intros s5 _. on_status. apply notify_event_ok.
Qed.

End Stream.

(** * Connections *)
Section Connections.
Context {C : Config} {P : Platform} {B : BitmapSpec C P}.
Variables (n : Z) (q : PairingState -> Prop) (o : key_origins).
Notation ok := (safe request_ok (inv n q None o)).

Lemma fresh_input_ok p nonce caps :
  is_u64 p -> buf 8 nonce ->
  input_ok (RfcommInput (nearby_message_stream_Init
    (StreamState p INPUT_LENGTH 0 (Message 0 0 0 (replicate MAX_MESSAGE_STREAM_PAYLOAD_SIZE 0))))
    nonce (replicate ACCOUNT_KEY_SIZE_BYTES 0) caps 0 0).
Proof.
  intros Hp Hn. split; [done| |done|].
  - split; [done|]. apply bytes_ok_replicate. unfold is_byte. lia.
  - left. split; [|done].
    split; try done; try (unfold is_byte; cbn; lia).
    apply bytes_ok_replicate. unfold is_byte. lia.
Qed.

Lemma FindAvailableRfcommInput_ok p :
  is_u64 p -> ok (FindAvailableRfcommInput p) (fun o => from_option (fun i => i < 2)%nat True o).
Proof.
  intros Hp. unfold FindAvailableRfcommInput.
  step ltac:(apply safe_gets with (R := fun l => length l = 2%nat); by intros c [[] _]). intros l Hl.
  destruct (find_index _ l 0) as [i|] eqn:E; [|by apply safe_ret].
  apply find_index_some in E as (r & _ & Hr & _). rewrite Nat.sub_0_r in Hr.
  assert (i < 2)%nat as Hi by (cbn beta in Hl; apply lookup_lt_Some in Hr; lia).
  eapply safe_bind with (R := fun _ => True); [|intros _ _; by apply safe_ret].
  unfold InitRfcommInput. step ltac:(by apply get_input_ok). intros _ _.
  step ltac:(safe_se ltac:(apply rand_fill_total with (n := 8%nat); [|by apply Nat.leb_le])).
  { split; [done|]. apply bytes_ok_replicate. unfold is_byte. lia. }
  intros nonce Hn. apply update_input_ok; [done| |by left]. intros _ _. by apply fresh_input_ok.
Qed.

Lemma OnMessageStreamConnected_ok p : is_u64 p -> ok (OnMessageStreamConnected p) (fun _ => True).
Proof.
  intros Hp. unfold OnMessageStreamConnected. step ltac:(apply safe_uninit). intros buffer Hb.
  step ltac:(by apply FindAvailableRfcommInput_ok). intros [i|] Hi; [|by apply safe_ret].
  by apply announce_connection_ok.
Qed.

Lemma disconnect_ok r : input_ok r -> input_ok (set_input_peer_address INVALID_PEER_ADDRESS r).
Proof.
  intros [H1 H2 H3 H4]. split; [done|done|unfold is_u64, INVALID_PEER_ADDRESS; cbn; lia|].
  destruct H4 as [[[] Hl]|[Hl _]]; [left|by right]. split; [|done]. by split.
Qed.

Lemma OnMessageStreamDisconnected_ok p : ok (OnMessageStreamDisconnected p) (fun _ => True).
Proof.
  unfold OnMessageStreamDisconnected. step ltac:(apply GetRfcommInput_ok).
  intros [i|] Hi; [destruct Hi as [Hi _]|by apply safe_ret]. step ltac:(by apply get_input_ok). intros r _.
  step ltac:(apply IncludeSass_ok). intros b _.
  step ltac:(apply update_input_ok; [done|apply disconnect_ok|by left]). intros _ _.
  step ltac:(apply notify_event_ok). intros _ _. step ltac:(apply RemoveRetroactivePairingPeer_ok). intros _ _.
  on_if. bool_to_prop. by apply UpdateAndNotifySass_ok.
Qed.

(** The addresses of the table are known when a handler starts. *)
Lemma safe_peers {A} (m : M client A) R :
  (forall l, safe request_ok (inv n q (Some l) o) m R) -> ok m R.
Proof.
  intros H s (Hc & Hn & Hq & _ & Hk).
  eapply wp_mono; [apply (H (peers (st s))); by split; [|split; [|split; [|split]]]|].
  intros r s' ((H1 & H2 & H3 & _ & Hk') & ? & ?).
  split; [by split; [|split; [|split; [|split]]]|done].
Qed.

Lemma OnMessageStreamReceived_ok p data :
  p <> INVALID_PEER_ADDRESS -> bytes_ok data -> ok (OnMessageStreamReceived p data) (fun _ => True).
Proof.
  intros Hp Hd. apply safe_peers. intros l. unfold OnMessageStreamReceived.
  step ltac:(apply GetRfcommInput_ok). intros [i|] Hi; [destruct Hi as [Hi Hl]|by apply safe_ret].
  cbn in Hl. step ltac:(by apply get_input_ok). intros r [Hr Hrl]. cbn in Hrl. rewrite Hl in Hrl.
  injection Hrl as Hrp. destruct Hr as [Hn1 Hk1 Ha1 [[Hs Hlen]|[_ H0]]]; [|by rewrite <- Hrp in H0].
  rewrite Hlen. cbn [Z.eqb INPUT_LENGTH andb].
  eapply safe_bind with (R := fun x => stream_ok x /\ stream_length x = INPUT_LENGTH /\ stream_peer_address x = p).
  - intros s Hsi. eapply wp_mono;
      [apply (Read_invariant OnMessageReceived
         (fun y => inv n q (Some l) o (st y) /\ ext request_ok s y)); [|done|done|split; [done|apply ext_refl]]|].
    + intros m y [Hy Ey] B1 B2 B3 B4 B5. unfold space in B1, B2. rewrite Hlen in B1, B2.
      change (INPUT_LENGTH - METADATA_SIZE) with 22 in B1, B2.
      change (stream_peer_address (input_state r)) with (input_peer_address r). rewrite <- Hrp.
      eapply wp_mono; [apply (OnMessageReceived_ok n q (Some l) o p m); [|split; [split; [lia|done]|done]|done]|].
      * cbn. by eapply list_elem_of_lookup_2.
      * intros _ y' (H1 & E1 & _). split; [done|]. by eapply ext_trans.
    + intros x y (H1 & H2 & H3 & H4 & H5). split; [done|]. split; [done|]. split; [done|].
      split; [by rewrite H2|]. by rewrite H3.
  - intros x (Hx & Hxl & Hxp). apply update_input_at; [done|]. intros r' Hr' Hl'. cbn in Hl'.
    rewrite Hl in Hl'. injection Hl' as Hl'. split; [|right; unfold input_peer_address at 1; cbn; congruence].
    destruct Hr'. split; [done|done| |by left]. unfold input_peer_address. cbn. rewrite Hxp, Hl'. done.
Qed.

End Connections.
