(* ===== verification/Client.v ===== *)
(** The whole provider: initialisation, the entry points the platform and the
    application call, and the runs of the program.

    An [event] is a call of a function of the client's API
    (nearby_fp_client.h), of one of the interfaces handed to the platform
    ([kBleInterface], [kBtInterface], [kBatteryInterface], [kAudioInterface]), or of
    a timer callback.  Between two events the environment is arbitrary. *)

From Stdlib Require Import ZArith Lia.
From stdpp Require Import base list numbers relations.
From S2P Require Import Prelude Utils Platform SecureElement TestPlatform Crypto AccountKeys.
From S2P Require Import MessageStream Advertisement CryptoSafety AdvertisementSafety.
From S2P Require Import ClientState ClientAdvertising ClientPairing ClientStream.
From S2P Require Import ClientInvariant ClientAdvertisingSafety ClientPairingSafety.
From S2P Require Import ClientStreamSafety.
Import Utils.

(** * Initialisation *)

(** The static variables before [main]. *)
Definition zero_list {C : Config} : AccountKeyList :=
  {| num_keys := 0; padding := replicate LIST_PADDING 0;
     key := replicate NEARBY_MAX_ACCOUNT_KEYS zero_key_info |}.

Definition client_0 {C : Config} : client :=
  Client kPairingStateIdle false 0 0 0 0 NEARBY_FP_ADVERTISEMENT_NONE zero_key_info zero_key_info
    0 0 0 0 0 (replicate NEARBY_MAX_RFCOMM_CONNECTIONS zero_rfcomm_input)
    (replicate NEARBY_MAX_RETROACTIVE_PAIRING zero_retro_peer) zero_list.

Section Client.
Context {C : Config} {P : Platform}.

(** [callbacks] tells whether the application passes an event handler. *)
Definition nearby_fp_client_Init (callbacks : bool) : M client nearby_platform_status :=
  do! modify (set_on_event_set callbacks) in
  do! modify (set_pairing_state kPairingStateIdle) in
  do! modify (set_pairing_failure_count 0) in
  do! modify (set_rfcomm_inputs (replicate NEARBY_MAX_RFCOMM_CONNECTIONS zero_rfcomm_input)) in
  do! modify (set_advertisement_mode NEARBY_FP_ADVERTISEMENT_NONE) in
  do! modify (set_address_rotation_task 0) in
  do! modify (set_peer_public_address 0) in
  do! DiscardPendingAccountKey in
  return_if_error! nearby_platform_OsInit in
  return_if_error! nearby_platform_SecureElementInit in
  return_if_error! nearby_platform_BtInit in
  return_if_error! nearby_platform_BleInit in
  return_if_error! nearby_platform_PersistenceInit in
  return_if_error! nearby_platform_BatteryInit in
  let! ' (status, l) := nearby_fp_LoadAccountKeys in
  do! modify (set_account_key_list l) in
  if negb (status_ok status) then mret status else
  let! status :=
    if NEARBY_FP_ENABLE_SASS then
      do! SetCustomData 0 in nearby_platform_AudioInit
    else mret status in
  if negb (status_ok status) then mret status else
  do! ClientAdvertising.RotateBleAddress in
  mret status.

(** * Events *)

Inductive event : Type :=
(* nearby_fp_client.h *)
| Init (callbacks : bool)
| SetAdvertisementMode (mode : Z)
| SetSilenceMode (peer_address : Z) (enable : bool)
| SignalLogBufferFull (peer_address : Z)
| SendMessage (peer_address : Z) (m : nearby_message_stream_Message)
| SendAck (peer_address group code : Z)
| SendNack (peer_address group code fail_reason : Z)
| GetSeekerInfo (capacity : nat)
(* kBleInterface *)
| GattWrite (peer_address : Z) (characteristic : nearby_fp_Characteristic) (request : list Z)
| GattRead (peer_address : Z) (characteristic : nearby_fp_Characteristic) (output : list Z)
(* kBtInterface *)
| PairingRequest (peer_address : Z)
| Paired (peer_address : Z)
| PairingFailed (peer_address : Z)
| StreamConnected (peer_address : Z)
| StreamDisconnected (peer_address : Z)
| StreamReceived (peer_address : Z) (data : list Z)
(* kBatteryInterface, kAudioInterface *)
| BatteryChanged
| AudioStateChange
| MultipointSwitch (reason peer_address : Z) (name : option (list Z))
(* timers *)
| Timer (callback : timer_callback).

(** [void] of a handler's result. *)
Definition ignore {A} (m : M client A) : M client unit := do! m in mret tt.

Definition handle (e : event) : M client unit :=
  match e with
  | Init callbacks => ignore (nearby_fp_client_Init callbacks)
  | SetAdvertisementMode mode => ignore (nearby_fp_client_SetAdvertisement mode)
  | SetSilenceMode p enable => ignore (nearby_fp_client_SetSilenceMode p enable)
  | SignalLogBufferFull p => ignore (nearby_fp_client_SignalLogBufferFull p)
  | SendMessage p m => ignore (nearby_fp_client_SendMessage p m)
  | SendAck p group code => ignore (nearby_fp_client_SendAck p group code)
  | SendNack p group code reason => ignore (nearby_fp_client_SendNack p group code reason)
  | GetSeekerInfo capacity => ignore (nearby_fp_client_GetSeekerInfo capacity)
  | GattWrite p ch request => ignore (OnGattWrite p ch request)
  | GattRead p ch output => ignore (OnGattRead p ch output (length output))
  | PairingRequest p => OnPairingRequest p
  | Paired p => OnPaired p
  | PairingFailed p => OnPairingFailed p
  | StreamConnected p => OnMessageStreamConnected p
  | StreamDisconnected p => OnMessageStreamDisconnected p
  | StreamReceived p data => OnMessageStreamReceived p data
  | BatteryChanged => OnBatteryChanged
  | AudioStateChange => OnAudioStateChange
  | MultipointSwitch reason p name => OnMultipointSwitchEvent reason p name
  | Timer DiscardPendingAccountKey_cb => DiscardPendingAccountKey
  | Timer MaybeRotateBleAddress_cb => MaybeRotateBleAddress
  end.

(** What the caller of an entry point has to respect: 64 bit addresses, bytes, a
    message with its data, an output buffer of at least three bytes, a connected
    peer that is not the invalid address, an additional data packet of 17 to 80
    bytes; the audio interface exists only with SASS. *)
Definition event_ok (e : event) : Prop :=
  match e with
  | SendMessage _ m => sendable m
  | GattWrite p ch request =>
    is_u64 p /\ bytes_ok request /\ (ch = kAdditionalData -> data_packet_ok request)
  | GattRead _ _ output => bytes_ok output /\ (3 <= length output)%nat
  | PairingRequest p | Paired p | StreamConnected p => is_u64 p
  | StreamReceived p data => p <> INVALID_PEER_ADDRESS /\ bytes_ok data
  | AudioStateChange => NEARBY_FP_ENABLE_SASS = true
  | MultipointSwitch _ _ name => from_option bytes_ok True name
  | _ => True
  end.

(** One event in an arbitrary environment, and the states of a run that starts
    with the static variables at zero. *)
Inductive step (s s' : sys client) : Prop :=
| step_event e w :
    event_ok e -> handle e (Sys (st s) w (log s)) = Done (tt, s') -> step s s'.

Definition reachable (s : sys client) : Prop :=
  exists w, rtc step (Sys client_0 w []) s.

(** * The pairing protocol

    The states a handler may lead to, as a function of the event. *)
Inductive pairing_transition : event -> PairingState -> PairingState -> Prop :=
| stay e x : pairing_transition e x x
| boot callbacks x : pairing_transition (Init callbacks) x kPairingStateIdle
| seeker_starts p request x :
    pairing_transition (GattWrite p kKeyBasedPairing request) x kPairingStateWaitingForPairingRequest
| provider_starts p request x :
    pairing_transition (GattWrite p kKeyBasedPairing request) x kPairingStateWaitingForPasskey
| action_request p request x :
    pairing_transition (GattWrite p kKeyBasedPairing request) x kPairingStateWaitingForAdditionalData
| pairing_requested p :
    pairing_transition (PairingRequest p) kPairingStateWaitingForPairingRequest
      kPairingStateWaitingForPasskey
| pairing_request_late p :
    pairing_transition (PairingRequest p) kPairingStateWaitingForPairingRequest kPairingStateIdle
| passkey_checked p request :
    pairing_transition (GattWrite p kPasskey request) kPairingStateWaitingForPasskey
      kPairingStateWaitingForPairingResult
| paired p :
    pairing_transition (Paired p) kPairingStateWaitingForPairingResult
      kPairingStateWaitingForAccountKeyWrite
| paired_with_pending_key p x :
    pairing_transition (Paired p) x kPairingStateWaitingForAdditionalData
| account_key_written p request x :
    pairing_transition (GattWrite p kAccountKey request) x kPairingStateWaitingForAdditionalData
| name_written p request :
    pairing_transition (GattWrite p kAdditionalData request) kPairingStateWaitingForAdditionalData
      kPairingStateIdle.

End Client.

(** * Storage

    What the platform loads as the account key list is nothing (first boot) or the
    image of a valid list.  [Client_storage_valid] below shows that nothing else is
    ever saved. *)
Class StoredListSpec (C : Config) (P : Platform) : Prop :=
  stored_list : forall n w,
    let b := resp_bytes (fst (call (PERSISTENCE (LoadValue kStoredKeyAccountKeyList n)) w)) in
    b = [] \/ exists l, list_ok l /\ list_nodup l /\ b = list_image l.

(** A test platform in the state of the first boot. *)
Definition first_boot_platform : Platform := {|
  world := test_world;
  call := fun r w => match r with
    | PERSISTENCE (LoadValue kStoredKeyAccountKeyList _) => (ok_response, w)
    | _ => test_call r w
    end;
  garbage := fun _ n => replicate n 0xEE;
|}.

#[export] Instance first_boot_stored C : StoredListSpec C first_boot_platform.
Proof. intros n w. by left. Qed.
#[export, program] Instance first_boot_aes : AesSpec first_boot_platform := {|
  aes := toy_aes;
  aes_inv := toy_aes;
  aes_length := toy_aes_length;
  aes_ok := toy_aes_ok;
  aes_inv_length := toy_aes_length;
  aes_inv_ok := toy_aes_ok;
  aes_inv_aes := toy_aes_inv;
|}.
Solve Obligations with done.
#[export, program] Instance first_boot_sha256 : Sha256Spec first_boot_platform := {|
  sha256 := toy_sha256;
  sha256_length := toy_sha256_length;
  sha256_ok := toy_sha256_ok;
  hashed := tw_hashed;
|}.
Solve Obligations with done.

#[export, program] Instance first_boot_secret : SecretSpec first_boot_platform := {|
  shared_secret := fun k => Some (fit 32 k);
|}.
Next Obligation. intros pk d [= <-]. apply fit_length. Qed.
Next Obligation. intros pk d [= <-]. apply fit_ok. Qed.
Next Obligation. done. Qed.

#[export] Instance first_boot_bitmap C : BitmapSpec C first_boot_platform.
Proof. intros _ n w. cbn. lia. Qed.

Section Boot.
Context {C : Config}.

Lemma zero_list_ok : list_ok zero_list /\ list_nodup zero_list.
Proof.
  split; [|by apply NoDup_nil_2]. split; cbn.
  - unfold NEARBY_MAX_ACCOUNT_KEYS. lia.
  - done.
  - split; [apply length_replicate|]. apply bytes_ok_replicate. unfold is_byte. lia.
  - apply (Forall_replicate key_ok 5). apply zero_key_info_ok.
Qed.

Lemma zero_list_image : list_image zero_list = replicate GetAccountKeyListUsedSize 0.
Proof.
  unfold list_image, zero_list, GetAccountKeyListUsedSize, LIST_PADDING, ACCOUNT_KEY_INFO_SIZE, info_image.
  cbn [num_keys padding key]. by destruct NEARBY_FP_ENABLE_SASS.
Qed.

Lemma info_visible_ok k : key_ok k -> key_ok (info_visible k) /\ abs_key (info_visible k) = abs_key k.
Proof.
  unfold info_visible, key_ok, abs_key. intros (? & ? & ?). destruct NEARBY_FP_ENABLE_SASS; [done|].
  cbn. split; [|done]. split; [done|]. split; [done|lia].
Qed.

Lemma list_visible_ok l :
  list_ok l -> list_nodup l -> list_ok (list_visible l) /\ list_nodup (list_visible l).
Proof.
  intros [Hc Hl Hp Hk] Hn. split.
  - split; cbn [num_keys padding key list_visible set_key]; [done|by rewrite length_fmap|done|].
    apply Forall_fmap. eapply Forall_impl; [exact Hk|]. intros k Hk'. by apply info_visible_ok.
  - unfold list_nodup, abs_list, keys_in_use in *. cbn [num_keys key list_visible set_key].
    rewrite <- fmap_take, <- list_fmap_compose.
    erewrite list_fmap_ext; [exact Hn|]. intros i k Hi. cbn. apply info_visible_ok.
    eapply Forall_lookup_1; [exact Hk|]. by apply lookup_take_Some in Hi as [? _].
Qed.

(** The list that is in memory after a load. *)
Lemma loaded_list_ok b :
  b = [] \/ (exists l, list_ok l /\ list_nodup l /\ b = list_image l) ->
  let b' := fit_upto GetAccountKeyListUsedSize b in
  let l := list_of_image (b' ++ replicate (GetAccountKeyListUsedSize - length b') 0) in
  list_ok l /\ list_nodup l.
Proof.
  assert (forall l, list_ok l -> list_nodup l ->
    list_ok (list_of_image (list_image l)) /\ list_nodup (list_of_image (list_image l))) as H.
  { intros l Hl Hn. rewrite list_of_image_image by done. by apply list_visible_ok. }
  intros [->|(l & Hl & Hn & ->)]; cbv zeta.
  - cbn [fit_upto take fmap list_fmap app length]. unfold fit_upto. rewrite take_nil. cbn [fmap list_fmap app length].
    rewrite Nat.sub_0_r, <- zero_list_image. destruct zero_list_ok. by apply H.
  - rewrite fit_upto_id by (auto using list_image_ok; by rewrite list_image_length).
    rewrite list_image_length by done. rewrite Nat.sub_diag, app_nil_r. by apply H.
Qed.

Lemma zero_input_ok : input_ok zero_rfcomm_input.
Proof.
  split; [| | |by right].
  - split; [done|]. apply bytes_ok_replicate. unfold is_byte. lia.
  - split; [done|]. apply bytes_ok_replicate. unfold is_byte. lia.
  - unfold is_u64. cbn. lia.
Qed.

Lemma zero_table_ok : Forall input_ok (replicate NEARBY_MAX_RFCOMM_CONNECTIONS zero_rfcomm_input).
Proof. apply Forall_replicate, zero_input_ok. Qed.

Lemma client_0_ok : client_ok client_0.
Proof.
  destruct zero_list_ok. pose proof zero_table_ok. pose proof zero_key_info_ok.
  split; try done; try (unfold is_u32, is_u64, is_byte, MAX_PAIRING_FAILURE_COUNT; cbn; lia).
Qed.

Context {P : Platform} {St : StoredListSpec C P}.

Lemma LoadAccountKeys_ok (I : client -> Prop) :
  safe request_ok I nearby_fp_LoadAccountKeys (fun r => list_ok (snd r) /\ list_nodup (snd r)).
Proof.
  intros s Hs. unfold nearby_fp_LoadAccountKeys. apply wp_bind, wp_hal_map_call, wp_ret.
  cbn [st env log snd]. split; [done|]. split; [by apply ext_call|].
  apply loaded_list_ok, stored_list.
Qed.

Lemma Init_ok (q : PairingState -> Prop) o callbacks :
  q kPairingStateIdle -> (forall d, listed o d) ->
  safe request_ok (inv 10 q None o) (nearby_fp_client_Init callbacks) (fun _ => True).
Proof.
  intros Hq Ho. unfold nearby_fp_client_Init.
  step ltac:(apply safe_modify; keep_inv). intros _ _.
  step ltac:(by apply set_pairing_state_ok). intros _ _.
  step ltac:(apply safe_modify; intros ? [[] (? & ? & ?)]; split;
    [split; cbn; auto; unfold MAX_PAIRING_FAILURE_COUNT; lia|split; [cbn; lia|done]]). intros _ _.
  step ltac:(pose proof zero_table_ok; apply safe_modify; keep_inv). intros _ _.
  step ltac:(apply set_mode_ok). intros _ _. step ltac:(apply set_rotation_task_ok). intros _ _.
  step ltac:(apply set_peer_public_ok; unfold is_u64; lia). intros _ _.
  step ltac:(apply DiscardPendingAccountKey_ok). intros _ _.
  do 6 (step_hal; on_status).
  step ltac:(apply LoadAccountKeys_ok). intros [status l] [Hl Hn]. cbn [snd] in *.
  step ltac:(apply set_list_ok; [done|done|by apply Forall_true]). intros _ _. on_status.
  eapply safe_bind with (R := fun _ => True).
  { on_if. step ltac:(apply set_custom_ok; unfold is_byte; lia). intros _ _. by apply safe_hal. }
  intros status' _. on_status. step ltac:(apply RotateBleAddress_ok). intros _ _. by apply safe_ret.
Qed.

End Boot.

(** * Every handler is safe *)
Section Runs.
Context {C : Config} {P : Platform} {B : BitmapSpec C P} {St : StoredListSpec C P}.

Lemma ignore_ok (I : client -> Prop) {A} (m : M client A) R :
  safe request_ok I m R -> safe request_ok I (ignore m) (fun _ => True).
Proof. intros Hm. unfold ignore. step ltac:(exact Hm). intros r _. by apply safe_ret. Qed.

(** The keys an event may add to the list, or keep until the pairing completes. *)
Definition adds_keys (e : event) (o : key_origins) : Prop :=
  match e with
  | Init _ => forall d, listed o d
  | GattWrite _ kAccountKey _ => forall d, listed o d /\ awaited o d
  | Paired _ => forall d, awaited o d -> listed o d
  | _ => True
  end.

Lemma GattWrite_ok p ch request x o :
  event_ok (GattWrite p ch request) -> adds_keys (GattWrite p ch request) o ->
  safe request_ok (inv 10 (pairing_transition (GattWrite p ch request) x) None o)
    (OnGattWrite p ch request) (fun _ => True).
Proof.
  intros (Hp & Hb & Hd) Ho. unfold OnGattWrite. destruct ch; try by apply safe_ret.
  - apply OnWriteKeyBasedPairing_ok; [done|]. split; [constructor|split; constructor].
  - apply OnPasskeyWrite_ok. inversion 1; subst; constructor.
  - apply OnAccountKeyWrite_ok; [done|exact Ho|constructor].
  - apply OnAdditionalDataWrite_ok; [by apply Hd|]. inversion 1; subst; constructor.
Qed.

Lemma handle_ok e x o :
  event_ok e -> adds_keys e o ->
  safe request_ok (inv 10 (pairing_transition e x) None o) (handle e) (fun _ => True).
Proof.
  intros He Ho. destruct e; cbn [handle event_ok] in *; try (eapply ignore_ok with (R := fun _ => True)).
  - apply Init_ok; [constructor|exact Ho].
  - apply SetAdvertisement_ok.
  - apply SetSilenceMode_ok.
  - apply SignalLogBufferFull_ok.
  - by apply Send_ok.
  - apply SendAck_ok.
  - apply SendNack_ok.
  - unfold nearby_fp_client_GetSeekerInfo. step_gets. by apply safe_ret.
  - by apply GattWrite_ok.
  - destruct He as [Hb Hl]. eapply (OnGattRead_ok _ _ _ _ _ _ (length output)); [by split|lia].
  - apply OnPairingRequest_ok; [done|]. inversion 1; subst; split; constructor.
  - apply OnPaired_ok; [done|exact Ho|constructor|]. inversion 1; subst; constructor.
  - apply OnPairingFailed_ok.
  - by apply OnMessageStreamConnected_ok.
  - apply OnMessageStreamDisconnected_ok.
  - destruct He. by apply OnMessageStreamReceived_ok.
  - apply OnBatteryChanged_ok.
  - by apply UpdateAndNotifySass_ok.
  - by apply OnMultipointSwitchEvent_ok.
  - destruct callback; [apply DiscardPendingAccountKey_ok|apply MaybeRotateBleAddress_ok].
Qed.

(** One event from a valid state. *)
Lemma handle_wp e s :
  event_ok e -> client_ok (st s) ->
  wp (handle e) (fun _ s' => client_ok (st s') /\ ext request_ok s s'
    /\ pairing_transition e (pairing_state (st s)) (pairing_state (st s'))) s.
Proof.
  intros He Hs. eapply wp_mono; [apply (handle_ok e (pairing_state (st s)) any_origin He)|].
  - by destruct e as [| | | | | | | | ? [] ?| | | | | | | | | | |].
  - split; [done|]. split; [by destruct (ok_failures _ Hs)|]. split; [constructor|]. split; [done|apply keys_any].
  - intros _ s' ((H1 & _ & H3 & _) & E & _). done.
Qed.

Lemma step_ok s s' : step s s' -> client_ok (st s) -> client_ok (st s') /\ ext request_ok s s'.
Proof.
  intros [e w He E] Hs. pose proof (handle_wp e (Sys (st s) w (log s)) He Hs) as H.
  unfold wp in H. rewrite E in H. by destruct H as (? & ? & _).
Qed.

Lemma reachable_ok s : reachable s -> client_ok (st s) /\ Forall (fun e => request_ok (fst e)) (log s).
Proof.
  intros [w Hr]. remember (Sys client_0 w []) as s0 eqn:E0.
  assert (client_ok (st s0) /\ Forall (fun e => request_ok (fst e)) (log s0)) as H0
    by (subst; split; [apply client_0_ok|by constructor]).
  clear E0. induction Hr as [s|s s1 s2 Hs _ IH]; [done|]. apply IH. destruct H0 as [Hc Hl].
  destruct (step_ok _ _ Hs Hc) as [Hc1 (l & -> & Hf)]. split; [done|]. by apply Forall_app.
Qed.

(** C1. Within the limits below no entry point fails an assertion or touches memory
    outside its object: in every state that events within these limits lead to, and
    however the environment changed in between, each event within them is handled to
    the end.  The limits of the events ([event_ok]): peer addresses have 64 bits and
    data consists of bytes, a packet written to the additional data characteristic
    has 17 to 80 bytes, the buffer of a read has at least 3, a message to send has
    its data, a stream's peer is not the invalid address, audio events come only
    with SASS.  The limits of the answers: the stored account keys are none or what
    the provider may have saved ([StoredListSpec]), and with SASS the connection
    bitmap has at most 3 bytes ([BitmapSpec]).  They are needed: an additional data
    packet of 16 bytes fails an assertion and one of 81 overflows the name
    (additional_data_limits), and the 4 bytes of bitmap that the header allows can
    overflow the advertisement (wide_bitmap_crashes). *)
Theorem Client_handlers_return s e w :
  reachable s -> event_ok e -> exists s', handle e (Sys (st s) w (log s)) = Done (tt, s').
Proof.
  intros Hr He. destruct (reachable_ok s Hr) as [Hc _].
  pose proof (handle_wp e (Sys (st s) w (log s)) He Hc) as H. unfold wp in H.
  destruct (handle e _) as [[[] s']| |]; [by exists s'|done|done].
Qed.

(** C4. The static variables are well formed in every reachable state: at most
    ten pairing failures are counted, the account key list is within its bounds
    and holds no key twice, every buffer of the connection table has its size and
    a valid parser, and clocks and addresses have their width. *)
Theorem Client_invariant s : reachable s -> client_ok (st s).
Proof. intros Hr. by destruct (reachable_ok s Hr). Qed.

(** C17. Every image the provider ever writes to persistent storage as its account
    key list is the image of a valid list without duplicates, so that a restart
    loads a valid list. *)
Theorem Client_storage_valid s b resp :
  reachable s -> (PERSISTENCE (SaveValue kStoredKeyAccountKeyList b), resp) ∈ log s ->
  exists l, list_ok l /\ list_nodup l /\ b = list_image l.
Proof.
  intros Hr Hin. destruct (reachable_ok s Hr) as [_ Hl].
  rewrite Forall_forall in Hl. by apply (Hl _ Hin).
Qed.

(** C16. Every call the provider ever makes to the platform outside the secure
    element has arguments the platform can rely on: an advertisement is empty when
    advertising is disabled and otherwise a sequence of AD structures of the size of
    its mode, a notification has the size of its characteristic, the address a
    pairing request is sent to has 48 bits, a BLE address that is set has 48 bits of
    which the highest are 01, the form of a resolvable private address, a passkey
    has 24 bits, a device name has at most 64 characters and no NUL, messages
    are bytes, timers are started with a positive delay, and what is saved as the
    key list is the image of a valid list.  Events and answers are within the limits
    of [event_ok], [StoredListSpec] and [BitmapSpec]. *)
Theorem Client_requests_typed s r resp :
  reachable s -> (r, resp) ∈ log s -> request_ok r.
Proof.
  intros Hr Hin. destruct (reachable_ok s Hr) as [_ Hl].
  rewrite Forall_forall in Hl. by apply (Hl _ Hin).
Qed.

(** C12. The handlers refine the pairing protocol: in a run, the pairing state
    changes only along the transitions of [pairing_transition].  The provider
    waits for the pairing result only after a passkey written while it waited for
    one, and for an account key only after a pairing that followed. *)
Theorem Client_pairing_protocol s e w s' :
  reachable s -> event_ok e -> handle e (Sys (st s) w (log s)) = Done (tt, s') ->
  pairing_transition e (pairing_state (st s)) (pairing_state (st s')).
Proof.
  intros Hr He E. destruct (reachable_ok s Hr) as [Hc _].
  pose proof (handle_wp e (Sys (st s) w (log s)) He Hc) as H. unfold wp in H. rewrite E in H.
  by destruct H as (_ & _ & ?).
Qed.

End Runs.

(** * Runs on the test platform *)

(** The events in turn, the environment changing only through the handlers. *)
Fixpoint run {C : Config} {P : Platform} (es : list event) (s : sys client) : outcome (sys client) :=
  match es with
  | [] => Done s
  | e :: es => let! ' (_, s) := handle e s in run es s
  end.

Lemma run_steps {C : Config} {P : Platform} es s s' :
  Forall event_ok es -> run es s = Done s' -> rtc step s s'.
Proof.
  intros Hes. revert s. induction Hes as [|e es He _ IH]; intros s H; cbn [run] in H.
  { by injection H as ->. }
  apply bind_done_inv in H as ([[] s1] & E & H). eapply rtc_l; [|by apply IH].
  apply (step_event _ _ e (env s)); [exact He|]. by destruct s.
Qed.

(** First boot, a phone pairs over Bluetooth and writes its account key
    retroactively. *)
Definition test_account_key : list Z := [4; 1; 2; 3; 4; 5; 6; 7; 8; 9; 10; 11; 12; 13; 14; 15].
Definition test_events : list event :=
  [Init true; Paired 0xB0B1B2B3B4B5; GattWrite 0xB0B1B2B3B4B5 kAccountKey test_account_key].

Definition start_sys : @sys first_boot_platform client :=
  @Sys first_boot_platform client (client_0 (C:=sass_config)) test_world_0 [].
Definition test_run : @sys first_boot_platform client :=
  match run (C:=sass_config) (P:=first_boot_platform) test_events start_sys with
  | Done s => s
  | _ => start_sys
  end.

Lemma test_events_ok : Forall (event_ok (C:=sass_config)) test_events.
Proof. by repeat constructor. Qed.

Lemma test_run_reachable : reachable (C:=sass_config) (P:=first_boot_platform) test_run.
Proof.
  exists test_world_0. unfold test_run. destruct (run test_events start_sys) as [s| |] eqn:E.
  - by apply (run_steps test_events); [apply test_events_ok|].
  - apply rtc_refl.
  - apply rtc_refl.
Qed.

(** The state after a handler that is known to return. *)
Definition after {P : Platform} {S} (d : sys S) (o : outcome (unit * sys S)) : sys S :=
  match o with Done (_, s) => s | _ => d end.
Definition returns {A} (o : outcome A) : bool := match o with Done _ => true | _ => false end.

Lemma after_done {P : Platform} {S} (d : sys S) o : returns o = true -> o = Done (tt, after d o).
Proof. by destruct o as [[[] s]| |]. Qed.

(** The state after an event in the environment of [s]. *)
Definition deliver {C : Config} {P : Platform} (e : event) (s : sys client) : sys client :=
  after s (handle e (Sys (st s) (env s) (log s))).

Lemma deliver_done {C : Config} {P : Platform} e s :
  returns (handle e (Sys (st s) (env s) (log s))) = true ->
  handle e (Sys (st s) (env s) (log s)) = Done (tt, deliver e s).
Proof. apply after_done. Qed.

Lemma deliver_here {C : Config} {P : Platform} e s :
  returns (handle e s) = true -> handle e s = Done (tt, deliver e s).
Proof. destruct s. apply after_done. Qed.

Lemma Client_handlers_return_witness :
  exists s', handle (C:=sass_config) (P:=first_boot_platform) (SetAdvertisementMode 0x2E)
    (@Sys first_boot_platform client (st test_run) (set_tw_ble_address 1 test_world_0) (log test_run))
    = Done (tt, s').
Proof.
  apply (Client_handlers_return (C:=sass_config) (P:=first_boot_platform) test_run
    (SetAdvertisementMode 0x2E) (set_tw_ble_address 1 test_world_0)).
  - exact test_run_reachable.
  - exact I.
Defined.

Lemma Client_invariant_witness :
  num_keys (account_key_list (st test_run)) = 1 /\ client_ok (C:=sass_config) (st test_run).
Proof.
  split; [vm_compute; reflexivity|].
  apply (Client_invariant (P:=first_boot_platform)). exact test_run_reachable.
Defined.

Definition test_image : list Z := list_image (C:=sass_config) (account_key_list (st test_run)).

Lemma Client_storage_valid_witness :
  exists l, list_ok (C:=sass_config) l /\ list_nodup (C:=sass_config) l /\ test_image = list_image (C:=sass_config) l.
Proof.
  apply (Client_storage_valid (C:=sass_config) (P:=first_boot_platform) test_run test_image ok_response).
  - exact test_run_reachable.
  - apply (list_elem_of_lookup_2 _ 0%nat). vm_compute. reflexivity.
Defined.

(** The advertisement of the run after a change of mode. *)
Definition advertising_run : @sys first_boot_platform client :=
  deliver (C:=sass_config) (SetAdvertisementMode 0x2E) test_run.
Definition advertised : list Z :=
  [21; 22; 44; 254; 16; 64; 0; 2; 0; 2; 33; 171; 171; 52; 213; 208; 218; 70; 206; 159; 18; 122;
   2; 10; 33].

Lemma advertising_run_reachable : reachable (C:=sass_config) (P:=first_boot_platform) advertising_run.
Proof.
  destruct test_run_reachable as [w Hr]. exists w. eapply rtc_r; [exact Hr|].
  apply (step_event _ _ (SetAdvertisementMode 0x2E) (env test_run)); [exact I|].
  apply (deliver_done (P:=first_boot_platform)). vm_compute. reflexivity.
Qed.

Lemma Client_requests_typed_witness :
  request_ok (C:=sass_config) (BLE (SetAdvertisement advertised kNoLargerThan250ms)).
Proof.
  apply (Client_requests_typed (C:=sass_config) (P:=first_boot_platform) advertising_run
    (BLE (SetAdvertisement advertised kNoLargerThan250ms)) ok_response).
  - exact advertising_run_reachable.
  - apply (list_elem_of_lookup_2 _ 0%nat). vm_compute. reflexivity.
Defined.

Definition test_name_write : event := GattWrite 7 kAdditionalData (replicate 20 0).
Definition after_name_write : @sys first_boot_platform client :=
  after test_run (handle (C:=sass_config) test_name_write
    (@Sys first_boot_platform client (st test_run) test_world_0 (log test_run))).

Lemma Client_pairing_protocol_witness :
  pairing_state (st test_run) = kPairingStateWaitingForAdditionalData
  /\ pairing_state (st after_name_write) = kPairingStateIdle
  /\ pairing_transition test_name_write (pairing_state (st test_run)) (pairing_state (st after_name_write)).
Proof.
  split; [vm_compute; reflexivity|]. split; [vm_compute; reflexivity|].
  apply (Client_pairing_protocol (C:=sass_config) (P:=first_boot_platform) test_run test_name_write
    test_world_0 after_name_write).
  - exact test_run_reachable.
  - split; [unfold is_u64; lia|]. split; [by apply bytes_ok_true|]. intros _.
    split; [by apply bytes_ok_true|]. split; by apply Nat.leb_le.
  - apply (after_done (P:=first_boot_platform)). vm_compute. reflexivity.
Defined.
