(* ===== verification/ClientTheorems.v ===== *)
(** What the handlers of the provider do: the lock after failed requests, the
    authentication of requests, passkeys and account keys, the authentication of
    SASS commands, address rotation, and the connection table. *)

From Stdlib Require Import ZArith Lia.
From stdpp Require Import base list numbers.
From S2P Require Import Prelude Utils Platform SecureElement TestPlatform Crypto AccountKeys.
From S2P Require Import MessageStream Advertisement CryptoSafety AdvertisementSafety.
From S2P Require Import ClientState ClientAdvertising ClientPairing ClientStream.
From S2P Require Import ClientInvariant ClientAdvertisingSafety ClientPairingSafety.
From S2P Require Import ClientStreamSafety Client.
Import Utils.

(** Time since [start] at a clock reading [now], on the 32 bit clock. *)
Definition elapsed (now start : Z) : Z := u32 (now - start).

Section PairingTheorems.
Context {C : Config} {P : Platform}.

(** The platform's clock. *)
Definition clock (w : world) : Z :=
  u32 (resp_value (fst (call (OS GetCurrentTimeMs) w))).

(** The state after reading the clock. *)
Definition tick (s : sys client) : sys client :=
  let '(resp, w) := call (OS GetCurrentTimeMs) (env s) in
  Sys (st s) w ((OS GetCurrentTimeMs, resp) :: log s).

Lemma tick_st s : st (tick s) = st s.
Proof. unfold tick. by destruct (call _ _). Qed.

Lemma now_run s : nearby_platform_GetCurrentTimeMs s = Done (clock (env s), tick s).
Proof.
  unfold nearby_platform_GetCurrentTimeMs, hal_map, hal, clock, tick, mbind, M_bind, mret, M_ret.
  by destruct (call _ _).
Qed.

Lemma bind_run {A X} (m : M client A) (k : A -> M client X) s a s' :
  m s = Done (a, s') -> mbind k m s = k a s'.
Proof. unfold mbind, M_bind. by intros ->. Qed.

(** ** The lock *)

(** After ten failed key-based pairing requests, the provider ignores every
    further one for five minutes: it reads the clock, and nothing else happens. *)
Theorem OnWriteKeyBasedPairing_lockout s p request :
  MAX_PAIRING_FAILURE_COUNT <= pairing_failure_count (st s) ->
  elapsed (clock (env s)) (reject_pairing_time_start_ms (st s)) < REJECT_PAIRING_TIMEOUT_MS ->
  OnWriteKeyBasedPairing p request s = Done (kNearbyStatusOK, tick s).
Proof.
  intros Hn Ht. unfold OnWriteKeyBasedPairing.
  assert (pairing_locked s = Done (true, tick s)) as E; [|by rewrite (bind_run _ _ _ _ _ E)].
  unfold pairing_locked. rewrite (bind_run _ _ s (pairing_failure_count (st s)) s eq_refl).
  rewrite (proj2 (Z.leb_le _ _)) by done. rewrite (bind_run _ _ _ _ _ (now_run s)).
  rewrite (bind_run _ _ _ (reject_pairing_time_start_ms (st s)) (tick s))
    by (unfold gets; by rewrite tick_st).
  unfold elapsed in Ht. by rewrite (proj2 (Z.ltb_lt _ _)) by done.
Qed.

(** ** Requests nobody can authenticate *)

(** The addresses the handler compares with, as the platform gives them. *)
Definition ble_address (w : world) : list Z :=
  be_bytes 6 (u64 (resp_value (fst (call (BLE GetBleAddress) w)))).
Definition public_address (w : world) : list Z :=
  be_bytes 6 (u64 (resp_value (fst (call (BT GetPublicAddress)
    (snd (call (BLE GetBleAddress) w)))))).

(** A decrypted request names the device. *)
Definition names_device (w : world) (d : list Z) : Prop :=
  take 6 (drop 2 d) = ble_address w \/ take 6 (drop 2 d) = public_address w.

(** Requests to the platform that nobody outside can observe. *)
Definition silent (r : hal_request) : Prop :=
  match r with
  | SE _ | BLE GetBleAddress | BT GetPublicAddress | OS GetCurrentTimeMs => True
  | _ => False
  end.

(** The counter after a failure, and the time of the tenth. *)
Definition rejected (t : Z) (c : client) : client :=
  let n := pairing_failure_count c + 1 in
  let c := set_pairing_failure_count n c in
  if n =? MAX_PAIRING_FAILURE_COUNT then set_reject_pairing_time_start_ms t c else c.

Lemma AccountKeyRejected_run s :
  0 <= pairing_failure_count (st s) < MAX_PAIRING_FAILURE_COUNT ->
  wp AccountKeyRejected (fun _ s' => ext silent s s' /\ exists t, st s' = rejected t (st s)) s.
Proof.
  unfold MAX_PAIRING_FAILURE_COUNT. intros Hn. unfold AccountKeyRejected, rejected, MAX_PAIRING_FAILURE_COUNT.
  apply wp_bind, wp_gets, wp_bind, wp_modify. rewrite u8_id by (unfold is_byte; lia).
  destruct (_ =? 10).
  - apply wp_bind, wp_hal_map. intros resp w. apply wp_modify. cbn [st env log].
    split; [by apply ext_call|]. by eexists.
  - apply wp_ret. split; [by exists []|]. by exists 0.
Qed.

Lemma address_matches_names ba pa d :
  length ba = 6%nat -> length pa = 6%nat ->
  address_matches ba pa d = true -> take 6 (drop 2 d) = ba \/ take 6 (drop 2 d) = pa.
Proof.
  intros Hb Hp. unfold address_matches, BtAddressMatch, BT_ADDRESS_LENGTH, REQUEST_BT_ADDRESS_OFFSET.
  rewrite !take_ge with (l := ba), !take_ge with (l := pa) by lia.
  intros [E|E]%orb_true_iff; apply bytes_eqb_eq in E; [by left|by right].
Qed.

Context {Aes : AesSpec P}.

(** Without a match the search leaves the state alone. *)
Lemma match_account_key_none k i p request ba pa : forall s,
  list_ok (account_key_list (st s)) -> 0 <= i -> i + Z.of_nat k <= num_keys (account_key_list (st s)) ->
  (forall x, x ∈ keys_in_use (account_key_list (st s)) ->
     address_matches ba pa (aes_inv (account_key x) request) = false) ->
  wp (match_account_key k i p request ba pa) (fun r s' => r = NoMatch /\ quiet silent s s') s.
Proof.
  revert i. induction k as [|k IH]; intros i s Hok Hi Hk Hno; [by apply wp_ret|].
  cbn [match_account_key]. apply wp_bind, wp_gets.
  destruct (GetAccountKey_done _ i Hok) as (x & E & Hx & _); [lia|].
  apply wp_bind. eapply wp_lift; [exact E|].
  apply wp_bind. eapply wp_effects; [apply Aes128Decrypt_effects|]. intros [st d] s1 Hq [= -> ->].
  rewrite Hno by (by eapply list_elem_of_lookup_2). cbn [status_ok negb].
  destruct Hq as [E1 Hx1]. eapply wp_mono; [apply IH; rewrite ?E1; [done|lia|lia|done]|].
  intros r s2 [-> Hq2]. split; [done|]. transitivity s1; [|done].
  split; [done|]. eapply ext_mono; [|exact Hx1]. by intros [].
Qed.

Lemma copy_address output a :
  length output = 6%nat -> nearby_utils_CopyBigEndian output 0 a 6 = Done (be_bytes 6 a).
Proof.
  intros Hl. rewrite CopyBigEndian_spec by lia. rewrite write_bytes_tail by (rewrite ?be_bytes_length; lia).
  by rewrite take_0.
Qed.

(** A request when pairing is not locked: the search for its key, and what follows
    it. *)
Lemma OnWriteKeyBasedPairing_search s p request Q :
  pairing_failure_count (st s) < MAX_PAIRING_FAILURE_COUNT ->
  let ba := ble_address (env s) in
  let pa := public_address (env s) in
  (forall s0, st s0 = st s -> ext silent s s0 ->
     wp (if (length request =? ENCRYPTED_REQUEST_LENGTH + PUBLIC_KEY_LENGTH)%nat
         then match_public_key p request ba pa
         else if (length request =? ENCRYPTED_REQUEST_LENGTH)%nat then
           let! l := gets account_key_list in
           match_account_key (Z.to_nat (nearby_fp_GetAccountKeyCount l)) 0 p request ba pa
         else mret (Return kNearbyStatusError))
       (fun found s1 => wp match found with
                           | Return status => mret status
                           | NoMatch => do! AccountKeyRejected in mret kNearbyStatusOK
                           | Matched d => accept_request p d
                           end Q s1) s0) ->
  wp (OnWriteKeyBasedPairing p request) Q s.
Proof.
  intros Hn ba pa H. unfold OnWriteKeyBasedPairing.
  apply wp_bind. unfold pairing_locked. apply wp_bind, wp_gets.
  rewrite (proj2 (Z.leb_gt _ _)) by done. apply wp_ret. cbv beta iota.
  apply wp_bind, wp_uninit. intros b1 Hb1 _. apply wp_bind, wp_uninit. intros b2 Hb2 _.
  unfold BT_ADDRESS_LENGTH in *.
  apply wp_bind, wp_hal_map_call. apply wp_bind. eapply wp_lift; [by apply copy_address|].
  apply wp_bind, wp_hal_map_call. apply wp_bind. eapply wp_lift; [by apply copy_address|].
  cbn [st env log]. apply wp_bind. apply H; [done|].
  eexists [_; _]. split; [done|]. by repeat constructor.
Qed.

(** The same for a request under a stored account key. *)
Lemma OnWriteKeyBasedPairing_unlocked s p request Q :
  pairing_failure_count (st s) < MAX_PAIRING_FAILURE_COUNT -> length request = 16%nat ->
  (forall s0, st s0 = st s -> ext silent s s0 ->
     wp (match_account_key (Z.to_nat (num_keys (account_key_list (st s)))) 0 p request
           (ble_address (env s)) (public_address (env s)))
       (fun found s1 => wp match found with
                           | Return status => mret status
                           | NoMatch => do! AccountKeyRejected in mret kNearbyStatusOK
                           | Matched d => accept_request p d
                           end Q s1) s0) ->
  wp (OnWriteKeyBasedPairing p request) Q s.
Proof.
  intros Hn Hl H. apply OnWriteKeyBasedPairing_search; [done|]. intros s0 E0 Hx0. rewrite Hl.
  cbn [Nat.eqb ENCRYPTED_REQUEST_LENGTH PUBLIC_KEY_LENGTH Nat.add].
  apply wp_bind, wp_gets. rewrite E0. by apply H.
Qed.

(** A key-based pairing request that no stored account key decrypts to the
    device's address is not answered: nothing is sent, the pairing state and all
    other variables stay, and the failure is counted (the tenth starts the
    lock). *)
Theorem OnWriteKeyBasedPairing_unauthenticated s p request :
  client_ok (st s) -> pairing_failure_count (st s) < MAX_PAIRING_FAILURE_COUNT ->
  length request = 16%nat ->
  (forall x, x ∈ keys_in_use (account_key_list (st s)) ->
     ~ names_device (env s) (aes_inv (account_key x) request)) ->
  wp (OnWriteKeyBasedPairing p request)
    (fun r s' => r = kNearbyStatusOK /\ ext silent s s' /\ exists t, st s' = rejected t (st s)) s.
Proof.
  intros Hc Hn Hl Hno. apply OnWriteKeyBasedPairing_unlocked; [done|done|]. intros s0 E0 Hx0.
  pose proof (ok_list _ Hc) as Hok. pose proof (ok_count _ Hok) as Hcnt. eapply wp_mono.
  { apply match_account_key_none; rewrite ?E0; [done|lia|lia|].
    intros x Hx. apply not_true_iff_false. intros Hm. apply (Hno x Hx).
    by apply address_matches_names in Hm; [|apply be_bytes_length..]. }
  intros r s1 [-> [E1 Hx1]]. rewrite E0 in E1. apply wp_bind.
  pose proof (ok_failures _ Hc) as Hf.
  eapply wp_mono; [apply AccountKeyRejected_run; rewrite E1; lia|].
  intros _ s2 [Hx2 [t Et]]. apply wp_ret. split; [done|]. rewrite E1 in Et. split; [|by exists t].
  eapply ext_trans; [|exact Hx2]. by eapply ext_trans.
Qed.

(** ** Passkeys *)

(** The guards of the passkey handler. *)
Definition passkey_expected (s : sys client) (p : Z) (request : list Z) : bool :=
  state_eqb (pairing_state (st s)) kPairingStateWaitingForPasskey
  && (gatt_peer_address (st s) =? p)
  && (elapsed (clock (env s)) (timeout_start_ms (st s)) <=? PASSKEY_MAX_WAIT_TIME_MS)
  && (length request =? AES_MESSAGE_SIZE_BYTES)%nat.

Lemma ShouldTimeout_run s t :
  ShouldTimeout t s = Done (t <? elapsed (clock (env s)) (timeout_start_ms (st s)), tick s).
Proof.
  unfold ShouldTimeout. rewrite (bind_run _ _ _ _ _ (now_run s)).
  rewrite (bind_run _ _ _ (timeout_start_ms (st s)) (tick s)) by (unfold gets; by rewrite tick_st).
  done.
Qed.

Lemma gets_run {A} (f : client -> A) s : gets f s = Done (f (st s), s).
Proof. done. Qed.

Definition is_clock (r : hal_request) : Prop := r = OS GetCurrentTimeMs.

Lemma tick_ext s : ext is_clock s (tick s).
Proof. unfold tick. destruct (call _ _). by apply ext_call. Qed.

(** A passkey block that arrives when none is expected (in another pairing
    state, from another peer than the one whose request was accepted, after ten
    seconds, or of another length) is refused: the handler returns an error,
    changes nothing, and calls nothing but the clock. *)
Theorem OnPasskeyWrite_refuses s p request :
  passkey_expected s p request = false ->
  wp (OnPasskeyWrite p request)
    (fun r s' => r <> kNearbyStatusOK /\ st s' = st s /\ ext is_clock s s') s.
Proof.
  unfold passkey_expected. intros H. unfold wp, OnPasskeyWrite.
  rewrite (bind_run _ _ _ _ _ (gets_run pairing_state s)).
  destruct (state_eqb _ _) eqn:E1; cbn [negb]; [|by split; [|split; [|apply ext_refl]]].
  rewrite (bind_run _ _ _ _ _ (gets_run gatt_peer_address s)).
  destruct (_ =? p) eqn:E2; cbn [negb]; [|by split; [|split; [|apply ext_refl]]].
  rewrite (bind_run _ _ _ _ _ (ShouldTimeout_run s _)).
  destruct (_ <? _) eqn:E3; [by split; [|split; [apply tick_st|apply tick_ext]]|].
  destruct (_ =? _)%nat eqn:E4; [|by split; [|split; [apply tick_st|apply tick_ext]]].
  apply Z.ltb_ge, Z.leb_le in E3. by rewrite E3 in H.
Qed.

(** The passkey block of the provider: type, passkey, salt. *)
Definition provider_block (passkey : Z) (salt : list Z) : list Z :=
  PROVIDER_PASSKEY_MESSAGE_TYPE :: be_bytes 3 passkey ++ salt.

(** Calls that prepare the provider's block. *)
Definition prepares_passkey (r : hal_request) : Prop :=
  match r with SE _ | BT GetPairingPassKey | OS GetCurrentTimeMs => True | _ => False end.

(** The platform has answered with this passkey. *)
Definition pairing_passkey (passkey : Z) : Prop :=
  exists w, passkey = u32 (resp_value (fst (call (BT GetPairingPassKey) w))).

(** The two calls a passkey leads to: the provider's block, encrypted with the
    key of the session, is notified to the peer, then the peer's passkey is given
    to the Bluetooth stack. *)
Definition passkey_exchanged (s s' : sys client) (p : Z) (key raw : list Z) : Prop :=
  exists passkey salt r1 r2 l, pairing_passkey passkey /\ length salt = 12%nat /\ bytes_ok salt
    /\ Forall (fun e => prepares_passkey (fst e)) l
    /\ log s' = (BT (SetRemotePasskey (be_value (take 3 (drop 1 raw)))), r1)
                :: (BLE (GattNotify p kPasskey (aes key (provider_block passkey salt))), r2)
                :: l ++ log s.

Lemma NotifyProviderPasskey_run p s :
  wp (NotifyProviderPasskey p) (fun _ s' => st s' = st s /\
    exists passkey salt r l, pairing_passkey passkey /\ length salt = 12%nat /\ bytes_ok salt
      /\ Forall (fun e => prepares_passkey (fst e)) l
      /\ log s' = (BLE (GattNotify p kPasskey
                    (aes (account_key (account_key_info (st s))) (provider_block passkey salt))), r)
                  :: l ++ log s) s.
Proof.
  unfold NotifyProviderPasskey. apply wp_bind, wp_uninit. intros raw Hl Hb.
  unfold AES_MESSAGE_SIZE_BYTES in *.
  destruct raw as [|b0 [|b1 [|b2 [|b3 rest]]]]; try done. injection Hl as Hl.
  apply wp_bind, wp_hal_map_call. set (resp := fst _). set (pk := u32 _).
  apply wp_bind. eapply wp_lift; [reflexivity|]. cbn [insert list_insert].
  apply wp_bind. eapply wp_lift.
  { rewrite CopyBigEndian_spec by (cbn; lia).
    apply (write_bytes_app [u8 PROVIDER_PASSKEY_MESSAGE_TYPE] [b1; b2; b3] rest).
    apply be_bytes_length. }
  set (block := _ ++ _ ++ rest).
  assert (length block = 16%nat) as Hlb by (unfold block; rewrite !length_app, be_bytes_length, Hl; done).
  apply wp_bind. eapply wp_effects; [apply rand_fill_effects; [|rewrite Hlb; by apply Nat.leb_le]|].
  { unfold block. rewrite !bytes_ok_app. split; [by apply bytes_ok_true|]. split; [apply be_bytes_ok|].
    by apply (bytes_ok_drop 4) in Hb. }
  intros d s1 [E1 (l1 & Hl1 & Hf1)] (Hd & Hdb & Ht & _). rewrite Hlb in Hd. cbn [st log] in *.
  apply wp_bind, wp_gets. rewrite E1. apply wp_bind.
  eapply wp_effects; [apply Aes128Encrypt_effects|]. intros [st2 enc] s2 [E2 (l2 & Hl2 & Hf2)] [= -> ->].
  cbn [status_ok negb]. apply wp_hal_map. intros resp' w'. cbn [st log]. split; [by rewrite E2, E1|].
  exists pk, (drop 4 d), resp', (l2 ++ l1 ++ [(BT GetPairingPassKey, resp)]).
  split; [by eexists|]. split; [rewrite length_drop; lia|]. split; [by apply bytes_ok_drop|]. split.
  - apply Forall_app. split; [eapply Forall_impl; [|exact Hf2]; by intros [[] ?]|].
    apply Forall_app. split; [eapply Forall_impl; [|exact Hf1]; by intros [[] ?]|].
    by repeat constructor.
  - rewrite Hl2, Hl1, <- !app_assoc. cbn [app]. do 4 f_equal. unfold provider_block.
    rewrite <- (take_drop 4 d) at 1. rewrite Ht. unfold block.
    rewrite app_assoc, take_app_length' by (rewrite length_app, be_bytes_length; done).
    by rewrite <- app_assoc.
Qed.

Lemma OnPasskeyWrite_run s p request :
  passkey_expected s p request = true ->
  let key := account_key (account_key_info (st s)) in
  let raw := aes_inv key request in
  raw !! 0%nat = Some SEEKER_PASSKEY_MESSAGE_TYPE ->
  wp (OnPasskeyWrite p request) (fun r s' => r = kNearbyStatusOK
    /\ st s' = set_pairing_state kPairingStateWaitingForPairingResult (st s)
    /\ passkey_exchanged s s' p key raw) s.
Proof.
  intros H key raw Hraw. unfold passkey_expected in H. bool_to_prop. unfold wp, OnPasskeyWrite.
  rewrite (bind_run _ _ _ _ _ (gets_run pairing_state s)). rewrite H. cbn [negb].
  rewrite (bind_run _ _ _ _ _ (gets_run gatt_peer_address s)). rewrite H2, Z.eqb_refl. cbn [negb].
  rewrite (bind_run _ _ _ _ _ (ShouldTimeout_run s _)). rewrite (proj2 (Z.ltb_ge _ _)) by done.
  rewrite H0, Nat.eqb_refl. cbn [negb].
  match goal with |- match ?m _ with _ => _ end => change (wp m (fun r s' => r = kNearbyStatusOK
    /\ st s' = set_pairing_state kPairingStateWaitingForPairingResult (st s)
    /\ passkey_exchanged s s' p key raw) (tick s)) end.
  destruct (tick_ext s) as (l0 & Hl0 & Hf0).
  apply wp_bind, wp_gets. rewrite tick_st. fold key. apply wp_bind.
  eapply wp_effects; [apply Aes128Decrypt_effects|]. intros [st1 d] s1 [E1 (l1 & Hl1 & Hf1)] [= -> ->].
  fold raw. cbn [status_ok negb]. apply wp_bind. eapply wp_lift; [by apply load_done|].
  rewrite Z.eqb_refl. cbn [negb]. apply wp_bind, wp_modify. apply wp_bind.
  eapply wp_mono; [apply NotifyProviderPasskey_run|].
  intros _ s2 [E2 (pk & salt & r & l & Hpk & Hs & Hsb & Hf & Hlog)]. cbn [st log] in *.
  apply wp_bind. eapply wp_lift.
  { apply GetBigEndian24_spec; [apply aes_inv_ok|]. unfold raw. rewrite aes_inv_length. by apply Nat.leb_le. }
  apply wp_bind, wp_hal_map. intros resp w. apply wp_ret. cbn [st log].
  rewrite E2, E1, tick_st. split; [done|]. split; [done|].
  exists pk, salt, resp, r, (l ++ l1 ++ l0). split; [done|]. split; [done|]. split; [done|]. split.
  - apply Forall_app. split; [done|]. apply Forall_app.
    split; [eapply Forall_impl; [|exact Hf1]; by intros [[] ?]|].
    eapply Forall_impl; [|exact Hf0]. intros [? ?] Hc. cbn in *. by rewrite Hc.
  - rewrite Hlog, Hl1, Hl0, <- !app_assoc. rewrite E1, tick_st. done.
Qed.

(** A passkey block that is expected and decrypts to a seeker's passkey makes
    the provider wait for the pairing result, answer with its own passkey encrypted
    under the session key, and hand the seeker's passkey to the platform. *)
Theorem OnPasskeyWrite_exchanges s p request :
  passkey_expected s p request = true ->
  let key := account_key (account_key_info (st s)) in
  let raw := aes_inv key request in
  raw !! 0%nat = Some SEEKER_PASSKEY_MESSAGE_TYPE ->
  wp (OnPasskeyWrite p request) (fun r s' => r = kNearbyStatusOK
    /\ st s' = set_pairing_state kPairingStateWaitingForPairingResult (st s)
    /\ passkey_exchanged s s' p key raw) s.
Proof. apply OnPasskeyWrite_run. Qed.

(** ** Account keys *)

(** The peer may pair retroactively. *)
Definition retroactive (c : client) (p : Z) : bool :=
  existsb (peer_matches p) (retroactive_pairing_list c).

Lemma Pending_loop_run p s k i :
  (k + i <= length (retroactive_pairing_list (st s)))%nat ->
  RetroactivePending_loop k i p s
  = Done (existsb (peer_matches p) (take k (drop i (retroactive_pairing_list (st s)))), s).
Proof.
  revert i. induction k as [|k IH]; intros i Hi; cbn [RetroactivePending_loop]; [done|].
  destruct (lookup_lt_is_Some_2 (retroactive_pairing_list (st s)) i) as [x Hx]; [lia|].
  rewrite (bind_run _ _ _ x s)
    by (unfold get_peer; rewrite (bind_run _ _ _ _ _ (gets_run retroactive_pairing_list s)), Hx; done).
  rewrite (drop_S _ x i) by done. cbn [take existsb]. destruct (peer_matches p x); [done|].
  cbn [orb]. apply IH. lia.
Qed.

Lemma Pending_run p s :
  length (retroactive_pairing_list (st s)) = 2%nat ->
  RetroactivePairingPeerPending p s = Done (retroactive (st s) p, s).
Proof.
  intros Hl. unfold RetroactivePairingPeerPending, NEARBY_MAX_RETROACTIVE_PAIRING.
  rewrite Pending_loop_run by lia. unfold retroactive. rewrite drop_0, take_ge by lia. done.
Qed.

(** A key may be written now: the procedure is at a point where one may come, the
    writer is the peer of the procedure, and a minute has not passed. *)
Definition account_key_expected (s : sys client) (p : Z) : bool :=
  negb (state_eqb (pairing_state (st s)) kPairingStateIdle)
  && negb (state_eqb (pairing_state (st s)) kPairingStateWaitingForAdditionalData)
  && ((gatt_peer_address (st s) =? p) || (peer_public_address (st s) =? p))
  && (elapsed (clock (env s)) (timeout_start_ms (st s)) <=? ACCOUNT_KEY_WRITE_TIME_MS).

Ltac eval_states :=
  repeat match goal with
  | |- context [state_eqb ?x ?y] => let v := eval vm_compute in (state_eqb x y) in change (state_eqb x y) with v
  | H : context [state_eqb ?x ?y] |- _ =>
    let v := eval vm_compute in (state_eqb x y) in change (state_eqb x y) with v in H
  end.

Lemma account_key_guard_refuses s p :
  length (retroactive_pairing_list (st s)) = 2%nat ->
  retroactive (st s) p = false -> account_key_expected s p = false ->
  exists r s', account_key_guard p s = Done (inl r, s') /\ r <> kNearbyStatusOK
    /\ st s' = st s /\ ext is_clock s s'.
Proof.
  intros Hl Hr He. unfold account_key_guard. rewrite (bind_run _ _ _ _ _ (Pending_run p s Hl)), Hr.
  rewrite (bind_run _ _ _ _ _ (gets_run pairing_state s)).
  unfold account_key_expected in He. cbv zeta.
  destruct (pairing_state (st s)) eqn:Es; eval_states; cbn [negb andb orb] in *;
    try (by eexists _, s; split; [reflexivity|split; [done|split; [done|apply ext_refl]]]).
  all: rewrite (bind_run _ _ _ _ _ (gets_run gatt_peer_address s)).
  all: rewrite (bind_run _ _ _ _ _ (gets_run peer_public_address s)).
  all: rewrite <- negb_orb; destruct (_ || _) eqn:Ep; cbn [negb andb] in *;
    [|by eexists _, s; split; [reflexivity|split; [done|split; [done|apply ext_refl]]]].
  all: rewrite (bind_run _ _ _ _ _ (ShouldTimeout_run s _)).
  all: apply Z.leb_gt, Z.ltb_lt in He; rewrite He; eexists _, (tick s);
    split; [reflexivity|split; [done|split; [apply tick_st|apply tick_ext]]].
Qed.

Lemma account_key_guard_accepts s p :
  length (retroactive_pairing_list (st s)) = 2%nat ->
  retroactive (st s) p = false -> account_key_expected s p = true ->
  account_key_guard p s = Done
    (inr (negb (state_eqb (pairing_state (st s)) kPairingStateWaitingForAccountKeyWrite)), tick s).
Proof.
  intros Hl Hr He. unfold account_key_guard. rewrite (bind_run _ _ _ _ _ (Pending_run p s Hl)), Hr.
  rewrite (bind_run _ _ _ _ _ (gets_run pairing_state s)).
  unfold account_key_expected in He. cbv zeta.
  destruct (pairing_state (st s)) eqn:Es; eval_states; cbn [negb andb orb] in *; try done.
  all: rewrite (bind_run _ _ _ _ _ (gets_run gatt_peer_address s)).
  all: rewrite (bind_run _ _ _ _ _ (gets_run peer_public_address s)).
  all: rewrite <- negb_orb; destruct (_ || _) eqn:Ep; cbn [negb andb] in *; [|done].
  all: rewrite (bind_run _ _ _ _ _ (ShouldTimeout_run s _)).
  all: apply Z.leb_le, Z.ltb_ge in He; by rewrite He.
Qed.

(** A peer that is not entitled to pair retroactively cannot write an account
    key outside the pairing procedure, for another peer, or after a minute: the
    write fails, no variable changes (the key list in particular), and nothing but
    the clock is called. *)
Theorem OnAccountKeyWrite_refuses s p request :
  client_ok (st s) -> retroactive (st s) p = false -> account_key_expected s p = false ->
  wp (OnAccountKeyWrite p request)
    (fun r s' => r <> kNearbyStatusOK /\ st s' = st s /\ ext is_clock s s') s.
Proof.
  intros Hc Hr He. destruct (account_key_guard_refuses s p (ok_retro _ Hc) Hr He) as (r & s' & E & Hne & H).
  unfold wp, OnAccountKeyWrite. rewrite (bind_run _ _ _ _ _ E). by split.
Qed.

(** The list was saved between [s] and [s']. *)
Definition list_saved (l : AccountKeyList) (s s' : sys client) : Prop :=
  exists resp, called (PERSISTENCE (SaveValue kStoredKeyAccountKeyList (list_image l))) resp s s'.

(** The variables after an account key is stored. *)
Definition key_stored (l : AccountKeyList) (c : client) : client :=
  set_additional_data_id PERSONALIZED_NAME_DATA_ID
    (set_pairing_state kPairingStateWaitingForAdditionalData
      (set_pending_account_key_info zero_key_info (set_account_key_list l c))).

Lemma key_stored_ok l c : list_ok l -> list_nodup l -> client_ok c -> client_ok (key_stored l c).
Proof.
  intros Hl Hn []. pose proof zero_key_info_ok. split; cbn; auto.
  unfold is_byte, PERSONALIZED_NAME_DATA_ID. lia.
Qed.

Context {B : BitmapSpec C P}.

Lemma finish_pairing_run s :
  client_ok (st s) ->
  wp finish_pairing (fun _ s' => st s' = set_additional_data_id PERSONALIZED_NAME_DATA_ID
      (set_pairing_state kPairingStateWaitingForAdditionalData (st s)) /\ ext request_ok s s') s.
Proof.
  intros Hc. unfold finish_pairing. do 3 apply wp_bind, wp_modify. cbn [st env log].
  set (s1 := Sys _ _ _).
  assert (client_ok (st s1)) as H1.
  { destruct Hc. split; cbn; auto. unfold is_byte, PERSONALIZED_NAME_DATA_ID. lia. }
  eapply wp_mono with (Q := fun _ s' => st s1 = st s' /\ ext request_ok s1 s' /\ True);
    [|intros _ s' (E & Hx & _); split; [by rewrite <- E|done]].
  match goal with |- wp ?m _ _ => assert (safe request_ok (eq (st s1)) m (fun _ => True)) as Hsafe end;
    [|by apply Hsafe].
  step ltac:(apply mode_has_ok). intros b _. on_if. step_hal.
  step ltac:(by apply SetNonDiscoverableAdvertisement_frozen). intros _ _. by apply safe_ret.
Qed.

Lemma RunPostPairingSteps_run s p k l :
  client_ok (st s) -> retroactive (st s) p = false ->
  nearby_fp_AddAccountKey (account_key_list (st s)) k = Done l -> list_ok l -> list_nodup l ->
  wp (RunPostPairingSteps p k) (fun _ s' => st s' = key_stored l (st s) /\ list_saved l s s') s.
Proof.
  intros Hc Hr E Hl Hn. unfold RunPostPairingSteps, add_account_key.
  apply wp_bind, wp_bind, wp_gets. apply wp_bind. eapply wp_lift; [exact E|]. apply wp_modify.
  unfold save_account_keys. apply wp_bind, wp_bind, wp_gets. cbn [st env log].
  apply wp_hal_map. intros resp w. unfold DiscardPendingAccountKey. apply wp_bind, wp_modify.
  cbn [st env log]. set (s1 := Sys _ _ _). apply wp_bind.
  assert (RetroactivePairingPeerPending p s1 = Done (false, s1)) as Hp.
  { rewrite Pending_run by apply (ok_retro _ Hc).
    change (retroactive (st s1) p) with (retroactive (st s) p). by rewrite Hr. }
  unfold wp at 1. rewrite Hp. eapply wp_mono; [apply finish_pairing_run|].
  - destruct Hc. pose proof zero_key_info_ok. by split; cbn.
  - intros _ s' [-> Hx]. split; [done|]. exists resp.
    eapply called_ext; [by apply called_now|exact Hx].
Qed.

Lemma OnAccountKeyWrite_run s p request :
  client_ok (st s) -> is_u64 p -> retroactive (st s) p = false -> account_key_expected s p = true ->
  pairing_state (st s) = kPairingStateWaitingForAccountKeyWrite -> length request = 16%nat ->
  let key := aes_inv (account_key (account_key_info (st s))) request in
  key !! 0%nat = Some ACCOUNT_KEY_WRITE_MESSAGE_TYPE ->
  exists l, abs_list l = lru_add (key, if NEARBY_FP_ENABLE_SASS then p else 0)
      (abs_list (account_key_list (st s))) /\ list_ok l /\
    wp (OnAccountKeyWrite p request) (fun r s' => r = kNearbyStatusOK /\ st s' = key_stored l (st s)
      /\ list_saved l s s') s.
Proof.
  intros Hc Hp Hr He Hs Hlen key Hkey.
  set (info := AccountKeyInfo key (if NEARBY_FP_ENABLE_SASS then p else 0)).
  assert (key_ok info) as Hinfo.
  { split; [apply aes_inv_length|]. split; [apply aes_inv_ok|]. cbn.
    destruct NEARBY_FP_ENABLE_SASS; [exact Hp|lia]. }
  pose proof (account_key_guard_accepts s p (ok_retro _ Hc) Hr He) as Hg. rewrite Hs in Hg.
  unfold wp, OnAccountKeyWrite. rewrite (bind_run _ _ _ _ _ Hg). eval_states. cbn [negb].
  rewrite Hlen. cbn [Nat.eqb AES_MESSAGE_SIZE_BYTES negb].
  rewrite (bind_run _ _ _ _ _ (gets_run account_key_info (tick s))), tick_st.
  destruct (AddAccountKey_lru _ info (ok_list _ Hc) (ok_nodup _ Hc) Hinfo) as (l & E & Ha & Hl & Hn).
  exists l. split; [rewrite Ha; unfold abs_key; cbn; by destruct NEARBY_FP_ENABLE_SASS|]. split; [done|].
  match goal with |- match ?m _ with _ => _ end => change (wp m (fun r s' => r = kNearbyStatusOK
    /\ st s' = key_stored l (st s) /\ list_saved l s s') (tick s)) end.
  apply wp_bind. eapply wp_effects; [apply Aes128Decrypt_effects|]. intros [st1 d] s1 [E1 Hx1] [= -> ->].
  fold key. cbn [status_ok negb]. apply wp_bind. eapply wp_lift; [by apply load_done|].
  rewrite Z.eqb_refl. cbn [negb]. apply wp_bind. rewrite tick_st in E1.
  eapply wp_mono; [apply (RunPostPairingSteps_run s1 p info l); rewrite ?E1; done|].
  intros _ s' [Es [resp Hs']]. apply wp_ret. rewrite Es, E1. split; [done|]. split; [done|].
  exists resp. eapply ext_called; [apply tick_ext|]. by eapply ext_called; [exact Hx1|].
Qed.

(** An account key written at the end of a pairing is stored: it becomes the
    most recently used key of the list, the list is saved, and the provider waits
    for the personalised name. *)
Theorem OnAccountKeyWrite_stores s p request :
  client_ok (st s) -> is_u64 p -> retroactive (st s) p = false -> account_key_expected s p = true ->
  pairing_state (st s) = kPairingStateWaitingForAccountKeyWrite -> length request = 16%nat ->
  let key := aes_inv (account_key (account_key_info (st s))) request in
  key !! 0%nat = Some ACCOUNT_KEY_WRITE_MESSAGE_TYPE ->
  exists l, abs_list l = lru_add (key, if NEARBY_FP_ENABLE_SASS then p else 0)
      (abs_list (account_key_list (st s))) /\ list_ok l /\
    wp (OnAccountKeyWrite p request) (fun r s' => r = kNearbyStatusOK /\ st s' = key_stored l (st s)
      /\ list_saved l s s') s.
Proof. apply OnAccountKeyWrite_run. Qed.

End PairingTheorems.

(** * Smart Audio Source Switching *)
Section SassTheorems.
Context {C : Config} {P : Platform} {Sha : Sha256Spec P}.

(** The commands that change the state of the audio system, and the length of
    their messages: payload, nonce and code. *)
Definition authenticated_code (code : Z) : Prop :=
  In code [MESSAGE_CODE_SASS_SET_MULTIPOINT_STATE; MESSAGE_CODE_SASS_SET_SWITCHING_PREFERENCE;
    MESSAGE_CODE_SASS_SWITCH_ACTIVE_AUDIO_SOURCE; MESSAGE_CODE_SASS_SWITCH_BACK_AUDIO_SOURCE;
    MESSAGE_CODE_SASS_NOTIFY_SASS_INITIATED_CONNECTION; MESSAGE_CODE_SASS_SEND_CUSTOM_DATA;
    MESSAGE_CODE_SASS_SET_DROP_CONNECTION_TARGET].
Definition command_length (code : Z) : Z :=
  if code =? MESSAGE_CODE_SASS_SET_SWITCHING_PREFERENCE then 18 else 17.

(** The only observable call is a negative acknowledgement. *)
Definition only_nack (s s' : sys client) (p : Z) : Prop :=
  st s' = st s /\ exists frame resp l, log s' = (BT (SendMessageStream p frame), resp) :: l ++ log s
    /\ Forall (fun e => is_se (fst e)) l /\ take 2 frame = [ACKNOWLEDGEMENT_GROUP; NACK_CODE].

(** The command is refused whatever its action is. *)
Lemma authenticated_command_refuses s p m i len act r :
  rfcomm_inputs (st s) !! i = Some r -> input_ok r -> received m -> 16 <= len <= 22 ->
  message_length m <> len
  \/ valid_mac (in_use_account_key r) (session_nonce r) (message_data m) (Z.to_nat len) = false ->
  wp (authenticated_command p m i len act)
    (fun x s' => x <> kNearbyStatusOK /\ only_nack s s' p) s.
Proof.
  intros Hr [Hn Hk _ _] ([Hl Hb] & Hlen & _) H16 Hbad. unfold authenticated_command, VerifyMessageLength.
  destruct (Z.eqb_spec (message_length m) len) as [E|E]; cbn [negb].
  2:{ apply wp_bind, wp_bind, wp_hal_map. intros resp w. apply wp_ret. cbn [status_ok].
      change (status_ok kNearbyStatusInvalidInput) with false. apply wp_ret. split; [done|].
      split; [done|]. by eexists _, resp, []. }
  destruct Hbad as [?|Hbad]; [done|]. apply wp_bind, wp_ret. cbn [status_ok].
  change (status_ok kNearbyStatusOK) with true. cbv iota.
  unfold VerifyMac, get_input. apply wp_bind, wp_bind, wp_bind, wp_gets. rewrite Hr. apply wp_ret.
  apply wp_bind. rewrite E, <- (Z2Nat.id len) by lia. destruct Hk as [Hk Hkb].
  eapply wp_effects; [apply VerifyMac_effects; [lia|lia|done|done]|].
  intros x s1 [E1 (l1 & Hl1 & Hf1)] ->. rewrite Hbad.
  change (status_ok kNearbyStatusInvalidInput) with false. cbn [negb].
  apply wp_bind, wp_bind, wp_hal_map. intros resp w. apply wp_ret, wp_ret.
  change (status_ok kNearbyStatusInvalidInput) with false. apply wp_ret. split; [done|].
  split; [done|]. cbn [log]. rewrite Hl1. by eexists _, resp, l1.
Qed.

(** C35. A SASS command of a wrong length, or without a valid authentication code
    under the sender's in-use account key and session nonce, has no effect: the
    peer gets a negative acknowledgement, no variable changes and no call reaches
    the audio system. *)
Theorem HandleSassMessage_requires_mac s p m i r :
  find_index (fun r => input_peer_address r =? p) (rfcomm_inputs (st s)) 0 = Some i ->
  rfcomm_inputs (st s) !! i = Some r -> input_ok r -> received m ->
  authenticated_code (message_code m) ->
  message_length m <> command_length (message_code m)
  \/ valid_mac (in_use_account_key r) (session_nonce r) (message_data m)
       (Z.to_nat (command_length (message_code m))) = false ->
  wp (HandleSassMessage p m) (fun x s' => x <> kNearbyStatusOK /\ only_nack s s' p) s.
Proof.
  intros Hi Hr Hok Hm Hcode Hbad. unfold HandleSassMessage, GetRfcommInput.
  apply wp_bind, wp_bind, wp_gets, wp_ret. rewrite Hi. apply wp_bind, wp_uninit. intros buffer _ _.
  cbv zeta. unfold command_length in Hbad. unfold authenticated_code, In in Hcode.
  destruct Hcode as [E|[E|[E|[E|[E|[E|[E|[]]]]]]]]; rewrite <- E in Hbad |- *; cbn in Hbad |- *;
    by eapply authenticated_command_refuses; eauto; lia.
Qed.

End SassTheorems.

(** * Address rotation and connections *)
Section RotationTheorems.
Context {C : Config} {P : Platform}.

(** The delay until the next address rotation is random between 13 minutes 45
    seconds and 20 minutes 21 seconds; its 32 bit computation does not wrap. *)
Theorem GetRotationDelayMs_bounds s :
  wp GetRotationDelayMs (fun d s' => 825600 <= d <= 1220850 /\ quiet is_se s s') s.
Proof.
  by eapply wp_effects; [apply GetRotationDelayMs_range|].
Qed.

(** Without hardware support, a rotation first stops advertising and then
    gives the platform a new address of 48 bits with bit 46 set and bit 47 clear;
    the connected peers are told afterwards. *)
Theorem RotateBleAddress_new_address s :
  client_ok (st s) -> NEARBY_FP_HAVE_BLE_ADDRESS_ROTATION = false ->
  wp ClientAdvertising.RotateBleAddress (fun _ s' => exists a l1 l2 r0 r1 r2,
    rotated_address a /\ Forall (fun e => is_se (fst e)) l1
    /\ log s' = l2 ++ (BLE (SetBleAddress a), r2) :: l1
                 ++ (BLE (SetAdvertisement [] kDisabled), r1) :: (OS GetCurrentTimeMs, r0) :: log s) s.
Proof.
  intros Hc Hr. unfold ClientAdvertising.RotateBleAddress. rewrite Hr.
  apply wp_bind, wp_hal_map. intros r0 w0. apply wp_bind, wp_modify. cbn [st env log].
  apply wp_bind, wp_hal_map. intros r1 w1. cbn [st env log].
  apply wp_bind. eapply wp_effects; [apply (random_address_range 6 0 0); [cbn; lia|lia]|].
  intros x s1 [E1 (l1 & Hl1 & Hf1)] Hx. cbn [st log] in *.
  apply wp_bind, wp_hal_map. intros r2 w2.
  set (s2 := Sys _ _ _). assert (inv 10 any_state None any_origin (st s2)) as H2.
  { unfold s2. cbn [st]. rewrite E1. apply inv_client_ok. destruct Hc. by split. }
  eapply wp_mono; [by apply SendBleAddressUpdatedToAll_ok|].
  intros _ s' (_ & (l2 & Hl2 & _) & _). eexists _, l1, l2, r0, r1, r2.
  split; [|split; [exact Hf1|rewrite Hl2; unfold s2; cbn [log]; rewrite Hl1; reflexivity]].
  apply rotated_address_bits. exact Hx.
Qed.

(** ** The connection table *)

(** No peer has two entries. *)
Definition distinct_peers (c : client) : Prop :=
  NoDup (filter (fun p => p <> INVALID_PEER_ADDRESS) (peers c)).

Lemma free_entry_none c p :
  p ∉ peers c -> find_index (fun r => (input_peer_address r =? INVALID_PEER_ADDRESS)
    || (input_peer_address r =? p)) (rfcomm_inputs c) 0 = None ->
  INVALID_PEER_ADDRESS ∉ peers c.
Proof.
  intros Hp Hf (r & Hr & Hin)%list_elem_of_fmap.
  apply (find_index_none _ _ _ r) in Hf; [|done]. cbn beta in Hf. by rewrite <- Hr in Hf.
Qed.

Lemma free_entry_some c p i :
  p ∉ peers c -> find_index (fun r => (input_peer_address r =? INVALID_PEER_ADDRESS)
    || (input_peer_address r =? p)) (rfcomm_inputs c) 0 = Some i ->
  peers c !! i = Some INVALID_PEER_ADDRESS /\ (i < length (rfcomm_inputs c))%nat.
Proof.
  intros Hp (r & _ & Hr & Hb)%find_index_some. rewrite Nat.sub_0_r in Hr.
  assert (peers c !! i = Some (input_peer_address r)) as Hi
    by (unfold peers; by rewrite list_lookup_fmap, Hr).
  split; [|by eapply lookup_lt_Some]. apply orb_true_iff in Hb as [Hb|Hb]; bool_to_prop.
  - by rewrite Hi, Hb.
  - destruct Hp. apply (list_elem_of_lookup_2 _ i). by rewrite Hi, Hb.
Qed.

(** Replacing a free entry keeps the peers distinct. *)
Lemma distinct_insert (l : list Z) i p :
  p ∉ l -> NoDup (filter (fun p => p <> INVALID_PEER_ADDRESS) l) -> l !! i = Some INVALID_PEER_ADDRESS ->
  NoDup (filter (fun p => p <> INVALID_PEER_ADDRESS) (<[i:=p]> l)).
Proof.
  intros Hp Hn Hi. pose proof (lookup_lt_Some _ _ _ Hi) as Hlt.
  rewrite insert_take_drop by done.
  rewrite <- (take_drop_middle l i _ Hi), list.filter_app, list.filter_cons_False in Hn by tauto.
  rewrite list.filter_app, list.filter_cons. case_decide; [|done].
  apply list.NoDup_app in Hn as (H1 & H2 & H3). apply list.NoDup_app. split; [done|]. split.
  - intros x Hx. rewrite elem_of_cons. intros [->|Hx']; [|by apply (H2 x)].
    apply list_elem_of_filter in Hx as [_ Hx]. apply Hp. by apply elem_of_take in Hx as (? & ? & _);
      eapply list_elem_of_lookup_2.
  - apply list.NoDup_cons. split; [|done]. intros [_ Hx]%list_elem_of_filter. apply Hp.
    apply list_elem_of_lookup_1 in Hx as [j Hj]. rewrite lookup_drop in Hj.
    by eapply list_elem_of_lookup_2.
Qed.

Lemma get_input_run s i r : rfcomm_inputs (st s) !! i = Some r -> get_input i s = Done (r, s).
Proof.
  intros Hr. unfold get_input. rewrite (bind_run _ _ _ _ _ (gets_run rfcomm_inputs s)). by rewrite Hr.
Qed.

(** The entry is taken over by the peer, and the invariant holds. *)
Lemma InitRfcommInput_run s p i :
  client_ok (st s) -> is_u64 p -> (i < length (rfcomm_inputs (st s)))%nat ->
  wp (InitRfcommInput p i) (fun _ s' => client_ok (st s') /\ peers (st s') = <[i:=p]> (peers (st s))) s.
Proof.
  intros Hc Hp Hi. destruct (lookup_lt_is_Some_2 _ _ Hi) as [r Hr].
  unfold InitRfcommInput. apply wp_bind. unfold wp at 1. rewrite (get_input_run s i r Hr).
  apply wp_bind. eapply wp_effects; [apply rand_fill_total with (n := 8%nat); [|by apply Nat.leb_le]|].
  { split; [done|]. apply bytes_ok_replicate. unfold is_byte. lia. }
  intros nonce s1 [E1 _] Hn. rewrite <- E1 in Hr, Hc |- *.
  unfold update_input. apply wp_bind. unfold wp at 1. rewrite (get_input_run s1 i r Hr).
  apply wp_modify. cbn [st]. split.
  - destruct Hc. split; cbn; auto; [by rewrite length_insert|].
    apply Forall_insert; [done|]. by apply fresh_input_ok.
  - unfold peers. cbn. by rewrite list_fmap_insert.
Qed.

(** When a peer that is not connected opens a message stream, it takes a free
    entry of the connection table if there is one (and is ignored otherwise), and
    no peer has two entries. *)
Theorem OnMessageStreamConnected_distinct s p :
  client_ok (st s) -> is_u64 p -> p ∉ peers (st s) -> distinct_peers (st s) ->
  wp (OnMessageStreamConnected p) (fun _ s' => distinct_peers (st s')
    /\ if bool_decide (INVALID_PEER_ADDRESS ∈ peers (st s)) then p ∈ peers (st s')
       else peers (st s') = peers (st s)) s.
Proof.
  intros Hc Hu Hp Hd. unfold OnMessageStreamConnected. apply wp_bind, wp_uninit. intros buffer Hb Hbb.
  unfold FindAvailableRfcommInput. apply wp_bind, wp_bind, wp_gets.
  destruct (find_index _ _ _) as [i|] eqn:Ef.
  2:{ apply wp_ret, wp_ret. split; [done|]. rewrite bool_decide_eq_false_2; [done|].
      by eapply free_entry_none. }
  destruct (free_entry_some _ _ _ Hp Ef) as [Hi Hlt].
  rewrite bool_decide_eq_true_2 by (by eapply list_elem_of_lookup_2).
  apply wp_bind. eapply wp_mono; [by apply InitRfcommInput_run|].
  intros _ s1 [Hc1 Hp1]. apply wp_ret.
  assert (i < 2)%nat as Hi2 by (pose proof (ok_table _ Hc) as Ht; unfold NEARBY_MAX_RFCOMM_CONNECTIONS in Ht; lia).
  eapply wp_mono; [apply (announce_connection_ok 10 any_state (Some (peers (st s1))) any_origin); [done|by split|]|].
  { split; [done|]. split; [by destruct (ok_failures _ Hc1)|]. split; [done|]. split; [done|apply keys_any]. }
  intros _ s2 ((_ & _ & _ & Hp2 & _) & _). cbn in Hp2. unfold distinct_peers. rewrite Hp2, Hp1.
  split; [by apply distinct_insert|]. apply (list_elem_of_lookup_2 _ i), list_lookup_insert_eq.
  by eapply lookup_lt_Some.
Qed.

End RotationTheorems.

(** * Examples on the test platform, with Smart Audio Source Switching *)
Section Examples.
#[local] Existing Instance sass_config.

Definition example_sys (c : client) : sys client := test_sys c test_world_0.

(** Ten failures, the tenth just now. *)
Definition locked_client : client := set_pairing_failure_count 10 client_0.

Example OnWriteKeyBasedPairing_lockout_witness :
  OnWriteKeyBasedPairing 7 (replicate 16 0) (example_sys locked_client)
  = Done (kNearbyStatusOK, tick (example_sys locked_client)).
Proof.
  apply (OnWriteKeyBasedPairing_lockout (example_sys locked_client) 7 (replicate 16 0)).
  - vm_compute. discriminate.
  - reflexivity.
Defined.

(** A provider with two account keys. *)
Definition keyed_client : client := set_account_key_list test_list client_0.

Lemma keyed_client_ok : client_ok keyed_client.
Proof. destruct client_0_ok. pose proof test_list_ok. pose proof test_list_nodup. by split. Qed.

Example OnWriteKeyBasedPairing_unauthenticated_witness :
  wp (OnWriteKeyBasedPairing 7 (replicate 16 1))
    (fun r s' => r = kNearbyStatusOK /\ ext silent (example_sys keyed_client) s'
       /\ exists t, st s' = rejected t keyed_client) (example_sys keyed_client).
Proof.
  apply (OnWriteKeyBasedPairing_unauthenticated (example_sys keyed_client) 7 (replicate 16 1)).
  - exact keyed_client_ok.
  - reflexivity.
  - reflexivity.
  - intros x Hx. apply list_elem_of_In in Hx. vm_compute in Hx.
    destruct_or! Hx; try done; subst x; intros [H|H]; vm_compute in H; discriminate.
Defined.

Example OnPasskeyWrite_refuses_witness :
  wp (OnPasskeyWrite 7 (replicate 16 2))
    (fun r s' => r <> kNearbyStatusOK /\ st s' = keyed_client /\ ext is_clock (example_sys keyed_client) s')
    (example_sys keyed_client).
Proof.
  apply (OnPasskeyWrite_refuses (example_sys keyed_client) 7 (replicate 16 2)). reflexivity.
Defined.

(** A procedure with peer 7 has reached state [x]. *)
Definition pairing_client (x : PairingState) : client :=
  set_pairing_state x (set_gatt_peer_address 7 keyed_client).

Lemma pairing_client_ok x : client_ok (pairing_client x).
Proof. destruct keyed_client_ok. split; auto. unfold is_u64. cbn. lia. Qed.

Example OnPasskeyWrite_exchanges_witness :
  let s := example_sys (pairing_client kPairingStateWaitingForPasskey) in
  let key := account_key (account_key_info (st s)) in
  let raw := aes_inv key (replicate 16 2) in
  wp (OnPasskeyWrite 7 (replicate 16 2)) (fun r s' => r = kNearbyStatusOK
    /\ st s' = set_pairing_state kPairingStateWaitingForPairingResult (st s)
    /\ passkey_exchanged s s' 7 key raw) s.
Proof.
  intros s. apply (OnPasskeyWrite_exchanges s 7 (replicate 16 2)); vm_compute; reflexivity.
Defined.

Example OnAccountKeyWrite_refuses_witness :
  wp (OnAccountKeyWrite 7 (replicate 16 4))
    (fun r s' => r <> kNearbyStatusOK /\ st s' = keyed_client /\ ext is_clock (example_sys keyed_client) s')
    (example_sys keyed_client).
Proof.
  apply (OnAccountKeyWrite_refuses (example_sys keyed_client) 7 (replicate 16 4)).
  - exact keyed_client_ok.
  - reflexivity.
  - reflexivity.
Defined.

Example OnAccountKeyWrite_stores_witness :
  let s := example_sys (pairing_client kPairingStateWaitingForAccountKeyWrite) in
  let key := aes_inv (account_key (account_key_info (st s))) (replicate 16 4) in
  exists l, abs_list l = lru_add (key, if NEARBY_FP_ENABLE_SASS then 7 else 0)
      (abs_list (account_key_list (st s))) /\ list_ok l /\
    wp (OnAccountKeyWrite 7 (replicate 16 4)) (fun r s' => r = kNearbyStatusOK /\ st s' = key_stored l (st s)
      /\ list_saved l s s') s.
Proof.
  intros s. apply (OnAccountKeyWrite_stores s 7 (replicate 16 4)).
  - apply pairing_client_ok.
  - unfold is_u64. lia.
  - vm_compute. reflexivity.
  - vm_compute. reflexivity.
  - reflexivity.
  - reflexivity.
  - vm_compute. reflexivity.
Defined.

(** Peer 7 is connected; it has no in-use account key yet. *)
Definition connected_input : rfcomm_input :=
  RfcommInput (nearby_message_stream_Init
    (StreamState 7 INPUT_LENGTH 0 (Message 0 0 0 (replicate MAX_MESSAGE_STREAM_PAYLOAD_SIZE 0))))
    (replicate 8 0xAB) (replicate ACCOUNT_KEY_SIZE_BYTES 0) 3 0 0.
Definition connected_client : client :=
  set_rfcomm_inputs [connected_input; zero_rfcomm_input] keyed_client.

Example HandleSassMessage_requires_mac_witness :
  let m := Message MESSAGE_GROUP_SASS MESSAGE_CODE_SASS_SET_MULTIPOINT_STATE 17 (replicate 22 1) in
  wp (HandleSassMessage 7 m)
    (fun x s' => x <> kNearbyStatusOK /\ only_nack (example_sys connected_client) s' 7)
    (example_sys connected_client).
Proof.
  intros m.
  apply (HandleSassMessage_requires_mac (example_sys connected_client) 7 m 0%nat connected_input).
  - reflexivity.
  - reflexivity.
  - apply fresh_input_ok; [unfold is_u64; lia|]. split; [reflexivity|by apply bytes_ok_true].
  - split; [split; [reflexivity|by apply bytes_ok_true]|]. by repeat split; vm_compute.
  - left. reflexivity.
  - right. vm_compute. reflexivity.
Defined.

Example RotateBleAddress_new_address_witness :
  wp ClientAdvertising.RotateBleAddress (fun _ s' => exists a l1 l2 r0 r1 r2,
    rotated_address a /\ Forall (fun e => is_se (fst e)) l1
    /\ log s' = l2 ++ (BLE (SetBleAddress a), r2) :: l1
                 ++ (BLE (SetAdvertisement [] kDisabled), r1) :: (OS GetCurrentTimeMs, r0) :: [])
    (example_sys keyed_client).
Proof.
  apply (RotateBleAddress_new_address (example_sys keyed_client)).
  - exact keyed_client_ok.
  - reflexivity.
Defined.

Example OnMessageStreamConnected_distinct_witness :
  wp (OnMessageStreamConnected 8) (fun _ s' => distinct_peers (st s') /\ 8 ∈ peers (st s'))
    (example_sys connected_client).
Proof.
  apply (OnMessageStreamConnected_distinct (example_sys connected_client) 8).
  - destruct keyed_client_ok. split; auto. repeat (apply Forall_cons; [|]); [|apply zero_input_ok|done].
    apply fresh_input_ok; [unfold is_u64; lia|]. split; [reflexivity|by apply bytes_ok_true].
  - unfold is_u64. lia.
  - intros H%list_elem_of_In. vm_compute in H. destruct_or! H; discriminate || done.
  - apply (bool_decide_unpack _). vm_compute. exact I.
Defined.

(** The other order of events: peer 8 connects again while it has the second entry
    and the first is free.  It then has both, and disconnecting frees one. *)
Example reconnection_duplicates :
  let run_all := run [StreamConnected 7; StreamConnected 8; StreamDisconnected 7; StreamConnected 8] in
  match run_all (example_sys keyed_client) with
  | Done s => peers (st s)
  | _ => []
  end = [8; 8].
Proof. vm_compute. reflexivity. Qed.

(** The limits of [event_ok] and [BitmapSpec] are those of the code. *)

Definition is_crash {A} (o : outcome A) : bool := match o with Crash => true | _ => false end.
Definition is_fault {A} (o : outcome A) : bool := match o with Fault => true | _ => false end.

(** A platform that uses the four bytes MAX_DEVICE_BITMAP_SIZE allows. *)
Definition wide_bitmap_platform : Platform := {|
  world := test_world;
  call := fun r w => match r with
    | AUDIO (GetConnectionBitmap _) => (bytes_response [1; 2; 3; 4], w)
    | _ => test_call r w
    end;
  garbage := fun _ n => replicate n 0xEE;
|}.

(** Five account keys, battery levels and a bitmap of four bytes: the
    transmission power does not fit the 32 bytes of the advertisement. *)
Example wide_bitmap_crashes :
  is_crash (@nearby_fp_client_SetAdvertisement sass_config wide_bitmap_platform
    (Z.lor NEARBY_FP_ADVERTISEMENT_NON_DISCOVERABLE
       (Z.lor NEARBY_FP_ADVERTISEMENT_INCLUDE_BATTERY_INFO NEARBY_FP_ADVERTISEMENT_SASS))
    (@Sys wide_bitmap_platform client keyed_client test_world_0 [])) = true.
Proof. vm_compute. reflexivity. Qed.

(** An additional data packet without payload fails an assertion; an authentic one
    with more than 64 bytes of payload overflows the name. *)
Definition name_client : client :=
  set_additional_data_id PERSONALIZED_NAME_DATA_ID
    (set_pairing_state kPairingStateWaitingForAdditionalData keyed_client).
Definition name_packet (n : nat) : list Z :=
  match nearby_fp_EncodeAdditionalData (replicate (16 + n) 0x41)
      (account_key (account_key_info name_client)) (example_sys name_client) with
  | Done (_, d, _) => d
  | _ => []
  end.

Example additional_data_limits :
  is_crash (OnAdditionalDataWrite 7 (replicate 16 0) (example_sys name_client)) = true
  /\ returns (OnAdditionalDataWrite 7 (name_packet 64) (example_sys name_client)) = true
  /\ is_fault (OnAdditionalDataWrite 7 (name_packet 65) (example_sys name_client)) = true.
Proof. vm_compute. done. Qed.

(** An account key that arrives before the end of the pairing is stored with the
    peer address 0. *)
Example early_key_loses_address :
  let s := example_sys (set_peer_public_address 7 (pairing_client kPairingStateWaitingForPairingResult)) in
  match run [GattWrite 7 kAccountKey (replicate 16 4); Paired 7] s with
  | Done s' => head (key (account_key_list (st s')))
  | _ => None
  end = Some (AccountKeyInfo (replicate 16 4) 0).
Proof. vm_compute. reflexivity. Qed.

End Examples.
