(* ===== verification/ClientAcceptance.v ===== *)
(** What an authenticated key-based pairing request does: the account key that
    decrypts it becomes the most recently used one and is saved, the encrypted
    response is notified, and the pairing starts. *)

From Stdlib Require Import ZArith Lia.
From stdpp Require Import base list numbers.
From S2P Require Import Prelude Utils Platform SecureElement TestPlatform Crypto AccountKeys.
From S2P Require Import MessageStream Advertisement CryptoSafety AdvertisementSafety.
From S2P Require Import ClientState ClientAdvertising ClientPairing ClientStream.
From S2P Require Import ClientInvariant ClientAdvertisingSafety ClientPairingSafety.
From S2P Require Import ClientStreamSafety Client ClientTheorems.
Import Utils.

Section Acceptance.
Context {C : Config} {P : Platform} {Aes : AesSpec P}.

(** The session key of a request from [p] that the stored key [x] decrypts. *)
Definition session_info (x : nearby_platform_AccountKeyInfo) (p : Z)
  : nearby_platform_AccountKeyInfo :=
  if NEARBY_FP_ENABLE_SASS then AccountKeyInfo (account_key x) p else x.

Lemma session_info_key x p : account_key (session_info x p) = account_key x.
Proof. unfold session_info. by destruct NEARBY_FP_ENABLE_SASS. Qed.

Lemma session_info_ok x p : key_ok x -> is_u64 p -> key_ok (session_info x p).
Proof. intros (? & ? & ?) Hp. unfold session_info. by destruct NEARBY_FP_ENABLE_SASS. Qed.

Lemma session_info_abs x p :
  abs_key (session_info x p) = (account_key x, if NEARBY_FP_ENABLE_SASS then p else 0).
Proof. unfold abs_key, session_info. by destruct NEARBY_FP_ENABLE_SASS. Qed.

(** No restriction on the calls. *)
Definition any_call (r : hal_request) : Prop := True.

Lemma ext_any K (s s' : sys client) : ext K s s' -> ext any_call s s'.
Proof. by apply ext_mono. Qed.

(** The search stops at the first key [x] that decrypts the request to an address
    of the device. *)
Lemma match_account_key_some p request ba pa i x l :
  forall k j s,
  list_ok (account_key_list (st s)) -> (j + k = Z.to_nat (num_keys (account_key_list (st s))))%nat ->
  (j <= i)%nat -> keys_in_use (account_key_list (st s)) !! i = Some x ->
  (forall n y, (n < i)%nat -> keys_in_use (account_key_list (st s)) !! n = Some y ->
     address_matches ba pa (aes_inv (account_key y) request) = false) ->
  address_matches ba pa (aes_inv (account_key x) request) = true ->
  nearby_fp_AddAccountKey (account_key_list (st s)) (session_info x p) = Done l ->
  wp (match_account_key k (Z.of_nat j) p request ba pa) (fun r s' =>
    r = Matched (aes_inv (account_key x) request) /\ list_saved l s s' /\ ext any_call s s'
    /\ st s' = set_account_key_list l (set_account_key_info (session_info x p) (st s))) s.
Proof.
  induction k as [|k IH]; intros j s Hok Hk Hj Hx Hno Hm Ha.
  { apply lookup_lt_Some in Hx. rewrite in_use_length in Hx by done. lia. }
  cbn [match_account_key]. apply wp_bind, wp_gets.
  destruct (GetAccountKey_done _ (Z.of_nat j) Hok) as (y & E & Hy & _); [lia|]. rewrite Nat2Z.id in Hy.
  apply wp_bind. eapply wp_lift; [exact E|].
  apply wp_bind. eapply wp_effects; [apply Aes128Decrypt_effects|]. intros [st1 d] s1 [E1 Hx1] [= -> ->].
  cbn [status_ok negb]. destruct (decide (j = i)) as [->|Hne].
  - rewrite Hx in Hy. injection Hy as <-. rewrite Hm.
    apply wp_bind. eapply wp_lift; [exact E|]. fold (session_info x p).
    apply wp_bind, wp_modify. unfold add_account_key. apply wp_bind, wp_bind, wp_gets. cbn [st env log].
    apply wp_bind. eapply wp_lift; [rewrite E1; exact Ha|]. apply wp_modify.
    unfold save_account_keys. apply wp_bind, wp_bind, wp_gets. cbn [st env log].
    apply wp_hal_map. intros resp w. apply wp_ret. cbn [st log]. rewrite E1.
    split; [done|]. split; [|split; [|done]].
    + exists resp. eapply ext_called; [exact Hx1|]. by apply called_now.
    + eapply ext_trans; [by apply ext_any in Hx1|]. by apply ext_call.
  - rewrite (Hno j y) by (done || lia). replace (Z.of_nat j + 1) with (Z.of_nat (S j)) by lia.
    rewrite <- E1. eapply wp_mono; [apply IH; rewrite ?E1; try done; lia|].
    intros r s' (Hr & [resp Hs] & Hx' & E'). split; [done|]. split; [|split; [|done]].
    + exists resp. by eapply ext_called; [exact Hx1|].
    + eapply ext_trans; [by apply ext_any in Hx1|done].
Qed.

(** The notified response: encrypted under the session key, of the form asked
    for, with the public address of the device. *)
Definition response_notified (p : Z) (key : list Z) (extended : bool)
    (status : nearby_platform_status) (s s' : sys client) : Prop :=
  exists response resp, length response = 16%nat /\ bytes_ok response
    /\ (exists w, take 6 (drop (if extended then 3 else 1) response)
         = be_bytes 6 (u64 (resp_value (fst (call (BT GetPublicAddress) w)))))
    /\ response !! 0%nat = Some (if extended then KEY_BASED_PAIRING_EXTENDED_RESPONSE_FLAG
                               else KEY_BASED_PAIRING_RESPONSE_FLAG)
    /\ called (BLE (GattNotify p kKeyBasedPairing (aes key response))) resp s s'
    /\ status = resp_status resp
    /\ exists w, resp = fst (call (BLE (GattNotify p kKeyBasedPairing (aes key response))) w).

Lemma response_notified_ext K p key e r s1 s2 s3 :
  response_notified p key e r s1 s2 -> ext K s2 s3 -> response_notified p key e r s1 s3.
Proof.
  intros (d & resp & H1 & H2 & H3 & H5 & H & H4) Hx. exists d, resp.
  split; [done|]. split; [done|]. split; [done|]. split; [done|]. split; [by eapply called_ext|done].
Qed.

Lemma ext_response_notified K p key e r s1 s2 s3 :
  ext K s1 s2 -> response_notified p key e r s2 s3 -> response_notified p key e r s1 s3.
Proof.
  intros Hx (d & resp & H1 & H2 & H3 & H5 & H & H4). exists d, resp.
  split; [done|]. split; [done|]. split; [done|]. split; [done|]. split; [by eapply ext_called|done].
Qed.

Lemma SendKeyBasedPairingResponse_run p e s :
  wp (SendKeyBasedPairingResponse p e) (fun r s' => st s' = st s /\ ext any_call s s'
    /\ response_notified p (account_key (account_key_info (st s))) e r s s') s.
Proof.
  unfold SendKeyBasedPairingResponse. apply wp_bind, wp_uninit. intros raw Hl Hb.
  apply wp_bind. eapply wp_mono; [by apply KeybasedPairingResponse_spec|].
  intros [st1 d] s1 (_ & Hd & Hdb & E1 & Hx1 & salt & Hsalt). cbn [snd] in *.
  apply wp_bind, wp_gets. rewrite E1. apply wp_bind.
  eapply wp_effects; [apply Aes128Encrypt_effects|]. intros [st2 enc] s2 [E2 Hx2] [= -> ->].
  cbn [status_ok negb]. apply wp_hal_map_call. set (resp := fst _). cbn [st log].
  apply ext_any in Hx1, Hx2. assert (ext any_call s s2) as Hx by (by eapply ext_trans).
  split; [congruence|]. split; [eapply ext_trans; [exact Hx|]; by apply ext_call|].
  exists d, resp. split; [done|]. split; [done|]. split.
  { destruct e; eexists; rewrite Hsalt, <- !app_assoc; apply take_app_length'; by rewrite be_bytes_length. }
  split; [subst d; by destruct e|].
  split; [|split; [done|by eexists]]. eapply ext_called; [exact Hx|]. by apply called_now.
Qed.

(** How an accepted request starts a pairing: the provider asks for it itself, or
    waits for the seeker to do so. *)
Definition pairing_started (raw : list Z) (flags : Z) (c : client) (s s' : sys client) : Prop :=
  let address := be_value (take 6 (drop KBPR_SEEKER_ADDRESS_OFFSET raw)) in
  if nonzero (Z.land flags KBPR_INITIATE_PAIRING_MASK) then
    st s' = set_pairing_state kPairingStateWaitingForPasskey (set_peer_public_address address c)
    /\ exists resp, called (BT (SendPairingRequest address)) resp s s'
  else exists t, st s' = set_timeout_start_ms t
                   (set_pairing_state kPairingStateWaitingForPairingRequest c).

Lemma ext_pairing_started K raw flags c s1 s2 s3 :
  ext K s1 s2 -> pairing_started raw flags c s2 s3 -> pairing_started raw flags c s1 s3.
Proof.
  unfold pairing_started. intros Hx. destruct (nonzero _); [|done].
  intros (E & resp & H). split; [done|]. exists resp. by eapply ext_called.
Qed.

Lemma HandleKeyBasedPairingRequest_run p raw flags s :
  key_ok (account_key_info (st s)) -> length raw = 16%nat -> bytes_ok raw ->
  raw !! 1%nat = Some flags ->
  nonzero (Z.land flags KBPR_RETROACTIVELY_WRITE_ACCOUNT_KEY_MASK) = false ->
  wp (HandleKeyBasedPairingRequest p raw) (fun r s' => r = kNearbyStatusOK /\ ext any_call s s'
    /\ pairing_started raw flags (st s) s s') s.
Proof.
  intros Hk Hl Hb Hf Hr. unfold HandleKeyBasedPairingRequest, pairing_started.
  apply wp_bind. eapply wp_lift; [by apply load_done|]. apply wp_bind.
  eapply wp_mono with (Q := fun _ s1 => st s = st s1 /\ ext request_ok s s1 /\ True).
  { match goal with |- wp ?m _ _ => assert (safe request_ok (eq (st s)) m (fun _ => True)) as Hs end;
      [|by apply Hs].
    on_if. step ltac:(apply NotifyPersonalizedName_safe; by intros ? <-). intros _ _. by apply safe_ret. }
  intros _ s1 (E1 & Hx1 & _). rewrite Hr. apply ext_any in Hx1.
  apply wp_bind, wp_hal_map. intros resp1 w1. cbn [st env log].
  destruct (nonzero (Z.land flags KBPR_INITIATE_PAIRING_MASK)).
  - apply wp_bind. eapply wp_lift.
    { apply GetBigEndian48_spec; [done|]. rewrite Hl. by apply Nat.leb_le. }
    apply wp_bind, wp_modify. apply wp_bind, wp_hal_map. intros resp2 w2.
    apply wp_bind, wp_modify. apply wp_ret. cbn [st env log]. rewrite <- E1.
    split; [done|]. split.
    + eapply ext_trans; [exact Hx1|]. eexists [_; _]. split; [done|]. by repeat constructor.
    + split; [done|]. exists resp2. eapply ext_called; [exact Hx1|].
      eexists [_; _]. split; [done|apply list_elem_of_here].
  - apply wp_bind, wp_modify. apply wp_bind, wp_hal_map. intros resp2 w2.
    apply wp_bind, wp_modify. apply wp_ret. cbn [st env log]. rewrite <- E1.
    split; [done|]. split; [|by eexists].
    eapply ext_trans; [exact Hx1|]. eexists [_; _]. split; [done|]. by repeat constructor.
Qed.

(** The variables after a request from [p] was authenticated with the stored key
    [x], and the list became [l]. *)
Definition authenticated (l : AccountKeyList) (x : nearby_platform_AccountKeyInfo) (p : Z)
    (c : client) : client :=
  set_pending_account_key_info zero_key_info (set_gatt_peer_address p
    (set_pairing_failure_count 0
      (set_account_key_list l (set_account_key_info (session_info x p) c)))).

(** The seeker asks for the response of a device that may be BLE only. *)
Definition wants_extended (flags : Z) : bool :=
  nonzero (Z.land flags KBPR_SEEKER_SUPPORTS_BLE_DEVICES_MASK).

Lemma accept_request_run p raw flags s :
  key_ok (account_key_info (st s)) -> length raw = 16%nat -> bytes_ok raw ->
  raw !! 0%nat = Some KEY_BASED_PAIRING_REQUEST_FLAG -> raw !! 1%nat = Some flags ->
  nonzero (Z.land flags KBPR_RETROACTIVELY_WRITE_ACCOUNT_KEY_MASK) = false ->
  let c := set_pending_account_key_info zero_key_info
             (set_gatt_peer_address p (set_pairing_failure_count 0 (st s))) in
  wp (accept_request p raw) (fun r s' => ext any_call s s' /\
    exists status, response_notified p (account_key (account_key_info (st s)))
        (wants_extended flags) status s s' /\
      if status_ok status then r = kNearbyStatusOK /\ pairing_started raw flags c s s'
      else r = status /\ st s' = c) s.
Proof.
  intros Hk Hl Hb H0 H1 Hr c. unfold accept_request, DiscardPendingAccountKey.
  do 3 apply wp_bind, wp_modify. cbn [st env log]. fold c.
  apply wp_bind. eapply wp_lift; [by apply load_done|].
  apply wp_bind. eapply wp_lift; [by apply load_done|].
  rewrite Z.eqb_refl. cbn [andb]. fold (wants_extended flags).
  apply wp_bind. eapply wp_mono; [apply SendKeyBasedPairingResponse_run|].
  intros status s1 (E1 & Hx1 & Hn). cbn [st] in E1, Hn.
  destruct (status_ok status) eqn:Es; cbn [negb].
  - eapply wp_mono; [apply (HandleKeyBasedPairingRequest_run p raw flags); rewrite ?E1; done|].
    intros r s2 (-> & Hx2 & Hp). rewrite E1 in Hp.
    split; [by eapply ext_trans; [exact Hx1|]|].
    exists status. split; [by eapply response_notified_ext|]. rewrite Es. split; [done|].
    by eapply ext_pairing_started; [exact Hx1|].
  - apply wp_ret. split; [done|]. exists status. split; [done|]. by rewrite Es, E1.
Qed.

Lemma matches_iff_names ba pa d :
  length ba = 6%nat -> length pa = 6%nat -> length d = 16%nat ->
  address_matches ba pa d = true <-> take 6 (drop 2 d) = ba \/ take 6 (drop 2 d) = pa.
Proof.
  intros Hb Hp Hd. split; [by apply address_matches_names|].
  unfold address_matches, BtAddressMatch, BT_ADDRESS_LENGTH, REQUEST_BT_ADDRESS_OFFSET.
  rewrite !take_ge with (l := ba), !take_ge with (l := pa) by lia.
  intros [E|E]; apply orb_true_iff; [left|right]; by apply bytes_eqb_eq.
Qed.

Lemma OnWriteKeyBasedPairing_run s p request i x flags :
  client_ok (st s) -> is_u64 p -> pairing_failure_count (st s) < MAX_PAIRING_FAILURE_COUNT ->
  length request = 16%nat ->
  keys_in_use (account_key_list (st s)) !! i = Some x ->
  (forall n y, (n < i)%nat -> keys_in_use (account_key_list (st s)) !! n = Some y ->
     ~ names_device (env s) (aes_inv (account_key y) request)) ->
  let raw := aes_inv (account_key x) request in
  names_device (env s) raw ->
  raw !! 0%nat = Some KEY_BASED_PAIRING_REQUEST_FLAG -> raw !! 1%nat = Some flags ->
  nonzero (Z.land flags KBPR_RETROACTIVELY_WRITE_ACCOUNT_KEY_MASK) = false ->
  exists l, abs_list l = lru_add (account_key x, if NEARBY_FP_ENABLE_SASS then p else 0)
      (abs_list (account_key_list (st s))) /\
    wp (OnWriteKeyBasedPairing p request) (fun r s' => list_saved l s s' /\
      exists status, response_notified p (account_key x) (wants_extended flags) status s s' /\
        if status_ok status
        then r = kNearbyStatusOK /\ pairing_started raw flags (authenticated l x p (st s)) s s'
        else r = status /\ st s' = authenticated l x p (st s)) s.
Proof.
  intros Hc Hp Hn Hl Hx Hno raw Hm H0 H1 Hr.
  pose proof (ok_list _ Hc) as Hok. pose proof (in_use_length _ Hok) as Hlen.
  pose proof (lookup_lt_Some _ _ _ Hx) as Hi.
  destruct (GetAccountKey_done _ (Z.of_nat i) Hok) as (x' & _ & Ex & Hkx); [lia|].
  rewrite Nat2Z.id, Hx in Ex. injection Ex as <-.
  destruct (AddAccountKey_lru _ (session_info x p) Hok (ok_nodup _ Hc)) as (l & Ha & Habs & _);
    [by apply session_info_ok|].
  exists l. rewrite Habs, session_info_abs. split; [done|].
  apply OnWriteKeyBasedPairing_unlocked; [done|done|]. intros s0 E0 Hx0. apply ext_any in Hx0.
  eapply wp_mono.
  { apply (match_account_key_some p request _ _ i x l _ 0); rewrite ?E0; try done; [lia| |].
    - intros n y Hlt Hy. apply not_true_iff_false.
      rewrite matches_iff_names by (apply be_bytes_length || apply aes_inv_length). by apply (Hno n y).
    - by apply matches_iff_names; [apply be_bytes_length..|apply aes_inv_length|]. }
  intros r s1 (-> & [resp Hsv] & Hx1 & E1). rewrite E0 in E1. fold raw.
  assert (ext any_call s s1) as Hx' by (by eapply ext_trans).
  eapply wp_mono; [apply (accept_request_run p raw flags s1); try done|].
  - rewrite E1. by apply session_info_ok.
  - apply aes_inv_length.
  - apply aes_inv_ok.
  - intros r s2 (Hx2 & status & Hn2 & H). rewrite E1 in Hn2, H.
    change (account_key_info _) with (session_info x p) in Hn2. rewrite session_info_key in Hn2.
    split; [exists resp; eapply ext_called; [exact Hx0|by eapply called_ext]|].
    exists status. split; [by eapply ext_response_notified|].
    destruct (status_ok status); destruct H as [-> H]; split; try done.
    by eapply ext_pairing_started.
Qed.

(** C25. A key-based pairing request that a stored account key decrypts to the
    device's address, without the flag of a retroactive pairing, starts a pairing
    unless ten have failed before: the first such key becomes the most recently
    used one and the session key, the list is saved, the failure counter is reset,
    the response is notified encrypted under the session key, and, unless the
    notification fails, the provider either asks the seeker's address for a pairing
    and waits for the passkey, or waits for the seeker's pairing request. *)
Theorem OnWriteKeyBasedPairing_accepts s p request i x flags :
  client_ok (st s) -> is_u64 p -> pairing_failure_count (st s) < MAX_PAIRING_FAILURE_COUNT ->
  length request = 16%nat ->
  keys_in_use (account_key_list (st s)) !! i = Some x ->
  (forall n y, (n < i)%nat -> keys_in_use (account_key_list (st s)) !! n = Some y ->
     ~ names_device (env s) (aes_inv (account_key y) request)) ->
  let raw := aes_inv (account_key x) request in
  names_device (env s) raw ->
  raw !! 0%nat = Some KEY_BASED_PAIRING_REQUEST_FLAG -> raw !! 1%nat = Some flags ->
  nonzero (Z.land flags KBPR_RETROACTIVELY_WRITE_ACCOUNT_KEY_MASK) = false ->
  exists l, abs_list l = lru_add (account_key x, if NEARBY_FP_ENABLE_SASS then p else 0)
      (abs_list (account_key_list (st s))) /\
    wp (OnWriteKeyBasedPairing p request) (fun r s' => list_saved l s s' /\
      exists status, response_notified p (account_key x) (wants_extended flags) status s s' /\
        if status_ok status
        then r = kNearbyStatusOK /\ pairing_started raw flags (authenticated l x p (st s)) s s'
        else r = status /\ st s' = authenticated l x p (st s)) s.
Proof. apply OnWriteKeyBasedPairing_run. Qed.

End Acceptance.

(** * Requests with a public key

    A seeker without an account key sends its public key after the encrypted
    request: the key of the session is derived from the secret it agrees on with
    the anti-spoofing key of the device. *)
Section PublicKey.
Context {C : Config} {P : Platform} {Aes : AesSpec P} {Sha : Sha256Spec P} {Sec : SecretSpec P}.

(** The key of the session, if the secure element accepts the public key. *)
Definition session_secret (request : list Z) : option (list Z) :=
  (fun d => take ACCOUNT_KEY_SIZE_BYTES (sha256 d))
    <$> shared_secret (take PUBLIC_KEY_LENGTH (drop ENCRYPTED_REQUEST_LENGTH request)).

(** The request under that key. *)
Definition public_request (key request : list Z) : list Z :=
  aes_inv key (take ENCRYPTED_REQUEST_LENGTH request).

Definition public_info (key : list Z) (p : Z) (c : client) : nearby_platform_AccountKeyInfo :=
  AccountKeyInfo key (if NEARBY_FP_ENABLE_SASS then p else key_peer_address (account_key_info c)).

Lemma session_secret_buf request key : session_secret request = Some key -> buf 16 key.
Proof.
  unfold session_secret. intros (d & _ & ->)%fmap_Some.
  split; [by rewrite length_take, sha256_length|apply bytes_ok_take, sha256_ok].
Qed.

Lemma public_info_ok key p c : buf 16 key -> is_u64 p -> client_ok c -> key_ok (public_info key p c).
Proof.
  intros [Hk Hb] Hp Hc. split; [done|]. split; [done|]. cbn. destruct NEARBY_FP_ENABLE_SASS; [done|].
  apply (ok_key_info _ Hc).
Qed.

Lemma is_se_silent (s s' : sys client) : ext is_se s s' -> ext silent s s'.
Proof. apply ext_mono. by intros []. Qed.

Lemma match_public_key_run p request ba pa s :
  length request = 80%nat ->
  wp (match_public_key p request ba pa) (fun r s' => ext silent s s' /\
    match session_secret request with
    | None => exists status, status <> kNearbyStatusOK /\ r = Return status /\ st s' = st s
    | Some key =>
      let raw := public_request key request in
      if address_matches ba pa raw
      then r = Matched raw /\ st s' = set_account_key_info (public_info key p (st s)) (st s)
      else r = NoMatch /\ st s' = st s
    end) s.
Proof.
  intros Hl. unfold match_public_key, session_secret. apply wp_bind, wp_uninit. intros k0 _ _.
  apply wp_bind. eapply wp_lift; [apply read_bytes_done; rewrite Hl; by apply Nat.leb_le|].
  set (pk := take PUBLIC_KEY_LENGTH _). apply wp_bind.
  eapply wp_mono; [apply CreateSharedSecret_spec|]. intros [st1 key] s1 [Hx [E1 Hs1]].
  pose proof (gen_secret_call pk (env s)) as Hg. destruct (shared_secret pk) as [d|] eqn:Ed; cbn [fmap option_fmap option_map].
  - destruct Hg as [Hg1 Hg2]. rewrite Hg1, Hg2 in Hx. change (status_ok kNearbyStatusOK) with true in Hx.
    rewrite fit_id in Hx by eauto using shared_secret_ok, shared_secret_length. injection Hx as -> ->.
    change (status_ok kNearbyStatusOK) with true. cbn [negb]. apply wp_bind.
    eapply wp_effects; [apply Aes128Decrypt_effects|]. intros [st2 raw] s2 [E2 Hs2] [= -> ->].
    change (status_ok kNearbyStatusOK) with true. cbn [negb].
    change (aes_inv (take 16 (sha256 d)) (take ENCRYPTED_REQUEST_LENGTH request))
      with (public_request (take ACCOUNT_KEY_SIZE_BYTES (sha256 d)) request).
    assert (ext silent s s2) as Hx2 by (apply is_se_silent; by eapply ext_trans).
    destruct (address_matches ba pa _) eqn:Em; cbn [negb].
    + apply wp_bind, wp_modify, wp_ret. cbn [st]. split; [done|]. by rewrite E2, E1.
    + apply wp_ret. split; [done|]. by rewrite E2, E1.
  - destruct (status_ok _) eqn:Es in Hx; [by apply status_ok_iff in Es|]. destruct Hx as [[= -> ->] _].
    rewrite Es. cbn [negb]. apply wp_ret. split; [by apply is_se_silent|]. eauto.
Qed.

(** The variables after a request from [p] was authenticated under [key]. *)
Definition authenticated_public (key : list Z) (p : Z) (c : client) : client :=
  set_pending_account_key_info zero_key_info (set_gatt_peer_address p
    (set_pairing_failure_count 0 (set_account_key_info (public_info key p c) c))).

(** A request to pair, that does not ask for a retroactive key. *)
Definition pairing_request (raw : list Z) (flags : Z) : Prop :=
  raw !! 0%nat = Some KEY_BASED_PAIRING_REQUEST_FLAG /\ raw !! 1%nat = Some flags
  /\ nonzero (Z.land flags KBPR_RETROACTIVELY_WRITE_ACCOUNT_KEY_MASK) = false.

Lemma OnWriteKeyBasedPairing_public_run s p request flags :
  client_ok (st s) -> is_u64 p -> pairing_failure_count (st s) < MAX_PAIRING_FAILURE_COUNT ->
  length request = 80%nat ->
  (forall key, session_secret request = Some key -> names_device (env s) (public_request key request) ->
     pairing_request (public_request key request) flags) ->
  wp (OnWriteKeyBasedPairing p request) (fun r s' =>
    match session_secret request with
    | None => r <> kNearbyStatusOK /\ st s' = st s /\ ext silent s s'
    | Some key =>
      let raw := public_request key request in
      if address_matches (ble_address (env s)) (public_address (env s)) raw then
        exists status, response_notified p key (wants_extended flags) status s s' /\
          if status_ok status
          then r = kNearbyStatusOK /\ pairing_started raw flags (authenticated_public key p (st s)) s s'
          else r = status /\ st s' = authenticated_public key p (st s)
      else r = kNearbyStatusOK /\ ext silent s s' /\ exists t, st s' = rejected t (st s)
    end) s.
Proof.
  intros Hc Hp Hn Hl Hraw. apply OnWriteKeyBasedPairing_search; [done|]. intros s0 E0 Hx0. rewrite Hl.
  cbn [Nat.eqb ENCRYPTED_REQUEST_LENGTH PUBLIC_KEY_LENGTH Nat.add].
  eapply wp_mono; [by apply match_public_key_run|]. intros r s1 [Hx1 H].
  assert (ext silent s s1) as Hx by (by eapply ext_trans). rewrite E0 in H.
  destruct (session_secret request) as [key|] eqn:Ek.
  2:{ destruct H as (status & Hs & -> & E1). by apply wp_ret. }
  cbv zeta in H |- *. specialize (Hraw key eq_refl). set (raw := public_request key request) in *.
  destruct (address_matches _ _ _) eqn:Em; destruct H as [-> E1].
  2:{ apply wp_bind. pose proof (ok_failures _ Hc) as Hf.
      eapply wp_mono; [apply AccountKeyRejected_run; rewrite E1; lia|].
      intros _ s2 [Hx2 [t Et]]. apply wp_ret. rewrite E1 in Et.
      split; [done|]. split; [by eapply ext_trans|by exists t]. }
  apply matches_iff_names in Em; [|apply be_bytes_length..|apply aes_inv_length].
  destruct (Hraw Em) as (H0 & H1 & Hr). clear Hraw.
  eapply wp_mono; [apply (accept_request_run p raw flags s1); try done|].
  - rewrite E1. apply public_info_ok; [by eapply session_secret_buf|done|done].
  - apply aes_inv_length.
  - apply aes_inv_ok.
  - intros r s2 (Hx2 & status & Hn2 & H). rewrite E1 in Hn2, H. exists status.
    split; [by eapply ext_response_notified; [exact Hx|]|].
    destruct (status_ok status); destruct H as [-> H]; split; try done.
    by eapply ext_pairing_started; [exact Hx|].
Qed.

(** A request with a public key, as a seeker without account key sends it: when
    the secure element refuses the public key, the handler fails and changes
    nothing; when the request does not decrypt to the device's address under the
    key derived from the shared secret, nothing is sent and the failure is counted;
    otherwise this key becomes the key of the session, the response is notified
    encrypted under it, and the pairing starts.  The account key list is not
    touched. *)
Theorem OnWriteKeyBasedPairing_public_key s p request flags :
  client_ok (st s) -> is_u64 p -> pairing_failure_count (st s) < MAX_PAIRING_FAILURE_COUNT ->
  length request = 80%nat ->
  (forall key, session_secret request = Some key -> names_device (env s) (public_request key request) ->
     pairing_request (public_request key request) flags) ->
  wp (OnWriteKeyBasedPairing p request) (fun r s' =>
    match session_secret request with
    | None => r <> kNearbyStatusOK /\ st s' = st s /\ ext silent s s'
    | Some key =>
      let raw := public_request key request in
      if address_matches (ble_address (env s)) (public_address (env s)) raw then
        exists status, response_notified p key (wants_extended flags) status s s' /\
          if status_ok status
          then r = kNearbyStatusOK /\ pairing_started raw flags (authenticated_public key p (st s)) s s'
          else r = status /\ st s' = authenticated_public key p (st s)
      else r = kNearbyStatusOK /\ ext silent s s' /\ exists t, st s' = rejected t (st s)
    end) s.
Proof. apply OnWriteKeyBasedPairing_public_run. Qed.

End PublicKey.

(** * An accepted request on the test platform

    The second stored key decrypts it, and the seeker asks the provider to
    initiate the pairing. *)
Section Witness.
#[local] Existing Instance sass_config.

Definition accepted_request : list Z :=
  [2; 66; 2; 2; 184; 184; 184; 184; 3; 0; 1; 6; 7; 4; 11; 11].

Example OnWriteKeyBasedPairing_accepts_witness :
  let s := example_sys keyed_client in
  let raw := aes_inv (account_key (test_key 2)) accepted_request in
  exists l, abs_list l = lru_add (account_key (test_key 2), 7) (abs_list test_list) /\
    wp (OnWriteKeyBasedPairing 7 accepted_request) (fun r s' => list_saved l s s' /\
      exists status, response_notified 7 (account_key (test_key 2)) (wants_extended 64) status s s' /\
        if status_ok status
        then r = kNearbyStatusOK
             /\ pairing_started raw 64 (authenticated l (test_key 2) 7 keyed_client) s s'
        else r = status /\ st s' = authenticated l (test_key 2) 7 keyed_client) s.
Proof.
  intros s raw.
  refine (OnWriteKeyBasedPairing_accepts s 7 accepted_request 1 (test_key 2) 64
    _ _ _ _ _ _ _ _ _ _).
  - exact keyed_client_ok.
  - unfold is_u64. lia.
  - reflexivity.
  - reflexivity.
  - reflexivity.
  - intros n y Hn Hy. replace n with 0%nat in Hy by lia. vm_compute in Hy. injection Hy as <-.
    intros [H|H]; vm_compute in H; discriminate.
  - left. vm_compute. reflexivity.
  - vm_compute. reflexivity.
  - vm_compute. reflexivity.
  - vm_compute. reflexivity.
Defined.

(** A request with a public key, of all zeros but for the address of the device. *)
Definition public_key_block : list Z := replicate 64 1.
Definition public_session_key : list Z := take 16 (sha256 (fit 32 public_key_block)).
Definition public_key_request : list Z :=
  aes public_session_key ([0; 64] ++ be_bytes 6 0xBABABABA ++ [0xB0; 0xB1; 0xB2; 0xB3; 0xB4; 0xB5; 1; 1])
  ++ public_key_block.

Example OnWriteKeyBasedPairing_public_key_witness :
  let s := example_sys keyed_client in
  wp (OnWriteKeyBasedPairing 7 public_key_request) (fun r s' =>
    match session_secret public_key_request with
    | None => r <> kNearbyStatusOK /\ st s' = st s /\ ext silent s s'
    | Some key =>
      let raw := public_request key public_key_request in
      if address_matches (ble_address (env s)) (public_address (env s)) raw then
        exists status, response_notified 7 key (wants_extended 64) status s s' /\
          if status_ok status
          then r = kNearbyStatusOK /\ pairing_started raw 64 (authenticated_public key 7 (st s)) s s'
          else r = status /\ st s' = authenticated_public key 7 (st s)
      else r = kNearbyStatusOK /\ ext silent s s' /\ exists t, st s' = rejected t (st s)
    end) s.
Proof.
  intros s. apply (OnWriteKeyBasedPairing_public_key s 7 public_key_request 64).
  - exact keyed_client_ok.
  - unfold is_u64. lia.
  - reflexivity.
  - reflexivity.
  - intros key Hk _. vm_compute in Hk. injection Hk as <-. vm_compute. auto.
Defined.

(** It is authenticated, and the seeker is asked to pair. *)
Example public_key_request_accepted :
  match OnWriteKeyBasedPairing 7 public_key_request (example_sys keyed_client) with
  | Done (_, s) => pairing_state (st s) = kPairingStateWaitingForPasskey
      /\ peer_public_address (st s) = 0xB0B1B2B3B4B5
      /\ account_key_info (st s) = AccountKeyInfo public_session_key 7
  | _ => False
  end.
Proof. vm_compute. auto. Qed.

End Witness.
