(* ===== verification/ClientProvenance.v ===== *)
(** Where the account keys come from.  An event adds a key to the list only when a
    peer that may write one writes it, encrypted under the key of the session, or
    when a pairing completes for which such a key was kept, or at boot.  A ghost
    history of the keys granted so far turns this into an invariant of the runs. *)

From Stdlib Require Import ZArith Lia.
From stdpp Require Import base list numbers relations.
From S2P Require Import Prelude Utils Platform SecureElement TestPlatform Crypto AccountKeys.
From S2P Require Import MessageStream Advertisement CryptoSafety AdvertisementSafety.
From S2P Require Import ClientState ClientAdvertising ClientPairing ClientStream.
From S2P Require Import ClientInvariant ClientAdvertisingSafety ClientPairingSafety.
From S2P Require Import ClientStreamSafety Client ClientTheorems.
Import Utils.

Section Provenance.
Context {C : Config} {P : Platform} {Aes : AesSpec P}.
Context {B : BitmapSpec C P} {St : StoredListSpec C P}.

(** The key an account key write carries, under the key of the session. *)
Definition written_key (s : sys client) (request : list Z) : list Z :=
  aes_inv (account_key (account_key_info (st s))) request.

(** [p] may write a key now: it paired without Fast Pair before, or the procedure
    under way is its own. *)
Definition may_write (s : sys client) (p : Z) : bool :=
  retroactive (st s) p || account_key_expected s p.

(** A write that is accepted: a block that decrypts to a key, from a peer that may
    write. *)
Definition accepted (s : sys client) (p : Z) (request : list Z) : bool :=
  may_write s p && (length request =? AES_MESSAGE_SIZE_BYTES)%nat
  && (default 0 (written_key s request !! 0%nat) =? ACCOUNT_KEY_WRITE_MESSAGE_TYPE).

(** A key that an event may add to the list. *)
Inductive key_added (s : sys client) : event -> list Z -> Prop :=
| key_written p request :
    accepted s p request = true ->
    retroactive (st s) p = true
    \/ pairing_state (st s) = kPairingStateWaitingForAccountKeyWrite ->
    key_added s (GattWrite p kAccountKey request) (written_key s request)
| key_completed p :
    peer_public_address (st s) = p ->
    account_key (pending_account_key_info (st s)) !! 0%nat = Some ACCOUNT_KEY_WRITE_MESSAGE_TYPE ->
    key_added s (Paired p) (account_key (pending_account_key_info (st s)))
| key_loaded callbacks k : key_added s (Init callbacks) k.

(** A key that an event may keep until the pairing completes. *)
Inductive key_kept (s : sys client) : event -> list Z -> Prop :=
| key_early p request :
    accepted s p request = true -> retroactive (st s) p = false ->
    pairing_state (st s) <> kPairingStateWaitingForAccountKeyWrite ->
    key_kept s (GattWrite p kAccountKey request) (written_key s request).

Definition origins (s : sys client) (e : event) : key_origins := KeyOrigins
  (fun k => k ∈ key_bytes (account_key_list (st s)) \/ key_added s e k)
  (fun k => k = account_key (pending_account_key_info (st s)) \/ key_kept s e k).

(** Before the event the keys are where they were. *)
Lemma origins_start s e x :
  client_ok (st s) -> x (pairing_state (st s)) -> inv 10 x None (origins s e) (st s).
Proof.
  intros Hc Hx. split; [done|]. split; [by destruct (ok_failures _ Hc)|]. split; [done|]. split; [done|].
  split; [|by right; left]. rewrite Forall_forall. intros k Hk. left. exact Hk.
Qed.

(** ** Writes *)

Lemma RetroactiveTimeout_frozen c p :
  length (retroactive_pairing_list c) = 2%nat ->
  safe request_ok (eq c) (RetroactivePairingPeerTimeout p) (fun _ => True).
Proof.
  intros Hl. unfold RetroactivePairingPeerTimeout, NEARBY_MAX_RETROACTIVE_PAIRING.
  enough (forall k i, (k + i <= 2)%nat ->
    safe request_ok (eq c) (RetroactiveTimeout_loop k i p) (fun _ => True)) as H by (by apply H).
  induction k as [|k IH]; intros i Hi; cbn [RetroactiveTimeout_loop]; [by apply safe_ret|].
  destruct (lookup_lt_is_Some_2 (retroactive_pairing_list c) i) as [x Hx]; [lia|].
  eapply safe_bind with (R := eq x).
  { unfold get_peer. step ltac:(apply safe_gets with (R := eq (retroactive_pairing_list c)); by intros ? <-).
    intros l <-. rewrite Hx. by apply safe_ret. }
  intros ? <-. on_if; [|apply IH; lia]. step_hal. on_if. apply IH. lia.
Qed.

(** A write that passes the guards comes from a peer that may write. *)
Lemma account_key_guard_at n q a o s p :
  inv n q a o (st s) ->
  wp (account_key_guard p) (fun g s' => inv n q a o (st s') /\ ext request_ok s s' /\
    match g with
    | inl _ => True
    | inr w => st s' = st s /\ may_write s p = true
        /\ (w = false -> retroactive (st s) p = true
                         \/ pairing_state (st s) = kPairingStateWaitingForAccountKeyWrite)
        /\ (w = true -> retroactive (st s) p = false
                        /\ pairing_state (st s) <> kPairingStateWaitingForAccountKeyWrite)
    end) s.
Proof.
  intros Hs. pose proof (ok_retro _ (proj1 Hs)) as Hl. unfold may_write.
  destruct (retroactive (st s) p) eqn:Hr; cbn [orb].
  - unfold account_key_guard. apply wp_bind. unfold wp at 1. rewrite (Pending_run p s Hl), Hr.
    apply wp_bind. eapply wp_mono; [by apply (RetroactiveTimeout_frozen (st s) p Hl s)|].
    intros t s1 (E1 & Hx1 & _). rewrite E1 in Hs. destruct t.
    + apply wp_bind. eapply wp_mono; [by apply (RemoveRetroactivePairingPeer_ok n q a o p s1)|].
      intros _ s2 (H2 & Hx2 & _). apply wp_ret. split; [done|]. split; [by eapply ext_trans|done].
    + apply wp_ret. split; [done|]. split; [done|]. split; [done|]. split; [done|]. split; [by left|done].
  - destruct (account_key_expected s p) eqn:He.
    + unfold wp. rewrite (account_key_guard_accepts s p Hl Hr He), tick_st.
      split; [done|]. split; [eapply ext_mono; [|apply tick_ext]; by intros r ->|]. split; [done|]. split; [done|].
      destruct (state_eqb _ _) eqn:E; cbn [negb].
      * apply bool_decide_eq_true in E. split; [by right|done].
      * apply bool_decide_eq_false in E. split; [done|by split].
    + destruct (account_key_guard_refuses s p Hl Hr He) as (r & s' & E & _ & Es & Hx).
      unfold wp. rewrite E, Es. split; [done|]. split; [|done]. eapply ext_mono; [|exact Hx]. by intros ? ->.
Qed.

Lemma OnAccountKeyWrite_at s p request x :
  client_ok (st s) -> is_u64 p -> x (pairing_state (st s)) ->
  (x kPairingStateWaitingForAdditionalData) ->
  let I := inv 10 x None (origins s (GattWrite p kAccountKey request)) in
  wp (OnAccountKeyWrite p request) (fun _ s' => I (st s') /\ ext request_ok s s' /\ True) s.
Proof.
  intros Hc Hp Hx Hq I. pose proof (origins_start s (GattWrite p kAccountKey request) x Hc Hx) as HI.
  unfold OnAccountKeyWrite. apply wp_bind. eapply wp_mono; [apply (account_key_guard_at _ _ _ _ s p HI)|].
  intros [r|w] s1 (H1 & Hx1 & Hg); [by apply wp_ret|]. destruct Hg as (E1 & Hm & Hw0 & Hw1).
  destruct (Nat.eqb_spec (length request) AES_MESSAGE_SIZE_BYTES) as [Hlen|]; cbn [negb]; [|by apply wp_ret].
  apply wp_bind, wp_gets. rewrite E1. apply wp_bind.
  eapply wp_effects; [apply Aes128Decrypt_effects|]. intros [st2 d] s2 [E2 Hx2] [= -> ->].
  fold (written_key s request). set (k := written_key s request).
  cbn [status_ok negb]. change (status_ok kNearbyStatusOK) with true. cbn [negb].
  assert (ext request_ok s s2) as Hext.
  { eapply ext_trans; [exact Hx1|]. eapply ext_mono; [|exact Hx2]. by intros []. }
  assert (length k = 16%nat /\ bytes_ok k) as [Hk Hkb] by (split; [apply aes_inv_length|apply aes_inv_ok]).
  destruct (load_lt k 0) as (v & Hv & Hlk); [lia|].
  apply wp_bind. eapply wp_lift; [exact Hv|]. destruct (Z.eqb_spec v ACCOUNT_KEY_WRITE_MESSAGE_TYPE) as [->|];
    cbn [negb]; [|apply wp_ret; rewrite E2; by split].
  assert (accepted s p request = true) as Ha.
  { unfold accepted. fold k. by rewrite Hm, Hlen, Hlk. }
  rewrite <- E2 in H1. clear Hx1 Hx2 E1 E2. revert Hext. fold I in H1.
  enough (wp (if w then
      do! modify (fun c => set_pending_account_key_info
        (AccountKeyInfo k (key_peer_address (pending_account_key_info c))) c) in
      do! nearby_platform_StartTimer DiscardPendingAccountKey_cb
            WAIT_FOR_PAIRING_RESULT_AFTER_ACCOUNT_KEY_TIME_MS in
      mret kNearbyStatusOK
    else do! RunPostPairingSteps p (AccountKeyInfo k (if NEARBY_FP_ENABLE_SASS then p else 0)) in
      mret kNearbyStatusOK) (fun _ s' => I (st s') /\ ext request_ok s2 s' /\ True) s2) as H.
  { intros Hext. eapply wp_mono; [exact H|]. intros r s' (? & ? & _). split; [done|].
    split; [by eapply ext_trans|done]. }
  revert s2 H1. match goal with |- forall s2, _ -> wp ?m _ _ => change (safe request_ok I m (fun _ => True)) end.
  destruct w.
  - destruct (Hw1 eq_refl) as [Hr Hst].
    step ltac:(apply safe_modify; intros c [[] (? & ? & ? & ? & _)]; split;
      [split; cbn; auto; split; [done|split; [done|by destruct ok_pending as (_ & _ & ?)]]
      |split; [done|]; split; [done|]; split; [done|]; split; [done|right; right; by constructor]]). intros _ _.
    step ltac:(apply safe_hal with (R := fun _ => True); done). intros _ _. by apply safe_ret.
  - step ltac:(apply RunPostPairingSteps_ok; [|right; constructor; auto|done]). 2:{ intros _ _. by apply safe_ret. }
    split; [done|]. split; [done|]. cbn. destruct NEARBY_FP_ENABLE_SASS; [done|lia].
Qed.

(** ** Every event *)

Lemma handle_origins e s x :
  event_ok e -> client_ok (st s) -> x = pairing_transition e (pairing_state (st s)) ->
  wp (handle e) (fun _ s' => inv 10 x None (origins s e) (st s') /\ ext request_ok s s' /\ True) s.
Proof.
  intros He Hc ->.
  pose proof (origins_start s e _ Hc (stay e (pairing_state (st s)))) as HI.
  destruct e as [| | | | | | | | p ch request| | | p| | | | | | | |];
    try (by apply handle_ok).
  - apply handle_ok; [done|by right; constructor|done].
  - destruct ch; try by apply handle_ok. cbn [handle OnGattWrite]. unfold ignore. apply wp_bind.
    eapply wp_mono; [apply (OnAccountKeyWrite_at s p request
      (pairing_transition (GattWrite p kAccountKey request) (pairing_state (st s))));
      [done|by destruct He|constructor|constructor]|].
    intros r s' H. by apply wp_ret.
  - assert (forall y, pairing_transition (Paired p) y kPairingStateWaitingForPairingResult ->
      pairing_transition (Paired p) y kPairingStateWaitingForAccountKeyWrite) as Ht
      by (inversion 1; subst; constructor).
    cbn [handle]. apply OnPaired_at; [done|done| |apply paired_with_pending_key|apply Ht].
    intros Hp d H4 [->|Hd]; [by right; constructor|inversion Hd].
Qed.

(** C13. A key of the list after an event was in the list before, or was written in
    this event by a peer that may write (decrypted with the key of the session, and
    starting with the byte 4), or was kept for the pairing that completes, or was
    loaded at boot.  A key kept until the pairing completes was already kept, or is
    written in this event before the end of the peer's own pairing. *)
Theorem Client_key_provenance s e s' :
  client_ok (st s) -> event_ok e -> handle e s = Done (tt, s') ->
  (forall k, k ∈ key_bytes (account_key_list (st s')) ->
     k ∈ key_bytes (account_key_list (st s)) \/ key_added s e k)
  /\ (let k := account_key (pending_account_key_info (st s')) in
      k = replicate ACCOUNT_KEY_SIZE_BYTES 0
      \/ k = account_key (pending_account_key_info (st s)) \/ key_kept s e k).
Proof.
  intros Hc He E. pose proof (handle_origins e s _ He Hc eq_refl) as H. unfold wp in H. rewrite E in H.
  destruct H as ((_ & _ & _ & _ & Hl & Hp) & _). split; [|exact Hp].
  rewrite Forall_forall in Hl. exact Hl.
Qed.

(** ** Runs *)

(** The keys granted by an event: the ones a boot loads, or the one of an accepted
    write. *)
Definition granted (s : sys client) (e : event) (s' : sys client) : list (list Z) :=
  match e with
  | Init _ => key_bytes (account_key_list (st s'))
  | GattWrite p kAccountKey request =>
    if accepted s p request then [written_key s request] else []
  | _ => []
  end.

(** The runs of the program, with the keys granted so far. *)
Inductive history : list (list Z) -> sys client -> Prop :=
| history_start w : history [] (Sys client_0 w [])
| history_event ks s e w s' :
    history ks s -> event_ok e -> handle e (Sys (st s) w (log s)) = Done (tt, s') ->
    history (granted (Sys (st s) w (log s)) e s' ++ ks) s'.

Lemma history_next ks s e s' ks' :
  history ks s -> event_ok e -> handle e (Sys (st s) (env s) (log s)) = Done (tt, s') ->
  granted (Sys (st s) (env s) (log s)) e s' ++ ks = ks' -> history ks' s'.
Proof. intros Hh He E <-. by apply history_event. Qed.

Lemma history_reachable ks s : history ks s -> reachable s.
Proof.
  induction 1 as [w|ks s e w s' _ [w0 IH] He E]; [by exists w; apply rtc_refl|].
  exists w0. eapply rtc_r; [exact IH|]. by apply (step_event _ _ e w).
Qed.

Lemma reachable_history s : reachable s -> exists ks, history ks s.
Proof.
  intros [w Hr]. remember (Sys client_0 w []) as s0 eqn:E0.
  assert (exists ks, history ks s0) as H0 by (subst; eexists; constructor). clear E0.
  induction Hr as [s|s1 s2 s3 [e w' He E] _ IH]; [done|]. apply IH. destruct H0 as [ks Hk].
  eexists. by eapply history_event.
Qed.

(** In every run, each key of the list was granted by an event before: loaded
    at boot, or written by a peer that was entitled to write, under the key of its
    session; so was the key that waits for the end of a pairing, if there is one. *)
Theorem Client_keys_granted ks s :
  history ks s ->
  (forall k, k ∈ key_bytes (account_key_list (st s)) -> k ∈ ks)
  /\ (account_key (pending_account_key_info (st s)) = replicate ACCOUNT_KEY_SIZE_BYTES 0
      \/ account_key (pending_account_key_info (st s)) ∈ ks).
Proof.
  induction 1 as [w|ks s e w s' Hh [IHl IHp] He E].
  { split; [|by left]. intros k Hk. by apply not_elem_of_nil in Hk. }
  destruct (reachable_ok s (history_reachable _ _ Hh)) as [Hc _]. set (s0 := Sys (st s) w (log s)) in *.
  pose proof (handle_origins e s0 _ He Hc eq_refl) as H. unfold wp in H. rewrite E in H.
  destruct H as ((_ & _ & _ & _ & Hl & Hp) & _). rewrite list.Forall_forall in Hl. split.
  - intros k Hk. apply elem_of_app. destruct (Hl k Hk) as [Hold|Hadd]; [by right; apply IHl|].
    inversion Hadd as [p request Ha _|p Hpub H4|cb k']; subst; cbn [granted].
    + rewrite Ha. left. apply list_elem_of_here.
    + right. destruct IHp as [IHp|IHp]; [|done]. change (st s0) with (st s) in H4. by rewrite IHp in H4.
    + by left.
  - destruct Hp as [Hp|[Hp|Hkept]]; [by left| |].
    + change (account_key_info (st s0)) with (account_key_info (st s)) in Hp.
      rewrite Hp. destruct IHp as [IHp|IHp]; [by left|right]. apply elem_of_app. by right.
    + right. inversion Hkept as [p request Ha]; subst. cbn [granted]. rewrite Ha.
      apply elem_of_app. left. apply list_elem_of_here.
Qed.

End Provenance.

(** * A run on the test platform

    First boot, a phone pairs over Bluetooth and writes its account key: the key of
    the session is still zero, and the test cipher leaves the block as it is. *)
Section Witness.
#[local] Existing Instance sass_config.

Definition booted : @sys first_boot_platform client :=
  deliver (P:=first_boot_platform) (Init true) start_sys.
Definition bonded : @sys first_boot_platform client :=
  deliver (P:=first_boot_platform) (Paired 0xB0B1B2B3B4B5) booted.
Definition key_write : event := GattWrite 0xB0B1B2B3B4B5 kAccountKey test_account_key.
Definition granted_run : @sys first_boot_platform client :=
  deliver (P:=first_boot_platform) key_write bonded.

Lemma key_write_ok : event_ok key_write.
Proof. split; [unfold is_u64; lia|]. split; [by apply bytes_ok_true|done]. Qed.

Lemma bonded_history : history (P:=first_boot_platform) [] bonded.
Proof.
  apply (history_next (P:=first_boot_platform) [] booted (Paired 0xB0B1B2B3B4B5) bonded).
  - apply (history_next (P:=first_boot_platform) [] start_sys (Init true) booted).
    + constructor.
    + done.
    + unfold booted. apply (deliver_done (P:=first_boot_platform)). vm_compute. reflexivity.
    + vm_compute. reflexivity.
  - cbn. unfold is_u64. lia.
  - unfold bonded. apply (deliver_done (P:=first_boot_platform)). vm_compute. reflexivity.
  - reflexivity.
Qed.

Lemma bonded_ok : client_ok (st bonded).
Proof. apply (reachable_ok (P:=first_boot_platform) bonded). apply (history_reachable [] bonded bonded_history). Qed.

Lemma Client_key_provenance_witness :
  test_account_key ∈ key_bytes (account_key_list (st granted_run))
  /\ ((forall k, k ∈ key_bytes (account_key_list (st granted_run)) ->
         k ∈ key_bytes (account_key_list (st bonded)) \/ key_added bonded key_write k)
      /\ (let k := account_key (pending_account_key_info (st granted_run)) in
          k = replicate ACCOUNT_KEY_SIZE_BYTES 0
          \/ k = account_key (pending_account_key_info (st bonded)) \/ key_kept bonded key_write k)).
Proof.
  split; [apply (list_elem_of_lookup_2 _ 0%nat); vm_compute; reflexivity|].
  apply (Client_key_provenance (P:=first_boot_platform) bonded key_write granted_run).
  - exact bonded_ok.
  - exact key_write_ok.
  - unfold granted_run. apply (deliver_here (P:=first_boot_platform)). vm_compute. reflexivity.
Defined.

Lemma Client_keys_granted_witness :
  key_bytes (account_key_list (st granted_run)) = [test_account_key]
  /\ ((forall k, k ∈ key_bytes (account_key_list (st granted_run)) -> k ∈ [test_account_key])
      /\ (account_key (pending_account_key_info (st granted_run)) = replicate ACCOUNT_KEY_SIZE_BYTES 0
          \/ account_key (pending_account_key_info (st granted_run)) ∈ [test_account_key])).
Proof.
  split; [vm_compute; reflexivity|].
  apply (Client_keys_granted (P:=first_boot_platform) [test_account_key] granted_run).
  apply (history_next (P:=first_boot_platform) [] bonded key_write granted_run).
  - exact bonded_history.
  - exact key_write_ok.
  - unfold granted_run. apply (deliver_done (P:=first_boot_platform)). vm_compute. reflexivity.
  - vm_compute. reflexivity.
Defined.

End Witness.
