(* ===== verification/ClientPairingRun.v ===== *)
(** Whole pairings.  A seeker that holds a stored account key and follows the
    protocol in time gets a new account key stored and the device named, in every
    environment; the account key may also arrive before the Bluetooth pairing
    completes.  The steps of a pairing are proved one by one as transitions of a
    [session] and composed. *)

From Stdlib Require Import ZArith Lia.
From stdpp Require Import base list numbers.
From S2P Require Import Prelude Utils Platform SecureElement TestPlatform Crypto AccountKeys.
From S2P Require Import MessageStream Advertisement CryptoSafety AdvertisementSafety.
From S2P Require Import ClientState ClientAdvertising ClientPairing ClientStream.
From S2P Require Import ClientInvariant ClientAdvertisingSafety ClientPairingSafety.
From S2P Require Import ClientStreamSafety Client ClientTheorems ClientAcceptance.
Import Utils.

(** The platform delivers GATT notifications. *)
Class NotifySpec (P : Platform) : Prop :=
  notify_delivered : forall p ch m w,
    resp_status (fst (call (BLE (GattNotify p ch m)) w)) = kNearbyStatusOK.

#[export] Instance first_boot_notify : NotifySpec first_boot_platform.
Proof. done. Qed.

(** * Runs *)
Section Scenario.
Context {C : Config} {P : Platform}.

(** The events in turn, each in an arbitrary environment that satisfies its
    condition: every handler returns, and the run ends in [Q]. *)
Fixpoint scenario (es : list (event * (sys client -> Prop))) (Q : sys client -> Prop)
    (s : sys client) : Prop :=
  match es with
  | [] => Q s
  | (e, T) :: es => forall w, T (Sys (st s) w (log s)) ->
      wp (handle e) (fun _ s' => scenario es Q s') (Sys (st s) w (log s))
  end.

(** At most [t] milliseconds since the timer of the procedure was started. *)
Definition in_time (t : Z) (s : sys client) : Prop :=
  elapsed (clock (env s)) (timeout_start_ms (st s)) <= t.

Definition any_time (s : sys client) : Prop := True.

(** The effects on the log do not depend on the environment. *)
Lemma called_env r resp (s s' : sys client) w :
  called r resp (Sys (st s) w (log s)) s' -> called r resp s s'.
Proof. done. Qed.

End Scenario.

(** * The personalised name *)
Section Name.
Context {C : Config} {P : Platform} {Aes : AesSpec P} {Sha : Sha256Spec P}.

Lemma c_string_app l r : c_string (l ++ 0 :: r) = c_string l.
Proof. induction l as [|c l IH]; cbn [c_string app]; [done|]. by rewrite IH. Qed.

(** The device is renamed, then the name is saved. *)
Definition named (name : list Z) (status : nearby_platform_status) (s s' : sys client) : Prop :=
  exists r1 r2 l, Forall (fun e => is_se (fst e)) l /\ status = resp_status r2
    /\ log s' = (PERSISTENCE (SaveValue kStoredKeyPersonalizedName name), r2)
                :: (BT (SetDeviceName (c_string name)), r1) :: l ++ log s.

Lemma SaveAdditionalData_run name s :
  additional_data_id (st s) = PERSONALIZED_NAME_DATA_ID -> (length name <= 64)%nat ->
  wp (SaveAdditionalData name) (fun r s' => st s' = st s /\ named name r s s') s.
Proof.
  intros Hid Hl. unfold SaveAdditionalData. apply wp_bind, wp_gets. rewrite Hid. cbn [Z.eqb].
  change (PERSONALIZED_NAME_DATA_ID =? PERSONALIZED_NAME_DATA_ID) with true. cbv iota.
  apply wp_bind, wp_uninit. unfold PERSONALIZED_NAME_MAX_SIZE. intros buffer Hbl _.
  apply wp_bind. eapply wp_lift; [apply write_bytes_done; lia|]. cbn [take app].
  pose proof (length_drop buffer (0 + length name)) as Hd.
  destruct (drop (0 + length name) buffer) as [|x rest]; [cbn in Hd; lia|].
  apply wp_bind. eapply wp_lift; [apply store_app|]. change (u8 0) with 0. rewrite c_string_app.
  apply wp_bind, wp_hal_map. intros r1 w1. apply wp_hal_map. intros r2 w2. cbn [st log].
  split; [done|]. exists r1, r2, []. by split.
Qed.

(** The variables after the additional data. *)
Definition data_received (c : client) : client :=
  set_pairing_state kPairingStateIdle (set_account_key_info zero_key_info c).

(** The name in a packet. *)
Definition packet_name (key request : list Z) : list Z :=
  drop NONCE_SIZE (ctr_crypt key (drop ADDITIONAL_DATA_SHA_SIZE request)).
(** The packet has its checksum under the key. *)
Definition authentic_packet (key request : list Z) : bool :=
  bytes_eqb (take ADDITIONAL_DATA_SHA_SIZE request)
    (take ADDITIONAL_DATA_SHA_SIZE (hmac key (drop ADDITIONAL_DATA_SHA_SIZE request))).

Lemma authentic_packet_eq key request :
  authentic_packet key request = true ->
  request = additional_data_packet key (drop ADDITIONAL_DATA_SHA_SIZE request).
Proof.
  intros E%bytes_eqb_eq. unfold additional_data_packet. rewrite <- E. by rewrite take_drop.
Qed.

Lemma OnAdditionalDataWrite_accepted q request s :
  let key := account_key (account_key_info (st s)) in
  pairing_state (st s) = kPairingStateWaitingForAdditionalData ->
  additional_data_id (st s) = PERSONALIZED_NAME_DATA_ID -> key_ok (account_key_info (st s)) ->
  data_packet_ok request -> authentic_packet key request = true ->
  wp (OnAdditionalDataWrite q request) (fun r s' => st s' = data_received (st s)
    /\ named (packet_name key request) r s s') s.
Proof.
  intros key Hs Hid (Hk & Hkb & _) [Hb Hl] Ha. unfold PERSONALIZED_NAME_MAX_SIZE in Hl.
  unfold OnAdditionalDataWrite. apply wp_bind, wp_gets. rewrite Hs. change (state_eqb _ _) with true.
  cbn [negb]. apply wp_bind, wp_gets. fold key. set (tail := drop ADDITIONAL_DATA_SHA_SIZE request).
  assert (length tail = length request - 8)%nat as Htl by (apply length_drop).
  pose proof (authentic_packet_eq _ _ Ha) as Er. fold tail in Er. rewrite Er.
  apply wp_bind. eapply wp_effects; [apply DecodeAdditionalData_effects; [by apply bytes_ok_drop|lia|done|done]|].
  intros [st1 d] s1 [E1 (l1 & Hl1 & Hf1)] [= -> ->]. unfold DiscardAccountKey.
  apply wp_bind, wp_modify. apply wp_bind. change (status_ok kNearbyStatusOK) with true. cbv iota.
  assert (drop ADDITIONAL_DATA_HEADER_SIZE (take 8 (hmac key tail) ++ ctr_crypt key tail)
    = packet_name key request) as ->.
  { unfold ADDITIONAL_DATA_HEADER_SIZE, packet_name, NONCE_SIZE. fold tail.
    rewrite drop_app_ge, tag_length by (rewrite tag_length; lia). done. }
  eapply wp_mono; [apply SaveAdditionalData_run|].
  - cbn [st]. by rewrite E1.
  - unfold packet_name, NONCE_SIZE. fold tail.
    rewrite length_drop, ctr_crypt_length by (unfold NONCE_SIZE; lia). lia.
  - intros r s2 (E2 & r1 & r2 & l & Hl2 & Hr & Hlog). apply wp_bind, wp_modify, wp_ret. cbn [st log] in *.
    rewrite E2, E1. split; [done|]. exists r1, r2, (l ++ l1). split; [by apply Forall_app|].
    split; [done|]. cbn [log]. by rewrite <- Er, Hlog, Hl1, <- app_assoc.
Qed.

End Name.

Section PairingRun.
Context {C : Config} {P : Platform} {Aes : AesSpec P} {Sha : Sha256Spec P} {N : NotifySpec P}.
Context {B : BitmapSpec C P} {St : StoredListSpec C P}.

(** The seeker: its LE address, its public address, the key of the session. *)
Variables (p a : Z) (key : list Z).
Hypothesis p_u64 : is_u64 p.
Hypothesis a_u64 : is_u64 a.

(** A procedure of the seeker in state [x], with [k] waiting for its end and the
    list [L]. *)
Record session (x : PairingState) (k : nearby_platform_AccountKeyInfo) (L : list (list Z * Z))
    (c : client) : Prop := {
  session_ok : client_ok c;
  session_state : pairing_state c = x;
  session_peer : gatt_peer_address c = p;
  session_key : account_key (account_key_info c) = key;
  session_pending : pending_account_key_info c = k;
  session_list : abs_list (account_key_list c) = L;
  session_le : retroactive c p = false;
  session_public : retroactive c a = false;
}.

(** From a session to a state in [R], in the environment of [s]. *)
Definition advances (e : event) (s : sys client) (R : client -> Prop) : Prop :=
  wp (handle e) (fun _ s' => R (st s') /\ ext request_ok s s') s.

(** What the handler does, with the invariant it keeps. *)
Lemma with_invariant e s (Q : sys client -> Prop) :
  event_ok e -> client_ok (st s) -> wp (handle e) (fun _ s' => Q s') s ->
  wp (handle e) (fun _ s' => client_ok (st s') /\ ext request_ok s s' /\ Q s') s.
Proof.
  intros He Hc HQ. eapply wp_mono; [apply (wp_conj _ _ _ _ (handle_wp e s He Hc) HQ)|].
  intros _ s' ((? & ? & _) & ?). done.
Qed.

Lemma ignore_wp {A} (m : M client A) (Q : sys client -> Prop) s :
  wp m (fun _ s' => Q s') s -> wp (ignore m) (fun _ s' => Q s') s.
Proof. intros H. unfold ignore. apply wp_bind. eapply wp_mono; [exact H|]. intros. by apply wp_ret. Qed.

(** ** The steps *)

Lemma session_requested k L s :
  session kPairingStateWaitingForPairingRequest k L (st s) -> in_time WAIT_FOR_PAIRING_REQUEST_TIME_MS s ->
  advances (PairingRequest a) s (fun c => session kPairingStateWaitingForPasskey k L c
    /\ peer_public_address c = a).
Proof.
  intros [Hc Hs Hp Hk Hpk HL Hr Hra] Ht.
  eapply wp_mono; [apply (with_invariant (PairingRequest a) s (fun s' => exists t, st s' =
    set_timeout_start_ms t (set_peer_public_address a
      (set_pairing_state kPairingStateWaitingForPasskey (st s))))); [done|done|]|].
  - cbn [handle]. unfold OnPairingRequest. apply wp_bind, wp_gets. rewrite Hs.
    change (state_eqb _ _) with true. cbv iota.
    apply wp_bind. unfold wp at 1. rewrite ShouldTimeout_run, (proj2 (Z.ltb_ge _ _)) by exact Ht.
    apply wp_bind, wp_modify. apply wp_bind, wp_modify. apply wp_bind, wp_hal_map. intros resp w.
    apply wp_modify. cbn [st env log]. rewrite tick_st. by eexists.
  - intros _ s' (Hc' & Hx & t & E). split; [|done]. rewrite E in Hc' |- *. split; [by split|done].
Qed.

Lemma session_passkey k L s request :
  session kPairingStateWaitingForPasskey k L (st s) -> peer_public_address (st s) = a -> in_time PASSKEY_MAX_WAIT_TIME_MS s ->
  bytes_ok request -> length request = 16%nat ->
  aes_inv key request !! 0%nat = Some SEEKER_PASSKEY_MESSAGE_TYPE ->
  advances (GattWrite p kPasskey request) s
    (fun c => session kPairingStateWaitingForPairingResult k L c /\ peer_public_address c = a).
Proof.
  intros [Hc Hs Hp Hk Hpk HL Hr Hra] Hpub Ht Hb Hl H2.
  eapply wp_mono; [apply (with_invariant (GattWrite p kPasskey request) s (fun s' =>
    st s' = set_pairing_state kPairingStateWaitingForPairingResult (st s))); [done|done|]|].
  - cbn [handle OnGattWrite]. apply ignore_wp.
    eapply wp_mono; [apply (OnPasskeyWrite_run s p request)|by intros r s' (_ & E & _)].
    + unfold passkey_expected. rewrite Hs, Hp, Hl, Z.eqb_refl. by apply Z.leb_le in Ht as ->.
    + by rewrite Hk.
  - intros _ s' (Hc' & Hx & E). split; [|done]. rewrite E in Hc' |- *. split; [by split|done].
Qed.

Lemma no_pending s :
  pending_account_key_info (st s) = zero_key_info -> HasPendingAccountKey s = Done (false, s).
Proof.
  intros E. unfold HasPendingAccountKey.
  rewrite (bind_run _ _ _ _ _ (gets_run pending_account_key_info s)), E. done.
Qed.

Lemma session_paired L s :
  session kPairingStateWaitingForPairingResult zero_key_info L (st s) ->
  advances (Paired a) s (fun c => session kPairingStateWaitingForAccountKeyWrite zero_key_info L c).
Proof.
  intros [Hc Hs Hp Hk Hpk HL Hr Hra].
  eapply wp_mono; [apply (with_invariant (Paired a) s (fun s' => exists t, st s' =
    set_timeout_start_ms t (set_pairing_state kPairingStateWaitingForAccountKeyWrite
      (set_peer_public_address a (st s))))); [done|done|]|].
  - cbn [handle]. unfold OnPaired. apply wp_bind, wp_gets. apply wp_bind. unfold wp at 1.
    rewrite (no_pending s Hpk), andb_false_r. apply wp_bind, wp_modify. apply wp_bind, wp_gets. cbn [st].
    change (pairing_state (set_peer_public_address a (st s))) with (pairing_state (st s)). rewrite Hs.
    change (state_eqb _ _) with true. cbv iota.
    apply wp_bind, wp_modify. apply wp_bind, wp_hal_map. intros resp w. apply wp_modify.
    cbn [st env log]. by eexists.
  - intros _ s' (Hc' & Hx & t & E). split; [|done]. rewrite E in Hc' |- *. by split.
Qed.

(** The key is stored and the provider waits for the name. *)
Record stored (L : list (list Z * Z)) (s s' : sys client) : Prop := {
  stored_ok : client_ok (st s');
  stored_state : pairing_state (st s') = kPairingStateWaitingForAdditionalData;
  stored_id : additional_data_id (st s') = PERSONALIZED_NAME_DATA_ID;
  stored_key : account_key (account_key_info (st s')) = key;
  stored_list : abs_list (account_key_list (st s')) = L;
  stored_saved : list_saved (account_key_list (st s')) s s';
}.

Lemma stored_env L s w s' : stored L (Sys (st s) w (log s)) s' -> stored L s s'.
Proof. intros []. by split. Qed.

Lemma session_key_written L s request :
  session kPairingStateWaitingForAccountKeyWrite zero_key_info L (st s) ->
  in_time ACCOUNT_KEY_WRITE_TIME_MS s -> bytes_ok request -> length request = 16%nat ->
  aes_inv key request !! 0%nat = Some ACCOUNT_KEY_WRITE_MESSAGE_TYPE ->
  wp (handle (GattWrite p kAccountKey request)) (fun _ s' => ext request_ok s s' /\
    stored (lru_add (aes_inv key request, if NEARBY_FP_ENABLE_SASS then p else 0) L) s s') s.
Proof.
  intros [Hc Hs Hp Hk Hpk HL Hr Hra] Ht Hb Hl H4.
  destruct (OnAccountKeyWrite_run s p request) as (l & Habs & Hlok & Hw); [done|done|done| |done|done|by rewrite Hk|].
  { unfold account_key_expected. rewrite Hs, Hp, Z.eqb_refl. by apply Z.leb_le in Ht as ->. }
  rewrite Hk, HL in Habs.
  eapply wp_mono; [apply (with_invariant (GattWrite p kAccountKey request) s
    (fun s' => st s' = key_stored l (st s) /\ list_saved l s s')); [done|done|]|].
  - cbn [handle OnGattWrite]. apply ignore_wp. eapply wp_mono; [exact Hw|]. by intros r s' (_ & ? & ?).
  - intros _ s' (Hc' & Hx & E & Hsv). split; [done|]. rewrite E in Hc'. split; rewrite ?E; done.
Qed.

Lemma stored_named L s0 s request :
  stored L s0 s -> data_packet_ok request -> authentic_packet key request = true ->
  wp (handle (GattWrite p kAdditionalData request)) (fun _ s' =>
    pairing_state (st s') = kPairingStateIdle /\ account_key_info (st s') = zero_key_info
    /\ abs_list (account_key_list (st s')) = L /\ account_key_list (st s') = account_key_list (st s)
    /\ client_ok (st s') /\ ext request_ok s s'
    /\ exists status, named (packet_name key request) status s s') s.
Proof.
  intros [Hc Hs Hid Hk HL Hsv] Hp Ha.
  eapply wp_mono; [apply (with_invariant (GattWrite p kAdditionalData request) s
    (fun s' => st s' = data_received (st s) /\ exists status, named (packet_name key request) status s s'))|].
  - split; [done|]. split; [by destruct Hp|done].
  - done.
  - cbn [handle OnGattWrite]. apply ignore_wp.
    eapply wp_mono; [apply OnAdditionalDataWrite_accepted; [done|done|apply (ok_key_info _ Hc)|done|by rewrite Hk]|].
    intros r s' (E & Hn). rewrite Hk in Hn. split; [done|by exists r].
  - intros _ s' (Hc' & Hx & E & Hn). by rewrite E in Hc' |- *.
Qed.

(** The account key may come before the pairing completes. *)
Lemma session_key_early L s request :
  session kPairingStateWaitingForPairingResult zero_key_info L (st s) ->
  peer_public_address (st s) = a ->
  in_time ACCOUNT_KEY_WRITE_TIME_MS s -> bytes_ok request -> length request = 16%nat ->
  aes_inv key request !! 0%nat = Some ACCOUNT_KEY_WRITE_MESSAGE_TYPE ->
  advances (GattWrite p kAccountKey request) s (fun c =>
    session kPairingStateWaitingForPairingResult (AccountKeyInfo (aes_inv key request) 0) L c
    /\ peer_public_address c = a).
Proof.
  intros [Hc Hs Hp Hk Hpk HL Hr Hra] Hpub Ht Hb Hl H4.
  eapply wp_mono; [apply (with_invariant (GattWrite p kAccountKey request) s (fun s' => st s' =
    set_pending_account_key_info (AccountKeyInfo (aes_inv key request) 0) (st s))); [done|done|]|].
  - cbn [handle OnGattWrite]. apply ignore_wp. unfold OnAccountKeyWrite. apply wp_bind.
    unfold wp at 1. rewrite (account_key_guard_accepts s p (ok_retro _ Hc) Hr).
    2:{ unfold account_key_expected. rewrite Hs, Hp, Z.eqb_refl. by apply Z.leb_le in Ht as ->. }
    rewrite Hs, Hl. change (negb (state_eqb _ _)) with true. cbn [Nat.eqb AES_MESSAGE_SIZE_BYTES negb].
    apply wp_bind, wp_gets. rewrite tick_st, Hk. apply wp_bind.
    eapply wp_effects; [apply Aes128Decrypt_effects|]. intros [st1 d] s1 [E1 _] [= -> ->].
    change (status_ok kNearbyStatusOK) with true. cbn [negb].
    apply wp_bind. eapply wp_lift; [by apply load_done|]. rewrite Z.eqb_refl. cbn [negb].
    apply wp_bind, wp_modify. apply wp_bind, wp_hal_map. intros resp w. apply wp_ret. cbn [st].
    by rewrite E1, tick_st, Hpk.
  - intros _ s' (Hc' & Hx & E). split; [|done]. rewrite E in Hc' |- *. split; [by split|done].
Qed.

Lemma has_pending s k :
  pending_account_key_info (st s) = k -> account_key k !! 0%nat = Some ACCOUNT_KEY_WRITE_MESSAGE_TYPE ->
  HasPendingAccountKey s = Done (true, s).
Proof.
  intros E H4. unfold HasPendingAccountKey.
  rewrite (bind_run _ _ _ _ _ (gets_run pending_account_key_info s)), E.
  unfold lift, mbind, M_bind. by rewrite (load_done _ _ _ H4).
Qed.

Lemma session_completed k L s :
  session kPairingStateWaitingForPairingResult (AccountKeyInfo k 0) L (st s) ->
  peer_public_address (st s) = a -> k !! 0%nat = Some ACCOUNT_KEY_WRITE_MESSAGE_TYPE ->
  wp (handle (Paired a)) (fun _ s' => ext request_ok s s' /\ stored (lru_add (k, 0) L) s s') s.
Proof.
  intros [Hc Hs Hp Hk Hpk HL Hr Hra] Hpub H4. pose proof (ok_pending _ Hc) as Hok. rewrite Hpk in Hok.
  destruct (AddAccountKey_lru _ _ (ok_list _ Hc) (ok_nodup _ Hc) Hok) as (l & E & Habs & Hlok & Hn).
  rewrite HL in Habs.
  eapply wp_mono; [apply (with_invariant (Paired a) s
    (fun s' => st s' = key_stored l (st s) /\ list_saved l s s')); [done|done|]|].
  - cbn [handle]. unfold OnPaired. apply wp_bind, wp_gets. apply wp_bind. unfold wp at 1.
    rewrite (has_pending s _ Hpk H4), Hpub, Z.eqb_refl. cbn [andb].
    apply wp_bind, wp_gets. rewrite Hpk. by apply RunPostPairingSteps_run.
  - intros _ s' (Hc' & Hx & Es & Hsv). split; [done|]. rewrite Es in Hc'. split; rewrite ?Es; try done.
    cbn. rewrite Habs. unfold abs_key. cbn. by destruct NEARBY_FP_ENABLE_SASS.
Qed.

End PairingRun.

(** ** The first request *)
Section Start.
Context {C : Config} {P : Platform} {Aes : AesSpec P} {Sha : Sha256Spec P} {N : NotifySpec P}.
Context {B : BitmapSpec C P} {St : StoredListSpec C P}.

(** The request names the device under the stored key [x], entry [i] of the list,
    and under no earlier one. *)
Definition authenticates (request : list Z) (i : nat) (x : nearby_platform_AccountKeyInfo)
    (s : sys client) : Prop :=
  names_device (env s) (aes_inv (account_key x) request)
  /\ forall n y, (n < i)%nat -> keys_in_use (account_key_list (st s)) !! n = Some y ->
       ~ names_device (env s) (aes_inv (account_key y) request).

(** A request for a pairing that the seeker starts itself. *)
Definition seeker_request (raw : list Z) : Prop :=
  raw !! 0%nat = Some KEY_BASED_PAIRING_REQUEST_FLAG
  /\ exists flags, raw !! 1%nat = Some flags
    /\ nonzero (Z.land flags KBPR_RETROACTIVELY_WRITE_ACCOUNT_KEY_MASK) = false
    /\ nonzero (Z.land flags KBPR_INITIATE_PAIRING_MASK) = false.

Lemma session_started p a s request i x :
  client_ok (st s) -> is_u64 p -> pairing_failure_count (st s) < MAX_PAIRING_FAILURE_COUNT ->
  retroactive (st s) p = false -> retroactive (st s) a = false ->
  bytes_ok request -> length request = 16%nat ->
  keys_in_use (account_key_list (st s)) !! i = Some x -> authenticates request i x s ->
  seeker_request (aes_inv (account_key x) request) ->
  advances (GattWrite p kKeyBasedPairing request) s
    (session p a (account_key x) kPairingStateWaitingForPairingRequest zero_key_info
      (lru_add (account_key x, if NEARBY_FP_ENABLE_SASS then p else 0) (abs_list (account_key_list (st s))))).
Proof.
  intros Hc Hp Hf Hr Hra Hb Hl Hx [Hn Hno] (H0 & flags & H1 & Hb4 & Hb6).
  destruct (OnWriteKeyBasedPairing_run s p request i x flags) as (l & Habs & Hw); try done.
  eapply wp_mono; [apply (with_invariant (GattWrite p kKeyBasedPairing request) s (fun s' => exists t,
    st s' = set_timeout_start_ms t (set_pairing_state kPairingStateWaitingForPairingRequest
      (authenticated l x p (st s))))); [done|done|]|].
  - cbn [handle OnGattWrite]. apply ignore_wp. eapply wp_mono; [exact Hw|].
    intros r s' (_ & status & (d & resp & _ & _ & _ & _ & _ & -> & w & ->) & H). rewrite notify_delivered in H.
    change (status_ok kNearbyStatusOK) with true in H. destruct H as [_ H].
    unfold pairing_started in H. by rewrite Hb6 in H.
  - intros _ s' (Hc' & Hx' & t & E). split; [|done]. rewrite E in Hc' |- *.
    split; cbn; try done. apply session_info_key.
Qed.

(** What the seeker sends: requests of one block, that decrypt to what they are. *)
Record seeker_blocks (key passkey account_key_block name : list Z) : Prop := {
  passkey_block : bytes_ok passkey /\ length passkey = 16%nat
    /\ aes_inv key passkey !! 0%nat = Some SEEKER_PASSKEY_MESSAGE_TYPE;
  key_block : bytes_ok account_key_block /\ length account_key_block = 16%nat
    /\ aes_inv key account_key_block !! 0%nat = Some ACCOUNT_KEY_WRITE_MESSAGE_TYPE;
  name_packet_ok : data_packet_ok name /\ authentic_packet key name = true;
}.

(** The provider is idle again, the key [k] is the most recently used one of the
    saved list, and the device has its name. *)
Definition completed (k : list Z * Z) (L : list (list Z * Z)) (name : list Z) (s s' : sys client)
  : Prop :=
  client_ok (st s') /\ pairing_state (st s') = kPairingStateIdle
  /\ account_key_info (st s') = zero_key_info
  /\ abs_list (account_key_list (st s')) = lru_add k L
  /\ list_saved (account_key_list (st s')) s s'
  /\ (exists resp, called (BT (SetDeviceName (c_string name))) resp s s')
  /\ (exists resp, called (PERSISTENCE (SaveValue kStoredKeyPersonalizedName name)) resp s s').

(** The last step of both orders. *)
Lemma stored_completed p key k L s s0 s1 name :
  is_u64 p -> ext request_ok s s0 -> stored key (lru_add k L) s0 s1 -> ext request_ok s0 s1 ->
  data_packet_ok name -> authentic_packet key name = true ->
  scenario [(GattWrite p kAdditionalData name, any_time)]
    (completed k L (packet_name key name) s) s1.
Proof.
  intros Hp Hx Hst Hx1 Hd Ha w _. pose proof (stored_saved _ _ _ _ Hst) as [resp Hsv].
  set (sw := Sys (st s1) w (log s1)).
  assert (stored key (lru_add k L) s0 sw) as Hst' by (destruct Hst; by split).
  eapply wp_mono; [by apply (stored_named p key Hp (lru_add k L) s0 sw name)|].
  intros _ s2 (Hi & Hk & HL & El & Hc & Hx2 & status & r1 & r2 & l & _ & _ & Hlog).
  assert (ext request_ok s sw) as Hxs by (by eapply ext_trans; [exact Hx|]).
  split; [done|]. split; [done|]. split; [done|]. split; [done|]. split; [|split].
  - exists resp. rewrite El. eapply ext_called; [exact Hx|]. eapply called_ext; [exact Hsv|exact Hx2].
  - exists r1. eapply ext_called; [exact Hxs|]. eexists (_ :: _ :: l). split; [exact Hlog|].
    apply list_elem_of_further, list_elem_of_here.
  - exists r2. eapply ext_called; [exact Hxs|]. eexists (_ :: _ :: l). split; [exact Hlog|].
    apply list_elem_of_here.
Qed.

(** An event that advances the session, then the rest. *)
Lemma scenario_advance e (T : sys client -> Prop) es Q s (R : client -> Prop) :
  (forall s0, st s0 = st s -> T s0 -> advances e s0 R) ->
  (forall s', R (st s') -> ext request_ok s s' -> scenario es Q s') ->
  scenario ((e, T) :: es) Q s.
Proof.
  intros Hadv Hes w Hw. eapply wp_mono; [by apply Hadv|]. intros _ s' [HR Hx]. by apply Hes.
Qed.

(** The first three steps of a pairing: a request that is authenticated, the
    Bluetooth pairing, the passkeys. *)
Lemma pairing_steps p a key L s e T passkey key_block name es Q :
  is_u64 p -> is_u64 a -> seeker_blocks key passkey key_block name ->
  (forall s0, st s0 = st s -> T s0 ->
     advances e s0 (session p a key kPairingStateWaitingForPairingRequest zero_key_info L)) ->
  (forall s', ext request_ok s s' -> peer_public_address (st s') = a ->
     session p a key kPairingStateWaitingForPairingResult zero_key_info L (st s') ->
     scenario es Q s') ->
  scenario ((e, T)
    :: (PairingRequest a, in_time WAIT_FOR_PAIRING_REQUEST_TIME_MS)
    :: (GattWrite p kPasskey passkey, in_time PASSKEY_MAX_WAIT_TIME_MS) :: es) Q s.
Proof.
  intros Hp Ha [(Hpb & Hpl & Hp2) _ _] Hstart Hes.
  eapply scenario_advance; [exact Hstart|]. intros s1 H1 Hx1. eapply scenario_advance.
  { intros s0 E Ht. rewrite <- E in H1. by apply session_requested. }
  intros s2 [H2 Hpub] Hx2. eapply scenario_advance.
  { intros s0 E Ht. rewrite <- E in H2, Hpub. by eapply session_passkey. }
  intros s3 [H3 Hpub3] Hx3. apply Hes; [|exact Hpub3|exact H3].
  eapply ext_trans; [exact Hx1|]. by eapply ext_trans.
Qed.

(** The events after the request, the account key being written when the pairing is
    complete. *)
Definition pairing_events (p a : Z) (passkey key_block name : list Z)
  : list (event * (sys client -> Prop)) :=
  [(PairingRequest a, in_time WAIT_FOR_PAIRING_REQUEST_TIME_MS);
   (GattWrite p kPasskey passkey, in_time PASSKEY_MAX_WAIT_TIME_MS);
   (Paired a, any_time);
   (GattWrite p kAccountKey key_block, in_time ACCOUNT_KEY_WRITE_TIME_MS);
   (GattWrite p kAdditionalData name, any_time)].

Lemma pairing_run p a key L s e T passkey key_block name :
  is_u64 p -> is_u64 a -> seeker_blocks key passkey key_block name ->
  (forall s0, st s0 = st s -> T s0 ->
     advances e s0 (session p a key kPairingStateWaitingForPairingRequest zero_key_info L)) ->
  scenario ((e, T) :: pairing_events p a passkey key_block name)
    (completed (aes_inv key key_block, if NEARBY_FP_ENABLE_SASS then p else 0) L
       (packet_name key name) s) s.
Proof.
  intros Hp Ha Hbl Hstart. eapply pairing_steps; [done|done|exact Hbl|exact Hstart|].
  intros s3 Hx3 _ H3. pose proof Hbl as [_ (Hkb & Hkl & Hk4) [Hnp Hna]].
  eapply scenario_advance.
  { intros s0 E _. rewrite <- E in H3. by apply session_paired. }
  intros s4 H4 Hx4 w Ht. cbn beta in H4. set (sw := Sys (st s4) w (log s4)) in *.
  eapply wp_mono; [by apply (session_key_written p a key Hp L sw key_block)|].
  intros _ s5 [Hx5 H5]. apply (stored_completed p key _ _ s sw); try done.
  eapply ext_trans; [exact Hx3|exact Hx4].
Qed.

(** C24. A seeker that holds a stored account key and follows the protocol in time
    is paired by a provider that is not locked out by failures, has no retroactive
    pairing with it under way and whose stack delivers notifications, whatever else
    the environment does: after its request, its Bluetooth
    pairing request and its passkey within ten seconds each, the end of the
    pairing, its account key within a minute and the name of the device, the
    provider is idle, the new key is the most recently used one and is saved, and
    the device has its name. *)
Theorem Pairing_completes p a s request i x passkey key_block name :
  client_ok (st s) -> is_u64 p -> is_u64 a -> pairing_failure_count (st s) < MAX_PAIRING_FAILURE_COUNT ->
  retroactive (st s) p = false -> retroactive (st s) a = false ->
  bytes_ok request -> length request = 16%nat ->
  keys_in_use (account_key_list (st s)) !! i = Some x ->
  let key := account_key x in
  seeker_request (aes_inv key request) -> seeker_blocks key passkey key_block name ->
  let address := if NEARBY_FP_ENABLE_SASS then p else 0 in
  scenario
    ((GattWrite p kKeyBasedPairing request, authenticates request i x)
     :: pairing_events p a passkey key_block name)
    (completed (aes_inv key key_block, address)
       (lru_add (key, address) (abs_list (account_key_list (st s)))) (packet_name key name) s) s.
Proof.
  intros Hc Hp Ha Hf Hr Hra Hb Hl Hx key Hreq Hbl address. apply pairing_run; [done|done|done|].
  intros s0 E Hauth. rewrite <- E in *. by apply (session_started p a s0 request i x).
Qed.

(** The account key may arrive before the Bluetooth pairing completes: it is
    kept until then and stored with the pairing, after which the name is accepted
    as in the other order. *)
Theorem Pairing_completes_early_key p a s request i x passkey key_block name :
  client_ok (st s) -> is_u64 p -> is_u64 a -> pairing_failure_count (st s) < MAX_PAIRING_FAILURE_COUNT ->
  retroactive (st s) p = false -> retroactive (st s) a = false ->
  bytes_ok request -> length request = 16%nat ->
  keys_in_use (account_key_list (st s)) !! i = Some x ->
  let key := account_key x in
  seeker_request (aes_inv key request) -> seeker_blocks key passkey key_block name ->
  scenario
    [(GattWrite p kKeyBasedPairing request, authenticates request i x);
     (PairingRequest a, in_time WAIT_FOR_PAIRING_REQUEST_TIME_MS);
     (GattWrite p kPasskey passkey, in_time PASSKEY_MAX_WAIT_TIME_MS);
     (GattWrite p kAccountKey key_block, in_time ACCOUNT_KEY_WRITE_TIME_MS);
     (Paired a, any_time);
     (GattWrite p kAdditionalData name, any_time)]
    (completed (aes_inv key key_block, 0)
       (lru_add (key, if NEARBY_FP_ENABLE_SASS then p else 0) (abs_list (account_key_list (st s))))
       (packet_name key name) s) s.
Proof.
  intros Hc Hp Ha Hf Hr Hra Hb Hl Hx key Hreq Hbl.
  apply pairing_steps with (key := key) (key_block := key_block) (name := name)
    (L := lru_add (key, if NEARBY_FP_ENABLE_SASS then p else 0) (abs_list (account_key_list (st s))));
    [done|done|done| |].
  { intros s0 E Hauth. rewrite <- E in *. by apply (session_started p a s0 request i x). }
  intros s3 Hx3 Hpub H3. pose proof Hbl as [_ (Hkb & Hkl & Hk4) [Hnp Hna]].
  eapply scenario_advance.
  { intros s0 E Ht. rewrite <- E in H3, Hpub. by eapply session_key_early. }
  intros s4 [H4 Hpub4] Hx4 w _. set (sw := Sys (st s4) w (log s4)) in *.
  eapply wp_mono; [by apply (session_completed p a key Ha (aes_inv key key_block)
    (lru_add (key, if NEARBY_FP_ENABLE_SASS then p else 0) (abs_list (account_key_list (st s)))) sw)|].
  intros _ s5 [Hx5 H5]. apply (stored_completed p key _ _ s sw); try done.
  eapply ext_trans; [exact Hx3|exact Hx4].
Qed.

(** ** A seeker without account key *)
Context {Sec : SecretSpec P}.

Lemma session_started_public p a s request key :
  client_ok (st s) -> is_u64 p -> pairing_failure_count (st s) < MAX_PAIRING_FAILURE_COUNT ->
  retroactive (st s) p = false -> retroactive (st s) a = false ->
  bytes_ok request -> length request = 80%nat -> session_secret request = Some key ->
  seeker_request (public_request key request) -> names_device (env s) (public_request key request) ->
  advances (GattWrite p kKeyBasedPairing request) s
    (session p a key kPairingStateWaitingForPairingRequest zero_key_info
      (abs_list (account_key_list (st s)))).
Proof.
  intros Hc Hp Hf Hr Hra Hb Hl Hk (H0 & flags & H1 & Hb4 & Hb6) Hn.
  eapply wp_mono; [apply (with_invariant (GattWrite p kKeyBasedPairing request) s (fun s' => exists t,
    st s' = set_timeout_start_ms t (set_pairing_state kPairingStateWaitingForPairingRequest
      (authenticated_public key p (st s))))); [done|done|]|].
  - cbn [handle OnGattWrite]. apply ignore_wp.
    eapply wp_mono; [apply (OnWriteKeyBasedPairing_public_run s p request flags); try done|].
    { intros k [= <-]%(eq_trans (eq_sym Hk)) _. done. }
    rewrite Hk. cbv zeta. intros r s' H.
    assert (address_matches (ble_address (env s)) (public_address (env s)) (public_request key request) = true) as Hm
      by (apply matches_iff_names; [apply be_bytes_length..|apply aes_inv_length|exact Hn]).
    rewrite Hm in H.
    destruct H as (status & (d & resp & _ & _ & _ & _ & _ & -> & w & ->) & H). rewrite notify_delivered in H.
    change (status_ok kNearbyStatusOK) with true in H. destruct H as [_ H].
    unfold pairing_started in H. by rewrite Hb6 in H.
  - intros _ s' (Hc' & Hx' & t & E). split; [|done]. rewrite E in Hc' |- *. by split.
Qed.

(** A first pairing, with a seeker that has no account key yet but sends its
    public key, completes in the same way: the key list gains the seeker's new key,
    encrypted under the key derived from the shared secret. *)
Theorem First_pairing_completes p a s request key passkey key_block name :
  client_ok (st s) -> is_u64 p -> is_u64 a -> pairing_failure_count (st s) < MAX_PAIRING_FAILURE_COUNT ->
  retroactive (st s) p = false -> retroactive (st s) a = false ->
  bytes_ok request -> length request = 80%nat -> session_secret request = Some key ->
  seeker_request (public_request key request) -> seeker_blocks key passkey key_block name ->
  scenario
    ((GattWrite p kKeyBasedPairing request, fun s => names_device (env s) (public_request key request))
     :: pairing_events p a passkey key_block name)
    (completed (aes_inv key key_block, if NEARBY_FP_ENABLE_SASS then p else 0)
       (abs_list (account_key_list (st s))) (packet_name key name) s) s.
Proof.
  intros Hc Hp Ha Hf Hr Hra Hb Hl Hk Hreq Hbl. apply pairing_run; [done|done|done|].
  intros s0 E Hn. rewrite <- E in *. by apply session_started_public.
Qed.

End Start.

(** * A pairing on the test platform

    Peer 7, public address B0:B1:B2:B3:B4:B5, holds the second of the five stored
    keys. *)
Section Witness.
#[local] Existing Instance sass_config.
#[local] Existing Instance first_boot_platform.

Definition keyed_sys : @sys first_boot_platform client :=
  @Sys first_boot_platform client keyed_client test_world_0 [].
Definition seeker_address : Z := 0xB0B1B2B3B4B5.
Definition pairing_request_block : list Z :=
  [2; 2; 2; 2; 184; 184; 184; 184; 3; 0; 1; 6; 7; 4; 11; 11].
Definition passkey_write : list Z := replicate 16 0.
Definition account_key_write : list Z := 6 :: replicate 15 0.
Definition example_key : list Z := account_key (test_key 2).
Definition name_write : list Z :=
  additional_data_packet (Sha:=first_boot_sha256) example_key
    (ctr_crypt (Aes:=first_boot_aes) example_key (replicate 8 1 ++ [72; 105])).

Lemma example_seeker : seeker_request (aes_inv example_key pairing_request_block).
Proof. split; [vm_compute; reflexivity|]. exists 0. vm_compute. auto. Qed.

Lemma example_blocks :
  seeker_blocks (P:=first_boot_platform) example_key passkey_write account_key_write name_write.
Proof.
  split.
  - split; [by apply bytes_ok_true|]. split; [done|vm_compute; reflexivity].
  - split; [by apply bytes_ok_true|]. split; [done|vm_compute; reflexivity].
  - split; [|vm_compute; reflexivity]. split; [by apply bytes_ok_true; vm_compute|].
    vm_compute. lia.
Qed.

Example Pairing_completes_witness :
  scenario
    ((GattWrite 7 kKeyBasedPairing pairing_request_block, authenticates pairing_request_block 1 (test_key 2))
     :: pairing_events 7 seeker_address passkey_write account_key_write name_write)
    (completed (aes_inv (account_key (test_key 2)) account_key_write, if NEARBY_FP_ENABLE_SASS then 7 else 0)
       (lru_add (account_key (test_key 2), if NEARBY_FP_ENABLE_SASS then 7 else 0)
          (abs_list (account_key_list (st keyed_sys))))
       (packet_name (account_key (test_key 2)) name_write) keyed_sys)
    keyed_sys.
Proof.
  apply (Pairing_completes (P:=first_boot_platform) 7 seeker_address keyed_sys pairing_request_block 1 (test_key 2)
    passkey_write account_key_write name_write).
  - exact keyed_client_ok.
  - unfold is_u64. lia.
  - unfold is_u64, seeker_address. lia.
  - reflexivity.
  - reflexivity.
  - reflexivity.
  - by apply bytes_ok_true.
  - reflexivity.
  - reflexivity.
  - exact example_seeker.
  - exact example_blocks.
Defined.

Example Pairing_completes_early_key_witness :
  scenario
    [(GattWrite 7 kKeyBasedPairing pairing_request_block, authenticates pairing_request_block 1 (test_key 2));
     (PairingRequest seeker_address, in_time WAIT_FOR_PAIRING_REQUEST_TIME_MS);
     (GattWrite 7 kPasskey passkey_write, in_time PASSKEY_MAX_WAIT_TIME_MS);
     (GattWrite 7 kAccountKey account_key_write, in_time ACCOUNT_KEY_WRITE_TIME_MS);
     (Paired seeker_address, any_time);
     (GattWrite 7 kAdditionalData name_write, any_time)]
    (completed (aes_inv (account_key (test_key 2)) account_key_write, 0)
       (lru_add (account_key (test_key 2), if NEARBY_FP_ENABLE_SASS then 7 else 0)
          (abs_list (account_key_list (st keyed_sys))))
       (packet_name (account_key (test_key 2)) name_write) keyed_sys)
    keyed_sys.
Proof.
  apply (Pairing_completes_early_key (P:=first_boot_platform) 7 seeker_address keyed_sys pairing_request_block 1 (test_key 2)
    passkey_write account_key_write name_write).
  - exact keyed_client_ok.
  - unfold is_u64. lia.
  - unfold is_u64, seeker_address. lia.
  - reflexivity.
  - reflexivity.
  - reflexivity.
  - by apply bytes_ok_true.
  - reflexivity.
  - reflexivity.
  - exact example_seeker.
  - exact example_blocks.
Defined.

(** A seeker without account key. *)
Definition first_public_key : list Z := replicate 64 1.
Definition first_key : list Z := take 16 (toy_sha256 (fit 32 first_public_key)).
Definition first_request : list Z :=
  toy_aes first_key ([0; 0] ++ be_bytes 6 0xBABABABA ++ replicate 8 1) ++ first_public_key.
Definition first_passkey : list Z := toy_aes first_key (2 :: replicate 15 0).
Definition first_key_write : list Z := toy_aes first_key (4 :: replicate 15 9).
Definition first_name : list Z :=
  additional_data_packet (Sha:=first_boot_sha256) first_key
    (ctr_crypt (Aes:=first_boot_aes) first_key (replicate 8 1 ++ [72; 105])).
Definition empty_sys : @sys first_boot_platform client :=
  @Sys first_boot_platform client client_0 test_world_0 [].

Lemma first_blocks : seeker_blocks (P:=first_boot_platform) first_key first_passkey first_key_write first_name.
Proof.
  split.
  - split; [by apply bytes_ok_true; vm_compute|]. split; [done|vm_compute; reflexivity].
  - split; [by apply bytes_ok_true; vm_compute|]. split; [done|vm_compute; reflexivity].
  - split; [|vm_compute; reflexivity]. split; [by apply bytes_ok_true; vm_compute|].
    vm_compute. lia.
Qed.

Example First_pairing_completes_witness :
  scenario
    ((GattWrite 7 kKeyBasedPairing first_request,
      fun s => names_device (env s) (public_request first_key first_request))
     :: pairing_events 7 seeker_address first_passkey first_key_write first_name)
    (completed (aes_inv first_key first_key_write, if NEARBY_FP_ENABLE_SASS then 7 else 0)
       (abs_list (account_key_list (st empty_sys))) (packet_name first_key first_name) empty_sys) empty_sys.
Proof.
  apply (First_pairing_completes (P:=first_boot_platform) 7 seeker_address empty_sys first_request first_key
    first_passkey first_key_write first_name).
  - exact client_0_ok.
  - unfold is_u64. lia.
  - unfold is_u64, seeker_address. lia.
  - reflexivity.
  - reflexivity.
  - reflexivity.
  - by apply bytes_ok_true; vm_compute.
  - reflexivity.
  - vm_compute. reflexivity.
  - split; [vm_compute; reflexivity|]. exists 0. vm_compute. auto.
  - exact first_blocks.
Defined.

(** The conditions of the first event can hold. *)
Example example_authenticates : authenticates pairing_request_block 1 (test_key 2) keyed_sys.
Proof.
  split; [left; vm_compute; reflexivity|]. intros n y Hn Hy. replace n with 0%nat in Hy by lia.
  vm_compute in Hy. injection Hy as <-. intros [H|H]; vm_compute in H; discriminate.
Qed.

(** The run with the clock standing still ends idle, with the new key first and the
    name saved. *)
Example pairing_run_result :
  match run [GattWrite 7 kKeyBasedPairing pairing_request_block; PairingRequest seeker_address;
             GattWrite 7 kPasskey passkey_write; Paired seeker_address;
             GattWrite 7 kAccountKey account_key_write; GattWrite 7 kAdditionalData name_write] keyed_sys with
  | Done s => pairing_state (st s) = kPairingStateIdle
      /\ head (abs_list (account_key_list (st s))) = Some (toy_aes example_key account_key_write, 7)
      /\ tw_stored_name (env s) = [72; 105]
  | _ => False
  end.
Proof. vm_compute. auto. Qed.

End Witness.
