(* ===== verification/ClientRetroactive.v ===== *)
(** Retroactive pairing at the provider: a peer that was paired by Bluetooth alone may
    write an account key for a minute.  The table of such peers is read and written
    entry by entry in the code; here its operations are given as functions on the
    table, and the two GATT writes of a retroactive pairing as runs.  The last theorem
    shows how the address of a free entry lets a stranger in. *)

From Stdlib Require Import ZArith Lia.
From stdpp Require Import base list numbers.
From S2P Require Import Prelude Utils Platform SecureElement TestPlatform Crypto AccountKeys.
From S2P Require Import MessageStream Advertisement CryptoSafety AdvertisementSafety.
From S2P Require Import ClientState ClientAdvertising ClientPairing ClientStream.
From S2P Require Import ClientInvariant ClientAdvertisingSafety ClientPairingSafety.
From S2P Require Import ClientStreamSafety Client ClientTheorems ClientAcceptance ClientPairingRun.
Import Utils.

Open Scope Z_scope.
Open Scope fp_scope.

(** * The table *)
Section Table.
Context {C : Config} {P : Platform}.
Implicit Types (x y : retroactive_pairing_peer) (l : list retroactive_pairing_peer).

(** The first entry of a public address, and the table with its LE address set. *)
Definition listed_peer (a : Z) l : option retroactive_pairing_peer :=
  find (fun x => retro_public_address x =? a) l.
Definition set_le (le : Z) x : retroactive_pairing_peer :=
  RetroPeer (retro_public_address x) le (retroactive_pairing_time_start_ms x).
Fixpoint with_le (a le : Z) l : list retroactive_pairing_peer :=
  match l with
  | [] => []
  | x :: l => if retro_public_address x =? a then set_le le x :: l else x :: with_le a le l
  end.

(** The table without a peer. *)
Definition clear_peer (p : Z) x : retroactive_pairing_peer :=
  if peer_matches p x
  then RetroPeer INVALID_PEER_ADDRESS INVALID_PEER_ADDRESS (retroactive_pairing_time_start_ms x)
  else x.

(** [x] is the only entry of [p]. *)
Definition only_entry (p : Z) x l : Prop :=
  exists l1 l2, l = l1 ++ x :: l2 /\ peer_matches p x = true
    /\ existsb (peer_matches p) l1 = false /\ existsb (peer_matches p) l2 = false.

Lemma two_peers c : client_ok c -> exists x y, retroactive_pairing_list c = [x; y].
Proof.
  intros Hc. pose proof (ok_retro _ Hc) as Hl. unfold NEARBY_MAX_RETROACTIVE_PAIRING in Hl.
  destruct (retroactive_pairing_list c) as [|x [|y [|]]]; try done. by exists x, y.
Qed.

Lemma get_peer_run i s x : retroactive_pairing_list (st s) !! i = Some x -> get_peer i s = Done (x, s).
Proof.
  intros H. unfold get_peer. rewrite (bind_run _ _ _ _ _ (gets_run retroactive_pairing_list s)). by rewrite H.
Qed.

(** The variables with another table. *)
Definition with_table l (s : sys client) : sys client :=
  Sys (set_retroactive_pairing_list l (st s)) (env s) (log s).

Lemma put_peer_run i x s y :
  retroactive_pairing_list (st s) !! i = Some y ->
  put_peer i x s = Done (tt, with_table (<[i := x]> (retroactive_pairing_list (st s))) s).
Proof. intros H. unfold put_peer. by rewrite (bind_run _ _ _ _ _ (get_peer_run i s y H)). Qed.

Lemma with_table_same s : with_table (retroactive_pairing_list (st s)) s = s.
Proof. by destruct s as [[] ?]. Qed.

Lemma SetLe_run a le s :
  client_ok (st s) ->
  SetRetroactivePairingPeerLe a le s
  = Done (match listed_peer a (retroactive_pairing_list (st s)) with Some _ => true | None => false end,
          with_table (with_le a le (retroactive_pairing_list (st s))) s).
Proof.
  intros Hc. destruct (two_peers _ Hc) as (x & y & E). rewrite E.
  unfold SetRetroactivePairingPeerLe, NEARBY_MAX_RETROACTIVE_PAIRING, listed_peer, with_le.
  cbn [SetRetroactiveLe_loop find]. rewrite (bind_run _ _ _ _ _ (get_peer_run 0 s x ltac:(by rewrite E))).
  destruct (retro_public_address x =? a).
  { rewrite (bind_run _ _ _ _ _ (put_peer_run 0 _ s x ltac:(by rewrite E))), E. done. }
  rewrite (bind_run _ _ _ _ _ (get_peer_run 1 s y ltac:(by rewrite E))).
  destruct (retro_public_address y =? a).
  { rewrite (bind_run _ _ _ _ _ (put_peer_run 1 _ s y ltac:(by rewrite E))), E. done. }
  rewrite <- E, with_table_same. done.
Qed.

Lemma Remove_run p s :
  client_ok (st s) ->
  RemoveRetroactivePairingPeer p s = Done (tt, with_table (map (clear_peer p) (retroactive_pairing_list (st s))) s).
Proof.
  intros Hc. destruct (two_peers _ Hc) as (x & y & E). rewrite E.
  unfold RemoveRetroactivePairingPeer, NEARBY_MAX_RETROACTIVE_PAIRING, clear_peer.
  cbn [RemoveRetroactive_loop map]. rewrite (bind_run _ _ _ _ _ (get_peer_run 0 s x ltac:(by rewrite E))).
  destruct (peer_matches p x).
  - rewrite (bind_run _ _ _ _ _ (put_peer_run 0 _ s x ltac:(by rewrite E))), E.
    set (s1 := with_table _ s). rewrite (bind_run _ _ _ _ _ (get_peer_run 1 s1 y ltac:(done))).
    destruct (peer_matches p y); [|done].
    rewrite (bind_run _ _ _ _ _ (put_peer_run 1 _ s1 y ltac:(done))). done.
  - rewrite (bind_run (mret tt) _ s tt s) by done.
    rewrite (bind_run _ _ _ _ _ (get_peer_run 1 s y ltac:(by rewrite E))).
    destruct (peer_matches p y).
    + rewrite (bind_run _ _ _ _ _ (put_peer_run 1 _ s y ltac:(by rewrite E))), E. done.
    + rewrite <- E, with_table_same. done.
Qed.

Lemma Timeout_run p x s :
  client_ok (st s) -> only_entry p x (retroactive_pairing_list (st s)) ->
  RetroactivePairingPeerTimeout p s
  = Done (RETRO_PAIRING_REQUEST_TIME_MS <? elapsed (clock (env s)) (retroactive_pairing_time_start_ms x), tick s).
Proof.
  intros Hc (l1 & l2 & E & Hx & H1 & H2). pose proof (ok_retro _ Hc) as Hl.
  rewrite E, length_app in Hl. unfold NEARBY_MAX_RETROACTIVE_PAIRING in Hl. cbn [length] in Hl.
  unfold RetroactivePairingPeerTimeout, NEARBY_MAX_RETROACTIVE_PAIRING, elapsed. cbn [RetroactiveTimeout_loop].
  destruct l1 as [|z [|]]; [|destruct l2 as [|]|]; cbn [length] in Hl; try lia.
  - destruct l2 as [|y [|]]; try done. cbn [existsb] in H2. apply orb_false_elim in H2 as [Hy _].
    rewrite (bind_run _ _ _ _ _ (get_peer_run 0 s x ltac:(by rewrite E))), Hx.
    rewrite (bind_run _ _ _ _ _ (now_run s)). destruct (_ <? _); [done|].
    rewrite (bind_run _ _ _ _ _ (get_peer_run 1 (tick s) y ltac:(by rewrite tick_st, E))), Hy. done.
  - cbn [existsb] in H1. apply orb_false_elim in H1 as [Hz _].
    rewrite (bind_run _ _ _ _ _ (get_peer_run 0 s z ltac:(by rewrite E))), Hz.
    rewrite (bind_run _ _ _ _ _ (get_peer_run 1 s x ltac:(by rewrite E))), Hx.
    rewrite (bind_run _ _ _ _ _ (now_run s)). by destruct (_ <? _).
Qed.

(** Setting the LE address of a listed peer makes that entry the only one of [p]. *)
Lemma with_le_entry a p x l :
  listed_peer a l = Some x -> existsb (peer_matches p) l = false ->
  only_entry p (set_le p x) (with_le a p l).
Proof.
  induction l as [|y l IH]; cbn [listed_peer find existsb with_le]; [done|].
  intros H [Hy Hl]%orb_false_elim. destruct (retro_public_address y =? a).
  - injection H as ->. exists [], l. split; [done|]. split; [|done].
    unfold peer_matches, set_le. cbn. by rewrite Z.eqb_refl, orb_true_r.
  - destruct (IH H Hl) as (l1 & l2 & -> & ? & H1 & ?). exists (y :: l1), l2. cbn [existsb]. by rewrite Hy, H1.
Qed.

Lemma with_le_length a p l : length (with_le a p l) = length l.
Proof. induction l as [|x l IH]; cbn; [done|]. destruct (_ =? _); cbn; by rewrite ?IH. Qed.

Lemma listed_retroactive c a x : listed_peer a (retroactive_pairing_list c) = Some x -> retroactive c a = true.
Proof.
  unfold listed_peer, retroactive. intros [Hin Ha]%find_some. apply existsb_exists. exists x.
  split; [done|]. unfold peer_matches. by rewrite Ha.
Qed.

Lemma only_retroactive c p x : only_entry p x (retroactive_pairing_list c) -> retroactive c p = true.
Proof.
  intros (l1 & l2 & E & Hx & _). unfold retroactive. rewrite E, existsb_app. cbn [existsb].
  by rewrite Hx, orb_true_r.
Qed.

Lemma set_table_ok l c :
  length l = NEARBY_MAX_RETROACTIVE_PAIRING -> client_ok c -> client_ok (set_retroactive_pairing_list l c).
Proof. intros Hl []. by split. Qed.

End Table.

(** * The two writes *)
Section Writes.
Context {C : Config} {P : Platform} {Aes : AesSpec P} {Sha : Sha256Spec P} {Sec : SecretSpec P}.

(** A request for a retroactive pairing by the seeker with the public address [a]. *)
Definition retroactive_request (raw : list Z) (flags a : Z) : Prop :=
  raw !! 0%nat = Some KEY_BASED_PAIRING_REQUEST_FLAG /\ raw !! 1%nat = Some flags
  /\ nonzero (Z.land flags KBPR_RETROACTIVELY_WRITE_ACCOUNT_KEY_MASK) = true
  /\ be_value (take 6 (drop KBPR_SEEKER_ADDRESS_OFFSET raw)) = a.

(** The variables once the entry of [a] has the LE address [p]. *)
Definition retro_started (a p : Z) (c : client) : client :=
  set_retroactive_pairing_list (with_le a p (retroactive_pairing_list c)) c.

Lemma HandleRetroactive_run p raw flags a x s :
  client_ok (st s) -> length raw = 16%nat -> bytes_ok raw ->
  retroactive_request raw flags a -> listed_peer a (retroactive_pairing_list (st s)) = Some x ->
  wp (HandleKeyBasedPairingRequest p raw) (fun r s' => r = kNearbyStatusOK /\ ext any_call s s'
    /\ st s' = retro_started a p (st s)) s.
Proof.
  intros Hc Hl Hb (_ & Hf & Hr & Ha) Hx. unfold HandleKeyBasedPairingRequest.
  apply wp_bind. eapply wp_lift; [by apply load_done|]. apply wp_bind.
  eapply wp_mono with (Q := fun _ s1 => st s = st s1 /\ ext request_ok s s1 /\ True).
  { match goal with |- wp ?m _ _ => assert (safe request_ok (eq (st s)) m (fun _ => True)) as Hs end;
      [|by apply Hs].
    on_if. step ltac:(apply NotifyPersonalizedName_safe; intros ? <-; by apply ok_key_info).
    intros _ _. by apply safe_ret. }
  intros _ s1 (E1 & Hx1 & _). rewrite Hr. apply ext_any in Hx1.
  apply wp_bind. eapply wp_lift.
  { apply GetBigEndian48_spec; [done|]. rewrite Hl. by apply Nat.leb_le. }
  rewrite Ha. rewrite E1 in Hc, Hx.
  apply wp_bind. unfold wp at 1. rewrite Pending_run by (by apply ok_retro).
  rewrite (listed_retroactive _ _ _ Hx). cbn [negb].
  apply wp_bind. unfold wp at 1. rewrite SetLe_run, Hx by done. cbn [negb]. apply wp_ret.
  unfold retro_started. by rewrite E1.
Qed.

Lemma accept_retroactive_run p raw flags a x s :
  client_ok (st s) -> is_u64 p -> length raw = 16%nat -> bytes_ok raw ->
  retroactive_request raw flags a -> listed_peer a (retroactive_pairing_list (st s)) = Some x ->
  let c := set_pending_account_key_info zero_key_info
             (set_gatt_peer_address p (set_pairing_failure_count 0 (st s))) in
  wp (accept_request p raw) (fun r s' => ext any_call s s' /\
    exists status, response_notified p (account_key (account_key_info (st s)))
        (wants_extended flags) status s s' /\
      if status_ok status then r = kNearbyStatusOK /\ st s' = retro_started a p c
      else r = status /\ st s' = c) s.
Proof.
  intros Hc Hp Hl Hb Hreq Hx c. pose proof Hreq as (H0 & H1 & _).
  assert (client_ok c) as Hc1.
  { destruct Hc. pose proof zero_key_info_ok. split; cbn; auto. unfold MAX_PAIRING_FAILURE_COUNT. lia. }
  unfold accept_request, DiscardPendingAccountKey.
  do 3 apply wp_bind, wp_modify. cbn [st env log]. fold c.
  apply wp_bind. eapply wp_lift; [by apply load_done|].
  apply wp_bind. eapply wp_lift; [by apply load_done|].
  rewrite Z.eqb_refl. cbn [andb]. fold (wants_extended flags).
  apply wp_bind. eapply wp_mono; [apply SendKeyBasedPairingResponse_run|].
  intros status s1 (E1 & Hx1 & Hn). cbn [st] in E1, Hn.
  destruct (status_ok status) eqn:Es; cbn [negb].
  - eapply wp_mono; [apply (HandleRetroactive_run p raw flags a x); rewrite ?E1; done|].
    intros r s2 (-> & Hx2 & E2). rewrite E1 in E2. split; [by eapply ext_trans|]. exists status.
    split; [by eapply response_notified_ext|]. by rewrite Es.
  - apply wp_ret. split; [done|]. exists status. rewrite Es. by split.
Qed.

Lemma OnWriteKeyBasedPairing_retroactive s p request key flags a x :
  client_ok (st s) -> is_u64 p -> pairing_failure_count (st s) < MAX_PAIRING_FAILURE_COUNT ->
  length request = 80%nat -> session_secret request = Some key ->
  let raw := public_request key request in
  names_device (env s) raw -> retroactive_request raw flags a ->
  listed_peer a (retroactive_pairing_list (st s)) = Some x ->
  wp (OnWriteKeyBasedPairing p request) (fun r s' => exists status,
    response_notified p key (wants_extended flags) status s s' /\
    if status_ok status
    then r = kNearbyStatusOK /\ st s' = retro_started a p (authenticated_public key p (st s))
    else r = status /\ st s' = authenticated_public key p (st s)) s.
Proof.
  intros Hc Hp Hn Hl Hk raw Hd Hreq Hx. apply OnWriteKeyBasedPairing_search; [done|]. intros s0 E0 Hx0. rewrite Hl.
  cbn [Nat.eqb ENCRYPTED_REQUEST_LENGTH PUBLIC_KEY_LENGTH Nat.add].
  eapply wp_mono; [by apply match_public_key_run|]. intros r s1 [Hx1 H].
  assert (ext silent s s1) as Hxs by (by eapply ext_trans). rewrite E0, Hk in H. cbv zeta in H.
  assert (address_matches (ble_address (env s)) (public_address (env s)) raw = true) as Hm
    by (apply matches_iff_names; [apply be_bytes_length..|apply aes_inv_length|exact Hd]).
  fold raw in H. rewrite Hm in H. destruct H as [-> E1].
  eapply wp_mono; [apply (accept_retroactive_run p raw flags a x s1); rewrite ?E1; try done|].
  - destruct (public_info_ok key p _ (session_secret_buf _ _ Hk) Hp Hc). destruct Hc. by split.
  - apply aes_inv_length.
  - apply aes_inv_ok.
  - intros r s2 (Hx2 & status & Hn2 & H). rewrite E1 in Hn2, H. exists status.
    split; [by eapply ext_response_notified; [exact Hxs|]|]. by destruct (status_ok status).
Qed.

Context {B : BitmapSpec C P}.

(** The variables after a retroactive pairing: the peer is no longer listed, and a
    pairing of another peer goes on. *)
Definition retro_stored (l : AccountKeyList) (p : Z) (c : client) : client :=
  let c := set_retroactive_pairing_list (map (clear_peer p) (retroactive_pairing_list c))
    (set_pending_account_key_info zero_key_info (set_account_key_list l c)) in
  if state_eqb (pairing_state c) kPairingStateIdle
  then set_additional_data_id PERSONALIZED_NAME_DATA_ID
         (set_pairing_state kPairingStateWaitingForAdditionalData c)
  else c.

Lemma RunPostPairingSteps_retroactive s p k l :
  client_ok (st s) -> retroactive (st s) p = true ->
  nearby_fp_AddAccountKey (account_key_list (st s)) k = Done l -> list_ok l -> list_nodup l ->
  wp (RunPostPairingSteps p k) (fun _ s' => st s' = retro_stored l p (st s) /\ list_saved l s s') s.
Proof.
  intros Hc Hr E Hl Hn. unfold RunPostPairingSteps, add_account_key.
  apply wp_bind, wp_bind, wp_gets. apply wp_bind. eapply wp_lift; [exact E|]. apply wp_modify.
  unfold save_account_keys. apply wp_bind, wp_bind, wp_gets. cbn [st env log].
  apply wp_hal_map. intros resp w. unfold DiscardPendingAccountKey. apply wp_bind, wp_modify.
  cbn [st env log]. set (s1 := Sys _ _ _). apply wp_bind.
  assert (client_ok (st s1)) as H1 by (destruct Hc; pose proof zero_key_info_ok; by split).
  assert (list_saved l s s1) as Hs1 by (exists resp; by apply called_now).
  unfold wp at 1. rewrite Pending_run by (by apply ok_retro).
  change (retroactive (st s1) p) with (retroactive (st s) p). rewrite Hr.
  apply wp_bind. unfold wp at 1. rewrite Remove_run by done. set (s2 := with_table _ s1).
  assert (client_ok (st s2)) as H2
    by (apply set_table_ok; [rewrite length_map; by apply ok_retro|done]).
  apply wp_bind. unfold wp at 1. rewrite Pending_run by (by apply ok_retro). apply wp_bind, wp_gets.
  unfold retro_stored. change (pairing_state (st s2)) with (pairing_state (st s)).
  change (pairing_state (set_retroactive_pairing_list _ _)) with (pairing_state (st s)).
  destruct (state_eqb (pairing_state (st s)) kPairingStateIdle); cbn [negb]; [|by apply wp_ret].
  eapply wp_mono; [by apply finish_pairing_run|]. intros _ s' [-> Hx]. split; [done|].
  destruct Hs1 as [resp' Hs1]. exists resp'. by eapply called_ext; [exact Hs1|].
Qed.

(** The peer of the entry [x] has a minute from the time of the entry. *)
Definition retro_in_time (x : retroactive_pairing_peer) (s : sys client) : Prop :=
  elapsed (clock (env s)) (retroactive_pairing_time_start_ms x) <= RETRO_PAIRING_REQUEST_TIME_MS.

Lemma OnAccountKeyWrite_retroactive s p request x :
  client_ok (st s) -> is_u64 p -> only_entry p x (retroactive_pairing_list (st s)) ->
  retro_in_time x s -> length request = 16%nat ->
  let key := aes_inv (account_key (account_key_info (st s))) request in
  key !! 0%nat = Some ACCOUNT_KEY_WRITE_MESSAGE_TYPE ->
  exists l, abs_list l = lru_add (key, if NEARBY_FP_ENABLE_SASS then p else 0)
      (abs_list (account_key_list (st s))) /\ list_ok l /\
    wp (OnAccountKeyWrite p request) (fun r s' => r = kNearbyStatusOK
      /\ st s' = retro_stored l p (st s) /\ list_saved l s s') s.
Proof.
  intros Hc Hp Hx Ht Hlen key Hkey.
  set (info := AccountKeyInfo key (if NEARBY_FP_ENABLE_SASS then p else 0)).
  assert (key_ok info) as Hinfo.
  { split; [apply aes_inv_length|]. split; [apply aes_inv_ok|]. cbn.
    destruct NEARBY_FP_ENABLE_SASS; [exact Hp|lia]. }
  destruct (AddAccountKey_lru _ info (ok_list _ Hc) (ok_nodup _ Hc) Hinfo) as (l & E & Ha & Hl & Hn).
  exists l. split; [rewrite Ha; unfold abs_key; cbn; by destruct NEARBY_FP_ENABLE_SASS|]. split; [done|].
  pose proof (only_retroactive _ _ _ Hx) as Hr.
  unfold OnAccountKeyWrite, account_key_guard. apply wp_bind, wp_bind.
  unfold wp at 1. rewrite Pending_run, Hr by (by apply ok_retro).
  apply wp_bind. unfold wp at 1. rewrite (Timeout_run p x) by done.
  unfold retro_in_time in Ht. apply Z.ltb_ge in Ht as ->. apply wp_ret.
  rewrite Hlen. cbn [Nat.eqb AES_MESSAGE_SIZE_BYTES negb]. apply wp_bind, wp_gets. rewrite tick_st.
  apply wp_bind. eapply wp_effects; [apply Aes128Decrypt_effects|]. intros [st1 d] s1 [E1 Hx1] [= -> ->].
  fold key. cbn [status_ok negb]. apply wp_bind. eapply wp_lift; [by apply load_done|].
  rewrite Z.eqb_refl. cbn [negb]. apply wp_bind. rewrite tick_st in E1.
  eapply wp_mono; [apply (RunPostPairingSteps_retroactive s1 p info l); rewrite ?E1; done|].
  intros _ s' [Es [resp Hs']]. apply wp_ret. rewrite Es, E1. split; [done|]. split; [done|].
  exists resp. eapply ext_called; [apply tick_ext|]. by eapply ext_called; [exact Hx1|].
Qed.

End Writes.

(** * A peer is listed *)
Section Listing.
Context {C : Config} {P : Platform}.

(** An entry after the first loop of [AddRetroactivePairingPeer]. *)
Definition expired_or (x x' : retroactive_pairing_peer) : Prop :=
  x' = x \/ x' = RetroPeer INVALID_PEER_ADDRESS INVALID_PEER_ADDRESS (retroactive_pairing_time_start_ms x).

Lemma expire_entry i a x s (Q : bool -> sys client -> Prop) k :
  retroactive_pairing_list (st s) !! i = Some x -> retro_public_address x <> a -> a <> INVALID_PEER_ADDRESS ->
  (forall x' s', expired_or x x' ->
     st s' = set_retroactive_pairing_list (<[i := x']> (retroactive_pairing_list (st s))) (st s) ->
     ext is_clock s s' -> wp (AddRetroactive_expire k (S i) a) Q s') ->
  wp (AddRetroactive_expire (S k) i a) Q s.
Proof.
  intros Hx Ha Hi H. cbn [AddRetroactive_expire].
  apply wp_bind. unfold wp at 1. rewrite (get_peer_run i s x) by done.
  apply wp_bind. unfold wp at 1. rewrite now_run. apply wp_bind.
  destruct (RETRO_PAIRING_REQUEST_TIME_MS <? _).
  - apply wp_bind. unfold wp at 1. rewrite (put_peer_run i _ (tick s) x) by (by rewrite tick_st).
    apply wp_ret. cbn [retro_public_address].
    rewrite (proj2 (Z.eqb_neq INVALID_PEER_ADDRESS a)) by (by intros <-).
    eapply H; [by right|unfold with_table; cbn [st]; by rewrite tick_st|apply tick_ext].
  - apply wp_ret. rewrite (proj2 (Z.eqb_neq _ a)) by done. apply (H x); [by left| |apply tick_ext].
    rewrite tick_st, list_insert_id by done. by destruct (st s).
Qed.

(** A table that lists [a] with the time [t]; no other peer is added. *)
Record table_added (a t : Z) (l l' : list retroactive_pairing_peer) : Prop := {
  added_peer : exists x, listed_peer a l' = Some x /\ retroactive_pairing_time_start_ms x = t;
  added_length : length l' = length l;
  added_only : forall q, q <> INVALID_PEER_ADDRESS -> q <> a ->
    existsb (peer_matches q) l = false -> existsb (peer_matches q) l' = false;
}.

Lemma expired_matches q x x' :
  expired_or x x' -> q <> INVALID_PEER_ADDRESS -> peer_matches q x = false -> peer_matches q x' = false.
Proof.
  intros [->| ->] Hq Hx; [done|]. unfold peer_matches. cbn [retro_public_address retro_le_address].
  by rewrite (proj2 (Z.eqb_neq INVALID_PEER_ADDRESS q)) by (by intros <-).
Qed.

Lemma expired_other a x x' :
  expired_or x x' -> a <> INVALID_PEER_ADDRESS -> retro_public_address x <> a -> retro_public_address x' <> a.
Proof. intros [->| ->] Hi Hx; [done|]. by intros <-. Qed.

Lemma expired_free x x' :
  expired_or x x' -> retro_public_address x = INVALID_PEER_ADDRESS -> retro_public_address x' = INVALID_PEER_ADDRESS.
Proof. by intros [->| ->]. Qed.

Lemma added_first a t x y x' y' :
  expired_or x x' -> expired_or y y' ->
  table_added a t [x; y] [RetroPeer a (retro_le_address x') t; y'].
Proof.
  intros Hx Hy. split; [|done|].
  - eexists. cbn. rewrite Z.eqb_refl. done.
  - intros q Hq Hqa. cbn. intros [Hqx [Hqy _]%orb_false_elim]%orb_false_elim.
    pose proof (expired_matches q _ _ Hx Hq Hqx) as Hx'. apply orb_false_elim in Hx' as [_ Hle].
    rewrite (expired_matches q _ _ Hy Hq Hqy), orb_false_r. unfold peer_matches. cbn.
    rewrite Hle, orb_false_r. apply Z.eqb_neq. by intros <-.
Qed.

Lemma added_second a t x y x' y' :
  expired_or x x' -> expired_or y y' -> retro_public_address x' <> a ->
  table_added a t [x; y] [x'; RetroPeer a (retro_le_address y') t].
Proof.
  intros Hx Hy Hxa. split; [|done|].
  - eexists. cbn. rewrite (proj2 (Z.eqb_neq _ _) Hxa), Z.eqb_refl. done.
  - intros q Hq Hqa. cbn. intros [Hqx [Hqy _]%orb_false_elim]%orb_false_elim.
    pose proof (expired_matches q _ _ Hy Hq Hqy) as Hy'. apply orb_false_elim in Hy' as [_ Hle].
    rewrite (expired_matches q _ _ Hx Hq Hqx), orb_false_r. unfold peer_matches. cbn.
    rewrite Hle, orb_false_r. apply Z.eqb_neq. by intros <-.
Qed.

Lemma AddPeer_run a s :
  client_ok (st s) -> a <> INVALID_PEER_ADDRESS ->
  listed_peer a (retroactive_pairing_list (st s)) = None ->
  listed_peer INVALID_PEER_ADDRESS (retroactive_pairing_list (st s)) <> None ->
  wp (AddRetroactivePairingPeer a) (fun _ s' => exists t l,
    st s' = set_retroactive_pairing_list l (st s)
    /\ table_added a t (retroactive_pairing_list (st s)) l) s.
Proof.
  intros Hc Hi Hn Hf. destruct (two_peers _ Hc) as (x & y & E). rewrite E in *.
  assert (retro_public_address x <> a /\ retro_public_address y <> a) as [Hx Hy].
  { cbn in Hn. destruct (Z.eqb_spec (retro_public_address x) a); [done|].
    by destruct (Z.eqb_spec (retro_public_address y) a). }
  unfold AddRetroactivePairingPeer, NEARBY_MAX_RETROACTIVE_PAIRING. apply wp_bind.
  apply (expire_entry 0 a x); [by rewrite E|done|done|]. intros x' s1 Hx' E1 _. rewrite E in E1. cbn in E1.
  apply (expire_entry 1 a y); [by rewrite E1|done|done|]. intros y' s2 Hy' E2 _. rewrite E1 in E2. cbn in E2.
  cbn [AddRetroactive_expire]. apply wp_ret. cbn [AddRetroactive_insert].
  assert (retroactive_pairing_list (st s2) = [x'; y']) as El by (by rewrite E2).
  apply wp_bind. unfold wp at 1. rewrite (get_peer_run 0 s2 x') by (by rewrite El).
  destruct (Z.eqb_spec (retro_public_address x') INVALID_PEER_ADDRESS) as [Hxf|Hxf].
  - apply wp_bind. unfold wp at 1. rewrite now_run. apply wp_bind. unfold wp at 1.
    rewrite (put_peer_run 0 _ (tick s2) x') by (by rewrite tick_st, El). apply wp_ret.
    eexists (clock (env s2)), _. unfold with_table. cbn [st]. rewrite tick_st, El, E2. cbn.
    split; [reflexivity|]. by apply added_first.
  - apply wp_bind. unfold wp at 1. rewrite (get_peer_run 1 s2 y') by (by rewrite El).
    rewrite (proj2 (Z.eqb_eq (retro_public_address y') INVALID_PEER_ADDRESS)).
    2:{ eapply expired_free; [done|]. cbn in Hf.
        destruct (Z.eqb_spec (retro_public_address x) INVALID_PEER_ADDRESS) as [Hxi|_].
        - by eapply expired_free in Hxi; [|exact Hx'].
        - by destruct (Z.eqb_spec (retro_public_address y) INVALID_PEER_ADDRESS). }
    apply wp_bind. unfold wp at 1. rewrite now_run. apply wp_bind. unfold wp at 1.
    rewrite (put_peer_run 1 _ (tick s2) y') by (by rewrite tick_st, El). apply wp_ret.
    eexists (clock (env s2)), _. unfold with_table. cbn [st]. rewrite tick_st, El, E2. cbn.
    split; [reflexivity|]. apply added_second; [done|done|]. by eapply expired_other.
Qed.

(** A Bluetooth pairing outside the procedure lists the peer. *)
Lemma Paired_listed a s :
  client_ok (st s) -> is_u64 a -> a <> INVALID_PEER_ADDRESS ->
  pairing_state (st s) <> kPairingStateWaitingForPairingResult ->
  pending_account_key_info (st s) = zero_key_info ->
  listed_peer a (retroactive_pairing_list (st s)) = None ->
  listed_peer INVALID_PEER_ADDRESS (retroactive_pairing_list (st s)) <> None ->
  wp (handle (Paired a)) (fun _ s' => exists t l,
    st s' = set_retroactive_pairing_list l (set_peer_public_address a (st s))
    /\ table_added a t (retroactive_pairing_list (st s)) l) s.
Proof.
  intros Hc Ha Hi Hs Hpk Hn Hf. cbn [handle]. unfold OnPaired. apply wp_bind, wp_gets. apply wp_bind.
  unfold wp at 1. rewrite (no_pending s Hpk), andb_false_r. apply wp_bind, wp_modify. apply wp_bind, wp_gets.
  cbn [st]. set (s1 := Sys _ _ _).
  change (pairing_state (set_peer_public_address a (st s))) with (pairing_state (st s)).
  destruct (state_eqb _ _) eqn:Es; [by destruct (pairing_state (st s)); try done|].
  assert (client_ok (st s1)) as H1 by (destruct Hc; by split).
  apply wp_bind. eapply wp_mono; [by apply AddPeer_run|].
  intros _ s' (t & l & E & H). apply wp_ret. exists t, l. by split.
Qed.

End Listing.

(** * Retroactive pairings *)
Section RetroactiveRun.
Context {C : Config} {P : Platform} {Aes : AesSpec P} {Sha : Sha256Spec P} {N : NotifySpec P}.
Context {B : BitmapSpec C P} {St : StoredListSpec C P} {Sec : SecretSpec P}.

(** The peer [p] may write an account key as the entry [x], under the session key. *)
Record retro_session (p : Z) (x : retroactive_pairing_peer) (key : list Z) (L : list (list Z * Z))
    (c : client) : Prop := {
  retro_ok : client_ok c;
  retro_key : account_key (account_key_info c) = key;
  retro_entry : only_entry p x (retroactive_pairing_list c);
  retro_list : abs_list (account_key_list c) = L;
}.

Lemma retro_requested s p request key flags a x :
  client_ok (st s) -> is_u64 p -> pairing_failure_count (st s) < MAX_PAIRING_FAILURE_COUNT ->
  retroactive (st s) p = false -> bytes_ok request -> length request = 80%nat ->
  session_secret request = Some key -> names_device (env s) (public_request key request) ->
  retroactive_request (public_request key request) flags a ->
  listed_peer a (retroactive_pairing_list (st s)) = Some x ->
  wp (handle (GattWrite p kKeyBasedPairing request)) (fun _ s' =>
    retro_session p (set_le p x) key (abs_list (account_key_list (st s))) (st s')
    /\ ext request_ok s s' /\ exists status, response_notified p key (wants_extended flags) status s s') s.
Proof.
  intros Hc Hp Hf Hr Hb Hl Hk Hn Hreq Hx.
  eapply wp_mono; [apply (with_invariant (GattWrite p kKeyBasedPairing request) s (fun s' =>
    st s' = retro_started a p (authenticated_public key p (st s))
    /\ exists status, response_notified p key (wants_extended flags) status s s')); [done|done|]|].
  - cbn [handle OnGattWrite]. apply ignore_wp.
    eapply wp_mono; [by apply (OnWriteKeyBasedPairing_retroactive s p request key flags a x)|].
    intros r s' (status & Hresp & H). split; [|by exists status].
    destruct Hresp as (d & resp & _ & _ & _ & _ & _ & -> & w & ->). rewrite notify_delivered in H. by destruct H.
  - intros _ s' (Hc' & Hxt & E & Hresp). split; [|by split]. rewrite E in Hc' |- *.
    split; [done|done| |done]. by apply with_le_entry.
Qed.

Lemma retro_key_written s p x key L request :
  retro_session p x key L (st s) -> is_u64 p -> retro_in_time x s -> bytes_ok request ->
  length request = 16%nat -> aes_inv key request !! 0%nat = Some ACCOUNT_KEY_WRITE_MESSAGE_TYPE ->
  wp (handle (GattWrite p kAccountKey request)) (fun _ s' => client_ok (st s') /\ ext request_ok s s'
    /\ abs_list (account_key_list (st s'))
       = lru_add (aes_inv key request, if NEARBY_FP_ENABLE_SASS then p else 0) L
    /\ list_saved (account_key_list (st s')) s s') s.
Proof.
  intros [Hc Hk Hx HL] Hp Ht Hb Hl H4.
  destruct (OnAccountKeyWrite_retroactive s p request x) as (l & Habs & _ & Hw); try done; [by rewrite Hk|].
  rewrite Hk, HL in Habs.
  eapply wp_mono; [apply (with_invariant (GattWrite p kAccountKey request) s
    (fun s' => st s' = retro_stored l p (st s) /\ list_saved l s s')); [done|done|]|].
  - cbn [handle OnGattWrite]. apply ignore_wp. eapply wp_mono; [exact Hw|]. by intros r s' (_ & ? & ?).
  - intros _ s' (Hc' & Hxt & E & Hsv).
    assert (account_key_list (st s') = l) as -> by (rewrite E; unfold retro_stored; by destruct (state_eqb _ _)).
    done.
Qed.

(** C34. The address of a free entry of the table is zero, and a request is not checked
    for it: a stranger that was never paired, and has only exchanged keys with the
    device, asks for a retroactive pairing in the name of the address zero.  The
    provider takes the free entry for its pairing, and for a minute from the time left
    in the entry (zero when the device starts, the time of the pairing when a peer was
    removed) it stores any account key the stranger writes. *)
Theorem Retroactive_stranger_accepted s p request key flags x :
  client_ok (st s) -> is_u64 p -> pairing_failure_count (st s) < MAX_PAIRING_FAILURE_COUNT ->
  retroactive (st s) p = false -> bytes_ok request -> length request = 80%nat ->
  session_secret request = Some key -> names_device (env s) (public_request key request) ->
  retroactive_request (public_request key request) flags 0 ->
  listed_peer INVALID_PEER_ADDRESS (retroactive_pairing_list (st s)) = Some x ->
  wp (handle (GattWrite p kKeyBasedPairing request)) (fun _ s1 => forall w account_key_block,
    let s1 := Sys (st s1) w (log s1) in
    retro_in_time x s1 -> length account_key_block = 16%nat -> bytes_ok account_key_block ->
    account_key_block !! 0%nat = Some ACCOUNT_KEY_WRITE_MESSAGE_TYPE ->
    wp (handle (GattWrite p kAccountKey (aes key account_key_block))) (fun _ s2 =>
      abs_list (account_key_list (st s2))
        = lru_add (account_key_block, if NEARBY_FP_ENABLE_SASS then p else 0) (abs_list (account_key_list (st s)))
      /\ list_saved (account_key_list (st s2)) s1 s2) s1) s.
Proof.
  intros Hc Hp Hf Hr Hb Hl Hk Hn Hreq Hx.
  eapply wp_mono; [by apply (retro_requested s p request key flags 0 x)|].
  intros _ s1 (Hs & _) w block s1' Ht Hbl Hbb H4.
  eapply wp_mono; [apply (retro_key_written s1' p (set_le p x) key (abs_list (account_key_list (st s))));
    [exact Hs|done|done|apply aes_ok|apply aes_length|by rewrite aes_inv_aes]|].
  rewrite aes_inv_aes by done. by intros _ s2 (_ & _ & ? & ?).
Qed.

End RetroactiveRun.

(** * A stranger on the test platform *)
Section Witness.
#[local] Existing Instance sass_config.
#[local] Existing Instance first_boot_platform.

Definition stranger_request : list Z :=
  toy_aes first_key ([0; 0x10] ++ be_bytes 6 0xBABABABA ++ replicate 8 0) ++ first_public_key.
Definition free_entry : retroactive_pairing_peer := RetroPeer 0 0 0.

Example Retroactive_stranger_accepted_witness :
  wp (handle (GattWrite 7 kKeyBasedPairing stranger_request)) (fun _ s1 => forall w account_key_block,
    let s1 := Sys (st s1) w (log s1) in
    retro_in_time free_entry s1 -> length account_key_block = 16%nat -> bytes_ok account_key_block ->
    account_key_block !! 0%nat = Some ACCOUNT_KEY_WRITE_MESSAGE_TYPE ->
    wp (handle (GattWrite 7 kAccountKey (aes first_key account_key_block))) (fun _ s2 =>
      abs_list (account_key_list (st s2)) = lru_add (account_key_block, if NEARBY_FP_ENABLE_SASS then 7 else 0)
        (abs_list (account_key_list (st empty_sys)))
      /\ list_saved (account_key_list (st s2)) s1 s2) s1) empty_sys.
Proof.
  apply (Retroactive_stranger_accepted (P:=first_boot_platform) empty_sys 7 stranger_request first_key 0x10 free_entry).
  - exact client_0_ok.
  - unfold is_u64. lia.
  - reflexivity.
  - reflexivity.
  - by apply bytes_ok_true; vm_compute.
  - reflexivity.
  - vm_compute. reflexivity.
  - left. vm_compute. reflexivity.
  - split; [vm_compute; reflexivity|]. vm_compute. auto.
  - reflexivity.
Defined.

(** The device has just started and nobody has paired with it. *)
Example stranger_run :
  match run [GattWrite 7 kKeyBasedPairing stranger_request; GattWrite 7 kAccountKey first_key_write] empty_sys with
  | Done s => map fst (abs_list (account_key_list (st s))) = [4 :: replicate 15 9]
  | _ => False
  end.
Proof. vm_compute. reflexivity. Qed.

End Witness.
