(* ===== verification/ClientSass.v ===== *)
(** What the commands of Smart Audio Source Switching do once they are
    authenticated: the command reaches the audio system and its status is reported
    to the peer; a peer that proves that it holds an account key makes it the in-use
    key of its connection and the most recently used key of the list. *)

From Stdlib Require Import ZArith Lia.
From stdpp Require Import base list numbers.
From S2P Require Import Prelude Utils Platform SecureElement TestPlatform Crypto AccountKeys.
From S2P Require Import MessageStream Advertisement CryptoSafety AdvertisementSafety.
From S2P Require Import ClientState ClientAdvertising ClientPairing ClientStream.
From S2P Require Import ClientInvariant ClientAdvertisingSafety ClientPairingSafety.
From S2P Require Import ClientStreamSafety Client ClientTheorems.
Import Utils.

Section Sass.
Context {C : Config} {P : Platform} {Sha : Sha256Spec P}.

(** The frame that reports a status for the message. *)
Definition response_frame (m : nearby_message_stream_Message) (status : nearby_platform_status)
  : list Z :=
  if status_ok status then
    [ACKNOWLEDGEMENT_GROUP; ACK_CODE; 0; 2; u8 (message_group m); u8 (message_code m)]
  else
    [ACKNOWLEDGEMENT_GROUP; NACK_CODE; 0; 3;
     u8 (if bool_decide (status = kNearbyStatusRedundantAction)
         then FAIL_REASON_REDUNDANT_DEVICE_ACTION else 0);
     u8 (message_group m); u8 (message_code m)].

Lemma SendResponse_run p m status s :
  wp (SendResponse p m status) (fun r s' => st s' = st s /\ exists resp, r = resp_status resp
    /\ log s' = (BT (SendMessageStream p (response_frame m status)), resp) :: log s) s.
Proof.
  unfold SendResponse, response_frame. destruct (status_ok status).
  - apply wp_hal_map. intros resp w. split; [done|]. by exists resp.
  - apply wp_hal_map. intros resp w. split; [done|]. by exists resp.
Qed.

(** The audio source to prefer when the peer gives up the audio: another connection
    with the same account key, else any other connection. *)
Definition next_source (c : client) (r : rfcomm_input) : Z :=
  let other x := negb (input_peer_address x =? INVALID_PEER_ADDRESS)
                 && negb (input_peer_address x =? input_peer_address r) in
  match find (fun x => other x && bytes_eqb (in_use_account_key x) (in_use_account_key r))
          (rfcomm_inputs c) with
  | Some x => input_peer_address x
  | None => from_option input_peer_address INVALID_PEER_ADDRESS (find other (rfcomm_inputs c))
  end.

(** The request to the audio system that a command stands for, its first byte being
    [b]. *)
Definition command_request (c : client) (r : rfcomm_input) (p code b : Z) : audio_request :=
  if code =? MESSAGE_CODE_SASS_SET_MULTIPOINT_STATE then SetMultipoint p (b =? 1)
  else if code =? MESSAGE_CODE_SASS_SET_SWITCHING_PREFERENCE then SetSwitchingPreference b
  else if code =? MESSAGE_CODE_SASS_SWITCH_ACTIVE_AUDIO_SOURCE then
    SwitchActiveAudioSource p b (if ISSET b 7 then p else next_source c r)
  else if code =? MESSAGE_CODE_SASS_SWITCH_BACK_AUDIO_SOURCE then SwitchBackAudioSource p b
  else if code =? MESSAGE_CODE_SASS_NOTIFY_SASS_INITIATED_CONNECTION
  then NotifySassInitiatedConnection p b
  else SetDropConnectionTarget p b.

(** The command reached the audio system and its outcome was reported. *)
Definition executed (q : audio_request) (p : Z) (m : nearby_message_stream_Message)
    (status : nearby_platform_status) (s s' : sys client) : Prop :=
  st s' = st s /\ exists l resp resp', Forall (fun e => is_se (fst e)) l
    /\ status = resp_status resp'
    /\ log s' = (BT (SendMessageStream p (response_frame m (resp_status resp))), resp')
                :: (AUDIO q, resp) :: l ++ log s.

(** A message of the right length with a valid code. *)
Definition authentic (r : rfcomm_input) (m : nearby_message_stream_Message) (len : Z) : Prop :=
  message_length m = len
  /\ valid_mac (in_use_account_key r) (session_nonce r) (message_data m) (Z.to_nat len) = true.

(** An authentic command is carried out. *)
Lemma authenticated_command_run s p m i r len act Q :
  rfcomm_inputs (st s) !! i = Some r -> input_ok r -> received m -> 16 < len <= 22 ->
  authentic r m len ->
  (forall b s1 l, message_data m !! 0%nat = Some b -> st s1 = st s ->
     log s1 = l ++ log s -> Forall (fun e => is_se (fst e)) l ->
     wp (let! status := act b in SendResponse p m status) Q s1) ->
  wp (authenticated_command p m i len act) Q s.
Proof.
  intros Hr [Hn [Hk Hkb] _ _] ([Hl Hb] & Hlen & _) H16 [E Hv] Hact.
  unfold authenticated_command, VerifyMessageLength. rewrite E, Z.eqb_refl. cbn [negb].
  apply wp_bind, wp_ret. change (status_ok kNearbyStatusOK) with true. cbv iota.
  unfold VerifyMac, get_input. apply wp_bind, wp_bind, wp_bind, wp_gets. rewrite Hr. apply wp_ret.
  apply wp_bind. rewrite E, <- (Z2Nat.id len) by lia.
  eapply wp_effects; [apply VerifyMac_effects; [lia|lia|done|done]|].
  intros x s1 [E1 (l1 & Hl1 & Hf1)] ->. rewrite Hv. change (status_ok kNearbyStatusOK) with true. cbn [negb].
  apply wp_bind, wp_ret, wp_ret. change (status_ok kNearbyStatusOK) with true. cbv iota.
  destruct (load_lt (message_data m) 0) as (b & Hld & Hlk); [lia|].
  apply wp_bind. eapply wp_lift; [exact Hld|]. by apply (Hact b s1 l1).
Qed.

(** The last two steps of a command that is one request to the audio system. *)
Lemma command_run s s1 l p m q :
  st s1 = st s -> log s1 = l ++ log s -> Forall (fun e => is_se (fst e)) l ->
  wp (let! status := audio_status q in SendResponse p m status)
    (fun x s' => executed q p m x s s') s1.
Proof.
  intros E Hl Hf. apply wp_bind, wp_hal_map. intros resp w.
  eapply wp_mono; [apply SendResponse_run|]. cbn [st log].
  intros x s2 (E2 & resp' & -> & Hlog). split; [congruence|].
  exists l, resp, resp'. by rewrite Hlog, Hl.
Qed.

Lemma FindNextAudioSource_run s i r :
  rfcomm_inputs (st s) !! i = Some r -> FindNextAudioSource i s = Done (next_source (st s) r, s).
Proof.
  intros Hr. unfold FindNextAudioSource. rewrite (bind_run _ _ _ _ _ (get_input_run s i r Hr)).
  rewrite (bind_run _ _ _ _ _ (gets_run rfcomm_inputs s)). unfold next_source.
  destruct (find _ _); [done|]. by destruct (find _ _).
Qed.

(** C36. An authentic SASS command other than MESSAGE_CODE_SASS_SEND_CUSTOM_DATA (the
    right length, and a valid authentication code under the sender's in-use account
    key and session nonce) reaches the audio system as the request it stands for,
    with the flags of its first byte; its outcome is acknowledged or refused to the
    peer, and no variable changes.  (Custom data do not go to the audio system: they
    are kept in a variable and advertised.) *)
Theorem HandleSassMessage_executes s p m i r b :
  find_index (fun r => input_peer_address r =? p) (rfcomm_inputs (st s)) 0 = Some i ->
  rfcomm_inputs (st s) !! i = Some r -> input_ok r -> received m ->
  authenticated_code (message_code m) -> message_code m <> MESSAGE_CODE_SASS_SEND_CUSTOM_DATA ->
  authentic r m (command_length (message_code m)) -> message_data m !! 0%nat = Some b ->
  wp (HandleSassMessage p m)
    (fun x s' => executed (command_request (st s) r p (message_code m) b) p m x s s') s.
Proof.
  intros Hi Hr Hok Hm Hcode Hne Hau Hb. unfold HandleSassMessage, GetRfcommInput.
  apply wp_bind, wp_bind, wp_gets, wp_ret. rewrite Hi. apply wp_bind, wp_uninit. intros buffer _ _.
  cbv zeta. unfold command_length in Hau. unfold authenticated_code, In in Hcode.
  destruct Hcode as [E|[E|[E|[E|[E|[E|[E|[]]]]]]]]; try (by rewrite <- E in Hne);
    rewrite <- E in Hau |- *; cbn in Hau |- *;
    (eapply authenticated_command_run; [exact Hr|exact Hok|exact Hm|lia|exact Hau|]);
    intros b' s1 l Hb' E1 Hl Hf; rewrite Hb in Hb'; injection Hb' as <-;
    try (by apply (command_run s s1 l)).
  assert ((if ISSET b 7 then mret p else FindNextAudioSource i) s1
    = Done (if ISSET b 7 then p else next_source (st s) r, s1)) as Hpref.
  { rewrite <- E1 in Hr |- *. destruct (ISSET b 7); [done|by apply FindNextAudioSource_run]. }
  apply wp_bind, wp_bind. unfold wp at 1. rewrite Hpref. by apply wp_bind_inv, (command_run s s1 l).
Qed.

(** ** The in-use account key *)

(** The message proves that its sender holds the key. *)
Definition proves (r : rfcomm_input) (m : nearby_message_stream_Message) (k : list Z) : bool :=
  valid_mac k (session_nonce r) (message_data m) (Z.to_nat (message_length m)).

(** The first key, from [o] on, of which the message is a proof is found next,
    after further keys of which it is none. *)
Lemma next_unique_before l o r j k (test : list Z -> bool) :
  list_ok l -> 0 <= o <= Z.of_nat j -> (j < Z.to_nat (num_keys l))%nat ->
  key_bytes l !! j = Some k -> test k = true ->
  (forall n y, (n < j)%nat -> key_bytes l !! n = Some y -> test y = false) ->
  nearby_fp_GetNextUniqueAccountKeyIndex l o = Done r -> o <= r <= Z.of_nat j.
Proof.
  intros Hok Ho Hj Hk Ht Hno Hr. destruct (GetNextUnique_spec l o Hok) as (r' & Hr' & Hf & Hb); [lia|].
  rewrite Hr in Hr'. injection Hr' as <-.
  assert (first_at (key_bytes l) j) as Hfirst.
  { unfold first_at. rewrite Hk. intros (n & Hn & Hlt)%elem_of_take.
    by rewrite (Hno n k) in Ht. }
  assert (j ∈ filter (first_at (key_bytes l)) (seq (Z.to_nat o) (Z.to_nat (num_keys l - o)))) as Hin.
  { apply list_elem_of_filter. split; [done|]. apply elem_of_seq. lia. }
  rewrite Hf in Hin. destruct (Z.eqb_spec r (-1)); [by apply not_elem_of_nil in Hin|].
  destruct Hb as [?|Hb]; [done|]. apply elem_of_cons in Hin as [->|Hin]; [lia|].
  apply list_elem_of_filter in Hin as [_ Hin%elem_of_seq]. lia.
Qed.

Context {B : BitmapSpec C P}.

(** The variables once the key [k], entry [j] of the list, is the in-use key of
    connection [i]. *)
Definition key_in_use (i j : nat) (k : nearby_platform_AccountKeyInfo) (r : rfcomm_input) (c : client)
  : client :=
  set_account_key_list
    (set_key (account_key_list c) (k :: delete j (key (account_key_list c))))
    (set_rfcomm_inputs (<[i := set_in_use_account_key (account_key k) r]> (rfcomm_inputs c)) c).

Lemma key_in_use_ok i j k r c :
  client_ok c -> keys_in_use (account_key_list c) !! j = Some k -> rfcomm_inputs c !! i = Some r ->
  client_ok (key_in_use i j k r c).
Proof.
  intros Hc Hk Hr. pose proof (ok_list _ Hc) as Hok. pose proof (ok_nodup _ Hc) as Hnd.
  pose proof (in_use_length _ Hok) as Hlen. pose proof (lookup_lt_Some _ _ _ Hk) as Hj.
  assert (0 <= Z.of_nat j < num_keys (account_key_list c)) as Hjz by lia.
  destruct (MarkAccountKeyAsActive_ok _ (Z.of_nat j) Hok Hnd Hjz) as (l & E & Hl & Hn & _).
  rewrite (MarkAccountKeyAsActive_done _ _ k) in E by (done || by rewrite Nat2Z.id).
  rewrite Nat2Z.id in E. injection E as <-.
  destruct (GetAccountKey_done _ (Z.of_nat j) Hok Hjz) as (k' & _ & Hk' & Hkok).
  rewrite Nat2Z.id, Hk in Hk'. injection Hk' as <-.
  destruct Hc. split; cbn; auto; [by rewrite length_insert|].
  apply Forall_insert; [done|]. apply set_in_use_account_key_ok; [by apply key_ok_buf|].
  by eapply Forall_lookup_1.
Qed.

(** The loop up to the key that is proved. *)
Lemma IndicateInUseKey_loop_found fuel : forall o s m i r j k,
  NEARBY_FP_ENABLE_SASS = true -> client_ok (st s) -> received m -> 16 <= message_length m ->
  rfcomm_inputs (st s) !! i = Some r -> keys_in_use (account_key_list (st s)) !! j = Some k ->
  proves r m (account_key k) = true ->
  (forall n y, (n < j)%nat -> key_bytes (account_key_list (st s)) !! n = Some y -> proves r m y = false) ->
  0 <= o <= Z.of_nat j -> num_keys (account_key_list (st s)) - o < Z.of_nat fuel ->
  wp (IndicateInUseKey_loop fuel o m i) (fun x s' => x = kNearbyStatusOK
    /\ st s' = key_in_use i j k r (st s) /\ ext request_ok s s') s.
Proof.
  induction fuel as [|fuel IH]; intros o s m i r j k Hsass Hc Hm H16 Hr Hk Hp Hno Ho Hf.
  { pose proof (lookup_lt_Some _ _ _ Hk) as Hj. rewrite in_use_length in Hj by apply (ok_list _ Hc). lia. }
  pose proof (ok_list _ Hc) as Hok. pose proof (in_use_length _ Hok) as Hlen.
  pose proof (lookup_lt_Some _ _ _ Hk) as Hj. cbn [IndicateInUseKey_loop]. apply wp_bind, wp_gets.
  destruct (GetNextUnique_spec _ o Hok) as (q & Hq & _ & Hqb); [lia|].
  pose proof (next_unique_before _ o q j (account_key k) (proves r m) Hok Ho ltac:(lia)
    (GetAccountKey_bytes _ _ _ Hk) Hp Hno Hq) as Hqj.
  apply wp_bind. eapply wp_lift; [exact Hq|]. rewrite (proj2 (Z.eqb_neq q (-1))) by lia.
  destruct (GetAccountKey_done _ q Hok) as (x & Ex & Hx & Hxok); [lia|].
  apply wp_bind. eapply wp_lift; [exact Ex|].
  apply wp_bind. unfold wp at 1. rewrite (get_input_run s i r Hr).
  destruct Hm as ([Hml Hmb] & Hmlen & Hgc). apply wp_bind. rewrite <- (Z2Nat.id (message_length m)) by lia.
  eapply wp_effects; [apply VerifyMac_effects; [lia|lia|apply Hxok|apply Hxok]|].
  intros y s1 [E1 Hx1] ->. fold (proves r m (account_key x)).
  assert (ext request_ok s s1) as Hext by (eapply ext_mono; [|exact Hx1]; by intros []).
  destruct (decide (Z.to_nat q = j)) as [Eq|Hne].
  - rewrite Eq, Hk in Hx. injection Hx as <-. rewrite Hp. change (status_ok kNearbyStatusOK) with true. cbv iota.
    unfold update_input. apply wp_bind, wp_bind. unfold wp at 1.
    rewrite (get_input_run s1 i r) by (by rewrite E1). apply wp_modify.
    apply wp_bind. eapply wp_lift.
    { apply (MarkAccountKeyAsActive_done _ q k Hok); [lia|by rewrite Eq]. }
    rewrite Eq. apply wp_bind, wp_modify. cbn [st env log]. rewrite E1.
    set (s2 := Sys _ _ _). change (st s2) with (key_in_use i j k r (st s)) in *.
    apply wp_bind. eapply wp_mono; [apply (UpdateAndNotifySass_safe (eq (st s2)))|].
    + intros c <-. by apply key_in_use_ok.
    + done.
    + done.
    + done.
    + intros _ s3 (E3 & Hx3 & _). apply wp_ret. split; [done|]. split; [by rewrite <- E3|].
      by eapply ext_trans; [exact Hext|].
  - rewrite (Hno (Z.to_nat q) (account_key x)) by (lia || by apply GetAccountKey_bytes).
    change (status_ok kNearbyStatusInvalidInput) with false. cbv iota.
    rewrite <- E1 in Hc, Hr, Hk, Hno, Hf |- *.
    eapply wp_mono; [apply (IH (q + 1) s1 m i r j k); try done; lia|].
    intros z s2 (-> & E2 & Hx2). split; [done|]. split; [done|]. by eapply ext_trans.
Qed.

(** The loop when no key is proved. *)
Lemma IndicateInUseKey_loop_none fuel : forall o s m i r,
  client_ok (st s) -> received m -> 16 <= message_length m -> rfcomm_inputs (st s) !! i = Some r ->
  (forall n y, key_bytes (account_key_list (st s)) !! n = Some y -> proves r m y = false) ->
  0 <= o <= num_keys (account_key_list (st s)) -> num_keys (account_key_list (st s)) - o < Z.of_nat fuel ->
  wp (IndicateInUseKey_loop fuel o m i) (fun x s' => x = kNearbyStatusInvalidInput /\ quiet is_se s s') s.
Proof.
  induction fuel as [|fuel IH]; intros o s m i r Hc Hm H16 Hr Hno Ho Hf; [lia|].
  pose proof (ok_list _ Hc) as Hok. cbn [IndicateInUseKey_loop]. apply wp_bind, wp_gets.
  destruct (GetNextUnique_spec _ o Hok Ho) as (q & Hq & _ & Hqb).
  apply wp_bind. eapply wp_lift; [exact Hq|]. destruct (Z.eqb_spec q (-1)); [by apply wp_ret|].
  destruct Hqb as [?|Hqb]; [done|].
  destruct (GetAccountKey_done _ q Hok) as (x & Ex & Hx & Hxok); [lia|].
  apply wp_bind. eapply wp_lift; [exact Ex|].
  apply wp_bind. unfold wp at 1. rewrite (get_input_run s i r Hr).
  pose proof Hm as ([Hml Hmb] & Hmlen & _). apply wp_bind.
  rewrite <- (Z2Nat.id (message_length m)) by lia.
  eapply wp_effects; [apply VerifyMac_effects; [lia|lia|apply Hxok|apply Hxok]|].
  intros y s1 Hq1 ->. fold (proves r m (account_key x)).
  rewrite (Hno (Z.to_nat q) (account_key x)) by (by apply GetAccountKey_bytes).
  change (status_ok kNearbyStatusInvalidInput) with false. cbv iota. pose proof Hq1 as [E1 _].
  rewrite <- E1 in Hc, Hr, Hno, Ho, Hf, Hqb.
  eapply wp_mono; [apply (IH (q + 1) s1 m i r); try done; lia|].
  intros z s2 [-> Hq2]. split; [done|by etransitivity].
Qed.

(** A peer tells which account key it uses by authenticating the message with
    it: the first stored key that verifies the code becomes the in-use key of its
    connection and the most recently used key of the list, and the message is
    acknowledged; when no stored key verifies it, nothing changes and the message
    is refused. *)
Theorem HandleSassMessage_in_use_key s p m i r :
  NEARBY_FP_ENABLE_SASS = true -> client_ok (st s) ->
  find_index (fun r => input_peer_address r =? p) (rfcomm_inputs (st s)) 0 = Some i ->
  rfcomm_inputs (st s) !! i = Some r -> received m ->
  message_code m = MESSAGE_CODE_SASS_IN_USE_ACCOUNT_KEY -> message_length m = 22 ->
  wp (HandleSassMessage p m) (fun x s' =>
    match list_find (fun k => proves r m (account_key k) = true) (keys_in_use (account_key_list (st s))) with
    | Some (j, k) => st s' = key_in_use i j k r (st s)
        /\ exists resp, x = resp_status resp
           /\ called (BT (SendMessageStream p (response_frame m kNearbyStatusOK))) resp s s'
    | None => st s' = st s /\ exists l resp, x = resp_status resp /\ Forall (fun e => is_se (fst e)) l
        /\ log s' = (BT (SendMessageStream p (response_frame m kNearbyStatusInvalidInput)), resp)
                    :: l ++ log s
    end) s.
Proof.
  intros Hsass Hc Hi Hr Hm Hcode Hlen. unfold HandleSassMessage, GetRfcommInput.
  apply wp_bind, wp_bind, wp_gets, wp_ret. rewrite Hi. apply wp_bind, wp_uninit. intros buffer _ _.
  rewrite Hcode. cbv zeta. cbn. unfold VerifyMessageLength. rewrite Hlen. cbn.
  apply wp_bind, wp_ret. change (status_ok kNearbyStatusOK) with true. cbv iota.
  unfold IndicateInUseKey. apply wp_bind, wp_bind, wp_gets.
  pose proof (ok_list _ Hc) as Hok. pose proof (ok_count _ Hok) as Hcnt.
  destruct (list_find _ _) as [[j k]|] eqn:Ef.
  - apply list_find_Some in Ef as (Hk & Hp & Hno).
    pose proof (lookup_lt_Some _ _ _ Hk) as Hj. rewrite in_use_length in Hj by done.
    eapply wp_mono; [apply (IndicateInUseKey_loop_found _ 0 s m i r j k); try done; [lia| |lia|lia]|].
    + intros n y Hlt Hy. unfold key_bytes in Hy. rewrite list_lookup_fmap in Hy.
      apply fmap_Some in Hy as (z & Hz & ->). apply not_true_iff_false. by apply (Hno n z).
    + intros x s1 (-> & E1 & Hx1). eapply wp_mono; [apply SendResponse_run|].
      intros x s2 (E2 & resp & -> & Hlog). split; [congruence|]. exists resp. split; [done|].
      eapply ext_called; [exact Hx1|]. exists [(BT (SendMessageStream p (response_frame m kNearbyStatusOK)), resp)].
      split; [done|apply list_elem_of_here].
  - apply list_find_None in Ef.
    eapply wp_mono; [apply (IndicateInUseKey_loop_none _ 0 s m i r); try done; [lia| |lia|lia]|].
    + intros n y Hy. unfold key_bytes in Hy. rewrite list_lookup_fmap in Hy.
      apply fmap_Some in Hy as (z & Hz & ->). apply not_true_iff_false.
      rewrite Forall_lookup in Ef. by apply (Ef n).
    + intros x s1 (-> & E1 & l & Hl & Hf). eapply wp_mono; [apply SendResponse_run|].
      intros x s2 (E2 & resp & -> & Hlog). split; [congruence|]. exists l, resp. split; [done|].
      split; [done|]. by rewrite Hlog, Hl.
Qed.

End Sass.

(** * Messages from peer 7 on the test platform *)
Section Witness.
#[local] Existing Instance sass_config.

(** Peer 7 has proved that it uses the second key. *)
Definition sass_input : rfcomm_input :=
  set_in_use_account_key (account_key (test_key 2)) connected_input.
Definition sass_client : client :=
  set_rfcomm_inputs [sass_input; zero_rfcomm_input] keyed_client.

(** The authentication code of [data] under a key, with a message nonce. *)
Definition with_mac (key data : list Z) : list Z :=
  let nonce := replicate 8 0x33 in
  data ++ nonce ++ take 8 (hmac key (session_nonce connected_input ++ nonce ++ data)).

Definition sass_message (code : Z) (data : list Z) : nearby_message_stream_Message :=
  let d := with_mac (account_key (test_key 2)) data in
  Message MESSAGE_GROUP_SASS code (Z.of_nat (length d)) (take 22 (d ++ replicate 22 0)).

Definition switch_back : nearby_message_stream_Message :=
  sass_message MESSAGE_CODE_SASS_SWITCH_BACK_AUDIO_SOURCE [5].
Definition in_use_message : nearby_message_stream_Message :=
  sass_message MESSAGE_CODE_SASS_IN_USE_ACCOUNT_KEY [1; 2; 3; 4; 5; 6].

Lemma connected_input_ok : input_ok connected_input.
Proof. apply fresh_input_ok; [unfold is_u64; lia|]. split; [reflexivity|by apply bytes_ok_true]. Qed.

Lemma sass_input_ok : input_ok sass_input.
Proof. apply set_in_use_account_key_ok, connected_input_ok. split; [reflexivity|by apply bytes_ok_true]. Qed.

Lemma sass_client_ok : client_ok sass_client.
Proof.
  destruct keyed_client_ok. split; auto.
  constructor; [apply sass_input_ok|]. constructor; [apply zero_input_ok|constructor].
Qed.

Lemma example_received m :
  length (message_data m) = 22%nat -> forallb (fun b => (0 <=? b) && (b <? 256)) (message_data m) = true ->
  0 <= message_length m <= 22 -> is_byte (message_group m) -> is_byte (message_code m) -> received m.
Proof.
  intros Hl Hb Hlen Hg Hc. split; [|done]. split; [done|]. apply list.Forall_forall.
  intros x Hx%list_elem_of_In. rewrite List.forallb_forall in Hb. specialize (Hb x Hx). bool_to_prop.
  unfold is_byte. lia.
Qed.

Example HandleSassMessage_executes_witness :
  wp (HandleSassMessage 7 switch_back)
    (fun x s' => executed (command_request sass_client sass_input 7 (message_code switch_back) 5)
       7 switch_back x (example_sys sass_client) s') (example_sys sass_client).
Proof.
  apply (HandleSassMessage_executes (example_sys sass_client) 7 switch_back 0%nat sass_input 5).
  - reflexivity.
  - reflexivity.
  - exact sass_input_ok.
  - apply example_received; try (vm_compute; reflexivity); vm_compute; split; discriminate || reflexivity.
  - do 3 right. left. reflexivity.
  - discriminate.
  - split; vm_compute; reflexivity.
  - reflexivity.
Defined.

Example HandleSassMessage_in_use_key_witness :
  let s := example_sys sass_client in
  wp (HandleSassMessage 7 in_use_message) (fun x s' =>
    match list_find (fun k => proves sass_input in_use_message (account_key k) = true)
            (keys_in_use (account_key_list (st s))) with
    | Some (j, k) => st s' = key_in_use 0 j k sass_input (st s)
        /\ exists resp, x = resp_status resp
           /\ called (BT (SendMessageStream 7 (response_frame in_use_message kNearbyStatusOK))) resp s s'
    | None => st s' = st s /\ exists l resp, x = resp_status resp /\ Forall (fun e => is_se (fst e)) l
        /\ log s' = (BT (SendMessageStream 7 (response_frame in_use_message kNearbyStatusInvalidInput)), resp)
                    :: l ++ log s
    end) s.
Proof.
  intros s. apply (HandleSassMessage_in_use_key s 7 in_use_message 0%nat sass_input).
  - reflexivity.
  - exact sass_client_ok.
  - reflexivity.
  - reflexivity.
  - apply example_received; try (vm_compute; reflexivity); vm_compute; split; discriminate || reflexivity.
  - reflexivity.
  - reflexivity.
Defined.

(** The second key is the one that verifies the message. *)
Example in_use_key_found :
  fst <$> list_find (fun k => proves sass_input in_use_message (account_key k) = true)
            (keys_in_use test_list) = Some 1%nat.
Proof. vm_compute. reflexivity. Qed.

End Witness.
