(* ===== verification/CppBase.v ===== *)
(** What the C++ components share: the statuses of the abseil library, the
    promotion of a [char] and conversions between integer types.

    A [std::string] or [ByteArray] is the list of its bytes.  Whether a [char]
    is signed depends on the platform (it is on x86, on Windows and on Apple's
    systems, and not on Linux for ARM), and the code promotes [char]s to [int]:
    the class [CharType] is that choice, and [char_int] the promotion.  An
    [absl::Status] is its code (the texts are log messages), an
    [absl::StatusOr] a value or a code; an exception of the standard library, a
    failed [CHECK] and [value()] on an error stop the program: [Crash]. *)

From Stdlib Require Import ZArith Lia.
From stdpp Require Import base list numbers.
From S2P Require Import Prelude.

Open Scope Z_scope.
Open Scope fp_scope.

(** * Status values *)

Inductive StatusCode : Type :=
| kOk | kCancelled | kUnknown | kInvalidArgument | kDeadlineExceeded | kNotFound
| kAlreadyExists | kPermissionDenied | kUnauthenticated | kResourceExhausted
| kFailedPrecondition | kAborted | kOutOfRange | kUnimplemented | kInternal
| kUnavailable | kDataLoss.
#[export] Instance StatusCode_eq_dec : EqDecision StatusCode.
Proof. solve_decision. Defined.

Definition code_ok (s : StatusCode) : bool := bool_decide (s = kOk).

Inductive StatusOr (A : Type) : Type :=
| Ok (a : A)
| Error (code : StatusCode).
Arguments Ok {A} a.
Arguments Error {A} code.

(** [status_or.value()]: without a value the program stops. *)
Definition value {A} (s : StatusOr A) : outcome A :=
  match s with Ok a => Done a | Error _ => Crash end.

(** The signedness of [char], and the promotion of a [char] to [int].  C++17, which the
    build files ask for, leaves the left shift of a negative value undefined; compilers
    may define it nevertheless, as GCC and Clang do and C++20 does:
    [negative_shift_defined]. *)
Class CharType : Type := { char_is_signed : bool; negative_shift_defined : bool }.

Definition char_int `{CharType} (b : Z) : Z := if char_is_signed then s8 b else u8 b.

(** [c << n] for a [char]. *)
Definition char_shift `{CharType} (b n : Z) : outcome Z :=
  if (char_int b <? 0) && negb negative_shift_defined then Fault else Done (Z.shiftl (char_int b) n).

(** Every shift of a [char] is defined. *)
Definition shifts_defined `{CharType} : bool := negb char_is_signed || negative_shift_defined.
#[global] Arguments shifts_defined : simpl never.

Definition signed_char : CharType := {| char_is_signed := true; negative_shift_defined := true |}.
Definition unsigned_char : CharType := {| char_is_signed := false; negative_shift_defined := true |}.
(** Signed, by the letter of C++17. *)
Definition strict_signed_char : CharType := {| char_is_signed := true; negative_shift_defined := false |}.

(** Conversions to [int16_t] and [int]. *)
Definition s16 (x : Z) : Z := let y := u16 x in if y <? 32768 then y else y - 65536.
Definition s32 (x : Z) : Z := let y := u32 x in if y <? 2 ^ 31 then y else y - 2 ^ 32.

(** [s.substr(pos, n)] with [n] of type [size_t]: [std::out_of_range] is thrown
    when [pos] is past the end. *)
Definition substr (s : list Z) (pos n : Z) : outcome (list Z) :=
  if (0 <=? pos) && (pos <=? Z.of_nat (length s))
  then Done (take (Z.to_nat n) (drop (Z.to_nat pos) s))
  else Crash.

(** * Lemmas *)

Lemma char_shift_nonneg `{CharType} b n : 0 <= char_int b -> char_shift b n = Done (Z.shiftl (char_int b) n).
Proof. intros Hb. unfold char_shift. by destruct (Z.ltb_spec (char_int b) 0); [lia|]. Qed.

Lemma char_shift_done `{CharType} b n : shifts_defined = true -> char_shift b n = Done (Z.shiftl (char_int b) n).
Proof.
  intros Hd. destruct (Z.lt_ge_cases (char_int b) 0); [|by apply char_shift_nonneg].
  unfold char_shift, shifts_defined in *. destruct negative_shift_defined; [by rewrite andb_false_r|].
  unfold char_int in *. destruct char_is_signed; [done|]. pose proof (u8_byte b) as Hb. unfold is_byte in Hb. lia.
Qed.

Lemma s32_id x : 0 <= x < 2 ^ 31 -> s32 x = x.
Proof.
  intros H. unfold s32. rewrite u32_id by lia. by rewrite (proj2 (Z.ltb_lt _ _)) by lia.
Qed.

(** A property of every number below [n], by evaluation. *)
Lemma range_cases (P : Z -> bool) n c :
  forallb P (seqZ 0 n) = true -> 0 <= c < n -> P c = true.
Proof.
  rewrite forallb_forall. intros H Hb. apply H. apply list_elem_of_In.
  apply elem_of_seqZ. lia.
Qed.

(** A property of every byte, by evaluation. *)
Lemma byte_cases (P : Z -> bool) b : forallb P (seqZ 0 256) = true -> is_byte b -> P b = true.
Proof. intros H Hb. by apply (range_cases P 256). Qed.
