(* ===== verification/WeavePacket.v ===== *)
(** Model of src/internal/weave/packet.h and packet.cc: the packet of the Weave
    transport over Bluetooth LE, one header byte followed by a payload. *)

From Stdlib Require Import ZArith Lia String.
From stdpp Require Import base list numbers.
From S2P Require Import Prelude.
From S2P Require Import CppBase.

Open Scope Z_scope.
Open Scope fp_scope.

Module Packet.

(** * Definitions *)

Section Definitions.
Context {ct : CharType}.

Definition kMaxPacketCounter : Z := 7.
Definition kPacketHeaderLength : nat := 1.

Definition kFirstPacketBit : Z := char_int 8.
Definition kLastPacketBit : Z := char_int 4.
Definition kMaskType : Z := char_int 128.
Definition kControlType : Z := char_int 128.
Definition kDataType : Z := char_int 0.
Definition kMaskPacketCounter : Z := char_int 112.
Definition kMaskControlCommandNumber : Z := char_int 15.
Definition kConnectionRequestExtraDataSize : nat := 13.
Definition kConnectionConfirmExtraDataSize : nat := 15.
Definition kConnectionConfirmPacketHeaderLength : nat := 4.
Definition kConnectionRequestPacketHeaderLength : nat := 6.

(** [enum class ControlPacketType], whose underlying type is [int]: the cast
    in [GetControlCommandNumber] makes values that have no enumerator. *)
Definition ControlPacketType : Type := Z.
Definition kControlConnectionRequest : ControlPacketType := 0.
Definition kControlConnectionConfirm : ControlPacketType := 1.
Definition kControlError : ControlPacketType := 2.

Record Packet : Type := MakePacket { bytes_ : list Z }.

#[export] Instance Packet_eq_dec : EqDecision Packet.
Proof. solve_decision. Defined.

Definition FromBytes (bytes : list Z) : StatusOr Packet :=
  if (length bytes =? 0)%nat then Error kInvalidArgument
  else Ok (MakePacket bytes).

(** [bytes_.data()[0]] and [bytes_[0]]: reading position [size()] of a
    [std::string] gives the null character. *)
Definition first_char (p : Packet) : Z :=
  char_int (match bytes_ p with b :: _ => b | [] => 0 end).

Definition not_empty (p : Packet) : bool := negb (length (bytes_ p) =? 0)%nat.

Definition IsFirstPacket (p : Packet) : bool :=
  not_empty p && nonzero (Z.land (first_char p) kFirstPacketBit).

Definition IsLastPacket (p : Packet) : bool :=
  not_empty p && nonzero (Z.land (first_char p) kLastPacketBit).

Definition IsControlPacket (p : Packet) : bool :=
  not_empty p && nonzero (Z.land (first_char p) kMaskType).

Definition IsDataPacket (p : Packet) : bool := negb (IsControlPacket p).

Definition GetControlCommandNumber (p : Packet) : ControlPacketType :=
  Z.land (first_char p) kMaskControlCommandNumber.

(** The switch has no default, and control runs off the end of the function for another
    number. *)
Definition ControlPacketTypeToString (type : ControlPacketType) : outcome string :=
  if type =? kControlConnectionRequest then Done "[ConnectionRequest]"%string else
  if type =? kControlConnectionConfirm then Done "[ConnectionConfirm]"%string else
  if type =? kControlError then Done "[Error]"%string else Fault.

Definition GetPacketCounter (p : Packet) : Z :=
  if (length (bytes_ p) =? 0)%nat then 0
  else Z.shiftr (Z.land (first_char p) kMaskPacketCounter) 4.

Definition GetPayload (p : Packet) : outcome (list Z) :=
  substr (bytes_ p) (Z.of_nat kPacketHeaderLength) (Z.of_nat (length (bytes_ p))).

Definition GetBytes (p : Packet) : list Z := bytes_ p.

Definition SetHeader (p : Packet) (is_control_packet : bool)
    (last_four_bits : Z) : outcome Packet :=
  let! b := store (bytes_ p) 0
              (Z.lor (if is_control_packet then kControlType else kDataType)
                     (Z.land last_four_bits 15)) in
  Done (MakePacket b).

Definition SetPacketCounter (p : Packet) (packetCounter : Z)
  : outcome (StatusCode * Packet) :=
  if (packetCounter <? 0) || (kMaxPacketCounter <? packetCounter)
  then Done (kInvalidArgument, p)
  else
    let! b := store (bytes_ p) 0
                (Z.lor (first_char p)
                       (Z.land (Z.shiftl packetCounter 4) kMaskPacketCounter)) in
    Done (kOk, MakePacket b).

Definition CreateDataPacket (is_first_packet is_last_packet : bool)
    (payload : list Z) : outcome Packet :=
  let next_four_bits :=
    Z.lor (if is_first_packet then kFirstPacketBit else 0)
          (if is_last_packet then kLastPacketBit else 0) in
  let packet := MakePacket (replicate (kPacketHeaderLength + length payload) 0) in
  let! packet := SetHeader packet false next_four_bits in
  let! b := write_bytes (bytes_ packet) kPacketHeaderLength payload in
  Done (MakePacket b).

Definition CreateControlPacket (command_number : ControlPacketType)
    (payload_size : nat) : outcome Packet :=
  let packet := MakePacket (replicate (kPacketHeaderLength + payload_size) 0) in
  SetHeader packet true command_number.

Definition CreateErrorPacket : outcome Packet :=
  CreateControlPacket kControlError 0.

(** A pair of assignments [header_data[i] = 0xFF & (v >> 8)] and
    [header_data[i + 1] = 0xFF & v]. *)
Definition put_big_endian (header_data : list Z) (i : nat) (v : Z)
  : outcome (list Z) :=
  let! h := store header_data i (Z.land 255 (Z.shiftr v 8)) in
  store h (i + 1) (Z.land 255 v).

Definition CreateConnectionRequestPacket
    (min_protocol_version max_protocol_version max_packet_size : Z)
    (extra_data : list Z) : outcome (StatusOr Packet) :=
  if (kConnectionRequestExtraDataSize <? length extra_data)%nat
  then Done (Error kInvalidArgument)
  else
    let! packet := CreateControlPacket kControlConnectionRequest
                     (kConnectionRequestPacketHeaderLength + length extra_data) in
    let header_data := replicate kConnectionRequestPacketHeaderLength 0 in
    let! header_data := put_big_endian header_data 0 min_protocol_version in
    let! header_data := put_big_endian header_data 2 max_protocol_version in
    let! header_data := put_big_endian header_data 4 max_packet_size in
    let! b := write_bytes (bytes_ packet) kPacketHeaderLength header_data in
    let! b := write_bytes b (kConnectionRequestPacketHeaderLength
                             + kPacketHeaderLength) extra_data in
    Done (Ok (MakePacket b)).

Definition CreateConnectionConfirmPacket
    (selected_protocol_version selected_packet_size : Z)
    (extra_data : list Z) : outcome (StatusOr Packet) :=
  if (kConnectionConfirmExtraDataSize <? length extra_data)%nat
  then Done (Error kInvalidArgument)
  else
    let! packet := CreateControlPacket kControlConnectionConfirm
                     (kConnectionConfirmPacketHeaderLength + length extra_data) in
    let header_data := replicate kConnectionConfirmPacketHeaderLength 0 in
    let! header_data := put_big_endian header_data 0 selected_protocol_version in
    let! header_data := put_big_endian header_data 2 selected_packet_size in
    let! b := write_bytes (bytes_ packet) kPacketHeaderLength header_data in
    let! b := write_bytes b (kConnectionConfirmPacketHeaderLength
                             + kPacketHeaderLength) extra_data in
    Done (Ok (MakePacket b)).

(** The bytes of a packet: one at least, each in the range of a byte. *)
Definition packet_ok (p : Packet) : Prop :=
  bytes_ p <> [] /\ bytes_ok (bytes_ p).

(** The header byte of a data packet and of a control packet, with counter
    [c]. *)
Definition data_header (c : Z) (first last : bool) : Z :=
  16 * c + (if first then 8 else 0) + (if last then 4 else 0).
Definition control_header (c : Z) (command : ControlPacketType) : Z :=
  128 + 16 * c + command.

(** The two bytes of a 16 bit field. *)
Definition be16 (v : Z) : list Z := [u8 (v / 256); u8 v].

End Definitions.

(** * Lemmas *)

Section Lemmas.
Context {ct : CharType}.

(** The header byte read by the accessors, as arithmetic on the byte. *)
Lemma header_fields b r :
  is_byte b ->
  let p := MakePacket (b :: r) in
  IsFirstPacket p = Z.testbit b 3 /\ IsLastPacket p = Z.testbit b 2 /\
  IsControlPacket p = Z.testbit b 7 /\
  GetPacketCounter p = b / 16 mod 8 /\ GetControlCommandNumber p = b mod 16.
Proof.
  intros Hb.
  assert (forallb (fun b =>
    let p := MakePacket [b] in
    bool_decide (IsFirstPacket p = Z.testbit b 3) &&
    bool_decide (IsLastPacket p = Z.testbit b 2) &&
    bool_decide (IsControlPacket p = Z.testbit b 7) &&
    bool_decide (GetPacketCounter p = b / 16 mod 8) &&
    bool_decide (GetControlCommandNumber p = b mod 16)) (seqZ 0 256) = true) as H
    by (destruct ct as [[|]]; vm_compute; reflexivity).
  apply range_cases with (c := b) in H; [|done].
  repeat (apply andb_true_iff in H as [H ?]). repeat split; by eapply bool_decide_eq_true_1.
Qed.

Lemma GetPayload_cons b r : GetPayload (MakePacket (b :: r)) = Done r.
Proof.
  unfold GetPayload, substr. simpl bytes_. simpl length.
  rewrite (proj2 (Z.leb_le _ _)), (proj2 (Z.leb_le (Z.of_nat kPacketHeaderLength) _))
    by (unfold kPacketHeaderLength; lia).
  rewrite Nat2Z.id. unfold kPacketHeaderLength. simpl. f_equal. apply take_ge. lia.
Qed.

Lemma data_header_byte c f l : 0 <= c <= 7 -> is_byte (data_header c f l).
Proof. unfold is_byte, data_header. destruct f, l; lia. Qed.

Lemma control_header_byte c k : 0 <= c <= 7 -> 0 <= k < 16 -> is_byte (control_header c k).
Proof. unfold is_byte, control_header. lia. Qed.

Lemma data_header_fields c f l r :
  0 <= c <= 7 ->
  let p := MakePacket (data_header c f l :: r) in
  IsFirstPacket p = f /\ IsLastPacket p = l /\ IsControlPacket p = false /\
  GetPacketCounter p = c /\ GetPayload p = Done r.
Proof.
  intros Hc p. unfold p. rewrite GetPayload_cons.
  destruct (header_fields (data_header c f l) r) as (-> & -> & -> & -> & _);
    [by apply data_header_byte|].
  pose proof (range_cases (fun c => forallb (fun '(f, l) =>
    let b := data_header c f l in
    bool_decide (Z.testbit b 3 = f) && bool_decide (Z.testbit b 2 = l) &&
    bool_decide (Z.testbit b 7 = false) && bool_decide (b / 16 mod 8 = c))
    [(true, true); (true, false); (false, true); (false, false)]) 8 c eq_refl ltac:(lia)) as H.
  rewrite forallb_forall in H.
  assert (In (f, l) [(true, true); (true, false); (false, true); (false, false)]) as Hin
    by (destruct f, l; simpl; tauto).
  specialize (H _ Hin). simpl in H.
  repeat (apply andb_true_iff in H as [H ?]).
  repeat split; by eapply bool_decide_eq_true_1.
Qed.

Lemma control_header_fields c k r :
  0 <= c <= 7 -> 0 <= k < 4 ->
  let p := MakePacket (control_header c k :: r) in
  IsControlPacket p = true /\ GetControlCommandNumber p = k /\
  GetPacketCounter p = c /\ GetPayload p = Done r.
Proof.
  intros Hc Hk p. unfold p. rewrite GetPayload_cons.
  destruct (header_fields (control_header c k) r) as (_ & _ & -> & -> & ->);
    [apply control_header_byte; lia|].
  pose proof (range_cases (fun c => forallb (fun k =>
    let b := control_header c k in
    bool_decide (Z.testbit b 7 = true) && bool_decide (b mod 16 = k) &&
    bool_decide (b / 16 mod 8 = c)) (seqZ 0 4)) 8 c eq_refl ltac:(lia)) as H.
  apply range_cases with (c := k) in H; [|lia].
  repeat (apply andb_true_iff in H as [H ?]).
  repeat split; by eapply bool_decide_eq_true_1.
Qed.

(** The counter is combined into the header by a disjunction. *)
Lemma SetPacketCounter_eq b r c :
  is_byte b -> 0 <= c <= 7 ->
  SetPacketCounter (MakePacket (b :: r)) c =
    Done (kOk, MakePacket (Z.lor b (16 * c) :: r)).
Proof.
  intros Hb Hc. unfold SetPacketCounter, kMaxPacketCounter.
  rewrite (proj2 (Z.ltb_ge c 0)), (proj2 (Z.ltb_ge 7 c)) by lia. simpl orb. cbn iota.
  unfold store. simpl. do 4 f_equal.
  assert (forallb (fun c => forallb (fun b =>
     bool_decide (u8 (Z.lor (char_int b) (Z.land (Z.shiftl c 4) kMaskPacketCounter)) = Z.lor b (16 * c)))
     (seqZ 0 256)) (seqZ 0 8) = true) as H by (destruct ct as [[|]]; vm_compute; reflexivity).
  apply range_cases with (c := c) in H; [|lia].
  pose proof (range_cases _ 256 b H Hb) as H'. by eapply bool_decide_eq_true_1 in H'.
Qed.

Lemma SetPacketCounter_data f l r c :
  0 <= c <= 7 ->
  SetPacketCounter (MakePacket (data_header 0 f l :: r)) c =
    Done (kOk, MakePacket (data_header c f l :: r)).
Proof.
  intros Hc. rewrite SetPacketCounter_eq by (done || (apply data_header_byte; lia)).
  do 4 f_equal.
  assert (forallb (fun c => bool_decide
    (Z.lor (data_header 0 f l) (16 * c) = data_header c f l)) (seqZ 0 8) = true) as H
    by (destruct f, l; reflexivity).
  apply range_cases with (c := c) in H; [|lia]. by eapply bool_decide_eq_true_1 in H.
Qed.

Lemma SetPacketCounter_control k r c :
  0 <= k < 16 -> 0 <= c <= 7 ->
  SetPacketCounter (MakePacket (control_header 0 k :: r)) c =
    Done (kOk, MakePacket (control_header c k :: r)).
Proof.
  intros Hk Hc. rewrite SetPacketCounter_eq by (done || (apply control_header_byte; lia)).
  do 4 f_equal.
  pose proof (range_cases (fun c => forallb (fun k => bool_decide
    (Z.lor (control_header 0 k) (16 * c) = control_header c k)) (seqZ 0 16))
    8 c eq_refl ltac:(lia)) as H.
  apply range_cases with (c := k) in H; [|lia]. by eapply bool_decide_eq_true_1 in H.
Qed.

Lemma CreateDataPacket_eq f l payload :
  CreateDataPacket f l payload = Done (MakePacket (data_header 0 f l :: payload)).
Proof.
  unfold CreateDataPacket, SetHeader, store. simpl.
  change (replicate (length payload) 0) with (replicate (length payload) 0).
  unfold write_bytes. simpl. rewrite length_replicate, Nat.leb_refl. simpl.
  rewrite drop_ge by (rewrite length_replicate; lia). rewrite app_nil_r.
  destruct ct as [[|]], f, l; reflexivity.
Qed.

Lemma CreateControlPacket_eq k n :
  0 <= k < 16 ->
  CreateControlPacket k n = Done (MakePacket (control_header 0 k :: replicate n 0)).
Proof.
  intros Hk. unfold CreateControlPacket, SetHeader, store. simpl. do 3 f_equal.
  unfold control_header.
  assert (forallb (fun k => bool_decide
    (u8 (Z.lor kControlType (Z.land k 15)) = 128 + 16 * 0 + k)) (seqZ 0 16) = true) as H
    by (destruct ct as [[|]]; reflexivity).
  apply range_cases with (c := k) in H; [|lia]. by eapply bool_decide_eq_true_1 in H.
Qed.

Lemma CreateErrorPacket_eq :
  CreateErrorPacket = Done (MakePacket [control_header 0 kControlError]).
Proof. by destruct ct as [[|]]. Qed.

Lemma put_big_endian_eq pre x y rest v :
  put_big_endian (pre ++ x :: y :: rest) (length pre) v = Done (pre ++ be16 v ++ rest).
Proof.
  unfold put_big_endian. rewrite store_app, done_bind.
  replace (pre ++ u8 (Z.land 255 (Z.shiftr v 8)) :: y :: rest)
    with ((pre ++ [u8 (Z.land 255 (Z.shiftr v 8))]) ++ y :: rest)
    by (rewrite <- app_assoc; reflexivity).
  replace (length pre + 1)%nat with (length (pre ++ [u8 (Z.land 255 (Z.shiftr v 8))]))
    by (rewrite length_app; simpl; lia).
  rewrite store_app, <- app_assoc. simpl. unfold be16.
  rewrite !(Z.land_comm 255), !land_255. rewrite Z.shiftr_div_pow2 by lia.
  change (2 ^ 8) with 256. unfold u8. change (2 ^ 8) with 256.
  rewrite !Z.mod_mod by lia. reflexivity.
Qed.

Lemma be16_length v : length (be16 v) = 2%nat.
Proof. reflexivity. Qed.

Lemma be16_ok v : bytes_ok (be16 v).
Proof. unfold be16. repeat constructor; apply u8_byte. Qed.

(** The two copies that fill the payload of a control packet. *)
Lemma fill_control h header extra :
  (let! b := write_bytes (h :: replicate (length header + length extra) 0) 1 header in
   write_bytes b (length header + 1) extra) = Done (h :: header ++ extra).
Proof.
  rewrite replicate_add.
  pose proof (write_bytes_app [h] (replicate (length header) 0)
    (replicate (length extra) 0) header) as H.
  rewrite length_replicate in H. specialize (H eq_refl). simpl in H. rewrite H, done_bind.
  replace (h :: header ++ replicate (length extra) 0)
    with ((h :: header) ++ replicate (length extra) 0 ++ []) by (by rewrite app_nil_r).
  replace (length header + 1)%nat with (length (h :: header)) by (simpl; lia).
  rewrite write_bytes_app by (by rewrite length_replicate).
  by rewrite app_nil_r.
Qed.

Lemma CreateConnectionRequestPacket_eq vmin vmax size extra :
  (length extra <= 13)%nat ->
  CreateConnectionRequestPacket vmin vmax size extra =
    Done (Ok (MakePacket (control_header 0 kControlConnectionRequest
                          :: be16 vmin ++ be16 vmax ++ be16 size ++ extra))).
Proof.
  intros He. unfold CreateConnectionRequestPacket, kConnectionRequestExtraDataSize.
  rewrite (proj2 (Nat.ltb_ge _ _)) by done.
  rewrite CreateControlPacket_eq by (unfold kControlConnectionRequest; lia). rewrite done_bind.
  change (replicate kConnectionRequestPacketHeaderLength 0) with ([] ++ [0; 0; 0; 0; 0; 0]).
  rewrite (put_big_endian_eq [] 0 0), done_bind.
  rewrite app_nil_l, (put_big_endian_eq (be16 vmin) 0 0), done_bind, app_assoc.
  rewrite (put_big_endian_eq (be16 vmin ++ be16 vmax) 0 0 []), done_bind.
  rewrite app_nil_r. simpl bytes_.
  pose proof (fill_control (control_header 0 kControlConnectionRequest)
    ((be16 vmin ++ be16 vmax) ++ be16 size) extra) as H.
  apply bind_done_inv in H as (b & H & H'). cbv [kPacketHeaderLength
    kConnectionRequestPacketHeaderLength]. simpl length in H, H'. simpl replicate in H.
  rewrite H, done_bind, H'. by rewrite <- ?app_assoc.
Qed.

Lemma CreateConnectionConfirmPacket_eq version size extra :
  (length extra <= 15)%nat ->
  CreateConnectionConfirmPacket version size extra =
    Done (Ok (MakePacket (control_header 0 kControlConnectionConfirm
                          :: be16 version ++ be16 size ++ extra))).
Proof.
  intros He. unfold CreateConnectionConfirmPacket, kConnectionConfirmExtraDataSize.
  rewrite (proj2 (Nat.ltb_ge _ _)) by done.
  rewrite CreateControlPacket_eq by (unfold kControlConnectionConfirm; lia). rewrite done_bind.
  change (replicate kConnectionConfirmPacketHeaderLength 0) with ([] ++ [0; 0; 0; 0]).
  rewrite (put_big_endian_eq [] 0 0), done_bind.
  rewrite app_nil_l, (put_big_endian_eq (be16 version) 0 0 []), done_bind.
  rewrite app_nil_r. simpl bytes_.
  pose proof (fill_control (control_header 0 kControlConnectionConfirm)
    (be16 version ++ be16 size) extra) as H.
  apply bind_done_inv in H as (b & H & H'). cbv [kPacketHeaderLength
    kConnectionConfirmPacketHeaderLength]. simpl length in H, H'. simpl replicate in H.
  rewrite H, done_bind, H'. by rewrite <- ?app_assoc.
Qed.

(** * Properties *)

(** Encoding and decoding of a data packet: the packet built from the two
    flags, a payload and a counter of three bits is one byte longer than the
    payload, and the bytes it is sent as parse back to the same flags, counter
    and payload. *)
Theorem Packet_data_roundtrip first last payload c :
  0 <= c <= kMaxPacketCounter ->
  exists p q,
    CreateDataPacket first last payload = Done p /\
    SetPacketCounter p c = Done (kOk, q) /\
    length (GetBytes q) = (kPacketHeaderLength + length payload)%nat /\
    FromBytes (GetBytes q) = Ok q /\ IsDataPacket q = true /\
    IsFirstPacket q = first /\ IsLastPacket q = last /\
    GetPacketCounter q = c /\ GetPayload q = Done payload.
Proof.
  unfold kMaxPacketCounter. intros Hc.
  destruct (data_header_fields c first last payload Hc) as (H1 & H2 & H3 & H4 & H5).
  eexists _, _. rewrite CreateDataPacket_eq. split; [done|].
  rewrite SetPacketCounter_data by done. split; [done|].
  unfold IsDataPacket. rewrite H3. repeat split; done.
Qed.

Lemma Packet_data_roundtrip_witness :
  exists p q,
    CreateDataPacket true false [1; 2; 255] = Done p /\
    SetPacketCounter p 5 = Done (kOk, q) /\
    length (GetBytes q) = 4%nat /\
    FromBytes (GetBytes q) = Ok q /\ IsDataPacket q = true /\
    IsFirstPacket q = true /\ IsLastPacket q = false /\
    GetPacketCounter q = 5 /\ GetPayload q = Done [1; 2; 255].
Proof. apply (Packet_data_roundtrip true false [1; 2; 255] 5). unfold kMaxPacketCounter. lia. Defined.

(** Setting a counter on a packet that already has one leaves the disjunction
    of the two. *)
Lemma SetPacketCounter_accumulates p c d :
  packet_ok p -> 0 <= c <= 7 -> 0 <= d <= 7 -> GetPacketCounter p = d ->
  exists q, SetPacketCounter p c = Done (kOk, q) /\ GetPacketCounter q = Z.lor d c.
Proof.
  destruct p as [[|b r]]; intros [Hne Hb] Hc Hd Hp; [done|]. inversion_clear Hb as [|? ? Hb' _].
  rewrite SetPacketCounter_eq by done. eexists. split; [done|].
  assert (forallb (fun c => forallb (fun b => bool_decide
    (GetPacketCounter (MakePacket [Z.lor b (16 * c)])
     = Z.lor (GetPacketCounter (MakePacket [b])) c)) (seqZ 0 256)) (seqZ 0 8) = true) as H
    by (destruct ct as [[|]]; vm_compute; reflexivity).
  apply range_cases with (c := c) in H; [|lia].
  apply range_cases with (c := b) in H; [|done]. eapply bool_decide_eq_true_1 in H.
  rewrite <- Hp. exact H.
Qed.

End Lemmas.
#[export] Hint Resolve data_header_byte control_header_byte be16_ok : fp.

End Packet.
