(* ===== verification/WeavePacketizer.v ===== *)
(** Model of the parts of src/internal/weave/ between messages and packets:
    packet_sequence_number_generator (the counter of three bits), packetizer
    (from packets to a message), message_write_request (from a message to
    packets) and control_packet_write_request (one packet, sent once).  Their
    mutexes make each call one step.  The theorems relate the two directions:
    the packets a request produces are exactly what the packetizer joins back
    into the message. *)

From Stdlib Require Import ZArith Lia.
From stdpp Require Import base list numbers.
From S2P Require Import Prelude.
From S2P Require Import CppBase.
From S2P Require Import WeavePacket.

Import Packet.
Open Scope Z_scope.
Open Scope fp_scope.

(** * Definitions *)

Module PacketSequenceNumberGenerator.

Record Generator : Type := MakeGenerator { packet_counter_ : Z }.

Definition new_generator : Generator := MakeGenerator 0.

Definition Next (g : Generator) : Z * Generator :=
  let next_packet_counter := packet_counter_ g in
  (next_packet_counter,
   if next_packet_counter =? kMaxPacketCounter then MakeGenerator 0
   else MakeGenerator (packet_counter_ g + 1)).

Definition Generator_Reset (g : Generator) : Generator := MakeGenerator 0.

(** The results of [n] calls of [Next]. *)
Fixpoint Next_sequence (n : nat) (g : Generator) : list Z * Generator :=
  match n with
  | O => ([], g)
  | S n' =>
    let '(c, g) := Next g in
    let '(cs, g) := Next_sequence n' g in (c :: cs, g)
  end.

End PacketSequenceNumberGenerator.
Import PacketSequenceNumberGenerator.

Module Packetizer.

Record Packetizer : Type := MakePacketizer
  { pending_payloads_ : list Z; is_message_complete_ : bool }.

Definition new_packetizer : Packetizer := MakePacketizer [] false.

Definition pending_empty (z : Packetizer) : bool :=
  (length (pending_payloads_ z) =? 0)%nat.

Definition AddPacket {ct : CharType} (z : Packetizer) (packet : Packet)
  : outcome (StatusCode * Packetizer) :=
  if is_message_complete_ z then Done (kInvalidArgument, z)
  else if pending_empty z && negb (IsFirstPacket packet)
  then Done (kInvalidArgument, z)
  else if negb (pending_empty z) && IsFirstPacket packet
  then Done (kInvalidArgument, z)
  else
    let! payload := GetPayload packet in
    let pending := pending_payloads_ z ++ payload in
    Done (kOk, MakePacketizer pending
                 (if IsLastPacket packet then true else is_message_complete_ z)).

Definition TakeMessage (z : Packetizer) : StatusOr (list Z) * Packetizer :=
  if negb (is_message_complete_ z) then (Error kUnavailable, z)
  else (Ok (pending_payloads_ z), MakePacketizer [] false).

Definition Packetizer_Reset (z : Packetizer) : Packetizer := MakePacketizer [] false.

End Packetizer.
Import Packetizer.

Module MessageWriteRequest.

(** [write_request_status_] is a handle shared with the caller of [Write]; the
    model names it by a number. *)
Record MessageWriteRequest : Type := MakeRequest
  { message_ : list Z; position_ : Z; write_request_status_ : nat }.

Definition new_request (message : list Z) (future : nat) : MessageWriteRequest :=
  MakeRequest message 0 future.

Definition IsStarted (r : MessageWriteRequest) : bool := negb (position_ r =? 0).

(** The comparison is at type [size_t]. *)
Definition IsFinished (r : MessageWriteRequest) : bool :=
  Z.of_nat (length (message_ r)) <=? u64 (position_ r).

Definition NextPacket {ct : CharType} (r : MessageWriteRequest) (max_packet_size : Z)
  : outcome (StatusOr Packet * MessageWriteRequest) :=
  if IsFinished r then Done (Error kOutOfRange, r)
  else if max_packet_size <=? 0 then Done (Error kInvalidArgument, r)
  else
    let is_first := negb (IsStarted r) in
    let next_packet_len :=
      Z.min (max_packet_size - Z.of_nat kPacketHeaderLength)
            (s32 (Z.of_nat (length (message_ r))) - position_ r) in
    let! next_packet_bytes :=
      substr (message_ r) (u64 (position_ r)) (u64 next_packet_len) in
    let r := MakeRequest (message_ r) (position_ r + next_packet_len)
                         (write_request_status_ r) in
    let! packet := CreateDataPacket is_first (IsFinished r) next_packet_bytes in
    Done (Ok packet, r).

End MessageWriteRequest.
Import MessageWriteRequest.

Module ControlPacketWriteRequest.

Record ControlPacketWriteRequest : Type := MakeControlRequest
  { control_packet_ : Packet; is_started_ : bool }.

Definition new_control_request (packet : Packet) : ControlPacketWriteRequest :=
  MakeControlRequest packet false.

(** The packet is moved out; no later call reads it. *)
Definition ControlPacketWriteRequest_NextPacket (r : ControlPacketWriteRequest)
  : StatusOr Packet * ControlPacketWriteRequest :=
  if is_started_ r then (Error kOutOfRange, r)
  else (Ok (control_packet_ r), MakeControlRequest (control_packet_ r) true).

End ControlPacketWriteRequest.
Import ControlPacketWriteRequest.

(** * Fragments: the reference split of a message *)

(** The [i]-th piece of [n] bytes of a message, and the number of pieces. *)
Definition fragment (n : nat) (message : list Z) (i : nat) : list Z :=
  take n (drop (i * n) message).
Definition packet_count (n len : nat) : nat := ((len + n - 1) / n)%nat.

(** The packet that carries the [i]-th piece with counter [c]. *)
Definition fragment_packet (n : nat) (message : list Z) (c : Z) (i : nat) : Packet :=
  MakePacket (data_header c (i =? 0)%nat (S i =? packet_count n (length message))%nat
              :: fragment n message i).

(** The state of a request after [i] packets. *)
Definition request_at (n : nat) (message : list Z) (f : nat) (i : nat)
  : MessageWriteRequest :=
  MakeRequest message (Z.of_nat (Nat.min (i * n) (length message))) f.

(** [NextPacket] called until it returns an error, at most [fuel] times. *)
Fixpoint write_all {ct : CharType} (fuel : nat) (r : MessageWriteRequest) (max_packet_size : Z)
  : outcome (list Packet * StatusCode * MessageWriteRequest) :=
  match fuel with
  | O => Done ([], kOk, r)
  | S fuel =>
    let! '(s, r) := NextPacket r max_packet_size in
    match s with
    | Error code => Done ([], code, r)
    | Ok p =>
      let! '(ps, code, r) := write_all fuel r max_packet_size in
      Done (p :: ps, code, r)
    end
  end.

(** [AddPacket] followed by [TakeMessage] for each packet, as the packetizer's
    header prescribes; the results of [TakeMessage]. *)
Fixpoint read_all {ct : CharType} (ps : list Packet) (z : Packetizer)
  : outcome (list (StatusOr (list Z)) * Packetizer) :=
  match ps with
  | [] => Done ([], z)
  | p :: ps =>
    let! '(s, z) := AddPacket z p in
    if code_ok s then
      let '(m, z) := TakeMessage z in
      let! '(ms, z) := read_all ps z in Done (m :: ms, z)
    else Done ([Error s], z)
  end.

(** * Lemmas *)

Lemma Next_mod g :
  0 <= packet_counter_ g <= 7 ->
  Next g = (packet_counter_ g, MakeGenerator ((packet_counter_ g + 1) mod 8)).
Proof.
  intros Hg. unfold Next, kMaxPacketCounter.
  destruct (packet_counter_ g =? 7) eqn:He; bool_to_prop.
  - by rewrite He.
  - by rewrite Z.mod_small by lia.
Qed.

Lemma Next_sequence_mod n k :
  0 <= k ->
  Next_sequence n (MakeGenerator (k mod 8)) =
    (map (fun i => (k + Z.of_nat i) mod 8) (seq 0 n),
     MakeGenerator ((k + Z.of_nat n) mod 8)).
Proof.
  revert k. induction n as [|n IH]; intros k Hk; cbn [Next_sequence].
  - by rewrite Z.add_0_r.
  - rewrite Next_mod by (simpl; pose proof (Z.mod_pos_bound k 8); lia).
    simpl packet_counter_. rewrite Zplus_mod_idemp_l, IH by lia.
    f_equal; [|f_equal; f_equal; lia].
    simpl seq. simpl map. rewrite Z.add_0_r. f_equal.
    rewrite <- seq_shift, map_map. apply map_ext. intros i. f_equal. lia.
Qed.

Lemma packet_count_spec n len i :
  (0 < n)%nat -> ((i < packet_count n len)%nat <-> (i * n < len)%nat).
Proof.
  intros Hn. unfold packet_count.
  pose proof (Nat.div_mod (len + n - 1) n ltac:(lia)) as Hd.
  pose proof (Nat.mod_upper_bound (len + n - 1) n ltac:(lia)) as Hm.
  set (q := ((len + n - 1) / n)%nat) in *. set (r := ((len + n - 1) mod n)%nat) in *.
  split; intros H; nia.
Qed.

Lemma u64_length (l : list Z) : Z.of_nat (length l) < 2 ^ 31 -> u64 (Z.of_nat (length l)) = Z.of_nat (length l).
Proof. intros. apply u64_id. lia. Qed.

Lemma read_all_cons {ct : CharType} p ps z :
  read_all (p :: ps) z =
    let! '(s, z) := AddPacket z p in
    if code_ok s then
      let '(m, z) := TakeMessage z in
      let! '(ms, z) := read_all ps z in Done (m :: ms, z)
    else Done ([Error s], z).
Proof. reflexivity. Qed.

Section Fragments.
Context {ct : CharType} (n : nat) (message : list Z) (f : nat).
Hypothesis Hn : (0 < n)%nat.
Hypothesis Hlen : Z.of_nat (length message) < 2 ^ 31.

Local Notation count := (packet_count n (length message)).

Lemma request_at_finished i : IsFinished (request_at n message f i) = (count <=? i)%nat.
Proof using Hn Hlen.
  unfold IsFinished, request_at. simpl. rewrite u64_id by lia.
  pose proof (packet_count_spec n (length message) i Hn) as H.
  destruct (Nat.leb_spec count i), (Z.leb_spec (Z.of_nat (length message))
    (Z.of_nat (Nat.min (i * n) (length message)))); try done; lia.
Qed.

Lemma request_at_started i : (i < count)%nat -> IsStarted (request_at n message f i) = negb (i =? 0)%nat.
Proof using Hn.
  intros Hi. apply packet_count_spec in Hi; [|done]. unfold IsStarted, request_at. simpl.
  f_equal. destruct (Nat.eqb_spec i 0), (Z.eqb_spec (Z.of_nat (Nat.min (i * n) (length message))) 0);
    try done; nia.
Qed.

Lemma NextPacket_fragment i :
  (i < count)%nat ->
  NextPacket (request_at n message f i) (Z.of_nat n + 1) =
    Done (Ok (fragment_packet n message 0 i), request_at n message f (S i)).
Proof using Hn Hlen.
  intros Hi. unfold NextPacket.
  rewrite request_at_finished, (proj2 (Nat.leb_gt _ _)) by done.
  rewrite (proj2 (Z.leb_gt _ _)) by lia.
  rewrite request_at_started by done. rewrite negb_involutive.
  pose proof Hi as Hi'. apply packet_count_spec in Hi'; [|done].
  assert (Z.min (Z.of_nat n + 1 - Z.of_nat kPacketHeaderLength)
      (s32 (Z.of_nat (length (message_ (request_at n message f i))))
       - position_ (request_at n message f i))
    = Z.of_nat (Nat.min (S i * n) (length message) - i * n)) as ->.
  { unfold kPacketHeaderLength. simpl. rewrite s32_id by lia. lia. }
  unfold substr. simpl message_. simpl position_.
  rewrite !u64_id by lia.
  rewrite (proj2 (Z.leb_le _ _)), (proj2 (Z.leb_le _ _)) by lia. cbn [andb].
  rewrite done_bind.
  replace (MakeRequest message _ _) with (request_at n message f (S i))
    by (unfold request_at; f_equal; simpl; lia).
  rewrite request_at_finished, CreateDataPacket_eq, done_bind.
  unfold fragment_packet, fragment. do 3 f_equal. f_equal. f_equal.
  - f_equal. destruct (Nat.leb_spec count (S i)), (Nat.eqb_spec (S i) count); try done; lia.
  - rewrite !Nat2Z.id. replace (Nat.min (i * n) (length message)) with (i * n)%nat by lia.
    destruct (Nat.le_ge_cases (S i * n) (length message)).
    + f_equal. simpl. lia.
    + rewrite !take_ge by (rewrite length_drop; simpl in *; lia). done.
Qed.

Lemma NextPacket_finished i max :
  (count <= i)%nat ->
  NextPacket (request_at n message f i) max = Done (Error kOutOfRange, request_at n message f i).
Proof using Hn Hlen.
  intros Hi. unfold NextPacket. rewrite request_at_finished.
  by rewrite (proj2 (Nat.leb_le _ _)).
Qed.

Lemma write_all_from fuel k i :
  (i + k = count)%nat -> (k < fuel)%nat ->
  write_all fuel (request_at n message f i) (Z.of_nat n + 1) =
    Done (map (fragment_packet n message 0) (seq i k), kOutOfRange, request_at n message f count).
Proof using Hn Hlen.
  revert k i. induction fuel as [|fuel IH]; intros k i Hi Hk; [lia|]. cbn [write_all].
  destruct k as [|k].
  - rewrite NextPacket_finished by lia. by replace count with i by lia.
  - rewrite NextPacket_fragment by lia. rewrite done_bind. by rewrite (IH k) by lia.
Qed.

Lemma fragments_take i :
  take (i * n) message ++ fragment n message i = take (S i * n) message.
Proof.
  unfold fragment. rewrite Nat.mul_succ_l. by rewrite <- take_take_drop.
Qed.

Lemma take_count i : (count <= i)%nat -> take (i * n) message = message.
Proof using Hn.
  intros Hi. apply take_ge. destruct (Nat.le_gt_cases (length message) (i * n)); [done|].
  exfalso. apply (packet_count_spec n) in H; [lia|done].
Qed.

(** What the packetizer holds after [i] packets of the message. *)
Definition packetizer_at (i : nat) : Packetizer := MakePacketizer (take (i * n) message) false.

Lemma AddPacket_fragment c i :
  0 <= c <= 7 -> (i < count)%nat ->
  AddPacket (packetizer_at i) (fragment_packet n message c i) =
    Done (kOk, MakePacketizer (take (S i * n) message) (S i =? count)%nat).
Proof using Hn.
  intros Hc Hi. destruct (data_header_fields c (i =? 0)%nat (S i =? count)%nat
    (fragment n message i) Hc) as (H1 & H2 & _ & _ & H5).
  unfold AddPacket, fragment_packet. rewrite H1, H2, H5.
  assert (pending_empty (packetizer_at i) = (i =? 0)%nat) as ->.
  { unfold pending_empty, packetizer_at. simpl. rewrite length_take.
    apply packet_count_spec in Hi; [|done].
    destruct (Nat.eqb_spec i 0), (Nat.eqb_spec (Nat.min (i * n) (length message)) 0); try done; nia. }
  destruct (i =? 0)%nat; cbn [andb negb is_message_complete_ packetizer_at pending_payloads_];
    rewrite done_bind, fragments_take; by destruct (S i =? count)%nat.
Qed.

Lemma read_all_from c k i :
  (forall j, 0 <= c j <= 7) -> (i + S k = count)%nat ->
  read_all (map (fun j => fragment_packet n message (c j) j) (seq i (S k))) (packetizer_at i) =
    Done (replicate k (Error kUnavailable) ++ [Ok message], new_packetizer).
Proof using Hn.
  intros Hc. revert i. induction k as [|k IH]; intros i Hi; rewrite <- cons_seq, map_cons,
    read_all_cons, AddPacket_fragment, done_bind by (done || lia).
  - replace (S i =? count)%nat with true by (symmetry; apply Nat.eqb_eq; lia).
    rewrite (take_count (S i)) by lia. done.
  - replace (S i =? count)%nat with false by (symmetry; apply Nat.eqb_neq; lia).
    simpl code_ok. unfold TakeMessage. cbn [is_message_complete_ negb].
    fold (packetizer_at (S i)). by rewrite IH by lia.
Qed.

Lemma count_bound : (count <= length message)%nat.
Proof using Hn.
  destruct (Nat.le_gt_cases count (length message)) as [|H]; [done|].
  apply packet_count_spec in H; [|done]. clear Hlen. nia.
Qed.

Lemma count_pos : message <> [] -> (0 < count)%nat.
Proof using Hn.
  clear Hlen. intros Hm. apply packet_count_spec; [done|]. destruct message; simpl; [done|lia].
Qed.

(** Any packets that differ from the fragments only by their counters. *)
Lemma stamped_fragments qs k i :
  Forall2 (fun p q => exists c, 0 <= c <= 7 /\ SetPacketCounter p c = Done (kOk, q))
    (map (fragment_packet n message 0) (seq i k)) qs ->
  exists c, (forall j, 0 <= c j <= 7) /\
    qs = map (fun j => fragment_packet n message (c j) j) (seq i k).
Proof.
  revert i qs. induction k as [|k IH]; intros i qs H; cbn [seq map] in *.
  - inversion H; subst. exists (fun _ => 0). split; [lia|done].
  - inversion H as [|p q ? qs' (c & Hc & Hq) H']; subst.
    destruct (IH _ _ H') as (cs & Hcs & ->).
    unfold fragment_packet in Hq. rewrite SetPacketCounter_data in Hq by done.
    injection Hq as <-.
    exists (fun j => if (j =? i)%nat then c else cs j). split.
    + intros j. destruct (j =? i)%nat; auto.
    + rewrite Nat.eqb_refl. f_equal. apply map_ext_in. intros j Hj%in_seq.
      destruct (Nat.eqb_spec j i); [lia|done].
Qed.

End Fragments.

(** * Properties *)

(** C27. Fragmentation and reassembly.  For a message of any length from one
    byte to the range of [int] and a packet size of at least two bytes,
    [NextPacket] ends with [kOutOfRange] after ceil(length / (size - 1))
    packets, none longer than the packet size; whatever counters the packets
    are sent with, the packetizer refuses none of them, reports [kUnavailable]
    until the last one, then returns exactly the message and is empty again. *)
Theorem Message_fragments_roundtrip {ct : CharType} message max_packet_size f :
  message <> [] -> Z.of_nat (length message) < 2 ^ 31 -> 2 <= max_packet_size ->
  exists ps r,
    write_all (S (length message)) (new_request message f) max_packet_size
      = Done (ps, kOutOfRange, r) /\
    IsFinished r = true /\
    length ps = packet_count (Z.to_nat max_packet_size - 1) (length message) /\
    Forall (fun p => Z.of_nat (length (GetBytes p)) <= max_packet_size) ps /\
    forall qs,
      Forall2 (fun p q => exists c, 0 <= c <= kMaxPacketCounter /\
                 SetPacketCounter p c = Done (kOk, q)) ps qs ->
      read_all qs new_packetizer =
        Done (replicate (length ps - 1) (Error kUnavailable) ++ [Ok message],
              new_packetizer).
Proof.
  intros Hm Hlen Hmax. unfold kMaxPacketCounter. set (n := (Z.to_nat max_packet_size - 1)%nat).
  assert (0 < n)%nat as Hn by lia.
  replace max_packet_size with (Z.of_nat n + 1) by lia.
  pose proof (count_bound n message Hn). pose proof (count_pos n message Hn Hm) as Hc.
  set (k := packet_count n (length message)) in *.
  exists (map (fragment_packet n message 0) (seq 0 k)), (request_at n message f k).
  split; [exact (write_all_from n message f Hn Hlen (S (length message)) k 0 eq_refl ltac:(lia))|].
  split; [rewrite request_at_finished by done; apply Nat.leb_le; lia|].
  rewrite length_map, length_seq. repeat split.
  - apply Forall_map, Forall_forall. intros i _. unfold fragment_packet, fragment. simpl.
    rewrite length_take. lia.
  - intros qs Hqs. apply (stamped_fragments n message Hn) in Hqs as (c & Hc' & ->).
    replace k with (S (k - 1)) at 1 by lia.
    apply (read_all_from n message Hn c (k - 1) 0 Hc'). lia.
Qed.

#[local] Existing Instance signed_char.

Lemma Message_fragments_roundtrip_witness :
  [1; 2; 3; 4; 5] <> [] /\ 2 <= 3 /\
  exists ps r,
    write_all 6 (new_request [1; 2; 3; 4; 5] 0) 3 = Done (ps, kOutOfRange, r) /\
    IsFinished r = true /\ length ps = packet_count 2 5 /\
    Forall (fun p => Z.of_nat (length (GetBytes p)) <= 3) ps /\
    forall qs,
      Forall2 (fun p q => exists c, 0 <= c <= kMaxPacketCounter /\
                 SetPacketCounter p c = Done (kOk, q)) ps qs ->
      read_all qs new_packetizer =
        Done (replicate (length ps - 1) (Error kUnavailable) ++ [Ok [1; 2; 3; 4; 5]],
              new_packetizer).
Proof.
  split; [done|]. split; [lia|].
  apply (Message_fragments_roundtrip [1; 2; 3; 4; 5] 3 0); [done|simpl; lia|lia].
Defined.

(** A packet size of one byte leaves no room for a payload: every call of
    [NextPacket] returns the same packet, marked first and empty, the request
    never advances, and the packetizer accepts all of them without ever
    completing a message. *)
Theorem NextPacket_header_only_stalls {ct : CharType} message f fuel :
  message <> [] -> Z.of_nat (length message) < 2 ^ 31 ->
  exists p,
    write_all fuel (new_request message f) 1 =
      Done (replicate fuel p, kOk, new_request message f) /\
    IsFirstPacket p = true /\ IsLastPacket p = false /\ GetPayload p = Done [] /\
    read_all (replicate fuel p) new_packetizer =
      Done (replicate fuel (Error kUnavailable), new_packetizer).
Proof.
  intros Hm Hlen. exists (MakePacket [data_header 0 true false]).
  assert (NextPacket (new_request message f) 1 =
    Done (Ok (MakePacket [data_header 0 true false]), new_request message f)) as Hnext.
  { assert (IsFinished (new_request message f) = false) as Hf.
    { unfold IsFinished, new_request. simpl. change (u64 0) with 0. apply Z.leb_gt.
      destruct message; [done|simpl; lia]. }
    unfold NextPacket. rewrite Hf. simpl message_. simpl position_.
    assert (Z.min (1 - Z.of_nat kPacketHeaderLength) (s32 (Z.of_nat (length message)) - 0) = 0) as ->
      by (rewrite s32_id by lia; unfold kPacketHeaderLength; lia).
    change (MakeRequest message (0 + 0) _) with (new_request message f). rewrite Hf.
    change (u64 0) with 0. unfold substr. rewrite (proj2 (Z.leb_le 0 (Z.of_nat _))) by lia.
    change (drop (Z.to_nat 0) message) with message. cbn [andb Z.leb Z.compare].
    rewrite done_bind. by rewrite CreateDataPacket_eq. }
  destruct (data_header_fields 0 true false [] ltac:(lia)) as (Hf1 & Hf2 & _ & _ & Hf5).
  split; [|split; [done|split; [done|split; [done|]]]].
  - induction fuel as [|fuel IH]; [done|]. cbn [write_all]. by rewrite Hnext, done_bind, IH.
  - induction fuel as [|fuel IH]; [done|]. cbn [replicate]. rewrite read_all_cons.
    assert (AddPacket new_packetizer (MakePacket [data_header 0 true false])
      = Done (kOk, new_packetizer)) as -> by (unfold AddPacket; by rewrite Hf1, Hf2, Hf5).
    rewrite done_bind. change (TakeMessage new_packetizer) with (@Error (list Z) kUnavailable, new_packetizer).
    cbn iota. by rewrite IH.
Qed.

Lemma NextPacket_header_only_stalls_witness :
  [1] <> [] /\
  exists p,
    write_all 20 (new_request [1] 0) 1 = Done (replicate 20 p, kOk, new_request [1] 0) /\
    IsFirstPacket p = true /\ IsLastPacket p = false /\ GetPayload p = Done [] /\
    read_all (replicate 20 p) new_packetizer =
      Done (replicate 20 (Error kUnavailable), new_packetizer).
Proof. split; [done|]. apply (NextPacket_header_only_stalls [1] 0 20); [done|simpl; lia]. Defined.
