(* ===== verification/WeaveSocket.v ===== *)
(** Model of src/internal/weave/base_socket.h and base_socket.cc: the sending
    queues, the connection state and the reception of packets that the client
    and the server socket share.

    The socket posts its work to an executor with one thread, here the list of
    the jobs not yet run, in order.  The callbacks of the connection and the
    public methods run on other threads; a step of the model is one such call or
    one job, and steps of the two kinds interleave freely.  What the socket does
    to the outside (packets given to [Connection::Transmit], the callbacks of
    the user, the statuses set on the futures of [Write]) is recorded in
    [output], the user's callbacks being assumed not to call back into the
    socket.  The write queues are [std::deque]s with pointers into them; a deque
    keeps the addresses of its elements, so a pointer to a removed element is
    dangling and reading through it a [Fault].  What depends on the kind of
    socket is a value of type [X] with the class [Overrides]. *)

From Stdlib Require Import ZArith Lia.
From stdpp Require Import base list numbers.
From S2P Require Import Prelude.
From S2P Require Import CppBase.
From S2P Require Import WeavePacket.
From S2P Require Import WeavePacketizer.

Import Packet PacketSequenceNumberGenerator Packetizer MessageWriteRequest ControlPacketWriteRequest.
Open Scope Z_scope.
Open Scope fp_scope.

(** * Deques with stable addresses *)

Record deque (A : Type) : Type := MakeDeque { base : nat; items : list A }.
Arguments MakeDeque {A} base items.
Arguments base {A} d.
Arguments items {A} d.

Definition empty_deque {A} : deque A := MakeDeque 0 [].
Definition deque_empty {A} (d : deque A) : bool := (length (items d) =? 0)%nat.
Definition push_back {A} (d : deque A) (x : A) : deque A :=
  MakeDeque (base d) (items d ++ [x]).

(** [pop_front] on an empty deque is undefined. *)
Definition pop_front {A} (d : deque A) : outcome (deque A) :=
  match items d with [] => Fault | _ :: l => Done (MakeDeque (S (base d)) l) end.
Definition clear {A} (d : deque A) : deque A :=
  MakeDeque (base d + length (items d)) [].

(** [&d.front()], with [None] for an empty deque. *)
Definition front_address {A} (d : deque A) : option nat :=
  if deque_empty d then None else Some (base d).

Definition deref {A} (d : deque A) (a : nat) : outcome A :=
  if (a <? base d)%nat then Fault
  else match items d !! (a - base d)%nat with Some x => Done x | None => Fault end.
Definition assign {A} (d : deque A) (a : nat) (x : A) : deque A :=
  MakeDeque (base d) (<[(a - base d)%nat := x]> (items d)).

(** * State *)

Inductive SocketConnectionState : Type := kDisconnected | kDisconnecting | kConnected.
#[export] Instance SocketConnectionState_eq_dec : EqDecision SocketConnectionState.
Proof. solve_decision. Defined.

(** The closures given to [RunOnSocketThread]. *)
Inductive Job : Type :=
| OnWriteRequestWriteComplete_job (status : StatusCode)
| Disconnect_job
| ResetDisconnectQuietly_job
| TryWriteMessage_job (request : MessageWriteRequest)
| TryWriteNextControl_job (request : ControlPacketWriteRequest)
| TryWriteOnConnected_job (new_max_packet_size : Z).

Inductive Output : Type :=
| Transmit (packet : list Z)
| on_connected_cb
| on_disconnected_cb
| on_receive_cb (message : list Z)
| on_error_cb (status : StatusCode)
| SetWriteStatus (future : nat) (status : StatusCode).

(** [connection_max] is what [connection_.GetMaxPacketSize()] returns,
    [derived] the members of the derived class and [next_future] the number of
    the next future. *)
Record BaseSocket (X : Type) : Type := MakeSocket
  { control_request_queue_ : deque ControlPacketWriteRequest;
    message_request_queue_ : deque MessageWriteRequest;
    current_control_ : option nat;
    current_message_ : option nat;
    state_ : SocketConnectionState;
    max_packet_size_ : Z;
    packetizer_ : Packetizer;
    packet_counter_generator_ : Generator;
    remote_packet_counter_generator_ : Generator;
    executor_ : list Job;
    connection_max : Z;
    derived : X;
    next_future : nat;
    output : list Output }.
Arguments MakeSocket {X}.
Arguments control_request_queue_ {X} _.
Arguments message_request_queue_ {X} _.
Arguments current_control_ {X} _.
Arguments current_message_ {X} _.
Arguments state_ {X} _.
Arguments max_packet_size_ {X} _.
Arguments packetizer_ {X} _.
Arguments packet_counter_generator_ {X} _.
Arguments remote_packet_counter_generator_ {X} _.
Arguments executor_ {X} _.
Arguments connection_max {X} _.
Arguments derived {X} _.
Arguments next_future {X} _.
Arguments output {X} _.

(** The constructor: [connection_.Initialize] registers the callbacks
    [on_transmit], [on_remote_transmit] and [on_disconnected] below. *)
Definition new_socket {X} (connection_max : Z) (x : X) : BaseSocket X :=
  MakeSocket empty_deque empty_deque None None kDisconnected connection_max
    new_packetizer new_generator new_generator [] connection_max x 0 [].

Section Setters.
Context {X : Type}.
Implicit Types s : BaseSocket X.

Definition set_control_request_queue s (v : deque ControlPacketWriteRequest) : BaseSocket X :=
  MakeSocket v (message_request_queue_ s) (current_control_ s)
    (current_message_ s) (state_ s) (max_packet_size_ s) (packetizer_ s)
    (packet_counter_generator_ s) (remote_packet_counter_generator_ s)
    (executor_ s) (connection_max s) (derived s) (next_future s) (output
    s).
Definition set_message_request_queue s (v : deque MessageWriteRequest) : BaseSocket X :=
  MakeSocket (control_request_queue_ s) v (current_control_ s)
    (current_message_ s) (state_ s) (max_packet_size_ s) (packetizer_ s)
    (packet_counter_generator_ s) (remote_packet_counter_generator_ s)
    (executor_ s) (connection_max s) (derived s) (next_future s) (output
    s).
Definition set_current_control s (v : option nat) : BaseSocket X :=
  MakeSocket (control_request_queue_ s) (message_request_queue_ s) v
    (current_message_ s) (state_ s) (max_packet_size_ s) (packetizer_ s)
    (packet_counter_generator_ s) (remote_packet_counter_generator_ s)
    (executor_ s) (connection_max s) (derived s) (next_future s) (output
    s).
Definition set_current_message s (v : option nat) : BaseSocket X :=
  MakeSocket (control_request_queue_ s) (message_request_queue_ s)
    (current_control_ s) v (state_ s) (max_packet_size_ s) (packetizer_ s)
    (packet_counter_generator_ s) (remote_packet_counter_generator_ s)
    (executor_ s) (connection_max s) (derived s) (next_future s) (output
    s).
Definition set_state s (v : SocketConnectionState) : BaseSocket X :=
  MakeSocket (control_request_queue_ s) (message_request_queue_ s)
    (current_control_ s) (current_message_ s) v (max_packet_size_ s)
    (packetizer_ s) (packet_counter_generator_ s)
    (remote_packet_counter_generator_ s) (executor_ s) (connection_max s)
    (derived s) (next_future s) (output s).
Definition set_max_packet_size s (v : Z) : BaseSocket X :=
  MakeSocket (control_request_queue_ s) (message_request_queue_ s)
    (current_control_ s) (current_message_ s) (state_ s) v (packetizer_ s)
    (packet_counter_generator_ s) (remote_packet_counter_generator_ s)
    (executor_ s) (connection_max s) (derived s) (next_future s) (output
    s).
Definition set_packetizer s (v : Packetizer) : BaseSocket X :=
  MakeSocket (control_request_queue_ s) (message_request_queue_ s)
    (current_control_ s) (current_message_ s) (state_ s) (max_packet_size_
    s) v (packet_counter_generator_ s) (remote_packet_counter_generator_
    s) (executor_ s) (connection_max s) (derived s) (next_future s)
    (output s).
Definition set_packet_counter_generator s (v : Generator) : BaseSocket X :=
  MakeSocket (control_request_queue_ s) (message_request_queue_ s)
    (current_control_ s) (current_message_ s) (state_ s) (max_packet_size_
    s) (packetizer_ s) v (remote_packet_counter_generator_ s) (executor_
    s) (connection_max s) (derived s) (next_future s) (output s).
Definition set_remote_packet_counter_generator s (v : Generator) : BaseSocket X :=
  MakeSocket (control_request_queue_ s) (message_request_queue_ s)
    (current_control_ s) (current_message_ s) (state_ s) (max_packet_size_
    s) (packetizer_ s) (packet_counter_generator_ s) v (executor_ s)
    (connection_max s) (derived s) (next_future s) (output s).
Definition set_executor s (v : list Job) : BaseSocket X :=
  MakeSocket (control_request_queue_ s) (message_request_queue_ s)
    (current_control_ s) (current_message_ s) (state_ s) (max_packet_size_
    s) (packetizer_ s) (packet_counter_generator_ s)
    (remote_packet_counter_generator_ s) v (connection_max s) (derived s)
    (next_future s) (output s).
Definition set_derived s (v : X) : BaseSocket X :=
  MakeSocket (control_request_queue_ s) (message_request_queue_ s)
    (current_control_ s) (current_message_ s) (state_ s) (max_packet_size_
    s) (packetizer_ s) (packet_counter_generator_ s)
    (remote_packet_counter_generator_ s) (executor_ s) (connection_max s)
    v (next_future s) (output s).
Definition set_next_future s (v : nat) : BaseSocket X :=
  MakeSocket (control_request_queue_ s) (message_request_queue_ s)
    (current_control_ s) (current_message_ s) (state_ s) (max_packet_size_
    s) (packetizer_ s) (packet_counter_generator_ s)
    (remote_packet_counter_generator_ s) (executor_ s) (connection_max s)
    (derived s) v (output s).
Definition set_output s (v : list Output) : BaseSocket X :=
  MakeSocket (control_request_queue_ s) (message_request_queue_ s)
    (current_control_ s) (current_message_ s) (state_ s) (max_packet_size_
    s) (packetizer_ s) (packet_counter_generator_ s)
    (remote_packet_counter_generator_ s) (executor_ s) (connection_max s)
    (derived s) (next_future s) v.

(** [RunOnSocketThread] *)
Definition RunOnSocketThread (j : Job) s : BaseSocket X :=
  set_executor s (executor_ s ++ [j]).

Definition emit (o : Output) s : BaseSocket X := set_output s (output s ++ [o]).

End Setters.

(** The virtual method the base class calls from its own jobs:
    [DisconnectQuietly] of both derived classes calls the one of the base class
    and then assigns their own state. *)
Class Overrides (X : Type) : Type := { disconnected_state : X -> X }.

Section BaseSocket.
Context {ct : CharType} {X : Type} `{Overrides X}.
Implicit Types s : BaseSocket X.

(** * Writing *)

Definition WritePacket (packet : StatusOr Packet) s : outcome (BaseSocket X) :=
  match packet with
  | Error _ => Done s
  | Ok packet =>
    let '(counter, g) := Next (packet_counter_generator_ s) in
    let s := set_packet_counter_generator s g in
    let! '(status, packet) := SetPacketCounter packet counter in
    if code_ok status then Done (emit (Transmit (GetBytes packet)) s) else Crash
  end.

Definition TryWriteNextControl s : outcome (BaseSocket X) :=
  let s := match current_control_ s with
           | None => set_current_control s (front_address (control_request_queue_ s))
           | Some _ => s
           end in
  match current_control_ s with
  | None => Done s
  | Some a =>
    let s := set_current_message s None in
    let s := set_message_request_queue s (clear (message_request_queue_ s)) in
    let! r := deref (control_request_queue_ s) a in
    let '(packet, r) := ControlPacketWriteRequest_NextPacket r in
    WritePacket packet
      (set_control_request_queue s (assign (control_request_queue_ s) a r))
  end.

Definition IsConnected s : bool := bool_decide (state_ s = kConnected).

Definition TryWriteNextMessage s : outcome (BaseSocket X) :=
  let control_queue_empty := deque_empty (control_request_queue_ s) in
  if bool_decide (is_Some (current_control_ s)) || negb control_queue_empty
  then TryWriteNextControl s
  else
    let connected := IsConnected s in
    let s := match current_message_ s with
             | None => set_current_message s (front_address (message_request_queue_ s))
             | Some _ => s
             end in
    match current_message_ s with
    | None => Done s
    | Some a =>
      let! r := deref (message_request_queue_ s) a in
      if IsFinished r || negb connected then Done s
      else
        let! '(packet, r) := NextPacket r (max_packet_size_ s) in
        WritePacket packet
          (set_message_request_queue s (assign (message_request_queue_ s) a r))
    end.

Definition WriteControlPacket (packet : Packet) s : BaseSocket X :=
  RunOnSocketThread (TryWriteNextControl_job (new_control_request packet)) s.

(** The future is returned to the caller. *)
Definition Write (message : list Z) s : nat * BaseSocket X :=
  let ret := next_future s in
  let s := set_next_future s (S ret) in
  (ret, RunOnSocketThread (TryWriteMessage_job (new_request message ret)) s).

(** * Disconnection *)

Definition DisconnectQuietly s : BaseSocket X :=
  let s := RunOnSocketThread ResetDisconnectQuietly_job s in
  set_derived s (disconnected_state (derived s)).

Definition Disconnect s : BaseSocket X := RunOnSocketThread Disconnect_job s.

Definition DisconnectInternal (status : StatusCode) s : BaseSocket X :=
  Disconnect (emit (on_error_cb status) s).

Definition OnConnected (new_max_packet_size : Z) s : BaseSocket X :=
  RunOnSocketThread (TryWriteOnConnected_job new_max_packet_size) s.

(** * The jobs *)

(** The first part of the job of [OnWriteRequestWriteComplete], under the
    mutex. *)
Definition finish_write (status : StatusCode) s : outcome (BaseSocket X) :=
  match current_control_ s with
  | Some _ =>
    let s := set_current_control s None in
    let! q := pop_front (control_request_queue_ s) in
    Done (set_control_request_queue s q)
  | None =>
    match current_message_ s with
    | None => Done s
    | Some a =>
      let! r := deref (message_request_queue_ s) a in
      if IsFinished r then
        let s := emit (SetWriteStatus (write_request_status_ r) status) s in
        if negb (deque_empty (message_request_queue_ s)) &&
           bool_decide (front_address (message_request_queue_ s) = Some a)
        then
          let! q := pop_front (message_request_queue_ s) in
          Done (set_current_message (set_message_request_queue s q) None)
        else Done s
      else Done s
    end
  end.

Definition run_WriteComplete (status : StatusCode) s : outcome (BaseSocket X) :=
  let! s := finish_write status s in
  TryWriteNextMessage s.

Definition run_Disconnect s : outcome (BaseSocket X) :=
  if bool_decide (state_ s = kDisconnecting) || bool_decide (state_ s = kDisconnected)
  then Done s
  else
    let! error := CreateErrorPacket in
    let s := WriteControlPacket error s in
    let s := set_current_message s None in
    let s := set_message_request_queue s (clear (message_request_queue_ s)) in
    let s := set_state s kDisconnecting in
    Done (DisconnectQuietly s).

Definition run_ResetDisconnectQuietly s : BaseSocket X :=
  let was_connected := bool_decide (state_ s = kDisconnecting) in
  let s := if was_connected then emit on_disconnected_cb s else s in
  let s := set_packetizer s (Packetizer_Reset (packetizer_ s)) in
  let s := set_packet_counter_generator s
             (Generator_Reset (packet_counter_generator_ s)) in
  let s := set_remote_packet_counter_generator s
             (Generator_Reset (remote_packet_counter_generator_ s)) in
  let s := set_message_request_queue s (clear (message_request_queue_ s)) in
  let s := set_control_request_queue s (clear (control_request_queue_ s)) in
  let s := set_current_control s None in
  let s := set_current_message s None in
  set_state s kDisconnected.

Definition run_TryWriteMessage (request : MessageWriteRequest) s
  : outcome (BaseSocket X) :=
  TryWriteNextMessage
    (set_message_request_queue s (push_back (message_request_queue_ s) request)).

Definition run_TryWriteNextControl (request : ControlPacketWriteRequest) s
  : outcome (BaseSocket X) :=
  TryWriteNextControl
    (set_control_request_queue s (push_back (control_request_queue_ s) request)).

Definition run_OnConnected (new_max_packet_size : Z) s : outcome (BaseSocket X) :=
  let s := set_max_packet_size s new_max_packet_size in
  let was_connected := IsConnected s in
  let s := if was_connected then s
           else emit on_connected_cb (set_state s kConnected) in
  TryWriteNextMessage s.

Definition run_job (j : Job) s : outcome (BaseSocket X) :=
  match j with
  | OnWriteRequestWriteComplete_job status => run_WriteComplete status s
  | Disconnect_job => run_Disconnect s
  | ResetDisconnectQuietly_job => Done (run_ResetDisconnectQuietly s)
  | TryWriteMessage_job request => run_TryWriteMessage request s
  | TryWriteNextControl_job request => run_TryWriteNextControl request s
  | TryWriteOnConnected_job n => run_OnConnected n s
  end.

(** The executor takes its oldest job. *)
Definition run_next s : outcome (BaseSocket X) :=
  match executor_ s with
  | [] => Done s
  | j :: js => run_job j (set_executor s js)
  end.

(** * Reception *)

Definition IsRemotePacketCounterExpected (counter : Z) s : bool * BaseSocket X :=
  let '(expectedPacketCounter, g) := Next (remote_packet_counter_generator_ s) in
  let s := set_remote_packet_counter_generator s g in
  if counter =? expectedPacketCounter then (true, s)
  else (false, emit (on_error_cb kDataLoss) s).

Definition OnReceiveDataPacket (packet : Packet) s : outcome (BaseSocket X) :=
  let! '(packet_status, z) := AddPacket (packetizer_ s) packet in
  let s := set_packetizer s z in
  if negb (code_ok packet_status) then Done (DisconnectInternal packet_status s)
  else
    let '(message, z) := TakeMessage (packetizer_ s) in
    let s := set_packetizer s z in
    match message with
    | Error status => Done (DisconnectInternal status s)
    | Ok message => Done (emit (on_receive_cb message) s)
    end.

(** [OnReceiveControlPacket] is the pure virtual method of the class. *)
Definition on_remote_transmit
    (OnReceiveControlPacket : Packet -> BaseSocket X -> outcome (BaseSocket X))
    (message : list Z) s : outcome (BaseSocket X) :=
  if (length message =? 0)%nat then Done (DisconnectInternal kInvalidArgument s)
  else
    match FromBytes message with
    | Error status => Done (DisconnectInternal status s)
    | Ok packet =>
      let '(isRemotePacketCounterExpected, s) :=
        IsRemotePacketCounterExpected (GetPacketCounter packet) s in
      if IsControlPacket packet then
        let s := if isRemotePacketCounterExpected then s
                 else set_remote_packet_counter_generator s
                        (snd (Next (remote_packet_counter_generator_ s))) in
        OnReceiveControlPacket packet s
      else if isRemotePacketCounterExpected then OnReceiveDataPacket packet s
      else Done (Disconnect s)
    end.

Definition on_transmit (status : StatusCode) s : BaseSocket X :=
  let s := RunOnSocketThread (OnWriteRequestWriteComplete_job status) s in
  if code_ok status then s else DisconnectInternal status s.

Definition on_disconnected s : BaseSocket X := DisconnectQuietly s.

End BaseSocket.

(** * Steps of a socket *)

(** The methods a derived class implements. *)
Class SocketClass (X : Type) `{Overrides X} : Type :=
  { Connect : BaseSocket X -> outcome (BaseSocket X);
    OnReceiveControlPacket : Packet -> BaseSocket X -> outcome (BaseSocket X) }.

(** The calls from outside, by the user and by the connection. *)
Inductive Call : Type :=
| call_Connect
| call_Disconnect
| call_Write (message : list Z)
| call_on_transmit (status : StatusCode)
| call_on_remote_transmit (message : list Z)
| call_on_disconnected.

Definition handle_call {ct : CharType} {X} `{SocketClass X} (c : Call) (s : BaseSocket X)
  : outcome (BaseSocket X) :=
  match c with
  | call_Connect => Connect s
  | call_Disconnect => Done (Disconnect s)
  | call_Write message => Done (snd (Write message s))
  | call_on_transmit status => Done (on_transmit status s)
  | call_on_remote_transmit message =>
    on_remote_transmit OnReceiveControlPacket message s
  | call_on_disconnected => Done (on_disconnected s)
  end.
