(* ===== verification/WeaveSockets.v ===== *)
(** Model of src/internal/weave/sockets/: the client and the server socket, the
    two sides of the handshake that settles the protocol version and the packet
    size.  [GetConnection()] is the connection of the base class; what
    [initial_data_provider_->Provide()] returns is a member of the client. *)

From Stdlib Require Import ZArith Lia.
From stdpp Require Import base list numbers.
From S2P Require Import Prelude.
From S2P Require Import CppBase.
From S2P Require Import WeavePacket.
From S2P Require Import WeavePacketizer.
From S2P Require Import WeaveSocket.

Import Packet PacketSequenceNumberGenerator Packetizer MessageWriteRequest ControlPacketWriteRequest.
Open Scope Z_scope.
Open Scope fp_scope.

(** Two [char]s of a payload as one number, [(data[i] << 8) | data[i + 1]]. *)
Definition two_chars {ct : CharType} (payload : list Z) (i : nat) : outcome Z :=
  let! hi := load payload i in
  let! lo := load payload (i + 1) in
  let! high := char_shift hi 8 in
  Done (Z.lor high (char_int lo)).

(** * Client *)

Module WeaveClient.

Definition kProtocolVersion : Z := 1.
Definition kConnectionConfirmPacketMinLength : nat := 4.

Inductive State : Type :=
| kStateDisconnected
| kStateClientConnectionRequest
| kStateServerConfirm
| kStateHandshakeCompleted.
#[export] Instance State_eq_dec : EqDecision State.
Proof. solve_decision. Defined.

Record ClientSocket : Type := MakeClient
  { client_state : State; initial_data : list Z }.

Definition set_client_state (v : State) (x : ClientSocket) : ClientSocket :=
  MakeClient v (initial_data x).

#[export] Instance client_overrides : Overrides ClientSocket :=
  { disconnected_state := set_client_state kStateDisconnected }.

Definition new_client (connection_max : Z) (data : list Z) : BaseSocket ClientSocket :=
  new_socket connection_max (MakeClient kStateDisconnected data).

Implicit Types s : BaseSocket ClientSocket.

Definition set_state_ (v : State) s : BaseSocket ClientSocket :=
  set_derived s (set_client_state v (derived s)).

Definition ClientSocket_Connect {ct : CharType} s : outcome (BaseSocket ClientSocket) :=
  if negb (bool_decide (client_state (derived s) = kStateDisconnected)) then Done s
  else
    let s := set_state_ kStateClientConnectionRequest s in
    let! packet := CreateConnectionRequestPacket kProtocolVersion kProtocolVersion
                     (s16 (connection_max s)) (initial_data (derived s)) in
    let! packet := value packet in
    let s := WriteControlPacket packet s in
    Done (set_state_ kStateServerConfirm s).

Definition ClientSocket_OnReceiveControlPacket {ct : CharType} (packet : Packet) s
  : outcome (BaseSocket ClientSocket) :=
  if GetControlCommandNumber packet =? kControlError then Done (DisconnectQuietly s)
  else if negb (bool_decide (client_state (derived s) = kStateServerConfirm))
  then Done (emit (on_error_cb kInternal) s)
  else if negb (GetControlCommandNumber packet =? kControlConnectionConfirm)
  then Done (DisconnectInternal kInternal s)
  else
    let! payload := GetPayload packet in
    if (length payload <? kConnectionConfirmPacketMinLength)%nat
    then Done (DisconnectInternal kInvalidArgument s)
    else
      let! v := two_chars payload 0 in
      let protocol_version := Z.land v (s16 65535) in
      if negb (protocol_version =? kProtocolVersion)
      then Done (DisconnectInternal kInternal s)
      else
        let! m := two_chars payload 2 in
        let max_packet_size := Z.land m (s16 65535) in
        if connection_max s <? max_packet_size
        then Done (DisconnectInternal kInternal s)
        else
          let s := set_state_ kStateHandshakeCompleted s in
          let s := OnConnected max_packet_size s in
          if (kConnectionConfirmPacketMinLength <? length payload)%nat then
            let! remaining_data :=
              substr payload (Z.of_nat kConnectionConfirmPacketMinLength)
                     (Z.of_nat (length payload)) in
            Done (emit (on_receive_cb remaining_data) s)
          else Done s.

#[export] Instance client_class {ct : CharType} : SocketClass ClientSocket :=
  { Connect := ClientSocket_Connect;
    OnReceiveControlPacket := ClientSocket_OnReceiveControlPacket }.

End WeaveClient.

(** * Server

    Two log messages of the server name the type of the packet.  They are evaluated
    unless the application has raised the log level above errors. *)

Module WeaveServer.

Definition kMinimumConnectionRequestLength : nat := 6.
Definition kServerProtocolVersion : Z := 1.

Inductive ServerState : Type :=
| kServerDisconnected
| kClientConnectionRequest
| kServerConfirm
| kHandshakeCompleted.
#[export] Instance ServerState_eq_dec : EqDecision ServerState.
Proof. solve_decision. Defined.

(** [ServerSocket] has a [max_packet_size_] of its own. *)
Record ServerSocket : Type := MakeServer
  { server_state : ServerState; server_max_packet_size : Z }.

Definition set_server_state (v : ServerState) (x : ServerSocket) : ServerSocket :=
  MakeServer v (server_max_packet_size x).

#[export] Instance server_overrides : Overrides ServerSocket :=
  { disconnected_state := set_server_state kServerDisconnected }.

Definition new_server (connection_max : Z) : BaseSocket ServerSocket :=
  new_socket connection_max (MakeServer kClientConnectionRequest 0).

Implicit Types s : BaseSocket ServerSocket.

Definition set_server_state_ (v : ServerState) s : BaseSocket ServerSocket :=
  set_derived s (set_server_state v (derived s)).

Definition ExtractMinProtocolVersionFromConnRequest {ct : CharType} (packet_bytes : list Z) : outcome Z :=
  let! v := two_chars packet_bytes 0 in Done (s16 (Z.land v 65535)).

Definition ExtractMaxProtocolVersionFromConnRequest {ct : CharType} (packet_bytes : list Z) : outcome Z :=
  let! v := two_chars packet_bytes 2 in Done (s16 (Z.land v 65535)).

Definition ExtractMaxPacketSizeFromConnRequest {ct : CharType} (packet_bytes : list Z) : outcome Z :=
  let! v := two_chars packet_bytes 4 in Done (u16 (Z.land v 65535)).

Definition ServerSocket_Connect s : outcome (BaseSocket ServerSocket) := Done s.

Definition WriteConnectionConfirm {ct : CharType} s : outcome (BaseSocket ServerSocket) :=
  let s := set_server_state_ kServerConfirm s in
  let! packet := CreateConnectionConfirmPacket kServerProtocolVersion
                   (s16 (server_max_packet_size (derived s))) [] in
  match packet with
  | Error status => Done (DisconnectInternal status s)
  | Ok packet =>
    let s := WriteControlPacket packet s in
    let s := set_server_state_ kHandshakeCompleted s in
    Done (OnConnected (server_max_packet_size (derived s)) s)
  end.

Definition ServerSocket_OnReceiveControlPacket {ct : CharType} (packet : Packet) s
  : outcome (BaseSocket ServerSocket) :=
  if GetControlCommandNumber packet =? kControlError then Done (DisconnectQuietly s)
  else if negb (bool_decide (server_state (derived s) = kClientConnectionRequest))
  then
    let! _ := ControlPacketTypeToString (GetControlCommandNumber packet) in
    Done (emit (on_error_cb kInvalidArgument) s)
  else if negb (GetControlCommandNumber packet =? kControlConnectionRequest)
  then
    let! _ := ControlPacketTypeToString (GetControlCommandNumber packet) in
    Done (DisconnectInternal kInvalidArgument s)
  else
    let! packet_payload := GetPayload packet in
    if (length packet_payload <? kMinimumConnectionRequestLength)%nat
    then Done (emit (on_error_cb kInvalidArgument) s)
    else
      let! min_protocol_version :=
        ExtractMinProtocolVersionFromConnRequest packet_payload in
      let! max_protocol_version :=
        ExtractMaxProtocolVersionFromConnRequest packet_payload in
      if (kServerProtocolVersion <? min_protocol_version) ||
         (max_protocol_version <? kServerProtocolVersion)
      then Done (DisconnectInternal kInvalidArgument s)
      else
        let! client_max_packet_size :=
          ExtractMaxPacketSizeFromConnRequest packet_payload in
        let s :=
          set_derived s (MakeServer (server_state (derived s))
            (if client_max_packet_size =? 0 then connection_max s
             else Z.min (connection_max s) client_max_packet_size)) in
        let! s :=
          if (kMinimumConnectionRequestLength <? length packet_payload)%nat then
            let! remaining_data :=
              substr packet_payload (Z.of_nat kMinimumConnectionRequestLength)
                     (Z.of_nat (length packet_payload)) in
            Done (emit (on_receive_cb remaining_data) s)
          else Done s in
        WriteConnectionConfirm s.

#[export] Instance server_class {ct : CharType} : SocketClass ServerSocket :=
  { Connect := ServerSocket_Connect;
    OnReceiveControlPacket := ServerSocket_OnReceiveControlPacket }.

End WeaveServer.
