(* ===== verification/WeaveSocketSafety.v ===== *)
(** The invariant of a Weave socket under every interleaving of calls and jobs:
    no pointer into the queues dangles, no [CHECK] fails and no exception is
    thrown, the counters keep to three bits, a disconnection under way has its
    reset scheduled, and the user's callbacks for connection and disconnection
    alternate.  The one undefined behaviour is the server's, when it logs the name of an
    unknown control command. *)

From Stdlib Require Import ZArith Lia.
From stdpp Require Import base list numbers.
From S2P Require Import Prelude.
From S2P Require Import CppBase.
From S2P Require Import WeavePacket.
From S2P Require Import WeavePacketizer.
From S2P Require Import WeaveSocket.
From S2P Require Import WeaveSockets.

Import Packet PacketSequenceNumberGenerator Packetizer MessageWriteRequest ControlPacketWriteRequest.
Open Scope Z_scope.
Open Scope fp_scope.

(** * The invariant *)

(** A pointer into a deque is null or the address of its first element. *)
Definition pointer_ok {A} (d : deque A) (p : option nat) : Prop :=
  p = None \/ (p <> None /\ p = front_address d).

Definition control_ok (r : ControlPacketWriteRequest) : Prop :=
  bytes_ (control_packet_ r) <> [].

Definition write_request_ok (r : MessageWriteRequest) : Prop :=
  0 <= position_ r <= Z.of_nat (length (message_ r)) /\
  Z.of_nat (length (message_ r)) < 2 ^ 31.

Definition job_ok (j : Job) : Prop :=
  match j with
  | TryWriteMessage_job r => write_request_ok r
  | TryWriteNextControl_job r => control_ok r
  | _ => True
  end.

Definition counter_ok (g : Generator) : Prop := 0 <= packet_counter_ g <= 7.

(** The callbacks of connection and disconnection in order: [None] when a
    disconnection is reported that no connection precedes. *)
Fixpoint lifecycle (up : bool) (l : list Output) : option bool :=
  match l with
  | [] => Some up
  | on_connected_cb :: l => lifecycle true l
  | on_disconnected_cb :: l => if up then lifecycle false l else None
  | _ :: l => lifecycle up l
  end.

Definition lifecycle_ok (st : SocketConnectionState) (l : list Output) : Prop :=
  exists up, lifecycle false l = Some up /\ (st <> kDisconnected -> up = true).

(** What a derived class keeps true of its own members. *)
Class Derived (X : Type) `{Overrides X} : Type :=
  { derived_ok : X -> Prop;
    disconnected_ok : forall x, derived_ok x -> derived_ok (disconnected_state x) }.

Record core {X} `{Derived X} (s : BaseSocket X) : Prop := MakeCore
  { core_control : pointer_ok (control_request_queue_ s) (current_control_ s);
    core_message : pointer_ok (message_request_queue_ s) (current_message_ s);
    core_controls : Forall control_ok (items (control_request_queue_ s));
    core_messages : Forall write_request_ok (items (message_request_queue_ s));
    core_jobs : Forall job_ok (executor_ s);
    core_counter : counter_ok (packet_counter_generator_ s);
    core_remote : counter_ok (remote_packet_counter_generator_ s);
    core_lifecycle : lifecycle_ok (state_ s) (output s);
    core_derived : derived_ok (derived s) }.

(** While the socket is disconnecting its reset is scheduled. *)
Definition reset_pending {X} (s : BaseSocket X) : Prop :=
  state_ s = kDisconnecting -> ResetDisconnectQuietly_job ∈ executor_ s.

Definition socket_inv {X} `{Derived X} (s : BaseSocket X) : Prop := core s /\ reset_pending s.

(** The call returns, in a state that satisfies [P]. *)
Definition returns_with {A} (m : outcome A) (P : A -> Prop) : Prop :=
  match m with Done a => P a | _ => False end.

(** The same, unless [undefined] holds, where the behaviour may be undefined. *)
Definition returns_unless {A} (undefined : Prop) (m : outcome A) (P : A -> Prop) : Prop :=
  match m with Done a => P a | Fault => undefined | Crash => False end.

(** Calls the user can make: a message has a length in the range of [int]. *)
Definition call_ok (c : Call) : Prop :=
  match c with
  | call_Write m => Z.of_nat (length m) < 2 ^ 31
  | _ => True
  end.

(** States reached by any interleaving of calls and of jobs. *)
Inductive socket_reachable {ct : CharType} {X} `{SocketClass X} (s0 : BaseSocket X) : BaseSocket X -> Prop :=
| reachable_start : socket_reachable s0 s0
| reachable_call s c s' :
    socket_reachable s0 s -> call_ok c -> handle_call c s = Done s' -> socket_reachable s0 s'
| reachable_job s s' :
    socket_reachable s0 s -> executor_ s <> [] -> run_next s = Done s' -> socket_reachable s0 s'.

(** * Lemmas *)

Lemma returns_mono {A} (m : outcome A) (P Q : A -> Prop) :
  returns_with m P -> (forall a, P a -> Q a) -> returns_with m Q.
Proof. destruct m; simpl; auto. Qed.

Lemma returns_bind {A B} (m : outcome A) (f : A -> outcome B) P Q :
  returns_with m P -> (forall a, P a -> returns_with (f a) Q) -> returns_with (mbind f m) Q.
Proof. destruct m; simpl; auto; done. Qed.

Lemma unless_returns {A} (U : Prop) (m : outcome A) P : returns_with m P -> returns_unless U m P.
Proof. by destruct m. Qed.

Lemma returns_done {A} (m : outcome A) P : returns_with m P <-> exists a, m = Done a /\ P a.
Proof.
  split; [|by intros (? & -> & ?)]. destruct m; simpl; [|done|done]. eauto.
Qed.

Lemma lifecycle_app up l l' :
  lifecycle up (l ++ l') = match lifecycle up l with Some u => lifecycle u l' | None => None end.
Proof.
  revert up. induction l as [|o l IH]; intros up; [done|].
  destruct o; simpl; auto. destruct up; auto.
Qed.

Lemma front_address_pointer {A} (d : deque A) : pointer_ok d (front_address d).
Proof.
  unfold pointer_ok, front_address. destruct (deque_empty d); [by left|by right].
Qed.

Lemma pointer_ok_deref {A} (P : A -> Prop) d a :
  pointer_ok d (Some a) -> Forall P (items d) ->
  exists x l, items d = x :: l /\ a = base d /\ deref d a = Done x /\ P x.
Proof.
  intros [?|[_ Ha]] HP; [done|]. unfold front_address, deque_empty in Ha.
  destruct (items d) as [|x l] eqn:Hi; [done|]. injection Ha as ->.
  exists x, l. inversion HP; subst. split_and!; try done.
  unfold deref. rewrite Nat.ltb_irrefl, Hi, Nat.sub_diag. done.
Qed.

Lemma pointer_ok_push {A} (d : deque A) x p : pointer_ok d p -> pointer_ok (push_back d x) p.
Proof.
  unfold pointer_ok, front_address, deque_empty, push_back. simpl. rewrite length_app. simpl.
  intros [->|[Hp ->]]; [by left|]. right. split; [done|].
  destruct (items d); simpl in *; done.
Qed.

Lemma pointer_ok_assign {A} (d : deque A) a x p : pointer_ok d p -> pointer_ok (assign d a x) p.
Proof.
  unfold pointer_ok, front_address, deque_empty, assign. simpl. by rewrite length_insert.
Qed.

Lemma pointer_ok_none {A} (d : deque A) : pointer_ok d None.
Proof. by left. Qed.
#[export] Hint Resolve front_address_pointer pointer_ok_push pointer_ok_assign pointer_ok_none : fp.

Lemma Forall_assign {A} (P : A -> Prop) d a x :
  Forall P (items d) -> P x -> Forall P (items (assign d a x)).
Proof. intros. unfold assign. simpl. by apply Forall_insert. Qed.
#[export] Hint Resolve Forall_assign : fp.

Lemma Next_ok g : counter_ok g -> counter_ok (snd (Next g)).
Proof.
  intros Hg. rewrite Next_mod by done. unfold counter_ok. simpl.
  pose proof (Z.mod_pos_bound (packet_counter_ g + 1) 8). lia.
Qed.
#[export] Hint Resolve Next_ok : fp.

Lemma SetPacketCounter_returns {ct : CharType} p c :
  bytes_ p <> [] -> 0 <= c <= 7 ->
  returns_with (SetPacketCounter p c) (fun r => fst r = kOk).
Proof.
  destruct p as [[|b r]]; [done|]. intros _ Hc. unfold SetPacketCounter, kMaxPacketCounter.
  by rewrite (proj2 (Z.ltb_ge c 0)), (proj2 (Z.ltb_ge 7 c)) by lia.
Qed.

Lemma substr_returns l pos n : 0 <= pos <= Z.of_nat (length l) -> returns_with (substr l pos n) (fun _ => True).
Proof.
  intros H. unfold substr. by rewrite (proj2 (Z.leb_le 0 pos)), (proj2 (Z.leb_le pos _)) by lia.
Qed.

Lemma NextPacket_returns {ct : CharType} r max :
  write_request_ok r ->
  returns_with (NextPacket r max) (fun '(p, r') =>
    write_request_ok r' /\ match p with Ok p => bytes_ p <> [] | Error _ => True end).
Proof.
  intros [Hp Hl]. unfold NextPacket, IsFinished. rewrite u64_id by lia.
  destruct (_ <=? position_ r) eqn:?; [by repeat split; simpl; try lia|].
  destruct (max <=? 0) eqn:?; [by repeat split; simpl; try lia|]. bool_to_prop.
  eapply returns_bind; [apply substr_returns; lia|]. intros b _.
  rewrite CreateDataPacket_eq, done_bind. simpl. split; [|done].
  unfold write_request_ok, kPacketHeaderLength. simpl. rewrite s32_id by lia. lia.
Qed.

(** Outputs other than the two callbacks of the connection. *)
Definition neutral (o : Output) : Prop :=
  match o with on_connected_cb | on_disconnected_cb => False | _ => True end.

Lemma lifecycle_ok_neutral st l o : neutral o -> lifecycle_ok st l -> lifecycle_ok st (l ++ [o]).
Proof.
  intros Ho (up & Hl & Hu). exists up. rewrite lifecycle_app, Hl. by destruct o.
Qed.

Lemma lifecycle_ok_connected st l : lifecycle_ok st l -> lifecycle_ok kConnected (l ++ [on_connected_cb]).
Proof. intros (up & Hl & Hu). exists true. by rewrite lifecycle_app, Hl. Qed.

Lemma lifecycle_ok_disconnected st l :
  st <> kDisconnected -> lifecycle_ok st l -> lifecycle_ok kDisconnected (l ++ [on_disconnected_cb]).
Proof.
  intros Hs (up & Hl & Hu). exists false. by rewrite lifecycle_app, Hl, Hu.
Qed.

Lemma lifecycle_ok_down st l : lifecycle_ok st l -> lifecycle_ok kDisconnected l.
Proof. intros (up & Hl & Hu). by exists up. Qed.

Lemma lifecycle_ok_leave st st' l :
  st <> kDisconnected -> lifecycle_ok st l -> lifecycle_ok st' l.
Proof. intros Hs (up & Hl & Hu). exists up. auto. Qed.
#[export] Hint Resolve lifecycle_ok_neutral lifecycle_ok_connected lifecycle_ok_disconnected
  lifecycle_ok_down : fp.

Lemma Forall_snoc {A} (P : A -> Prop) l x : Forall P l -> P x -> Forall P (l ++ [x]).
Proof. intros. apply Forall_app. auto. Qed.
#[export] Hint Resolve Forall_snoc : fp.
#[export] Hint Extern 1 (neutral _) => exact I : fp.
#[export] Hint Extern 1 (job_ok _) => exact I : fp.
#[export] Hint Extern 1 (counter_ok new_generator) => unfold counter_ok; simpl; lia : fp.
#[export] Hint Extern 1 (counter_ok (Generator_Reset _)) => unfold counter_ok; simpl; lia : fp.

(** The fields of an updated socket. *)
Ltac fields := cbn [control_request_queue_ message_request_queue_ current_control_
  current_message_ state_ max_packet_size_ packetizer_ packet_counter_generator_
  remote_packet_counter_generator_ executor_ connection_max derived next_future output
  set_control_request_queue set_message_request_queue set_current_control
  set_current_message set_state set_max_packet_size set_packetizer
  set_packet_counter_generator set_remote_packet_counter_generator set_executor set_derived
  set_next_future set_output emit RunOnSocketThread push_back clear base items] in *.

Section Safety.
Context {ct : CharType} {X : Type} `{D : Derived X}.
Implicit Types s : BaseSocket X.

(** What writing leaves alone. *)
Definition untouched s s' : Prop :=
  state_ s' = state_ s /\ executor_ s' = executor_ s /\ derived s' = derived s.

Lemma inv_of_untouched s s' : reset_pending s -> core s' -> untouched s s' -> socket_inv s'.
Proof. intros Hr Hc (H1 & H2 & _). split; [done|]. unfold reset_pending. by rewrite H1, H2. Qed.

(** The invariant is kept by an update, field by field. *)
Ltac keep := intros; match goal with H : core _ |- _ => destruct H end;
  constructor; fields; eauto with fp.

Lemma core_emit s o : neutral o -> core s -> core (emit o s).
Proof. keep. Qed.

Lemma core_run s j : job_ok j -> core s -> core (RunOnSocketThread j s).
Proof. keep. Qed.

Lemma core_packetizer s z : core s -> core (set_packetizer s z).
Proof. keep. Qed.

Lemma core_max s n : core s -> core (set_max_packet_size s n).
Proof. keep. Qed.

Lemma core_next_remote s :
  core s -> core (set_remote_packet_counter_generator s (snd (Next (remote_packet_counter_generator_ s)))).
Proof. keep. Qed.

Lemma core_clear_messages s :
  core s -> core (set_message_request_queue (set_current_message s None)
                    (clear (message_request_queue_ s))).
Proof. keep. Qed.

Lemma core_future s n : core s -> core (set_next_future s n).
Proof. keep. Qed.

Lemma core_set_derived s x : derived_ok x -> core s -> core (set_derived s x).
Proof. keep. Qed.

Lemma core_push_message s r :
  write_request_ok r -> core s ->
  core (set_message_request_queue s (push_back (message_request_queue_ s) r)).
Proof. keep. Qed.

Lemma core_push_control s r :
  control_ok r -> core s ->
  core (set_control_request_queue s (push_back (control_request_queue_ s) r)).
Proof. keep. Qed.

Lemma WritePacket_safe packet s :
  core s -> match packet with Ok p => bytes_ p <> [] | Error _ => True end ->
  returns_with (WritePacket packet s) (fun s' => core s' /\ untouched s s').
Proof.
  intros Hs Hp. destruct packet as [p|code]; cbn [WritePacket];
    [|split; [done|by repeat split]].
  pose proof (core_counter s Hs) as Hc. pose proof (Next_ok _ Hc) as Hc'.
  rewrite Next_mod in * by done.
  eapply returns_bind; [by apply SetPacketCounter_returns|].
  intros [st q] Hst. simpl in Hst. subst st. cbn. split; [|by repeat split].
  keep.
Qed.

Lemma select_control s :
  core s ->
  core (match current_control_ s with
        | None => set_current_control s (front_address (control_request_queue_ s))
        | Some _ => s end).
Proof. intros Hs. destruct (current_control_ s); [done|keep]. Qed.

Lemma select_message s :
  core s ->
  core (match current_message_ s with
        | None => set_current_message s (front_address (message_request_queue_ s))
        | Some _ => s end).
Proof. intros Hs. destruct (current_message_ s); [done|keep]. Qed.

Lemma TryWriteNextControl_safe s :
  core s -> returns_with (TryWriteNextControl s) (fun s' => core s' /\ untouched s s').
Proof.
  intros Hs. unfold TryWriteNextControl. pose proof (select_control s Hs) as Hs1.
  set (s1 := match current_control_ s with None => _ | Some _ => s end) in *.
  assert (untouched s s1) as Hf by (unfold s1; destruct (current_control_ s); repeat split).
  clearbody s1. cbv zeta. destruct (current_control_ s1) as [a|] eqn:Ha; [|by split].
  pose proof (core_control s1 Hs1) as Hp. rewrite Ha in Hp.
  destruct (pointer_ok_deref control_ok _ a Hp (core_controls s1 Hs1)) as (r & l & Hi & -> & Hd & Hr).
  simpl control_request_queue_. rewrite Hd, done_bind.
  assert (control_ok (snd (ControlPacketWriteRequest_NextPacket r))) as Hr'
    by (unfold ControlPacketWriteRequest_NextPacket; by destruct (is_started_ r)).
  assert (match fst (ControlPacketWriteRequest_NextPacket r) with
          | Ok p => bytes_ p <> [] | Error _ => True end) as Hpk
    by (unfold ControlPacketWriteRequest_NextPacket; by destruct (is_started_ r)).
  destruct (ControlPacketWriteRequest_NextPacket r) as [pk r']. simpl in *.
  eapply returns_mono; [apply WritePacket_safe; [|exact Hpk]|].
  - destruct (core_clear_messages s1 Hs1). constructor; fields; eauto with fp.
  - intros s' [H1 H2]. split; [done|]. destruct Hf as (F1 & F2 & F3), H2 as (G1 & G2 & G3).
    simpl in *. repeat split; congruence.
Qed.

Lemma TryWriteNextMessage_safe s :
  core s -> returns_with (TryWriteNextMessage s) (fun s' => core s' /\ untouched s s').
Proof.
  intros Hs. unfold TryWriteNextMessage. destruct (_ || _); [by apply TryWriteNextControl_safe|].
  pose proof (select_message s Hs) as Hs1.
  set (s1 := match current_message_ s with None => _ | Some _ => s end) in *.
  assert (untouched s s1) as Hf by (unfold s1; destruct (current_message_ s); repeat split).
  clearbody s1. cbv zeta. destruct (current_message_ s1) as [a|] eqn:Ha; [|by split].
  pose proof (core_message s1 Hs1) as Hp. rewrite Ha in Hp.
  destruct (pointer_ok_deref write_request_ok _ a Hp (core_messages s1 Hs1)) as (r & l & Hi & -> & Hd & Hr).
  rewrite Hd, done_bind. destruct (_ || _); [by split|].
  eapply returns_bind; [by apply NextPacket_returns|]. intros [pk r'] [Hr' Hpk].
  eapply returns_mono; [apply WritePacket_safe; [|exact Hpk]|].
  - destruct Hs1. constructor; fields; eauto with fp.
  - intros s' [H1 H2]. split; [done|]. destruct Hf as (F1 & F2 & F3), H2 as (G1 & G2 & G3).
    simpl in *. repeat split; congruence.
Qed.

Lemma untouched_trans s1 s2 s3 : untouched s1 s2 -> untouched s2 s3 -> untouched s1 s3.
Proof. unfold untouched. intros (? & ? & ?) (? & ? & ?). repeat split; congruence. Qed.

Lemma TryWriteNextMessage_inv s s1 :
  reset_pending s -> core s1 -> untouched s s1 -> returns_with (TryWriteNextMessage s1) socket_inv.
Proof.
  intros Hr Hc Hf. eapply returns_mono; [by apply TryWriteNextMessage_safe|].
  intros s2 [Hc2 Hf2]. eapply inv_of_untouched; eauto using untouched_trans.
Qed.

Lemma Forall_pop {A} (P : A -> Prop) d q : pop_front d = Done q -> Forall P (items d) -> Forall P (items q).
Proof.
  unfold pop_front. destruct (items d); [done|]. intros [= <-] Hf. by inversion Hf.
Qed.
Hint Resolve Forall_pop : fp.

Lemma pointer_pop {A} (d : deque A) a : pointer_ok d (Some a) -> exists q, pop_front d = Done q.
Proof.
  intros [?|[_ Ha]]; [done|]. unfold front_address, deque_empty, pop_front in *.
  destruct (items d); [done|eauto].
Qed.

(** The part of the job before the next packet is written. *)
Lemma run_WriteComplete_first status s :
  core s -> returns_with (finish_write status s) (fun s1 => core s1 /\ untouched s s1).
Proof.
  intros Hs. unfold finish_write.
  pose proof (core_control s Hs) as Hc. pose proof (core_message s Hs) as Hm.
  destruct (current_control_ s) as [a|] eqn:Ha.
  - destruct (pointer_pop _ _ Hc) as [q Hq]. fields. rewrite Hq, done_bind. simpl.
    split; [keep|by repeat split].
  - destruct (current_message_ s) as [a|] eqn:Ham; [|split; [done|by repeat split]].
    destruct (pointer_ok_deref write_request_ok _ a Hm (core_messages s Hs)) as (r & l & _ & _ & Hd & _).
    rewrite Hd, done_bind. destruct (IsFinished r); [|split; [done|by repeat split]].
    fields. destruct (pointer_pop _ _ Hm) as [q Hq].
    destruct (_ && _); [rewrite Hq, done_bind|]; simpl;
      (split; [|by repeat split]); keep.
Qed.

Lemma run_WriteComplete_safe status s :
  core s -> reset_pending s -> returns_with (run_WriteComplete status s) socket_inv.
Proof.
  intros Hs Hr. eapply returns_bind; [by apply run_WriteComplete_first|].
  intros s1 [H1 H2]. by eapply TryWriteNextMessage_inv.
Qed.

Lemma core_DisconnectQuietly s : core s -> core (DisconnectQuietly s).
Proof. unfold DisconnectQuietly. pose proof disconnected_ok. keep. Qed.

Lemma inv_DisconnectQuietly s : core s -> socket_inv (DisconnectQuietly s).
Proof.
  intros Hs. split; [by apply core_DisconnectQuietly|]. intros _. unfold DisconnectQuietly. fields.
  apply elem_of_app. right. by apply list_elem_of_singleton.
Qed.

Lemma run_Disconnect_safe s : core s -> reset_pending s -> returns_with (run_Disconnect s) socket_inv.
Proof.
  intros Hs Hr. unfold run_Disconnect. destruct (_ || _) eqn:Hst; [by split|].
  apply orb_false_iff in Hst as [Hst1 Hst2]. apply bool_decide_eq_false_1 in Hst2.
  rewrite CreateErrorPacket_eq, done_bind. simpl returns_with. apply inv_DisconnectQuietly.
  unfold WriteControlPacket.
  assert (lifecycle_ok kDisconnecting (output s)) as Hl
    by (eapply lifecycle_ok_leave; [exact Hst2|apply (core_lifecycle s Hs)]).
  assert (job_ok (TryWriteNextControl_job
    (new_control_request (MakePacket [control_header 0 kControlError])))) as Hj by done.
  keep.
Qed.

Lemma run_Reset_safe s : core s -> socket_inv (run_ResetDisconnectQuietly s).
Proof.
  intros Hs. split; [|by unfold reset_pending].
  unfold run_ResetDisconnectQuietly.
  destruct (bool_decide (state_ s = kDisconnecting)) eqn:Hst; [|keep].
  apply bool_decide_eq_true_1 in Hst. pose proof (core_lifecycle s Hs) as Hl.
  assert (lifecycle_ok kDisconnected (output s ++ [on_disconnected_cb])) as Hl'
    by (eapply lifecycle_ok_disconnected; [|exact Hl]; by rewrite Hst).
  keep.
Qed.

Lemma run_OnConnected_safe n s : core s -> reset_pending s -> returns_with (run_OnConnected n s) socket_inv.
Proof.
  intros Hs Hr. unfold run_OnConnected. cbv zeta.
  destruct (IsConnected _) eqn:Hc.
  - eapply (TryWriteNextMessage_inv s); [done|by apply core_max|by repeat split].
  - eapply (TryWriteNextMessage_inv (emit on_connected_cb (set_state (set_max_packet_size s n) kConnected)));
      [by unfold reset_pending|keep|by repeat split].
Qed.

Lemma run_OnConnected_frame n s :
  core s -> returns_with (run_OnConnected n s) (fun s' => executor_ s' = executor_ s).
Proof.
  intros Hs. unfold run_OnConnected. cbv zeta.
  eapply returns_mono; [apply TryWriteNextMessage_safe|].
  - destruct (IsConnected _); [by apply core_max|keep].
  - intros s' [_ (_ & He & _)]. rewrite He. by destruct (IsConnected _).
Qed.

Lemma run_job_safe j s :
  core s -> job_ok j -> (j <> ResetDisconnectQuietly_job -> reset_pending s) ->
  returns_with (run_job j s) socket_inv.
Proof.
  intros Hs Hj Hr. destruct j as [status| | |r|r|n]; cbn [run_job].
  - apply run_WriteComplete_safe; [done|by apply Hr].
  - apply run_Disconnect_safe; [done|by apply Hr].
  - by apply run_Reset_safe.
  - eapply (TryWriteNextMessage_inv s); [by apply Hr|by apply core_push_message|by repeat split].
  - eapply returns_mono; [apply TryWriteNextControl_safe; by apply core_push_control|].
    intros s' [Hc Hf]. eapply inv_of_untouched; [|done|exact Hf]. by apply Hr.
  - apply run_OnConnected_safe; [done|by apply Hr].
Qed.

Lemma run_next_safe s : socket_inv s -> returns_with (run_next s) socket_inv.
Proof.
  intros [Hs Hr]. unfold run_next. destruct (executor_ s) as [|j js] eqn:He; [by split|].
  pose proof (core_jobs s Hs) as Hj. rewrite He in Hj. inversion Hj; subst.
  apply run_job_safe; [keep|done|].
  intros Hne Hst. specialize (Hr Hst). rewrite He in Hr. fields.
  apply elem_of_cons in Hr as [?|?]; [congruence|done].
Qed.

(** * Calls *)

Lemma inv_run s j : job_ok j -> socket_inv s -> socket_inv (RunOnSocketThread j s).
Proof.
  intros Hj [Hs Hr]. split; [by apply core_run|]. intros Hst. fields.
  apply elem_of_app. left. auto.
Qed.

Lemma inv_emit s o : neutral o -> socket_inv s -> socket_inv (emit o s).
Proof. intros Ho [Hs Hr]. split; [by apply core_emit|done]. Qed.

Lemma inv_set_derived s x : derived_ok x -> socket_inv s -> socket_inv (set_derived s x).
Proof. intros Ho [Hs Hr]. split; [by apply core_set_derived|done]. Qed.

Lemma inv_packetizer s z : socket_inv s -> socket_inv (set_packetizer s z).
Proof. intros [Hs Hr]. split; [by apply core_packetizer|done]. Qed.

Lemma inv_DisconnectInternal s status : socket_inv s -> socket_inv (DisconnectInternal status s).
Proof. intros Hs. apply inv_run; [done|]. by apply inv_emit. Qed.

Lemma inv_WriteControlPacket s p : bytes_ p <> [] -> socket_inv s -> socket_inv (WriteControlPacket p s).
Proof. intros Hp. by apply inv_run. Qed.

Lemma inv_OnConnected s n : socket_inv s -> socket_inv (OnConnected n s).
Proof. by apply inv_run. Qed.

Lemma inv_Write s m : Z.of_nat (length m) < 2 ^ 31 -> socket_inv s -> socket_inv (snd (Write m s)).
Proof.
  intros Hm [Hs Hr]. unfold Write. simpl. apply inv_run.
  - unfold job_ok, write_request_ok, new_request. simpl. lia.
  - split; [by apply core_future|done].
Qed.

Lemma inv_on_transmit s status : socket_inv s -> socket_inv (on_transmit status s).
Proof.
  intros Hs. unfold on_transmit. pose proof (inv_run s (OnWriteRequestWriteComplete_job status) I Hs).
  destruct (code_ok status); [done|by apply inv_DisconnectInternal].
Qed.

Lemma inv_next_remote s :
  socket_inv s -> socket_inv (set_remote_packet_counter_generator s (snd (Next (remote_packet_counter_generator_ s)))).
Proof. intros [Hs Hr]. split; [by apply core_next_remote|done]. Qed.

Lemma inv_IsRemotePacketCounterExpected c s : socket_inv s -> socket_inv (snd (IsRemotePacketCounterExpected c s)).
Proof.
  intros Hs. apply inv_next_remote in Hs. unfold IsRemotePacketCounterExpected.
  destruct (Next _) as [e g]. destruct (c =? e); [done|by apply inv_emit].
Qed.

Lemma GetPayload_returns p : bytes_ p <> [] -> returns_with (GetPayload p) (fun _ => True).
Proof. destruct p as [[|b r]]; [done|]. intros _. by rewrite GetPayload_cons. Qed.

Lemma AddPacket_returns z p : bytes_ p <> [] -> returns_with (AddPacket z p) (fun _ => True).
Proof.
  intros Hp. unfold AddPacket. repeat case_match; try done.
  all: eapply returns_bind; [by apply GetPayload_returns|done].
Qed.

Lemma OnReceiveDataPacket_safe p s :
  bytes_ p <> [] -> socket_inv s -> returns_with (OnReceiveDataPacket p s) socket_inv.
Proof.
  intros Hp Hs. unfold OnReceiveDataPacket. eapply returns_bind; [by apply AddPacket_returns|].
  intros [st z] _. destruct (negb (code_ok st)).
  - by apply inv_DisconnectInternal, inv_packetizer.
  - destruct (TakeMessage _) as [[m|e] z'].
    + by apply inv_emit, inv_packetizer, inv_packetizer.
    + by apply inv_DisconnectInternal, inv_packetizer, inv_packetizer.
Qed.

(** The packet the peer has sent, if it is a control packet. *)
Definition control_packet_of (m : list Z) : option Packet :=
  if (length m =? 0)%nat then None else if IsControlPacket (MakePacket m) then Some (MakePacket m) else None.

Lemma on_remote_transmit_safe (U : Packet -> Prop) f m s :
  (forall p s, bytes_ p <> [] -> socket_inv s -> returns_unless (U p) (f p s) socket_inv) ->
  socket_inv s -> returns_unless (from_option U False (control_packet_of m)) (on_remote_transmit f m s) socket_inv.
Proof.
  intros Hf Hs. unfold control_packet_of, on_remote_transmit, FromBytes.
  destruct (length m =? 0)%nat eqn:Hm; [by apply inv_DisconnectInternal|].
  assert (bytes_ (MakePacket m) <> []) as Hp by (by destruct m).
  pose proof (inv_IsRemotePacketCounterExpected (GetPacketCounter (MakePacket m)) s Hs) as Hs1.
  destruct (IsRemotePacketCounterExpected _ s) as [b s1]. simpl in Hs1.
  destruct (IsControlPacket _).
  - apply Hf; [done|]. destruct b; [done|by apply inv_next_remote].
  - destruct b; [by apply unless_returns, OnReceiveDataPacket_safe|by apply inv_run].
Qed.

End Safety.

(** * Interface: what a kind of socket has to preserve *)

(** [undefined_packet] says which packets the code has no behaviour for. *)
Class SocketLaws (X : Type) `{Derived X} `{!SocketClass X} : Type :=
  { undefined_packet : Packet -> Prop;
    Connect_safe : forall s : BaseSocket X, socket_inv s -> returns_with (Connect s) socket_inv;
    OnReceiveControlPacket_safe : forall p (s : BaseSocket X),
      bytes_ p <> [] -> socket_inv s -> returns_unless (undefined_packet p) (OnReceiveControlPacket p s) socket_inv }.

Section Reachable.
Context {ct : CharType} {X : Type} `{SocketLaws X}.

(** A call that hands such a packet over. *)
Definition undefined_call (c : Call) : Prop :=
  match c with call_on_remote_transmit m => from_option undefined_packet False (control_packet_of m) | _ => False end.

Lemma handle_call_safe c (s : BaseSocket X) :
  call_ok c -> socket_inv s -> returns_unless (undefined_call c) (handle_call c s) socket_inv.
Proof.
  intros Hc Hs. destruct c; cbn [handle_call].
  - by apply unless_returns, Connect_safe.
  - by apply inv_run.
  - by apply inv_Write.
  - by apply inv_on_transmit.
  - apply on_remote_transmit_safe; [|done]. apply OnReceiveControlPacket_safe.
  - by apply inv_DisconnectQuietly, Hs.
Qed.

Lemma reachable_inv s0 (s : BaseSocket X) : socket_inv s0 -> socket_reachable s0 s -> socket_inv s.
Proof.
  intros Hinit. induction 1 as [|s c s' _ IH Hc Hh|s s' _ IH _ Hn]; [done| |].
  - pose proof (handle_call_safe c s Hc IH) as Hr. by rewrite Hh in Hr.
  - pose proof (run_next_safe s IH) as Hr. by rewrite Hn in Hr.
Qed.

Lemma inv_new_socket max (x : X) : derived_ok x -> socket_inv (new_socket max x).
Proof.
  intros Hx. split; [|done].
  constructor; simpl; auto with fp; by exists false.
Qed.

End Reachable.

(** * The two kinds of sockets *)

Import WeaveClient WeaveServer.

(** The client has at most 13 bytes of initial data, the room of a connection
    request. *)
#[export] Instance client_derived : Derived ClientSocket :=
  { derived_ok := fun x => (length (initial_data x) <= 13)%nat;
    disconnected_ok := fun _ h => h }.

#[export] Instance server_derived : Derived ServerSocket :=
  { derived_ok := fun _ => True; disconnected_ok := fun _ h => h }.

Lemma unless_bind {A B} U (m : outcome A) (f : A -> outcome B) P Q :
  returns_unless U m Q -> (forall a, Q a -> returns_unless U (f a) P) -> returns_unless U (mbind f m) P.
Proof. destruct m; simpl; auto. Qed.

Lemma load_returns l i : (i < length l)%nat -> returns_with (load l i) (fun _ => True).
Proof. intros Hi. destruct (load_lt l i Hi) as (v & -> & _). done. Qed.

Lemma two_chars_returns {ct : CharType} l i :
  (i + 1 < length l)%nat -> returns_unless (shifts_defined = false) (two_chars l i) (fun _ => True).
Proof.
  intros Hi. unfold two_chars. eapply unless_bind; [apply unless_returns, load_returns; lia|]. intros hi _.
  eapply unless_bind; [apply unless_returns, load_returns; lia|]. intros lo _.
  destruct shifts_defined eqn:Hd; [by rewrite char_shift_done|]. unfold char_shift. by destruct (_ && _).
Qed.

Lemma extract_returns {ct : CharType} (U : Prop) (g : Z -> Z) l i :
  (shifts_defined = false -> U) -> (i + 1 < length l)%nat ->
  returns_unless U (let! v := two_chars l i in Done (g v)) (fun _ => True).
Proof.
  intros HU Hi. apply (unless_bind U _ _ _ (fun _ => True)); [|done]. pose proof (two_chars_returns l i Hi) as Ht.
  destruct (two_chars l i); simpl in *; auto.
Qed.

#[export] Instance client_laws {ct : CharType} : SocketLaws ClientSocket.
Proof.
  apply (Build_SocketLaws _ _ _ _ (fun _ => shifts_defined = false)).
  - intros s Hs. cbn [Connect client_class]. unfold ClientSocket_Connect.
    destruct (negb _); [done|]. pose proof (core_derived _ (proj1 Hs)) as Hd. simpl in Hd.
    rewrite CreateConnectionRequestPacket_eq by (simpl; lia). rewrite !done_bind. simpl value.
    rewrite done_bind. simpl returns_with.
    apply inv_set_derived; [done|]. apply inv_WriteControlPacket; [done|].
    by apply inv_set_derived.
  - intros p s Hp Hs. cbn [OnReceiveControlPacket client_class].
    unfold ClientSocket_OnReceiveControlPacket.
    destruct (_ =? kControlError); [by apply inv_DisconnectQuietly, Hs|].
    destruct (negb _); [by apply inv_emit|].
    destruct (negb _); [by apply inv_DisconnectInternal|].
    eapply unless_bind; [by apply unless_returns, GetPayload_returns|]. intros payload _.
    destruct (_ <? _)%nat eqn:Hlen; [by apply inv_DisconnectInternal|]. bool_to_prop.
    unfold kConnectionConfirmPacketMinLength in *.
    eapply unless_bind; [apply two_chars_returns; lia|]. intros v _.
    destruct (negb _); [by apply inv_DisconnectInternal|].
    eapply unless_bind; [apply two_chars_returns; lia|]. intros m _.
    destruct (_ <? _); [by apply inv_DisconnectInternal|]. cbv zeta.
    assert (socket_inv (OnConnected (Z.land m (s16 65535)) (set_state_ kStateHandshakeCompleted s))).
    { apply inv_OnConnected, inv_set_derived; [|done]. apply (core_derived _ (proj1 Hs)). }
    destruct (_ <? _)%nat; [|done]. eapply unless_bind; [apply unless_returns, substr_returns; lia|].
    intros rest _. by apply inv_emit.
Defined.

Lemma WriteConnectionConfirm_safe {ct : CharType} (s : BaseSocket ServerSocket) :
  socket_inv s -> returns_with (WriteConnectionConfirm s) socket_inv.
Proof.
  intros Hs. unfold WriteConnectionConfirm.
  rewrite CreateConnectionConfirmPacket_eq by (simpl; lia). rewrite done_bind. simpl returns_with.
  apply inv_OnConnected, inv_set_derived; [done|]. apply inv_WriteControlPacket; [done|].
  by apply inv_set_derived.
Qed.

(** A packet whose type has no name. *)
Definition unknown_command {ct : CharType} (p : Packet) : bool :=
  negb (bool_decide (GetControlCommandNumber p ∈ [kControlConnectionRequest; kControlConnectionConfirm; kControlError])).
#[global] Arguments unknown_command : simpl never.

Lemma command_named {ct : CharType} U p :
  (unknown_command p = true -> U) -> returns_unless U (ControlPacketTypeToString (GetControlCommandNumber p)) (fun _ => True).
Proof.
  intros HU. unfold ControlPacketTypeToString, unknown_command in *.
  destruct (_ =? kControlConnectionRequest) eqn:E0; [done|]. destruct (_ =? kControlConnectionConfirm) eqn:E1; [done|].
  destruct (_ =? kControlError) eqn:E2; [done|]. apply HU. rewrite bool_decide_false; [done|].
  rewrite !elem_of_cons, elem_of_nil. apply Z.eqb_neq in E0, E1, E2. tauto.
Qed.

#[export] Instance server_laws {ct : CharType} : SocketLaws ServerSocket.
Proof.
  apply (Build_SocketLaws _ _ _ _ (fun p => shifts_defined = false \/ unknown_command p = true)); [done|].
  intros p s Hp Hs. cbn [OnReceiveControlPacket server_class].
  unfold ServerSocket_OnReceiveControlPacket.
  destruct (_ =? kControlError); [by apply inv_DisconnectQuietly, Hs|].
  destruct (negb _).
  { eapply unless_bind; [apply command_named; by right|]. intros ? _. by apply inv_emit. }
  destruct (negb _).
  { eapply unless_bind; [apply command_named; by right|]. intros ? _. by apply inv_DisconnectInternal. }
  eapply unless_bind; [by apply unless_returns, GetPayload_returns|]. intros payload _.
  destruct (_ <? _)%nat eqn:Hlen; [by apply inv_emit|]. bool_to_prop.
  unfold kMinimumConnectionRequestLength in *.
  eapply unless_bind; [apply extract_returns; [by left|lia]|]. intros vmin _.
  eapply unless_bind; [apply extract_returns; [by left|lia]|]. intros vmax _.
  destruct (_ || _); [by apply inv_DisconnectInternal|].
  eapply unless_bind; [apply extract_returns; [by left|lia]|]. intros size _.
  cbv zeta. apply unless_returns. eapply returns_bind; [|apply WriteConnectionConfirm_safe].
  destruct (_ <? _)%nat.
  - eapply returns_bind; [apply substr_returns; lia|]. intros rest _. simpl.
    apply inv_emit; [done|]. by apply inv_set_derived.
  - by apply inv_set_derived.
Defined.

(** What the server does with such a packet is undefined in every state. *)
Lemma server_unknown_command {ct : CharType} p s :
  unknown_command p = true -> ServerSocket_OnReceiveControlPacket p s = Fault.
Proof.
  unfold unknown_command, ServerSocket_OnReceiveControlPacket, ControlPacketTypeToString. intros Hp.
  apply negb_true_iff, bool_decide_eq_false in Hp. rewrite !elem_of_cons in Hp.
  rewrite !(proj2 (Z.eqb_neq _ _)) by tauto. cbn [negb]. by destruct (negb _).
Qed.

Definition unknown_call {ct : CharType} (c : Call) : bool :=
  match c with
  | call_on_remote_transmit m => from_option unknown_command false (control_packet_of m)
  | _ => false
  end.

Lemma unknown_call_fault {ct : CharType} c (s : BaseSocket ServerSocket) : unknown_call c = true -> handle_call c s = Fault.
Proof.
  destruct c as [| | | |m|]; try done. cbn. unfold control_packet_of, on_remote_transmit, FromBytes.
  destruct (length m =? 0)%nat; [done|]. destruct (IsControlPacket _); [|done]. cbn. intros Hu.
  destruct (GetPacketCounter (MakePacket m) =? _); by apply server_unknown_command.
Qed.

(** What holds of every state of either kind of socket. *)
Lemma reachable_safe {ct : CharType} {X} `{SocketLaws X} (s0 s : BaseSocket X) :
  socket_inv s0 -> socket_reachable s0 s ->
  socket_inv s /\ (exists s', run_next s = Done s') /\
  forall c, call_ok c -> ~ undefined_call c -> exists s', handle_call c s = Done s'.
Proof.
  intros Hi Hr. apply reachable_inv in Hr; [|done]. split; [done|]. split.
  - destruct (proj1 (returns_done _ _) (run_next_safe s Hr)) as (s' & ? & _). eauto.
  - intros c Hc Hu. pose proof (handle_call_safe c s Hc Hr) as Hs. destruct (handle_call c s); simpl in Hs; [eauto|done|tauto].
Qed.

(** * Properties *)

(** C26. Safety of both sockets under every interleaving.  Start from a new
    client socket (with at most 13 bytes of initial data) or a new server
    socket and take any sequence of calls from the user and the connection,
    with any statuses, any messages below 2 GB and any packets the code has a
    behaviour for, and of jobs of the executor: the invariant
    holds (the pointers into the write queues are null or point to the front
    element, the packet counters have three bits, a disconnection under way has
    its reset scheduled, connection and disconnection callbacks alternate), and the
    next job returns.  If the compiler defines the left shift of a negative [char], or
    [char] is unsigned, every call of a client returns, and so does every call of a
    server, but for one kind of packet: a control packet whose command number is
    none of the three makes the server run off the end of
    ControlPacketTypeToString, in every state.  Otherwise no dangling pointer is read, no
    [CHECK] fails and nothing is thrown. *)
Theorem Weave_sockets_safe {ct : CharType} connection_max data :
  (length data <= 13)%nat ->
  (forall s, socket_reachable (new_client connection_max data) s ->
     socket_inv s /\ (exists s', run_next s = Done s') /\
     (shifts_defined = true -> forall c, call_ok c -> exists s', handle_call c s = Done s')) /\
  (forall s, socket_reachable (new_server connection_max) s ->
     socket_inv s /\ (exists s', run_next s = Done s') /\
     (shifts_defined = true -> forall c, call_ok c ->
        if unknown_call c then handle_call c s = Fault else exists s', handle_call c s = Done s')).
Proof.
  intros Hd. split; intros s Hr.
  - destruct (reachable_safe (new_client connection_max data) s ltac:(by apply inv_new_socket) Hr) as (Hi & Hn & Hc). split_and!; [done..|].
    intros Hs c Hcc. apply Hc; [done|]. destruct c as [| | | |m|]; try tauto. cbn. destruct (control_packet_of m); cbn; [|tauto].
    by rewrite Hs.
  - destruct (reachable_safe (new_server connection_max) s ltac:(by apply inv_new_socket) Hr) as (Hi & Hn & Hc). split_and!; [done..|].
    intros Hs c Hcc. destruct (unknown_call c) eqn:Eu; [by apply unknown_call_fault|]. apply Hc; [done|].
    destruct c as [| | | |m|]; try tauto. cbn in *. destruct (control_packet_of m); cbn in *; [|tauto]. rewrite Hs, Eu. by intros [|].
Qed.

#[local] Existing Instance signed_char.

Lemma Weave_sockets_safe_witness :
  (length [1%Z; 2%Z] <= 13)%nat /\
  (exists s, socket_reachable (new_client 20 [1; 2]) s /\ executor_ s <> [] /\
    (exists s', run_next s = Done s')) /\
  handle_call (call_on_remote_transmit [0x83]) (new_server 20) = Fault.
Proof.
  split; [simpl; lia|].
  destruct (Weave_sockets_safe 20 [1; 2]) as [Hc Hs]; [simpl; lia|]. split.
  - eexists. split.
    + eapply (reachable_call _ _ call_Connect); [apply reachable_start|exact I|reflexivity].
    + split; [done|]. eapply Hc.
      eapply (reachable_call _ _ call_Connect); [apply reachable_start|exact I|reflexivity].
  - destruct (Hs (new_server 20) (reachable_start _)) as (_ & _ & Hf). exact (Hf eq_refl (call_on_remote_transmit [0x83]) I).
Defined.
