(* ===== verification/WeaveSocketRun.v ===== *)
(** Complete runs of Weave sockets: the executor empties, a disconnection
    completes, a message is written packet by packet, a packet is delivered at
    the other end, and the handshake of a client and a server settles on the
    smaller packet size.  The runs are the ones in which the executor is idle
    between calls; [run_jobs] lets it work. *)

From Stdlib Require Import ZArith Lia.
From stdpp Require Import base list numbers.
From S2P Require Import Prelude.
From S2P Require Import CppBase.
From S2P Require Import WeavePacket.
From S2P Require Import WeavePacketizer.
From S2P Require Import WeaveSocket.
From S2P Require Import WeaveSockets.
From S2P Require Import WeaveSocketSafety.

Import Packet PacketSequenceNumberGenerator Packetizer MessageWriteRequest ControlPacketWriteRequest.
Import WeaveClient WeaveServer.
Open Scope Z_scope.
Open Scope fp_scope.

(** * Definitions *)

(** [n] turns of the executor; without a job a turn does nothing. *)
Fixpoint run_jobs {ct : CharType} {X} `{Overrides X} (n : nat) (s : BaseSocket X) : outcome (BaseSocket X) :=
  match n with
  | O => Done s
  | S n => let! s := run_next s in run_jobs n s
  end.

(** The turns a job takes, with the jobs it posts itself. *)
Definition turns (j : Job) : nat := match j with Disconnect_job => 3 | _ => 1 end.
Definition pending (l : list Job) : nat := sum_list_with turns l.

(** A call, after which the executor works until it is idle. *)
Definition call {ct : CharType} {X} `{SocketClass X} (c : Call) (s : BaseSocket X) : outcome (BaseSocket X) :=
  let! s := handle_call c s in run_jobs (pending (executor_ s)) s.

Fixpoint calls {ct : CharType} {X} `{SocketClass X} (cs : list Call) (s : BaseSocket X)
  : outcome (BaseSocket X) :=
  match cs with
  | [] => Done s
  | c :: cs => let! s := call c s in calls cs s
  end.

(** * The executor *)

Lemma run_jobs_step {ct : CharType} {X} `{Overrides X} n (s : BaseSocket X) j js :
  executor_ s = j :: js ->
  run_jobs (S n) s = let! s := run_job j (set_executor s js) in run_jobs n s.
Proof. intros He. cbn [run_jobs]. unfold run_next. by rewrite He. Qed.

Lemma run_jobs_idle {ct : CharType} {X} `{Overrides X} n (s : BaseSocket X) :
  executor_ s = [] -> run_jobs n s = Done s.
Proof. intros He. induction n; simpl; [done|]. unfold run_next. by rewrite He. Qed.

Section Executor.
Context {ct : CharType} {X : Type} `{D : Derived X}.
Implicit Types s : BaseSocket X.

(** What a job does to the connection state and to the executor. *)
Definition job_effect (j : Job) s s' : Prop :=
  match j with
  | Disconnect_job =>
    (state_ s <> kConnected /\ s' = s) \/
    (state_ s' = kDisconnecting /\ exists r,
       executor_ s' = executor_ s ++ [TryWriteNextControl_job r; ResetDisconnectQuietly_job])
  | ResetDisconnectQuietly_job => state_ s' = kDisconnected /\ executor_ s' = executor_ s
  | TryWriteOnConnected_job _ => executor_ s' = executor_ s
  | _ => state_ s' = state_ s /\ executor_ s' = executor_ s
  end.

Lemma run_job_effect j s s' : core s -> job_ok j -> run_job j s = Done s' -> job_effect j s s'.
Proof.
  intros Hs Hj Hr. destruct j as [status| | |r|r|n]; cbn [run_job job_effect] in *.
  - unfold run_WriteComplete in Hr. apply bind_done_inv in Hr as (s1 & H1 & H2).
    assert (core s1 /\ untouched s s1) as [Hc Hf].
    { pose proof (run_WriteComplete_first status s Hs) as Hw. by rewrite H1 in Hw. }
    pose proof (TryWriteNextMessage_safe s1 Hc) as Hw. rewrite H2 in Hw. destruct Hw as [_ Hf2].
    destruct (untouched_trans _ _ _ Hf Hf2) as (? & ? & _). done.
  - unfold run_Disconnect in Hr. destruct (_ || _) eqn:Hst.
    + injection Hr as <-. left. split; [|done]. apply orb_true_iff in Hst as [Hst|Hst];
        apply bool_decide_eq_true_1 in Hst; by rewrite Hst.
    + rewrite CreateErrorPacket_eq, done_bind in Hr. injection Hr as <-. right. split; [done|].
      eexists. unfold DisconnectQuietly, WriteControlPacket. fields. by rewrite <- app_assoc.
  - injection Hr as <-. unfold run_ResetDisconnectQuietly. fields. split; [done|].
    by destruct (bool_decide _).
  - unfold run_TryWriteMessage in Hr.
    pose proof (TryWriteNextMessage_safe _ (core_push_message s r Hj Hs)) as Hw.
    rewrite Hr in Hw. destruct Hw as [_ (H1 & H2 & _)]. done.
  - unfold run_TryWriteNextControl in Hr.
    pose proof (TryWriteNextControl_safe _ (core_push_control s r Hj Hs)) as Hw.
    rewrite Hr in Hw. destruct Hw as [_ (H1 & H2 & _)]. done.
  - pose proof (run_OnConnected_frame n s Hs) as Hw. by rewrite Hr in Hw.
Qed.

Lemma run_next_effect s j js :
  socket_inv s -> executor_ s = j :: js ->
  exists s', run_next s = Done s' /\ socket_inv s' /\ job_effect j (set_executor s js) s'.
Proof.
  intros Hs He. pose proof (run_next_safe s Hs) as Hr.
  apply returns_done in Hr as (s' & Hr & Hi). exists s'. split; [done|]. split; [done|].
  unfold run_next in Hr. rewrite He in Hr.
  pose proof (core_jobs s (proj1 Hs)) as Hj. rewrite He in Hj. inversion Hj; subst.
  eapply run_job_effect; [|done|exact Hr]. destruct Hs as [[] _]. by constructor.
Qed.

Lemma pending_app l l' : pending (l ++ l') = (pending l + pending l')%nat.
Proof. apply sum_list_with_app. Qed.

Lemma job_effect_pending j s s' :
  job_effect j s s' -> (pending (executor_ s') < turns j + pending (executor_ s))%nat.
Proof.
  destruct j; cbn [job_effect turns].
  2: { intros [[_ ->]|[_ (r & ->)]]; [lia|]. rewrite pending_app. simpl. lia. }
  all: intros He; first [rewrite He | rewrite (proj2 He)]; lia.
Qed.

(** With enough turns the executor is idle, and what every turn keeps holds. *)
Lemma run_jobs_drain (P : BaseSocket X -> Prop) n s :
  (forall s s', socket_inv s -> P s -> run_next s = Done s' -> P s') ->
  socket_inv s -> P s -> (pending (executor_ s) <= n)%nat ->
  returns_with (run_jobs n s) (fun s' => executor_ s' = [] /\ socket_inv s' /\ P s').
Proof.
  intros HP. revert s. induction n as [|n IH]; intros s Hs Hp Hn; simpl.
  - split; [|done]. destruct (executor_ s) as [|[] ?]; simpl in Hn; (done || lia).
  - destruct (executor_ s) as [|j js] eqn:He.
    + unfold run_next at 1. rewrite He. apply IH; [done|done|rewrite He; simpl; lia].
    + destruct (run_next_effect s j js Hs He) as (s' & Hr & Hi & Hef).
      rewrite Hr. simpl. apply IH; [done|by apply (HP s s')|].
      apply job_effect_pending in Hef. fields. simpl in Hn. lia.
Qed.

(** No connection is completed by the jobs. *)
Definition no_connect (l : list Job) : Prop :=
  forall n, TryWriteOnConnected_job n ∉ l.

(** The socket is not connected, or a disconnection is scheduled, and nothing
    after it connects again. *)
Definition closing s : Prop :=
  (no_connect (executor_ s) /\ state_ s <> kConnected) \/
  exists l l', executor_ s = l ++ Disconnect_job :: l' /\ no_connect l'.

Lemma closing_next s s' : socket_inv s -> closing s -> run_next s = Done s' -> closing s'.
Proof.
  intros Hs Hc Hr. destruct (executor_ s) as [|j js] eqn:He.
  { unfold run_next in Hr. rewrite He in Hr. by injection Hr as <-. }
  destruct (run_next_effect s j js Hs He) as (s1 & Hr' & _ & Hef). rewrite Hr in Hr'.
  injection Hr' as <-. unfold closing in *. rewrite He in Hc.
  assert (no_connect js -> j = Disconnect_job \/ (no_connect [j] /\ state_ s <> kConnected) ->
    no_connect (executor_ s') /\ state_ s' <> kConnected) as Hend.
  { intros Hjs Hj. destruct j as [| | | | |n]; simpl in Hef; try (destruct Hj as [?|[Hnc ?]]; [done|]).
    - destruct Hef as [-> ->]. done.
    - destruct Hef as [[Hne ->]|[-> (r & ->)]]; [done|]. split; [|done]. intros n Hin. fields.
      apply elem_of_app in Hin as [Hin|Hin]; [by eapply Hjs|].
      apply elem_of_cons in Hin as [?|Hin%list_elem_of_singleton]; done.
    - destruct Hef as [-> ->]. done.
    - destruct Hef as [-> ->]. done.
    - destruct Hef as [-> ->]. done.
    - exfalso. by eapply (Hnc n), list_elem_of_singleton. }
  destruct Hc as [[Hn Hst]|([|j' l] & l' & Hl & Hn)].
  - left. apply Hend; [intros n Hin; by apply (Hn n), elem_of_cons; right|]. right. split; [|done].
    intros n Hin%list_elem_of_singleton. apply (Hn n), elem_of_cons. by left.
  - injection Hl as -> ->. left. apply Hend; [done|by left].
  - injection Hl as <- ->. right.
    destruct j; simpl in Hef; try (apply proj2 in Hef; rewrite Hef; fields; by exists l, l').
    + destruct Hef as [[_ ->]|[_ (r & ->)]]; fields; [by exists l, l'|].
      exists l, (l' ++ [TryWriteNextControl_job r; ResetDisconnectQuietly_job]).
      rewrite <- app_assoc. split; [done|]. intros n Hin.
      apply elem_of_app in Hin as [Hin|Hin]; [by eapply Hn|].
      apply elem_of_cons in Hin as [?|Hin%list_elem_of_singleton]; done.
    + rewrite Hef. fields. by exists l, l'.
Qed.

Lemma closing_Disconnect s : closing (Disconnect s).
Proof.
  right. exists (executor_ s), []. split; [done|]. intros n Hin. by apply not_elem_of_nil in Hin.
Qed.

Lemma inv_Disconnect s : socket_inv s -> socket_inv (Disconnect s).
Proof. by apply inv_run. Qed.

Lemma Disconnect_drains s :
  socket_inv s ->
  returns_with (run_jobs (pending (executor_ s) + 3) (Disconnect s))
    (fun s' => executor_ s' = [] /\ socket_inv s' /\ state_ s' = kDisconnected).
Proof.
  intros Hs. eapply returns_mono.
  - apply (run_jobs_drain closing); [apply closing_next|by apply inv_Disconnect|apply closing_Disconnect|].
    unfold Disconnect. fields. rewrite pending_app. simpl. lia.
  - intros s' (He & Hi & Hc). split; [done|]. split; [done|].
    assert (state_ s' <> kConnected) as H1.
    { destruct Hc as [[_ ?]|(l & l' & Hl & _)]; [done|]. rewrite He in Hl. by destruct l. }
    assert (state_ s' <> kDisconnecting) as H2.
    { intros Hst. pose proof (proj2 Hi Hst) as Hin. rewrite He in Hin. by apply not_elem_of_nil in Hin. }
    by destruct (state_ s').
Qed.

End Executor.

(** C29. Disconnection completes.  From every state either kind of socket can
    reach, a call of [Disconnect] followed by at most three turns of the
    executor more than were already scheduled leaves the executor idle and the
    socket disconnected, whatever connection attempts and writes were under
    way. *)
Theorem Disconnect_completes {ct : CharType} connection_max data :
  (length data <= 13)%nat ->
  (forall s, socket_reachable (new_client connection_max data) s ->
     exists s', run_jobs (pending (executor_ s) + 3) (Disconnect s) = Done s' /\
                executor_ s' = [] /\ state_ s' = kDisconnected) /\
  (forall s, socket_reachable (new_server connection_max) s ->
     exists s', run_jobs (pending (executor_ s) + 3) (Disconnect s) = Done s' /\
                executor_ s' = [] /\ state_ s' = kDisconnected).
Proof.
  intros Hd. split; intros s Hr; (apply reachable_inv in Hr; [|by apply inv_new_socket]);
    destruct (proj1 (returns_done _ _) (Disconnect_drains s Hr)) as (s' & ? & ? & ? & ?); eauto.
Qed.

#[local] Existing Instance signed_char.

Lemma Disconnect_completes_witness :
  (length [1%Z; 2%Z] <= 13)%nat /\
  exists s, socket_reachable (new_client 20 [1; 2]) s /\ executor_ s <> [] /\
    exists s', run_jobs (pending (executor_ s) + 3) (Disconnect s) = Done s' /\
               executor_ s' = [] /\ state_ s' = kDisconnected.
Proof.
  split; [simpl; lia|].
  destruct (Disconnect_completes 20 [1; 2]) as [Hc _]; [simpl; lia|].
  eexists. split.
  - eapply (reachable_call _ _ call_Connect); [apply reachable_start|exact I|reflexivity].
  - split; [done|]. eapply Hc.
    eapply (reachable_call _ _ call_Connect); [apply reachable_start|exact I|reflexivity].
Defined.

(** * Writing a message *)

Lemma mod8_range x : 0 <= x mod 8 <= 7.
Proof. pose proof (Z.mod_pos_bound x 8). lia. Qed.

Lemma mod8_next x : (x mod 8 + 1) mod 8 = (x + 1) mod 8.
Proof. apply Zplus_mod_idemp_l. Qed.

Lemma deref_front {A} b (x : A) l : deref (MakeDeque b (x :: l)) b = Done x.
Proof. unfold deref. simpl. by rewrite Nat.ltb_irrefl, Nat.sub_diag. Qed.

Section Write.
Context {ct : CharType} {X : Type} `{SocketClass X}.
Context (n : nat) (message : list Z).
Hypothesis Hn : (0 < n)%nat.
Hypothesis Hlen : Z.of_nat (length message) < 2 ^ 31.
Implicit Types s : BaseSocket X.

Local Notation count := (packet_count n (length message)).

(** A connected socket with nothing to send, whose packets carry [n] bytes and
    whose next counter is [c] modulo 8. *)
Definition ready (c : Z) s : Prop :=
  state_ s = kConnected /\ max_packet_size_ s = Z.of_nat n + 1 /\
  current_control_ s = None /\ items (control_request_queue_ s) = [] /\
  current_message_ s = None /\ items (message_request_queue_ s) = [] /\
  packet_counter_generator_ s = MakeGenerator (c mod 8) /\ executor_ s = [].

(** The transmission of the [i]-th piece, by a socket that started at [c]. *)
Definition sent (c : Z) (i : nat) : Output :=
  Transmit (GetBytes (fragment_packet n message ((c + Z.of_nat i) mod 8) i)).

(** The socket [s], ready at [c], after [i] packets of the message. *)
Definition sending (c : Z) (i : nat) s : BaseSocket X :=
  let b := base (message_request_queue_ s) in
  let s := set_next_future s (S (next_future s)) in
  let s := set_message_request_queue s
             (MakeDeque b [request_at n message (pred (next_future s)) i]) in
  let s := set_current_message s (Some b) in
  let s := set_packet_counter_generator s (MakeGenerator ((c + Z.of_nat i) mod 8)) in
  set_output s (output s ++ map (sent c) (seq 0 i)).

Lemma WritePacket_fragment c i s :
  packet_counter_generator_ s = MakeGenerator ((c + Z.of_nat i) mod 8) ->
  WritePacket (Ok (fragment_packet n message 0 i)) s =
    Done (emit (sent c i)
      (set_packet_counter_generator s (MakeGenerator ((c + Z.of_nat (S i)) mod 8)))).
Proof using.
  clear Hn Hlen. intros Hg. unfold WritePacket. rewrite Hg, Next_mod by apply mod8_range.
  unfold fragment_packet at 1. cbn [packet_counter_]. rewrite SetPacketCounter_data by apply mod8_range.
  rewrite done_bind. cbn. unfold sent, fragment_packet. simpl.
  rewrite mod8_next. by replace (c + Z.of_nat (S i)) with (c + Z.of_nat i + 1) by lia.
Qed.

Lemma TryWriteNextMessage_fragment c i s f :
  current_control_ s = None -> items (control_request_queue_ s) = [] ->
  state_ s = kConnected -> max_packet_size_ s = Z.of_nat n + 1 ->
  items (message_request_queue_ s) = [request_at n message f i] ->
  pointer_ok (message_request_queue_ s) (current_message_ s) ->
  packet_counter_generator_ s = MakeGenerator ((c + Z.of_nat i) mod 8) ->
  (i < count)%nat ->
  TryWriteNextMessage s =
    let b := base (message_request_queue_ s) in
    let s := set_current_message s (Some b) in
    let s := set_message_request_queue s (MakeDeque b [request_at n message f (S i)]) in
    Done (emit (sent c i)
      (set_packet_counter_generator s (MakeGenerator ((c + Z.of_nat (S i)) mod 8)))).
Proof using Hn Hlen.
  intros Hcc Hci Hst Hmax Hmi Hp Hg Hi. unfold TryWriteNextMessage, deque_empty, IsConnected.
  rewrite Hcc, Hci, Hst. simpl orb. cbn iota zeta.
  assert (match current_message_ s with
          | None => set_current_message s (front_address (message_request_queue_ s))
          | Some _ => s end
    = set_current_message s (Some (base (message_request_queue_ s)))) as ->.
  { unfold pointer_ok, front_address, deque_empty in *. rewrite Hmi in *. simpl in *.
    destruct s as [? ? ? [a|] ? ? ? ? ? ? ? ? ? ?]; simpl in *; [|done].
    destruct Hp as [?|[_ [= ->]]]; done. }
  fields. destruct (message_request_queue_ s) as [b l] eqn:Hq. simpl in Hmi. subst l. simpl base.
  rewrite deref_front, done_bind, request_at_finished by done. rewrite (proj2 (Nat.leb_gt _ _)) by done. simpl orb. cbn iota.
  rewrite Hmax, NextPacket_fragment by done. rewrite done_bind.
  unfold assign. cbn [base items]. rewrite Nat.sub_diag. simpl insert.
  by rewrite (WritePacket_fragment c) by exact Hg.
Qed.

(** The socket after the whole message has been sent and acknowledged. *)
Definition written (c : Z) s : BaseSocket X :=
  let t := sending c count s in
  let t := set_message_request_queue t (MakeDeque (S (base (message_request_queue_ s))) []) in
  let t := set_current_message t None in
  emit (SetWriteStatus (next_future s) kOk) t.

Lemma TryWriteNextMessage_idle s :
  current_control_ s = None -> items (control_request_queue_ s) = [] ->
  current_message_ s = None -> items (message_request_queue_ s) = [] ->
  TryWriteNextMessage s = Done (set_current_message s None).
Proof.
  intros Hcc Hci Hcm Hmi. unfold TryWriteNextMessage, front_address, deque_empty.
  by rewrite Hcc, Hci, Hcm, Hmi.
Qed.

Lemma sent_snoc c i : map (sent c) (seq 0 (S i)) = map (sent c) (seq 0 i) ++ [sent c i].
Proof. by rewrite seq_S, map_app. Qed.

Lemma run_one_job s s' : executor_ s = [] -> executor_ s' = [] -> forall j,
  run_job j s = Done s' ->
  run_jobs (pending (executor_ (RunOnSocketThread j s))) (RunOnSocketThread j s) = Done s'.
Proof.
  intros He He' j Hj. unfold RunOnSocketThread. fields. rewrite He. simpl app.
  cbn [pending sum_list_with]. rewrite Nat.add_0_r.
  assert (run_next (set_executor s [j]) = Done s') as Hr.
  { unfold run_next. fields. rewrite <- Hj. f_equal. destruct s. simpl in *. by subst. }
  pose proof (fun k => run_jobs_idle k s' He') as Hk.
  destruct j; cbn [turns run_jobs]; rewrite Hr, done_bind;
    first [exact (Hk 0%nat) | exact (Hk 2%nat)].
Qed.

Lemma call_Write_first c s :
  ready c s -> (0 < count)%nat -> call (call_Write message) s = Done (sending c 1 s).
Proof using Hn Hlen.
  intros (Hst & Hmax & Hcc & Hci & Hcm & Hmi & Hg & He) Hc.
  unfold call. cbn [handle_call]. rewrite done_bind. unfold Write. cbn [snd].
  set (s1 := set_next_future s (S (next_future s))).
  apply (run_one_job s1); [exact He|exact He|]. cbn [run_job]. unfold run_TryWriteMessage.
  rewrite (TryWriteNextMessage_fragment c 0 _ (next_future s)); try done; unfold s1; fields.
  - by rewrite Hmi.
  - rewrite Hcm. by left.
  - rewrite Hg. do 2 f_equal. lia.
Qed.

Lemma call_transmit_next c s i :
  ready c s -> (i < count)%nat ->
  call (call_on_transmit kOk) (sending c i s) = Done (sending c (S i) s).
Proof using Hn Hlen.
  intros (Hst & Hmax & Hcc & Hci & Hcm & Hmi & Hg & He) Hi.
  unfold call. cbn [handle_call]. rewrite done_bind. unfold on_transmit. simpl code_ok. cbn iota.
  apply run_one_job; [exact He|exact He|]. cbn [run_job]. unfold run_WriteComplete, finish_write.
  assert (current_control_ (sending c i s) = None) as -> by done.
  assert (current_message_ (sending c i s) = Some (base (message_request_queue_ s))) as -> by done.
  assert (message_request_queue_ (sending c i s) = MakeDeque (base (message_request_queue_ s))
    [request_at n message (next_future s) i]) as -> by done.
  rewrite deref_front, done_bind.
  rewrite request_at_finished, (proj2 (Nat.leb_gt _ _)) by done. rewrite done_bind.
  rewrite (TryWriteNextMessage_fragment c i _ (next_future s)); try done.
  - unfold sending. fields. rewrite sent_snoc, app_assoc. done.
  - right. done.
Qed.

Lemma call_transmit_last c s :
  ready c s -> call (call_on_transmit kOk) (sending c count s) = Done (written c s).
Proof using Hn Hlen.
  intros (Hst & Hmax & Hcc & Hci & Hcm & Hmi & Hg & He).
  unfold call. cbn [handle_call]. rewrite done_bind. unfold on_transmit. simpl code_ok. cbn iota.
  apply run_one_job; [exact He|exact He|]. cbn [run_job]. unfold run_WriteComplete, finish_write.
  assert (current_control_ (sending c count s) = None) as -> by done.
  assert (current_message_ (sending c count s) = Some (base (message_request_queue_ s))) as -> by done.
  assert (message_request_queue_ (sending c count s) = MakeDeque (base (message_request_queue_ s))
    [request_at n message (next_future s) count]) as -> by done.
  rewrite deref_front, done_bind.
  rewrite request_at_finished, (proj2 (Nat.leb_le _ _)) by done.
  set (t := emit _ (sending c count s)).
  assert (message_request_queue_ t = MakeDeque (base (message_request_queue_ s))
    [request_at n message (next_future s) count]) as -> by done.
  rewrite bool_decide_eq_true_2 by done. cbn [deque_empty items length Nat.eqb negb andb].
  change (pop_front _) with (Done (MakeDeque (S (base (message_request_queue_ s)))
    (@nil MessageWriteRequest))). rewrite !done_bind. unfold t.
  by rewrite TryWriteNextMessage_idle.
Qed.

Lemma written_ready c s : ready c s -> ready (c + Z.of_nat count) (written c s).
Proof.
  intros (Hst & Hmax & Hcc & Hci & Hcm & Hmi & Hg & He). repeat split; done.
Qed.

Lemma calls_app cs cs' s s' : calls cs s = Done s' -> calls (cs ++ cs') s = calls cs' s'.
Proof.
  revert s. induction cs as [|c cs IH]; intros s Hc; simpl in *; [by injection Hc as ->|].
  apply bind_done_inv in Hc as (s1 & -> & Hc). rewrite done_bind. auto.
Qed.

Lemma calls_transmit c s k i :
  ready c s -> (i + k <= count)%nat ->
  calls (replicate k (call_on_transmit kOk)) (sending c i s) = Done (sending c (i + k) s).
Proof using Hn Hlen.
  intros Hr. revert i. induction k as [|k IH]; intros i Hk; simpl; [by rewrite Nat.add_0_r|].
  rewrite call_transmit_next by (done || lia). rewrite done_bind, IH by lia.
  by replace (S i + k)%nat with (i + S k)%nat by lia.
Qed.

Lemma calls_Write c s :
  ready c s -> (0 < count)%nat ->
  calls (call_Write message :: replicate count (call_on_transmit kOk)) s = Done (written c s).
Proof using Hn Hlen.
  intros Hr Hc. cbn [calls]. rewrite (call_Write_first c), done_bind by done.
  replace count with ((count - 1) + 1)%nat by lia. rewrite replicate_add.
  rewrite (calls_app _ _ _ (sending c count s)).
  - simpl. by rewrite call_transmit_last.
  - rewrite calls_transmit by (done || lia). by replace (1 + (count - 1))%nat with count by lia.
Qed.

End Write.

(** * Receiving a message *)

(** A socket between two messages that expects the counter [c] modulo 8. *)
Definition listening {X} (c : Z) (s : BaseSocket X) : Prop :=
  packetizer_ s = new_packetizer /\
  remote_packet_counter_generator_ s = MakeGenerator (c mod 8).

(** The packets of a message, from the counter [c] on. *)
Definition fragments (n : nat) (message : list Z) (c : Z) : list (list Z) :=
  map (fun i => GetBytes (fragment_packet n message ((c + Z.of_nat i) mod 8) i))
      (seq 0 (packet_count n (length message))).

(** Calls with no turn of the executor between them. *)
Fixpoint handle_calls {ct : CharType} {X} `{SocketClass X} (cs : list Call) (s : BaseSocket X)
  : outcome (BaseSocket X) :=
  match cs with
  | [] => Done s
  | c :: cs => let! s := handle_call c s in handle_calls cs s
  end.

Section Receive.
Context {ct : CharType} {X : Type} `{SocketClass X}.
Implicit Types s : BaseSocket X.

(** A data packet on arrival, with the counter expected or another one. *)
Lemma on_remote_transmit_data f d first last payload s :
  0 <= d <= 7 ->
  on_remote_transmit f (data_header d first last :: payload) s =
    let '(expected, s) := IsRemotePacketCounterExpected d s in
    if expected
    then OnReceiveDataPacket (MakePacket (data_header d first last :: payload)) s
    else Done (Disconnect s).
Proof.
  intros Hd. destruct (data_header_fields d first last payload Hd) as (_ & _ & H3 & H4 & _).
  unfold on_remote_transmit, FromBytes. cbn [length Nat.eqb]. cbv zeta. rewrite H4.
  destruct (IsRemotePacketCounterExpected d s) as [e s1]. by rewrite H3.
Qed.

Lemma expected_counter c s :
  remote_packet_counter_generator_ s = MakeGenerator (c mod 8) ->
  IsRemotePacketCounterExpected (c mod 8) s =
    (true, set_remote_packet_counter_generator s (MakeGenerator ((c + 1) mod 8))).
Proof.
  intros Hg. unfold IsRemotePacketCounterExpected. rewrite Hg, Next_mod by apply mod8_range.
  simpl packet_counter_. by rewrite Z.eqb_refl, mod8_next.
Qed.

Context (n : nat) (message : list Z).
Hypothesis Hn : (0 < n)%nat.
Local Notation count := (packet_count n (length message)).

(** The [i]-th packet of a message at a socket that has the ones before. *)
Lemma receive_fragment c i s :
  packetizer_ s = packetizer_at n message i ->
  remote_packet_counter_generator_ s = MakeGenerator ((c + Z.of_nat i) mod 8) ->
  (i < count)%nat ->
  handle_call (call_on_remote_transmit
    (GetBytes (fragment_packet n message ((c + Z.of_nat i) mod 8) i))) s =
  let s := set_remote_packet_counter_generator s (MakeGenerator ((c + Z.of_nat (S i)) mod 8)) in
  Done (if (S i =? count)%nat
        then emit (on_receive_cb message) (set_packetizer s new_packetizer)
        else DisconnectInternal kUnavailable
               (set_packetizer s (packetizer_at n message (S i)))).
Proof using Hn.
  intros Hz Hg Hi. cbn [handle_call]. unfold GetBytes, fragment_packet. cbn [bytes_].
  rewrite on_remote_transmit_data by apply mod8_range. rewrite expected_counter by exact Hg.
  unfold OnReceiveDataPacket. fields. rewrite Hz.
  pose proof (AddPacket_fragment n message Hn ((c + Z.of_nat i) mod 8) i (mod8_range _) Hi) as Ha.
  unfold fragment_packet in Ha. rewrite Ha, done_bind. simpl code_ok. cbn [negb].
  replace (c + Z.of_nat i + 1) with (c + Z.of_nat (S i)) by lia. unfold TakeMessage. fields.
  destruct (Nat.eqb_spec (S i) count) as [He|He]; cbn [is_message_complete_ negb pending_payloads_].
  - rewrite (take_count n message Hn (S i)) by lia. done.
  - done.
Qed.

Lemma handles_fragments c k i s :
  packetizer_ s = packetizer_at n message i ->
  remote_packet_counter_generator_ s = MakeGenerator ((c + Z.of_nat i) mod 8) ->
  (i + S k = count)%nat ->
  exists s',
    handle_calls (map call_on_remote_transmit
      (map (fun j => GetBytes (fragment_packet n message ((c + Z.of_nat j) mod 8) j))
           (seq i (S k)))) s = Done s' /\
    output s' = output s ++ replicate k (on_error_cb kUnavailable) ++ [on_receive_cb message] /\
    executor_ s' = executor_ s ++ replicate k Disconnect_job.
Proof using Hn.
  revert i s. induction k as [|k IH]; intros i s Hz Hg Hi; rewrite <- cons_seq, !map_cons; cbn [handle_calls];
    rewrite (receive_fragment c i s Hz Hg) by lia; cbv zeta; rewrite done_bind.
  - rewrite (proj2 (Nat.eqb_eq _ _)) by lia. eexists. split; [done|]. fields. by rewrite app_nil_r.
  - rewrite (proj2 (Nat.eqb_neq _ _)) by lia.
    edestruct (IH (S i)) as (s' & Hs' & Ho & He); [| | |exists s'; split; [exact Hs'|]]; try done; [lia|].
    rewrite Ho, He. unfold DisconnectInternal, Disconnect. fields. by rewrite <- !app_assoc.
Qed.

Lemma WritePacket_control c k r s :
  0 <= k < 16 -> packet_counter_generator_ s = MakeGenerator (c mod 8) ->
  WritePacket (Ok (MakePacket (control_header 0 k :: r))) s =
    Done (emit (Transmit (control_header (c mod 8) k :: r))
      (set_packet_counter_generator s (MakeGenerator ((c + 1) mod 8)))).
Proof using.
  clear Hn. intros Hk Hg. unfold WritePacket. rewrite Hg, Next_mod by apply mod8_range.
  cbn [packet_counter_]. rewrite SetPacketCounter_control by (done || apply mod8_range).
  rewrite done_bind. cbn. by rewrite mod8_next.
Qed.

(** A control packet is sent at once by a socket with empty queues. *)
Lemma TryWriteNextControl_sends c k r s :
  0 <= k < 16 -> current_control_ s = None ->
  items (control_request_queue_ s) = [new_control_request (MakePacket (control_header 0 k :: r))] ->
  packet_counter_generator_ s = MakeGenerator (c mod 8) ->
  TryWriteNextControl s =
    let b := base (control_request_queue_ s) in
    let s := set_current_control s (Some b) in
    let s := set_current_message s None in
    let s := set_message_request_queue s (clear (message_request_queue_ s)) in
    let s := set_control_request_queue s
      (MakeDeque b [MakeControlRequest (MakePacket (control_header 0 k :: r)) true]) in
    Done (emit (Transmit (control_header (c mod 8) k :: r))
      (set_packet_counter_generator s (MakeGenerator ((c + 1) mod 8)))).
Proof using.
  clear Hn. intros Hk Hcc Hci Hg. unfold TryWriteNextControl, front_address, deque_empty.
  rewrite Hcc, Hci. cbn [length Nat.eqb]. fields.
  destruct (control_request_queue_ s) as [b l] eqn:Hq. simpl in Hci. subst l. simpl base.
  rewrite deref_front, done_bind. cbn [ControlPacketWriteRequest_NextPacket is_started_
    new_control_request control_packet_].
  unfold assign. cbn [base items]. rewrite Nat.sub_diag. simpl insert.
  by rewrite (WritePacket_control c) by done.
Qed.

(** A disconnection of a socket with nothing to send, job by job. *)
Definition error_request : ControlPacketWriteRequest :=
  new_control_request (MakePacket [control_header 0 kControlError]).

Lemma run_Disconnect_connected s :
  state_ s = kConnected -> executor_ s = [] ->
  exists s', run_Disconnect s = Done s' /\
    state_ s' = kDisconnecting /\
    executor_ s' = [TryWriteNextControl_job error_request; ResetDisconnectQuietly_job] /\
    control_request_queue_ s' = control_request_queue_ s /\
    current_control_ s' = current_control_ s /\
    packet_counter_generator_ s' = packet_counter_generator_ s /\ output s' = output s.
Proof using.
  clear Hn. intros Hst He. unfold run_Disconnect. rewrite Hst.
  rewrite !bool_decide_eq_false_2 by done. cbn [orb]. rewrite CreateErrorPacket_eq, done_bind.
  eexists. split; [reflexivity|]. unfold DisconnectQuietly, WriteControlPacket. fields.
  by rewrite He.
Qed.

Lemma run_TryWriteNextControl_error d s :
  current_control_ s = None -> items (control_request_queue_ s) = [] ->
  packet_counter_generator_ s = MakeGenerator (d mod 8) ->
  exists s', run_TryWriteNextControl error_request s = Done s' /\
    state_ s' = state_ s /\ executor_ s' = executor_ s /\
    output s' = output s ++ [Transmit [control_header (d mod 8) kControlError]].
Proof using.
  clear Hn. intros Hcc Hci Hg. unfold run_TryWriteNextControl.
  rewrite (TryWriteNextControl_sends d kControlError []); fields; [|done..|by rewrite Hci|done].
  eexists. split; [reflexivity|]. by fields.
Qed.

Lemma run_Reset_disconnecting s :
  state_ s = kDisconnecting ->
  let s' := run_ResetDisconnectQuietly s in
  state_ s' = kDisconnected /\ executor_ s' = executor_ s /\ packetizer_ s' = new_packetizer /\
  output s' = output s ++ [on_disconnected_cb].
Proof using.
  clear Hn. intros Hst. unfold run_ResetDisconnectQuietly. rewrite Hst.
  by rewrite bool_decide_eq_true_2.
Qed.

Lemma Disconnect_ready m d s :
  ready m d s ->
  exists s', run_jobs 3 (Disconnect s) = Done s' /\
    state_ s' = kDisconnected /\ executor_ s' = [] /\ packetizer_ s' = new_packetizer /\
    output s' = output s ++ [Transmit [control_header (d mod 8) kControlError]; on_disconnected_cb].
Proof using.
  clear Hn. intros (Hst & Hmax & Hcc & Hci & Hcm & Hmi & Hg & He).
  rewrite (run_jobs_step _ _ Disconnect_job []) by (unfold Disconnect; fields; by rewrite He).
  cbn [run_job].
  destruct (run_Disconnect_connected (set_executor (Disconnect s) []))
    as (s1 & -> & Hst1 & He1 & Hq1 & Hc1 & Hg1 & Ho1); [done|done|]. rewrite done_bind.
  rewrite (run_jobs_step _ _ _ _ He1). cbn [run_job].
  destruct (run_TryWriteNextControl_error d (set_executor s1 [ResetDisconnectQuietly_job]))
    as (s2 & -> & Hst2 & He2 & Ho2); fields; [by rewrite Hc1|by rewrite Hq1|by rewrite Hg1|].
  rewrite done_bind, (run_jobs_step _ _ _ _ He2). cbn [run_job run_jobs]. rewrite done_bind.
  destruct (run_Reset_disconnecting (set_executor s2 [])) as (Hst3 & He3 & Hz3 & Ho3);
    [fields; by rewrite Hst2|].
  eexists. split; [reflexivity|]. split; [done|]. split; [done|]. split; [done|].
  fields. rewrite Ho3, Ho2, Ho1. unfold Disconnect. fields. by rewrite <- app_assoc.
Qed.

(** A disconnected socket answers later packets of the message with errors. *)
Definition is_error (o : Output) : Prop := match o with on_error_cb _ => True | _ => False end.

Lemma call_stray d payload last s :
  0 <= d <= 7 -> state_ s = kDisconnected -> executor_ s = [] -> packetizer_ s = new_packetizer ->
  exists s' code,
    call (call_on_remote_transmit (data_header d false last :: payload)) s = Done s' /\
    state_ s' = kDisconnected /\ executor_ s' = [] /\ packetizer_ s' = new_packetizer /\
    output s' = output s ++ [on_error_cb code].
Proof using.
  clear Hn. intros Hd Hst He Hz. unfold call. cbn [handle_call].
  rewrite on_remote_transmit_data by done.
  assert (forall t code, state_ t = kDisconnected -> executor_ t = [Disconnect_job] ->
    packetizer_ t = new_packetizer -> output t = output s ++ [on_error_cb code] ->
    exists s' code, run_jobs (pending (executor_ t)) t = Done s' /\
      state_ s' = kDisconnected /\ executor_ s' = [] /\ packetizer_ s' = new_packetizer /\
      output s' = output s ++ [on_error_cb code]) as Hrun.
  { intros t code H1 H2 H3 H4. rewrite H2. exists (set_executor t []), code.
    cbn [pending sum_list_with turns Nat.add]. rewrite (run_jobs_step _ _ _ _ H2).
    cbn [run_job]. unfold run_Disconnect. fields. rewrite H1.
    rewrite (bool_decide_eq_true_2 (kDisconnected = kDisconnected)), orb_true_r by done.
    by rewrite done_bind, run_jobs_idle. }
  unfold IsRemotePacketCounterExpected. destruct (Next _) as [e g].
  destruct (d =? e) eqn:Hde.
  - destruct (data_header_fields d false last payload Hd) as (H1 & _).
    unfold OnReceiveDataPacket, AddPacket. fields. rewrite Hz, H1. simpl.
    apply (Hrun (DisconnectInternal kInvalidArgument (set_packetizer
      (set_remote_packet_counter_generator s g) new_packetizer)) kInvalidArgument);
      unfold DisconnectInternal, Disconnect; fields; try done. by rewrite He.
  - rewrite done_bind. eapply (Hrun _ kDataLoss); unfold Disconnect; fields; try done. by rewrite He.
Qed.

Lemma calls_stray c k i s :
  state_ s = kDisconnected -> executor_ s = [] -> packetizer_ s = new_packetizer ->
  exists s' errors,
    calls (map call_on_remote_transmit
      (map (fun j => GetBytes (fragment_packet n message ((c + Z.of_nat j) mod 8) j))
           (seq (S i) k))) s = Done s' /\
    state_ s' = kDisconnected /\ output s' = output s ++ errors /\ Forall is_error errors.
Proof using.
  clear Hn. revert i s. induction k as [|k IH]; intros i s Hst He Hz.
  { exists s, []. by rewrite app_nil_r. }
  rewrite <- cons_seq, !map_cons. cbn [calls].
  destruct (call_stray ((c + Z.of_nat (S i)) mod 8) (fragment n message (S i))
    (S (S i) =? count)%nat s) as (s1 & code & Hc & H1 & H2 & H3 & H4); try done; [apply mod8_range|].
  change (GetBytes (fragment_packet n message ((c + Z.of_nat (S i)) mod 8) (S i))) with (data_header ((c + Z.of_nat (S i)) mod 8) false
    (S (S i) =? count)%nat :: fragment n message (S i)).
  rewrite Hc, done_bind. destruct (IH (S i) s1 H1 H2 H3) as (s' & errors & Hs' & ? & Ho & Hf).
  exists s', (on_error_cb code :: errors). split; [exact Hs'|]. split; [done|]. split.
  - by rewrite Ho, H4, <- app_assoc.
  - by constructor.
Qed.

End Receive.

(** * Properties of transfers *)

(** Two sockets after a handshake with packets of five bytes, for the
    examples. *)
Definition linked_client : BaseSocket ClientSocket :=
  MakeSocket empty_deque empty_deque None None kConnected 5 new_packetizer
    new_generator new_generator [] 20 (MakeClient kStateHandshakeCompleted []) 0 [].
Definition linked_server : BaseSocket ServerSocket :=
  MakeSocket empty_deque empty_deque None None kConnected 5 new_packetizer
    new_generator new_generator [] 5 (MakeServer kHandshakeCompleted 5) 0 [].

(** C30. A written message is sent, if it is not empty, is shorter than 2^31 bytes and
    the packets of the socket have room for a byte of it.  On a connected socket with
    nothing to send, a call of [Write] followed by one successful transmission report for each
    packet transmits exactly the packets of the message, in order and with
    consecutive counters modulo 8, then sets the future of the call to success,
    and leaves the socket connected with nothing to send and the counter
    advanced by the number of packets.  An empty message is never sent, its future
    is never set and the socket sends nothing after it (Write_empty_blocks). *)
Theorem Write_sends_message {ct : CharType} {X} `{SocketClass X} n message c (s : BaseSocket X) :
  (0 < n)%nat -> message <> [] -> Z.of_nat (length message) < 2 ^ 31 -> ready n c s ->
  let count := packet_count n (length message) in
  exists s',
    calls (call_Write message :: replicate count (call_on_transmit kOk)) s = Done s' /\
    output s' = output s ++ map Transmit (fragments n message c)
                         ++ [SetWriteStatus (next_future s) kOk] /\
    ready n (c + Z.of_nat count) s'.
Proof.
  intros Hn Hm Hlen Hr count. exists (written n message c s).
  split; [apply calls_Write; auto using count_pos|].
  split; [|by apply written_ready].
  unfold written, sending, fragments. fields. rewrite map_map, <- app_assoc. done.
Qed.

Lemma Write_sends_message_witness :
  ready 4 0 linked_client /\
  exists s',
    calls (call_Write [1; 2; 3; 4; 5] :: replicate 2 (call_on_transmit kOk)) linked_client
      = Done s' /\
    output s' = [] ++ map Transmit [[8; 1; 2; 3; 4]; [20; 5]] ++ [SetWriteStatus 0 kOk] /\
    ready 4 2 s'.
Proof.
  split; [by repeat split|].
  apply (Write_sends_message 4 [1; 2; 3; 4; 5] 0 linked_client);
    [lia|done|simpl; lia|by repeat split].
Defined.

(** Delivery between two sockets.  When the sender is connected with
    nothing to send and the receiver expects its counter, a message that fits
    one packet is transmitted as one packet, and the receiver of that packet
    hands exactly the message to its user, reports no error, and expects the
    next counter. *)
Theorem Message_delivered {ct : CharType} {X Y} `{SocketClass X} `{SocketClass Y} n message c
    (s : BaseSocket X) (t : BaseSocket Y) :
  message <> [] -> (length message <= n)%nat -> Z.of_nat n < 2 ^ 31 -> ready n c s ->
  listening c t -> executor_ t = [] ->
  exists s' packet t',
    call (call_Write message) s = Done s' /\ output s' = output s ++ [Transmit packet] /\
    call (call_on_remote_transmit packet) t = Done t' /\
    output t' = output t ++ [on_receive_cb message] /\
    listening (c + 1) t' /\ executor_ t' = [].
Proof.
  intros Hm Hl Hn31 Hr [Hz Hg] He.
  assert (0 < length message)%nat as Hpos by (destruct message; [done|simpl; lia]).
  assert (0 < n)%nat as Hn by lia.
  assert (packet_count n (length message) = 1%nat) as Hc.
  { pose proof (count_pos n message Hn Hm).
    destruct (Nat.eq_dec (packet_count n (length message)) 1%nat) as [|Hne]; [done|].
    assert (1 < packet_count n (length message))%nat as Hlt by lia.
    apply packet_count_spec in Hlt; lia. }
  exists (sending n message c 1 s). eexists. eexists. split; [apply call_Write_first; auto; lia|].
  split; [done|]. unfold call. rewrite (receive_fragment n message Hn c 0); try lia.
  - rewrite Hc, done_bind. cbn [Nat.eqb].
    rewrite run_jobs_idle by exact He. split; [done|]. split; [done|]. split; [|exact He].
    split; [done|]. fields. do 2 f_equal.
  - done.
  - rewrite Hg. do 2 f_equal. lia.
Qed.

Lemma Message_delivered_witness :
  ready 4 0 linked_client /\ listening 0 linked_server /\
  exists s' packet t',
    call (call_Write [7; 8; 9]) linked_client = Done s' /\
    output s' = [] ++ [Transmit packet] /\
    call (call_on_remote_transmit packet) linked_server = Done t' /\
    output t' = [] ++ [on_receive_cb [7; 8; 9]] /\
    listening (0 + 1) t' /\ executor_ t' = [].
Proof.
  split; [by repeat split|]. split; [by repeat split|].
  apply (Message_delivered 4 [7; 8; 9] 0 linked_client linked_server);
    [done|simpl; lia|lia|by repeat split|by repeat split|done].
Defined.

(** A message of more than one packet ends the receiver's connection.  The
    packets of such a message arrive in order, with the expected counters, at a
    connected socket.  If the executor runs between them, the first packet is
    reported as the error [kUnavailable], an error packet is sent, the socket
    disconnects, and every later packet is only reported as an error: the
    message is not received.  If they all arrive before the executor runs, the
    message is received, but with an error reported and a disconnection
    scheduled for every packet except the last. *)
Theorem Fragments_disconnect {ct : CharType} {X} `{SocketClass X} n message c d (t : BaseSocket X) :
  (0 < n)%nat -> (n < length message)%nat -> ready n d t -> listening c t ->
  (exists t' errors,
     calls (map call_on_remote_transmit (fragments n message c)) t = Done t' /\
     state_ t' = kDisconnected /\ Forall is_error errors /\
     output t' = output t ++ [on_error_cb kUnavailable;
       Transmit [control_header (d mod 8) kControlError]; on_disconnected_cb] ++ errors) /\
  (exists t',
     let count := packet_count n (length message) in
     handle_calls (map call_on_remote_transmit (fragments n message c)) t = Done t' /\
     output t' = output t ++ replicate (count - 1) (on_error_cb kUnavailable)
                          ++ [on_receive_cb message] /\
     executor_ t' = replicate (count - 1) Disconnect_job).
Proof.
  intros Hn Hl Hr [Hz Hg].
  assert (1 < packet_count n (length message))%nat as Hc by (apply packet_count_spec; lia).
  assert (remote_packet_counter_generator_ t = MakeGenerator ((c + Z.of_nat 0) mod 8)) as Hg0
    by (rewrite Hg; do 2 f_equal; lia).
  set (count := packet_count n (length message)) in *. split.
  - unfold fragments. fold count.
    assert (seq 0 count = 0%nat :: seq 1 (count - 1)) as -> by (rewrite cons_seq; f_equal; lia).
    rewrite !map_cons. cbn [calls]. unfold call at 1.
    rewrite (receive_fragment n message Hn c 0 t) by (done || lia). fold count. cbv zeta.
    rewrite (proj2 (Nat.eqb_neq 1 count)), done_bind by lia. unfold DisconnectInternal.
    set (t1 := emit _ _).
    assert (ready n d t1) as Hr1.
    { destruct Hr as (? & ? & ? & ? & ? & ? & ? & ?). by repeat split. }
    destruct (Disconnect_ready n d t1 Hr1) as (t2 & Hrun & Hst & He & Hz2 & Ho).
    assert (pending (executor_ (Disconnect t1)) = 3%nat) as ->.
    { unfold Disconnect. fields. destruct Hr1 as (_ & _ & _ & _ & _ & _ & _ & ->). done. }
    rewrite Hrun, done_bind.
    destruct (calls_stray n message c (count - 1) 0 t2 Hst He Hz2) as (t' & errors & Hcs & ? & Ho' & ?).
    exists t', errors. split; [exact Hcs|]. split; [done|]. split; [done|].
    rewrite Ho', Ho. unfold t1. fields. by rewrite <- !app_assoc.
  - edestruct (handles_fragments n message Hn c (count - 1) 0 t) as (t' & Hh & Ho & He);
      [done|done|lia|]. exists t'.
    destruct Hr as (_ & _ & _ & _ & _ & _ & _ & Hex). rewrite Hex in He.
    unfold fragments. fold count. replace (S (count - 1)) with count in Hh by lia. done.
Qed.

Lemma Fragments_disconnect_witness :
  ready 4 0 linked_server /\ listening 0 linked_server /\
  (exists t' errors,
     calls (map call_on_remote_transmit (fragments 4 [1; 2; 3; 4; 5] 0)) linked_server = Done t' /\
     state_ t' = kDisconnected /\ Forall is_error errors /\
     output t' = [] ++ [on_error_cb kUnavailable;
       Transmit [control_header (0 mod 8) kControlError]; on_disconnected_cb] ++ errors) /\
  (exists t',
     handle_calls (map call_on_remote_transmit (fragments 4 [1; 2; 3; 4; 5] 0)) linked_server = Done t' /\
     output t' = [] ++ replicate 1 (on_error_cb kUnavailable) ++ [on_receive_cb [1; 2; 3; 4; 5]] /\
     executor_ t' = replicate 1 Disconnect_job).
Proof.
  split; [by repeat split|]. split; [by repeat split|].
  apply (Fragments_disconnect 4 [1; 2; 3; 4; 5] 0 0 linked_server);
    [lia|simpl; lia|by repeat split|by repeat split].
Defined.

(** * Transfers that stall *)

(** The socket holds a message with nothing left to send, and will not look
    past it. *)
Definition blocked {X} (s : BaseSocket X) : Prop :=
  current_control_ s = None /\ items (control_request_queue_ s) = [] /\ executor_ s = [] /\
  exists r l, items (message_request_queue_ s) = r :: l /\ IsFinished r = true /\
    current_message_ s = Some (base (message_request_queue_ s)).

Section Blocked.
Context {ct : CharType} {X : Type} `{SocketClass X}.
Implicit Types s : BaseSocket X.

Lemma TryWriteNextMessage_finished s r l :
  current_control_ s = None -> items (control_request_queue_ s) = [] ->
  items (message_request_queue_ s) = r :: l -> IsFinished r = true ->
  pointer_ok (message_request_queue_ s) (current_message_ s) ->
  TryWriteNextMessage s = Done (set_current_message s (Some (base (message_request_queue_ s)))).
Proof.
  intros Hcc Hci Hmi Hf Hp. unfold TryWriteNextMessage, deque_empty. rewrite Hcc, Hci. simpl orb.
  cbn iota zeta.
  assert (match current_message_ s with
          | None => set_current_message s (front_address (message_request_queue_ s))
          | Some _ => s end
    = set_current_message s (Some (base (message_request_queue_ s)))) as ->.
  { unfold pointer_ok, front_address, deque_empty in *. rewrite Hmi in *. simpl in *.
    destruct s as [? ? ? [a|] ? ? ? ? ? ? ? ? ? ?]; simpl in *; [|done].
    destruct Hp as [?|[_ [= ->]]]; done. }
  fields. destruct (message_request_queue_ s) as [b q] eqn:Hq. simpl in Hmi. subst q. simpl base.
  by rewrite deref_front, done_bind, Hf.
Qed.

(** A message written behind a blocked one is only queued. *)
Lemma call_Write_queued m s r l :
  current_control_ s = None -> items (control_request_queue_ s) = [] -> executor_ s = [] ->
  items (message_request_queue_ s) ++ [new_request m (next_future s)] = r :: l ->
  IsFinished r = true -> pointer_ok (message_request_queue_ s) (current_message_ s) ->
  exists s', call (call_Write m) s = Done s' /\ blocked s' /\
    output s' = output s /\ state_ s' = state_ s.
Proof.
  intros Hcc Hci He Hmi Hf Hp. unfold call. cbn [handle_call]. rewrite done_bind. unfold Write. cbn [snd].
  eexists. split.
  - apply run_one_job; [exact He| |cbn [run_job]; unfold run_TryWriteMessage].
    2: { apply (TryWriteNextMessage_finished _ r l); try done. fields. by apply pointer_ok_push. }
    exact He.
  - split; [|done]. split_and!; try done. by exists r, l.
Qed.

End Blocked.

(** An empty message blocks the socket.  On a connected socket with nothing
    to send, a call of [Write] with an empty message and any calls of [Write]
    after it transmit nothing and set no future, although the socket stays
    connected. *)
Theorem Write_empty_blocks {ct : CharType} {X} `{SocketClass X} n c messages (s : BaseSocket X) :
  ready n c s ->
  exists s', calls (call_Write [] :: map call_Write messages) s = Done s' /\
    state_ s' = kConnected /\ output s' = output s.
Proof.
  intros (Hst & Hmax & Hcc & Hci & Hcm & Hmi & Hg & He). cbn [calls].
  destruct (call_Write_queued [] s (new_request [] (next_future s)) []) as (s1 & -> & Hb & Ho & Hs1);
    try done; [by rewrite Hmi|rewrite Hcm; by left|].
  rewrite done_bind, <- Ho. rewrite <- Hs1 in Hst. clear -Hb Hst. revert s1 Hb Hst.
  induction messages as [|m ms IH]; intros s1 Hb Hst; cbn [map calls]; [eauto|].
  destruct Hb as (Hcc & Hci & He & r & l & Hi & Hf & Hc).
  destruct (call_Write_queued m s1 r (l ++ [new_request m (next_future s1)]))
    as (s2 & -> & Hb2 & Ho2 & Hs2); try done.
  - by rewrite Hi.
  - right. rewrite Hc. split; [done|]. unfold front_address, deque_empty. by rewrite Hi.
  - rewrite done_bind, <- Ho2. apply IH; [done|by rewrite Hs2].
Qed.

Lemma Write_empty_blocks_witness :
  ready 4 0 linked_client /\
  exists s', calls [call_Write []; call_Write [1; 2]; call_Write [3]] linked_client = Done s' /\
    state_ s' = kConnected /\ output s' = [].
Proof.
  split; [by repeat split|].
  apply (Write_empty_blocks 4 0 [[1; 2]; [3]] linked_client). by repeat split.
Defined.

Lemma run_Reset_quiet {ct : CharType} {X} `{SocketClass X} (s : BaseSocket X) :
  state_ s = kConnected -> executor_ s = [] ->
  exists s', run_jobs (pending (executor_ (DisconnectQuietly s))) (DisconnectQuietly s) = Done s' /\
    state_ s' = kDisconnected /\ output s' = output s.
Proof.
  intros Hst He. unfold DisconnectQuietly. fields. rewrite He. simpl app.
  cbn [pending sum_list_with turns Nat.add].
  rewrite (run_jobs_step _ _ ResetDisconnectQuietly_job []) by (fields; by rewrite He).
  fields. cbn [run_job run_jobs]. rewrite done_bind. eexists. split; [reflexivity|].
  unfold run_ResetDisconnectQuietly. fields. rewrite Hst. by rewrite bool_decide_eq_false_2.
Qed.

(** A disconnection by the other side is not reported.  A connected client
    or server socket that receives an error packet with the expected counter,
    or whose connection reports its end, becomes disconnected without calling
    the user's [on_disconnected_cb], or any other callback. *)
Theorem Remote_disconnect_silent {ct : CharType} c (s : BaseSocket ClientSocket) (t : BaseSocket ServerSocket) :
  state_ s = kConnected -> executor_ s = [] -> listening c s ->
  state_ t = kConnected -> executor_ t = [] -> listening c t ->
  let error_packet := [control_header (c mod 8) kControlError] in
  (forall call_, call_ = call_on_disconnected \/ call_ = call_on_remote_transmit error_packet ->
   (exists s', call call_ s = Done s' /\ state_ s' = kDisconnected /\ output s' = output s) /\
   (exists t', call call_ t = Done t' /\ state_ t' = kDisconnected /\ output t' = output t)).
Proof.
  intros Hs Hes [_ Hgs] Ht Het [_ Hgt] error_packet call_ [-> | ->]; (split; unfold call; cbn [handle_call]).
  1, 2: rewrite done_bind; by apply run_Reset_quiet.
  all: unfold on_remote_transmit, error_packet; cbn [length Nat.eqb FromBytes];
    destruct (control_header_fields (c mod 8) kControlError [] (mod8_range c) ltac:(done))
      as (H1 & H2 & H3 & _); unfold FromBytes; cbn [length Nat.eqb]; rewrite H3;
    rewrite expected_counter by done; rewrite H1;
    cbn [OnReceiveControlPacket client_class server_class];
    unfold ClientSocket_OnReceiveControlPacket, ServerSocket_OnReceiveControlPacket;
    rewrite H2; simpl (_ =? _); cbn iota; rewrite done_bind;
    first [exact (run_Reset_quiet (set_remote_packet_counter_generator s _) Hs Hes)
          | exact (run_Reset_quiet (set_remote_packet_counter_generator t _) Ht Het)].
Qed.

Lemma Remote_disconnect_silent_witness :
  (exists s', call call_on_disconnected linked_client = Done s' /\ state_ s' = kDisconnected /\
     output s' = []) /\
  (exists t', call call_on_disconnected linked_server = Done t' /\ state_ t' = kDisconnected /\
     output t' = []).
Proof.
  apply (Remote_disconnect_silent 0 linked_client linked_server); try done. by left.
Defined.
