(* ===== verification/WeaveHandshake.v ===== *)
(** The handshake between a Weave client and server socket: the fields of the
    connection request and confirm packets, the run of both sides to a
    connection with the smaller of the two packet sizes, and the packet sizes
    whose low byte the sockets read with a sign where [char] is signed. *)

From Stdlib Require Import ZArith Lia.
From stdpp Require Import base list numbers.
From S2P Require Import Prelude.
From S2P Require Import CppBase.
From S2P Require Import WeavePacket.
From S2P Require Import WeavePacketizer.
From S2P Require Import WeaveSocket.
From S2P Require Import WeaveSockets.
From S2P Require Import WeaveSocketSafety.
From S2P Require Import WeaveSocketRun.

Import Packet PacketSequenceNumberGenerator Packetizer MessageWriteRequest ControlPacketWriteRequest.
Import WeaveClient WeaveServer.
Open Scope Z_scope.
Open Scope fp_scope.

(** * Definitions *)

(** A value of a 16 bit field that two [char]s carry: where [char] is signed,
    the low byte has to be below 128. *)
Definition readable {ct : CharType} (v : Z) : Prop :=
  0 <= v < 32768 /\ (char_is_signed = true -> v mod 256 < 128).

(** The bytes of the packets of the handshake, as the first packet of a side. *)
Definition request_packet (size : Z) (data : list Z) : list Z :=
  control_header 0 kControlConnectionRequest :: be16 1 ++ be16 1 ++ be16 size ++ data.
Definition confirm_packet (size : Z) : list Z :=
  control_header 0 kControlConnectionConfirm :: be16 1 ++ be16 size.

(** * Fields *)

Lemma char_small {ct : CharType} x : 0 <= x < 128 -> char_int x = x.
Proof.
  intros Hx. unfold char_int, s8. rewrite u8_id by (unfold is_byte; lia).
  rewrite (proj2 (Z.ltb_lt _ _)) by lia. by destruct char_is_signed.
Qed.

Lemma char_large {ct : CharType} x :
  char_is_signed = true -> 128 <= x < 256 -> char_int x = x - 256.
Proof.
  intros Hs Hx. unfold char_int, s8. rewrite Hs, u8_id by (unfold is_byte; lia).
  by rewrite (proj2 (Z.ltb_ge _ _)) by lia.
Qed.

Lemma u8_mod v : u8 v = v mod 256.
Proof. reflexivity. Qed.

Lemma high_byte {ct : CharType} v : 0 <= v < 32768 -> char_int (u8 (v / 256)) = v / 256.
Proof.
  intros Hv. assert (0 <= v / 256 < 128) by (Z.to_euclidean_division_equations; lia).
  rewrite u8_id by (unfold is_byte; lia). by apply char_small.
Qed.

Lemma two_chars_at {ct : CharType} pre v rest :
  0 <= v < 32768 ->
  two_chars (pre ++ be16 v ++ rest) (length pre) =
    Done (Z.lor (Z.shiftl (char_int (u8 (v / 256))) 8) (char_int (u8 v))).
Proof.
  intros Hv. unfold two_chars.
  rewrite (load_done (pre ++ be16 v ++ rest) (length pre) (u8 (v / 256)))
    by (by rewrite lookup_app_r, Nat.sub_diag by lia).
  rewrite done_bind, (load_done (pre ++ be16 v ++ rest) (length pre + 1) (u8 v)).
  { rewrite done_bind, char_shift_nonneg; [done|]. rewrite high_byte by done. Z.to_euclidean_division_equations. lia. }
  rewrite lookup_app_r by lia. by replace (length pre + 1 - length pre)%nat with 1%nat by lia.
Qed.

Lemma low_byte {ct : CharType} v : readable v -> char_int (u8 v) = v mod 256.
Proof.
  intros [Hv Hl]. rewrite u8_mod. pose proof (Z.mod_pos_bound v 256).
  destruct char_is_signed eqn:Hs.
  - specialize (Hl eq_refl). apply char_small. lia.
  - unfold char_int. rewrite Hs. apply u8_id. unfold is_byte. lia.
Qed.

Lemma two_chars_readable {ct : CharType} pre v rest :
  readable v -> two_chars (pre ++ be16 v ++ rest) (length pre) = Done v.
Proof.
  intros Hv. rewrite two_chars_at, (low_byte v) by (done || apply Hv). destruct Hv as [Hv _]. rewrite high_byte by done.
  pose proof (Z.mod_pos_bound v 256). rewrite lor_shiftl_low by lia. f_equal.
  Z.to_euclidean_division_equations. lia.
Qed.

(** A low byte from 128 on is sign extended over the high byte. *)
Lemma lor_negative_low a b : -128 <= b < 0 -> Z.lor (Z.shiftl a 8) b = b.
Proof.
  intros Hb. apply Z.bits_inj'. intros m Hm. rewrite Z.lor_spec.
  destruct (Z.lt_ge_cases m 8); [by rewrite Z.shiftl_spec_low|].
  replace b with (Z.lnot (- b - 1)) by (unfold Z.lnot; lia).
  rewrite Z.lnot_spec by lia.
  replace (Z.testbit (- b - 1) m) with false; [by rewrite orb_true_r|].
  symmetry. rewrite <- (Z.mod_small (- b - 1) (2 ^ 8)) by lia. apply Z.mod_pow2_bits_high. lia.
Qed.

Lemma two_chars_signed {ct : CharType} pre v rest :
  char_is_signed = true -> 0 <= v < 32768 -> 128 <= v mod 256 ->
  two_chars (pre ++ be16 v ++ rest) (length pre) = Done (v mod 256 - 256).
Proof.
  intros Hsg Hv Hl. pose proof (Z.mod_pos_bound v 256).
  rewrite two_chars_at, (u8_mod v), (char_large (v mod 256)) by (done || lia).
  by rewrite lor_negative_low by lia.
Qed.

Lemma land_client v : Z.land v (s16 65535) = v.
Proof. change (s16 65535) with (-1). apply Z.land_m1_r. Qed.

Lemma land_server v : 0 <= v < 65536 -> Z.land v 65535 = v.
Proof. intros Hv. change 65535 with (Z.ones 16). rewrite Z.land_ones, Z.mod_small by lia. done. Qed.

Lemma s16_id v : 0 <= v < 32768 -> s16 v = v.
Proof. intros Hv. unfold s16. rewrite u16_id by lia. by rewrite (proj2 (Z.ltb_lt _ _)) by lia. Qed.

Lemma substr_rest (a b : list Z) : substr (a ++ b) (Z.of_nat (length a)) (Z.of_nat (length (a ++ b))) = Done b.
Proof.
  unfold substr. rewrite length_app. rewrite !(proj2 (Z.leb_le _ _)) by lia. cbn [andb].
  rewrite !Nat2Z.id, drop_app_length. f_equal. apply take_ge. lia.
Qed.

(** * The client *)

(** The client that has sent its request. *)
Definition requested (C : Z) (data : list Z) : BaseSocket ClientSocket :=
  MakeSocket (MakeDeque 0 [MakeControlRequest (MakePacket (request_packet (s16 C) data)) true])
    empty_deque (Some 0%nat) None kDisconnected C new_packetizer (MakeGenerator 1) new_generator []
    C (MakeClient kStateServerConfirm data) 0 [Transmit (request_packet (s16 C) data)].

(** The same client after the report that the request was transmitted. *)
Definition awaiting (C : Z) (data : list Z) : BaseSocket ClientSocket :=
  MakeSocket (MakeDeque 1 []) empty_deque None None kDisconnected C new_packetizer
    (MakeGenerator 1) new_generator [] C (MakeClient kStateServerConfirm data) 0
    [Transmit (request_packet (s16 C) data)].

(** The client connected with the packet size [v]. *)
Definition connected_with (C v : Z) (data : list Z) : BaseSocket ClientSocket :=
  MakeSocket (MakeDeque 1 []) empty_deque None None kConnected v new_packetizer
    (MakeGenerator 1) (MakeGenerator 1) [] C (MakeClient kStateHandshakeCompleted data) 0
    [Transmit (request_packet (s16 C) data); on_connected_cb].

Lemma call_Connect_requests {ct : CharType} C data :
  (length data <= 13)%nat -> call call_Connect (new_client C data) = Done (requested C data).
Proof.
  intros Hd. unfold call. cbn [handle_call Connect client_class]. unfold ClientSocket_Connect, new_client, new_socket. fields. cbn [client_state initial_data].
  rewrite bool_decide_eq_true_2 by done. cbn [negb]. unfold set_state_, set_client_state. fields.
  cbn [initial_data]. rewrite CreateConnectionRequestPacket_eq, done_bind by done.
  by destruct ct as [[|] ?].
Qed.

Lemma call_transmit_request {ct : CharType} C data :
  call (call_on_transmit kOk) (requested C data) = Done (awaiting C data).
Proof. by destruct ct as [[|] ?]. Qed.

(** The confirmation with a size the client reads as [v]. *)
Lemma ClientSocket_confirmed {ct : CharType} size v (s : BaseSocket ClientSocket) :
  client_state (derived s) = kStateServerConfirm ->
  two_chars (be16 1 ++ be16 size) 2 = Done v -> v <= connection_max s ->
  ClientSocket_OnReceiveControlPacket (MakePacket (confirm_packet size)) s =
    Done (OnConnected v (set_state_ kStateHandshakeCompleted s)).
Proof.
  intros Hs Hv HC. destruct (control_header_fields 0 kControlConnectionConfirm
    (be16 1 ++ be16 size) ltac:(lia) ltac:(done)) as (_ & H2 & _ & H4).
  unfold ClientSocket_OnReceiveControlPacket, confirm_packet. rewrite H2, H4, Hs.
  rewrite bool_decide_eq_true_2 by done. change (kControlConnectionConfirm =? kControlError) with false.
  rewrite Z.eqb_refl. cbn [negb]. rewrite done_bind.
  change (length (be16 1 ++ be16 size) <? kConnectionConfirmPacketMinLength)%nat with false.
  change (kConnectionConfirmPacketMinLength <? length (be16 1 ++ be16 size))%nat with false.
  assert (two_chars (be16 1 ++ be16 size) 0 = Done 1) as -> by (by destruct ct as [[|] ?]).
  rewrite done_bind, land_client, Z.eqb_refl. cbn [negb]. rewrite Hv, done_bind, land_client.
  by rewrite (proj2 (Z.ltb_ge _ _)) by done.
Qed.

Lemma call_confirmed {ct : CharType} C data size v :
  two_chars (be16 1 ++ be16 size) 2 = Done v -> v <= C ->
  call (call_on_remote_transmit (confirm_packet size)) (awaiting C data) =
    Done (connected_with C v data).
Proof.
  intros Hv HC. unfold call. cbn [handle_call]. unfold on_remote_transmit, FromBytes.
  change (length (confirm_packet size) =? 0)%nat with false. cbn iota zeta.
  destruct (control_header_fields 0 kControlConnectionConfirm (be16 1 ++ be16 size)
    ltac:(lia) ltac:(done)) as (H1 & _ & H3 & _).
  unfold confirm_packet at 1 2. rewrite H1, H3.
  change (IsRemotePacketCounterExpected 0 (awaiting C data)) with
    (true, set_remote_packet_counter_generator (awaiting C data) (MakeGenerator 1)). cbn iota.
  cbn [OnReceiveControlPacket client_class].
  rewrite (ClientSocket_confirmed size v) by done. by destruct ct as [[|] ?].
Qed.

(** * The server *)

(** What the server's user is given of the initial data. *)
Definition initial_received (data : list Z) : list Output :=
  match data with [] => [] | _ => [on_receive_cb data] end.

(** The packet size the server settles on when it reads [size] in the request. *)
Definition selected (S size : Z) : Z := if size =? 0 then S else Z.min S size.

(** The server that has confirmed a connection, and the same server after the
    report that the confirmation was transmitted. *)
Definition confirmed (S m : Z) (data : list Z) : BaseSocket ServerSocket :=
  MakeSocket (MakeDeque 0 [MakeControlRequest (MakePacket (confirm_packet (s16 m))) true])
    empty_deque (Some 0%nat) None kConnected m new_packetizer (MakeGenerator 1) (MakeGenerator 1) []
    S (MakeServer kHandshakeCompleted m) 0
    (initial_received data ++ [Transmit (confirm_packet (s16 m)); on_connected_cb]).
Definition server_accepted (S m : Z) (data : list Z) : BaseSocket ServerSocket :=
  MakeSocket (MakeDeque 1 []) empty_deque None None kConnected m new_packetizer
    (MakeGenerator 1) (MakeGenerator 1) [] S (MakeServer kHandshakeCompleted m) 0
    (initial_received data ++ [Transmit (confirm_packet (s16 m)); on_connected_cb]).

(** The state between the control packet and the work of the executor. *)
Definition confirming (m : Z) (data : list Z) (s : BaseSocket ServerSocket)
  : BaseSocket ServerSocket :=
  let s := set_output s (output s ++ initial_received data) in
  let s := set_derived s (MakeServer kHandshakeCompleted m) in
  OnConnected m (WriteControlPacket (MakePacket (confirm_packet (s16 m))) s).

Lemma WriteConnectionConfirm_eq {ct : CharType} (s : BaseSocket ServerSocket) m :
  server_max_packet_size (derived s) = m ->
  WriteConnectionConfirm s =
    Done (OnConnected m (set_derived
      (WriteControlPacket (MakePacket (confirm_packet (s16 m))) s)
      (MakeServer kHandshakeCompleted m))).
Proof.
  intros Hm. unfold WriteConnectionConfirm.
  rewrite CreateConnectionConfirmPacket_eq by (simpl; lia). rewrite done_bind, app_nil_r.
  unfold set_server_state_, set_server_state. fields. cbn [server_max_packet_size].
  by rewrite Hm.
Qed.

Lemma ServerSocket_requested {ct : CharType} data size sz (s : BaseSocket ServerSocket) :
  server_state (derived s) = kClientConnectionRequest ->
  ExtractMaxPacketSizeFromConnRequest (be16 1 ++ be16 1 ++ be16 size ++ data) = Done sz ->
  ServerSocket_OnReceiveControlPacket (MakePacket (request_packet size data)) s =
    Done (confirming (selected (connection_max s) sz) data s).
Proof.
  intros Hs Hz. destruct (control_header_fields 0 kControlConnectionRequest
    (be16 1 ++ be16 1 ++ be16 size ++ data) ltac:(lia) ltac:(done)) as (_ & H2 & _ & H4).
  unfold ServerSocket_OnReceiveControlPacket, request_packet. rewrite H2, H4, Hs.
  rewrite bool_decide_eq_true_2 by done. change (kControlConnectionRequest =? kControlError) with false.
  rewrite Z.eqb_refl. cbn [negb]. rewrite done_bind. rewrite Hz.
  assert (ExtractMinProtocolVersionFromConnRequest (be16 1 ++ be16 1 ++ be16 size ++ data) = Done 1)
    as -> by (by destruct ct as [[|] ?]).
  assert (ExtractMaxProtocolVersionFromConnRequest (be16 1 ++ be16 1 ++ be16 size ++ data) = Done 1)
    as -> by (by destruct ct as [[|] ?]).
  change (length (be16 1 ++ be16 1 ++ be16 size ++ data) <? kMinimumConnectionRequestLength)%nat
    with false.
  rewrite !done_bind. change (_ || _) with false. cbn iota zeta.
  pose proof (substr_rest (be16 1 ++ be16 1 ++ be16 size) data) as Hsub.
  rewrite <- !app_assoc in Hsub.
  change (Z.of_nat kMinimumConnectionRequestLength) with
    (Z.of_nat (length (be16 1 ++ be16 1 ++ be16 size))). rewrite Hsub, done_bind.
  unfold confirming, selected, initial_received.
  destruct data as [|b data].
  - change (kMinimumConnectionRequestLength <? length (be16 1 ++ be16 1 ++ be16 size ++ []))%nat
      with false. cbn iota. rewrite done_bind.
    erewrite WriteConnectionConfirm_eq by reflexivity. fields. cbn [server_max_packet_size].
    by rewrite app_nil_r.
  - change (kMinimumConnectionRequestLength <? length (be16 1 ++ be16 1 ++ be16 size ++ b :: data))%nat
      with true. cbn iota. rewrite done_bind.
    by erewrite WriteConnectionConfirm_eq by reflexivity.
Qed.

Lemma call_requested {ct : CharType} S data size sz :
  ExtractMaxPacketSizeFromConnRequest (be16 1 ++ be16 1 ++ be16 size ++ data) = Done sz ->
  call (call_on_remote_transmit (request_packet size data)) (new_server S) =
    Done (confirmed S (selected S sz) data).
Proof.
  intros Hz. unfold call. cbn [handle_call]. unfold on_remote_transmit, FromBytes.
  change (length (request_packet size data) =? 0)%nat with false. cbn iota zeta.
  destruct (control_header_fields 0 kControlConnectionRequest
    (be16 1 ++ be16 1 ++ be16 size ++ data) ltac:(lia) ltac:(done)) as (H1 & _ & H3 & _).
  unfold request_packet at 1 2. rewrite H1, H3.
  change (IsRemotePacketCounterExpected 0 (new_server S)) with
    (true, set_remote_packet_counter_generator (new_server S) (MakeGenerator 1)). cbn iota.
  cbn [OnReceiveControlPacket server_class].
  rewrite (ServerSocket_requested data size sz) by done. rewrite done_bind.
  unfold confirmed. set (m := selected S sz). by destruct ct as [[|] ?], data.
Qed.

Lemma call_transmit_confirm {ct : CharType} S m data :
  call (call_on_transmit kOk) (confirmed S m data) = Done (server_accepted S m data).
Proof. unfold confirmed, server_accepted. by destruct ct as [[|] ?], data. Qed.

Lemma extract_readable {ct : CharType} size data :
  readable size ->
  ExtractMaxPacketSizeFromConnRequest (be16 1 ++ be16 1 ++ be16 size ++ data) = Done size.
Proof.
  intros Hs. unfold ExtractMaxPacketSizeFromConnRequest.
  pose proof (two_chars_readable (be16 1 ++ be16 1) size data Hs) as Ht.
  rewrite <- app_assoc in Ht. change (length (be16 1 ++ be16 1)) with 4%nat in Ht.
  rewrite Ht, done_bind. destruct Hs as [? _]. by rewrite land_server, u16_id by lia.
Qed.

Lemma extract_signed {ct : CharType} size data :
  char_is_signed = true -> 0 <= size < 32768 -> 128 <= size mod 256 ->
  ExtractMaxPacketSizeFromConnRequest (be16 1 ++ be16 1 ++ be16 size ++ data) =
    Done (65280 + size mod 256).
Proof.
  intros Hsg Hs Hl. unfold ExtractMaxPacketSizeFromConnRequest.
  pose proof (two_chars_signed (be16 1 ++ be16 1) size data Hsg Hs Hl) as Ht.
  rewrite <- app_assoc in Ht. change (length (be16 1 ++ be16 1)) with 4%nat in Ht.
  rewrite Ht, done_bind. pose proof (Z.mod_pos_bound size 256).
  change 65535 with (Z.ones 16). rewrite Z.land_ones by lia.
  replace (size mod 256 - 256) with (65280 + size mod 256 + (-1) * 2 ^ 16) by lia.
  rewrite Z.mod_add, Z.mod_small, u16_id by lia. done.
Qed.

Lemma readable_min {ct : CharType} a b : readable a -> readable b -> readable (Z.min a b).
Proof. intros. by destruct (Z.min_spec a b) as [[_ ->]|[_ ->]]. Qed.

Lemma be16_confirm_readable {ct : CharType} v : readable v -> two_chars (be16 1 ++ be16 v) 2 = Done v.
Proof.
  intros Hv. pose proof (two_chars_readable (be16 1) v [] Hv) as Ht. by rewrite app_nil_r in Ht.
Qed.

Lemma be16_confirm_signed {ct : CharType} v :
  char_is_signed = true -> 0 <= v < 32768 -> 128 <= v mod 256 -> two_chars (be16 1 ++ be16 v) 2 = Done (v mod 256 - 256).
Proof.
  intros Hsg Hv Hl. pose proof (two_chars_signed (be16 1) v [] Hsg Hv Hl) as Ht. by rewrite app_nil_r in Ht.
Qed.

(** A message for a connected socket whose packet size is not positive. *)
Lemma call_Write_refused {ct : CharType} {X} `{SocketClass X} message (s : BaseSocket X) :
  message <> [] -> max_packet_size_ s <= 0 -> state_ s = kConnected ->
  current_control_ s = None -> items (control_request_queue_ s) = [] ->
  current_message_ s = None -> items (message_request_queue_ s) = [] -> executor_ s = [] ->
  exists s', call (call_Write message) s = Done s' /\
    state_ s' = kConnected /\ output s' = output s.
Proof.
  intros Hm Hmax Hst Hcc Hci Hcm Hmi He.
  unfold call. cbn [handle_call]. rewrite done_bind. unfold Write. cbn [snd].
  assert (IsFinished (new_request message (next_future s)) = false) as Hf.
  { unfold IsFinished, new_request. cbn [message_ position_]. change (u64 0) with 0.
    apply Z.leb_gt. destruct message; [done|simpl; lia]. }
  destruct (message_request_queue_ s) as [b q] eqn:Hq. simpl in Hmi. subst q.
  eexists. split.
  - apply run_one_job; [exact He| |].
    2: { cbn [run_job]. unfold run_TryWriteMessage, TryWriteNextMessage, deque_empty, IsConnected.
         fields. rewrite Hcc, Hci, Hcm. simpl orb. cbn iota.
         rewrite Hq.
         change (push_back (MakeDeque b []) ?r) with (MakeDeque b [r]).
         change (front_address (MakeDeque b [?r])) with (Some b). fields.
         rewrite deref_front, done_bind, Hf, Hst. simpl orb. cbn iota.
         unfold NextPacket. rewrite Hf, (proj2 (Z.leb_le _ _)), done_bind by done. reflexivity. }
    exact He.
  - done.
Qed.

(** * Properties *)

(** C28. The handshake connects a client and a server.  A new client (at most 13
    bytes of initial data) connects to a new server, both packet sizes positive,
    below 32768 and, where [char] is signed, with a low byte below 128; each
    side's packet reaches the other and is reported as transmitted.  Both sides
    report the connection once, the server's user receives the initial data, and both end connected
    with the smaller of the two packet sizes, with nothing to send and counters
    that agree, ready to exchange messages. *)
Theorem Handshake_negotiates {ct : CharType} C S data :
  (length data <= 13)%nat -> readable C -> readable S -> 0 < C -> 0 < S ->
  let n := (Z.to_nat (Z.min C S) - 1)%nat in
  exists request confirm c1 t c2,
    calls [call_Connect; call_on_transmit kOk] (new_client C data) = Done c1 /\
    output c1 = [Transmit request] /\
    calls [call_on_remote_transmit request; call_on_transmit kOk] (new_server S) = Done t /\
    output t = initial_received data ++ [Transmit confirm; on_connected_cb] /\
    calls [call_on_remote_transmit confirm] c1 = Done c2 /\
    output c2 = [Transmit request; on_connected_cb] /\
    ready n 1 c2 /\ listening 1 c2 /\ ready n 1 t /\ listening 1 t /\
    max_packet_size_ c2 = Z.min C S /\ max_packet_size_ t = Z.min C S.
Proof.
  intros Hd HC HS HC0 HS0 n.
  assert (selected S C = Z.min C S) as Hsel.
  { unfold selected. rewrite (proj2 (Z.eqb_neq C 0)) by lia. lia. }
  assert (s16 (Z.min C S) = Z.min C S) as Hs16.
  { apply s16_id. pose proof (readable_min C S HC HS) as [? _]. done. }
  exists (request_packet C data), (confirm_packet (Z.min C S)), (awaiting C data),
    (server_accepted S (Z.min C S) data), (connected_with C (Z.min C S) data).
  cbn [calls]. rewrite call_Connect_requests, done_bind, call_transmit_request, done_bind by done.
  rewrite (call_requested S data C C), done_bind, Hsel by (by apply extract_readable).
  rewrite call_transmit_confirm, done_bind.
  rewrite (call_confirmed C data (Z.min C S) (Z.min C S)), done_bind
    by (lia || (apply be16_confirm_readable; by apply readable_min)).
  assert (s16 C = C) as HsC by (apply s16_id, HC).
  unfold awaiting, server_accepted, connected_with, ready, listening. rewrite Hs16, HsC. fields.
  assert (Z.min C S = Z.of_nat n + 1) as Hmin by lia.
  split_and!; done.
Qed.

#[local] Existing Instance signed_char.

Lemma Handshake_negotiates_witness :
  readable 100 /\ readable 20 /\
  exists request confirm c1 t c2,
    calls [call_Connect; call_on_transmit kOk] (new_client 100 [1; 2]) = Done c1 /\
    output c1 = [Transmit request] /\
    calls [call_on_remote_transmit request; call_on_transmit kOk] (new_server 20) = Done t /\
    output t = initial_received [1; 2] ++ [Transmit confirm; on_connected_cb] /\
    calls [call_on_remote_transmit confirm] c1 = Done c2 /\
    output c2 = [Transmit request; on_connected_cb] /\
    ready 19 1 c2 /\ listening 1 c2 /\ ready 19 1 t /\ listening 1 t /\
    max_packet_size_ c2 = Z.min 100 20 /\ max_packet_size_ t = Z.min 100 20.
Proof.
  assert (readable 100) as H1 by (split; [lia|reflexivity]).
  assert (readable 20) as H2 by (split; [lia|reflexivity]).
  split; [done|]. split; [done|].
  apply (Handshake_negotiates 100 20 [1; 2]); [simpl; lia|done|done|lia|lia].
Defined.

(** Packet sizes with a low byte of at least 128, where [char] is signed.
    When the server confirms such a size, whatever the client's own size, the client connects with the
    negative packet size [v mod 256 - 256], and no message it is then given to
    write is ever transmitted.  When the client requests such a size, the server
    reads at least 65408 and settles on its own size, even if that is larger than
    the client's. *)
Theorem Packet_size_sign_extended {ct : CharType} C S v data :
  char_is_signed = true -> (length data <= 13)%nat -> 0 <= C < 32768 -> 0 <= S < 32768 ->
  0 <= v < 32768 -> 128 <= v mod 256 ->
  (exists c,
     calls [call_Connect; call_on_transmit kOk; call_on_remote_transmit (confirm_packet v)]
       (new_client C data) = Done c /\
     state_ c = kConnected /\ max_packet_size_ c = v mod 256 - 256 /\ max_packet_size_ c < 0 /\
     forall message, message <> [] -> Z.of_nat (length message) < 2 ^ 31 ->
       exists c', call (call_Write message) c = Done c' /\
         state_ c' = kConnected /\ output c' = output c) /\
  (exists t,
     calls [call_on_remote_transmit (request_packet v data)] (new_server S) = Done t /\
     state_ t = kConnected /\ max_packet_size_ t = S).
Proof.
  intros Hsg Hd HC HS Hv Hl. pose proof (Z.mod_pos_bound v 256). split.
  - exists (connected_with C (v mod 256 - 256) data). cbn [calls].
    rewrite call_Connect_requests, done_bind, call_transmit_request, done_bind by done.
    rewrite (call_confirmed C data v (v mod 256 - 256)), done_bind
      by (lia || by apply be16_confirm_signed).
    split_and!; [done..|unfold connected_with; fields; lia|].
    intros message Hm _. apply call_Write_refused; try done. unfold connected_with. fields. lia.
  - exists (confirmed S S data). cbn [calls].
    rewrite (call_requested S data v (65280 + v mod 256)), done_bind by (by apply extract_signed).
    unfold selected. rewrite (proj2 (Z.eqb_neq _ _)) by lia.
    rewrite Z.min_l by lia. done.
Qed.

Lemma Packet_size_sign_extended_witness :
  128 <= 244 mod 256 /\
  (exists c,
     calls [call_Connect; call_on_transmit kOk; call_on_remote_transmit (confirm_packet 244)]
       (new_client 512 []) = Done c /\
     state_ c = kConnected /\ max_packet_size_ c = -12 /\ max_packet_size_ c < 0 /\
     forall message, message <> [] -> Z.of_nat (length message) < 2 ^ 31 ->
       exists c', call (call_Write message) c = Done c' /\
         state_ c' = kConnected /\ output c' = output c) /\
  (exists t,
     calls [call_on_remote_transmit (request_packet 244 [])] (new_server 512) = Done t /\
     state_ t = kConnected /\ max_packet_size_ t = 512).
Proof.
  split; [by vm_compute|].
  apply (Packet_size_sign_extended 512 512 244 []); [done|simpl; lia|lia|lia|lia|by vm_compute].
Defined.
