(* ===== verification/SeekerData.v ===== *)
(** What the Fast Pair seeker reads from advertisements, after
    src/internal/base/bluetooth_address.cc, src/fastpair/dataparser/*.cc and
    src/fastpair/common (battery_notification.cc, account_key.h,
    account_key_filter.cc): Bluetooth addresses as text, model ids, the fields of
    a non-discoverable advertisement, battery values and the test of account keys
    against the Bloom filter.

    A callback the parser calls exactly once is the result of its function.
    [operator[]] of a vector out of range is a [Fault]. *)

From Stdlib Require Import ZArith Lia.
From stdpp Require Import base list numbers gmap.
From S2P Require Import Prelude.
From S2P Require Import CppBase.

Open Scope Z_scope.
Open Scope fp_scope.

(** The functions of the OpenSSL library the seeker calls: SHA-256 and AES-128 on
    one block. *)
Class OpenSSL : Type := {
  SHA256 : list Z -> list Z;
  AES_encrypt : list Z -> list Z -> list Z;
  AES_decrypt : list Z -> list Z -> list Z;
}.

Class OpenSSLSpec (O : OpenSSL) : Prop := {
  SHA256_length : forall m, length (SHA256 m) = 32%nat;
  SHA256_ok : forall m, bytes_ok (SHA256 m);
  AES_encrypt_length : forall k m, length (AES_encrypt k m) = 16%nat;
  AES_decrypt_length : forall k m, length (AES_decrypt k m) = 16%nat;
  AES_encrypt_ok : forall k m, bytes_ok (AES_encrypt k m);
  AES_decrypt_ok : forall k m, bytes_ok (AES_decrypt k m);
  AES_decrypt_encrypt : forall k m,
    length m = 16%nat -> bytes_ok m -> AES_decrypt k (AES_encrypt k m) = m;
}.

(** * Bluetooth addresses *)
Module BluetoothAddress.
Section Definitions.
Context {ct : CharType}.

(** [CharToDigit<16, char>], on the promoted character. *)
Definition CharToDigit (c : Z) : option Z :=
  if (48 <=? c) && (c <? 48 + Z.min 16 10) then Some (c - 48)
  else if (97 <=? c) && (c <? 97 + 16 - 10) then Some (u8 (c - 97 + 10))
  else if (65 <=? c) && (c <? 65 + 16 - 10) then Some (u8 (c - 65 + 10))
  else None.

(** The loop writes the bytes one by one, so an input with a bad digit leaves the
    bytes before it in [output]. *)
Fixpoint hex_loop (input output : list Z) (o : nat) : bool * list Z :=
  match input with
  | m :: l :: input =>
    match CharToDigit (char_int m), CharToDigit (char_int l) with
    | Some msb, Some lsb =>
      hex_loop input (<[o := u8 (Z.lor (Z.shiftl msb 4) lsb)]> output) (S o)
    | _, _ => (false, output)
    end
  | _ => (true, output)
  end.

Definition HexStringToByteContainer (input output : list Z) (o : nat) : bool * list Z :=
  let count := length input in
  if (count =? 0)%nat || negb (count mod 2 =? 0)%nat then (false, output)
  else hex_loop input output o.

(** [HexStringToSpan] on the [n] bytes of [output] from [o]. *)
Definition HexStringToSpan (input output : list Z) (o n : nat) : bool * list Z :=
  if negb (length input / 2 =? n)%nat then (false, output)
  else HexStringToByteContainer input output o.

(** The six conjuncts of the form with separators, in turn. *)
Fixpoint parse_parts (input output : list Z) (parts : list nat) : bool * list Z :=
  match parts with
  | [] => (true, output)
  | i :: parts =>
    let '(ok, output) := HexStringToSpan (take 2 (drop (3 * i) input)) output i 1 in
    if ok then parse_parts input output parts else (false, output)
  end.

Definition ParseBluetoothAddress (input output : list Z) : bool * list Z :=
  if negb (length output =? 6)%nat then (false, output)
  else if (length input =? 12)%nat then HexStringToSpan input output 0 6
  else if (length input =? 17)%nat then
    let at_ i := default 0 (input !! i) in
    let separator := at_ 2%nat in
    if negb (separator =? 45) && negb (separator =? 58) then (false, output)
    else if (at_ 2%nat =? separator) && (at_ 5%nat =? separator) && (at_ 8%nat =? separator)
            && (at_ 11%nat =? separator) && (at_ 14%nat =? separator)
    then parse_parts input output [0; 1; 2; 3; 4; 5]%nat
    else (false, output)
  else (false, output).

End Definitions.

(** ["%02X"] *)
Definition hex_digit (upper : bool) (d : Z) : Z :=
  if d <? 10 then 48 + d else (if upper then 65 else 97) + (d - 10).
Definition hex2 (upper : bool) (b : Z) : list Z := [hex_digit upper (b / 16); hex_digit upper (b mod 16)].

(** [CanonicalizeBluetoothAddress(const std::array<uint8_t, 6>&)] *)
Definition CanonicalizeBluetoothAddress (address_bytes : list Z) : list Z :=
  match address_bytes with
  | [] => []
  | b :: rest => hex2 true b ++ flat_map (fun c => 58 :: hex2 true c) rest
  end.

(** [absl::BytesToHexString] *)
Definition BytesToHexString (bytes : list Z) : list Z := flat_map (hex2 false) bytes.

End BluetoothAddress.

(** * Model ids *)
Module FastPairDecoder.
Definition kHeaderIndex : nat := 0.
Definition kHeaderLength : Z := 1.
Definition kHeaderLengthBitmask : Z := 0x1E.
Definition kHeaderLengthOffset : Z := 1.
Definition kHeaderVersionBitmask : Z := 0xE0.
Definition kHeaderVersionOffset : Z := 5.
Definition kMinModelIdLength : Z := 3.
Definition kMaxModelIdLength : Z := 14.

Definition size (v : list Z) : Z := Z.of_nat (length v).

Definition GetIdLength (service_data : list Z) : outcome Z :=
  if size service_data =? kMinModelIdLength then Done kMinModelIdLength
  else let! h := load service_data kHeaderIndex in
       Done (Z.shiftr (Z.land h kHeaderLengthBitmask) kHeaderLengthOffset).

Definition GetVersion (service_data : list Z) : outcome Z :=
  if size service_data =? kMinModelIdLength then Done 0
  else let! h := load service_data kHeaderIndex in
       Done (Z.shiftr (Z.land h kHeaderVersionBitmask) kHeaderVersionOffset).

Definition IsIdLengthValid (service_data : list Z) : outcome bool :=
  let! id_length := GetIdLength service_data in
  Done ((kMinModelIdLength <=? id_length) && (id_length <=? kMaxModelIdLength)
        && (id_length + kHeaderLength <=? size service_data)).

(** [None] is the null pointer. *)
Definition HasModelId (service_data : option (list Z)) : outcome bool :=
  match service_data with
  | None => Done false
  | Some d =>
    if size d =? kMinModelIdLength then Done true
    else if kMinModelIdLength <? size d then
      let! version := GetVersion d in
      if version =? 0 then IsIdLengthValid d else Done false
    else Done false
  end.

(** [while (data[id_index] == 0 && end - id_index > 3) id_index++], at most [n]
    times. *)
Fixpoint skip_zeros (n : nat) (data : list Z) (id_index end_ : Z) : outcome Z :=
  let! b := load data (Z.to_nat id_index) in
  if (b =? 0) && (kMinModelIdLength <? end_ - id_index) then
    match n with
    | O => Crash
    | S n => skip_zeros n data (id_index + 1) end_
    end
  else Done id_index.

(** The bytes from [id_index], [n] of them; none when [n] is negative. *)
Fixpoint copy_bytes (n : nat) (data : list Z) (i : nat) : outcome (list Z) :=
  match n with
  | O => Done []
  | S n => let! b := load data i in let! rest := copy_bytes n data (S i) in Done (b :: rest)
  end.

Definition GetHexModelIdFromServiceData (service_data : option (list Z)) : outcome (option (list Z)) :=
  match service_data with
  | None => Done None
  | Some d =>
    if size d <? kMinModelIdLength then Done None
    else if size d =? kMinModelIdLength then Done (Some (BluetoothAddress.BytesToHexString d))
    else
      let! id_length := GetIdLength d in
      let end_ := 1 + id_length in
      let! id_index := skip_zeros (Z.to_nat end_) d 1 end_ in
      let! bytes := copy_bytes (Z.to_nat (end_ - id_index)) d (Z.to_nat id_index) in
      Done (Some (BluetoothAddress.BytesToHexString bytes))
  end.

End FastPairDecoder.

(** * Battery values *)
Module BatteryNotification.
Definition kBatteryChargingMask : Z := 0x80.
Definition kBatteryPercentageMask : Z := 0x7F.
Definition kBatteryIsChargingByte : Z := 0xFF.
Definition kBatteryNotChargingByte : Z := 0x7F.

Record BatteryInfo : Type := MakeInfo { is_charging : bool; percentage : option Z }.

Definition FromByte (byte : Z) : BatteryInfo :=
  let is_charging := nonzero (Z.land byte kBatteryChargingMask) in
  let percentage := u8 (Z.land byte kBatteryPercentageMask) in
  let percentage_signed := s8 percentage in
  if (percentage_signed <? 0) || (100 <? percentage_signed) then MakeInfo is_charging None
  else MakeInfo is_charging (Some percentage_signed).

Definition ToByte (info : BatteryInfo) : Z :=
  match percentage info with
  | None => if is_charging info then kBatteryIsChargingByte else kBatteryNotChargingByte
  | Some p => u8 (Z.lor p (if is_charging info then kBatteryChargingMask else 0))
  end.

Inductive NotificationType : Type := kNone | kShowUi | kHideUi.

Record BatteryNotification : Type :=
  MakeNotification { type : NotificationType; battery_infos : list BatteryInfo }.

Definition FromBytes (bytes : list Z) (type : NotificationType) : option BatteryNotification :=
  match bytes with
  | [b] => Some (MakeNotification type [FromByte b])
  | [left_bud; right_bud; case] =>
    Some (MakeNotification type [FromByte left_bud; FromByte right_bud; FromByte case])
  | _ => None
  end.

End BatteryNotification.

(** * Non-discoverable advertisements *)
Module FastPairDataParser.
Import FastPairDecoder.

Definition kFieldTypeBitmask : Z := 0x0F.
Definition kFieldLengthBitmask : Z := 0xF0.
Definition kFieldLengthOffset : Z := 4.
Definition kFieldTypeAccountKeyFilter : Z := 0.
Definition kFieldTypeAccountKeyFilterSalt : Z := 1.
Definition kFieldTypeAccountKeyFilterNoNotification : Z := 2.
Definition kFieldTypeBattery : Z := 3.
Definition kFieldTypeBatteryNoNotification : Z := 4.
Definition kAddressByteSize : nat := 6.
Definition kMaxLengthOfSaltBytes : nat := 2.

Inductive AdvertisementType : Type := kShowUi | kNone | kHideUi.

Record NonDiscoverableAdvertisement : Type := MakeAdvertisement
  { account_key_filter : list Z;
    adv_type : AdvertisementType;
    salt : list Z;
    battery_notification : option BatteryNotification.BatteryNotification }.

(** The callback of [FastPairDataParser::GetHexModelIdFromServiceData]. *)
Definition ParseHexModelId (service_data : list Z) : outcome (option (list Z)) :=
  let! has := HasModelId (Some service_data) in
  if (has : bool) then GetHexModelIdFromServiceData (Some service_data) else Done None.

Notation indices := (gmap Z (nat * nat)).

(** The loop over the fields, at most [n] times: a later field of a type replaces
    an earlier one. *)
Fixpoint field_loop (n : nat) (service_data : list Z) (headerIndex : nat) (field_indices : indices)
  : outcome indices :=
  if (headerIndex <? length service_data)%nat then
    match n with
    | O => Crash
    | S n =>
      let! h := load service_data headerIndex in
      let type := Z.land h kFieldTypeBitmask in
      let length_ := Z.to_nat (Z.shiftr (Z.land h kFieldLengthBitmask) kFieldLengthOffset) in
      let index := (headerIndex + 1)%nat in
      let end_ := (index + length_)%nat in
      field_loop n service_data end_
        (if (end_ <=? length service_data)%nat then <[type := (index, end_)]> field_indices
         else field_indices)
    end
  else Done field_indices.

(** [CopyFieldBytesToVector], with [indices] the value found in the map. *)
Definition CopyFieldBytesToVector (service_data : list Z) (indices : nat * nat) : outcome (list Z) :=
  copy_bytes (snd indices - fst indices) service_data (fst indices).

(** The bytes of the first of two fields that is there. *)
Definition either_field {T} (service_data : list Z) (field_indices : indices) (type1 : Z) (t1 : T)
    (type2 : Z) (t2 none : T) : outcome (list Z * T) :=
  match field_indices !! type1 with
  | Some i => let! b := CopyFieldBytesToVector service_data i in Done (b, t1)
  | None =>
    match field_indices !! type2 with
    | Some i => let! b := CopyFieldBytesToVector service_data i in Done (b, t2)
    | None => Done ([], none)
    end
  end.

(** [uninitialised] is what the array for the bytes of the address holds before
    the address is parsed: a parse that fails is not noticed. *)
Definition ParseNotDiscoverableAdvertisement {ct : CharType}
    (service_data address uninitialised : list Z)
  : outcome (option NonDiscoverableAdvertisement) :=
  if (length service_data =? 0)%nat then Done None else
  let! version := GetVersion service_data in
  if negb (version =? 0) then Done None else
  let! id_length := GetIdLength service_data in
  let! field_indices :=
    field_loop (length service_data) service_data (kHeaderIndex + 1 + Z.to_nat id_length) ∅ in
  let! ' (account_key_filter_bytes, show_ui) :=
    either_field service_data field_indices kFieldTypeAccountKeyFilter kShowUi
      kFieldTypeAccountKeyFilterNoNotification kHideUi kNone in
  if (length account_key_filter_bytes =? 0)%nat then Done None else
  let! salt_bytes :=
    match field_indices !! kFieldTypeAccountKeyFilterSalt with
    | Some i => CopyFieldBytesToVector service_data i
    | None => Done []
    end in
  if (kMaxLengthOfSaltBytes <? length salt_bytes)%nat then Done None else
  let salt_bytes :=
    if (length salt_bytes =? 0)%nat
    then snd (BluetoothAddress.ParseBluetoothAddress address uninitialised)
    else salt_bytes in
  let! ' (battery_bytes, show_ui_for_battery) :=
    either_field service_data field_indices kFieldTypeBattery BatteryNotification.kShowUi
      kFieldTypeBatteryNoNotification BatteryNotification.kHideUi BatteryNotification.kNone in
  Done (Some (MakeAdvertisement account_key_filter_bytes show_ui salt_bytes
                (BatteryNotification.FromBytes battery_bytes show_ui_for_battery))).

End FastPairDataParser.

(** * Account keys and their filter *)
Module AccountKeyFilter.
Import FastPairDataParser.

Definition kAccountKeySize : nat := 16.
Definition kBitsInByte : Z := 8.
Definition kRecentlyUsedByte : Z := 0x05.
Definition kInUseByte : Z := 0x06.
Definition kShowUiByte : Z := 0x33.
Definition kHideUiByte : Z := 0x34.

(** [AccountKey::Ok] *)
Definition AccountKey_Ok (bytes : list Z) : bool := (length bytes =? kAccountKeySize)%nat.

Section Filter.
Context {O : OpenSSL}.

(** One turn of the loop: the word at [i] and its bit. *)
Definition word_is_set (hashed bit_sets : list Z) (i : nat) : outcome bool :=
  let! h0 := load hashed i in
  let! h1 := load hashed (i + 1) in
  let! h2 := load hashed (i + 2) in
  let! h3 := load hashed (i + 3) in
  let hash := Z.lor (Z.lor (Z.lor (u32 (Z.shiftl h0 24)) (u32 (Z.shiftl h1 16))) (u32 (Z.shiftl h2 8))) h3 in
  let num_bits := Z.of_nat (length bit_sets) * kBitsInByte in
  let n := hash mod num_bits in
  let byte_index := n / kBitsInByte in
  let bit_index := n mod kBitsInByte in
  let! b := load bit_sets (Z.to_nat byte_index) in
  Done (nonzero (Z.land (Z.shiftr b bit_index) 1)).

Fixpoint checker_loop (hashed bit_sets : list Z) (offsets : list nat) : outcome bool :=
  match offsets with
  | [] => Done true
  | i :: offsets =>
    let! is_set := word_is_set hashed bit_sets i in
    if negb is_set then Done false else checker_loop hashed bit_sets offsets
  end.

Definition AccountKeyFilterChecker (data bit_sets : list Z) : outcome bool :=
  checker_loop (SHA256 data) bit_sets [0; 4; 8; 12; 16; 20; 24; 28]%nat.

Record AccountKeyFilter : Type := MakeFilter { bit_sets_ : list Z; salt_values_ : list Z }.

Definition new_filter (advertisement : NonDiscoverableAdvertisement) : AccountKeyFilter :=
  MakeFilter (account_key_filter advertisement)
    (salt advertisement ++
     match battery_notification advertisement with
     | None => []
     | Some n =>
       (match BatteryNotification.type n with
        | BatteryNotification.kShowUi => kShowUiByte
        | _ => kHideUiByte
        end) :: map BatteryNotification.ToByte (BatteryNotification.battery_infos n)
     end).

Definition IsPossiblyInSet (f : AccountKeyFilter) (account_key : list Z) : outcome bool :=
  if negb (AccountKey_Ok account_key) then Done false
  else if (length (bit_sets_ f) =? 0)%nat then Done false
  else
    let data := account_key ++ salt_values_ f in
    let! found := AccountKeyFilterChecker data (bit_sets_ f) in
    if (found : bool) then Done true else
    let data := <[0%nat := kRecentlyUsedByte]> data in
    let! found := AccountKeyFilterChecker data (bit_sets_ f) in
    if (found : bool) then Done true else
    let data := <[0%nat := kInUseByte]> data in
    AccountKeyFilterChecker data (bit_sets_ f).

End Filter.
End AccountKeyFilter.

(** * Lemmas *)

(** ** Addresses *)
Section AddressLemmas.
Context {ct : CharType}.
Import BluetoothAddress.

Lemma char_int_ascii b : 0 <= b < 128 -> char_int b = b.
Proof.
  intros Hb. unfold char_int, s8. rewrite u8_id by (unfold is_byte; lia).
  destruct char_is_signed; [|done]. by rewrite (proj2 (Z.ltb_lt _ _)) by lia.
Qed.

Lemma hex_digit_ascii upper d : 0 <= d < 16 -> 48 <= hex_digit upper d < 128.
Proof. intros Hd. unfold hex_digit. destruct (Z.ltb_spec d 10), upper; lia. Qed.

Lemma digit_hex upper d : 0 <= d < 16 -> CharToDigit (char_int (hex_digit upper d)) = Some d.
Proof.
  intros Hd. rewrite char_int_ascii by (pose proof (hex_digit_ascii upper d Hd); lia).
  assert (d = 0 \/ d = 1 \/ d = 2 \/ d = 3 \/ d = 4 \/ d = 5 \/ d = 6 \/ d = 7 \/ d = 8 \/ d = 9
    \/ d = 10 \/ d = 11 \/ d = 12 \/ d = 13 \/ d = 14 \/ d = 15) as Hc by lia.
  destruct upper; repeat destruct Hc as [->|Hc]; subst; reflexivity.
Qed.

Lemma nibbles b : is_byte b -> u8 (Z.lor (Z.shiftl (b / 16) 4) (b mod 16)) = b.
Proof.
  intros Hb. unfold is_byte in Hb. pose proof (Z.mod_pos_bound b 16 ltac:(lia)) as Hm.
  pose proof (Z.div_mod b 16 ltac:(lia)) as Hd. change 16 with (2 ^ 4) in Hm, Hd |- *.
  rewrite lor_shiftl_low by lia. rewrite <- Hd. apply u8_id. done.
Qed.

Lemma hex_parts b upper output i n :
  is_byte b -> n = 1%nat ->
  HexStringToSpan (hex2 upper b) output i n = (true, <[i := b]> output).
Proof.
  intros Hb ->. unfold HexStringToSpan, HexStringToByteContainer. cbn [length hex2 hex_loop].
  assert (0 <= b / 16 < 16) by (unfold is_byte in Hb; split; [apply Z.div_pos|apply Z.div_lt_upper_bound]; lia).
  pose proof (Z.mod_pos_bound b 16 ltac:(lia)).
  change (negb (2 / 2 =? 1)%nat) with false. change ((2 =? 0)%nat || negb (2 mod 2 =? 0)%nat) with false.
  cbv iota. rewrite !digit_hex by done. by rewrite nibbles.
Qed.

(** The printed form of an address is read back. *)
Lemma parse_canonical bytes output :
  length bytes = 6%nat -> bytes_ok bytes -> length output = 6%nat ->
  ParseBluetoothAddress (CanonicalizeBluetoothAddress bytes) output = (true, bytes).
Proof.
  intros Hl Hb Ho. destruct bytes as [|b0 [|b1 [|b2 [|b3 [|b4 [|b5 [|]]]]]]]; try done.
  destruct output as [|o0 [|o1 [|o2 [|o3 [|o4 [|o5 [|]]]]]]]; try done.
  unfold bytes_ok in Hb. rewrite !Forall_cons in Hb. destruct Hb as (? & ? & ? & ? & ? & ? & _).
  unfold ParseBluetoothAddress. cbn [CanonicalizeBluetoothAddress flat_map hex2 app length].
  cbn -[Z.eqb HexStringToSpan hex_digit Z.div Z.modulo]. rewrite Z.eqb_refl. cbn [andb negb].
  change (negb (58 =? 45) && false) with false. cbv iota.
  repeat match goal with |- context [HexStringToSpan [hex_digit true (?b `div` 16); _] ?o ?i 1] =>
    change (HexStringToSpan _ o i 1) with (HexStringToSpan (hex2 true b) o i 1);
    rewrite (hex_parts b true o i 1) by done; cbv iota beta end.
  done.
Qed.

End AddressLemmas.

(** ** Vectors and fields *)
Section ParserLemmas.
Import FastPairDecoder FastPairDataParser.

Lemma copy_bytes_done n d i :
  (i + n <= length d)%nat -> copy_bytes n d i = Done (take n (drop i d)).
Proof.
  revert i. induction n as [|n IH]; intros i Hi; cbn [copy_bytes]; [done|].
  destruct (load_lt d i) as (v & -> & Hv); [lia|]. rewrite done_bind, IH by lia.
  by rewrite (drop_S d v i) by done.
Qed.

(** Every entry of the map is a range of the data, of at most fifteen bytes. *)
Definition indices_ok (d : list Z) (m : indices) : Prop :=
  map_Forall (fun _ x => (fst x <= snd x <= length d)%nat /\ (snd x - fst x <= 15)%nat) m.

Lemma field_length_bound h : is_byte h ->
  0 <= Z.shiftr (Z.land h kFieldLengthBitmask) kFieldLengthOffset <= 15.
Proof.
  intros Hh. pose proof (byte_cases (fun h =>
    let x := Z.shiftr (Z.land h kFieldLengthBitmask) kFieldLengthOffset in (0 <=? x) && (x <=? 15))
    h ltac:(vm_compute; reflexivity) Hh) as H. cbv zeta beta in H. lia.
Qed.

Lemma field_loop_done n d i m :
  bytes_ok d -> (length d <= n + i)%nat -> indices_ok d m ->
  exists m', field_loop n d i m = Done m' /\ indices_ok d m'.
Proof.
  intros Hd. revert i m. induction n as [|n IH]; intros i m Hi Hm; cbn [field_loop];
    (destruct (Nat.ltb_spec i (length d)); [try lia|by exists m]).
  destruct (load_lt d i) as (h & -> & Hh); [done|]. rewrite done_bind.
  pose proof (Forall_lookup_1 _ _ _ _ Hd Hh) as Hb.
  pose proof (field_length_bound h Hb) as Hf. set (len := Z.to_nat _).
  assert (len <= 15)%nat by lia.
  apply IH; [lia|]. destruct (Nat.leb_spec (i + 1 + len) (length d)); [|done].
  apply map_Forall_insert_2; [cbn; lia|done].
Qed.

Lemma CopyField_done d m t i :
  indices_ok d m -> m !! t = Some i -> exists b, CopyFieldBytesToVector d i = Done b
    /\ b = take (snd i - fst i) (drop (fst i) d) /\ (length b <= 15)%nat.
Proof.
  intros Hm Hi. destruct (Hm t i Hi) as [H1 H2]. eexists. unfold CopyFieldBytesToVector.
  rewrite copy_bytes_done by lia. split; [done|]. split; [done|]. rewrite length_take. lia.
Qed.

Lemma either_field_done {T} d m t1 (x1 : T) t2 x2 none :
  indices_ok d m -> exists b x, either_field d m t1 x1 t2 x2 none = Done (b, x)
    /\ (length b <= 15)%nat /\ (b <> [] -> x = x1 \/ x = x2).
Proof.
  intros Hm. unfold either_field. destruct (m !! t1) as [i|] eqn:E1.
  { destruct (CopyField_done d m t1 i Hm E1) as (b & -> & _ & Hb). exists b, x1. auto. }
  destruct (m !! t2) as [i|] eqn:E2; [|exists [], none; cbn; split; [done|split; [lia|done]]].
  destruct (CopyField_done d m t2 i Hm E2) as (b & -> & _ & Hb). exists b, x2. auto.
Qed.

End ParserLemmas.

(** ** The parser on untrusted bytes *)
Section Safety.
Context {ct : CharType}.
Import FastPairDecoder FastPairDataParser.

Lemma header_nibbles h : is_byte h ->
  0 <= Z.shiftr (Z.land h kHeaderLengthBitmask) kHeaderLengthOffset <= 15
  /\ (Z.shiftr (Z.land h kHeaderVersionBitmask) kHeaderVersionOffset =? 0) = (h <? 32).
Proof.
  intros Hh. pose proof (byte_cases (fun h =>
    let x := Z.shiftr (Z.land h kHeaderLengthBitmask) kHeaderLengthOffset in
    (0 <=? x) && (x <=? 15)
    && Bool.eqb (Z.shiftr (Z.land h kHeaderVersionBitmask) kHeaderVersionOffset =? 0) (h <? 32))
    h ltac:(vm_compute; reflexivity) Hh) as H. cbv zeta beta in H.
  apply andb_true_iff in H as [H E]. apply Bool.eqb_prop in E. split; [lia|done].
Qed.

Lemma decoder_header d : bytes_ok d -> d <> [] ->
  exists l v, GetIdLength d = Done l /\ GetVersion d = Done v /\ 0 <= l <= 15.
Proof.
  intros Hb Hd. unfold GetIdLength, GetVersion.
  destruct (size d =? kMinModelIdLength); [exists 3, 0; done|].
  destruct d as [|h d]; [done|]. apply Forall_cons in Hb as [Hh _].
  destruct (header_nibbles h Hh) as [Hl _]. by eexists _, _.
Qed.

Lemma skip_zeros_done n d i e :
  0 <= i -> e <= size d -> 3 <= e - i -> e - i - 3 <= Z.of_nat n ->
  exists j, skip_zeros n d i e = Done j /\ i <= j /\ 3 <= e - j
    /\ (forall k, i <= k < j -> d !! Z.to_nat k = Some 0)
    /\ (e - j = 3 \/ exists b, d !! Z.to_nat j = Some b /\ b <> 0).
Proof.
  unfold size. revert i. induction n as [|n IH]; intros i H0 He H3 Hn; cbn [skip_zeros];
    (destruct (load_lt d (Z.to_nat i)) as (b & -> & Hb); [lia|]); rewrite done_bind; unfold kMinModelIdLength.
  - exists i. rewrite (proj2 (Z.ltb_ge _ _)), andb_false_r by lia. repeat split; [lia|lia|lia|left; lia].
  - destruct (Z.eqb_spec b 0) as [->|Hz]; cbn [andb].
    2:{ exists i. repeat split; [lia|lia|lia|right; by exists b]. }
    destruct (Z.ltb_spec 3 (e - i)).
    2:{ exists i. repeat split; [lia|lia|lia|left; lia]. }
    destruct (IH (i + 1)) as (j & -> & H1 & H2 & Hk & Hj); [lia..|]. exists j.
    repeat split; [lia|lia| |done]. intros k Hik. destruct (Z.eq_dec k i) as [->|]; [done|].
    apply Hk. lia.
Qed.

(** The parser reads a model id from any bytes without leaving them: the whole
    data when there are three of them, else the id after the header without its
    leading zeros beyond three bytes. *)
Lemma ParseHexModelId_total d :
  bytes_ok d ->
  ParseHexModelId d = Done None \/
  exists i n, (i + n <= length d)%nat /\ (3 <= n <= 14)%nat /\
    ParseHexModelId d = Done (Some (BluetoothAddress.BytesToHexString (take n (drop i d)))).
Proof.
  intros Hb. unfold ParseHexModelId, HasModelId. destruct (Z.eqb_spec (size d) kMinModelIdLength) as [E|E].
  { right. unfold size, kMinModelIdLength in E. exists 0%nat, 3%nat. rewrite done_bind. cbv iota.
    unfold GetHexModelIdFromServiceData, size, kMinModelIdLength. rewrite E.
    split; [lia|]. split; [lia|]. rewrite drop_0, take_ge by lia. done. }
  destruct (Z.ltb_spec kMinModelIdLength (size d)) as [Hs|Hs]; [|left; done].
  destruct (decoder_header d Hb) as (l & v & El & Ev & Hl); [intros ->; done|].
  rewrite Ev, done_bind. destruct (v =? 0); [|left; done].
  unfold IsIdLengthValid. rewrite El, !done_bind.
  destruct (Z.leb_spec kMinModelIdLength l) as [H3|]; [|left; done].
  destruct (Z.leb_spec l kMaxModelIdLength) as [H14|]; [|left; done].
  unfold kHeaderLength. destruct (Z.leb_spec (l + 1) (size d)) as [Hle|]; [|left; done]. cbn [andb].
  right. unfold GetHexModelIdFromServiceData.
  rewrite (proj2 (Z.ltb_ge _ _)), (proj2 (Z.eqb_neq _ _)), El, done_bind by lia.
  unfold kMinModelIdLength, kMaxModelIdLength in *.
  destruct (skip_zeros_done (Z.to_nat (1 + l)) d 1 (1 + l)) as (j & -> & Hj & Hj3 & _); [lia..|].
  rewrite done_bind. unfold size in Hle. rewrite copy_bytes_done by lia.
  exists (Z.to_nat j), (Z.to_nat (1 + l - j)). split; [lia|]. split; [lia|done].
Qed.

(** What the rest of the seeker relies on in a parsed advertisement. *)
Definition advertisement_ok (a : NonDiscoverableAdvertisement) : Prop :=
  (1 <= length (account_key_filter a) <= 15)%nat
  /\ (adv_type a = kShowUi \/ adv_type a = kHideUi)
  /\ (length (salt a) = 1 \/ length (salt a) = 2 \/ length (salt a) = 6)%nat
  /\ match battery_notification a with
     | None => True
     | Some n => (length (BatteryNotification.battery_infos n) = 1
                  \/ length (BatteryNotification.battery_infos n) = 3)%nat
                 /\ (BatteryNotification.type n = BatteryNotification.kShowUi
                     \/ BatteryNotification.type n = BatteryNotification.kHideUi)
     end.

Lemma hex_loop_length input output o : length (snd (BluetoothAddress.hex_loop input output o)) = length output.
Proof.
  revert output o. remember (length input) as n eqn:Hn.
  assert (length input <= n)%nat as Hle by lia. clear Hn. revert input Hle.
  induction n as [|n IH]; intros [|m [|l input]] Hle output o; cbn [BluetoothAddress.hex_loop length] in *; try done; try lia.
  destruct (BluetoothAddress.CharToDigit (char_int m)), (BluetoothAddress.CharToDigit (char_int l)); try done.
  rewrite IH by lia. apply length_insert.
Qed.

Lemma HexStringToSpan_length input output o n :
  length (snd (BluetoothAddress.HexStringToSpan input output o n)) = length output.
Proof.
  unfold BluetoothAddress.HexStringToSpan, BluetoothAddress.HexStringToByteContainer.
  destruct (negb _); [done|]. destruct (_ || _); [done|]. apply hex_loop_length.
Qed.

Lemma ParseBluetoothAddress_length input output :
  length (snd (BluetoothAddress.ParseBluetoothAddress input output)) = length output.
Proof.
  unfold BluetoothAddress.ParseBluetoothAddress. destruct (negb _); [done|].
  destruct (_ =? _)%nat; [apply HexStringToSpan_length|]. destruct (_ =? _)%nat; [|done].
  cbv zeta. destruct (_ && _); [done|]. destruct (_ && _); [|done].
  generalize [0; 1; 2; 3; 4; 5]%nat as parts. intros parts. revert output.
  induction parts as [|i parts IH]; intros output; cbn [BluetoothAddress.parse_parts]; [done|].
  pose proof (HexStringToSpan_length (take 2 (drop (3 * i) input)) output i 1) as Hl.
  destruct (BluetoothAddress.HexStringToSpan _ _ _ _) as [[] out]; cbn [snd] in *; [by rewrite IH|done].
Qed.

Lemma ParseNotDiscoverable_total d address uninitialised :
  bytes_ok d -> length uninitialised = 6%nat ->
  exists r, ParseNotDiscoverableAdvertisement d address uninitialised = Done r
    /\ forall a, r = Some a -> advertisement_ok a.
Proof.
  intros Hb Hu. unfold ParseNotDiscoverableAdvertisement.
  destruct (Nat.eqb_spec (length d) 0) as [|Hd]; [by exists None|].
  destruct (decoder_header d Hb) as (l & v & -> & -> & Hl); [by intros ->|]. rewrite done_bind.
  destruct (negb (v =? 0)); [by exists None|]. rewrite done_bind.
  destruct (field_loop_done (length d) d (kHeaderIndex + 1 + Z.to_nat l) ∅) as (m & -> & Hm);
    [done|lia|apply map_Forall_empty|]. rewrite done_bind.
  destruct (either_field_done d m kFieldTypeAccountKeyFilter kShowUi
    kFieldTypeAccountKeyFilterNoNotification kHideUi kNone Hm) as (f & t & -> & Hf & Ht).
  rewrite done_bind. destruct (Nat.eqb_spec (length f) 0) as [|Hf0]; [by exists None|].
  set (salt_m := match m !! _ with Some i => _ | None => _ end).
  assert (exists b, salt_m = Done b) as (b & ->).
  { unfold salt_m. destruct (m !! _) as [i|] eqn:E; [|by exists []].
    destruct (CopyField_done d m _ i Hm E) as (b & -> & _). by exists b. }
  rewrite done_bind. unfold kMaxLengthOfSaltBytes. destruct (Nat.ltb_spec 2 (length b)); [by exists None|].
  destruct (either_field_done d m kFieldTypeBattery BatteryNotification.kShowUi
    kFieldTypeBatteryNoNotification BatteryNotification.kHideUi BatteryNotification.kNone Hm)
    as (bb & tb & -> & Hbb & Htb).
  rewrite done_bind. eexists. split; [done|]. intros a [= <-].
  split; [cbn; lia|]. split; [cbn; apply Ht; by intros ->|]. split.
  - cbn [salt]. destruct (Nat.eqb_spec (length b) 0); [rewrite ParseBluetoothAddress_length; lia|lia].
  - cbn [battery_notification]. destruct bb as [|b1 [|b2 [|b3 [|]]]]; cbn; try done;
      (split; [lia|by apply Htb]).
Qed.

End Safety.
