(* ===== verification/SeekerHandshake.v ===== *)
(** The seeker's side of key-based pairing, after src/fastpair/crypto
    (fast_pair_encryption.cc, fast_pair_decryption.cc), src/fastpair/handshake
    (fast_pair_data_encryptor_impl.cc, fast_pair_gatt_service_client_impl.cc,
    fast_pair_handshake_impl.cc) and src/fastpair/pairing/fastpair
    (fast_pair_pairer_impl.cc).

    One record, [Seeker], holds the members of the objects that pair with one
    device: the device, the GATT service client, the handshake and the pairer.
    The objects post closures to a shared executor with one thread, [executor_],
    and to [pairing_job_]; each closure is a constructor of [Job], and [run_next]
    runs the oldest one.  What comes from outside (results of GATT operations,
    Bluetooth callbacks, the timer, answers of the repository) is an [Event].  What
    the seeker asks of the outside is recorded in [output].

    Calling an [absl::AnyInvocable<void(...)>] does not empty it; moving it into a
    closure does, and calling an empty one stops the program.  Locking a [Mutex] the
    thread already holds never returns.  Both are a [Crash], as are a failed [CHECK],
    [value()] of an empty [std::optional] and an exception.  Parsing and decryption
    callbacks are called before their function returns, and are its result. *)

From Stdlib Require Import ZArith Lia.
From stdpp Require Import base list numbers.
From S2P Require Import Prelude.
From S2P Require Import CppBase.
From S2P Require Import SeekerData.

Open Scope Z_scope.
Open Scope fp_scope.

(** The rest of OpenSSL: the random bytes of the [n]-th call, and elliptic curve
    keys of secp256r1: a new key, its public point in uncompressed form, whether 65
    bytes are a point, and the x coordinate of the product. *)
Class OpenSSLKeys : Type := {
  RAND_bytes : nat -> list Z;
  ec_key : Type;
  EC_KEY_generate_key : nat -> option ec_key;
  EC_POINT_point2oct : ec_key -> option (list Z);
  EC_POINT_oct2point : list Z -> bool;
  ECDH_shared : list Z -> ec_key -> option (list Z);
}.

(** What an array on the stack for the bytes of an address holds before it is
    assigned. *)
Class Stack : Type := { stack_bytes : list Z; stack_bytes_length : length stack_bytes = 6%nat }.

Inductive Protocol : Type :=
| kFastPairInitialPairing | kFastPairRetroactivePairing | kFastPairSubsequentPairing.

Inductive DeviceFastPairVersion : Type := kV1 | kHigherThanV1.

(** [kUnknownFailure] is [PairFailure::kUnknown]. *)
Inductive PairFailure : Type :=
| kUnknownFailure | kCreateGattConnection | kGattServiceDiscovery | kGattServiceDiscoveryTimeout
| kDataEncryptorRetrieval | kKeyBasedPairingCharacteristicDiscovery | kPasskeyCharacteristicDiscovery
| kAccountKeyCharacteristicDiscovery | kKeyBasedPairingCharacteristicSubscription
| kPasskeyCharacteristicSubscription | kKeyBasedPairingCharacteristicSubscriptionTimeout
| kPasskeyCharacteristicSubscriptionTimeout | kKeyBasedPairingCharacteristicWrite
| kPasskeyPairingCharacteristicWrite | kAccountKeyCharacteristicWrite
| kKeyBasedPairingResponseTimeout | kPasskeyResponseTimeout
| kKeybasedPairingResponseDecryptFailure | kIncorrectKeyBasedPairingResponseType
| kPasskeyDecryptFailure | kIncorrectPasskeyResponseType
| kPasskeyMismatch | kPairingDeviceLostBetweenGattConnectionAttempts | kDeviceLostMidPairing
| kPairingAndConnect | kPairingTimeout | kWriteAccountKeyToFootprints.

(** [kUnknownMessageType] is [FastPairMessageType::kUnknown]. *)
Inductive FastPairMessageType : Type :=
| kUnknownMessageType | kKeyBasedPairingRequest | kKeyBasedPairingResponse | kSeekersPasskey | kProvidersPasskey.

(** [std::stoi]: the digits at the start of the text (a passkey has no sign or
    space); without a digit, or beyond [int], an exception is thrown. *)
Fixpoint digits (s : list Z) : list Z :=
  match s with
  | c :: s => if (48 <=? c) && (c <=? 57) then (c - 48) :: digits s else []
  | [] => []
  end.
Definition decimal (ds : list Z) : Z := fold_left (fun a d => 10 * a + d) ds 0.
Definition stoi (s : list Z) : outcome Z :=
  match digits s with
  | [] => Crash
  | ds => if decimal ds <? 2 ^ 31 then Done (decimal ds) else Crash
  end.

(** * Encryption *)
Module FastPairCrypto.
Definition kSharedSecretKeyByteSize : nat := 16.
Definition kPublicKeyByteSize : nat := 64.
Definition kAesBlockByteSize : nat := 16.
Definition kEncryptedDataByteSize : nat := 16.
Definition kMessageTypeIndex : nat := 0.
Definition kResponseAddressStartIndex : nat := 1.
Definition kResponseSaltStartIndex : nat := 7.
Definition kPasskeySaltStartIndex : nat := 4.
Definition kKeybasedPairingResponseType : Z := 1.
Definition kSeekerPasskeyType : Z := 2.
Definition kProviderPasskeyType : Z := 3.

Record DecryptedResponse : Type := MakeResponse
  { response_type : FastPairMessageType; address_bytes : list Z; response_salt : list Z }.
Record DecryptedPasskey : Type := MakePasskey
  { message_type : FastPairMessageType; passkey : Z; passkey_salt : list Z }.
Record KeyPair : Type := MakeKeyPair { shared_secret_key : list Z; public_key : list Z }.

Section Crypto.
Context {O : OpenSSL} {K : OpenSSLKeys}.

Definition byte_at (l : list Z) (i : nat) : Z := default 0 (l !! i).

(** The arrays have 16 bytes, so that the indices are in range. *)
Definition ParseDecryptResponse (aes_key_bytes encrypted_response_bytes : list Z)
  : option DecryptedResponse :=
  let decrypted := AES_decrypt aes_key_bytes encrypted_response_bytes in
  if negb (byte_at decrypted kMessageTypeIndex =? kKeybasedPairingResponseType) then None
  else Some (MakeResponse kKeyBasedPairingResponse
               (take (kResponseSaltStartIndex - kResponseAddressStartIndex)
                     (drop kResponseAddressStartIndex decrypted))
               (drop kResponseSaltStartIndex decrypted)).

Definition ParseDecryptPasskey (aes_key_bytes encrypted_passkey_bytes : list Z)
  : option DecryptedPasskey :=
  let decrypted := AES_decrypt aes_key_bytes encrypted_passkey_bytes in
  let b := byte_at decrypted in
  let type :=
    if b kMessageTypeIndex =? kSeekerPasskeyType then Some kSeekersPasskey
    else if b kMessageTypeIndex =? kProviderPasskeyType then Some kProvidersPasskey
    else None in
  match type with
  | None => None
  | Some t =>
    let passkey := u32 (u32 (b 3%nat + Z.shiftl (b 2%nat) 8) + Z.shiftl (b 1%nat) 16) in
    Some (MakePasskey t passkey (drop kPasskeySaltStartIndex decrypted))
  end.

(** [FastPairDataParser::ParseDecryptedResponse] and [ParseDecryptedPasskey]. *)
Definition ValidateInputSizes (aes_key_bytes encrypted_bytes : list Z) : bool :=
  (length aes_key_bytes =? kAesBlockByteSize)%nat
  && (length encrypted_bytes =? kEncryptedDataByteSize)%nat.
Definition ParseDecryptedResponse (aes_key_bytes encrypted : list Z) : option DecryptedResponse :=
  if negb (ValidateInputSizes aes_key_bytes encrypted) then None
  else ParseDecryptResponse aes_key_bytes encrypted.
Definition ParseDecryptedPasskey (aes_key_bytes encrypted : list Z) : option DecryptedPasskey :=
  if negb (ValidateInputSizes aes_key_bytes encrypted) then None
  else ParseDecryptPasskey aes_key_bytes encrypted.

Definition EncryptBytes (aes_key_bytes bytes_to_encrypt : list Z) : list Z :=
  AES_encrypt aes_key_bytes bytes_to_encrypt.

(** [ECDH_compute_key] hashes the shared x coordinate with [KDF], of whose result 16
    bytes are taken.  The [n]-th call to [EC_KEY_generate_key] is made. *)
Definition GenerateKeysWithEcdhKeyAgreement (n : nat) (decoded_public_anti_spoofing : list Z)
  : option KeyPair :=
  if negb (length decoded_public_anti_spoofing =? kPublicKeyByteSize)%nat then None
  else match EC_KEY_generate_key n with
  | None => None
  | Some key =>
    match EC_POINT_point2oct key with
    | None => None
    | Some uncompressed =>
      if negb (length uncompressed =? kPublicKeyByteSize + 1)%nat then None else
      let buffer := 4 :: decoded_public_anti_spoofing in
      if negb (EC_POINT_oct2point buffer) then None
      else match ECDH_shared buffer key with
      | None => None
      | Some secret =>
        Some (MakeKeyPair (take kSharedSecretKeyByteSize (SHA256 secret)) (drop 1 uncompressed))
      end
    end
  end.

End Crypto.
End FastPairCrypto.

(** * The objects *)

(** The device: BLE address, protocol, public address, account key and, from the
    metadata, the public anti-spoofing key (empty for version 1). *)
Record FastPairDevice : Type := MakeDevice
  { ble_address_ : list Z;
    protocol_ : Protocol;
    metadata_ : option (list Z);
    public_address_ : option (list Z);
    account_key_ : list Z }.

Definition SetPublicAddress (address : list Z) (d : FastPairDevice) : FastPairDevice :=
  MakeDevice (ble_address_ d) (protocol_ d) (metadata_ d) (Some address) (account_key_ d).
Definition SetAccountKey (key : list Z) (d : FastPairDevice) : FastPairDevice :=
  MakeDevice (ble_address_ d) (protocol_ d) (metadata_ d) (public_address_ d) key.
Definition GetVersion (d : FastPairDevice) : option DeviceFastPairVersion :=
  match metadata_ d with
  | None => None
  | Some [] => Some kV1
  | Some _ => Some kHigherThanV1
  end.
Definition version_value (d : FastPairDevice) : outcome DeviceFastPairVersion :=
  match GetVersion d with Some v => Done v | None => Crash end.

(** [FastPairDataEncryptorImpl] *)
Record DataEncryptor : Type := MakeEncryptor
  { shared_secret_key_ : list Z; public_key_ : option (list Z) }.

(** The closures posted to [executor_]; those that capture a callback say whether it
    is there. *)
Inductive Job : Type :=
| clear_current_state (gatt_client : bool)
| init_success
| init_error (failure : PairFailure)
| key_based_response (value : list Z) (failure : option PairFailure)
| passkey_response (value : list Z) (failure : option PairFailure)
| account_key_response (account_key : option (list Z)) (failure : option PairFailure)
| start_pairing
| write_account_key
| notify_paired (callback : bool)
| notify_pairing_failed (failure : PairFailure)
| notify_pairing_completed (callback : bool)
| notify_account_key_failure (callback : bool) (failure : PairFailure).

Inductive Output : Type :=
| ConnectToGattServer
| StopGattClient
| CallRemoteFunction (characteristic : nat) (request : list Z)
| WriteCharacteristic (characteristic : nat) (value : list Z)
| on_complete (failure : option PairFailure)
| CreatePairing (address : list Z)
| InitiateBluetoothPairing
| FinishBluetoothPairing
| CancelBluetoothPairing
| IsDeviceSavedToAccount (address : list Z)
| WriteAccountAssociationToFootprints
| on_paired
| on_pair_failed (failure : PairFailure)
| on_pairing_completed
| on_account_key_failure (failure : PairFailure).

(** The callbacks are set ([true]) or empty.  [initiate_pairing_timer_] is running or
    not; [pairing_job_] has [InitiatePairing] to run or not; [handshake_known] and
    [logged_in] are what the handshake lookup and the account manager answer; [written_account_key] is what the callback of the write of the account key
    has captured; [draws] counts the calls of [RAND_bytes], [keys] those of
    [EC_KEY_generate_key]. *)
Record Seeker : Type := MakeSeeker
  { device_ : FastPairDevice;
    gatt_client_ : bool;
    is_initialized_ : bool;
    on_gatt_initialized_callback_ : bool;
    key_based_write_response_callback_ : bool;
    passkey_write_response_callback_ : bool;
    account_key_write_callback_ : bool;
    written_account_key : option (list Z);
    fast_pair_data_encryptor_ : option DataEncryptor;
    completed_successfully_ : bool;
    handshake_known : bool;
    expected_passkey_ : list Z;
    bluetooth_pairing_ : bool;
    initiate_pairing_timer_ : bool;
    on_paired_cb_ : bool;
    on_pair_failed_cb_ : bool;
    on_account_key_failure_cb_ : bool;
    on_pairing_completed_cb_ : bool;
    executor_ : list Job;
    pairing_job_ : bool;
    logged_in : bool;
    draws : nat;
    keys : nat;
    output : list Output }.

(** Assignments to the members. *)
Section Setters.
Implicit Types k : Seeker.

Definition set_device (v : FastPairDevice) k : Seeker :=
  MakeSeeker v (gatt_client_ k) (is_initialized_ k) (on_gatt_initialized_callback_ k)
    (key_based_write_response_callback_ k) (passkey_write_response_callback_ k)
    (account_key_write_callback_ k) (written_account_key k) (fast_pair_data_encryptor_
    k) (completed_successfully_ k) (handshake_known k) (expected_passkey_ k)
    (bluetooth_pairing_ k) (initiate_pairing_timer_ k) (on_paired_cb_ k)
    (on_pair_failed_cb_ k) (on_account_key_failure_cb_ k) (on_pairing_completed_cb_ k)
    (executor_ k) (pairing_job_ k) (logged_in k) (draws k) (keys k) (output k).
Definition set_gatt_client (v : bool) k : Seeker :=
  MakeSeeker (device_ k) v (is_initialized_ k) (on_gatt_initialized_callback_ k)
    (key_based_write_response_callback_ k) (passkey_write_response_callback_ k)
    (account_key_write_callback_ k) (written_account_key k) (fast_pair_data_encryptor_
    k) (completed_successfully_ k) (handshake_known k) (expected_passkey_ k)
    (bluetooth_pairing_ k) (initiate_pairing_timer_ k) (on_paired_cb_ k)
    (on_pair_failed_cb_ k) (on_account_key_failure_cb_ k) (on_pairing_completed_cb_ k)
    (executor_ k) (pairing_job_ k) (logged_in k) (draws k) (keys k) (output k).
Definition set_is_initialized (v : bool) k : Seeker :=
  MakeSeeker (device_ k) (gatt_client_ k) v (on_gatt_initialized_callback_ k)
    (key_based_write_response_callback_ k) (passkey_write_response_callback_ k)
    (account_key_write_callback_ k) (written_account_key k) (fast_pair_data_encryptor_
    k) (completed_successfully_ k) (handshake_known k) (expected_passkey_ k)
    (bluetooth_pairing_ k) (initiate_pairing_timer_ k) (on_paired_cb_ k)
    (on_pair_failed_cb_ k) (on_account_key_failure_cb_ k) (on_pairing_completed_cb_ k)
    (executor_ k) (pairing_job_ k) (logged_in k) (draws k) (keys k) (output k).
Definition set_on_gatt_initialized_callback (v : bool) k : Seeker :=
  MakeSeeker (device_ k) (gatt_client_ k) (is_initialized_ k) v
    (key_based_write_response_callback_ k) (passkey_write_response_callback_ k)
    (account_key_write_callback_ k) (written_account_key k) (fast_pair_data_encryptor_
    k) (completed_successfully_ k) (handshake_known k) (expected_passkey_ k)
    (bluetooth_pairing_ k) (initiate_pairing_timer_ k) (on_paired_cb_ k)
    (on_pair_failed_cb_ k) (on_account_key_failure_cb_ k) (on_pairing_completed_cb_ k)
    (executor_ k) (pairing_job_ k) (logged_in k) (draws k) (keys k) (output k).
Definition set_key_based_write_response_callback (v : bool) k : Seeker :=
  MakeSeeker (device_ k) (gatt_client_ k) (is_initialized_ k)
    (on_gatt_initialized_callback_ k) v (passkey_write_response_callback_ k)
    (account_key_write_callback_ k) (written_account_key k) (fast_pair_data_encryptor_
    k) (completed_successfully_ k) (handshake_known k) (expected_passkey_ k)
    (bluetooth_pairing_ k) (initiate_pairing_timer_ k) (on_paired_cb_ k)
    (on_pair_failed_cb_ k) (on_account_key_failure_cb_ k) (on_pairing_completed_cb_ k)
    (executor_ k) (pairing_job_ k) (logged_in k) (draws k) (keys k) (output k).
Definition set_passkey_write_response_callback (v : bool) k : Seeker :=
  MakeSeeker (device_ k) (gatt_client_ k) (is_initialized_ k)
    (on_gatt_initialized_callback_ k) (key_based_write_response_callback_ k) v
    (account_key_write_callback_ k) (written_account_key k) (fast_pair_data_encryptor_
    k) (completed_successfully_ k) (handshake_known k) (expected_passkey_ k)
    (bluetooth_pairing_ k) (initiate_pairing_timer_ k) (on_paired_cb_ k)
    (on_pair_failed_cb_ k) (on_account_key_failure_cb_ k) (on_pairing_completed_cb_ k)
    (executor_ k) (pairing_job_ k) (logged_in k) (draws k) (keys k) (output k).
Definition set_account_key_write_callback (v : bool) k : Seeker :=
  MakeSeeker (device_ k) (gatt_client_ k) (is_initialized_ k)
    (on_gatt_initialized_callback_ k) (key_based_write_response_callback_ k)
    (passkey_write_response_callback_ k) v (written_account_key k)
    (fast_pair_data_encryptor_ k) (completed_successfully_ k) (handshake_known k)
    (expected_passkey_ k) (bluetooth_pairing_ k) (initiate_pairing_timer_ k)
    (on_paired_cb_ k) (on_pair_failed_cb_ k) (on_account_key_failure_cb_ k)
    (on_pairing_completed_cb_ k) (executor_ k) (pairing_job_ k) (logged_in k) (draws
    k) (keys k) (output k).
Definition set_written_account_key (v : option (list Z)) k : Seeker :=
  MakeSeeker (device_ k) (gatt_client_ k) (is_initialized_ k)
    (on_gatt_initialized_callback_ k) (key_based_write_response_callback_ k)
    (passkey_write_response_callback_ k) (account_key_write_callback_ k) v
    (fast_pair_data_encryptor_ k) (completed_successfully_ k) (handshake_known k)
    (expected_passkey_ k) (bluetooth_pairing_ k) (initiate_pairing_timer_ k)
    (on_paired_cb_ k) (on_pair_failed_cb_ k) (on_account_key_failure_cb_ k)
    (on_pairing_completed_cb_ k) (executor_ k) (pairing_job_ k) (logged_in k) (draws
    k) (keys k) (output k).
Definition set_fast_pair_data_encryptor (v : option DataEncryptor) k : Seeker :=
  MakeSeeker (device_ k) (gatt_client_ k) (is_initialized_ k)
    (on_gatt_initialized_callback_ k) (key_based_write_response_callback_ k)
    (passkey_write_response_callback_ k) (account_key_write_callback_ k)
    (written_account_key k) v (completed_successfully_ k) (handshake_known k)
    (expected_passkey_ k) (bluetooth_pairing_ k) (initiate_pairing_timer_ k)
    (on_paired_cb_ k) (on_pair_failed_cb_ k) (on_account_key_failure_cb_ k)
    (on_pairing_completed_cb_ k) (executor_ k) (pairing_job_ k) (logged_in k) (draws
    k) (keys k) (output k).
Definition set_completed_successfully (v : bool) k : Seeker :=
  MakeSeeker (device_ k) (gatt_client_ k) (is_initialized_ k)
    (on_gatt_initialized_callback_ k) (key_based_write_response_callback_ k)
    (passkey_write_response_callback_ k) (account_key_write_callback_ k)
    (written_account_key k) (fast_pair_data_encryptor_ k) v (handshake_known k)
    (expected_passkey_ k) (bluetooth_pairing_ k) (initiate_pairing_timer_ k)
    (on_paired_cb_ k) (on_pair_failed_cb_ k) (on_account_key_failure_cb_ k)
    (on_pairing_completed_cb_ k) (executor_ k) (pairing_job_ k) (logged_in k) (draws
    k) (keys k) (output k).
Definition set_expected_passkey (v : list Z) k : Seeker :=
  MakeSeeker (device_ k) (gatt_client_ k) (is_initialized_ k)
    (on_gatt_initialized_callback_ k) (key_based_write_response_callback_ k)
    (passkey_write_response_callback_ k) (account_key_write_callback_ k)
    (written_account_key k) (fast_pair_data_encryptor_ k) (completed_successfully_ k)
    (handshake_known k) v (bluetooth_pairing_ k) (initiate_pairing_timer_ k)
    (on_paired_cb_ k) (on_pair_failed_cb_ k) (on_account_key_failure_cb_ k)
    (on_pairing_completed_cb_ k) (executor_ k) (pairing_job_ k) (logged_in k) (draws
    k) (keys k) (output k).
Definition set_bluetooth_pairing (v : bool) k : Seeker :=
  MakeSeeker (device_ k) (gatt_client_ k) (is_initialized_ k)
    (on_gatt_initialized_callback_ k) (key_based_write_response_callback_ k)
    (passkey_write_response_callback_ k) (account_key_write_callback_ k)
    (written_account_key k) (fast_pair_data_encryptor_ k) (completed_successfully_ k)
    (handshake_known k) (expected_passkey_ k) v (initiate_pairing_timer_ k)
    (on_paired_cb_ k) (on_pair_failed_cb_ k) (on_account_key_failure_cb_ k)
    (on_pairing_completed_cb_ k) (executor_ k) (pairing_job_ k) (logged_in k) (draws
    k) (keys k) (output k).
Definition set_initiate_pairing_timer (v : bool) k : Seeker :=
  MakeSeeker (device_ k) (gatt_client_ k) (is_initialized_ k)
    (on_gatt_initialized_callback_ k) (key_based_write_response_callback_ k)
    (passkey_write_response_callback_ k) (account_key_write_callback_ k)
    (written_account_key k) (fast_pair_data_encryptor_ k) (completed_successfully_ k)
    (handshake_known k) (expected_passkey_ k) (bluetooth_pairing_ k) v (on_paired_cb_
    k) (on_pair_failed_cb_ k) (on_account_key_failure_cb_ k) (on_pairing_completed_cb_
    k) (executor_ k) (pairing_job_ k) (logged_in k) (draws k) (keys k) (output k).
Definition set_on_paired_cb (v : bool) k : Seeker :=
  MakeSeeker (device_ k) (gatt_client_ k) (is_initialized_ k)
    (on_gatt_initialized_callback_ k) (key_based_write_response_callback_ k)
    (passkey_write_response_callback_ k) (account_key_write_callback_ k)
    (written_account_key k) (fast_pair_data_encryptor_ k) (completed_successfully_ k)
    (handshake_known k) (expected_passkey_ k) (bluetooth_pairing_ k)
    (initiate_pairing_timer_ k) v (on_pair_failed_cb_ k) (on_account_key_failure_cb_
    k) (on_pairing_completed_cb_ k) (executor_ k) (pairing_job_ k) (logged_in k)
    (draws k) (keys k) (output k).
Definition set_on_pair_failed_cb (v : bool) k : Seeker :=
  MakeSeeker (device_ k) (gatt_client_ k) (is_initialized_ k)
    (on_gatt_initialized_callback_ k) (key_based_write_response_callback_ k)
    (passkey_write_response_callback_ k) (account_key_write_callback_ k)
    (written_account_key k) (fast_pair_data_encryptor_ k) (completed_successfully_ k)
    (handshake_known k) (expected_passkey_ k) (bluetooth_pairing_ k)
    (initiate_pairing_timer_ k) (on_paired_cb_ k) v (on_account_key_failure_cb_ k)
    (on_pairing_completed_cb_ k) (executor_ k) (pairing_job_ k) (logged_in k) (draws
    k) (keys k) (output k).
Definition set_on_account_key_failure_cb (v : bool) k : Seeker :=
  MakeSeeker (device_ k) (gatt_client_ k) (is_initialized_ k)
    (on_gatt_initialized_callback_ k) (key_based_write_response_callback_ k)
    (passkey_write_response_callback_ k) (account_key_write_callback_ k)
    (written_account_key k) (fast_pair_data_encryptor_ k) (completed_successfully_ k)
    (handshake_known k) (expected_passkey_ k) (bluetooth_pairing_ k)
    (initiate_pairing_timer_ k) (on_paired_cb_ k) (on_pair_failed_cb_ k) v
    (on_pairing_completed_cb_ k) (executor_ k) (pairing_job_ k) (logged_in k) (draws
    k) (keys k) (output k).
Definition set_on_pairing_completed_cb (v : bool) k : Seeker :=
  MakeSeeker (device_ k) (gatt_client_ k) (is_initialized_ k)
    (on_gatt_initialized_callback_ k) (key_based_write_response_callback_ k)
    (passkey_write_response_callback_ k) (account_key_write_callback_ k)
    (written_account_key k) (fast_pair_data_encryptor_ k) (completed_successfully_ k)
    (handshake_known k) (expected_passkey_ k) (bluetooth_pairing_ k)
    (initiate_pairing_timer_ k) (on_paired_cb_ k) (on_pair_failed_cb_ k)
    (on_account_key_failure_cb_ k) v (executor_ k) (pairing_job_ k) (logged_in k)
    (draws k) (keys k) (output k).
Definition set_executor (v : list Job) k : Seeker :=
  MakeSeeker (device_ k) (gatt_client_ k) (is_initialized_ k)
    (on_gatt_initialized_callback_ k) (key_based_write_response_callback_ k)
    (passkey_write_response_callback_ k) (account_key_write_callback_ k)
    (written_account_key k) (fast_pair_data_encryptor_ k) (completed_successfully_ k)
    (handshake_known k) (expected_passkey_ k) (bluetooth_pairing_ k)
    (initiate_pairing_timer_ k) (on_paired_cb_ k) (on_pair_failed_cb_ k)
    (on_account_key_failure_cb_ k) (on_pairing_completed_cb_ k) v (pairing_job_ k)
    (logged_in k) (draws k) (keys k) (output k).
Definition set_pairing_job (v : bool) k : Seeker :=
  MakeSeeker (device_ k) (gatt_client_ k) (is_initialized_ k)
    (on_gatt_initialized_callback_ k) (key_based_write_response_callback_ k)
    (passkey_write_response_callback_ k) (account_key_write_callback_ k)
    (written_account_key k) (fast_pair_data_encryptor_ k) (completed_successfully_ k)
    (handshake_known k) (expected_passkey_ k) (bluetooth_pairing_ k)
    (initiate_pairing_timer_ k) (on_paired_cb_ k) (on_pair_failed_cb_ k)
    (on_account_key_failure_cb_ k) (on_pairing_completed_cb_ k) (executor_ k) v
    (logged_in k) (draws k) (keys k) (output k).
Definition set_draws (v : nat) k : Seeker :=
  MakeSeeker (device_ k) (gatt_client_ k) (is_initialized_ k)
    (on_gatt_initialized_callback_ k) (key_based_write_response_callback_ k)
    (passkey_write_response_callback_ k) (account_key_write_callback_ k)
    (written_account_key k) (fast_pair_data_encryptor_ k) (completed_successfully_ k)
    (handshake_known k) (expected_passkey_ k) (bluetooth_pairing_ k)
    (initiate_pairing_timer_ k) (on_paired_cb_ k) (on_pair_failed_cb_ k)
    (on_account_key_failure_cb_ k) (on_pairing_completed_cb_ k) (executor_ k)
    (pairing_job_ k) (logged_in k) v (keys k) (output k).
Definition set_keys (v : nat) k : Seeker :=
  MakeSeeker (device_ k) (gatt_client_ k) (is_initialized_ k)
    (on_gatt_initialized_callback_ k) (key_based_write_response_callback_ k)
    (passkey_write_response_callback_ k) (account_key_write_callback_ k)
    (written_account_key k) (fast_pair_data_encryptor_ k) (completed_successfully_ k)
    (handshake_known k) (expected_passkey_ k) (bluetooth_pairing_ k)
    (initiate_pairing_timer_ k) (on_paired_cb_ k) (on_pair_failed_cb_ k)
    (on_account_key_failure_cb_ k) (on_pairing_completed_cb_ k) (executor_ k)
    (pairing_job_ k) (logged_in k) (draws k) v (output k).
Definition set_output (v : list Output) k : Seeker :=
  MakeSeeker (device_ k) (gatt_client_ k) (is_initialized_ k)
    (on_gatt_initialized_callback_ k) (key_based_write_response_callback_ k)
    (passkey_write_response_callback_ k) (account_key_write_callback_ k)
    (written_account_key k) (fast_pair_data_encryptor_ k) (completed_successfully_ k)
    (handshake_known k) (expected_passkey_ k) (bluetooth_pairing_ k)
    (initiate_pairing_timer_ k) (on_paired_cb_ k) (on_pair_failed_cb_ k)
    (on_account_key_failure_cb_ k) (on_pairing_completed_cb_ k) (executor_ k)
    (pairing_job_ k) (logged_in k) (draws k) (keys k) v.

Definition Execute (j : Job) k : Seeker := set_executor (executor_ k ++ [j]) k.
Definition emit (o : Output) k : Seeker := set_output (output k ++ [o]) k.

End Setters.

(** * The GATT service client *)
Module GattServiceClient.
Import FastPairCrypto.

Definition kProviderAddressStartIndex : nat := 2.
Definition kSeekerAddressStartIndex : nat := 8.
Definition kSeekerPasskey : Z := 2.
Definition kAccountKeyStartByte : Z := 4.
Definition kKeyBasedCharacteristicIndex : nat := 0.
Definition kPasskeyCharacteristicIndex : nat := 1.
Definition kAccountKeyCharacteristicIndex : nat := 2.

Section GattServiceClient.
Context {ct : CharType} {O : OpenSSL} {K : OpenSSLKeys} {Stk : Stack}.
Implicit Types k : Seeker.

Definition ClearCurrentState k : Seeker :=
  Execute (clear_current_state (gatt_client_ k)) (set_gatt_client false k).

Definition NotifyInitializedError (failure : PairFailure) k : Seeker :=
  Execute (init_error failure) (ClearCurrentState k).

(** [connected]: Bluetooth is enabled and available, and the medium has returned a
    client.  Without one, [NotifyInitializedError] locks the mutex again. *)
Definition CreateGattConnection (connected : bool) k : outcome Seeker :=
  let k := if connected then emit ConnectToGattServer (set_gatt_client true k) else k in
  if gatt_client_ k then Done (set_is_initialized true k) else Crash.

Definition AttemptGattConnection (connected : bool) k : outcome Seeker :=
  CreateGattConnection connected (ClearCurrentState k).

Definition InitializeGattConnection (connected : bool) k : outcome Seeker :=
  AttemptGattConnection connected (set_on_gatt_initialized_callback true k).

(** The callback of the connection, called for every connection that is made. *)
Definition on_connection_status (status : StatusCode) k : Seeker :=
  if code_ok status then Execute init_success k
  else NotifyInitializedError kCreateGattConnection k.

(** [random] is the block filled by [RAND_bytes]. *)
Definition CreateRequest (random : list Z) (message_type flags : Z)
    (provider_address seekers_address : list Z) : list Z :=
  let data_to_write := <[1%nat := flags]> (<[0%nat := message_type]> random) in
  let provider_address_bytes :=
    snd (BluetoothAddress.ParseBluetoothAddress provider_address stack_bytes) in
  let data_to_write :=
    take kProviderAddressStartIndex data_to_write ++ provider_address_bytes
    ++ drop (kProviderAddressStartIndex + 6) data_to_write in
  match seekers_address with
  | [] => data_to_write
  | _ =>
    let seeker_address_bytes :=
      snd (BluetoothAddress.ParseBluetoothAddress seekers_address stack_bytes) in
    take kSeekerAddressStartIndex data_to_write ++ seeker_address_bytes
    ++ drop (kSeekerAddressStartIndex + 6) data_to_write
  end.

Definition CreatePasskeyBlock (random : list Z) (message_type passkey : Z) : list Z :=
  <[3%nat := Z.land passkey 0xff]>
  (<[2%nat := Z.shiftr (Z.land passkey 0xff00) 8]>
  (<[1%nat := Z.shiftr (Z.land passkey 0xff0000) 16]>
  (<[0%nat := message_type]> random))).

Definition CreateAccountKeyBlock (random : list Z) : list Z := <[0%nat := 0x04]> random.

(** The next random block. *)
Definition draw k : list Z * Seeker := (RAND_bytes (draws k), set_draws (S (draws k)) k).

(** [gatt_client_->...] without a client is a null dereference. *)
Definition call_remote (characteristic : nat) (request : list Z) k : outcome Seeker :=
  if gatt_client_ k then Done (emit (CallRemoteFunction characteristic request) k) else Fault.

Definition WriteRequestAsync (message_type flags : Z) (provider_address seekers_address : list Z)
    (e : DataEncryptor) k : outcome Seeker :=
  if key_based_write_response_callback_ k then Crash else
  let k := set_key_based_write_response_callback true k in
  let '(random, k) := draw k in
  let data_to_write := EncryptBytes (shared_secret_key_ e)
    (CreateRequest random message_type flags provider_address seekers_address) in
  let data_to_write := data_to_write ++ match public_key_ e with Some p => p | None => [] end in
  call_remote kKeyBasedCharacteristicIndex data_to_write k.

Definition WritePasskeyAsync (message_type passkey : Z) (e : DataEncryptor) k : outcome Seeker :=
  if negb (is_initialized_ k) then Crash else
  if negb (message_type =? kSeekerPasskey) then Crash else
  let k := set_passkey_write_response_callback true k in
  let '(random, k) := draw k in
  let data_to_write := EncryptBytes (shared_secret_key_ e)
    (CreatePasskeyBlock random message_type passkey) in
  call_remote kPasskeyCharacteristicIndex data_to_write k.

Definition WriteAccountKey (e : DataEncryptor) k : outcome Seeker :=
  if negb (is_initialized_ k) then Crash else
  let k := set_account_key_write_callback true k in
  let '(random, k) := draw k in
  let raw_account_key := CreateAccountKeyBlock random in
  let data_to_write := EncryptBytes (shared_secret_key_ e) raw_account_key in
  if gatt_client_ k
  then Done (set_written_account_key (Some raw_account_key)
               (emit (WriteCharacteristic kAccountKeyCharacteristicIndex data_to_write) k))
  else Fault.

(** The callbacks of the two remote functions and of the write. *)
Definition on_key_based_response (response : StatusOr (list Z)) k : Seeker :=
  match response with
  | Ok value => Execute (key_based_response value None) k
  | Error status =>
    Execute (key_based_response [] (Some
      (if bool_decide (status = kDeadlineExceeded) then kKeyBasedPairingResponseTimeout
       else kKeyBasedPairingCharacteristicWrite))) k
  end.

Definition on_passkey_response (response : StatusOr (list Z)) k : Seeker :=
  match response with
  | Ok value => Execute (passkey_response value None) k
  | Error status =>
    Execute (passkey_response [] (Some
      (if bool_decide (status = kDeadlineExceeded) then kPasskeyResponseTimeout
       else kPasskeyPairingCharacteristicWrite))) k
  end.

(** The callback runs once: it is moved when it is called. *)
Definition on_account_key_written (status : StatusCode) k : Seeker :=
  match written_account_key k with
  | None => k
  | Some account_key =>
    let k := set_written_account_key None k in
    if code_ok status then Execute (account_key_response (Some account_key) None) k
    else Execute (account_key_response None (Some kAccountKeyCharacteristicWrite)) k
  end.

End GattServiceClient.
End GattServiceClient.

(** * The handshake *)
Module Handshake.
Import FastPairCrypto GattServiceClient.

Definition kKeyBasedPairingType : Z := 0.
Definition kInitialOrSubsequentFlags : Z := 0.

Section Handshake.
Context {ct : CharType} {O : OpenSSL} {K : OpenSSLKeys} {Stk : Stack}.
Implicit Types k : Seeker.

(** [FastPairDataEncryptorImpl::ParseDecryptResponse] and [ParseDecryptPasskey]. *)
Definition encryptor_ParseDecryptResponse (e : DataEncryptor) (encrypted : list Z)
  : option DecryptedResponse :=
  if negb (length encrypted =? kAesBlockByteSize)%nat then None
  else ParseDecryptedResponse (shared_secret_key_ e) encrypted.
Definition encryptor_ParseDecryptPasskey (e : DataEncryptor) (encrypted : list Z)
  : option DecryptedPasskey :=
  if negb (length encrypted =? kAesBlockByteSize)%nat then None
  else ParseDecryptedPasskey (shared_secret_key_ e) encrypted.

(** [FastPairDataEncryptorImpl::Factory], with the callback that takes the instance; a
    device without metadata has no key to agree with. *)
Definition CreateAsyncWithKeyExchange {R : Type}
    (callback : option DataEncryptor -> Seeker -> outcome R) k : outcome R :=
  match metadata_ (device_ k) with
  | None => Fault
  | Some public_key =>
    let key_pair := GenerateKeysWithEcdhKeyAgreement (keys k) public_key in
    let k := set_keys (S (keys k)) k in
    callback
      (match key_pair with
       | None => None
       | Some p => Some (MakeEncryptor (shared_secret_key p) (Some (FastPairCrypto.public_key p)))
       end) k
  end.

Definition CreateAsyncWithAccountKey {R : Type}
    (callback : option DataEncryptor -> Seeker -> outcome R) k : outcome R :=
  let account_key := account_key_ (device_ k) in
  if negb (length account_key =? kSharedSecretKeyByteSize)%nat then Crash
  else callback (Some (MakeEncryptor account_key None)) k.

Definition CreateAsync {R : Type}
    (callback : option DataEncryptor -> Seeker -> outcome R) k : outcome R :=
  match protocol_ (device_ k) with
  | kFastPairInitialPairing | kFastPairRetroactivePairing => CreateAsyncWithKeyExchange callback k
  | kFastPairSubsequentPairing => CreateAsyncWithAccountKey callback k
  end.

Definition OnDataEncryptorCreateAsync (e : option DataEncryptor) k : outcome Seeker :=
  match e with
  | None => Done (emit (on_complete (Some kDataEncryptorRetrieval)) k)
  | Some e =>
    let k := set_fast_pair_data_encryptor (Some e) k in
    WriteRequestAsync kKeyBasedPairingType kInitialOrSubsequentFlags (ble_address_ (device_ k)) [] e k
  end.

Definition OnGattClientInitializedCallback (failure : option PairFailure) k : outcome Seeker :=
  match failure with
  | Some f => Done (emit (on_complete (Some f)) k)
  | None => CreateAsync OnDataEncryptorCreateAsync k
  end.

Definition OnParseDecryptedResponse (response : option DecryptedResponse) k : Seeker :=
  match response with
  | None => emit (on_complete (Some kKeybasedPairingResponseDecryptFailure)) k
  | Some r =>
    let k := set_device (SetPublicAddress
      (BluetoothAddress.CanonicalizeBluetoothAddress (address_bytes r)) (device_ k)) k in
    emit (on_complete None) (set_completed_successfully true k)
  end.

Definition OnWriteResponse (response : list Z) (failure : option PairFailure) k : outcome Seeker :=
  match failure with
  | Some f => Done (emit (on_complete (Some f)) k)
  | None =>
    if negb (length response =? kAesBlockByteSize)%nat
    then Done (emit (on_complete (Some kKeybasedPairingResponseDecryptFailure)) k)
    else match fast_pair_data_encryptor_ k with
         | None => Fault
         | Some e => Done (OnParseDecryptedResponse (encryptor_ParseDecryptResponse e response) k)
         end
  end.

(** The constructor; [known] and [logged_in] describe the surroundings. *)
Definition new_handshake (device : FastPairDevice) (known logged_in connected : bool) : outcome Seeker :=
  InitializeGattConnection connected
    (MakeSeeker device false false false false false false None None false known [] false false
       false false false false [] false logged_in 0 0 []).

End Handshake.
End Handshake.

(** * The pairer *)
Module Pairer.
Import FastPairCrypto GattServiceClient Handshake.

Section Pairer.
Context {ct : CharType} {O : OpenSSL} {K : OpenSSLKeys} {Stk : Stack}.
Implicit Types k : Seeker.

(** The constructor, with the four callbacks. *)
Definition new_pairer k : outcome Seeker :=
  let! version := version_value (device_ k) in
  do! match version with
      | kHigherThanV1 => if handshake_known k && completed_successfully_ k then Done tt else Crash
      | kV1 => Done tt
      end in
  Done (set_on_paired_cb true (set_on_pair_failed_cb true
         (set_on_account_key_failure_cb true (set_on_pairing_completed_cb true k)))).

Definition NotifyPaired k : Seeker :=
  Execute (notify_paired (on_paired_cb_ k)) (set_on_paired_cb false k).

Definition NotifyPairingFailed (failure : PairFailure) k : Seeker :=
  let k := set_initiate_pairing_timer false k in
  if on_pair_failed_cb_ k
  then Execute (notify_pairing_failed failure) (set_on_pair_failed_cb false k)
  else k.

Definition NotifyPairingCompleted k : Seeker :=
  Execute (notify_pairing_completed (on_pairing_completed_cb_ k)) (set_on_pairing_completed_cb false k).

Definition NotifyAccountKeyFailure (failure : PairFailure) k : Seeker :=
  Execute (notify_account_key_failure (on_account_key_failure_cb_ k) failure)
    (set_on_account_key_failure_cb false k).

(** [WriteAccountKey] of the pairer. *)
Definition pairer_WriteAccountKey k : outcome Seeker :=
  match fast_pair_data_encryptor_ k with
  | None => Fault
  | Some e => WriteAccountKey e k
  end.

Definition AttemptSendAccountKey k : outcome Seeker :=
  let! version := version_value (device_ k) in
  match version with
  | kV1 => Done (NotifyPairingCompleted k)
  | kHigherThanV1 =>
    match protocol_ (device_ k) with
    | kFastPairSubsequentPairing => Done (NotifyPairingCompleted k)
    | protocol =>
      if negb (logged_in k) then Done (NotifyPairingCompleted k) else
      match protocol with
      | kFastPairInitialPairing =>
        match public_address_ (device_ k) with
        | None => Crash
        | Some address => Done (emit (IsDeviceSavedToAccount address) k)
        end
      | _ => pairer_WriteAccountKey k
      end
    end
  end.

(** The callback of [IsDeviceSavedToAccount]. *)
Definition on_saved_status (status : StatusCode) k : outcome Seeker :=
  if code_ok status then Done (NotifyPairingCompleted k) else pairer_WriteAccountKey k.

Definition OnWriteAccountKey (account_key : option (list Z)) (failure : option PairFailure) k : Seeker :=
  match failure with
  | Some f => NotifyAccountKeyFailure f k
  | None =>
    match account_key with
    | None => NotifyAccountKeyFailure kAccountKeyCharacteristicWrite k
    | Some key =>
      let k := set_device (SetAccountKey key (device_ k)) k in
      match protocol_ (device_ k) with
      | kFastPairRetroactivePairing => NotifyPairingCompleted k
      | _ => emit WriteAccountAssociationToFootprints k
      end
    end
  end.

(** The callback of [WriteAccountAssociationToFootprints]. *)
Definition on_footprints_status (status : StatusCode) k : Seeker :=
  if code_ok status then NotifyPairingCompleted k
  else NotifyAccountKeyFailure kWriteAccountKeyToFootprints k.

Definition StartPairing k : Seeker := Execute start_pairing k.

Definition run_start_pairing k : outcome Seeker :=
  match protocol_ (device_ k) with
  | kFastPairInitialPairing | kFastPairSubsequentPairing =>
    Done (set_pairing_job true (set_initiate_pairing_timer true k))
  | kFastPairRetroactivePairing => AttemptSendAccountKey k
  end.

(** The answers of the Bluetooth adapter: it is enabled and available, it gives a
    pairing for the device, the device is unpaired, the pairing is initiated. *)
Definition InitiatePairing (available created unpaired initiated : bool) k : outcome Seeker :=
  let! k :=
    if available then
      match public_address_ (device_ k) with
      | None => Crash
      | Some address => Done (set_bluetooth_pairing created (emit (CreatePairing address) k))
      end
    else Done k in
  if negb (bluetooth_pairing_ k) then Done (NotifyPairingFailed kPairingAndConnect k)
  else if negb unpaired then Done (NotifyPairingFailed kPairingAndConnect k)
  else
    let k := emit InitiateBluetoothPairing k in
    if initiated then Done k else Done (NotifyPairingFailed kPairingAndConnect k).

(** [bluetooth_pairing_->...] *)
Definition with_pairing (o : Output) k : outcome Seeker :=
  if bluetooth_pairing_ k then Done (emit o k) else Fault.

Definition ConfirmPasskey (passkey : list Z) k : outcome Seeker :=
  if negb (handshake_known k) then
    let! k := with_pairing CancelBluetoothPairing k in
    Done (NotifyPairingFailed kDeviceLostMidPairing k)
  else
    let k := set_expected_passkey passkey k in
    let! n := stoi (expected_passkey_ k) in
    match fast_pair_data_encryptor_ k with
    | None => Fault
    | Some e => WritePasskeyAsync 0x02 (u32 n) e k
    end.

Definition OnParseDecryptedPasskey (p : option DecryptedPasskey) k : outcome Seeker :=
  match p with
  | None => Done (NotifyPairingFailed kPasskeyDecryptFailure k)
  | Some p =>
    match message_type p with
    | kProvidersPasskey =>
      let! n := stoi (expected_passkey_ k) in
      if negb (passkey p =? u32 n) then Done (NotifyPairingFailed kPasskeyMismatch k)
      else with_pairing FinishBluetoothPairing k
    | _ => Done (NotifyPairingFailed kIncorrectPasskeyResponseType k)
    end
  end.

Definition OnPasskeyResponse (response : list Z) (failure : option PairFailure) k : outcome Seeker :=
  match failure with
  | Some f => Done (NotifyPairingFailed f k)
  | None =>
    match fast_pair_data_encryptor_ k with
    | None => Fault
    | Some e => OnParseDecryptedPasskey (encryptor_ParseDecryptPasskey e response) k
    end
  end.

(** The callbacks of the Bluetooth pairing. *)
Definition on_paired_event k : Seeker :=
  if negb (initiate_pairing_timer_ k) then k
  else Execute write_account_key (NotifyPaired (set_initiate_pairing_timer false k)).

Definition on_pairing_error_event k : Seeker := NotifyPairingFailed kPairingAndConnect k.

Definition on_pairing_initiated_event (passkey : list Z) k : outcome Seeker :=
  if negb (initiate_pairing_timer_ k) then Done k else
  let! version := version_value (device_ k) in
  match version with
  | kV1 => with_pairing FinishBluetoothPairing k
  | kHigherThanV1 => ConfirmPasskey passkey k
  end.

(** The timer fires once. *)
Definition on_pairing_timeout k : Seeker :=
  if initiate_pairing_timer_ k then NotifyPairingFailed kPairingTimeout k else k.

Definition CancelPairing k : outcome Seeker :=
  if negb (bluetooth_pairing_ k) then Done k else with_pairing CancelBluetoothPairing k.

(** * Steps *)

(** A callback that was moved into a closure is called by it. *)
Definition call_callback (set : bool) (o : Output) k : outcome Seeker :=
  if set then Done (emit o k) else Crash.

Definition run_job (j : Job) k : outcome Seeker :=
  match j with
  | clear_current_state gatt_client => Done (if gatt_client : bool then emit StopGattClient k else k)
  | init_success =>
    if on_gatt_initialized_callback_ k then OnGattClientInitializedCallback None k else Done k
  | init_error failure =>
    if on_gatt_initialized_callback_ k then OnGattClientInitializedCallback (Some failure) k else Done k
  | key_based_response value failure =>
    if key_based_write_response_callback_ k then OnWriteResponse value failure k else Done k
  | passkey_response value failure =>
    if passkey_write_response_callback_ k then OnPasskeyResponse value failure k else Done k
  | account_key_response account_key failure =>
    Done (if account_key_write_callback_ k then OnWriteAccountKey account_key failure k else k)
  | start_pairing => run_start_pairing k
  | write_account_key => AttemptSendAccountKey k
  | notify_paired set => call_callback set on_paired k
  | notify_pairing_failed failure => Done (emit (on_pair_failed failure) k)
  | notify_pairing_completed set => call_callback set on_pairing_completed k
  | notify_account_key_failure set failure => call_callback set (on_account_key_failure failure) k
  end.

Definition run_next k : outcome Seeker :=
  match executor_ k with
  | [] => Done k
  | j :: js => run_job j (set_executor js k)
  end.

Inductive Event : Type :=
| RunNext
| ConnectionStatus (status : StatusCode)
| Response (characteristic : nat) (response : StatusOr (list Z))
| AccountKeyWritten (status : StatusCode)
| CreatePairer
| StartPairingCall
| RunPairingJob (available created unpaired initiated : bool)
| PairedEvent
| PairingErrorEvent
| PairingInitiatedEvent (passkey : list Z)
| PairingTimeout
| CancelPairingCall
| SavedStatus (status : StatusCode)
| FootprintsStatus (status : StatusCode).

Definition step (e : Event) k : outcome Seeker :=
  match e with
  | RunNext => run_next k
  | ConnectionStatus status => Done (on_connection_status status k)
  | Response 0 response => Done (on_key_based_response response k)
  | Response 1 response => Done (on_passkey_response response k)
  | Response _ _ => Done k
  | AccountKeyWritten status => Done (on_account_key_written status k)
  | CreatePairer => new_pairer k
  | StartPairingCall => Done (StartPairing k)
  | RunPairingJob available created unpaired initiated =>
    if pairing_job_ k
    then InitiatePairing available created unpaired initiated (set_pairing_job false k)
    else Done k
  | PairedEvent => Done (on_paired_event k)
  | PairingErrorEvent => Done (on_pairing_error_event k)
  | PairingInitiatedEvent passkey => on_pairing_initiated_event passkey k
  | PairingTimeout => Done (on_pairing_timeout k)
  | CancelPairingCall => CancelPairing k
  | SavedStatus status => on_saved_status status k
  | FootprintsStatus status => Done (on_footprints_status status k)
  end.

Fixpoint steps (es : list Event) k : outcome Seeker :=
  match es with
  | [] => Done k
  | e :: es => let! k := step e k in steps es k
  end.

End Pairer.
End Pairer.
