(* ===== verification/SeekerSafety.v ===== *)
(** What a seeker does in any run, whatever it hears: over every sequence of events
    of its surroundings ([Pairer.steps], [SeekerHandshake]) it confirms a Bluetooth
    pairing only for a device that has answered with the passkey it expects, under
    a key that only the device it set out to pair with can know.  A GATT connection
    that is lost and made again stops the program. *)

From Stdlib Require Import ZArith Lia.
From stdpp Require Import base list numbers.
From S2P Require Import Prelude Utils.
From S2P Require Import CppBase SeekerData SeekerHandshake.
Import Utils.

Open Scope Z_scope.
Open Scope fp_scope.

Section Safety.
Context {ct : CharType} {O : OpenSSL} {Ospec : OpenSSLSpec O} {K : OpenSSLKeys} {Stk : Stack}.
Import FastPairCrypto GattServiceClient Handshake Pairer.
Implicit Types k : Seeker.

(** An account key the seeker has made. *)
Definition own_account_key (key : list Z) : Prop := exists j, key = CreateAccountKeyBlock (RAND_bytes j).

(** The session keys of a pairing with the device [d]: agreed with its anti-spoofing
    key, or, for a device of the account, an account key. *)
Definition derived (d : FastPairDevice) (e : DataEncryptor) : Prop :=
  match protocol_ d with
  | kFastPairSubsequentPairing =>
    public_key_ e = None /\ (shared_secret_key_ e = account_key_ d \/ own_account_key (shared_secret_key_ e))
  | _ => exists j anti_spoofing p, metadata_ d = Some anti_spoofing
    /\ GenerateKeysWithEcdhKeyAgreement j anti_spoofing = Some p
    /\ e = MakeEncryptor (shared_secret_key p) (Some (FastPairCrypto.public_key p))
  end.

(** Among the events there is a passkey shown by the Bluetooth stack and a
    notification that is, under the session key, the provider's block with that
    passkey. *)
Definition confirmed (d : FastPairDevice) (es : list Event) : Prop :=
  exists shown x value e, PairingInitiatedEvent shown ∈ es /\ stoi shown = Done x
    /\ Response kPasskeyCharacteristicIndex (Ok value) ∈ es /\ derived d e /\ length value = 16%nat
    /\ exists salt, AES_decrypt (shared_secret_key_ e) value = kProviderPasskeyType :: be_bytes 3 x ++ salt.

Definition job_ok (es : list Event) (j : Job) : Prop :=
  match j with
  | passkey_response value None => Response kPasskeyCharacteristicIndex (Ok value) ∈ es
  | account_key_response (Some key) _ => own_account_key key
  | _ => True
  end.

Definition output_ok (d : FastPairDevice) (es : list Event) (o : Output) : Prop :=
  match o with FinishBluetoothPairing => confirmed d es | _ => True end.

(** The invariant of a seeker that set out to pair with [d], after the events [es]. *)
Record seeker_ok (d : FastPairDevice) (es : list Event) k : Prop := {
  seeker_protocol : protocol_ (device_ k) = protocol_ d;
  seeker_metadata : metadata_ (device_ k) = metadata_ d;
  seeker_account_key : account_key_ (device_ k) = account_key_ d \/ own_account_key (account_key_ (device_ k));
  seeker_written : forall key, written_account_key k = Some key -> own_account_key key;
  seeker_encryptor : forall e, fast_pair_data_encryptor_ k = Some e -> derived d e;
  seeker_expected : expected_passkey_ k = [] \/ PairingInitiatedEvent (expected_passkey_ k) ∈ es;
  seeker_jobs : Forall (job_ok es) (executor_ k);
  seeker_output : Forall (output_ok d es) (output k);
}.

Lemma confirmed_mono d es e : confirmed d es -> confirmed d (es ++ [e]).
Proof.
  intros (shown & x & value & c & H1 & Hx & H2 & H). exists shown, x, value, c.
  rewrite !elem_of_app. auto.
Qed.

Lemma seeker_ok_mono d es e k : seeker_ok d es k -> seeker_ok d (es ++ [e]) k.
Proof.
  intros [H1 H2 H3 H4 H5 H6 H7 H8]. split; try done.
  - rewrite elem_of_app. by destruct H6; auto.
  - eapply Forall_impl; [|exact H7]. intros [] H; try done. destruct failure; [done|]. apply elem_of_app. by left.
  - eapply Forall_impl; [|exact H8]. intros [] H; try done. by apply confirmed_mono.
Qed.

(** The provider's passkey as the seeker reads it. *)
Lemma parsed_passkey e value p x :
  encryptor_ParseDecryptPasskey e value = Some p -> message_type p = kProvidersPasskey ->
  0 <= x < 2 ^ 31 -> (passkey p =? u32 x) = true ->
  length value = 16%nat /\ exists salt, AES_decrypt (shared_secret_key_ e) value
    = kProviderPasskeyType :: be_bytes 3 x ++ salt.
Proof.
  unfold encryptor_ParseDecryptPasskey, kAesBlockByteSize.
  destruct (Nat.eqb_spec (length value) 16) as [Hl|]; cbn [negb]; [|done].
  unfold ParseDecryptedPasskey. destruct (ValidateInputSizes _ _); cbn [negb]; [|done].
  unfold ParseDecryptPasskey, byte_at.
  pose proof (AES_decrypt_ok (shared_secret_key_ e) value) as Hb.
  pose proof (AES_decrypt_length (shared_secret_key_ e) value) as Hd.
  destruct (AES_decrypt _ value) as [|t [|b1 [|b2 [|b3 salt]]]]; try done. clear Hd.
  apply Forall_cons_1 in Hb as [_ Hb]. apply Forall_cons_1 in Hb as [H1 Hb].
  apply Forall_cons_1 in Hb as [H2 Hb]. apply Forall_cons_1 in Hb as [H3 _]. unfold is_byte in *.
  cbn [lookup list_lookup default kMessageTypeIndex kPasskeySaltStartIndex]. cbv [id].
  destruct (t =? kSeekerPasskeyType); cbv iota beta zeta; [by intros [= <-]|].
  destruct (Z.eqb_spec t kProviderPasskeyType) as [->|]; cbv iota beta; [|done]. intros [= <-] _ Hx.
  cbn [passkey] in *. intros Hp%Z.eqb_eq. split; [done|]. exists salt. f_equal.
  change (b1 :: b2 :: b3 :: salt) with ([b1; b2; b3] ++ salt). f_equal.
  rewrite <- (be_bytes_be_value [b1; b2; b3]) at 1 by (repeat apply Forall_cons_2; done).
  change (length [b1; b2; b3]) with 3%nat. f_equal. unfold be_value. cbn [fold_left].
  rewrite !Z.shiftl_mul_pow2 in Hp by lia. change (2 ^ 8) with 256 in Hp. change (2 ^ 16) with 65536 in Hp.
  unfold u32 in Hp. change (2 ^ 32) with 4294967296 in Hp. change (2 ^ 31) with 2147483648 in Hx.
  rewrite (Z.mod_small (b3 + b2 * 256)), !Z.mod_small in Hp by lia. lia.
Qed.

Lemma stoi_range s x : stoi s = Done x -> 0 <= x < 2 ^ 31.
Proof.
  assert (forall ds a, Forall (fun d => 0 <= d) ds -> 0 <= a -> 0 <= fold_left (fun a d => 10 * a + d) ds a) as Hf.
  { induction ds as [|d ds IH]; intros a Hd Ha; cbn; [done|].
    apply Forall_cons_1 in Hd as [? ?]. apply IH; [done|lia]. }
  assert (Forall (fun d => 0 <= d) (digits s)) as Hd.
  { induction s as [|c s IH]; cbn; [done|]. destruct (48 <=? c) eqn:E; cbn [andb]; [|done].
    apply Z.leb_le in E. destruct (c <=? 57); constructor; [lia|done]. }
  unfold stoi. destruct (digits s) as [|d ds] eqn:E; [done|]. rewrite <- E in *.
  destruct (Z.ltb_spec (decimal (digits s)) (2 ^ 31)); [|done]. intros [= <-].
  split; [|done]. unfold decimal. by apply Hf.
Qed.

Lemma emit_ok d es o k : seeker_ok d es k -> output_ok d es o -> seeker_ok d es (emit o k).
Proof. intros [] Hj. split; try done. cbn. apply Forall_app. split; [done|]. by apply Forall_singleton. Qed.

Lemma NotifyPairingFailed_ok d es failure k : seeker_ok d es k -> seeker_ok d es (NotifyPairingFailed failure k).
Proof.
  intros []. unfold NotifyPairingFailed. case_match; split; try done.
  cbn. apply Forall_app. split; [done|]. by apply Forall_singleton.
Qed.

(** Unfolds the member functions in [H] down to assignments, closures and outputs,
    and splits it into their branches. *)
Ltac branches H :=
  unfold run_job, on_connection_status, NotifyInitializedError, ClearCurrentState, on_key_based_response,
    on_passkey_response, on_account_key_written, OnGattClientInitializedCallback, OnWriteResponse,
    OnParseDecryptedResponse, new_pairer, NotifyPaired,
    NotifyPairingCompleted, NotifyAccountKeyFailure, on_saved_status, OnWriteAccountKey,
    on_footprints_status, StartPairing, run_start_pairing, InitiatePairing, call_callback,
    on_paired_event, on_pairing_error_event, on_pairing_timeout, CancelPairing, call_remote, version_value, with_pairing,
    mbind, outcome_bind in H; repeat (case_match || simplify_eq).

(** Closes the branches that change nothing the invariant speaks of but the
    closures posted and the outputs. *)
Ltac unchanged :=
  try apply NotifyPairingFailed_ok;
  match goal with Hk : seeker_ok _ _ _ |- seeker_ok _ _ _ =>
    destruct Hk; split; cbn in *; try done;
    repeat first [done | apply Forall_app; split | apply List.Forall_cons | apply List.Forall_nil]; by auto end.

(** A session key is set and the request written. *)
Lemma OnDataEncryptorCreateAsync_ok d es e k k' :
  seeker_ok d es k -> (forall x, e = Some x -> derived d x) ->
  OnDataEncryptorCreateAsync e k = Done k' -> seeker_ok d es k'.
Proof.
  intros Hk He H. unfold OnDataEncryptorCreateAsync, WriteRequestAsync, draw in H. branches H; unchanged.
Qed.

Lemma CreateAsync_ok d es k k' : seeker_ok d es k -> CreateAsync OnDataEncryptorCreateAsync k = Done k' -> seeker_ok d es k'.
Proof.
  intros Hk H. pose proof Hk as [Hp Hm Ha _ _ _ _ _]. unfold CreateAsync in H.
  assert (protocol_ d <> kFastPairSubsequentPairing -> CreateAsyncWithKeyExchange OnDataEncryptorCreateAsync k = Done k' -> seeker_ok d es k') as Hx.
  { intros Hne Hc. unfold CreateAsyncWithKeyExchange in Hc. rewrite Hm in Hc.
    destruct (metadata_ d) as [key|] eqn:Ed; [|done].
    eapply OnDataEncryptorCreateAsync_ok in Hc; [exact Hc|by destruct Hk|].
    intros x Ex. case_match; [|done]. injection Ex as <-. unfold derived.
    destruct (protocol_ d); [eauto 10..|done]. }
  rewrite Hp in H. destruct (protocol_ d) eqn:Ed; [by apply Hx..|].
  unfold CreateAsyncWithAccountKey in H. case_match; [done|].
  eapply OnDataEncryptorCreateAsync_ok in H; [done|done|]. intros x [= <-]. unfold derived. by rewrite Ed.
Qed.

Lemma WriteAccountKey_ok d es k k' : seeker_ok d es k -> pairer_WriteAccountKey k = Done k' -> seeker_ok d es k'.
Proof.
  intros Hk H. unfold pairer_WriteAccountKey, WriteAccountKey, draw in H. branches H.
  destruct Hk; split; cbn in *; try done.
  - intros key [= <-]. by eexists.
  - apply Forall_app. split; [done|]. by apply Forall_singleton.
Qed.

Lemma AttemptSendAccountKey_ok d es k k' : seeker_ok d es k -> AttemptSendAccountKey k = Done k' -> seeker_ok d es k'.
Proof.
  intros Hk H. unfold AttemptSendAccountKey in H. branches H; eauto using WriteAccountKey_ok. all: unchanged.
Qed.

(** The pairing is confirmed after the comparison. *)
Lemma OnPasskeyResponse_ok d es value failure k k' :
  seeker_ok d es k -> job_ok es (passkey_response value failure) ->
  OnPasskeyResponse value failure k = Done k' -> seeker_ok d es k'.
Proof.
  intros Hk Hj H. unfold OnPasskeyResponse, OnParseDecryptedPasskey in H. branches H; try unchanged.
  apply emit_ok; [done|]. destruct Hk as [_ _ _ _ He Hx _ _].
  destruct Hx as [Hx|Hx]; [by rewrite Hx in H4|].
  apply negb_false_iff in H5. pose proof (stoi_range _ _ H4) as Hr.
  destruct (parsed_passkey _ _ _ _ H2 H3 Hr H5) as [Hl Hs].
  exists (expected_passkey_ k), a, value, d0. cbn in Hj. auto 10.
Qed.

Lemma run_job_ok d es j k k' : seeker_ok d es k -> job_ok es j -> run_job j k = Done k' -> seeker_ok d es k'.
Proof.
  intros Hk Hj H. destruct j; branches H; eauto using CreateAsync_ok, AttemptSendAccountKey_ok, OnPasskeyResponse_ok.
  all: unchanged.
Qed.

Lemma run_next_ok d es k k' : seeker_ok d es k -> run_next k = Done k' -> seeker_ok d es k'.
Proof.
  intros Hk H. unfold run_next in H. destruct (executor_ k) as [|j js] eqn:E; [by injection H as <-|].
  pose proof (seeker_jobs _ _ _ Hk) as Hj. rewrite E in Hj. apply Forall_cons_1 in Hj as [Hj Hjs].
  eapply run_job_ok; [|exact Hj|exact H]. by destruct Hk.
Qed.

(** The passkey shown is remembered and sent. *)
Lemma ConfirmPasskey_ok d es passkey k k' :
  seeker_ok d es k -> PairingInitiatedEvent passkey ∈ es -> ConfirmPasskey passkey k = Done k' -> seeker_ok d es k'.
Proof.
  intros Hk He H. unfold ConfirmPasskey, WritePasskeyAsync, draw in H. branches H. all: unchanged.
Qed.

Lemma seeker_step_ok d es e k k' :
  metadata_ d <> Some [] -> seeker_ok d es k -> step e k = Done k' -> seeker_ok d (es ++ [e]) k'.
Proof.
  intros Hv Hk%(seeker_ok_mono _ _ e) H. unfold step in H.
  destruct e; [by eapply run_next_ok|branches H; eauto using WriteAccountKey_ok..]; try unchanged.
  - destruct Hk. split; try done. cbn. apply Forall_app. split; [done|]. apply Forall_singleton. cbn.
    apply elem_of_app. right. apply list_elem_of_here.
  - destruct Hk as [? ? ? Hw]. split; try done. cbn. apply Forall_app. split; [done|].
    apply Forall_singleton. by apply Hw.
  - unfold on_pairing_initiated_event in H. case_match; [by injection H as <-|].
    unfold version_value, GetVersion in H. rewrite (seeker_metadata _ _ _ Hk) in H.
    destruct (metadata_ d) as [[|]|]; cbn in H; [done| |done].
    eapply ConfirmPasskey_ok; [done| |exact H]. apply elem_of_app. right. apply list_elem_of_here.
Qed.

Lemma steps_ok d es k k' :
  metadata_ d <> Some [] -> forall es0, seeker_ok d es0 k -> steps es k = Done k' -> seeker_ok d (es0 ++ es) k'.
Proof.
  intros Hv. revert k. induction es as [|e es IH]; intros k es0 Hk H; cbn [steps] in H.
  - injection H as <-. by rewrite app_nil_r.
  - apply bind_done_inv in H as (k1 & H1 & H).
    change (e :: es) with ([e] ++ es). rewrite app_assoc. eapply IH; [|exact H]. by eapply seeker_step_ok.
Qed.

Lemma new_handshake_ok d known logged connected k :
  new_handshake d known logged connected = Done k -> seeker_ok d [] k.
Proof.
  unfold new_handshake, InitializeGattConnection, AttemptGattConnection, CreateGattConnection. intros H.
  destruct connected; cbn in H; [|done]. injection H as <-. split; cbn; auto; try done.
  - apply Forall_singleton. done.
  - apply Forall_singleton. done.
Qed.

(** C3. The seeker pairs with the device it found and with no other.  Whatever the
    surroundings do, in any order (notifications, connection changes, callbacks of the
    Bluetooth stack, timeouts), when the seeker of a device with an anti-spoofing key
    has confirmed a Bluetooth pairing, the passkey its own stack showed came back in a
    notification encrypted under the session key: the one agreed with the device's
    anti-spoofing key, or, for a device of the account, an account key. *)
Theorem Seeker_confirms_authenticated d known logged connected es k k' :
  metadata_ d <> Some [] -> new_handshake d known logged connected = Done k -> steps es k = Done k' ->
  FinishBluetoothPairing ∈ output k' -> confirmed d es.
Proof.
  intros Hv Hk H Hin. eapply new_handshake_ok, steps_ok in Hk; [|done|exact H].
  pose proof (seeker_output _ _ _ Hk) as Ho. rewrite List.Forall_forall in Ho.
  apply (Ho FinishBluetoothPairing). by apply list_elem_of_In.
Qed.

(** The GATT client reports that it is connected, and the executor runs what this posts. *)
Definition connected_once : list Event := [ConnectionStatus kOk; RunNext].

(** Evaluates steps up to the computations on bytes. *)
Ltac run_seeker := lazy -[GenerateKeysWithEcdhKeyAgreement protocol_ metadata_ shared_secret_key
  FastPairCrypto.public_key EncryptBytes CreateRequest RAND_bytes].

(** C39. The GATT client reports each connection it makes, and the handshake sends its
    request for each of them.  When the connection is lost and made again before the
    handshake ends, the second request finds the first one's callback still set, and
    the [CHECK] stops the program. *)
Theorem Reconnection_stops_seeker d known logged anti_spoofing p p' :
  protocol_ d = kFastPairInitialPairing -> metadata_ d = Some anti_spoofing ->
  GenerateKeysWithEcdhKeyAgreement 0 anti_spoofing = Some p ->
  GenerateKeysWithEcdhKeyAgreement 1 anti_spoofing = Some p' ->
  exists k k1 request, new_handshake d known logged true = Done k
  /\ steps (RunNext :: connected_once) k = Done k1
  /\ output k1 = [ConnectToGattServer; CallRemoteFunction kKeyBasedCharacteristicIndex request]
  /\ steps connected_once k1 = Crash.
Proof.
  intros Hp Hm Hg Hg'. eexists. do 2 eexists. split; [reflexivity|].
  split; [run_seeker; rewrite Hp, Hm, Hg; reflexivity|]. split; [reflexivity|].
  run_seeker. rewrite Hp, Hm, Hg'. reflexivity.
Qed.

End Safety.
