(* ===== verification/SeekerStream.v ===== *)
(** The seeker's end of the message stream, after src/fastpair/message_stream
    (medium.cc, message_stream.cc, message.h), with the reading of exactly [n] bytes
    (src/internal/platform/input_stream.cc), futures
    (src/internal/platform/settable_future.h) and the printing of addresses
    (src/internal/platform/bluetooth_utils.cc).

    One record, [Stream], holds the members of a [MessageStream] and its [Medium].
    The closure of [OpenRfcomm] runs on the medium's executor and blocks in
    [ConnectToService] and, in [RunLoop], in [Read]; its local variables at these
    points are the [LoopState], and [on_connected] and [on_read] continue it with the
    results.  The calls of the application run on other threads, between the
    reads: [GetActiveComponents] sends and then takes the mutex, and is two steps.
    Calls of the observer are recorded in [notes], bytes written to the socket in
    [written]. *)

From Stdlib Require Import ZArith Lia.
From stdpp Require Import base list numbers.
From S2P Require Import Prelude.
From S2P Require Import CppBase SeekerData.

Open Scope Z_scope.
Open Scope fp_scope.

(** * Messages *)

(** [MessageGroup] and [MessageCode]; codes of different groups share values. *)
Definition kBluetooth : Z := 1.
Definition kCompanionAppEvent : Z := 2.
Definition kDeviceInformationEvent : Z := 3.
Definition kDeviceActionEvent : Z := 4.
Definition kSass : Z := 7.
Definition kAcknowledgement : Z := 255.
Definition kEnableSilenceMode : Z := 1.
Definition kDisableSilenceMode : Z := 2.
Definition kLogBufferFull : Z := 1.
Definition kModelId : Z := 1.
Definition kBleAddressUpdated : Z := 2.
Definition kBatteryUpdated : Z := 3.
Definition kRemainingBatteryTime : Z := 4.
Definition kActiveComponentRequest : Z := 5.
Definition kActiveComponentResponse : Z := 6.
Definition kCapabilites : Z := 7.
Definition kPlatformType : Z := 8.
Definition kRing : Z := 1.
Definition kAck : Z := 1.
Definition kNack : Z := 2.

Record StreamMessage : Type := MakeMessage { message_group : Z; message_code : Z; payload : list Z }.

(** * Futures *)

Inductive Exception : Type :=
| kFailed | kSuccess | kIo | kInterrupted | kInvalidProtocolBuffer | kExecution | kTimeout
| kIllegalCharacters.
Inductive FutureResult : Type := Value (v : Z) | Raised (e : Exception).

(** The futures created so far, by number; [None] until they are done. *)
Definition Futures : Type := list (option FutureResult).

(** [Set] and [SetException]: a future that is done keeps its result. *)
Definition settle (i : nat) (r : FutureResult) (fs : Futures) : Futures :=
  match fs !! i with Some None => <[i := Some r]> fs | _ => fs end.

(** * State *)

(** [InputStream::ReadExactly] between two calls of [Read]. *)
Record Reading : Type := MakeReading { read_size : nat; read_buffer : list Z; current_pos : nat }.

Inductive LoopState : Type :=
| NotRunning
| Connecting
| ReadingHeader (r : Reading)
| ReadingPayload (group code : Z) (length : Z) (r : Reading).

Record BatteryInfo : Type := MakeBatteryInfo { is_charging : bool; level : option Z }.

(** What the observer is told; durations are in minutes. *)
Inductive Note : Type :=
| OnConnectionResult (s : StatusCode)
| OnDisconnected (s : StatusCode)
| OnEnableSilenceMode (enable : bool)
| OnLogBufferFull
| OnModelId (model_id : list Z)
| OnBleAddressUpdated (address : list Z)
| OnBatteryUpdated (levels : list BatteryInfo)
| OnRemainingBatteryTime (minutes : Z)
| OnRing (components minutes : Z).

Record MessageWithAck : Type := MakeWithAck { ack_group : Z; ack_code : Z; ack_future : nat }.

(** [received] lists the messages [RunLoop] has handed on; [opening] counts the
    closures of [OpenRfcomm] on the executor. *)
Record Stream : Type := MakeStream
  { bt_classic : bool;
    has_public_address : bool;
    opening : nat;
    cancelled : bool;
    socket_ : bool;
    loop : LoopState;
    waiting_for_ack_ : list MessageWithAck;
    get_active_components_request_ : option nat;
    futures : Futures;
    written : list (list Z);
    received : list StreamMessage;
    notes : list Note }.

(** The surroundings: whether the [n]-th write to the socket succeeds, and whether
    the observer accepts a request to ring. *)
Class Surroundings : Type :=
  { write_ok : nat -> bool; on_ring : Z -> Z -> bool }.

Section Setters.
Implicit Types k : Stream.

Definition set_opening (v : nat) k : Stream :=
  MakeStream (bt_classic k) (has_public_address k) v (cancelled k) (socket_ k) (loop k) (waiting_for_ack_ k)
    (get_active_components_request_ k) (futures k) (written k) (received k) (notes k).
Definition set_cancelled (v : bool) k : Stream :=
  MakeStream (bt_classic k) (has_public_address k) (opening k) v (socket_ k) (loop k) (waiting_for_ack_ k)
    (get_active_components_request_ k) (futures k) (written k) (received k) (notes k).
Definition set_socket (v : bool) k : Stream :=
  MakeStream (bt_classic k) (has_public_address k) (opening k) (cancelled k) v (loop k) (waiting_for_ack_ k)
    (get_active_components_request_ k) (futures k) (written k) (received k) (notes k).
Definition set_loop (v : LoopState) k : Stream :=
  MakeStream (bt_classic k) (has_public_address k) (opening k) (cancelled k) (socket_ k) v (waiting_for_ack_ k)
    (get_active_components_request_ k) (futures k) (written k) (received k) (notes k).
Definition set_waiting (v : list MessageWithAck) k : Stream :=
  MakeStream (bt_classic k) (has_public_address k) (opening k) (cancelled k) (socket_ k) (loop k) v
    (get_active_components_request_ k) (futures k) (written k) (received k) (notes k).
Definition set_active_components_request (v : option nat) k : Stream :=
  MakeStream (bt_classic k) (has_public_address k) (opening k) (cancelled k) (socket_ k) (loop k) (waiting_for_ack_ k)
    v (futures k) (written k) (received k) (notes k).
Definition set_futures (v : Futures) k : Stream :=
  MakeStream (bt_classic k) (has_public_address k) (opening k) (cancelled k) (socket_ k) (loop k) (waiting_for_ack_ k)
    (get_active_components_request_ k) v (written k) (received k) (notes k).
Definition set_written (v : list (list Z)) k : Stream :=
  MakeStream (bt_classic k) (has_public_address k) (opening k) (cancelled k) (socket_ k) (loop k) (waiting_for_ack_ k)
    (get_active_components_request_ k) (futures k) v (received k) (notes k).
Definition set_received (v : list StreamMessage) k : Stream :=
  MakeStream (bt_classic k) (has_public_address k) (opening k) (cancelled k) (socket_ k) (loop k) (waiting_for_ack_ k)
    (get_active_components_request_ k) (futures k) (written k) v (notes k).
Definition set_notes (v : list Note) k : Stream :=
  MakeStream (bt_classic k) (has_public_address k) (opening k) (cancelled k) (socket_ k) (loop k) (waiting_for_ack_ k)
    (get_active_components_request_ k) (futures k) (written k) (received k) v.

Definition note (n : Note) k : Stream := set_notes (notes k ++ [n]) k.
Definition new_future k : nat * Stream := (length (futures k), set_futures (futures k ++ [None]) k).
Definition settle_future (i : nat) (r : FutureResult) k : Stream := set_futures (settle i r (futures k)) k.
End Setters.

(** The constructor. *)
Definition new_stream (bt_classic has_public_address : bool) : Stream :=
  MakeStream bt_classic has_public_address 0 false false NotRunning [] None [] [] [] [].

(** * The medium, sending *)
Module Medium.
Definition kHeaderSize : nat := 4.

Definition Serialize (m : StreamMessage) : list Z :=
  let payload_size := u16 (Z.of_nat (length (payload m))) in
  [u8 (message_group m); u8 (message_code m); u8 (Z.shiftr payload_size 8); Z.land payload_size 0xFF]
  ++ take (Z.to_nat payload_size) (payload m).

Section Send.
Context {Sur : Surroundings}.
Implicit Types k : Stream.

Definition Send (m : StreamMessage) k : StatusCode * Stream :=
  if cancelled k || negb (socket_ k) then (kFailedPrecondition, k) else
  let n := length (written k) in
  let k := set_written (written k ++ [Serialize m]) k in
  if write_ok n then (kOk, k) else (kDataLoss, set_cancelled true k).
End Send.

(** [ByteArray::CopyAt] *)
Definition CopyAt (offset : nat) (from buffer : list Z) : list Z :=
  if (length buffer <=? offset)%nat then buffer else
  take offset buffer ++ take (length buffer - offset) from ++ drop (offset + length from) buffer.

(** One turn of the loop of [ReadExactly], with what [Read] returned. *)
Inductive ReadOutcome : Type := More (r : Reading) | Complete (bytes : list Z) | Failed.
Definition ReadExactly (size : nat) : ReadOutcome :=
  if (0 <? size)%nat then More (MakeReading size [] 0) else Complete [].
Definition ReadExactly_turn (r : Reading) (read_bytes : StatusOr (list Z)) : ReadOutcome :=
  match read_bytes with
  | Error _ | Ok [] => Failed
  | Ok result =>
    if (current_pos r =? 0)%nat && (length result =? read_size r)%nat then Complete result else
    let buffer := if (current_pos r =? 0)%nat then replicate (read_size r) 0 else read_buffer r in
    let buffer := CopyAt (current_pos r) result buffer in
    let pos := (current_pos r + length result)%nat in
    if (pos <? read_size r)%nat then More (MakeReading (read_size r) buffer pos) else Complete buffer
  end.
End Medium.

(** * The message stream *)
Module SeekerMessageStream.
Import Medium.
Definition kCompanionInstalledBit : Z := 0x02.
Definition kSupportsSilenceBit : Z := 0x01.
Definition kDefaultComponents : Z := 0.
Definition kModelIdSize : nat := 3.
Definition kBleAddressSize : nat := 6.
Definition kMaxBatteryLevels : nat := 3.
Definition kUnknownBatteryLevel : Z := 0x7F.

Definition ConvertBatteryInfo (battery_value : Z) : BatteryInfo :=
  let level := Z.land battery_value 0x7F in
  MakeBatteryInfo (negb (Z.land battery_value 0x80 =? 0))
    (if negb (level =? kUnknownBatteryLevel) then Some level else None).

(** [BluetoothUtils::ToString] *)
Definition ToString (address : list Z) : list Z :=
  if negb (length address =? 6)%nat then [] else
  if forallb (fun b => b =? 0) address then []
  else BluetoothAddress.CanonicalizeBluetoothAddress address.

Section SeekerMessageStream.
Context {ct : CharType} {Sur : Surroundings}.
Implicit Types k : Stream.

(** [std::find_if] and [erase] of the first entry that matches. *)
Fixpoint take_waiting (group code : Z) (l : list MessageWithAck) : option (nat * list MessageWithAck) :=
  match l with
  | [] => None
  | x :: l =>
    if (ack_group x =? group) && (ack_code x =? code) then Some (ack_future x, l)
    else match take_waiting group code l with Some (f, l) => Some (f, x :: l) | None => None end
  end.

Definition FinishCall (group code : Z) (result : bool) k : Stream :=
  match take_waiting group code (waiting_for_ack_ k) with
  | Some (f, l) => set_waiting l (settle_future f (Value (if result then 1 else 0)) k)
  | None => k
  end.

(** [GetActiveComponents] sends the request, and then stores the future. *)
Definition GetActiveComponents_send k : StatusCode * nat * Stream :=
  let '(future, k) := new_future k in
  let '(status, k) := Send (MakeMessage kDeviceInformationEvent kActiveComponentRequest []) k in
  (status, future, k).
Definition GetActiveComponents_store (status : StatusCode) (future : nat) k : Stream :=
  if code_ok status then
    let k := match get_active_components_request_ k with
             | Some f => settle_future f (Raised kInterrupted) k
             | None => k
             end in
    set_active_components_request (Some future) k
  else settle_future future (Raised kIo) k.
Definition GetActiveComponents k : nat * Stream :=
  let '(status, future, k) := GetActiveComponents_send k in
  (future, GetActiveComponents_store status future k).

Definition SendCapabilities (companion_app_installed supports_silence_mode : bool) k : StatusCode * Stream :=
  let capabilites := 0 in
  let capabilites := if companion_app_installed then Z.lor capabilites kCompanionInstalledBit else capabilites in
  let capabilites := if supports_silence_mode then Z.lor capabilites kSupportsSilenceBit else capabilites in
  Send (MakeMessage kDeviceInformationEvent kCapabilites [capabilites]) k.

Definition SendPlatformType (platform_type custom_code : Z) k : StatusCode * Stream :=
  Send (MakeMessage kDeviceInformationEvent kPlatformType [u8 platform_type; custom_code]) k.

(** [minutes] is [absl::ToInt64Minutes(duration)]. *)
Definition Ring (components minutes : Z) k : nat * Stream :=
  let '(future, k) := new_future k in
  let minutes := u8 minutes in
  let payload := if negb (minutes =? 0) then [components; minutes] else [components] in
  let k := set_waiting (waiting_for_ack_ k ++ [MakeWithAck kDeviceActionEvent kRing future]) k in
  let '(status, k) := Send (MakeMessage kDeviceActionEvent kRing payload) k in
  (future, if code_ok status then k else FinishCall kDeviceActionEvent kRing false k).

Definition SendAcknowledgement (m : StreamMessage) (ack : bool) k : Stream :=
  snd (Send (MakeMessage kAcknowledgement (if ack then kAck else kNack)
               [u8 (message_group m); u8 (message_code m)]) k).

Definition HandleDeviceInformationEvent (m : StreamMessage) k : Stream :=
  let size := length (payload m) in
  let code := message_code m in
  if code =? kModelId then
    if negb (size =? kModelIdSize)%nat then k else note (OnModelId (payload m)) k
  else if code =? kBleAddressUpdated then
    if negb (size =? kBleAddressSize)%nat then k
    else note (OnBleAddressUpdated (ToString (payload m))) k
  else if code =? kBatteryUpdated then
    if (kMaxBatteryLevels <? size)%nat then k
    else note (OnBatteryUpdated (map ConvertBatteryInfo (payload m))) k
  else if code =? kRemainingBatteryTime then
    match payload m with
    | [b] => note (OnRemainingBatteryTime b) k
    | [b0; b1] => note (OnRemainingBatteryTime (256 * b0 + b1)) k
    | _ => k
    end
  else if code =? kActiveComponentResponse then
    let components := match payload m with [b] => b | _ => kDefaultComponents end in
    match get_active_components_request_ k with
    | Some f => set_active_components_request None (settle_future f (Value components) k)
    | None => k
    end
  else k.

(** The payload names the message by its first two bytes. *)
Definition HandleAcknowledgement (m : StreamMessage) k : Stream :=
  let finish result :=
    match payload m with
    | g :: c :: _ => FinishCall (char_int g) (char_int c) result k
    | _ => k
    end in
  if message_code m =? kAck then finish true
  else if message_code m =? kNack then finish false
  else k.

Definition HandleBluetooth (m : StreamMessage) k : Stream :=
  if message_code m =? kEnableSilenceMode then note (OnEnableSilenceMode true) k
  else if message_code m =? kDisableSilenceMode then note (OnEnableSilenceMode false) k
  else k.

Definition HandleCompanionAppEvent (m : StreamMessage) k : Stream :=
  if message_code m =? kLogBufferFull then note OnLogBufferFull k else k.

Definition HandleDeviceActionEvent (m : StreamMessage) k : Stream :=
  if message_code m =? kRing then
    let components := match payload m with c :: _ => c | [] => 0 end in
    let duration := match payload m with _ :: d :: _ => d | _ => 0 end in
    SendAcknowledgement m (on_ring components duration) (note (OnRing components duration) k)
  else k.

Definition OnReceived (m : StreamMessage) k : Stream :=
  let g := message_group m in
  if g =? kAcknowledgement then HandleAcknowledgement m k
  else if g =? kBluetooth then HandleBluetooth m k
  else if g =? kCompanionAppEvent then HandleCompanionAppEvent m k
  else if g =? kDeviceInformationEvent then HandleDeviceInformationEvent m k
  else if g =? kDeviceActionEvent then HandleDeviceActionEvent m k
  else k.

End SeekerMessageStream.
End SeekerMessageStream.

(** * The medium, connecting and receiving *)
Module MediumLoop.
Import Medium SeekerMessageStream.

Section Loop.
Context {ct : CharType} {Sur : Surroundings}.
Implicit Types k : Stream.

Definition OpenRfcomm k : StatusCode * Stream :=
  if negb (bt_classic k) then (kFailedPrecondition, k)
  else if negb (has_public_address k) then (kFailedPrecondition, k)
  else (kOk, set_opening (S (opening k)) k).

Definition OpenL2cap k : StatusCode * Stream := (kUnimplemented, k).

Definition Disconnect k : StatusCode * Stream := (kOk, set_socket false (set_cancelled true k)).

Definition SetSocket (valid : bool) k : Stream :=
  if negb valid then k else if cancelled k then k else set_socket true k.

(** The head of the loop, and its end. *)
Definition RunLoop_end k : Stream :=
  let k := set_loop NotRunning k in
  if negb (cancelled k) then note (OnDisconnected kDataLoss) k else k.
Definition RunLoop k : Stream :=
  if cancelled k then RunLoop_end k
  else set_loop (ReadingHeader (MakeReading kHeaderSize [] 0)) k.

(** A message is complete. *)
Definition RunLoop_message (m : StreamMessage) k : Stream :=
  RunLoop (OnReceived m (set_received (received k ++ [m]) k)).

(** [static_cast<unsigned int>(data[2]) * 256 + static_cast<unsigned int>(data[3])],
    assigned to an [int]. *)
Definition message_length (d2 d3 : Z) : Z :=
  s32 (u32 (u32 (u32 (char_int d2) * 256) + u32 (char_int d3))).

Definition RunLoop_payload (group code length : Z) (o : ReadOutcome) k : Stream :=
  match o with
  | More r => set_loop (ReadingPayload group code length r) k
  | Complete bytes =>
    if negb (Z.of_nat (List.length bytes) =? length) then RunLoop_end k
    else RunLoop_message (MakeMessage group code bytes) k
  | Failed => RunLoop_end k
  end.

Definition RunLoop_header (header : list Z) k : Stream :=
  match header with
  | [d0; d1; d2; d3] =>
    let length := message_length d2 d3 in
    RunLoop_payload (char_int d0) (char_int d1) length
      (if 0 <? length then ReadExactly (Z.to_nat length) else Complete []) k
  | _ => RunLoop_end k
  end.

(** [Read] returns. *)
Definition on_read (read_bytes : StatusOr (list Z)) k : Stream :=
  match loop k with
  | NotRunning | Connecting => k
  | ReadingHeader r =>
    match ReadExactly_turn r read_bytes with
    | More r => set_loop (ReadingHeader r) k
    | Complete header => RunLoop_header header k
    | Failed => RunLoop_end k
    end
  | ReadingPayload group code length r =>
    RunLoop_payload group code length (ReadExactly_turn r read_bytes) k
  end.

(** The closure of [OpenRfcomm], on an executor with one thread: the device is found
    or not, and the connection is made or not. *)
Definition run_open (device_valid : bool) k : Stream :=
  match loop k, opening k with
  | NotRunning, S n =>
    let k := set_opening n k in
    if cancelled k then k else
    if negb device_valid then note (OnConnectionResult kUnavailable) k
    else set_loop Connecting k
  | _, _ => k
  end.
Definition on_connected (connected : bool) k : Stream :=
  match loop k with
  | Connecting =>
    let k := SetSocket connected (set_loop NotRunning k) in
    if socket_ k then RunLoop (note (OnConnectionResult kOk) k)
    else note (OnConnectionResult kUnavailable) k
  | _ => k
  end.

(** The size the loop has passed to [Read]. *)
Definition wanted k : nat :=
  match loop k with
  | NotRunning | Connecting => 0
  | ReadingHeader r | ReadingPayload _ _ _ r => read_size r - current_pos r
  end.

(** What can happen, one step at a time. *)
Inductive StreamEvent : Type :=
| OpenRfcommCall
| RunOpen (device_valid : bool)
| ConnectReturns (connected : bool)
| ReadReturns (read_bytes : StatusOr (list Z))
| DisconnectCall
| RingCall (components minutes : Z)
| ActiveComponentsSend
| ActiveComponentsStore (status : StatusCode) (future : nat)
| SendCapabilitiesCall (companion_app_installed supports_silence_mode : bool)
| SendPlatformTypeCall (platform_type custom_code : Z)
| FutureTimeout (future : nat).

Definition stream_step (e : StreamEvent) k : Stream :=
  match e with
  | OpenRfcommCall => snd (OpenRfcomm k)
  | RunOpen device_valid => run_open device_valid k
  | ConnectReturns connected => on_connected connected k
  | ReadReturns r => on_read r k
  | DisconnectCall => snd (Disconnect k)
  | RingCall components minutes => snd (Ring components minutes k)
  | ActiveComponentsSend => snd (GetActiveComponents_send k)
  | ActiveComponentsStore status future => GetActiveComponents_store status future k
  | SendCapabilitiesCall a b => snd (SendCapabilities a b k)
  | SendPlatformTypeCall a b => snd (SendPlatformType a b k)
  | FutureTimeout f => settle_future f (Raised kTimeout) k
  end.

End Loop.
End MediumLoop.
