(* ===== verification/SeekerRetroactive.v ===== *)
(** Retroactive pairing at the seeker, after src/fastpair/retroactive/retroactive.cc
    and src/fastpair/fast_pair_controller.cc, with the observer lists of
    src/internal/base/observer_list.h: a device that was paired by Bluetooth alone
    announces itself on the message stream and is given an account key.

    One record, [Retro], holds the members of a [Retroactive] and of its
    [FastPairController].  The device, the GATT service client, the executor the two
    share and the calls of the random generator are those of a [Seeker]
    ([SeekerHandshake]), whose handshake and pairer are not used here; the message
    stream is a [Stream] ([SeekerStream]).  The observer of the stream is the
    controller: what a step of the stream tells it ([notes]) is handled by
    [OnNotes] after the step, which is the same since the controller does not call
    the stream back.  A listener of a future is a job of the executor it was added
    with.

    [SetPairingStep] calls itself through the observers it registers.  Each nested
    call is for a later step of the enumeration, so that [step_limit] calls are
    enough: it satisfies the equation of the code ([SetPairingStep_unfold]). *)

From Stdlib Require Import ZArith Lia.
From stdpp Require Import base list numbers.
From S2P Require Import Prelude.
From S2P Require Import CppBase SeekerData SeekerHandshake SeekerStream.

Open Scope Z_scope.
Open Scope fp_scope.

(** * State *)

Inductive PairingStep : Type :=
| kNone
| kNewDevicePairedOrConnected
| kOpenMessageStream
| kWaitForModelIdAndBleAddress
| kFetchAntiSpoofingKey
| kOpenGattConnection
| kSendKeyBasedPairingRequest
| kSendAccountKeyToProvider
| kAskForUserConfirmation
| kUploadAccountKeyToCloud
| kSuccess
| kStepFailed.
#[export] Instance PairingStep_eq_dec : EqDecision PairingStep.
Proof. solve_decision. Defined.

(** The closures on the executor of [Retroactive]: the listeners of the two futures. *)
Inductive RetroJob : Type :=
| encryptor_listener (result : option DataEncryptor)
| gatt_listener.

(** The future of the data encryptor: the number of its listeners (they have the same
    body), or its result, [None] after an exception. *)
Inductive EncryptorFuture : Type := Pending (listeners : nat) | Settled (result : option DataEncryptor).

(** An observer list is whether the observer of [Retroactive] is in it: nothing else
    registers one.  [gatt_created]: the controller has its GATT client, on a medium that
    is available or not ([gatt_available]); [seeker_address] is what
    [GetSeekerMacAddress] returns; [metadata_requested]: the repository has been
    asked; [alive]: [Retroactive] has not been destroyed. *)
Record Retro : Type := MakeRetro
  { retro_client : Seeker;
    model_id_ : list Z;
    message_stream_ : option Stream;
    message_stream_status_ : StatusCode;
    connection_observers_ : bool;
    address_rotation_observers_ : bool;
    model_id_observers_ : bool;
    encryptor_ : option EncryptorFuture;
    metadata_requested : bool;
    gatt_created : bool;
    gatt_available : bool;
    seeker_address : list Z;
    pairing_step_ : PairingStep;
    pairing_result_ : option StatusCode;
    retro_executor_ : list RetroJob;
    alive : bool }.

Section Setters.
Implicit Types r : Retro.

Definition set_client (v : Seeker) r : Retro :=
  MakeRetro v (model_id_ r) (message_stream_ r) (message_stream_status_ r) (connection_observers_ r)
    (address_rotation_observers_ r) (model_id_observers_ r) (encryptor_ r) (metadata_requested r)
    (gatt_created r) (gatt_available r) (seeker_address r) (pairing_step_ r) (pairing_result_ r)
    (retro_executor_ r) (alive r).
Definition set_model_id (v : list Z) r : Retro :=
  MakeRetro (retro_client r) v (message_stream_ r) (message_stream_status_ r) (connection_observers_ r)
    (address_rotation_observers_ r) (model_id_observers_ r) (encryptor_ r) (metadata_requested r)
    (gatt_created r) (gatt_available r) (seeker_address r) (pairing_step_ r) (pairing_result_ r)
    (retro_executor_ r) (alive r).
Definition set_message_stream (v : option Stream) r : Retro :=
  MakeRetro (retro_client r) (model_id_ r) v (message_stream_status_ r) (connection_observers_ r)
    (address_rotation_observers_ r) (model_id_observers_ r) (encryptor_ r) (metadata_requested r)
    (gatt_created r) (gatt_available r) (seeker_address r) (pairing_step_ r) (pairing_result_ r)
    (retro_executor_ r) (alive r).
Definition set_message_stream_status (v : StatusCode) r : Retro :=
  MakeRetro (retro_client r) (model_id_ r) (message_stream_ r) v (connection_observers_ r)
    (address_rotation_observers_ r) (model_id_observers_ r) (encryptor_ r) (metadata_requested r)
    (gatt_created r) (gatt_available r) (seeker_address r) (pairing_step_ r) (pairing_result_ r)
    (retro_executor_ r) (alive r).
Definition set_connection_observers (v : bool) r : Retro :=
  MakeRetro (retro_client r) (model_id_ r) (message_stream_ r) (message_stream_status_ r) v
    (address_rotation_observers_ r) (model_id_observers_ r) (encryptor_ r) (metadata_requested r)
    (gatt_created r) (gatt_available r) (seeker_address r) (pairing_step_ r) (pairing_result_ r)
    (retro_executor_ r) (alive r).
Definition set_address_rotation_observers (v : bool) r : Retro :=
  MakeRetro (retro_client r) (model_id_ r) (message_stream_ r) (message_stream_status_ r) (connection_observers_ r)
    v (model_id_observers_ r) (encryptor_ r) (metadata_requested r)
    (gatt_created r) (gatt_available r) (seeker_address r) (pairing_step_ r) (pairing_result_ r)
    (retro_executor_ r) (alive r).
Definition set_model_id_observers (v : bool) r : Retro :=
  MakeRetro (retro_client r) (model_id_ r) (message_stream_ r) (message_stream_status_ r) (connection_observers_ r)
    (address_rotation_observers_ r) v (encryptor_ r) (metadata_requested r)
    (gatt_created r) (gatt_available r) (seeker_address r) (pairing_step_ r) (pairing_result_ r)
    (retro_executor_ r) (alive r).
Definition set_encryptor (v : option EncryptorFuture) r : Retro :=
  MakeRetro (retro_client r) (model_id_ r) (message_stream_ r) (message_stream_status_ r) (connection_observers_ r)
    (address_rotation_observers_ r) (model_id_observers_ r) v (metadata_requested r)
    (gatt_created r) (gatt_available r) (seeker_address r) (pairing_step_ r) (pairing_result_ r)
    (retro_executor_ r) (alive r).
Definition set_metadata_requested (v : bool) r : Retro :=
  MakeRetro (retro_client r) (model_id_ r) (message_stream_ r) (message_stream_status_ r) (connection_observers_ r)
    (address_rotation_observers_ r) (model_id_observers_ r) (encryptor_ r) v
    (gatt_created r) (gatt_available r) (seeker_address r) (pairing_step_ r) (pairing_result_ r)
    (retro_executor_ r) (alive r).
Definition set_gatt_created (v : bool) r : Retro :=
  MakeRetro (retro_client r) (model_id_ r) (message_stream_ r) (message_stream_status_ r) (connection_observers_ r)
    (address_rotation_observers_ r) (model_id_observers_ r) (encryptor_ r) (metadata_requested r)
    v (gatt_available r) (seeker_address r) (pairing_step_ r) (pairing_result_ r)
    (retro_executor_ r) (alive r).
Definition set_pairing_step (v : PairingStep) r : Retro :=
  MakeRetro (retro_client r) (model_id_ r) (message_stream_ r) (message_stream_status_ r) (connection_observers_ r)
    (address_rotation_observers_ r) (model_id_observers_ r) (encryptor_ r) (metadata_requested r)
    (gatt_created r) (gatt_available r) (seeker_address r) v (pairing_result_ r)
    (retro_executor_ r) (alive r).
Definition set_pairing_result (v : option StatusCode) r : Retro :=
  MakeRetro (retro_client r) (model_id_ r) (message_stream_ r) (message_stream_status_ r) (connection_observers_ r)
    (address_rotation_observers_ r) (model_id_observers_ r) (encryptor_ r) (metadata_requested r)
    (gatt_created r) (gatt_available r) (seeker_address r) (pairing_step_ r) v
    (retro_executor_ r) (alive r).
Definition set_retro_executor (v : list RetroJob) r : Retro :=
  MakeRetro (retro_client r) (model_id_ r) (message_stream_ r) (message_stream_status_ r) (connection_observers_ r)
    (address_rotation_observers_ r) (model_id_observers_ r) (encryptor_ r) (metadata_requested r)
    (gatt_created r) (gatt_available r) (seeker_address r) (pairing_step_ r) (pairing_result_ r)
    v (alive r).
Definition set_alive (v : bool) r : Retro :=
  MakeRetro (retro_client r) (model_id_ r) (message_stream_ r) (message_stream_status_ r) (connection_observers_ r)
    (address_rotation_observers_ r) (model_id_observers_ r) (encryptor_ r) (metadata_requested r)
    (gatt_created r) (gatt_available r) (seeker_address r) (pairing_step_ r) (pairing_result_ r)
    (retro_executor_ r) v.

Definition retro_device r : FastPairDevice := device_ (retro_client r).
Definition set_retro_device (d : FastPairDevice) r : Retro := set_client (set_device d (retro_client r)) r.
Definition retro_post (j : RetroJob) r : Retro := set_retro_executor (retro_executor_ r ++ [j]) r.

(** [pairing_result_.Set]: the first result stays. *)
Definition set_result (status : StatusCode) r : Retro :=
  match pairing_result_ r with None => set_pairing_result (Some status) r | Some _ => r end.
End Setters.

Definition SetBleAddress (address : list Z) (d : FastPairDevice) : FastPairDevice :=
  MakeDevice address (protocol_ d) (metadata_ d) (public_address_ d) (account_key_ d).
Definition SetMetadata (metadata : list Z) (d : FastPairDevice) : FastPairDevice :=
  MakeDevice (ble_address_ d) (protocol_ d) (Some metadata) (public_address_ d) (account_key_ d).

Definition kRetroactiveFlags : Z := 0x10.

(** * The controller and the steps of the pairing *)
Module Retroactive.
Import FastPairCrypto GattServiceClient Handshake BluetoothAddress.

Section Controller.
Context {ct : CharType} {O : OpenSSL} {K : OpenSSLKeys} {Stk : Stack} {Sur : Surroundings}.
Implicit Types r : Retro.

(** [OpenMessageStream] *)
Definition OpenMessageStream r : StatusCode * Retro :=
  let '(status, k) := MediumLoop.OpenRfcomm
    (new_stream true (match public_address_ (retro_device r) with Some _ => true | None => false end)) in
  (status, set_message_stream (Some k) r).

(** [SetDataEncryptor]: a future that is set posts its listeners. *)
Definition SetDataEncryptor (e : option DataEncryptor) r : Retro :=
  match encryptor_ r with
  | Some (Pending listeners) =>
    Nat.iter listeners (retro_post (encryptor_listener e)) (set_encryptor (Some (Settled e)) r)
  | _ => r
  end.

Definition CreateDataEncryptor r : outcome Retro :=
  CreateAsync (fun e k => Done (SetDataEncryptor e (set_client k r))) (retro_client r).

(** The repository is asked for the metadata when the device has none. *)
Definition GetDataEncryptor r : outcome Retro :=
  match encryptor_ r with
  | Some _ => Done r
  | None =>
    let r := set_encryptor (Some (Pending 0)) r in
    match metadata_ (retro_device r) with
    | Some _ => CreateDataEncryptor r
    | None => Done (set_metadata_requested true r)
    end
  end.

(** The callback of [GetDeviceMetadata]. *)
Definition on_device_metadata (metadata : option (list Z)) r : outcome Retro :=
  if negb (metadata_requested r) then Done r else
  let r := set_metadata_requested false r in
  match metadata with
  | None => Done r
  | Some m => CreateDataEncryptor (set_retro_device (SetMetadata m (retro_device r)) r)
  end.

(** [data_encryptor_.AddListener] *)
Definition AddEncryptorListener r : Retro :=
  match encryptor_ r with
  | Some (Settled e) => retro_post (encryptor_listener e) r
  | Some (Pending listeners) => set_encryptor (Some (Pending (S listeners))) r
  | None => r
  end.

(** [GetGattClientRef]: the reference is there at once, and the GATT client connects. *)
Definition GetGattClientRef r : outcome Retro :=
  if gatt_created r then Done r else
  let! k := InitializeGattConnection (gatt_available r) (retro_client r) in
  Done (set_gatt_created true (set_client k r)).

(** [data_encryptor_.Get().result().get()]: [Get] waits for a result, and a null
    pointer is dereferenced. *)
Definition decryptor r : outcome DataEncryptor :=
  match encryptor_ r with Some (Settled (Some e)) => Done e | _ => Fault end.

(** The callbacks of the observers, with the function that changes the step.  They are
    members of [Retroactive]. *)
Definition on_connected (SetPairingStep : PairingStep -> Retro -> outcome Retro) r : outcome Retro :=
  if negb (alive r) then Fault else SetPairingStep kWaitForModelIdAndBleAddress r.

Definition on_disconnected (SetPairingStep : PairingStep -> Retro -> outcome Retro)
    (status : StatusCode) r : outcome Retro :=
  if negb (alive r) then Fault else
  if decide (pairing_step_ r = kNewDevicePairedOrConnected) then SetPairingStep kOpenMessageStream r
  else SetPairingStep kStepFailed (set_result status r).

(** [on_model_id] and [on_ble_address_rotated] have the same body. *)
Definition on_model_id_or_address (SetPairingStep : PairingStep -> Retro -> outcome Retro) r : outcome Retro :=
  if negb (alive r) then Fault else
  if decide (pairing_step_ r = kWaitForModelIdAndBleAddress) then
    match ble_address_ (retro_device r), model_id_ r with
    | [], _ | _, [] => Done r
    | _, _ => SetPairingStep kFetchAntiSpoofingKey r
    end
  else Done r.

(** Registration calls the observer with what is known. *)
Definition AddMessageStreamConnectionObserver (SetPairingStep : PairingStep -> Retro -> outcome Retro) r
  : outcome Retro :=
  let r := set_connection_observers true r in
  if code_ok (message_stream_status_ r) then on_connected SetPairingStep r
  else on_disconnected SetPairingStep (message_stream_status_ r) r.

Definition AddModelIdObserver (SetPairingStep : PairingStep -> Retro -> outcome Retro) r : outcome Retro :=
  let r := set_model_id_observers true r in
  match model_id_ r with [] => Done r | _ => on_model_id_or_address SetPairingStep r end.

Definition AddAddressRotationObserver (SetPairingStep : PairingStep -> Retro -> outcome Retro) r
  : outcome Retro :=
  let r := set_address_rotation_observers true r in
  match ble_address_ (retro_device r) with [] => Done r | _ => on_model_id_or_address SetPairingStep r end.

Definition ExitPairingStep (step : PairingStep) r : Retro :=
  match step with
  | kWaitForModelIdAndBleAddress => set_address_rotation_observers false (set_model_id_observers false r)
  | _ => r
  end.

(** What the switch of [SetPairingStep] does on entering a step. *)
Definition EnterPairingStep (SetPairingStep : PairingStep -> Retro -> outcome Retro)
    (step : PairingStep) r : outcome Retro :=
  match step with
  | kNone => Done (set_connection_observers false r)
  | kNewDevicePairedOrConnected => AddMessageStreamConnectionObserver SetPairingStep r
  | kOpenMessageStream =>
    let '(status, r) := OpenMessageStream r in
    if code_ok status then Done r else SetPairingStep kStepFailed r
  | kWaitForModelIdAndBleAddress =>
    let! r := AddModelIdObserver SetPairingStep r in
    AddAddressRotationObserver SetPairingStep r
  | kFetchAntiSpoofingKey =>
    let! r := GetDataEncryptor r in
    Done (AddEncryptorListener r)
  | kSendKeyBasedPairingRequest =>
    let! r := GetGattClientRef r in
    Done (retro_post gatt_listener r)
  | kSendAccountKeyToProvider =>
    let! e := decryptor r in
    if negb (gatt_created r) then Crash else
    let! k := WriteAccountKey e (retro_client r) in
    Done (set_client k r)
  | kAskForUserConfirmation => SetPairingStep kUploadAccountKeyToCloud r
  | kUploadAccountKeyToCloud => SetPairingStep kSuccess r
  | kSuccess => Done (set_result kOk r)
  | kStepFailed => Done (set_result kInternal r)
  | kOpenGattConnection => Done r
  end.

Fixpoint SetPairingStep_nested (n : nat) (step : PairingStep) r : outcome Retro :=
  match n with
  | 0%nat => Fault
  | S n =>
    if decide (pairing_step_ r = step) then Done r else
    EnterPairingStep (SetPairingStep_nested n) step
      (set_pairing_step step (ExitPairingStep (pairing_step_ r) r))
  end.

Definition step_limit : nat := 3.
Definition SetPairingStep (step : PairingStep) r : outcome Retro := SetPairingStep_nested step_limit step r.

Definition Pair r : outcome Retro := SetPairingStep kNewDevicePairedOrConnected r.

(** The destructor: an observer that stays registered is a dangling pointer, and so is
    [this] in the closures that have not run.  The last reference to the GATT client is
    released with the future. *)
Definition Destroy r : outcome Retro :=
  let! r := SetPairingStep kNone r in
  Done (set_gatt_created false (set_alive false r)).

(** * Callbacks *)

Definition on_encryptor (result : option DataEncryptor) r : outcome Retro :=
  match result with
  | Some _ => SetPairingStep kSendKeyBasedPairingRequest r
  | None => SetPairingStep kStepFailed r
  end.

Definition on_gatt r : outcome Retro :=
  let! e := decryptor r in
  if negb (gatt_created r) then Crash else
  let! k := WriteRequestAsync kKeyBasedPairingType kRetroactiveFlags
    (ble_address_ (retro_device r)) (seeker_address r) e (retro_client r) in
  Done (set_client k r).

Definition on_request_written (failure : option PairFailure) r : outcome Retro :=
  match failure with
  | Some _ => SetPairingStep kStepFailed r
  | None => SetPairingStep kSendAccountKeyToProvider r
  end.

(** [*account_key] of an empty [std::optional] is undefined. *)
Definition on_key_written (account_key : option (list Z)) (failure : option PairFailure) r : outcome Retro :=
  match failure with
  | Some _ => SetPairingStep kStepFailed r
  | None =>
    match account_key with
    | None => Fault
    | Some key =>
      SetPairingStep kAskForUserConfirmation (set_retro_device (SetAccountKey key (retro_device r)) r)
    end
  end.

(** The controller as the observer of the message stream. *)
Definition OnNote (n : Note) r : outcome Retro :=
  match n with
  | OnConnectionResult result =>
    let r := set_message_stream_status result r in
    if negb (code_ok result) then Done r else
    if connection_observers_ r then on_connected SetPairingStep r else Done r
  | OnDisconnected status =>
    let r := set_message_stream_status status r in
    if connection_observers_ r then on_disconnected SetPairingStep status r else Done r
  | OnModelId model_id =>
    let r := set_model_id (BytesToHexString model_id) r in
    if model_id_observers_ r then on_model_id_or_address SetPairingStep r else Done r
  | OnBleAddressUpdated address =>
    let r := set_retro_device (SetBleAddress address (retro_device r)) r in
    if address_rotation_observers_ r then on_model_id_or_address SetPairingStep r else Done r
  | OnEnableSilenceMode _ | OnLogBufferFull | OnBatteryUpdated _ | OnRemainingBatteryTime _ | OnRing _ _ => Done r
  end.

Fixpoint OnNotes (ns : list Note) r : outcome Retro :=
  match ns with
  | [] => Done r
  | n :: ns => let! r := OnNote n r in OnNotes ns r
  end.

(** * Steps *)

Definition run_retro_job (j : RetroJob) r : outcome Retro :=
  if negb (alive r) then Fault else
  match j with
  | encryptor_listener result => on_encryptor result r
  | gatt_listener => on_gatt r
  end.

(** The closures of the GATT service client, with the callbacks it was given here; the
    callback of [InitializeGattConnection] only logs. *)
Definition run_client_job (j : Job) r : outcome Retro :=
  match j with
  | clear_current_state gatt_client =>
    Done (if gatt_client : bool then set_client (emit StopGattClient (retro_client r)) r else r)
  | key_based_response _ failure =>
    if negb (key_based_write_response_callback_ (retro_client r)) then Done r else
    if negb (alive r) then Fault else on_request_written failure r
  | account_key_response account_key failure =>
    if negb (account_key_write_callback_ (retro_client r)) then Done r else
    if negb (alive r) then Fault else on_key_written account_key failure r
  | _ => Done r
  end.

Inductive RetroEvent : Type :=
| PairCall
| StreamDoes (e : MediumLoop.StreamEvent)
| MetadataReady (metadata : option (list Z))
| RunListener
| RunClientJob
| GattStatus (status : StatusCode)
| RequestAnswered (response : StatusOr (list Z))
| KeyWritten (status : StatusCode)
| DestroyCall.

(** A step of the message stream, and what it tells the controller. *)
Definition stream_does (e : MediumLoop.StreamEvent) r : outcome Retro :=
  match message_stream_ r with
  | None => Done r
  | Some k =>
    let k' := MediumLoop.stream_step e k in
    OnNotes (drop (length (notes k)) (notes k')) (set_message_stream (Some k') r)
  end.

(** What happens to the GATT client happens while it is there. *)
Definition client_does (f : Seeker -> Seeker) r : Retro :=
  if gatt_created r then set_client (f (retro_client r)) r else r.

Definition retro_step (e : RetroEvent) r : outcome Retro :=
  match e with
  | PairCall => if negb (alive r) then Fault else Pair r
  | StreamDoes e => stream_does e r
  | MetadataReady metadata => on_device_metadata metadata r
  | RunListener =>
    match retro_executor_ r with
    | [] => Done r
    | j :: js => run_retro_job j (set_retro_executor js r)
    end
  | RunClientJob =>
    match executor_ (retro_client r) with
    | [] => Done r
    | j :: js => run_client_job j (set_client (set_executor js (retro_client r)) r)
    end
  | GattStatus status => Done (client_does (on_connection_status status) r)
  | RequestAnswered response => Done (client_does (on_key_based_response response) r)
  | KeyWritten status => Done (client_does (on_account_key_written status) r)
  | DestroyCall => if negb (alive r) then Fault else Destroy r
  end.

Fixpoint retro_steps (es : list RetroEvent) r : outcome Retro :=
  match es with
  | [] => Done r
  | e :: es => let! r := retro_step e r in retro_steps es r
  end.

(** The constructors of the controller and of [Retroactive]. *)
Definition new_retroactive (device : FastPairDevice) (model_id seeker_address : list Z) (available : bool) : Retro :=
  MakeRetro (MakeSeeker device false false false false false false None None false false [] false false
       false false false false [] false false 0 0 [])
    model_id None kFailedPrecondition false false false None false false available seeker_address
    kNone None [] true.

(** * The nested calls *)

(** The calls [SetPairingStep] makes for a step, its own included. *)
Definition step_depth (step : PairingStep) : nat :=
  match step with
  | kNewDevicePairedOrConnected | kAskForUserConfirmation => 3
  | kOpenMessageStream | kWaitForModelIdAndBleAddress | kUploadAccountKeyToCloud => 2
  | _ => 1
  end.

(** Entering a step only changes to steps of a smaller depth. *)
Lemma EnterPairingStep_ext f g step r :
  (forall step' r', (step_depth step' < step_depth step)%nat -> f step' r' = g step' r') ->
  EnterPairingStep f step r = EnterPairingStep g step r.
Proof.
  intros H. assert (step = kWaitForModelIdAndBleAddress ->
    forall r, on_model_id_or_address f r = on_model_id_or_address g r) as Ho.
  { intros ->. intros r'. unfold on_model_id_or_address. by rewrite H by (cbn; lia). }
  unfold EnterPairingStep, AddMessageStreamConnectionObserver, AddModelIdObserver, AddAddressRotationObserver,
    on_connected, on_disconnected.
  destruct step; try done; try (by rewrite H by (cbn; lia)).
  - by rewrite (H kWaitForModelIdAndBleAddress), (H kOpenMessageStream), (H kStepFailed) by (cbn; lia).
  - destruct (OpenMessageStream r) as [status r']. by rewrite H by (cbn; lia).
  - rewrite Ho by done.
    destruct (match model_id_ _ with [] => _ | _ => _ end); cbn [mbind outcome_bind]; [|done|done].
    by rewrite Ho.
Qed.

Lemma nested_enough n n' step r :
  (step_depth step <= n)%nat -> (step_depth step <= n')%nat ->
  SetPairingStep_nested n step r = SetPairingStep_nested n' step r.
Proof.
  revert n' step r. induction n as [|n IH]; intros n' step r Hn Hn'; [by destruct step; cbn in Hn; lia|].
  destruct n' as [|n']; [by destruct step; cbn in Hn'; lia|]. cbn [SetPairingStep_nested].
  destruct (decide _); [done|]. apply EnterPairingStep_ext. intros. apply IH; lia.
Qed.

(** [SetPairingStep] is the recursion of the code, without a bound on it. *)
Lemma SetPairingStep_unfold step r :
  SetPairingStep step r =
    if decide (pairing_step_ r = step) then Done r else
    EnterPairingStep SetPairingStep step (set_pairing_step step (ExitPairingStep (pairing_step_ r) r)).
Proof.
  change (SetPairingStep step r) with (if decide (pairing_step_ r = step) then Done r else
    EnterPairingStep (SetPairingStep_nested 2) step (set_pairing_step step (ExitPairingStep (pairing_step_ r) r))).
  destruct (decide _); [done|]. apply EnterPairingStep_ext. intros step' r' H.
  apply nested_enough; unfold step_limit; destruct step, step'; cbn in *; lia.
Qed.

End Controller.
End Retroactive.

(** * What success means *)
Section Safety.
Context {ct : CharType} {O : OpenSSL} {K : OpenSSLKeys} {Stk : Stack} {Sur : Surroundings}.
Import FastPairCrypto GattServiceClient Handshake Retroactive.
Implicit Types r : Retro.

(** The key was written to the provider under the key of the data encryptor. *)
Definition key_written r (key : list Z) : Prop :=
  exists e, encryptor_ r = Some (Settled (Some e))
    /\ WriteCharacteristic kAccountKeyCharacteristicIndex (EncryptBytes (shared_secret_key_ e) key)
       ∈ output (retro_client r).

(** The encryptor comes from a key agreement with an anti-spoofing key. *)
Definition agreed (anti_spoofing : list Z) (e : DataEncryptor) : Prop :=
  exists n p, GenerateKeysWithEcdhKeyAgreement n anti_spoofing = Some p
    /\ e = MakeEncryptor (shared_secret_key p) (Some (FastPairCrypto.public_key p)).

Definition done_step (step : PairingStep) : bool :=
  match step with kAskForUserConfirmation | kUploadAccountKeyToCloud | kSuccess => true | _ => false end.

Record retro_base r : Prop := {
  base_protocol : protocol_ (retro_device r) = kFastPairRetroactivePairing;
  base_requested : metadata_requested r = true -> exists listeners, encryptor_ r = Some (Pending listeners);
  base_agreed : forall e, encryptor_ r = Some (Settled (Some e)) ->
    exists m, metadata_ (retro_device r) = Some m /\ agreed m e;
  base_captured : forall key, written_account_key (retro_client r) = Some key -> key_written r key;
  base_jobs : forall key failure, account_key_response (Some key) failure ∈ executor_ (retro_client r) -> key_written r key;
}.
Definition retro_ok r : Prop :=
  retro_base r /\ (done_step (pairing_step_ r) = true -> key_written r (account_key_ (retro_device r))).

(** Members that the invariant does not read. *)
Ltac untouched := split; cbn in *; eauto.

Lemma base_step r step : retro_base r -> retro_base (set_pairing_step step (ExitPairingStep (pairing_step_ r) r)).
Proof. intros []. destruct (pairing_step_ r); untouched. Qed.

Lemma SetDataEncryptor_base e r :
  (forall x, e = Some x -> exists m, metadata_ (retro_device r) = Some m /\ agreed m x) ->
  metadata_requested r = false -> retro_base r -> retro_base (SetDataEncryptor e r).
Proof.
  intros He Hq Hr. unfold SetDataEncryptor. destruct (encryptor_ r) as [[listener|]|] eqn:E; [|done|done].
  assert (retro_base (set_encryptor (Some (Settled e)) r)) as H.
  { destruct Hr as [? _ _ Hc Hj]. split; cbn; [done|by rewrite Hq| | |].
    - intros x [= ->]. by apply He.
    - intros key Hk. destruct (Hc key Hk) as (? & E' & _). congruence.
    - intros key f Hk. destruct (Hj key f Hk) as (? & E' & _). congruence. }
  clear E. revert H. generalize (set_encryptor (Some (Settled e)) r). induction listener as [|n IH]; intros r' H; [done|].
  cbn. destruct (IH r' H). untouched.
Qed.

Lemma CreateDataEncryptor_base r r' :
  retro_base r -> metadata_requested r = false -> CreateDataEncryptor r = Done r' ->
  retro_base r' /\ pairing_step_ r' = pairing_step_ r /\ retro_device r' = retro_device r.
Proof.
  intros Hr Hq. unfold CreateDataEncryptor, CreateAsync, CreateAsyncWithKeyExchange.
  change (device_ (retro_client r)) with (retro_device r). rewrite (base_protocol _ Hr).
  destruct (metadata_ (retro_device r)) as [m|] eqn:Em; [|done]. intros [= <-]. set (e := match _ with None => _ | _ => _ end).
  set (r1 := set_client _ r).
  assert (retro_base r1) as H1 by (destruct Hr; untouched).
  split.
  - apply SetDataEncryptor_base; [|done|done]. intros x. unfold e.
    destruct (GenerateKeysWithEcdhKeyAgreement _ _) as [p|] eqn:Ep; [|done]. intros [= <-].
    exists m. split; [done|]. by exists (keys (retro_client r)), p.
  - unfold SetDataEncryptor. destruct (encryptor_ r1) as [[n|]|]; [|done|done]. by induction n.
Qed.

Lemma GetDataEncryptor_base r r' :
  retro_base r -> GetDataEncryptor r = Done r' ->
  retro_base r' /\ pairing_step_ r' = pairing_step_ r /\ retro_device r' = retro_device r.
Proof.
  intros Hr. unfold GetDataEncryptor. destruct (encryptor_ r) as [f|] eqn:E; [by intros [= <-]|].
  assert (metadata_requested r = false) as Hq.
  { destruct (metadata_requested r) eqn:Eq; [|done]. destruct (base_requested _ Hr Eq). congruence. }
  assert (retro_base (set_encryptor (Some (Pending 0)) r)) as H1.
  { destruct Hr as [? _ _ Hc Hj]. split; cbn; [done|eauto|done| |].
    - intros key Hk. destruct (Hc key Hk) as (? & E' & _). congruence.
    - intros key f Hk. destruct (Hj key f Hk) as (? & E' & _). congruence. }
  change (retro_device (set_encryptor _ r)) with (retro_device r).
  destruct (metadata_ (retro_device r)); [by intros H%CreateDataEncryptor_base|].
  intros [= <-]. split; [|done]. destruct H1. untouched.
Qed.

Lemma key_written_client r k key :
  (forall o, o ∈ output (retro_client r) -> o ∈ output k) -> key_written r key -> key_written (set_client k r) key.
Proof. intros Ho (e & He & Hin). exists e. auto. Qed.

(** A step of the GATT client: outputs are only added, and a key in a job was in a job
    or captured before. *)
Lemma client_base r k :
  retro_base r -> device_ k = device_ (retro_client r) -> (forall o, o ∈ output (retro_client r) -> o ∈ output k) ->
  (forall key, written_account_key k = Some key -> written_account_key (retro_client r) = Some key) ->
  (forall key failure, account_key_response (Some key) failure ∈ executor_ k ->
     account_key_response (Some key) failure ∈ executor_ (retro_client r) \/ written_account_key (retro_client r) = Some key) ->
  retro_base (set_client k r).
Proof.
  intros [Hp Hq Ha Hc Hj] Hd Ho Hw He. unfold retro_device in *. split; cbn; unfold retro_device; cbn;
    rewrite ?Hd; try done.
  - intros key H. apply key_written_client; auto.
  - intros key f [H|H]%He; apply key_written_client; eauto.
Qed.

Lemma client_ok_step r k :
  retro_ok r -> retro_base (set_client k r) -> device_ k = device_ (retro_client r) ->
  (forall o, o ∈ output (retro_client r) -> o ∈ output k) -> retro_ok (set_client k r).
Proof.
  intros [_ Hd] Hb Hdev Ho. split; [done|]. cbn. unfold retro_device. cbn. rewrite Hdev.
  intros H. apply key_written_client; auto.
Qed.

Lemma WriteAccountKey_base r e k :
  retro_base r -> encryptor_ r = Some (Settled (Some e)) -> WriteAccountKey e (retro_client r) = Done k ->
  retro_base (set_client k r).
Proof.
  intros [Hp Hq Ha Hc Hj] He. unfold WriteAccountKey. destruct (is_initialized_ _); [|done]. cbn.
  destruct (gatt_client_ _); [|done]. intros [= <-]. split; cbn; try done.
  - intros key [= <-]. exists e. split; [done|]. cbn. apply elem_of_app. right. apply list_elem_of_singleton. done.
  - intros key f H. apply key_written_client; [cbn; intros; apply elem_of_app; auto|eauto].
Qed.

Lemma GetGattClientRef_base r r' :
  retro_base r -> GetGattClientRef r = Done r' -> retro_base r' /\ pairing_step_ r' = pairing_step_ r.
Proof.
  intros Hr. unfold GetGattClientRef. destruct (gatt_created r); [by intros [= <-]|].
  unfold InitializeGattConnection, AttemptGattConnection, CreateGattConnection.
  destruct (gatt_available r); cbn; [|done]. intros [= <-]. split; [|done].
  destruct Hr as [Hp Hq Ha Hc Hj]. split; cbn; try done.
  - intros key H. apply (key_written_client r _ key); [cbn; intros; apply elem_of_app; auto|auto].
  - intros key f [H|H%list_elem_of_singleton]%elem_of_app; [|done].
    apply (key_written_client r _ key); [cbn; intros; apply elem_of_app; auto|eauto].
Qed.

(** Changing the step keeps the invariant, if the key is written when the step says so. *)
Definition changes_ok (f : PairingStep -> Retro -> outcome Retro) : Prop :=
  forall step r r', retro_ok r -> (done_step step = true -> key_written r (account_key_ (retro_device r))) ->
    f step r = Done r' -> retro_ok r'.

Lemma result_ok status r : retro_ok r -> retro_ok (set_result status r).
Proof. intros [[] H]. unfold set_result. destruct (pairing_result_ r); split; try done; untouched. Qed.

Lemma on_model_id_ok f r r' :
  changes_ok f -> retro_ok r -> on_model_id_or_address f r = Done r' -> retro_ok r'.
Proof.
  intros Hf Hr. unfold on_model_id_or_address. destruct (alive r); [|done]. cbn [negb].
  destruct (decide _); [|by intros [= <-]].
  destruct (ble_address_ _), (model_id_ r); try (by intros [= <-]). by apply Hf.
Qed.

Lemma on_connected_ok f r r' : changes_ok f -> retro_ok r -> on_connected f r = Done r' -> retro_ok r'.
Proof. intros Hf Hr. unfold on_connected. destruct (alive r); [|done]. by apply Hf. Qed.

Lemma on_disconnected_ok f status r r' :
  changes_ok f -> retro_ok r -> on_disconnected f status r = Done r' -> retro_ok r'.
Proof.
  intros Hf Hr. unfold on_disconnected. destruct (alive r); [|done]. cbn [negb].
  destruct (decide _); apply Hf; try done. by apply result_ok.
Qed.

Lemma EnterPairingStep_ok f step r r' :
  changes_ok f -> retro_ok r -> pairing_step_ r = step -> EnterPairingStep f step r = Done r' -> retro_ok r'.
Proof.
  intros Hf Hr Hs. pose proof Hr as [Hb Hd]. destruct step; cbn [EnterPairingStep].
  - intros [= <-]. destruct Hb. split; [untouched|]. cbn. by rewrite Hs.
  - unfold AddMessageStreamConnectionObserver. set (r1 := set_connection_observers true r).
    assert (retro_ok r1) as H1 by (destruct Hb; split; [untouched|done]).
    destruct (code_ok _); [by apply on_connected_ok|by apply on_disconnected_ok].
  - destruct (OpenMessageStream r) as [status r1] eqn:E.
    assert (retro_ok r1) as H1.
    { unfold OpenMessageStream in E. destruct (MediumLoop.OpenRfcomm _). injection E as <- <-.
      destruct Hb. split; [untouched|done]. }
    destruct (code_ok status); [by intros [= <-]|by apply Hf].
  - intros (r1 & H1 & H)%bind_done_inv.
    assert (retro_ok r1) as Hr1.
    { unfold AddModelIdObserver in H1. set (r0 := set_model_id_observers true r) in *.
      assert (retro_ok r0) as H0 by (destruct Hb; split; [untouched|done]).
      destruct (model_id_ r0); [by injection H1 as <-|by eapply on_model_id_ok]. }
    unfold AddAddressRotationObserver in H. set (r2 := set_address_rotation_observers true r1) in *.
    assert (retro_ok r2) as H2 by (destruct Hr1 as [[] ?]; split; [untouched|done]).
    destruct (ble_address_ _); [by injection H as <-|by eapply on_model_id_ok].
  - intros (r1 & (H1 & Hs1 & _)%GetDataEncryptor_base & [= <-])%bind_done_inv; [|done].
    unfold AddEncryptorListener. destruct (encryptor_ r1) as [[]|] eqn:E.
    + split; [|cbn; by rewrite Hs1, Hs]. destruct H1. split; cbn; eauto; try done.
      * intros key Hk. destruct (base_captured0 key Hk) as (? & E' & _). congruence.
      * intros key f' Hk. destruct (base_jobs0 key f' Hk) as (? & E' & _). congruence.
    + split; [|cbn; by rewrite Hs1, Hs]. destruct H1. untouched.
    + split; [done|]. by rewrite Hs1, Hs.
  - by intros [= <-].
  - intros (r1 & [H1 Hs1]%GetGattClientRef_base & [= <-])%bind_done_inv; [|done].
    split; [destruct H1; untouched|]. cbn. by rewrite Hs1, Hs.
  - intros (e & He & H)%bind_done_inv. unfold decryptor in He.
    destruct (encryptor_ r) as [[|[x|]]|] eqn:E; try done. injection He as ->.
    destruct (gatt_created r); [|done]. cbn [negb] in H. apply bind_done_inv in H as (k & Hk & [= <-]).
    split; [by eapply WriteAccountKey_base|]. cbn. by rewrite Hs.
  - apply Hf; [done|]. intros _. apply Hd. by rewrite Hs.
  - apply Hf; [done|]. intros _. apply Hd. by rewrite Hs.
  - intros [= <-]. by apply result_ok.
  - intros [= <-]. by apply result_ok.
Qed.

Lemma SetPairingStep_ok : changes_ok SetPairingStep.
Proof.
  unfold SetPairingStep. generalize step_limit. intros n. induction n as [|n IH]; intros step r r' Hr Hk H; [done|].
  cbn [SetPairingStep_nested] in H. destruct (decide _); [by injection H as <-|].
  eapply EnterPairingStep_ok in H; [done|exact IH| |done].
  destruct Hr as [Hb _]. split; [by apply base_step|].
  assert (forall key, key_written r key ->
    key_written (set_pairing_step step (ExitPairingStep (pairing_step_ r) r)) key) as Hw
    by (intros key; by destruct (pairing_step_ r)).
  intros Hd. apply Hw. replace (retro_device _) with (retro_device r); [by apply Hk|by destruct (pairing_step_ r)].
Qed.

(** The device changes in members the invariant does not read. *)
Lemma device_ok d r :
  retro_ok r -> protocol_ d = protocol_ (retro_device r) -> metadata_ d = metadata_ (retro_device r) ->
  account_key_ d = account_key_ (retro_device r) -> retro_ok (set_retro_device d r).
Proof.
  intros [[Hp Hq Ha Hc Hj] Hd] E1 E2 E3. unfold retro_device in *.
  split; [split|]; cbn; unfold retro_device; cbn; rewrite ?E1, ?E2, ?E3; try done; eauto.
Qed.

Lemma OnNote_ok n r r' : retro_ok r -> OnNote n r = Done r' -> retro_ok r'.
Proof.
  intros Hr. destruct n; cbn [OnNote]; try (by intros [= <-]).
  - set (r1 := set_message_stream_status s r).
    assert (retro_ok r1) as H1 by (destruct Hr as [[] ?]; split; [untouched|done]).
    destruct (code_ok s); cbn [negb]; [|by intros [= <-]].
    destruct (connection_observers_ r1); [by apply on_connected_ok; [apply SetPairingStep_ok|]|by intros [= <-]].
  - set (r1 := set_message_stream_status s r).
    assert (retro_ok r1) as H1 by (destruct Hr as [[] ?]; split; [untouched|done]).
    destruct (connection_observers_ r1); [by apply on_disconnected_ok; [apply SetPairingStep_ok|]|by intros [= <-]].
  - set (r1 := set_model_id _ r).
    assert (retro_ok r1) as H1 by (destruct Hr as [[] ?]; split; [untouched|done]).
    destruct (model_id_observers_ r1); [by apply on_model_id_ok; [apply SetPairingStep_ok|]|by intros [= <-]].
  - set (r1 := set_retro_device _ r). assert (retro_ok r1) as H1 by (by apply device_ok).
    destruct (address_rotation_observers_ r1); [by apply on_model_id_ok; [apply SetPairingStep_ok|]|by intros [= <-]].
Qed.

Lemma OnNotes_ok ns r r' : retro_ok r -> OnNotes ns r = Done r' -> retro_ok r'.
Proof.
  revert r. induction ns as [|n ns IH]; intros r Hr; cbn [OnNotes]; [by intros [= <-]|].
  intros (r1 & H1 & H)%bind_done_inv. eapply IH; [|exact H]. by eapply OnNote_ok.
Qed.

Lemma on_device_metadata_ok m r r' : retro_ok r -> on_device_metadata m r = Done r' -> retro_ok r'.
Proof.
  intros Hr. pose proof Hr as [Hb Hd]. unfold on_device_metadata.
  destruct (metadata_requested r) eqn:Eq; cbn [negb]; [|by intros [= <-]].
  destruct (base_requested _ Hb Eq) as [listener El].
  assert (forall key, ~ key_written r key) as Hno by (intros key (e & E & _); congruence).
  assert (retro_base (set_metadata_requested false r)) as H1 by (destruct Hb; untouched; done).
  destruct m as [m|]; [|intros [= <-]; by split].
  set (r1 := set_retro_device _ _). intros (H2 & Hs & Hdev)%CreateDataEncryptor_base; [| |done].
  - split; [done|]. rewrite Hs. intros Hdone. destruct (Hno _ (Hd Hdone)).
  - destruct H1 as [Hp _ _ Hc Hj]. split; cbn; try done.
    by rewrite El.
Qed.

Lemma run_client_job_ok j r r' :
  retro_ok r -> (forall key failure, j = account_key_response (Some key) failure -> key_written r key) ->
  run_client_job j r = Done r' -> retro_ok r'.
Proof.
  intros Hr Hj. destruct j; cbn [run_client_job]; try (by intros [= <-]).
  - intros [= <-]. destruct gatt_client; [|done].
    apply client_ok_step; [done|apply client_base; [by destruct Hr|..]|done|]; cbn; auto;
      intros; apply elem_of_app; auto.
  - destruct (key_based_write_response_callback_ _); cbn [negb]; [|by intros [= <-]].
    destruct (alive r); cbn [negb]; [|done]. unfold on_request_written.
    destruct failure; by apply SetPairingStep_ok.
  - destruct (account_key_write_callback_ _); cbn [negb]; [|by intros [= <-]].
    destruct (alive r); cbn [negb]; [|done]. unfold on_key_written.
    destruct failure; [by apply SetPairingStep_ok|]. destruct account_key as [key|]; [|done].
    specialize (Hj key None eq_refl). destruct Hr as [[Hp Hq Ha Hc Hjs] Hd].
    apply SetPairingStep_ok; [|done]. split; [by split|]. cbn. intros _. exact Hj.
Qed.

Lemma retro_step_ok e r r' : retro_ok r -> retro_step e r = Done r' -> retro_ok r'.
Proof.
  intros Hr. destruct e; cbn [retro_step]; unfold client_does.
  - destruct (alive r); [|done]. by apply SetPairingStep_ok.
  - unfold stream_does. destruct (message_stream_ r) as [k|]; [|by intros [= <-]].
    apply OnNotes_ok. destruct Hr as [[] ?]. split; [untouched|done].
  - by apply on_device_metadata_ok.
  - destruct (retro_executor_ r) as [|j js]; [by intros [= <-]|].
    set (r1 := set_retro_executor js r).
    assert (retro_ok r1) as H1 by (destruct Hr as [[] ?]; split; [untouched|done]).
    unfold run_retro_job. destruct (alive r1); [|done]. cbn [negb].
    destruct j as [[e|]|]; cbn [on_encryptor]; [by apply SetPairingStep_ok..|]. unfold on_gatt.
    intros (e & _ & H)%bind_done_inv. destruct (gatt_created r1); [|done]. cbn [negb] in H.
    apply bind_done_inv in H as (k & Hk & [= <-]). unfold WriteRequestAsync in Hk.
    destruct (key_based_write_response_callback_ _); [done|]. cbn in Hk. unfold call_remote in Hk.
    destruct (gatt_client_ _); [|done]. injection Hk as <-.
    apply client_ok_step; [done|apply client_base; [by destruct H1|..]|done|]; cbn; auto; intros; apply elem_of_app; auto.
  - destruct (executor_ (retro_client r)) as [|j js] eqn:Ej; [by intros [= <-]|].
    set (r1 := set_client _ r). intros H. eapply run_client_job_ok; [|..|exact H].
    + apply client_ok_step; [done|apply client_base; [by destruct Hr|..]|done|]; cbn; auto.
      intros key f Hin. left. rewrite Ej. by right.
    + intros key f ->. destruct Hr as [[_ _ _ _ Hj] _]. destruct (Hj key f) as (e & He & Ho); [|by exists e].
      rewrite Ej. left.
  - intros [= <-]. destruct (gatt_created r); [|done]. unfold on_connection_status. destruct (code_ok status);
      (apply client_ok_step; [done|apply client_base; [by destruct Hr|..]|done|]); cbn; auto;
      intros key f; rewrite ?elem_of_app, ?list_elem_of_singleton; intuition congruence.
  - intros [= <-]. destruct (gatt_created r); [|done]. unfold on_key_based_response. destruct response;
      (apply client_ok_step; [done|apply client_base; [by destruct Hr|..]|done|]); cbn; auto;
      intros key f; rewrite ?elem_of_app, ?list_elem_of_singleton; intuition congruence.
  - intros [= <-]. destruct (gatt_created r); [|done]. unfold on_account_key_written.
    destruct (written_account_key (retro_client r)) as [key|] eqn:Ek; [|by destruct r].
    destruct (code_ok status);
      (apply client_ok_step; [done|apply client_base; [by destruct Hr|..]|done|]); cbn; auto; try done;
      intros key' f; rewrite ?elem_of_app, ?list_elem_of_singleton, ?Ek; intuition congruence.
  - destruct (alive r); [|done]. intros (r1 & H1 & [= <-])%bind_done_inv. eapply SetPairingStep_ok in H1; [|done|done].
    destruct H1 as [[] ?]. split; [untouched|done].
Qed.

Lemma retro_steps_ok es r r' : retro_ok r -> retro_steps es r = Done r' -> retro_ok r'.
Proof.
  revert r. induction es as [|e es IH]; intros r Hr; cbn [retro_steps]; [by intros [= <-]|].
  intros (r1 & H1 & H)%bind_done_inv. eapply IH; [|exact H]. by eapply retro_step_ok.
Qed.

(** C15. A retroactive pairing that reports success has given the provider the account
    key that the seeker keeps.  Whatever the surroundings do, in any order (message
    stream, repository, GATT operations), when the pairing has come to its last
    step, a key was agreed with the anti-spoofing key of the device's metadata, and
    the account key of the device was written encrypted under it. *)
Theorem Retroactive_success_key_written d model_id seeker_address available es r :
  protocol_ d = kFastPairRetroactivePairing ->
  retro_steps es (new_retroactive d model_id seeker_address available) = Done r -> pairing_step_ r = kSuccess ->
  exists e m, metadata_ (retro_device r) = Some m /\ agreed m e
    /\ WriteCharacteristic kAccountKeyCharacteristicIndex
         (EncryptBytes (shared_secret_key_ e) (account_key_ (retro_device r))) ∈ output (retro_client r).
Proof.
  intros Hp H Hs. eapply retro_steps_ok in H; [|by split; [split; cbn; try done; intros ? ? ?%not_elem_of_nil|]].
  destruct H as [Hb Hd]. destruct Hd as (e & He & Hin); [by rewrite Hs|].
  destruct (base_agreed _ Hb e He) as (m & Hm & Ha). by exists e, m.
Qed.
End Safety.
