(* ===== verification/InteropAdvertisement.v ===== *)
(** The seeker's reading of the provider's advertisements.  The seeker's parser and
    account key filter ([SeekerData], C++) and the provider's encoder
    ([Advertisement], [ClientAdvertising], C) are two implementations of one format,
    and are put together here: a seeker recognises the advertisement of a provider
    that stores one of its account keys, and reads the model id of a provider in
    pairing mode. *)

From Stdlib Require Import ZArith Lia.
From stdpp Require Import base list numbers gmap.
From S2P Require Import Prelude Utils Platform SecureElement TestPlatform Crypto AccountKeys.
From S2P Require Import Advertisement CryptoSafety AdvertisementSafety.
From S2P Require Import ClientState ClientAdvertising ClientInvariant ClientAdvertisingSafety Client ClientTheorems.
From S2P Require Import CppBase SeekerData.
Import Utils.

Open Scope Z_scope.
Open Scope fp_scope.

(** Both sides compute the same hash and the same cipher. *)
Definition provider_openssl {P : Platform} (Aes : AesSpec P) (Sha : Sha256Spec P) : OpenSSL :=
  {| SHA256 := sha256; AES_encrypt := aes; AES_decrypt := aes_inv |}.

#[export] Instance provider_openssl_spec {P : Platform} (Aes : AesSpec P) (Sha : Sha256Spec P)
  : OpenSSLSpec (provider_openssl Aes Sha).
Proof.
  split; cbn; intros; [apply sha256_length|apply sha256_ok|apply aes_length|apply aes_inv_length
    |apply aes_ok|apply aes_inv_ok|by apply aes_inv_aes].
Qed.

(** * The filter *)
Section Filter.
Context {O : OpenSSL} {Ospec : OpenSSLSpec O}.
Import AccountKeyFilter.

Lemma u32_shiftl a n : is_byte a -> 0 <= n <= 24 -> u32 (Z.shiftl a n) = Z.shiftl a n.
Proof.
  unfold is_byte. intros Ha Hn. rewrite Z.shiftl_mul_pow2 by lia. apply u32_id.
  pose proof (Z.pow_le_mono_r 2 n 24 ltac:(lia) ltac:(lia)). change (2 ^ 24) with 16777216 in *.
  change (2 ^ 32) with (256 * 16777216). nia.
Qed.

Lemma big_endian_word a b c d :
  is_byte a -> is_byte b -> is_byte c -> is_byte d ->
  Z.lor (Z.lor (Z.lor (u32 (Z.shiftl a 24)) (u32 (Z.shiftl b 16))) (u32 (Z.shiftl c 8))) d
  = be_value [a; b; c; d].
Proof.
  unfold is_byte. intros Ha Hb Hc Hd. rewrite (u32_shiftl a), (u32_shiftl b), (u32_shiftl c) by (unfold is_byte; lia).
  replace (Z.shiftl a 24) with (Z.shiftl (Z.shiftl a 8) 16) by (by rewrite Z.shiftl_shiftl).
  rewrite <- Z.shiftl_lor, (lor_shiftl_low 8 a b) by lia. change (2 ^ 8) with 256.
  replace (Z.shiftl (256 * a + b) 16) with (Z.shiftl (Z.shiftl (256 * a + b) 8) 8) by (by rewrite Z.shiftl_shiftl).
  rewrite <- Z.shiftl_lor, (lor_shiftl_low 8 _ c), lor_shiftl_low by lia.
  unfold be_value. cbn [fold_left]. change (2 ^ 8) with 256. lia.
Qed.

Lemma testbit_shiftr b i : 0 <= i -> nonzero (Z.land (Z.shiftr b i) 1) = Z.testbit b i.
Proof.
  intros Hi. change 1 with (Z.ones 1). rewrite Z.land_ones by lia. change (2 ^ 1) with 2.
  rewrite <- Z.bit0_mod, Z.shiftr_spec, Z.add_0_l by lia. by destruct (Z.testbit b i).
Qed.

Lemma word_is_set_spec hashed bits j :
  length hashed = 32%nat -> bytes_ok hashed -> bits <> [] -> (j < 8)%nat ->
  word_is_set hashed bits (4 * j)
  = Done (has_bit bits (be_value (take 4 (drop (4 * j) hashed)) mod (Z.of_nat (length bits) * 8))).
Proof.
  intros Hl Hb Hne Hj. unfold word_is_set.
  destruct (load_lt hashed (4 * j)) as (h0 & -> & H0); [lia|].
  destruct (load_lt hashed (4 * j + 1)) as (h1 & -> & H1); [lia|].
  destruct (load_lt hashed (4 * j + 2)) as (h2 & -> & H2); [lia|].
  destruct (load_lt hashed (4 * j + 3)) as (h3 & -> & H3); [lia|].
  rewrite !done_bind. rewrite big_endian_word by (by eapply Forall_lookup_1).
  assert (take 4 (drop (4 * j) hashed) = [h0; h1; h2; h3]) as ->.
  { rewrite (drop_S _ h0) by done. rewrite (drop_S _ h1) by (by rewrite <- H1; f_equal; lia).
    rewrite (drop_S _ h2) by (by rewrite <- H2; f_equal; lia).
    rewrite (drop_S _ h3) by (by rewrite <- H3; f_equal; lia). done. }
  unfold kBitsInByte. assert (0 < length bits)%nat by (destruct bits; cbn; [done|lia]).
  set (n := be_value _ mod _). assert (0 <= n < Z.of_nat (length bits) * 8) as Hn by (apply Z.mod_pos_bound; lia).
  assert (0 <= n / 8 < Z.of_nat (length bits)) as Hq
    by (split; [apply Z.div_pos|apply Z.div_lt_upper_bound]; lia).
  destruct (load_lt bits (Z.to_nat (n / 8))) as (b & -> & Hbit); [lia|]. rewrite done_bind.
  unfold has_bit. rewrite Hbit. cbn [default]. rewrite testbit_shiftr; [done|].
  apply Z.mod_pos_bound. lia.
Qed.

(** The seeker tests the eight bits the provider sets. *)
Lemma checker_spec data bits :
  bits <> [] -> AccountKeyFilterChecker data bits
  = Done (forallb (has_bit bits) (bloom_bits (Z.of_nat (length bits)) (SHA256 data))).
Proof.
  intros Hne. unfold AccountKeyFilterChecker, bloom_bits.
  change [0; 4; 8; 12; 16; 20; 24; 28]%nat with ((fun j => (4 * j)%nat) <$> seq 0 8).
  assert (Forall (fun j => j < 8)%nat (seq 0 8)) as Hf.
  { apply Forall_forall. intros j Hj%elem_of_seq. lia. }
  revert Hf. generalize (seq 0 8) as js. induction js as [|j js IH]; intros Hf; [done|].
  apply Forall_cons in Hf as [Hj Hf]. rewrite !fmap_cons. cbn [checker_loop forallb].
  rewrite word_is_set_spec by (done || apply SHA256_length || apply SHA256_ok). rewrite done_bind.
  destruct (has_bit bits _); cbn [negb andb]; [by apply IH|done].
Qed.

(** An account key passes the filter with its own first byte, with that of the most
    recently used key, or with that of the key in use. *)
Lemma IsPossiblyInSet_spec f key b k :
  bit_sets_ f <> [] -> key = b :: k -> length k = 15%nat ->
  IsPossiblyInSet f key
  = Done (existsb (fun c => forallb (has_bit (bit_sets_ f))
      (bloom_bits (Z.of_nat (length (bit_sets_ f))) (SHA256 (c :: k ++ salt_values_ f))))
      [b; kRecentlyUsedByte; kInUseByte]).
Proof.
  intros Hne -> Hk. unfold IsPossiblyInSet, AccountKey_Ok, kAccountKeySize. cbn [length]. rewrite Hk.
  cbn [Nat.eqb negb]. destruct (bit_sets_ f) as [|x bits] eqn:E; [done|]. rewrite <- E in *.
  assert ((length (bit_sets_ f) =? 0)%nat = false) as -> by (rewrite E; done).
  cbn [app insert list_insert]. rewrite !checker_spec by done.
  cbn [existsb]. rewrite !done_bind. destruct (forallb _ _); [done|].
  cbn [orb]. destruct (forallb _ (bloom_bits _ (SHA256 (kRecentlyUsedByte :: _)))); [done|].
  by rewrite orb_false_r.
Qed.

End Filter.

(** * The fields *)
Section Fields.
Import FastPairDecoder FastPairDataParser.

(** The ranges of the payloads of [fs], whose first byte is at [off]. *)
Fixpoint field_ranges (fs : list field) (off : nat) (m : indices) : indices :=
  match fs with
  | [] => m
  | f :: fs => let e := (off + 1 + length (snd f))%nat in
               field_ranges fs e (<[fst f := (off + 1, e)%nat]> m)
  end.

Lemma seeker_header f : field_ok f ->
  let h := 16 * Z.of_nat (length (snd f)) + fst f in
  Z.land h kFieldTypeBitmask = fst f
  /\ Z.to_nat (Z.shiftr (Z.land h kFieldLengthBitmask) kFieldLengthOffset) = length (snd f).
Proof.
  intros [Ht Hl]. cbv zeta. set (h := _ + _).
  assert (is_byte h) as Hh by (unfold is_byte, h; lia).
  pose proof (byte_cases (fun h => (Z.land h kFieldTypeBitmask =? h mod 16) &&
    (Z.shiftr (Z.land h kFieldLengthBitmask) kFieldLengthOffset =? h / 16)) h
    ltac:(vm_compute; reflexivity) Hh) as H. cbn beta in H.
  apply andb_true_iff in H as [H1%Z.eqb_eq H2%Z.eqb_eq].
  assert (h mod 16 = fst f /\ h / 16 = Z.of_nat (length (snd f))) as [E1 E2].
  { unfold h. rewrite (Z.mul_comm 16). split.
    - rewrite Z.add_comm, Z.mod_add, Z.mod_small by lia. done.
    - rewrite Z.div_add_l, Z.div_small by lia. lia. }
  split; [congruence|]. rewrite H2, E2. lia.
Qed.

(** The parser finds the fields where the provider put them. *)
Lemma field_loop_fields n pre fs m :
  Forall field_ok fs -> (length fs <= n)%nat ->
  field_loop n (pre ++ fields_bytes fs) (length pre) m = Done (field_ranges fs (length pre) m).
Proof.
  revert n pre m. induction fs as [|f fs IH]; intros n pre m Hfs Hn.
  { change (fields_bytes []) with (@nil Z). rewrite app_nil_r.
    destruct n; cbn [field_loop field_ranges]; by rewrite Nat.ltb_irrefl. }
  destruct n as [|n]; [cbn in Hn; lia|]. apply Forall_cons in Hfs as [Hf Hfs].
  destruct (seeker_header f Hf) as [Ht Hl]. cbv zeta in Ht, Hl.
  rewrite fields_bytes_cons. cbn [field_loop].
  assert (length (field_bytes f) = 1 + length (snd f))%nat as Hfl by apply field_bytes_length.
  rewrite (proj2 (Nat.ltb_lt _ _)) by (rewrite !length_app; lia).
  rewrite (load_done _ _ (16 * Z.of_nat (length (snd f)) + fst f))
    by (rewrite lookup_app_r, Nat.sub_diag by lia; done).
  rewrite done_bind, Ht, Hl. rewrite (proj2 (Nat.leb_le _ _)) by (rewrite !length_app; lia).
  replace (length pre + 1 + length (snd f))%nat with (length (pre ++ field_bytes f)) by (rewrite length_app; lia).
  rewrite app_assoc, IH by (done || cbn in Hn; lia). cbn [field_ranges].
  rewrite length_app, Hfl. by rewrite Nat.add_assoc.
Qed.

Lemma copy_field pre f rest :
  CopyFieldBytesToVector (pre ++ field_bytes f ++ rest) (length pre + 1, length pre + 1 + length (snd f))%nat
  = Done (snd f).
Proof.
  unfold CopyFieldBytesToVector. cbn [fst snd].
  rewrite copy_bytes_done by (rewrite !length_app, field_bytes_length; lia).
  replace (length pre + 1 + length (snd f) - (length pre + 1))%nat with (length (snd f)) by lia.
  rewrite drop_app_add' by done. unfold field_bytes.
  change (drop 1 ((_ :: snd f) ++ rest)) with (snd f ++ rest). by rewrite take_app_length.
Qed.

(** The battery value is in the documented range, or unknown. *)
Definition level_ok (level : Z) : Prop := Z.land level 127 <= 100 \/ Z.land level 127 = 127.
Definition battery_ok (b : nearby_platform_BatteryInfo) : Prop :=
  level_ok (left_bud_battery_level b) /\ level_ok (right_bud_battery_level b)
  /\ level_ok (charging_case_battery_level b).

Lemma battery_roundtrip charging level :
  level_ok level ->
  let b := Z.lor (if charging : bool then 128 else 0) (Z.land level 127) in
  BatteryNotification.ToByte (BatteryNotification.FromByte b) = b.
Proof.
  unfold level_ok. pose proof (land_127 level) as Hr. set (x := Z.land level 127) in *. intros Hx. cbv zeta.
  pose proof (range_cases (fun x => implb ((x <=? 100) || (x =? 127)) (forallb (fun c : bool =>
    let b := Z.lor (if c then 128 else 0) x in
    BatteryNotification.ToByte (BatteryNotification.FromByte b) =? b) [true; false])) 128 x
    ltac:(vm_compute; reflexivity) ltac:(lia)) as H. cbn beta in H.
  rewrite (proj2 (orb_true_iff _ _)) in H by (rewrite Z.leb_le, Z.eqb_eq; lia).
  cbn [implb forallb] in H. apply andb_true_iff in H as [H1 H2]. apply andb_true_iff in H2 as [H2 _].
  apply Z.eqb_eq in H1, H2. destruct charging; assumption.
Qed.

(** The seeker's view of a non-discoverable advertisement of the provider. *)
Definition read_battery (sb : bool) (bi : option nearby_platform_BatteryInfo)
  : option BatteryNotification.BatteryNotification :=
  match bi with
  | None => None
  | Some b => Some (BatteryNotification.MakeNotification
      (if sb then BatteryNotification.kShowUi else BatteryNotification.kHideUi)
      (BatteryNotification.FromByte <$> battery_levels b))
  end.

Lemma parse_nondiscoverable {ct : CharType} filter salt sp sb bi address uninitialised :
  (1 <= length filter <= 15)%nat -> length salt = 2%nat ->
  ParseNotDiscoverableAdvertisement (0 :: fields_bytes (nondiscoverable_fields filter salt sp sb bi))
    address uninitialised
  = Done (Some (MakeAdvertisement filter (if sp then kShowUi else kHideUi) salt (read_battery sb bi))).
Proof.
  intros Hf Hs. set (fs := nondiscoverable_fields filter salt sp sb bi).
  assert (Forall field_ok fs) as Hfs.
  { unfold fs, nondiscoverable_fields. constructor; [split; cbn; [destruct sp|]; lia|].
    constructor; [split; cbn; lia|]. destruct bi; constructor; [|constructor].
    split; cbn; [destruct sb|]; lia. }
  assert (length (0%Z :: fields_bytes fs) = length filter + 5 + match bi with Some _ => 4 | None => 0 end)%nat as Hl.
  { unfold fs, nondiscoverable_fields. cbn [app length]. rewrite !fields_bytes_cons.
    destruct bi; rewrite ?fields_bytes_cons; change (fields_bytes []) with (@nil Z);
      rewrite !length_app, !field_bytes_length; cbn [snd length battery_levels]; lia. }
  unfold ParseNotDiscoverableAdvertisement. rewrite Hl.
  rewrite (proj2 (Nat.eqb_neq _ _)) by lia.
  assert (GetVersion (0 :: fields_bytes fs) = Done 0) as -> by (unfold GetVersion; by destruct (_ =? _)).
  assert (GetIdLength (0 :: fields_bytes fs) = Done 0) as ->.
  { unfold GetIdLength, size. rewrite Hl, (proj2 (Z.eqb_neq _ _)) by (unfold kMinModelIdLength; destruct bi; lia). done. }
  rewrite !done_bind. cbn [negb Z.eqb kHeaderIndex Nat.add Z.to_nat].
  rewrite (field_loop_fields _ [0] fs ∅) by (done || unfold fs, nondiscoverable_fields; destruct bi; cbn; lia).
  rewrite done_bind. cbn [length].
  assert (forall pre f rest, [0] ++ fields_bytes fs = pre ++ field_bytes f ++ rest ->
    CopyFieldBytesToVector (0 :: fields_bytes fs) (length pre + 1, length pre + 1 + length (snd f))%nat = Done (snd f)) as Hc.
  { intros pre f rest E. change (0 :: fields_bytes fs) with ([0] ++ fields_bytes fs). rewrite E. apply copy_field. }
  set (d := 0 :: fields_bytes fs) in *.
  assert (CopyFieldBytesToVector d (2, 2 + length filter)%nat = Done filter) as C1.
  { apply (Hc [0] (if sp then 0 else 2, filter) (fields_bytes (drop 1 fs))). done. }
  assert (CopyFieldBytesToVector d (2 + length filter + 1, 2 + length filter + 1 + length salt)%nat = Done salt) as C2.
  { pose proof (Hc ([0] ++ field_bytes (if sp then 0 else 2, filter)) (1, salt) (fields_bytes (drop 2 fs))) as H.
    cbn [snd] in H. rewrite length_app, field_bytes_length in H. cbn [snd length] in H. apply H. done. }
  assert (forall b, bi = Some b -> CopyFieldBytesToVector d
    (2 + length filter + 1 + length salt + 1, 2 + length filter + 1 + length salt + 1 + 3)%nat = Done (battery_levels b)) as C3.
  { intros b Hb. pose proof (Hc ([0] ++ field_bytes (if sp then 0 else 2, filter) ++ field_bytes (1, salt))
      (if sb then 3 else 4, battery_levels b) []) as H.
    cbn [snd] in H. rewrite !length_app, !field_bytes_length in H. cbn [snd length] in H.
    replace (2 + length filter + 1 + length salt)%nat with (1 + (1 + length filter + (1 + length salt)))%nat by lia.
    apply H. unfold fs, nondiscoverable_fields. rewrite Hb. unfold fields_bytes. cbn [fmap list_fmap concat app].
    by rewrite !app_assoc, !app_nil_r. }
  unfold fs, nondiscoverable_fields, either_field.
  unfold kFieldTypeAccountKeyFilter, kFieldTypeAccountKeyFilterNoNotification, kFieldTypeAccountKeyFilterSalt,
    kFieldTypeBattery, kFieldTypeBatteryNoNotification.
  destruct sp, bi as [b|], sb; cbn [app field_ranges fst snd length battery_levels];
    repeat (first [rewrite lookup_insert_ne by lia | rewrite lookup_insert_eq | rewrite lookup_empty]);
    cbn [Nat.add] in *; rewrite ?C1, ?done_bind, ?(proj2 (Nat.eqb_neq _ _)) by lia;
    rewrite ?C2, ?(C3 _ eq_refl), ?done_bind, ?Hs; done.
Qed.

End Fields.

(** * Recognition *)
Section Recognition.
Context {C : Config} {P : Platform} {Aes : AesSpec P} {Sha : Sha256Spec P}.
#[local] Instance openssl : OpenSSL := provider_openssl Aes Sha.
Import AccountKeyFilter FastPairDataParser.

Lemma unique_keys_complete l key :
  key ∈ key_bytes l -> exists i, unique_keys l !! i = Some key.
Proof.
  intros Hk. apply list_elem_of_lookup. unfold unique_keys.
  generalize dependent (key_bytes l). intros ks Hk.
  assert (exists i, ks !! i = Some key /\ key ∉ take i ks) as (i & Hi & Hn).
  { induction ks as [|k ks IH]; [by apply not_elem_of_nil in Hk|].
    destruct (decide (key = k)) as [->|Hne].
    - exists 0%nat. split; [done|]. cbn. apply not_elem_of_nil.
    - apply elem_of_cons in Hk as [?|Hk]; [done|]. destruct (IH Hk) as (i & Hi & Hn).
      exists (S i). split; [done|]. cbn. rewrite elem_of_cons. tauto. }
  apply list_elem_of_fmap. exists i. split; [by rewrite Hi|].
  apply list_elem_of_filter. split; [unfold first_at; by rewrite Hi|].
  apply elem_of_seq. apply lookup_lt_Some in Hi. lia.
Qed.

(** What the provider hashes with a key is what the seeker hashes with it. *)
Lemma hashed_message filter salt sp sb bi i b k :
  is_byte b -> match bi with Some x => battery_ok x | None => True end ->
  bloom_message false None (drop 1 (nondiscoverable_fields filter salt sp sb bi)) i (b :: k)
  = b :: k ++ salt_values_ (new_filter (MakeAdvertisement filter (if sp then kShowUi else kHideUi) salt
      (read_battery sb bi))).
Proof.
  intros Hb Hbi. unfold bloom_message, hashed_flags, new_filter, nondiscoverable_fields.
  cbn [default lookup list_lookup salt_values_ FastPairDataParser.salt battery_notification].
  change (drop 1 (b :: k)) with k. rewrite u8_id by done. do 2 f_equal.
  destruct bi as [x|]; [|done].
  destruct Hbi as (H1 & H2 & H3). unfold read_battery, rrf_field, battery_field.
  destruct sb; cbn; rewrite !battery_roundtrip by done; done.
Qed.

(** Every key of the list passes the seeker's filter on the advertisement. *)
Lemma key_recognised l filter salt sp sb bi key :
  list_ok l -> 0 < num_keys l -> length filter = key_filter_size l ->
  match bi with Some x => battery_ok x | None => True end ->
  (forall m, 0 <= m < 8 * Z.of_nat (key_filter_size l) ->
     has_bit filter m = true <->
     exists i k, unique_keys l !! i = Some k /\
       m ∈ bloom_bits (Z.of_nat (key_filter_size l)) (sha256 (bloom_message false None
             (drop 1 (nondiscoverable_fields filter salt sp sb bi)) i k))) ->
  key ∈ key_bytes l ->
  IsPossiblyInSet (new_filter (MakeAdvertisement filter (if sp then kShowUi else kHideUi) salt
    (read_battery sb bi))) key = Done true.
Proof.
  intros Hok Hn Hf Hbi Hbits Hk. pose proof (unique_count_pos l Hok Hn) as Hu.
  pose proof (filter_size_range (Z.of_nat (unique_count l))) as Hfr.
  assert (buf 16 key) as [Hl Hb].
  { apply list_elem_of_fmap in Hk as (x & -> & Hx). pose proof (ok_keys _ Hok) as Hall.
    rewrite Forall_forall in Hall. destruct (Hall x) as (H1 & H2 & _); [|by split].
    unfold keys_in_use in Hx. apply elem_of_take in Hx as (j & Hj & _). by eapply list_elem_of_lookup_2. }
  destruct key as [|b k]; [done|]. apply Forall_cons in Hb as [Hb _].
  rewrite (IsPossiblyInSet_spec _ _ b k); [|cbn; intros ->; cbn in Hf; unfold key_filter_size in Hf; lia|done|by injection Hl].
  f_equal. cbn [existsb]. apply orb_true_iff. left. apply forallb_forall. intros m Hm.
  cbn [bit_sets_ new_filter account_key_filter] in *. rewrite Hf in Hm. change SHA256 with sha256 in Hm.
  destruct (unique_keys_complete l (b :: k) Hk) as [i Hi].
  apply Hbits.
  - apply list_elem_of_In, list_elem_of_fmap in Hm as (j & -> & _).
    pose proof (Z.mod_pos_bound (be_value (take 4 (drop (4 * j) (sha256 (b :: k ++ salt_values_
      (new_filter (MakeAdvertisement filter (if sp then kShowUi else kHideUi) salt (read_battery sb bi))))))))
      (Z.of_nat (key_filter_size l) * 8)) as Hr. unfold key_filter_size in *. lia.
  - exists i, (b :: k). split; [done|]. rewrite hashed_message by done. by apply list_elem_of_In.
Qed.

End Recognition.

(** * The provider's advertisements, as a seeker hears them *)

(** The service data of the first AD structure of a payload: its first byte is the
    length of what follows, then come the data type and the two bytes of the UUID. *)
Definition heard (payload : list Z) : list Z :=
  take (Z.to_nat (default 0 (payload !! 0%nat)) - 3) (drop 4 payload).

Lemma heard_service_data flags fs rest :
  heard (service_data flags fs ++ rest) = flags :: fields_bytes fs.
Proof.
  change (take (Z.to_nat (Z.of_nat (length (fields_bytes fs)) + 4) - 3)
    ((flags :: fields_bytes fs) ++ rest) = flags :: fields_bytes fs).
  apply take_app_length'. cbn [length]. lia.
Qed.

(** nearby_platform_battery.h: the battery levels are between 0 and 100; a value the
    platform does not fill in keeps the invalid one it had. *)
Class BatterySpec (P : Platform) : Prop :=
  battery_documented : forall b w, battery_ok b ->
    battery_ok (resp_battery (fst (call (BATTERY (GetBatteryInfo b)) w))).

#[export] Instance first_boot_battery : BatterySpec first_boot_platform.
Proof. intros b w Hb. vm_compute. repeat split; auto; left; discriminate. Qed.

Section Heard.
Context {C : Config} {P : Platform} {Aes : AesSpec P} {Sha : Sha256Spec P} {Bat : BatterySpec P}.
Context {ct : CharType}.
#[local] Existing Instance openssl.
Import AccountKeyFilter FastPairDataParser.

(** The advertisement carries the SASS field. *)
Definition sass_advertised (c : client) : bool :=
  NEARBY_FP_ENABLE_SASS && nonzero (Z.land (advertisement_mode c) NEARBY_FP_ADVERTISEMENT_SASS).

Lemma IncludeSass_run s : IncludeSass s = Done (sass_advertised (st s), s).
Proof. unfold IncludeSass, sass_advertised, mode_has. by destruct NEARBY_FP_ENABLE_SASS. Qed.

Lemma SelectInUseKey_none s : sass_advertised (st s) = false -> SelectInUseKey s = Done (None, s).
Proof.
  intros H. unfold SelectInUseKey. destruct NEARBY_FP_ENABLE_SASS eqn:E; [|done].
  by rewrite (bind_run _ _ _ _ _ (IncludeSass_run s)), H.
Qed.

Lemma level_ok_u8 x : level_ok x -> level_ok (u8 x).
Proof.
  unfold level_ok. enough (Z.land (u8 x) 127 = Z.land x 127) as -> by done.
  unfold u8. change 127 with (Z.ones 7). rewrite !Z.land_ones by lia.
  change (2 ^ 8) with (2 ^ 7 * 2). rewrite Z.rem_mul_r by lia.
  rewrite Z.mul_comm, Z.mod_add, Z.mod_mod by lia. done.
Qed.

Lemma PrepareBatteryInfo_documented s :
  wp PrepareBatteryInfo (fun b s' => quiet (fun _ => True) s s' /\
    match b with Some x => battery_ok x | None => True end) s.
Proof.
  unfold PrepareBatteryInfo. apply wp_bind. unfold nearby_platform_GetBatteryInfo.
  set (b0 := BatteryInfo _ _ _ _ _).
  assert (battery_ok b0) as Hb0 by (by repeat split; right).
  apply wp_hal_map_call. pose proof (battery_documented b0 (env s) Hb0) as (H1 & H2 & H3).
  set (resp := fst _) in *. cbv iota beta.
  assert (quiet (fun _ : hal_request => True) s (Sys (st s) (snd (call (BATTERY (GetBatteryInfo b0)) (env s)))
    ((BATTERY (GetBatteryInfo b0), resp) :: log s))) as Hq.
  { split; [done|]. exists [(BATTERY (GetBatteryInfo b0), resp)]. split; [done|]. by repeat constructor. }
  destruct (negb _); apply wp_ret; split; [exact Hq|done|exact Hq|].
  repeat split; cbn; by apply level_ok_u8.
Qed.

(** The bits of the filter are those of the keys. *)
Definition filter_exact (l : AccountKeyList) (filter salt : list Z) (sp sb : bool)
    (bi : option nearby_platform_BatteryInfo) : Prop :=
  forall m, 0 <= m < 8 * Z.of_nat (key_filter_size l) ->
    has_bit filter m = true <->
    exists i k, unique_keys l !! i = Some k /\
      m ∈ bloom_bits (Z.of_nat (key_filter_size l)) (sha256 (bloom_message false None
            (drop 1 (nondiscoverable_fields filter salt sp sb bi)) i k)).

Lemma bloom_fill_exact l salt sp sb bi :
  list_ok l -> 0 < num_keys l ->
  let filter := bloom_fill (Z.of_nat (key_filter_size l))
    (bloom_message false None (drop 1 (nondiscoverable_fields [] salt sp sb bi))) 0 (unique_keys l)
    (replicate (key_filter_size l) 0) in
  length filter = key_filter_size l /\ filter_exact l filter salt sp sb bi.
Proof.
  intros Hok Hn filter. pose proof (unique_count_pos l Hok Hn) as Hu.
  pose proof (filter_size_range (Z.of_nat (unique_count l))) as Hfr.
  destruct (bloom_fill_spec (Z.of_nat (key_filter_size l))
    (bloom_message false None (drop 1 (nondiscoverable_fields [] salt sp sb bi))) 0 (unique_keys l)
    (replicate (key_filter_size l) 0)) as (L & _ & X);
    [apply bytes_ok_replicate; unfold is_byte; lia|by rewrite length_replicate|unfold key_filter_size; lia|].
  split; [unfold filter; by rewrite L, length_replicate|]. intros m Hm. unfold filter. rewrite X by lia.
  assert (has_bit (replicate (key_filter_size l) 0) m = false) as ->.
  { unfold has_bit. destruct (replicate _ 0 !! _) eqn:E; cbn; [|apply Z.bits_0].
    apply lookup_replicate in E as [-> _]. apply Z.bits_0. }
  split; [by intros [?|?]|by right].
Qed.

(** The advertisement under way without SASS, filled and handed to the radio. *)
Lemma send_heard l output salt sp sb bi s :
  list_ok l -> 0 < num_keys l -> length output = NON_DISCOVERABLE_ADV_SIZE_BYTES -> length salt = 2%nat ->
  (nondiscoverable_size l bi + 3 <= NON_DISCOVERABLE_ADV_SIZE_BYTES)%nat ->
  wp (send_payload l (service_data 0 (nondiscoverable_fields (replicate (key_filter_size l) 0) salt sp sb bi)
        ++ drop (nondiscoverable_size l bi) output) (nondiscoverable_size l bi) false None)
    (fun _ s' => exists payload resp filter,
       called (BLE (SetAdvertisement payload kNoLargerThan250ms)) resp s s'
       /\ length filter = key_filter_size l /\ filter_exact l filter salt sp sb bi
       /\ heard payload = 0 :: fields_bytes (nondiscoverable_fields filter salt sp sb bi)) s.
Proof.
  intros Hok Hn Ho Hs Hfit. unfold send_payload.
  pose proof (unique_count_pos l Hok Hn) as Hu.
  pose proof (filter_size_range (Z.of_nat (unique_count l))) as Hfr.
  assert (4 <= key_filter_size l <= 9)%nat as Hks by (unfold key_filter_size; lia).
  set (fs := drop 1 (nondiscoverable_fields [] salt sp sb bi)).
  set (rest := drop (nondiscoverable_size l bi) output).
  apply wp_bind. eapply wp_effects.
  { apply (SetBloomFilter_effects l 0 (if sp then 0 else 2) (replicate (key_filter_size l) 0) fs rest
      false None salt); [done|done|destruct sp; [by left|by right]| |by rewrite length_replicate|done|unfold is_byte; lia].
    constructor; [split; cbn; [destruct sp; lia|rewrite length_replicate; lia]|].
    constructor; [split; cbn; lia|]. destruct bi; constructor; [|constructor].
    split; cbn; [destruct sb; lia|lia]. }
  intros r s1 [E1 Hx1] ->. cbn beta iota.
  destruct (bloom_fill_exact l salt sp sb bi Hok Hn) as [Hfl Hex]. fold fs in Hfl, Hex.
  set (filter := bloom_fill _ _ _ _ _) in *.
  assert (length (service_data 0 (((if sp then 0 else 2), filter) :: fs)) = nondiscoverable_size l bi) as Hlen.
  { rewrite service_data_length, Hfl. unfold fs, nondiscoverable_size, nondiscoverable_fields.
    cbn [app]. change (drop 1 (?x :: ?y)) with y. rewrite fields_bytes_cons, length_app, field_bytes_length.
    cbn [snd]. rewrite Hs. destruct bi; [rewrite fields_bytes_cons, length_app, field_bytes_length|]; cbn; lia. }
  apply wp_bind, wp_hal_map. intros resp w.
  destruct (AppendTxPower_total (with_filter 0 (if sp then 0 else 2) fs rest filter) (nondiscoverable_size l bi)
    (NON_DISCOVERABLE_ADV_SIZE_BYTES - nondiscoverable_size l bi) (s8 (resp_value resp))) as (adv & E & Hl & Et).
  { lia. }
  { unfold with_filter, rest. rewrite length_app, Hlen, length_drop. lia. }
  apply wp_bind. eapply wp_lift; [exact E|]. cbn beta iota.
  apply wp_bind. eapply wp_lift.
  { apply read_bytes_done. rewrite Hl. unfold with_filter, rest. rewrite length_app, Hlen, length_drop. lia. }
  rewrite drop_0, Et. unfold with_filter. rewrite take_app_length' by done.
  apply wp_hal_map. intros resp' w'. eexists _, resp', filter. split; [|split; [done|split; [done|]]].
  - eapply ext_called; [exact Hx1|]. eapply ext_called; [by apply (ext_call (fun _ => True) s1 (st s1) w)|].
    by apply called_now.
  - apply heard_service_data.
Qed.

(** C14. A seeker recognises a provider that stores one of its account keys.  The
    provider (C) puts its keys into the Bloom filter of its non-discoverable
    advertisement and hands it to the radio; the seeker (C++) parses the service
    data it hears and tests its account keys against the filter.  Without the SASS
    field, with battery levels in the documented range, the seeker parses the
    advertisement whatever its own memory holds, sees whether a notification is
    wanted, and every key the provider stores passes the filter: a paired device is
    never overlooked. *)
Theorem Seeker_recognises_provider s address uninitialised :
  client_ok (st s) -> 0 < num_keys (account_key_list (st s)) -> sass_advertised (st s) = false ->
  wp SetNonDiscoverableAdvertisement (fun _ s' => exists payload resp advertisement,
    called (BLE (SetAdvertisement payload kNoLargerThan250ms)) resp s s' /\
    ParseNotDiscoverableAdvertisement (heard payload) address uninitialised = Done (Some advertisement) /\
    adv_type advertisement
      = (if nonzero (Z.land (advertisement_mode (st s)) NEARBY_FP_ADVERTISEMENT_PAIRING_UI_INDICATOR)
         then kShowUi else kHideUi) /\
    forall key, key ∈ key_bytes (account_key_list (st s)) ->
      IsPossiblyInSet (new_filter advertisement) key = Done true) s.
Proof.
  intros Hc Hn Hs. pose proof (ok_list _ Hc) as Hok. set (l := account_key_list (st s)) in *.
  pose proof (unique_count_pos l Hok Hn) as Hu.
  pose proof (filter_size_range (Z.of_nat (unique_count l))) as Hfr.
  unfold SetNonDiscoverableAdvertisement. apply wp_bind, wp_uninit. intros output Ho Hob.
  apply wp_bind. unfold wp at 1. rewrite (SelectInUseKey_none s Hs).
  unfold ShowPairingIndicator, ShowBatteryIndicator, IncludeBatteryInfo, mode_has.
  do 3 (apply wp_bind, wp_bind, wp_gets, wp_ret). set (sp := nonzero _). set (sb := nonzero _).
  set (ib := nonzero _).
  apply wp_bind. apply wp_mono with (Q := fun b s' => quiet (fun _ => True) s s' /\
    match b with Some x => battery_ok x | None => True end).
  { clearbody ib. destruct ib; [apply PrepareBatteryInfo_documented|apply wp_ret; by split]. }
  intros bi s1 [[E1 Hx1] Hbi]. apply wp_bind, wp_gets. rewrite E1. fold l.
  destruct (nondiscoverable_fits l bi Hok Hn) as [Hfit _].
  assert (nondiscoverable_size l bi + 3 <= NON_DISCOVERABLE_ADV_SIZE_BYTES)%nat as Hfit'
    by (destruct NEARBY_FP_ENABLE_SASS; lia).
  apply wp_bind. eapply wp_effects; [apply (CreateNondiscoverable_effects l output _ sp sb bi); [done|done|lia]|].
  intros r s2 [E2 Hx2] (salt & Hsl & _ & ->). cbn beta iota.
  apply wp_bind. unfold wp at 1. rewrite IncludeSass_run, E2, E1, Hs. cbn [andb].
  apply wp_bind, wp_ret. cbn [status_ok negb bool_decide].
  eapply wp_mono; [apply (send_heard l output salt sp sb bi s2); done|].
  intros _ s3 (payload & resp & filter & Hcall & Hfl & Hex & Hh).
  exists payload, resp, (MakeAdvertisement filter (if sp then kShowUi else kHideUi) salt (read_battery sb bi)).
  split; [eapply ext_called; [exact Hx1|]; by eapply ext_called; [exact Hx2|]|].
  split; [rewrite Hh; apply parse_nondiscoverable; [rewrite Hfl; unfold key_filter_size; lia|done]|].
  split; [done|]. intros key Hk. by apply (key_recognised l).
Qed.

(** A provider in pairing mode is heard with its model id. *)
Lemma Seeker_reads_model_id s :
  in_pairing_process (pairing_state (st s)) = false ->
  wp EnterDiscoverableMode (fun _ s' => exists payload resp resp' model,
    called (BT GetModelId) resp' s s' /\ model = u32 (resp_value resp') /\
    called (BLE (SetAdvertisement payload kNoLargerThan100ms)) resp s s' /\
    ParseHexModelId (heard payload) = Done (Some (BluetoothAddress.BytesToHexString (be_bytes 3 model)))) s.
Proof.
  intros Hp. unfold EnterDiscoverableMode. apply wp_bind, wp_uninit. unfold DISCOVERABLE_ADV_SIZE_BYTES.
  intros adv Hl _. apply wp_bind, wp_gets. rewrite Hp.
  do 10 (destruct adv as [|? adv]; [done|]). destruct adv; [|done]. clear Hl.
  apply wp_bind. unfold nearby_fp_CreateDiscoverableAdvertisement.
  do 4 (apply wp_bind; eapply wp_lift; [reflexivity|]). apply wp_bind, wp_hal_map. intros resp' w1.
  match goal with |- context [nearby_utils_CopyBigEndian ?b] =>
    change b with ([6; GAP_DATA_TYPE_SERVICE_DATA_UUID; 0x2C; 0xFE] ++ [z3; z4; z5] ++ [z6; z7; z8]) end.
  set (model := u32 (resp_value resp')).
  apply wp_bind. eapply wp_lift.
  { rewrite CopyBigEndian_spec by (by apply Nat.leb_le).
    apply (write_bytes_app [6; GAP_DATA_TYPE_SERVICE_DATA_UUID; 0x2C; 0xFE]). apply be_bytes_length. }
  apply wp_ret. cbn beta iota. pose proof (be_bytes_length 3 model) as Hm.
  change FP_MODEL_ID_SIZE with 3%nat. set (m := be_bytes 3 model) in *. set (a := [z6; z7; z8]).
  apply wp_bind, wp_hal_map. intros tx w2. change (2 + FP_SERVICE_UUID_SIZE + 3)%nat with 7%nat.
  destruct (AppendTxPower_total ([6; GAP_DATA_TYPE_SERVICE_DATA_UUID; 0x2C; 0xFE] ++ m ++ a) 7 (10 - 7)
    (s8 (resp_value tx))) as (adv' & E & Hl' & Et); [lia|rewrite !length_app; cbn [length a]; lia|].
  rewrite !length_app in Hl'. cbn [length a] in Hl'.
  apply wp_bind. eapply wp_lift; [exact E|]. cbn beta iota.
  apply wp_bind. eapply wp_lift; [apply read_bytes_done; lia|]. rewrite drop_0, Et.
  rewrite app_assoc, take_app_length' by (rewrite length_app; cbn [length]; lia).
  apply wp_hal_map. intros resp w3.
  eexists _, resp, resp', model. split; [|split; [done|split]].
  - eexists [_; _; (BT GetModelId, resp')]. split; [reflexivity|]. set_solver.
  - eexists [_; _; _]. split; [reflexivity|]. apply list_elem_of_here.
  - fold m. clearbody m. by destruct m as [|m0 [|m1 [|m2 [|]]]].
Qed.

End Heard.

(** * An advertisement of the test platform *)
Section Witness.
#[local] Existing Instance sass_config.
#[local] Existing Instance signed_char.
#[local] Existing Instance openssl.
Import AccountKeyFilter FastPairDataParser.

Definition advertising_sys (mode : Z) : @sys first_boot_platform client :=
  @Sys first_boot_platform client (set_advertisement_mode mode keyed_client) test_world_0 [].

(** What the radio was last told to advertise. *)
Definition advertised (o : outcome (nearby_platform_status * @sys first_boot_platform client)) : list Z :=
  match o with
  | Done (_, s) =>
    default [] (head (omap (fun e => match fst e with BLE (SetAdvertisement p _) => Some p | _ => None end) (log s)))
  | _ => []
  end.

Definition battery_mode : Z :=
  Z.lor NEARBY_FP_ADVERTISEMENT_PAIRING_UI_INDICATOR NEARBY_FP_ADVERTISEMENT_INCLUDE_BATTERY_INFO.

Lemma advertising_ok mode : client_ok (st (advertising_sys mode)).
Proof. destruct keyed_client_ok. by split. Qed.

Example Seeker_recognises_provider_witness :
  let s := advertising_sys battery_mode in
  wp SetNonDiscoverableAdvertisement (fun _ s' => exists payload resp advertisement,
    called (BLE (SetAdvertisement payload kNoLargerThan250ms)) resp s s' /\
    ParseNotDiscoverableAdvertisement (heard payload) [] (replicate 6 0) = Done (Some advertisement) /\
    adv_type advertisement = kShowUi /\
    forall key, key ∈ key_bytes (account_key_list (st s)) ->
      IsPossiblyInSet (new_filter advertisement) key = Done true) s.
Proof.
  apply (Seeker_recognises_provider (P:=first_boot_platform) (advertising_sys battery_mode) [] (replicate 6 0)).
  - apply advertising_ok.
  - reflexivity.
  - reflexivity.
Defined.

(** With the SASS field the provider's header byte is 0x10.  The seeker takes it for
    an id of eight bytes and skips most of the filter: of nine bytes it finds one. *)
Example sass_header_misread :
  let payload := advertised (SetNonDiscoverableAdvertisement
    (advertising_sys (Z.lor NEARBY_FP_ADVERTISEMENT_SASS battery_mode))) in
  head (heard payload) = Some 0x10 /\ FastPairDecoder.GetIdLength (heard payload) = Done 8 /\
  key_filter_size test_list = 9%nat /\
  match ParseNotDiscoverableAdvertisement (heard payload) [] (replicate 6 0) with
  | Done (Some a) => account_key_filter a = [16]
  | _ => False
  end.
Proof. vm_compute. auto. Qed.

End Witness.
