(* ===== verification/InteropPairing.v ===== *)
(** The seeker and the provider pairing with each other.  The seeker's handshake and
    pairer ([SeekerHandshake], C++) run against the provider's handlers ([Client], C):
    what one writes to a characteristic or notifies, the other reads.  Both sides
    agree on the session key, the passkeys and the account key. *)

From Stdlib Require Import ZArith Lia.
From stdpp Require Import base list numbers.
From S2P Require Import Prelude Utils Platform SecureElement TestPlatform Crypto AccountKeys.
From S2P Require Import MessageStream Advertisement CryptoSafety AdvertisementSafety.
From S2P Require Import ClientState ClientAdvertising ClientPairing ClientStream.
From S2P Require Import ClientInvariant ClientAdvertisingSafety ClientPairingSafety.
From S2P Require Import ClientStreamSafety Client ClientTheorems ClientAcceptance ClientPairingRun.
From S2P Require Import CppBase SeekerData SeekerHandshake SeekerSafety InteropAdvertisement.
Import Utils.

Open Scope Z_scope.
Open Scope fp_scope.

(** What the seeker relies on in the library: random blocks of the size asked for,
    and public points of 65 bytes. *)
Class OpenSSLKeysSpec (K : OpenSSLKeys) : Prop := {
  RAND_bytes_length : forall n, length (RAND_bytes n) = 16%nat;
  RAND_bytes_ok : forall n, bytes_ok (RAND_bytes n);
  point_ok : forall key oct, EC_POINT_point2oct key = Some oct -> bytes_ok oct;
}.

(** * The blocks *)
Section Blocks.
Context {C : Config} {P : Platform} {Aes : AesSpec P} {Sha : Sha256Spec P}.
Context {K : OpenSSLKeys} {Kspec : OpenSSLKeysSpec K} {Stk : Stack} {ct : CharType}.
#[local] Existing Instance openssl.
Import FastPairCrypto GattServiceClient Handshake.

Lemma request_block random address a :
  length random = 16%nat -> length a = 6%nat ->
  BluetoothAddress.ParseBluetoothAddress address stack_bytes = (true, a) ->
  CreateRequest random 0 0 address [] = [0; 0] ++ a ++ drop 8 random.
Proof.
  intros Hr Ha Hp. unfold CreateRequest. rewrite Hp.
  do 2 (destruct random as [|? random]; [done|]). done.
Qed.

Lemma request_block_ok random a :
  length random = 16%nat -> bytes_ok random -> length a = 6%nat -> bytes_ok a ->
  length ([0; 0] ++ a ++ drop 8 random) = 16%nat /\ bytes_ok ([0; 0] ++ a ++ drop 8 random)
  /\ take 6 (drop 2 ([0; 0] ++ a ++ drop 8 random)) = a.
Proof.
  intros Hr Hrb Ha Hab. split; [rewrite !length_app, length_drop; cbn [length]; lia|]. split.
  - rewrite !bytes_ok_app. split; [by apply bytes_ok_true|]. split; [done|by apply bytes_ok_drop].
  - change (drop 2 ([0; 0] ++ ?x)) with x. by apply take_app_length'.
Qed.

Lemma passkey_block_eq random n :
  length random = 16%nat -> 0 <= n < 2 ^ 24 ->
  CreatePasskeyBlock random 2 n = 2 :: be_bytes 3 n ++ drop 4 random.
Proof.
  intros Hr Hn. unfold CreatePasskeyBlock. do 4 (destruct random as [|? random]; [done|]).
  change (drop 4 (z :: z0 :: z1 :: z2 :: random)) with random.
  cbn [insert list_insert]. rewrite land_255.
  assert (Z.shiftr (Z.land n 0xff00) 8 = n / 256 mod 256) as ->.
  { rewrite Z.shiftr_land, Z.shiftr_div_pow2 by lia. change (Z.shiftr 0xff00 8) with 255. by rewrite land_255. }
  assert (Z.shiftr (Z.land n 0xff0000) 16 = n / 65536 mod 256) as ->.
  { rewrite Z.shiftr_land, Z.shiftr_div_pow2 by lia. change (Z.shiftr 0xff0000 16) with 255. by rewrite land_255. }
  rewrite !be_bytes_snoc. change (be_bytes 0 _) with (@nil Z). cbn [app].
  unfold u8. change (2 ^ 8) with 256. rewrite Z.div_div by lia. reflexivity.
Qed.

(** The seeker reads the provider's passkey. *)
Lemma parse_provider_passkey key pub pk salt :
  length key = 16%nat -> length salt = 12%nat -> bytes_ok salt ->
  encryptor_ParseDecryptPasskey (MakeEncryptor key pub) (aes key (provider_block pk salt))
  = Some (MakePasskey kProvidersPasskey (pk mod 2 ^ 24) salt).
Proof.
  intros Hk Hs Hsb. unfold encryptor_ParseDecryptPasskey, ParseDecryptedPasskey, ValidateInputSizes.
  rewrite aes_length. cbn [shared_secret_key_]. rewrite Hk. cbn [Nat.eqb kAesBlockByteSize kEncryptedDataByteSize negb andb].
  unfold ParseDecryptPasskey. change AES_decrypt with aes_inv.
  rewrite aes_inv_aes; [|unfold provider_block; cbn [length]; rewrite length_app, be_bytes_length; lia|].
  2:{ unfold provider_block. constructor; [done|]. apply bytes_ok_app. split; [apply be_bytes_ok|done]. }
  unfold provider_block, byte_at, kMessageTypeIndex, kPasskeySaltStartIndex.
  pose proof (be_bytes_be_value (be_bytes 3 pk) (be_bytes_ok 3 pk)) as Hv.
  pose proof (be_value_be_bytes 3 pk) as Hbv. pose proof (be_bytes_ok 3 pk) as Hok.
  pose proof (be_bytes_length 3 pk) as Hl. destruct (be_bytes 3 pk) as [|b1 [|b2 [|b3 [|]]]]; try done.
  apply Forall_cons_1 in Hok as [H1 Hok]. apply Forall_cons_1 in Hok as [H2 Hok].
  apply Forall_cons_1 in Hok as [H3 _]. unfold is_byte in *.
  cbn [app lookup list_lookup default]. change (Z.of_nat 3) with 3 in Hbv. unfold be_value in Hbv. cbn [fold_left] in Hbv.
  change (PROVIDER_PASSKEY_MESSAGE_TYPE =? kSeekerPasskeyType) with false.
  change (PROVIDER_PASSKEY_MESSAGE_TYPE =? kProviderPasskeyType) with true. cbv iota.
  do 2 f_equal. change (256 ^ 3) with (2 ^ 24) in Hbv. rewrite <- Hbv.
  rewrite !Z.shiftl_mul_pow2 by lia. change (2 ^ 8) with 256. change (2 ^ 16) with 65536.
  change (2 ^ 24) with 16777216 in *. unfold u32. change (2 ^ 32) with 4294967296.
  cbv [id]. rewrite (Z.mod_small (b3 + b2 * 256)), Z.mod_small by lia. lia.
Qed.

(** The seeker reads the provider's public address. *)
Lemma parse_pairing_response key pub response :
  length key = 16%nat -> length response = 16%nat -> bytes_ok response -> response !! 0%nat = Some 1 ->
  encryptor_ParseDecryptResponse (MakeEncryptor key pub) (aes key response)
  = Some (MakeResponse kKeyBasedPairingResponse (take 6 (drop 1 response)) (drop 7 response)).
Proof.
  intros Hk Hl Hb H0. unfold encryptor_ParseDecryptResponse, ParseDecryptedResponse, ValidateInputSizes.
  rewrite aes_length. cbn [shared_secret_key_]. rewrite Hk. cbn [Nat.eqb kAesBlockByteSize kEncryptedDataByteSize negb andb].
  unfold ParseDecryptResponse. change AES_decrypt with aes_inv. rewrite aes_inv_aes by done.
  unfold byte_at, kMessageTypeIndex. by rewrite H0.
Qed.

End Blocks.

(** * The seeker's side *)
Section SeekerRun.
Context {C : Config} {P : Platform} {Aes : AesSpec P} {Sha : Sha256Spec P}.
Context {K : OpenSSLKeys} {Kspec : OpenSSLKeysSpec K} {Stk : Stack} {ct : CharType}.
#[local] Existing Instance openssl.
Import FastPairCrypto GattServiceClient Handshake Pairer.

(** Evaluates steps of the seeker up to its computations on bytes. *)
Ltac run_seeker_once := lazy beta iota zeta delta -[openssl app RAND_bytes AES_encrypt AES_decrypt aes CreateRequest
  CreatePasskeyBlock CreateAccountKeyBlock GenerateKeysWithEcdhKeyAgreement stoi encryptor_ParseDecryptResponse
  encryptor_ParseDecryptPasskey u32 length Nat.eqb GetVersion protocol_ metadata_ public_address_ account_key_
  ble_address_ SetPublicAddress SetAccountKey BluetoothAddress.CanonicalizeBluetoothAddress be_bytes firstn skipn
  default shared_secret_key_ public_key_ shared_secret_key FastPairCrypto.public_key
  FastPairCrypto.address_bytes FastPairCrypto.passkey Z.eqb Z.modulo Z.pow provider_block].
Ltac run_seeker := do 4 (run_seeker_once; cbn [app]).

(** A seeker in a handshake with the session key of [e], waiting for the response. *)
Definition waiting_response (d : FastPairDevice) (e : DataEncryptor) (keys : nat) (out : list Output)
  : Seeker :=
  MakeSeeker d true true true true false false None (Some e) false true [] false false
    false false false false [] false true 1 keys out.

(** The request it has written. *)
Definition first_message (e : DataEncryptor) (a : list Z) : list Z :=
  aes (shared_secret_key_ e) ([0; 0] ++ a ++ drop 8 (RAND_bytes 0)) ++ default [] (public_key_ e).

(** The encryptor of a device: the agreed key for a first pairing, the account key
    for a later one. *)
Definition device_encryptor (d : FastPairDevice) : option DataEncryptor :=
  match protocol_ d with
  | kFastPairSubsequentPairing =>
    if (length (account_key_ d) =? 16)%nat then Some (MakeEncryptor (account_key_ d) None) else None
  | _ =>
    match metadata_ d with
    | None => None
    | Some key =>
      match GenerateKeysWithEcdhKeyAgreement 0 key with
      | Some kp => Some (MakeEncryptor (shared_secret_key kp) (Some (FastPairCrypto.public_key kp)))
      | None => None
      end
    end
  end.

Definition generated (d : FastPairDevice) : nat :=
  match protocol_ d with kFastPairSubsequentPairing => 0 | _ => 1 end.

(** The connection is made and the request written. *)
Lemma seeker_requests d e a :
  device_encryptor d = Some e -> length a = 6%nat ->
  BluetoothAddress.ParseBluetoothAddress (ble_address_ d) stack_bytes = (true, a) ->
  (let! k := new_handshake d true true true in steps [RunNext; ConnectionStatus kOk; RunNext] k)
  = Done (waiting_response d e (generated d)
      [ConnectToGattServer; CallRemoteFunction kKeyBasedCharacteristicIndex (first_message e a)]).
Proof.
  intros He Ha Hp. unfold first_message. rewrite <- (request_block _ _ _ (RAND_bytes_length 0) Ha Hp).
  unfold device_encryptor, generated in *. run_seeker.
  destruct (protocol_ d);
    [destruct (metadata_ d) as [key|]; [|done]; destruct (GenerateKeysWithEcdhKeyAgreement 0 key); [|done]..
    |destruct (length (account_key_ d) =? 16)%nat; [|done]];
    injection He as <-; run_seeker; by rewrite ?app_nil_r.
Qed.

(** The response is read. *)
Lemma seeker_completes d e n out response :
  length (shared_secret_key_ e) = 16%nat -> length response = 16%nat -> bytes_ok response ->
  response !! 0%nat = Some 1 ->
  steps [Response kKeyBasedCharacteristicIndex (Ok (aes (shared_secret_key_ e) response)); RunNext]
    (waiting_response d e n out)
  = Done (set_completed_successfully true (waiting_response
      (SetPublicAddress (BluetoothAddress.CanonicalizeBluetoothAddress (take 6 (drop 1 response))) d)
      e n (out ++ [on_complete None]))).
Proof.
  intros Hk Hl Hb H0. destruct e as [key pub]. cbn [shared_secret_key_] in *.
  run_seeker. rewrite aes_length. run_seeker. rewrite parse_pairing_response by done. reflexivity.
Qed.

(** A seeker pairing over Bluetooth with the completed handshake. *)
Definition waiting_pairing (d : FastPairDevice) (e : DataEncryptor) (keys : nat) (out : list Output)
  : Seeker :=
  MakeSeeker d true true true true false false None (Some e) true true [] true true
    true true true true [] false true 1 keys out.

Definition bluetooth_pairing_device (d : FastPairDevice) : Prop :=
  protocol_ d <> kFastPairRetroactivePairing /\ GetVersion d = Some kHigherThanV1.

Lemma seeker_initiates d e n out address :
  bluetooth_pairing_device d -> public_address_ d = Some address ->
  steps [CreatePairer; StartPairingCall; RunNext; RunPairingJob true true true true]
    (set_completed_successfully true (waiting_response d e n out))
  = Done (waiting_pairing d e n (out ++ [CreatePairing address; InitiateBluetoothPairing])).
Proof.
  intros [Hp Hv] Ha. run_seeker. rewrite Hv. run_seeker.
  destruct (protocol_ d); [|done|]; run_seeker; rewrite Ha; run_seeker; by rewrite <- app_assoc.
Qed.

(** The passkey is written. *)
Definition waiting_passkey (d : FastPairDevice) (e : DataEncryptor) (keys : nat) (passkey : list Z)
    (out : list Output) : Seeker :=
  MakeSeeker d true true true true true false None (Some e) true true passkey true true
    true true true true [] false true 2 keys out.

Definition passkey_message (e : DataEncryptor) (n : Z) : list Z :=
  aes (shared_secret_key_ e) (2 :: be_bytes 3 n ++ drop 4 (RAND_bytes 1)).

Lemma seeker_sends_passkey d e n out passkey x :
  bluetooth_pairing_device d -> stoi passkey = Done x -> 0 <= x < 2 ^ 24 ->
  step (PairingInitiatedEvent passkey) (waiting_pairing d e n out)
  = Done (waiting_passkey d e n passkey (out ++
      [CallRemoteFunction kPasskeyCharacteristicIndex (passkey_message e x)])).
Proof.
  intros [_ Hv] Hx Hr. unfold passkey_message. rewrite <- passkey_block_eq by (done || apply RAND_bytes_length).
  run_seeker. rewrite Hv. run_seeker. rewrite Hx. run_seeker.
  rewrite u32_id by (change (2 ^ 32) with (2 ^ 24 * 256); lia). done.
Qed.

(** The provider's passkey is compared with the expected one: only when they agree
    is the pairing confirmed. *)
Lemma seeker_compares_passkey d e n out passkey x pk salt :
  length (shared_secret_key_ e) = 16%nat -> length salt = 12%nat -> bytes_ok salt ->
  stoi passkey = Done x -> 0 <= x < 2 ^ 24 ->
  steps [Response kPasskeyCharacteristicIndex (Ok (aes (shared_secret_key_ e) (provider_block pk salt))); RunNext]
    (waiting_passkey d e n passkey out)
  = Done (if pk mod 2 ^ 24 =? x
          then waiting_passkey d e n passkey (out ++ [FinishBluetoothPairing])
          else NotifyPairingFailed kPasskeyMismatch (waiting_passkey d e n passkey out)).
Proof.
  intros Hk Hs Hsb Hx Hr. destruct e as [key pub]. cbn [shared_secret_key_] in *.
  run_seeker. rewrite parse_provider_passkey by done. run_seeker. rewrite Hx. run_seeker.
  rewrite (u32_id x) by (change (2 ^ 32) with (2 ^ 24 * 256); lia).
  cbn [FastPairCrypto.passkey]. by destruct (pk mod 2 ^ 24 =? x).
Qed.

(** A first pairing: the account key is written once the devices are paired. *)
Definition new_account_key : list Z := CreateAccountKeyBlock (RAND_bytes 2).

Definition waiting_written (d : FastPairDevice) (e : DataEncryptor) (keys : nat) (passkey : list Z)
    (out : list Output) : Seeker :=
  MakeSeeker d true true true true true true (Some new_account_key) (Some e) true true passkey true false
    false true true true [] false true 3 keys out.

Lemma seeker_writes_key d e n out passkey address :
  protocol_ d = kFastPairInitialPairing -> GetVersion d = Some kHigherThanV1 ->
  public_address_ d = Some address ->
  steps [PairedEvent; RunNext; RunNext; SavedStatus kNotFound] (waiting_passkey d e n passkey out)
  = Done (waiting_written d e n passkey (out ++ [on_paired; IsDeviceSavedToAccount address;
      WriteCharacteristic kAccountKeyCharacteristicIndex (aes (shared_secret_key_ e) new_account_key)])).
Proof.
  intros Hp Hv Ha. unfold new_account_key. run_seeker. rewrite Hv. run_seeker. rewrite Hp, Ha.
  run_seeker. by rewrite <- !app_assoc.
Qed.

Lemma seeker_finishes d e n out passkey :
  protocol_ d = kFastPairInitialPairing ->
  exists k, steps [AccountKeyWritten kOk; RunNext; FootprintsStatus kOk; RunNext]
      (waiting_written d e n passkey out) = Done k
    /\ device_ k = SetAccountKey new_account_key d /\ executor_ k = []
    /\ output k = out ++ [WriteAccountAssociationToFootprints; on_pairing_completed].
Proof.
  intros Hp. run_seeker. change (protocol_ (SetAccountKey ?x d)) with (protocol_ d).
  rewrite Hp. run_seeker. eexists. split; [done|]. cbn. by rewrite <- app_assoc.
Qed.

(** A later pairing: there is nothing to write. *)
Lemma seeker_ends d e g passkey out :
  protocol_ d = kFastPairSubsequentPairing -> GetVersion d = Some kHigherThanV1 ->
  exists k, steps [PairedEvent; RunNext; RunNext; RunNext] (waiting_passkey d e g passkey out) = Done k
    /\ device_ k = d /\ executor_ k = [] /\ output k = out ++ [on_paired; on_pairing_completed].
Proof.
  intros Hp Hv. run_seeker. rewrite Hv. run_seeker. rewrite Hp. run_seeker.
  eexists. split; [done|]. cbn. by rewrite <- app_assoc.
Qed.

Lemma new_account_key_ok :
  length new_account_key = 16%nat /\ bytes_ok new_account_key /\ new_account_key !! 0%nat = Some 4.
Proof.
  unfold new_account_key, CreateAccountKeyBlock. pose proof (RAND_bytes_length 2) as Hl.
  split; [by rewrite length_insert|]. split; [apply bytes_ok_insert; [apply RAND_bytes_ok|done]|].
  apply list_lookup_insert_eq. lia.
Qed.

End SeekerRun.

(** * The provider's side *)
Section ProviderSteps.
Context {C : Config} {P : Platform} {Aes : AesSpec P} {Sha : Sha256Spec P} {N : NotifySpec P}.
Context {B : BitmapSpec C P} {St : StoredListSpec C P} {Sec : SecretSpec P}.

(** The device's public address and the passkey its Bluetooth stack shows. *)
Variables (A n : Z).
Hypothesis address_is : forall w, u64 (resp_value (fst (call (BT GetPublicAddress) w))) = A.
Hypothesis passkey_is : forall w, u32 (resp_value (fst (call (BT GetPairingPassKey) w))) = n.

(** A response with the device's address was notified under the key. *)
Definition responded (p : Z) (key : list Z) (s s' : sys client) : Prop :=
  exists response resp, length response = 16%nat /\ bytes_ok response
    /\ response !! 0%nat = Some 1 /\ take 6 (drop 1 response) = be_bytes 6 A
    /\ called (BLE (GattNotify p kKeyBasedPairing (aes key response))) resp s s'.

Lemma response_responded p key status s s' :
  response_notified p key (wants_extended 0) status s s' -> responded p key s s'.
Proof.
  intros (response & resp & Hl & Hb & [w Ha] & H0 & Hc & _). exists response, resp.
  change (wants_extended 0) with false in *. cbv iota in Ha, H0. rewrite address_is in Ha. done.
Qed.

Lemma provider_starts_public p a s request key :
  client_ok (st s) -> is_u64 p -> pairing_failure_count (st s) < MAX_PAIRING_FAILURE_COUNT ->
  retroactive (st s) p = false -> retroactive (st s) a = false ->
  bytes_ok request -> length request = 80%nat -> session_secret request = Some key ->
  let raw := public_request key request in
  raw !! 0%nat = Some 0 -> raw !! 1%nat = Some 0 -> names_device (env s) raw ->
  wp (handle (GattWrite p kKeyBasedPairing request)) (fun _ s' =>
    session p a key kPairingStateWaitingForPairingRequest zero_key_info
      (abs_list (account_key_list (st s))) (st s')
    /\ ext request_ok s s' /\ responded p key s s') s.
Proof.
  intros Hc Hp Hf Hr Hra Hb Hl Hk raw H0 H1 Hn.
  assert (seeker_request raw) as Hreq by (split; [done|]; by exists 0).
  eapply wp_mono; [apply (wp_conj _ _ (fun _ s' => responded p key s s') _
    (session_started_public p a s request key Hc Hp Hf Hr Hra Hb Hl Hk Hreq Hn))|by intros _ s' [[??] ?]].
  cbn [handle OnGattWrite]. apply ignore_wp.
  eapply wp_mono; [apply (OnWriteKeyBasedPairing_public_run s p request 0); try done|].
  { intros k [= <-]%(eq_trans (eq_sym Hk)) _. done. }
  rewrite Hk. cbv zeta. intros r s' H.
  assert (address_matches (ble_address (env s)) (public_address (env s)) raw = true) as Hm
    by (apply matches_iff_names; [apply be_bytes_length..|apply aes_inv_length|exact Hn]).
  fold raw in H. rewrite Hm in H. destruct H as (status & H & _). by eapply response_responded.
Qed.

Lemma provider_starts p a s request i x :
  client_ok (st s) -> is_u64 p -> pairing_failure_count (st s) < MAX_PAIRING_FAILURE_COUNT ->
  retroactive (st s) p = false -> retroactive (st s) a = false ->
  bytes_ok request -> length request = 16%nat ->
  keys_in_use (account_key_list (st s)) !! i = Some x -> authenticates request i x s ->
  let raw := aes_inv (account_key x) request in
  raw !! 0%nat = Some 0 -> raw !! 1%nat = Some 0 ->
  wp (handle (GattWrite p kKeyBasedPairing request)) (fun _ s' =>
    session p a (account_key x) kPairingStateWaitingForPairingRequest zero_key_info
      (lru_add (account_key x, if NEARBY_FP_ENABLE_SASS then p else 0) (abs_list (account_key_list (st s)))) (st s')
    /\ ext request_ok s s' /\ responded p (account_key x) s s') s.
Proof.
  intros Hc Hp Hf Hr Hra Hb Hl Hx Hauth raw H0 H1.
  assert (seeker_request raw) as Hreq by (split; [done|]; by exists 0).
  eapply wp_mono; [apply (wp_conj _ _ (fun _ s' => responded p (account_key x) s s') _
    (session_started p a s request i x Hc Hp Hf Hr Hra Hb Hl Hx Hauth Hreq))|by intros _ s' [[??] ?]].
  cbn [handle OnGattWrite]. apply ignore_wp. destruct Hauth as [Hn Hno].
  destruct (OnWriteKeyBasedPairing_run s p request i x 0) as (l & _ & Hw); try done.
  eapply wp_mono; [exact Hw|]. intros r s' (_ & status & H & _). by eapply response_responded.
Qed.

(** The provider answers a passkey with its own and hands the seeker's to its
    Bluetooth stack. *)
Definition exchanged (p : Z) (key : list Z) (x : Z) (s s' : sys client) : Prop :=
  (exists salt resp, length salt = 12%nat /\ bytes_ok salt
     /\ called (BLE (GattNotify p kPasskey (aes key (provider_block n salt)))) resp s s')
  /\ exists resp, called (BT (SetRemotePasskey x)) resp s s'.

Lemma provider_exchanges p a key k L s block :
  is_u64 p -> session p a key kPairingStateWaitingForPasskey k L (st s) -> peer_public_address (st s) = a ->
  in_time PASSKEY_MAX_WAIT_TIME_MS s -> length block = 16%nat -> bytes_ok block ->
  block !! 0%nat = Some SEEKER_PASSKEY_MESSAGE_TYPE ->
  wp (handle (GattWrite p kPasskey (aes key block))) (fun _ s' =>
    (session p a key kPairingStateWaitingForPairingResult k L (st s') /\ peer_public_address (st s') = a)
    /\ ext request_ok s s' /\ exchanged p key (be_value (take 3 (drop 1 block))) s s') s.
Proof.
  intros Hp Hs Hpub Ht Hl Hb H0.
  assert (aes_inv key (aes key block) = block) as Hinv by (by apply aes_inv_aes).
  eapply wp_mono; [apply (wp_conj _ _ (fun _ s' => exchanged p key (be_value (take 3 (drop 1 block))) s s') _
    (session_passkey p a key Hp k L s (aes key block) Hs Hpub Ht (aes_ok _ _) (aes_length _ _)
       ltac:(by rewrite Hinv)))|by intros _ s' [[??] ?]].
  pose proof Hs as [Hc Hst Hgp Hk _ _ _ _].
  cbn [handle OnGattWrite]. apply ignore_wp.
  eapply wp_mono; [apply (OnPasskeyWrite_run s p (aes key block))|].
  - unfold passkey_expected. rewrite Hst, Hgp, aes_length, Z.eqb_refl. by apply Z.leb_le in Ht as ->.
  - by rewrite Hk, Hinv.
  - rewrite Hk, Hinv. intros r s' (_ & _ & pk & salt & r1 & r2 & l & [w ->] & Hsl & Hsb & _ & Hlog).
    rewrite passkey_is in Hlog. split.
    + exists salt, r2. split; [done|]. split; [done|]. eexists (_ :: _ :: l). split; [exact Hlog|].
      apply list_elem_of_further, list_elem_of_here.
    + exists r1. eexists (_ :: _ :: l). split; [exact Hlog|]. apply list_elem_of_here.
Qed.

End ProviderSteps.

(** * Both sides together *)
Section Duet.
Context {C : Config} {P : Platform} {Aes : AesSpec P} {Sha : Sha256Spec P} {N : NotifySpec P}.
Context {B : BitmapSpec C P} {St : StoredListSpec C P} {Sec : SecretSpec P}.
Context {K : OpenSSLKeys} {Kspec : OpenSSLKeysSpec K} {Stk : Stack} {ct : CharType}.
#[local] Existing Instance openssl.
Import FastPairCrypto GattServiceClient Handshake Pairer.

(** The turns of a pairing: a step of the seeker; an event of the provider; the call
    or the write the seeker has just asked its GATT client for, carried out at the
    provider under the address [p].  The condition of a turn is on the provider's
    environment at that time, which is otherwise arbitrary. *)
Inductive Turn : Type :=
| SeekerDoes (e : Event)
| ProviderSees (e : event) (T : sys client -> Prop)
| RemoteCall (p : Z) (T : list Z -> sys client -> Prop)
| RemoteWrite (p : Z) (T : sys client -> Prop).

Definition characteristic (c : nat) : nearby_fp_Characteristic :=
  match c with O => kKeyBasedPairing | S O => kPasskey | _ => kAccountKey end.

(** The last thing the seeker has asked for. *)
Definition last_output (k : Seeker) : option Output := head (rev (output k)).

(** Every handler of the provider returns, every step of the seeker is made, every
    call is answered by a notification, which the seeker receives, and the run ends
    in [Q]. *)
Fixpoint duet (ts : list Turn) (Q : sys client -> Seeker -> Prop) (s : sys client) (k : Seeker) : Prop :=
  match ts with
  | [] => Q s k
  | SeekerDoes e :: ts => exists k', step e k = Done k' /\ duet ts Q s k'
  | ProviderSees e T :: ts => forall w, let s := Sys (st s) w (log s) in
      T s -> wp (handle e) (fun _ s' => duet ts Q s' k) s
  | RemoteCall p T :: ts =>
    match last_output k with
    | Some (CallRemoteFunction c request) => forall w, let s := Sys (st s) w (log s) in
        T request s ->
        wp (handle (GattWrite p (characteristic c) request)) (fun _ s' => exists value resp k',
          called (BLE (GattNotify p (characteristic c) value)) resp s s'
          /\ step (Response c (Ok value)) k = Done k' /\ duet ts Q s' k') s
    | _ => False
    end
  | RemoteWrite p T :: ts =>
    match last_output k with
    | Some (WriteCharacteristic c value) => forall w, let s := Sys (st s) w (log s) in
        T s -> wp (handle (GattWrite p (characteristic c) value)) (fun _ s' => duet ts Q s' k) s
    | _ => False
    end
  end.

Lemma duet_steps es ts Q s k k' :
  steps es k = Done k' -> duet ts Q s k' -> duet (map SeekerDoes es ++ ts) Q s k.
Proof.
  revert k. induction es as [|e es IH]; intros k H HQ; cbn [steps map app duet] in *.
  - by injection H as ->.
  - apply bind_done_inv in H as (k1 & H1 & H). exists k1. split; [done|]. by apply IH.
Qed.

Lemma steps_app es es' k : steps (es ++ es') k = (let! k := steps es k in steps es' k).
Proof.
  revert k. induction es as [|e es IH]; intros k; cbn [app steps]; [done|].
  rewrite outcome_bind_assoc. destruct (step e k); cbn; [apply IH|done|done].
Qed.

Lemma duet_mono ts (Q Q' : sys client -> Seeker -> Prop) s k :
  duet ts Q s k -> (forall s k, Q s k -> Q' s k) -> duet ts Q' s k.
Proof.
  intros H HQ. revert s k H. induction ts as [|[e|e T|p T|p T] ts IH]; intros s k H; cbn [duet] in *.
  - by apply HQ.
  - destruct H as (k' & Hk & H). exists k'. split; [done|]. by apply IH.
  - intros w HT. eapply wp_mono; [by apply H|]. intros u s' H'. by apply IH.
  - destruct (last_output k) as [[]|]; try done. intros w HT. eapply wp_mono; [by apply H|].
    intros u s' (value & resp & k' & Hc & Hk & H'). exists value, resp, k'.
    split; [done|]. split; [done|]. by apply IH.
  - destruct (last_output k) as [[]|]; try done. intros w HT. eapply wp_mono; [by apply H|].
    intros u s' H'. by apply IH.
Qed.

(** A call whose answer the seeker processes with the steps [es]. *)
Lemma duet_call p T es ts Q s k c request :
  last_output k = Some (CallRemoteFunction c request) ->
  (forall s0, st s0 = st s -> log s0 = log s -> T request s0 ->
     wp (handle (GattWrite p (characteristic c) request)) (fun _ s' => exists value resp k',
       called (BLE (GattNotify p (characteristic c) value)) resp s0 s'
       /\ steps (Response c (Ok value) :: es) k = Done k' /\ duet ts Q s' k') s0) ->
  duet (RemoteCall p T :: map SeekerDoes es ++ ts) Q s k.
Proof.
  intros Hl H. cbn [duet]. rewrite Hl. intros w HT. eapply wp_mono; [by apply H|].
  intros _ s' (value & resp & k' & Hc & Hs & Hd). cbn [steps] in Hs.
  apply bind_done_inv in Hs as (k1 & H1 & Hs). exists value, resp, k1.
  split; [done|]. split; [done|]. by eapply duet_steps.
Qed.

(** What the pairing must find out: the seeker's reports, in order. *)
Definition is_report (o : Output) : bool :=
  match o with
  | on_complete _ | FinishBluetoothPairing | CancelBluetoothPairing | on_paired | on_pair_failed _
  | on_pairing_completed | on_account_key_failure _ => true
  | _ => false
  end.
Definition reports (k : Seeker) : list Output := List.filter is_report (output k).

Variables (A v n : Z).
Hypothesis address_is : forall w, u64 (resp_value (fst (call (BT GetPublicAddress) w))) = A.
Hypothesis passkey_is : forall w, u32 (resp_value (fst (call (BT GetPairingPassKey) w))) = n.

(** The device as the seeker has found it: by its BLE address [v]. *)
Definition found (d : FastPairDevice) : Prop :=
  ble_address_ d = BluetoothAddress.CanonicalizeBluetoothAddress (be_bytes 6 v).

Lemma found_address d : found d ->
  BluetoothAddress.ParseBluetoothAddress (ble_address_ d) stack_bytes = (true, be_bytes 6 v).
Proof.
  intros ->. apply parse_canonical; [apply be_bytes_length|apply be_bytes_ok|apply stack_bytes_length].
Qed.

Definition paired_device (d : FastPairDevice) : FastPairDevice :=
  SetPublicAddress (BluetoothAddress.CanonicalizeBluetoothAddress (be_bytes 6 A)) d.

(** The turns from the request to the exchange of passkeys. *)
Definition core_turns (p a : Z) (T : list Z -> sys client -> Prop) (passkey : list Z) : list Turn :=
  RemoteCall p T
  :: map SeekerDoes [RunNext; CreatePairer; StartPairingCall; RunNext; RunPairingJob true true true true]
  ++ ProviderSees (PairingRequest a) (in_time WAIT_FOR_PAIRING_REQUEST_TIME_MS)
  :: SeekerDoes (PairingInitiatedEvent passkey)
  :: RemoteCall p (fun _ => in_time PASSKEY_MAX_WAIT_TIME_MS)
  :: map SeekerDoes [RunNext].

(** The outputs of the seeker in these turns. *)
Definition core_output (d : FastPairDevice) (e : DataEncryptor) (x : Z) : list Output :=
  [ConnectToGattServer;
   CallRemoteFunction kKeyBasedCharacteristicIndex (first_message e (be_bytes 6 v));
   on_complete None;
   CreatePairing (BluetoothAddress.CanonicalizeBluetoothAddress (be_bytes 6 A));
   InitiateBluetoothPairing;
   CallRemoteFunction kPasskeyCharacteristicIndex (passkey_message e x)].

(** The seeker after the exchange: it has confirmed the pairing exactly when the
    passkeys agree. *)
Definition after_passkeys (d : FastPairDevice) (e : DataEncryptor) (passkey : list Z) (x : Z) : Seeker :=
  if n mod 2 ^ 24 =? x
  then waiting_passkey (paired_device d) e (generated d) passkey (core_output d e x ++ [FinishBluetoothPairing])
  else NotifyPairingFailed kPasskeyMismatch
         (waiting_passkey (paired_device d) e (generated d) passkey (core_output d e x)).

Lemma duet_core p a T passkey x d e L s ts Q :
  is_u64 p -> is_u64 a -> bluetooth_pairing_device d ->
  length (shared_secret_key_ e) = 16%nat -> stoi passkey = Done x -> 0 <= x < 2 ^ 24 ->
  let request := first_message e (be_bytes 6 v) in
  (forall s0, st s0 = st s -> log s0 = log s -> T request s0 ->
     wp (handle (GattWrite p kKeyBasedPairing request)) (fun _ s' =>
       session p a (shared_secret_key_ e) kPairingStateWaitingForPairingRequest zero_key_info L (st s')
       /\ ext request_ok s0 s' /\ responded A p (shared_secret_key_ e) s0 s') s0) ->
  (forall s', session p a (shared_secret_key_ e) kPairingStateWaitingForPairingResult zero_key_info L (st s') ->
     ext request_ok s s' -> (exists resp, called (BT (SetRemotePasskey x)) resp s s') ->
     duet ts Q s' (after_passkeys d e passkey x)) ->
  duet (core_turns p a T passkey ++ ts) Q s
    (waiting_response d e (generated d)
      [ConnectToGattServer; CallRemoteFunction kKeyBasedCharacteristicIndex request]).
Proof.
  intros Hp Ha Hd Hk Hx Hr request Hstart Hrest. unfold core_turns.
  rewrite <- app_comm_cons, <- app_assoc. apply duet_call with (c := 0%nat) (request := request); [done|].
  intros s0 E0 El0 HT. eapply wp_mono; [by apply Hstart|].
  intros _ s1 (H1 & Hx1 & response & resp & Hrl & Hrb & Hr0 & Hra & Hcall).
  exists (aes (shared_secret_key_ e) response), resp. eexists. split; [exact Hcall|]. split.
  { change (Response 0 (Ok (aes (shared_secret_key_ e) response)) :: ?l) with
      ([Response kKeyBasedCharacteristicIndex (Ok (aes (shared_secret_key_ e) response)); RunNext]
       ++ [CreatePairer; StartPairingCall; RunNext; RunPairingJob true true true true]).
    rewrite steps_app, seeker_completes by done. rewrite Hra. fold (paired_device d). rewrite done_bind.
    by apply seeker_initiates. }
  intros w s2 Ht. assert (session p a (shared_secret_key_ e) kPairingStateWaitingForPairingRequest zero_key_info L (st s2))
    as H1' by done.
  eapply wp_mono; [by apply (session_requested p a (shared_secret_key_ e) Ha zero_key_info L s2)|].
  intros _ s3 [[H3 Hpub3] Hx3]. eexists. split; [by apply (seeker_sends_passkey (paired_device d) e (generated d) _ passkey x)|].
  apply duet_call with (c := 1%nat) (request := passkey_message e x); [done|].
  intros s4 E4 El4 Ht4. cbn [characteristic].
  assert (ext request_ok s s4) as Hxs4.
  { destruct Hx1 as (l1 & Hl1 & Hf1). destruct Hx3 as (l3 & Hl3 & Hf3).
    exists (l3 ++ l1). rewrite El4, Hl3. change (log s2) with (log s1). rewrite Hl1, El0. split; [by rewrite app_assoc|].
    apply Forall_app. by split. }
  eapply wp_mono; [apply (provider_exchanges n passkey_is p a (shared_secret_key_ e) zero_key_info L s4); rewrite ?E4; try done|].
  { cbn [length]. rewrite length_app, be_bytes_length, length_drop, RAND_bytes_length. done. }
  { constructor; [done|]. apply bytes_ok_app. split; [apply be_bytes_ok|apply bytes_ok_drop, RAND_bytes_ok]. }
  intros _ s5 ([H5 Hpub5] & Hx5 & (salt & resp' & Hsl & Hsb & Hcall') & resp'' & Hrem).
  exists (aes (shared_secret_key_ e) (provider_block n salt)), resp'. eexists. split; [exact Hcall'|].
  split; [by apply (seeker_compares_passkey (paired_device d) e (generated d) _ passkey x n salt)|].
  assert (be_value (take 3 (drop 1 (2 :: be_bytes 3 x ++ drop 4 (RAND_bytes 1)))) = x) as Ex.
  { change (drop 1 (2 :: ?l)) with l. rewrite take_app_length' by (by rewrite be_bytes_length).
    rewrite be_value_be_bytes. apply Z.mod_small. done. }
  rewrite Ex in Hrem. apply Hrest; [done|by eapply ext_trans|]. exists resp''. by eapply ext_called.
Qed.

(** ** A first pairing *)

(** The anti-spoofing key the seeker knows is the one of the device: a secret that
    the seeker computes with its public part is the one the device computes with its
    private part and the seeker's public key. *)
Definition agrees (anti_spoofing : list Z) : Prop :=
  forall key oct secret, EC_POINT_point2oct key = Some oct ->
    ECDH_shared (4 :: anti_spoofing) key = Some secret -> shared_secret (drop 1 oct) = Some secret.

Lemma first_encryptor d key e :
  protocol_ d = kFastPairInitialPairing -> metadata_ d = Some key -> agrees key ->
  device_encryptor d = Some e ->
  exists pub secret, public_key_ e = Some pub /\ length pub = 64%nat /\ bytes_ok pub
    /\ length key = 64%nat /\ shared_secret pub = Some secret
    /\ shared_secret_key_ e = take 16 (sha256 secret).
Proof.
  intros Hp Hm Hag. unfold device_encryptor. rewrite Hp, Hm.
  unfold GenerateKeysWithEcdhKeyAgreement, kPublicKeyByteSize.
  destruct (Nat.eqb_spec (length key) 64); cbn [negb]; [|done].
  destruct (EC_KEY_generate_key 0) as [ec|]; [|done].
  destruct (EC_POINT_point2oct ec) as [oct|] eqn:Eo; [|done].
  destruct (Nat.eqb_spec (length oct) (64 + 1)); cbn [negb]; [|done].
  destruct (EC_POINT_oct2point _); cbn [negb]; [|done].
  destruct (ECDH_shared _ _) as [secret|] eqn:Es; [|done]. intros [= <-].
  exists (drop 1 oct), secret. cbn. split; [done|]. split; [rewrite length_drop; lia|].
  split; [by eapply bytes_ok_drop, point_ok|]. split; [done|]. split; [by eapply Hag|done].
Qed.

(** The provider derives the seeker's key from its request and reads its block. *)
Lemma first_message_public d key e b :
  protocol_ d = kFastPairInitialPairing -> metadata_ d = Some key -> agrees key ->
  device_encryptor d = Some e -> length b = 6%nat -> bytes_ok b ->
  let request := first_message e b in
  length (shared_secret_key_ e) = 16%nat /\ bytes_ok request /\ length request = 80%nat
  /\ session_secret request = Some (shared_secret_key_ e)
  /\ public_request (shared_secret_key_ e) request = [0; 0] ++ b ++ drop 8 (RAND_bytes 0).
Proof.
  intros Hp Hm Hag He Hb Hbb request.
  destruct (first_encryptor d key e Hp Hm Hag He) as (pub & secret & Hpub & Hpl & Hpb & _ & Hsec & Hk).
  destruct (request_block_ok (RAND_bytes 0) b (RAND_bytes_length 0) (RAND_bytes_ok 0) Hb Hbb) as (Hl & Hok & _).
  assert (request = aes (shared_secret_key_ e) ([0; 0] ++ b ++ drop 8 (RAND_bytes 0)) ++ pub) as Er
    by (unfold request, first_message; by rewrite Hpub).
  split; [by rewrite Hk, length_take, sha256_length|]. rewrite Er.
  split; [apply bytes_ok_app; split; [apply aes_ok|done]|].
  split; [rewrite length_app, aes_length, Hpl; done|]. split.
  - unfold session_secret, ENCRYPTED_REQUEST_LENGTH, PUBLIC_KEY_LENGTH.
    rewrite drop_app_length' by (by rewrite aes_length). rewrite take_ge by (rewrite Hpl; done).
    rewrite Hsec. cbn. by rewrite Hk.
  - unfold public_request, ENCRYPTED_REQUEST_LENGTH.
    rewrite take_app_length' by (by rewrite aes_length). by apply aes_inv_aes.
Qed.

(** The turns after the passkeys: the devices are paired, the seeker finds that the
    device is not in the account, writes an account key and saves it. *)
Definition key_turns (p a : Z) : list Turn :=
  ProviderSees (Paired a) any_time
  :: map SeekerDoes [PairedEvent; RunNext; RunNext; SavedStatus kNotFound]
  ++ RemoteWrite p (in_time ACCOUNT_KEY_WRITE_TIME_MS)
  :: map SeekerDoes [AccountKeyWritten kOk; RunNext; FootprintsStatus kOk; RunNext].

Definition connect_turns : list Turn := map SeekerDoes [RunNext; ConnectionStatus kOk; RunNext].

Lemma duet_key p a key L s d e g passkey out :
  is_u64 p -> is_u64 a -> shared_secret_key_ e = key ->
  protocol_ d = kFastPairInitialPairing -> GetVersion d = Some kHigherThanV1 ->
  session p a key kPairingStateWaitingForPairingResult zero_key_info L (st s) ->
  duet (key_turns p a) (fun s' k' => ext request_ok s s'
      /\ abs_list (account_key_list (st s'))
        = lru_add (account_key_ (device_ k'), if NEARBY_FP_ENABLE_SASS then p else 0) L
      /\ list_saved (account_key_list (st s')) s s'
      /\ public_address_ (device_ k') = public_address_ (paired_device d)
      /\ account_key_ (device_ k') !! 0%nat = Some 4 /\ executor_ k' = []
      /\ reports k' = List.filter is_report out ++ [on_paired; on_pairing_completed]) s
    (waiting_passkey (paired_device d) e g passkey out).
Proof.
  intros Hp Ha <- Hpr Hv Hs w s0 _.
  assert (session p a (shared_secret_key_ e) kPairingStateWaitingForPairingResult zero_key_info L (st s0)) as Hs0 by done.
  eapply wp_mono; [by apply (session_paired p a (shared_secret_key_ e) Ha L s0)|].
  intros _ s1 [H1 Hx1]. eapply duet_steps; [by apply seeker_writes_key|].
  cbn [duet]. unfold last_output. cbn [output waiting_written]. rewrite !rev_app_distr. cbn [rev app head].
  intros w2 Ht. destruct (new_account_key_ok (K:=K)) as (Hkl & Hkb & Hk4).
  eapply wp_mono; [apply (session_key_written p a (shared_secret_key_ e) Hp L (Sys (st s1) w2 (log s1)));
    [done|done|apply aes_ok|apply aes_length|by rewrite aes_inv_aes]|].
  rewrite aes_inv_aes by done. intros _ s2 [Hx2 H2].
  destruct (seeker_finishes (paired_device d) e g (out ++ [on_paired; IsDeviceSavedToAccount
    (BluetoothAddress.CanonicalizeBluetoothAddress (be_bytes 6 A));
    WriteCharacteristic kAccountKeyCharacteristicIndex (aes (shared_secret_key_ e) new_account_key)]) passkey Hpr)
    as (k' & Hk' & Hd' & Hex' & Ho').
  eapply (duet_steps _ []) in Hk'; [rewrite app_nil_r in Hk'; exact Hk'|].
  cbn [duet]. rewrite Hd'. split; [eapply ext_trans; [exact Hx1|exact Hx2]|].
  split; [by destruct H2|]. split; [|split; [done|split; [done|split; [done|]]]].
  - destruct H2 as [_ _ _ _ _ [resp Hsv]]. exists resp.
    eapply ext_called; [exact Hx1|]. done.
  - unfold reports. rewrite Ho', !List.filter_app. cbn. by rewrite <- app_assoc.
Qed.

(** A first pairing up to the passkeys: the provider follows the seeker's request. *)
Lemma first_duet p a s d key e passkey x ts Q :
  client_ok (st s) -> is_u64 p -> is_u64 a -> pairing_failure_count (st s) < MAX_PAIRING_FAILURE_COUNT ->
  retroactive (st s) p = false -> retroactive (st s) a = false ->
  protocol_ d = kFastPairInitialPairing -> metadata_ d = Some key -> agrees key -> found d ->
  device_encryptor d = Some e -> stoi passkey = Done x -> 0 <= x < 2 ^ 24 ->
  (forall s', session p a (shared_secret_key_ e) kPairingStateWaitingForPairingResult zero_key_info
       (abs_list (account_key_list (st s))) (st s') -> GetVersion d = Some kHigherThanV1 ->
     ext request_ok s s' -> (exists resp, called (BT (SetRemotePasskey x)) resp s s') ->
     duet ts Q s' (after_passkeys d e passkey x)) ->
  exists k, new_handshake d true true true = Done k /\
  duet (connect_turns ++ core_turns p a (fun _ s => ble_address (env s) = be_bytes 6 v) passkey ++ ts) Q s k.
Proof.
  intros Hc Hp Ha Hf Hr Hra Hpr Hm Hag Hfd He Hx Hn Hrest.
  destruct (first_message_public d key e (be_bytes 6 v) Hpr Hm Hag He (be_bytes_length 6 v) (be_bytes_ok 6 v))
    as (Hkl & Hrb & Hrl & Hsec & Hraw).
  pose proof (seeker_requests d e (be_bytes 6 v) He (be_bytes_length 6 v) (found_address d Hfd)) as Hs.
  apply bind_done_inv in Hs as (k & Hk & Hs). exists k. split; [exact Hk|].
  eapply duet_steps; [exact Hs|].
  assert (GetVersion d = Some kHigherThanV1) as Hv.
  { destruct (first_encryptor d key e Hpr Hm Hag He) as (_ & _ & _ & _ & _ & Hl & _).
    unfold GetVersion. rewrite Hm. by destruct key. }
  eapply duet_core with (x := x) (L := abs_list (account_key_list (st s))); try done.
  - split; [by rewrite Hpr|done].
  - intros s0 E0 El0 Hble. rewrite <- E0 in *.
    apply (provider_starts_public A address_is p a s0); try done.
    + by rewrite Hraw.
    + by rewrite Hraw.
    + left. rewrite Hraw, Hble.
      by destruct (request_block_ok (RAND_bytes 0) (be_bytes 6 v) (RAND_bytes_length 0) (RAND_bytes_ok 0)
        (be_bytes_length 6 v) (be_bytes_ok 6 v)) as (_ & _ & ?).
  - intros s1 H1 Hx1 Hrem. by apply Hrest.
Qed.

(** C2. The seeker and the provider of this repository pair with each other.  A
    seeker (C++) that has found a device new to its account and knows its
    anti-spoofing key runs its handshake and its pairer against the provider's
    handlers (C).  The provider is not locked out by failures, has no retroactive
    pairing with this peer under way, and its stack delivers notifications.  Whatever
    else happens in its environment, if its turns come in time and both Bluetooth
    stacks show the same passkey, the seeker
    learns the provider's public address, confirms the pairing, and reports it
    paired and completed; the provider has handed the seeker's passkey to its
    Bluetooth stack; and the account key the seeker keeps is the one the provider
    stores as its most recently used. *)
Theorem First_pairing_interoperates p a s d key e passkey :
  client_ok (st s) -> is_u64 p -> is_u64 a -> pairing_failure_count (st s) < MAX_PAIRING_FAILURE_COUNT ->
  retroactive (st s) p = false -> retroactive (st s) a = false ->
  protocol_ d = kFastPairInitialPairing -> metadata_ d = Some key -> agrees key -> found d ->
  device_encryptor d = Some e -> stoi passkey = Done n -> 0 <= n < 2 ^ 24 ->
  exists k, new_handshake d true true true = Done k /\
  duet (connect_turns
        ++ core_turns p a (fun _ s => ble_address (env s) = be_bytes 6 v) passkey
        ++ key_turns p a)
    (fun s' k' =>
      abs_list (account_key_list (st s'))
        = lru_add (account_key_ (device_ k'), if NEARBY_FP_ENABLE_SASS then p else 0)
            (abs_list (account_key_list (st s)))
      /\ list_saved (account_key_list (st s')) s s'
      /\ account_key_ (device_ k') !! 0%nat = Some 4
      /\ public_address_ (device_ k') = Some (BluetoothAddress.CanonicalizeBluetoothAddress (be_bytes 6 A))
      /\ (exists resp, called (BT (SetRemotePasskey n)) resp s s')
      /\ executor_ k' = []
      /\ reports k' = [on_complete None; FinishBluetoothPairing; on_paired; on_pairing_completed]) s k.
Proof.
  intros Hc Hp Ha Hf Hr Hra Hpr Hm Hag Hfd He Hx Hn. eapply first_duet; try done.
  intros s1 H1 Hv Hx1 [resp Hrem]. unfold after_passkeys. rewrite Z.mod_small, Z.eqb_refl by done.
  eapply duet_mono; [by apply (duet_key p a (shared_secret_key_ e) (abs_list (account_key_list (st s))) s1)|].
  intros s2 k2 (Hx2 & HL & [resp' Hsv] & Hpa & H4 & Hex & Hrep).
  split; [done|]. split; [exists resp'; by eapply ext_called|]. split; [done|]. split; [done|].
  split; [exists resp; by eapply called_ext|]. split; [done|]. by rewrite Hrep.
Qed.

(** C5. Someone between the two devices makes their Bluetooth stacks show different
    passkeys.  The seeker then never confirms the pairing: it reports a passkey
    mismatch and nothing else, and the provider has handed the seeker's passkey to
    its own Bluetooth stack, which sees the difference as well; the account keys
    of the provider are what they were. *)
Theorem Mismatched_passkeys_refused p a s d key e passkey x :
  client_ok (st s) -> is_u64 p -> is_u64 a -> pairing_failure_count (st s) < MAX_PAIRING_FAILURE_COUNT ->
  retroactive (st s) p = false -> retroactive (st s) a = false ->
  protocol_ d = kFastPairInitialPairing -> metadata_ d = Some key -> agrees key -> found d ->
  device_encryptor d = Some e -> stoi passkey = Done x -> 0 <= x < 2 ^ 24 -> n mod 2 ^ 24 <> x ->
  exists k, new_handshake d true true true = Done k /\
  duet (connect_turns
        ++ core_turns p a (fun _ s => ble_address (env s) = be_bytes 6 v) passkey
        ++ map SeekerDoes [RunNext])
    (fun s' k' =>
      abs_list (account_key_list (st s')) = abs_list (account_key_list (st s))
      /\ (exists resp, called (BT (SetRemotePasskey x)) resp s s')
      /\ executor_ k' = [] /\ initiate_pairing_timer_ k' = false
      /\ reports k' = [on_complete None; on_pair_failed kPasskeyMismatch]) s k.
Proof.
  intros Hc Hp Ha Hf Hr Hra Hpr Hm Hag Hfd He Hx Hn Hne. eapply first_duet; try done.
  intros s1 H1 Hv Hx1 Hrem. unfold after_passkeys. rewrite (proj2 (Z.eqb_neq _ _) Hne).
  eexists. split; [reflexivity|]. cbn [duet]. by destruct H1.
Qed.

(** ** A later pairing *)

(** The turns that end it: the seeker has the key already. *)
Definition end_turns (a : Z) : list Turn :=
  ProviderSees (Paired a) any_time :: map SeekerDoes [PairedEvent; RunNext; RunNext; RunNext].

(** C6. A seeker that holds an account key of the provider pairs again with it,
    without a public key exchange: the request it encrypts with the account key is
    found by the provider under that entry of its list (no earlier entry happening to
    decrypt it to the provider's address), both sides take the account key as the
    session key, the passkeys are confirmed, the seeker reports the device paired
    and completed, and the provider has moved the key to the front of its list. *)
Theorem Later_pairing_interoperates p a s d i x passkey :
  client_ok (st s) -> is_u64 p -> is_u64 a -> pairing_failure_count (st s) < MAX_PAIRING_FAILURE_COUNT ->
  retroactive (st s) p = false -> retroactive (st s) a = false ->
  protocol_ d = kFastPairSubsequentPairing -> GetVersion d = Some kHigherThanV1 -> found d ->
  keys_in_use (account_key_list (st s)) !! i = Some x -> account_key_ d = account_key x ->
  length (account_key x) = 16%nat -> stoi passkey = Done n -> 0 <= n < 2 ^ 24 ->
  exists k, new_handshake d true true true = Done k /\
  duet (connect_turns
        ++ core_turns p a (fun request s => ble_address (env s) = be_bytes 6 v
             /\ forall j y, (j < i)%nat -> keys_in_use (account_key_list (st s)) !! j = Some y ->
                  ~ names_device (env s) (aes_inv (account_key y) request)) passkey
        ++ end_turns a)
    (fun s' k' =>
      abs_list (account_key_list (st s'))
        = lru_add (account_key_ d, if NEARBY_FP_ENABLE_SASS then p else 0) (abs_list (account_key_list (st s)))
      /\ pairing_state (st s') = kPairingStateWaitingForAccountKeyWrite
      /\ account_key_ (device_ k') = account_key_ d
      /\ public_address_ (device_ k') = Some (BluetoothAddress.CanonicalizeBluetoothAddress (be_bytes 6 A))
      /\ (exists resp, called (BT (SetRemotePasskey n)) resp s s')
      /\ executor_ k' = []
      /\ reports k' = [on_complete None; FinishBluetoothPairing; on_paired; on_pairing_completed]) s k.
Proof.
  intros Hc Hp Ha Hf Hr Hra Hpr Hv Hfd Hi Hkey Hkl Hx Hn.
  assert (device_encryptor d = Some (MakeEncryptor (account_key x) None)) as He
    by (unfold device_encryptor; by rewrite Hpr, Hkey, Hkl).
  set (e := MakeEncryptor (account_key x) None) in *.
  pose proof (seeker_requests d e (be_bytes 6 v) He (be_bytes_length 6 v) (found_address d Hfd)) as Hs.
  apply bind_done_inv in Hs as (k & Hk & Hs). exists k. split; [exact Hk|].
  eapply duet_steps; [exact Hs|].
  destruct (request_block_ok (RAND_bytes 0) (be_bytes 6 v) (RAND_bytes_length 0) (RAND_bytes_ok 0)
    (be_bytes_length 6 v) (be_bytes_ok 6 v)) as (Hl & Hok & Htake).
  assert (first_message e (be_bytes 6 v) = aes (account_key x) ([0; 0] ++ be_bytes 6 v ++ drop 8 (RAND_bytes 0))) as Em
    by (unfold first_message; cbn [public_key_ e default]; by rewrite app_nil_r).
  eapply duet_core with (x := n)
    (L := lru_add (account_key x, if NEARBY_FP_ENABLE_SASS then p else 0) (abs_list (account_key_list (st s)))); try done.
  - split; [by rewrite Hpr|done].
  - intros s0 E0 El0 [Hble Hno]. rewrite <- E0 in *. rewrite Em in *.
    apply (provider_starts A address_is p a s0 _ i x); rewrite ?aes_inv_aes; try done; [apply aes_ok|apply aes_length|].
    split; [|done]. rewrite aes_inv_aes by done. left. by rewrite Htake, Hble.
  - intros s1 H1 Hx1 [resp Hrem]. unfold after_passkeys. rewrite Z.mod_small, Z.eqb_refl by done.
    intros w s2 _. assert (session p a (account_key x) kPairingStateWaitingForPairingResult zero_key_info
      (lru_add (account_key x, if NEARBY_FP_ENABLE_SASS then p else 0) (abs_list (account_key_list (st s)))) (st s2))
      as H2 by done.
    eapply wp_mono; [apply (session_paired p a (account_key x) Ha); exact H2|]. intros _ s3 [H3 Hx3].
    destruct (seeker_ends (paired_device d) e (generated d) passkey (core_output d e n ++ [FinishBluetoothPairing]) Hpr Hv)
      as (k' & Hk' & Hd' & Hex' & Ho').
    eapply (duet_steps _ []) in Hk'; [rewrite app_nil_r in Hk'; exact Hk'|]. cbn [duet]. rewrite Hd', Hkey.
    split; [by destruct H3|]. split; [by destruct H3|]. split; [done|]. split; [done|].
    split; [exists resp; by eapply called_ext|]. split; [done|]. unfold reports. by rewrite Ho'.
Qed.

End Duet.

(** * A pairing of the test platform *)
Section Witness.
#[local] Existing Instance sass_config.
#[local] Existing Instance signed_char.
#[local] Existing Instance openssl.
Import FastPairCrypto GattServiceClient Handshake Pairer.

(** One key, whose public point the platform agrees on. *)
#[local] Instance test_keys : OpenSSLKeys := {|
  RAND_bytes := fun n => replicate 16 (u8 (Z.of_nat n + 1));
  ec_key := unit;
  EC_KEY_generate_key := fun _ => Some tt;
  EC_POINT_point2oct := fun _ => Some (4 :: replicate 64 1);
  EC_POINT_oct2point := fun _ => true;
  ECDH_shared := fun _ _ => Some (fit 32 (replicate 64 1));
|}.

#[local] Instance test_keys_spec : OpenSSLKeysSpec test_keys.
Proof.
  split.
  - done.
  - intros n. apply (Forall_replicate is_byte 16 (u8 (Z.of_nat n + 1))), u8_byte.
  - intros _ oct [= <-]. by apply bytes_ok_true.
Qed.

#[local] Instance test_stack : Stack := {| stack_bytes := replicate 6 0xEE; stack_bytes_length := eq_refl |}.

Definition test_address : Z := 0xBABABABA.
Definition found_device : FastPairDevice :=
  MakeDevice (BluetoothAddress.CanonicalizeBluetoothAddress (be_bytes 6 test_address))
    kFastPairInitialPairing (Some (replicate 64 7)) None [].
Definition known_device : FastPairDevice :=
  MakeDevice (BluetoothAddress.CanonicalizeBluetoothAddress (be_bytes 6 test_address))
    kFastPairSubsequentPairing (Some (replicate 64 7)) None (account_key (test_key 2)).
Definition found_encryptor : DataEncryptor :=
  MakeEncryptor (take 16 (toy_sha256 (fit 32 (replicate 64 1)))) (Some (replicate 64 1)).

(** The decimal digits of 123456 and of 654321. *)
Definition shown_passkey : list Z := [0x31; 0x32; 0x33; 0x34; 0x35; 0x36].
Definition other_passkey : list Z := [0x36; 0x35; 0x34; 0x33; 0x32; 0x31].

Lemma test_agrees : agrees (P:=first_boot_platform) (replicate 64 7).
Proof. intros [] oct secret [= <-] [= <-]. reflexivity. Qed.

Example First_pairing_interoperates_witness :
  exists k, new_handshake found_device true true true = Done k /\
  duet (connect_turns
        ++ core_turns 7 seeker_address (fun _ s => ble_address (env s) = be_bytes 6 test_address) shown_passkey
        ++ key_turns 7 seeker_address)
    (fun s' k' =>
      abs_list (account_key_list (st s'))
        = lru_add (account_key_ (device_ k'), if NEARBY_FP_ENABLE_SASS then 7 else 0)
            (abs_list (account_key_list (st empty_sys)))
      /\ list_saved (account_key_list (st s')) empty_sys s'
      /\ account_key_ (device_ k') !! 0%nat = Some 4
      /\ public_address_ (device_ k') = Some (BluetoothAddress.CanonicalizeBluetoothAddress (be_bytes 6 0xA0A1A2A3A4A5))
      /\ (exists resp, called (BT (SetRemotePasskey 123456)) resp empty_sys s')
      /\ executor_ k' = []
      /\ reports k' = [on_complete None; FinishBluetoothPairing; on_paired; on_pairing_completed]) empty_sys k.
Proof.
  apply (First_pairing_interoperates (P:=first_boot_platform) 0xA0A1A2A3A4A5 test_address 123456
    ltac:(done) ltac:(done) 7 seeker_address empty_sys found_device (replicate 64 7) found_encryptor shown_passkey).
  - exact client_0_ok.
  - unfold is_u64. lia.
  - unfold is_u64, seeker_address. lia.
  - reflexivity.
  - reflexivity.
  - reflexivity.
  - reflexivity.
  - reflexivity.
  - exact test_agrees.
  - reflexivity.
  - vm_compute. reflexivity.
  - vm_compute. reflexivity.
  - lia.
Defined.

Example Mismatched_passkeys_refused_witness :
  exists k, new_handshake found_device true true true = Done k /\
  duet (connect_turns
        ++ core_turns 7 seeker_address (fun _ s => ble_address (env s) = be_bytes 6 test_address) other_passkey
        ++ map SeekerDoes [RunNext])
    (fun s' k' =>
      abs_list (account_key_list (st s')) = abs_list (account_key_list (st empty_sys))
      /\ (exists resp, called (BT (SetRemotePasskey 654321)) resp empty_sys s')
      /\ executor_ k' = [] /\ initiate_pairing_timer_ k' = false
      /\ reports k' = [on_complete None; on_pair_failed kPasskeyMismatch]) empty_sys k.
Proof.
  apply (Mismatched_passkeys_refused (P:=first_boot_platform) 0xA0A1A2A3A4A5 test_address 123456
    ltac:(done) ltac:(done) 7 seeker_address empty_sys found_device (replicate 64 7) found_encryptor other_passkey 654321).
  - exact client_0_ok.
  - unfold is_u64. lia.
  - unfold is_u64, seeker_address. lia.
  - reflexivity.
  - reflexivity.
  - reflexivity.
  - reflexivity.
  - reflexivity.
  - exact test_agrees.
  - reflexivity.
  - vm_compute. reflexivity.
  - vm_compute. reflexivity.
  - lia.
  - vm_compute. discriminate.
Defined.

Example Later_pairing_interoperates_witness :
  exists k, new_handshake known_device true true true = Done k /\
  duet (connect_turns
        ++ core_turns 7 seeker_address (fun request s => ble_address (env s) = be_bytes 6 test_address
             /\ forall j y, (j < 1)%nat -> keys_in_use (account_key_list (st s)) !! j = Some y ->
                  ~ names_device (env s) (aes_inv (account_key y) request)) shown_passkey
        ++ end_turns seeker_address)
    (fun s' k' =>
      abs_list (account_key_list (st s'))
        = lru_add (account_key_ known_device, if NEARBY_FP_ENABLE_SASS then 7 else 0)
            (abs_list (account_key_list (st keyed_sys)))
      /\ pairing_state (st s') = kPairingStateWaitingForAccountKeyWrite
      /\ account_key_ (device_ k') = account_key_ known_device
      /\ public_address_ (device_ k') = Some (BluetoothAddress.CanonicalizeBluetoothAddress (be_bytes 6 0xA0A1A2A3A4A5))
      /\ (exists resp, called (BT (SetRemotePasskey 123456)) resp keyed_sys s')
      /\ executor_ k' = []
      /\ reports k' = [on_complete None; FinishBluetoothPairing; on_paired; on_pairing_completed]) keyed_sys k.
Proof.
  apply (Later_pairing_interoperates (P:=first_boot_platform) 0xA0A1A2A3A4A5 test_address 123456
    ltac:(done) ltac:(done) 7 seeker_address keyed_sys known_device 1 (test_key 2) shown_passkey).
  - exact keyed_client_ok.
  - unfold is_u64. lia.
  - unfold is_u64, seeker_address. lia.
  - reflexivity.
  - reflexivity.
  - reflexivity.
  - reflexivity.
  - reflexivity.
  - reflexivity.
  - reflexivity.
  - reflexivity.
  - reflexivity.
  - vm_compute. reflexivity.
  - lia.
Defined.

(** A run in which the seeker confirms the pairing. *)
Definition confirming_events : list Event :=
  [RunNext; ConnectionStatus kOk; RunNext;
   Response kKeyBasedCharacteristicIndex
     (Ok (toy_aes (shared_secret_key_ found_encryptor) (1 :: be_bytes 6 0xA0A1A2A3A4A5 ++ replicate 9 0)));
   RunNext; CreatePairer; StartPairingCall; RunNext; RunPairingJob true true true true;
   PairingInitiatedEvent shown_passkey;
   Response kPasskeyCharacteristicIndex
     (Ok (toy_aes (shared_secret_key_ found_encryptor) (3 :: be_bytes 3 123456 ++ replicate 12 0)));
   RunNext].

#[local] Existing Instance first_boot_platform.
Example Seeker_confirms_authenticated_witness : confirmed found_device confirming_events.
Proof.
  eapply (Seeker_confirms_authenticated found_device true true true confirming_events).
  - discriminate.
  - vm_compute. reflexivity.
  - vm_compute. reflexivity.
  - vm_compute. by repeat first [apply list_elem_of_here | apply list_elem_of_further].
Defined.

Example Reconnection_stops_seeker_witness :
  exists k k1 request, new_handshake found_device true true true = Done k
  /\ steps [RunNext; ConnectionStatus kOk; RunNext] k = Done k1
  /\ output k1 = [ConnectToGattServer; CallRemoteFunction kKeyBasedCharacteristicIndex request]
  /\ steps [ConnectionStatus kOk; RunNext] k1 = Crash.
Proof.
  eapply (Reconnection_stops_seeker found_device true true (replicate 64 7)).
  - reflexivity.
  - reflexivity.
  - vm_compute. reflexivity.
  - vm_compute. reflexivity.
Defined.

(** The conditions of the first turns can hold. *)
Example test_conditions :
  ble_address (env empty_sys) = be_bytes 6 test_address /\
  authenticates (first_message (P:=first_boot_platform) (MakeEncryptor (account_key (test_key 2)) None)
    (be_bytes 6 test_address)) 1 (test_key 2) keyed_sys.
Proof.
  split; [vm_compute; reflexivity|]. split; [left; vm_compute; reflexivity|].
  intros j y Hj Hy. replace j with 0%nat in Hy by lia.
  vm_compute in Hy. injection Hy as <-. intros [H|H]; vm_compute in H; discriminate.
Qed.

End Witness.
