(* ===== verification/InteropStream.v ===== *)
(** The message stream between the seeker ([SeekerStream], C++) and the provider
    ([MessageStream], [ClientStream], C).  The bytes one side writes arrive at the other
    in pieces of any size.  Each side reads the other's frames; the seeker's observer is
    told what the provider announces when it connects; a request to ring is carried out
    and its acknowledgement reaches the caller. *)

From Stdlib Require Import ZArith Lia.
From stdpp Require Import base list numbers.
From S2P Require Import Prelude Utils Platform SecureElement TestPlatform Crypto AccountKeys.
From S2P Require Import MessageStream Advertisement CryptoSafety AdvertisementSafety.
From S2P Require Import ClientState ClientAdvertising ClientPairing ClientStream.
From S2P Require Import ClientInvariant ClientAdvertisingSafety ClientPairingSafety.
From S2P Require Import ClientStreamSafety Client ClientTheorems ClientSass.
From S2P Require Import CppBase SeekerData SeekerStream.
Import Utils.

Open Scope Z_scope.
Open Scope fp_scope.

(** * Reading frames *)
Section Frames.
Context {ct : CharType} {Sur : Surroundings}.
Import Medium SeekerMessageStream MediumLoop.
Implicit Types k : Stream.

(** The bytes of [input] are returned by successive calls of [Read]: with [n] bytes to
    come, the next call returns [cut n] of them, at least one and at most as many as it
    was asked for. *)
Fixpoint feed (fuel : nat) (cut : nat -> nat) (input : list Z) k : Stream :=
  match fuel, input with
  | S fuel, _ :: _ =>
    let n := Nat.min (Nat.max 1 (cut (length input))) (wanted k) in
    if (n =? 0)%nat then k
    else feed fuel cut (drop n input) (on_read (Ok (take n input)) k)
  | _, _ => k
  end.
Definition arrive (cut : nat -> nat) (input : list Z) k : Stream := feed (length input) cut input k.

(** More fuel than bytes changes nothing. *)
Lemma feed_fuel cut f1 : forall f2 input k,
  (length input <= f1)%nat -> (length input <= f2)%nat -> feed f1 cut input k = feed f2 cut input k.
Proof.
  induction f1 as [|f1 IH]; intros f2 input k H1 H2.
  { destruct input; [|cbn in H1; lia]. by destruct f2. }
  destruct input as [|b input]; [by destruct f2|]. destruct f2 as [|f2]; [cbn in H2; lia|].
  cbn [feed]. set (n := Nat.min _ _). destruct (Nat.eqb_spec n 0) as [|Hn]; [done|].
  apply IH; rewrite length_drop; cbn [length] in *; lia.
Qed.

(** One read. *)
Lemma arrive_turn cut input k :
  input <> [] -> (0 < wanted k)%nat ->
  exists n, (0 < n <= wanted k)%nat /\ (n <= length input \/ length input < n)%nat /\
    arrive cut input k = arrive cut (drop n input) (on_read (Ok (take n input)) k).
Proof.
  intros Hi Hw. destruct input as [|b input]; [done|].
  unfold arrive at 1. cbn [length feed]. set (n := Nat.min _ _).
  assert (0 < n <= wanted k)%nat as Hn by lia. exists n. split; [done|]. split; [lia|].
  destruct (Nat.eqb_spec n 0); [lia|]. apply feed_fuel; rewrite ?length_drop; cbn [length] in *; lia.
Qed.

(** [ReadExactly] has [pre] so far, and [size] to read. *)
Definition has_read (size : nat) (pre : list Z) (r : Reading) : Prop :=
  read_size r = size /\ current_pos r = length pre /\ (length pre < size)%nat
  /\ (pre <> [] -> length (read_buffer r) = size /\ take (length pre) (read_buffer r) = pre).

Lemma turn_spec size pre r c :
  has_read size pre r -> c <> [] -> (length c <= size - length pre)%nat ->
  if (length pre + length c <? size)%nat
  then exists r', ReadExactly_turn r (Ok c) = More r' /\ has_read size (pre ++ c) r'
  else ReadExactly_turn r (Ok c) = Complete (pre ++ c).
Proof.
  intros (Hs & Hp & Hlt & Hb) Hc Hl. destruct c as [|b c]; [done|]. set (cs := b :: c) in *.
  assert (ReadExactly_turn r (Ok cs) =
    if (current_pos r =? 0)%nat && (length cs =? read_size r)%nat then Complete cs else
    let buffer := if (current_pos r =? 0)%nat then replicate (read_size r) 0 else read_buffer r in
    let buffer := CopyAt (current_pos r) cs buffer in
    let pos := (current_pos r + length cs)%nat in
    if (pos <? read_size r)%nat then More (MakeReading (read_size r) buffer pos) else Complete buffer) as -> by done.
  rewrite Hs, Hp. assert (0 < length cs)%nat by (cbn; lia). clearbody cs. cbv zeta.
  set (buffer := if (length pre =? 0)%nat then _ else _).
  assert (length buffer = size /\ take (length pre) buffer = pre) as [Hbl Hbt].
  { unfold buffer. destruct pre as [|p pre]; cbn [length Nat.eqb].
    - rewrite length_replicate. by rewrite take_0.
    - by apply Hb. }
  assert (CopyAt (length pre) cs buffer = pre ++ cs ++ drop (length pre + length cs) buffer) as Hcopy.
  { unfold CopyAt. rewrite Hbl. destruct (Nat.leb_spec size (length pre)); [lia|].
    rewrite Hbt. by rewrite (take_ge cs) by lia. }
  destruct (Nat.ltb_spec (length pre + length cs) size) as [Hm|Hm].
  - destruct (Nat.eqb_spec (length cs) size); [lia|]. rewrite andb_false_r.
    eexists. split; [reflexivity|]. split; [done|]. split; [by rewrite length_app|].
    split; [by rewrite length_app|]. intros _. cbn [read_buffer]. rewrite Hcopy. split.
    + rewrite !length_app, length_drop. lia.
    + rewrite app_assoc. apply take_app_length'. by rewrite length_app.
  - destruct (_ && _) eqn:E.
    + apply andb_prop in E as [E%Nat.eqb_eq _]. by destruct pre.
    + rewrite Hcopy. rewrite drop_ge, app_nil_r by lia. done.
Qed.

Lemma set_loop_loop l k : loop k = l -> set_loop l k = k.
Proof. intros <-. by destruct k. Qed.

(** A phase of the loop, reading into [L] and going on with [F]: the bytes asked for are
    read, whatever the pieces. *)
Lemma arrive_exact (L : Reading -> LoopState) (F : list Z -> Stream -> Stream) cut size :
  (forall r k, loop k = L r -> wanted k = read_size r - current_pos r)%nat ->
  (forall r k c, loop k = L r -> on_read (Ok c) k =
     match ReadExactly_turn r (Ok c) with
     | More r' => set_loop (L r') k | Complete b => F b k | Failed => RunLoop_end k end) ->
  forall bytes pre r k rest, loop k = L r -> has_read size pre r -> (length pre + length bytes = size)%nat ->
  exists r', arrive cut (bytes ++ rest) k = arrive cut rest (F (pre ++ bytes) (set_loop (L r') k)).
Proof.
  intros Hw Hr bytes. induction bytes as [bytes IH] using (induction_ltof1 _ (@length Z)). unfold ltof in IH.
  intros pre r k rest Hl Hread Hlen. pose proof Hread as (Hs & Hp & Hlt & _).
  specialize (Hw _ _ Hl). rewrite Hs, Hp in Hw.
  destruct (arrive_turn cut (bytes ++ rest) k) as (n & Hn & _ & ->); [by destruct bytes; cbn in Hlen; [lia|]|lia|].
  rewrite Hw in Hn. rewrite take_app_le, drop_app_le by lia.
  pose proof (turn_spec size pre r (take n bytes) Hread) as Ht. rewrite length_take_le in Ht by lia.
  rewrite (Hr _ _ (take n bytes) Hl).
  destruct (Nat.ltb_spec (length pre + n) size) as [Hm|Hm].
  - destruct Ht as (r1 & -> & H1); [destruct n, bytes; cbn in *; try lia; done|lia|].
    destruct (IH (drop n bytes)) with (pre := pre ++ take n bytes) (r := r1) (k := set_loop (L r1) k) (rest := rest)
      as [r' ->]; [rewrite length_drop; lia|done|done| |].
    + rewrite length_app, length_take_le, length_drop; lia.
    + exists r'. rewrite <- app_assoc, take_drop. done.
  - rewrite Ht by (lia || (destruct n, bytes; cbn in *; try lia; done)). exists r.
    rewrite take_ge, drop_ge by lia. by rewrite set_loop_loop.
Qed.

(** ** Handlers and the loop *)

Ltac handlers := unfold OnReceived, HandleAcknowledgement, HandleBluetooth, HandleCompanionAppEvent,
  HandleDeviceInformationEvent, HandleDeviceActionEvent, SendAcknowledgement, FinishCall, Send.

(** The handlers do not touch the loop's variables. *)
Lemma OnReceived_loop m l k : OnReceived m (set_loop l k) = set_loop l (OnReceived m k).
Proof. handlers. cbn. repeat case_match; simplify_eq; done. Qed.

(** Only an acknowledgement that cannot be written ends the loop. *)
Definition stays_open (m : StreamMessage) : Prop :=
  (forall n, write_ok n = true) \/ SeekerStream.message_group m <> kDeviceActionEvent.

Lemma OnReceived_cancelled m k : stays_open m -> cancelled k = false -> cancelled (OnReceived m k) = false.
Proof.
  intros Hm Hc. unfold OnReceived. repeat (case_match; [by handlers; repeat case_match|]).
  case_match; [|done]. apply Z.eqb_eq in H3. destruct Hm as [Hw|]; [|done].
  handlers. cbn. rewrite Hw. repeat case_match; done.
Qed.

Definition between : LoopState := ReadingHeader (MakeReading kHeaderSize [] 0).
Definition handle_message (m : StreamMessage) k : Stream := OnReceived m (set_received (received k ++ [m]) k).
Definition handle_all (ms : list StreamMessage) k : Stream := fold_left (fun k m => handle_message m k) ms k.

(** A message as the seeker sees it. *)
Definition seen (w : wire_message) : StreamMessage :=
  MakeMessage (char_int (wire_group w)) (char_int (wire_code w)) (wire_payload w).

(** Its length is read back. *)
Definition length_readable (n : nat) : Prop :=
  message_length (Z.of_nat n / 256) (Z.of_nat n mod 256) = Z.of_nat n.

Lemma RunLoop_message_spec m l k :
  stays_open m -> cancelled k = false -> RunLoop_message m (set_loop l k) = set_loop between (handle_message m k).
Proof.
  intros Hm Hc. unfold RunLoop_message. change (received (set_loop l k)) with (received k).
  change (set_received ?x (set_loop l k)) with (set_loop l (set_received x k)).
  rewrite OnReceived_loop. unfold RunLoop.
  change (cancelled (set_loop l ?x)) with (cancelled x). by rewrite OnReceived_cancelled.
Qed.

Lemma arrive_payload cut group code bytes rest l k :
  stays_open (MakeMessage group code bytes) -> cancelled k = false ->
  let n := Z.of_nat (length bytes) in
  arrive cut (bytes ++ rest) (RunLoop_payload group code n
    (if 0 <? n then ReadExactly (Z.to_nat n) else Complete []) (set_loop l k))
  = arrive cut rest (set_loop between (handle_message (MakeMessage group code bytes) k)).
Proof.
  intros Hm Hc n. destruct (Z.ltb_spec 0 n) as [Hn|Hn].
  - unfold n at 2. rewrite Nat2Z.id. unfold ReadExactly. destruct (Nat.ltb_spec 0 (length bytes)); [|lia].
    cbn [RunLoop_payload]. set (r := MakeReading (length bytes) [] 0). set (k1 := set_loop _ _).
    destruct (arrive_exact (ReadingPayload group code n) (fun b => RunLoop_payload group code n (Complete b)) cut (length bytes))
      with (bytes := bytes) (pre := @nil Z) (r := r) (k := k1) (rest := rest) as [r' ->]; try done.
    + intros r0 k0 E. unfold wanted. by rewrite E.
    + intros r0 k0 c E. unfold on_read. rewrite E. by destruct (ReadExactly_turn r0 (Ok c)).
    + cbn [app RunLoop_payload]. unfold n. rewrite Z.eqb_refl. cbn [negb].
      change (set_loop ?a k1) with (set_loop a k). by rewrite RunLoop_message_spec.
  - assert (bytes = []) as -> by (destruct bytes; [done|cbn in *; lia]).
    cbn [app RunLoop_payload length Z.of_nat n Z.eqb negb]. by rewrite RunLoop_message_spec.
Qed.

Lemma arrive_frame cut w rest k :
  wire_ok w -> length_readable (length (wire_payload w)) -> stays_open (seen w) ->
  loop k = between -> cancelled k = false ->
  arrive cut (frame w ++ rest) k = arrive cut rest (set_loop between (handle_message (seen w) k)).
Proof.
  intros (Hg & Hc & Hb & Hl) Hread Hopen Hk Hcan. unfold frame, MAX_WIRE_PAYLOAD in *.
  destruct (be_bytes_2 (Z.of_nat (length (wire_payload w)))) as (hi & lo & -> & Hhi & Hlo & Hn); [lia|].
  unfold is_byte in Hhi, Hlo. unfold length_readable in Hread. rewrite Hn in Hread at 1 2.
  rewrite Z.mul_comm, Z.div_add_l, Z.div_small, Z.add_0_r in Hread by lia.
  rewrite Z.add_comm, Z.mod_add, Z.mod_small in Hread by lia.
  change ((?g :: ?c :: [hi; lo] ++ ?p) ++ rest) with ([g; c; hi; lo] ++ (p ++ rest)).
  destruct (arrive_exact ReadingHeader RunLoop_header cut 4) with (bytes := [wire_group w; wire_code w; hi; lo])
    (pre := @nil Z) (r := MakeReading kHeaderSize [] 0) (k := k) (rest := wire_payload w ++ rest) as [r' ->]; try done.
  - intros r0 k0 E. unfold wanted. by rewrite E.
  - intros r0 k0 c E. unfold on_read. rewrite E. by destruct (ReadExactly_turn r0 (Ok c)).
  - split; [done|]. split; [done|]. split; [cbn; lia|done].
  - cbn [app RunLoop_header]. rewrite Hread. by rewrite arrive_payload.
Qed.

Lemma handle_message_loop m l k : handle_message m (set_loop l k) = set_loop l (handle_message m k).
Proof. apply (OnReceived_loop m l (set_received (received k ++ [m]) k)). Qed.

Lemma handle_all_loop ms l k : handle_all ms (set_loop l k) = set_loop l (handle_all ms k).
Proof.
  revert k. induction ms as [|m ms IH]; intros k; cbn [handle_all fold_left]; [done|].
  rewrite handle_message_loop. apply IH.
Qed.

(** The frames of messages are read as these messages, in order. *)
Lemma arrive_frames cut ms k :
  Forall wire_ok ms -> Forall (fun w => length_readable (length (wire_payload w)) /\ stays_open (seen w)) ms ->
  loop k = between -> cancelled k = false ->
  arrive cut (concat (frame <$> ms)) k = set_loop between (handle_all (seen <$> ms) k).
Proof.
  intros Hms. revert k. induction Hms as [|w ms Hw Hms IH]; intros k Hr Hk Hc; cbn [fmap list_fmap concat].
  - unfold arrive. cbn. by rewrite set_loop_loop.
  - apply Forall_cons_1 in Hr as [[Hr1 Ho1] Hr]. rewrite arrive_frame by done. rewrite IH; [|done|done|].
    + cbn [handle_all fold_left]. fold (handle_all (seen <$> ms)). by rewrite handle_all_loop.
    + change (cancelled (set_loop between ?x)) with (cancelled x). by apply OnReceived_cancelled.
Qed.

(** What the loop has handed on. *)
Lemma OnReceived_received m k : received (OnReceived m k) = received k.
Proof. handlers. cbn. repeat case_match; simplify_eq; done. Qed.

Lemma handle_all_received ms k : received (handle_all ms k) = received k ++ ms.
Proof.
  revert k. induction ms as [|m ms IH]; intros k; cbn [handle_all fold_left]; [by rewrite app_nil_r|].
  fold (handle_all ms). rewrite IH. unfold handle_message. rewrite OnReceived_received. cbn. by rewrite <- app_assoc.
Qed.

End Frames.

(** Lengths are read back where [char] is unsigned, and otherwise when both their bytes
    are below 128. *)
Lemma length_readable_bytes (ct : CharType) n :
  Z.of_nat n < 65536 -> (forall b, b = Z.of_nat n / 256 \/ b = Z.of_nat n mod 256 -> char_int b = b) ->
  length_readable n.
Proof.
  intros Hn Hc. unfold length_readable, MediumLoop.message_length. rewrite !Hc by auto.
  pose proof (Z.div_mod (Z.of_nat n) 256 ltac:(lia)) as E.
  pose proof (Z.mod_pos_bound (Z.of_nat n) 256 ltac:(lia)).
  assert (0 <= Z.of_nat n / 256 < 256) by (split; [apply Z.div_pos|apply Z.div_lt_upper_bound]; lia).
  clear Hc. set (hi := Z.of_nat n / 256) in *. set (lo := Z.of_nat n mod 256) in *. clearbody hi lo.
  unfold s32, u32. rewrite !(Z.mod_small hi), !(Z.mod_small lo), !(Z.mod_small (hi * 256)) by lia.
  rewrite !(Z.mod_small (hi * 256 + lo)) by lia. destruct (Z.ltb_spec (hi * 256 + lo) (2 ^ 31)); lia.
Qed.

Lemma unsigned_readable n : Z.of_nat n < 65536 -> length_readable (ct:=unsigned_char) n.
Proof.
  intros Hn. apply length_readable_bytes; [done|]. intros b Hb. unfold char_int. cbn [char_is_signed unsigned_char].
  apply u8_id. unfold is_byte. pose proof (Z.mod_pos_bound (Z.of_nat n) 256 ltac:(lia)).
  assert (0 <= Z.of_nat n / 256 < 256) by (split; [apply Z.div_pos|apply Z.div_lt_upper_bound]; lia).
  destruct Hb; lia.
Qed.

Lemma char_int_low (ct : CharType) b : 0 <= b < 128 -> char_int b = b.
Proof.
  intros Hb. unfold char_int, s8. rewrite u8_id by (unfold is_byte; lia).
  destruct char_is_signed; [|done]. case_match; lia.
Qed.

Lemma small_readable (ct : CharType) n :
  Z.of_nat n / 256 < 128 -> Z.of_nat n mod 256 < 128 -> length_readable n.
Proof.
  intros Hd Hm. pose proof (Z.div_mod (Z.of_nat n) 256 ltac:(lia)).
  pose proof (Z.mod_pos_bound (Z.of_nat n) 256 ltac:(lia)).
  assert (0 <= Z.of_nat n / 256) by (apply Z.div_pos; lia).
  apply length_readable_bytes; [lia|]. intros b [-> | ->]; apply char_int_low; lia.
Qed.

(** * The provider's side *)
Section Provider.
Context {C : Config} {P : Platform}.
Implicit Types s : sys client.

(** The bytes a run has given the platform to send to the peer [p], in order. *)
Definition stream_data (p : Z) (l : list (hal_request * hal_response)) : list Z :=
  concat (omap (fun e => match fst e with
    | BT (SendMessageStream a d) => if a =? p then Some d else None | _ => None end) (rev l)).
Definition sends (p : Z) (bytes : list Z) s s' : Prop :=
  exists l, log s' = l ++ log s /\ stream_data p l = bytes.

Lemma stream_data_app p l1 l2 : stream_data p (l2 ++ l1) = stream_data p l1 ++ stream_data p l2.
Proof. unfold stream_data. by rewrite rev_app_distr, omap_app, concat_app. Qed.

Lemma sends_trans p b1 b2 s1 s2 s3 : sends p b1 s1 s2 -> sends p b2 s2 s3 -> sends p (b1 ++ b2) s1 s3.
Proof.
  intros (l1 & H1 & <-) (l2 & H2 & <-). exists (l2 ++ l1). rewrite H2, H1, app_assoc.
  split; [done|apply stream_data_app].
Qed.

Definition not_stream (r : hal_request) : Prop := match r with BT (SendMessageStream _ _) => False | _ => True end.

Lemma sends_none p s s' : ext not_stream s s' -> sends p [] s s'.
Proof.
  intros (l & H & Hl). exists l. split; [done|]. unfold stream_data.
  replace (omap _ (rev l)) with (@nil (list Z)); [done|]. symmetry. apply Forall_rev in Hl.
  induction Hl as [|[r resp] l' Hr Hl IH]; [done|]. cbn. rewrite IH. by destruct r as [[]| | | | | | |].
Qed.

Lemma ext_one K s r resp w : K r -> ext K s (Sys (st s) w ((r, resp) :: log s)).
Proof. intros Hr. exists [(r, resp)]. split; [done|]. by apply Forall_singleton. Qed.

Lemma sends_one p s d resp w : sends p d s (Sys (st s) w ((BT (SendMessageStream p d), resp) :: log s)).
Proof.
  exists [(BT (SendMessageStream p d), resp)]. split; [done|].
  unfold stream_data. cbn. rewrite Z.eqb_refl. cbn. apply app_nil_r.
Qed.

Lemma notify_event_run e s : wp (notify_event e) (fun _ s' => st s' = st s /\ ext not_stream s s') s.
Proof.
  unfold notify_event. apply wp_bind, wp_gets. destruct (on_event_set (st s)); [|apply wp_ret; split; [done|apply ext_refl]].
  apply wp_hal_map. intros resp w. split; [done|]. by apply ext_one.
Qed.

(** A request to ring. *)
Definition ring_payload (components minutes : Z) : list Z :=
  if u8 minutes =? 0 then [components] else [components; u8 minutes].

Lemma provider_rings s p i components minutes m :
  find_index (fun r => input_peer_address r =? p) (rfcomm_inputs (st s)) 0 = Some i ->
  is_byte components -> wire_of m = WireMessage MESSAGE_GROUP_DEVICE_ACTION_EVENT MESSAGE_CODE_RING
    (ring_payload components minutes) ->
  0 <= message_length m -> (Z.to_nat (message_length m) <= length (message_data m))%nat ->
  wp (OnMessageReceived p m) (fun _ s' => st s' = st s /\ exists resp,
    called (OS (Platform.Ring components (u16 (u8 minutes * 10)))) resp s s'
    /\ sends p (response_frame m (resp_status resp)) s s') s.
Proof.
  intros Hi Hc Hm Hl0 Hl. injection Hm as Hg Hcode Hp. unfold OnMessageReceived, HandleGeneralMessage, GetRfcommInput.
  apply wp_bind, wp_bind, wp_bind, wp_gets, wp_ret. rewrite Hi. apply wp_bind, wp_uninit. intros buffer _ _.
  cbv zeta. rewrite Hg, Hcode. cbn [Z.eqb MESSAGE_GROUP_DEVICE_ACTION_EVENT MESSAGE_GROUP_DEVICE_INFORMATION_EVENT
    MESSAGE_CODE_RING Pos.eqb].
  assert (message_length m = Z.of_nat (length (ring_payload components minutes))) as Elen
    by (rewrite <- Hp, length_take_le by done; lia).
  assert (ring_payload components minutes `prefix_of` message_data m) as [rest Hd]
    by (rewrite <- Hp; apply prefix_take).
  unfold ring_payload in Elen, Hd.
  assert (wp (let! timeout := if 1 <? message_length m then lift (load (message_data m) 1) else mret 0 in
              let! status := nearby_platform_Ring components (u16 (timeout * 10)) in SendResponse p m status)
    (fun x s' => st s' = st s /\ exists resp,
      called (OS (Platform.Ring components (u16 (u8 minutes * 10)))) resp s s'
      /\ sends p (response_frame m (resp_status resp)) s s') s) as Hring.
  { apply wp_bind. assert (forall Q : Z -> sys client -> Prop, Q (u8 minutes) s ->
      wp (if 1 <? message_length m then lift (load (message_data m) 1) else mret 0) Q s) as Ht.
    { intros Q HQ. destruct (Z.eqb_spec (u8 minutes) 0) as [E|E]; rewrite Elen, Hd; cbn [length Z.of_nat Z.ltb].
      - apply wp_ret. by rewrite <- E.
      - eapply wp_lift; [reflexivity|done]. }
    apply Ht. apply wp_bind, wp_hal_map. intros resp w.
    eapply wp_mono; [apply SendResponse_run|]. intros x s' [E (resp' & _ & El)]. split; [done|].
    exists resp. split.
    - eexists [_; _]. split; [exact El|]. apply list_elem_of_further, list_elem_of_here.
    - eexists [_; _]. split; [exact El|]. unfold stream_data. cbn. rewrite Z.eqb_refl. cbn. by rewrite app_nil_r. }
  assert ((message_length m <? 1) || (2 <? message_length m) = false) as ->
    by (rewrite Elen; by destruct (u8 minutes =? 0)).
  apply wp_bind. eapply wp_lift; [by rewrite Hd; destruct (u8 minutes =? 0)|].
  eapply wp_mono; [exact Hring|]. intros status s1 [E1 (resp & Hcall & Hs)].
  assert (exists resp, called (OS (Platform.Ring components (u16 (u8 minutes * 10)))) resp s s1
    /\ sends p (response_frame m (resp_status resp)) s s1) as Hdone by eauto.
  destruct (status_ok status); cbn [negb]; [|by apply wp_ret].
  rewrite andb_false_r. apply wp_bind, wp_ret. cbn [status_ok negb].
  apply wp_bind. eapply wp_lift; [apply read_bytes_done; lia|].
  eapply wp_mono; [apply notify_event_run|]. intros _ s2 [E2 Hx]. split; [by rewrite E2|].
  exists resp. split; [by eapply called_ext|]. rewrite <- (app_nil_r (response_frame _ _)).
  eapply sends_trans; [done|by apply sends_none].
Qed.

(** The peer [p] is connected, and its parser is between two messages. *)
Definition stream_ready (c : client) (p : Z) : Prop :=
  exists i r, find_index (fun r => input_peer_address r =? p) (rfcomm_inputs c) 0 = Some i
    /\ rfcomm_inputs c !! i = Some r /\ at_start (input_state r) /\ 2 <= space (input_state r).

Lemma find_index_insert f l i r r' o :
  l !! i = Some r -> f r' = f r -> find_index f (<[i := r']> l) o = find_index f l o.
Proof.
  revert i o. induction l as [|x l IH]; intros [|i] o Hi Hf; try done; cbn in *.
  - injection Hi as ->. by rewrite Hf.
  - destruct (f x); [done|]. by apply IH.
Qed.

Lemma stream_rings s p components minutes :
  stream_ready (st s) p -> is_byte components ->
  wp (handle (StreamReceived p (frame (WireMessage MESSAGE_GROUP_DEVICE_ACTION_EVENT MESSAGE_CODE_RING
    (ring_payload components minutes))))) (fun _ s' => exists resp m,
    wire_of m = WireMessage MESSAGE_GROUP_DEVICE_ACTION_EVENT MESSAGE_CODE_RING (ring_payload components minutes)
    /\ called (OS (Platform.Ring components (u16 (u8 minutes * 10)))) resp s s'
    /\ sends p (response_frame m (resp_status resp)) s s' /\ stream_ready (st s') p) s.
Proof.
  intros (i & r & Hi & Hr & Hat & Hsp) Hc. set (w := WireMessage _ _ _).
  assert (wire_ok w) as Hw.
  { split; [done|]. split; [done|]. unfold w, ring_payload, wire_payload, MAX_WIRE_PAYLOAD.
    destruct (u8 minutes =? 0); (split; [repeat (apply Forall_cons_2; [first [done|apply u8_byte]|]); done|cbn; lia]). }
  cbn [handle]. unfold OnMessageStreamReceived, GetRfcommInput.
  apply wp_bind, wp_bind, wp_gets, wp_ret. rewrite Hi. apply wp_bind. unfold wp at 1. rewrite (get_input_run s i r Hr).
  assert (stream_length (input_state r) =? 0 = false) as -> by (apply Z.eqb_neq; destruct Hat as [[] _]; unfold METADATA_SIZE in *; lia).
  cbn [andb]. apply wp_bind.
  destruct (Read_frame OnMessageReceived (input_state r) w [] s Hat Hw) as (s1 & Hok & Hl & Hpa & Hd & E).
  rewrite app_nil_r in E. unfold wp at 1. rewrite E.
  assert (truncate_to (space (input_state r)) w = w) as Ht.
  { unfold truncate_to. rewrite take_ge; [done|]. unfold w, ring_payload, wire_payload.
    destruct (u8 minutes =? 0); cbn [length]; lia. }
  rewrite Ht in Hd. destruct (delivered_bounds s1 Hok) as (B1 & B2 & _).
  assert (input_peer_address r = p) as Hpeer.
  { apply find_index_some in Hi as (r' & _ & Hr' & Hp'). rewrite Nat.sub_0_r in Hr'. simplify_eq. by apply Z.eqb_eq. }
  change (stream_peer_address (input_state r)) with (input_peer_address r). rewrite Hpeer.
  apply wp_bind. eapply wp_mono; [apply (provider_rings s p i components minutes (delivered s1)); try done; lia|].
  intros _ s2 [E2 (resp & Hcall & Hs)]. apply wp_ret. unfold update_input. apply wp_bind. unfold wp at 1.
  rewrite <- E2 in Hr. rewrite (get_input_run s2 i r Hr). apply wp_modify.
  exists resp, (delivered s1). split; [done|]. split; [exact Hcall|]. split; [exact Hs|].
  destruct (after_delivery_start s1 Hok) as (Ha & Hsp1 & Hl1 & Hp1).
  exists i, (set_input_state (after_delivery s1) r). cbn. split; [|split; [|split]].
  - rewrite find_index_insert with (r := r); [by rewrite E2|done|].
    unfold input_peer_address. cbn [set_input_state input_state]. by rewrite Hp1, Hpa.
  - apply list_lookup_insert_eq. by eapply lookup_lt_Some.
  - done.
  - cbn. rewrite Hsp1. unfold space in *. by rewrite Hl.
Qed.

End Provider.

(** * Ringing *)
Section Ringing.
Context {C : Config} {P : Platform} {ct : CharType} {Sur : Surroundings}.
Import Medium SeekerMessageStream MediumLoop.

Lemma Serialize_frame m :
  is_byte (SeekerStream.message_group m) -> is_byte (SeekerStream.message_code m) ->
  Z.of_nat (length (payload m)) < 65536 ->
  Serialize m = frame (WireMessage (SeekerStream.message_group m) (SeekerStream.message_code m) (payload m)).
Proof.
  intros Hg Hc Hl. unfold Serialize, frame. cbn [wire_group wire_code wire_payload].
  rewrite <- be_bytes_2_shift, !(u8_id (SeekerStream.message_group m)), !(u8_id (SeekerStream.message_code m)) by done.
  assert (u16 (Z.of_nat (length (payload m))) = Z.of_nat (length (payload m))) as -> by (apply u16_id; lia).
  rewrite Nat2Z.id, take_ge by lia. by rewrite land_255.
Qed.

(** The requests to ring that wait for an answer, oldest first. *)
Definition ringing (fs : list nat) : list MessageWithAck := map (MakeWithAck kDeviceActionEvent kRing) fs.

Lemma take_ringing f fs : take_waiting kDeviceActionEvent kRing (ringing (f :: fs)) = Some (f, ringing fs).
Proof. done. Qed.

Lemma take_other_code group code fs : code <> kRing -> take_waiting group code (ringing fs) = None.
Proof.
  intros Hc. induction fs as [|f fs IH]; [done|]. cbn [ringing map take_waiting ack_code ack_group].
  fold (ringing fs). rewrite IH. rewrite (proj2 (Z.eqb_neq kRing code)) by done. by rewrite andb_false_r.
Qed.

(** The provider's answer to a request to ring. *)
Definition ring_answer (status : nearby_platform_status) : wire_message :=
  if status_ok status
  then WireMessage ACKNOWLEDGEMENT_GROUP ACK_CODE [MESSAGE_GROUP_DEVICE_ACTION_EVENT; MESSAGE_CODE_RING]
  else WireMessage ACKNOWLEDGEMENT_GROUP NACK_CODE
    [u8 (if bool_decide (status = kNearbyStatusRedundantAction) then FAIL_REASON_REDUNDANT_DEVICE_ACTION else 0);
     MESSAGE_GROUP_DEVICE_ACTION_EVENT; MESSAGE_CODE_RING].

Lemma response_frame_answer m status :
  MessageStream.message_group m = MESSAGE_GROUP_DEVICE_ACTION_EVENT ->
  MessageStream.message_code m = MESSAGE_CODE_RING ->
  response_frame m status = concat (frame <$> [ring_answer status]).
Proof. intros Hg Hc. unfold response_frame, ring_answer. rewrite Hg, Hc. by destruct (status_ok status). Qed.

Lemma ring_answer_ok status :
  wire_ok (ring_answer status) /\ length_readable (length (wire_payload (ring_answer status)))
  /\ stays_open (seen (ring_answer status)).
Proof.
  assert (char_int 0xFF <> kDeviceActionEvent) as Hne
    by (unfold char_int; destruct char_is_signed; vm_compute; discriminate).
  unfold ring_answer. destruct (status_ok status).
  - split; [|split; [by apply small_readable|by right]]. split; [done|]. split; [done|]. split; [by apply bytes_ok_true|].
    cbn. unfold MAX_WIRE_PAYLOAD. lia.
  - split; [|split; [by apply small_readable|by right]]. split; [done|]. split; [done|]. split.
    + apply Forall_cons_2; [apply u8_byte|]. by apply bytes_ok_true.
    + cbn. unfold MAX_WIRE_PAYLOAD. lia.
Qed.

Lemma OnReceived_answer status k :
  OnReceived (seen (ring_answer status)) k =
  if char_is_signed then k
  else if status_ok status then FinishCall kDeviceActionEvent kRing true k
  else FinishCall (char_int (u8 (if bool_decide (status = kNearbyStatusRedundantAction)
         then FAIL_REASON_REDUNDANT_DEVICE_ACTION else 0))) kDeviceActionEvent false k.
Proof.
  unfold seen. assert (wire_group (ring_answer status) = 0xFF) as -> by (unfold ring_answer; by destruct (status_ok _)).
  destruct char_is_signed eqn:Es; [by unfold char_int at 1; rewrite Es|].
  assert (char_int 0xFF = kAcknowledgement) as -> by (unfold char_int; by rewrite Es).
  unfold OnReceived, HandleAcknowledgement, ring_answer. cbn [SeekerStream.message_group SeekerStream.message_code payload].
  
  destruct (status_ok status); cbn [wire_code wire_payload].
  - by rewrite (char_int_low _ ACK_CODE), (char_int_low _ MESSAGE_GROUP_DEVICE_ACTION_EVENT),
      ?(char_int_low _ MESSAGE_CODE_RING) by (vm_compute; split; congruence).
  - by rewrite (char_int_low _ NACK_CODE), (char_int_low _ MESSAGE_GROUP_DEVICE_ACTION_EVENT)
      by (vm_compute; split; congruence).
Qed.

(** What the answer does to the seeker: an acknowledgement ends the oldest call, where
    [char] is unsigned; a refusal ends none. *)
Lemma answer_arrives cut status f fs k :
  loop k = between -> cancelled k = false -> waiting_for_ack_ k = ringing (f :: fs) ->
  let k' := arrive cut (concat (frame <$> [ring_answer status])) k in
  loop k' = between /\ cancelled k' = false /\
  if negb char_is_signed && status_ok status
  then futures k' = settle f (Value 1) (futures k) /\ waiting_for_ack_ k' = ringing fs
  else futures k' = futures k /\ waiting_for_ack_ k' = ringing (f :: fs).
Proof.
  intros Hk Hc Hw. destruct (ring_answer_ok status) as (Hok & Hl & Ho).
  rewrite arrive_frames; [|by constructor|by constructor; [|constructor]|done|done].
  cbv zeta. split; [done|]. cbn [fmap list_fmap handle_all fold_left].
  split; [by apply OnReceived_cancelled|].
  change (futures (set_loop _ ?x)) with (futures x). change (waiting_for_ack_ (set_loop _ ?x)) with (waiting_for_ack_ x).
  unfold handle_message. set (k1 := set_received _ k). assert (waiting_for_ack_ k1 = ringing (f :: fs)) as Hw1 by done.
  change (futures k) with (futures k1). clearbody k1. clear Hw.
  rewrite OnReceived_answer. destruct char_is_signed; cbn [negb andb]; [done|].
  destruct (status_ok status).
  - unfold FinishCall. rewrite Hw1, take_ringing. done.
  - unfold FinishCall. rewrite Hw1, take_other_code by done. done.
Qed.

(** C19. A request to ring, from end to end.  The seeker's [Ring] writes one frame, which
    the provider carries out: it asks the platform to ring, with the components and the
    duration of the request, and answers.  The answer reaches the seeker in pieces of
    any size.  Where [char] is unsigned, an acknowledgement ends the oldest request that
    waits, which is this one when no other does.  A refusal ends no request, and where
    [char] is signed nothing does: the caller is left to the timeout, and the entry
    stays. *)
Theorem Ring_answered s p cut components minutes fs k :
  stream_ready (st s) p -> is_byte components ->
  (forall n, write_ok n = true) -> loop k = between -> cancelled k = false -> socket_ k = true ->
  waiting_for_ack_ k = ringing fs ->
  let '(f, k1) := Ring components minutes k in
  exists request, written k1 = written k ++ [request] /\ f = length (futures k) /\
  wp (handle (StreamReceived p request)) (fun _ s' => exists resp reply,
    called (OS (Platform.Ring components (u16 (u8 minutes * 10)))) resp s s'
    /\ sends p reply s s' /\ stream_ready (st s') p /\
    let k2 := arrive cut reply k1 in
    loop k2 = between /\
    if negb char_is_signed && status_ok (resp_status resp)
    then futures k2 = settle (hd f fs) (Value 1) (futures k ++ [None])
         /\ waiting_for_ack_ k2 = ringing (tl (fs ++ [f]))
    else futures k2 = futures k ++ [None] /\ waiting_for_ack_ k2 = ringing (fs ++ [f])) s.
Proof.
  intros Hs Hcomp Hwr Hk Hc Hsock Hw. destruct (Ring components minutes k) as [f k1] eqn:E.
  unfold Ring, new_future, Send in E. cbn [cancelled socket_ set_waiting set_futures] in E. rewrite Hc, Hsock in E.
  cbn [orb negb] in E. rewrite Hwr in E. change (code_ok kOk) with true in E. cbv iota beta in E.
  injection E as <- <-. eexists. split; [reflexivity|]. split; [done|].
  rewrite Serialize_frame; [|done|done|by cbn [payload]; case_match; cbn; lia].
  cbn [SeekerStream.message_group SeekerStream.message_code payload].
  assert ((if negb (u8 minutes =? 0) then [components; u8 minutes] else [components])
    = ring_payload components minutes) as -> by (unfold ring_payload; by destruct (_ =? _)).
  eapply wp_mono; [by apply (stream_rings s p components minutes)|].
  intros _ s' (resp & m & Hm & Hcall & Hsend & Hready). injection Hm as Hg Hcode _.
  rewrite (response_frame_answer m) in Hsend by done. exists resp. eexists. split; [done|]. split; [exact Hsend|].
  split; [done|]. cbv zeta. set (k1 := set_written _ _).
  assert (exists g gs, fs ++ [length (futures k)] = g :: gs /\ g = hd (length (futures k)) fs
    /\ gs = tl (fs ++ [length (futures k)])) as (g & gs & Egs & Eg & Etl) by (destruct fs; cbn; eauto 10).
  assert (waiting_for_ack_ k1 = ringing (g :: gs)) as Hw1.
  { rewrite <- Egs. unfold k1. cbn [waiting_for_ack_ set_written set_waiting set_futures]. rewrite Hw.
    unfold ringing. by rewrite map_app. }
  destruct (answer_arrives cut (resp_status resp) g gs k1 Hk Hc Hw1) as (Hl & _ & H).
  split; [exact Hl|]. rewrite Egs, <- Eg. cbn [tl]. destruct (_ && _); exact H.
Qed.

End Ringing.

(** * The announcement *)
Section Announcement.
Context {C : Config} {P : Platform}.
Implicit Types s : sys client.

(** The connection takes what the provider sends. *)
Hypothesis stream_open : forall p d w, resp_status (fst (call (BT (SendMessageStream p d)) w)) = kNearbyStatusOK.

Lemma send_run p m s :
  message_ok m ->
  wp (nearby_message_stream_Send p m) (fun r s' =>
    r = kNearbyStatusOK /\ st s' = st s /\ sends p (frame (wire_of m)) s s') s.
Proof.
  intros Hm. pose proof (frame_wire_of m Hm) as Hf. destruct Hm as (_ & _ & Hl & _ & Hd).
  unfold nearby_message_stream_Send. set (header := [_; _; _; _]) in *.
  apply wp_bind, wp_hal_map_call. rewrite stream_open. cbn [status_ok andb].
  set (resp1 := fst _). set (s1 := Sys _ _ _). assert (sends p header s s1) as H1 by apply sends_one.
  destruct (Z.ltb_spec 0 (message_length m)) as [Hpos|Hz].
  - apply wp_bind. eapply wp_lift; [apply read_bytes_done; lia|]. rewrite drop_0.
    apply wp_hal_map_call. rewrite stream_open. split; [done|]. split; [done|]. rewrite Hf.
    eapply sends_trans; [exact H1|]. apply sends_one.
  - apply wp_ret. split; [done|]. split; [done|]. rewrite Hf. assert (message_length m = 0) as -> by lia.
    rewrite take_0, app_nil_r. exact H1.
Qed.

Lemma copied_prefix b x n : (n <= length b)%nat -> bytes_ok b ->
  exists b', nearby_utils_CopyBigEndian b 0 x n = Done b' /\ length b' = length b /\ bytes_ok b'
    /\ take n b' = be_bytes n x.
Proof.
  intros Hn Hb. rewrite CopyBigEndian_spec by done. rewrite write_bytes_done by (by rewrite be_bytes_length).
  eexists. split; [reflexivity|]. rewrite be_bytes_length. change (take 0 b ++ ?x) with x. split; [|split].
  - rewrite length_app, be_bytes_length, length_drop. lia.
  - apply bytes_ok_app. split; [apply be_bytes_ok|by apply bytes_ok_drop].
  - by rewrite take_app_length' by (by rewrite be_bytes_length).
Qed.

Definition information (code : Z) (payload : list Z) : wire_message :=
  WireMessage MESSAGE_GROUP_DEVICE_INFORMATION_EVENT code payload.

Lemma SendBleAddressUpdated_run p s :
  wp (SendBleAddressUpdated p) (fun r s' => r = kNearbyStatusOK /\ st s' = st s /\ exists resp,
    called (BLE GetBleAddress) resp s s' /\ (exists w, resp = fst (call (BLE GetBleAddress) w))
    /\ sends p (frame (information MESSAGE_CODE_BLE_ADDRESS_UPDATED (be_bytes 6 (u64 (resp_value resp))))) s s') s.
Proof.
  unfold SendBleAddressUpdated, ble_address_message. apply wp_bind, wp_bind, wp_uninit. intros buffer Hl Hb.
  apply wp_bind, wp_hal_map_call. set (resp := fst _). set (w := snd _).
  destruct (copied_prefix buffer (u64 (resp_value resp)) BT_ADDRESS_LENGTH)
    as (b' & E & Hl' & Hb' & Ht); [by rewrite Hl|done|].
  apply wp_bind. eapply wp_lift; [exact E|]. apply wp_ret. set (s1 := Sys _ w _).
  eapply wp_mono; [apply send_run|].
  { split; [done|]. split; [done|]. cbn. rewrite Hl', Hl. unfold BT_ADDRESS_LENGTH. split; [lia|]. split; [done|lia]. }
  intros r s' (Hr & Est & Hs). split; [done|]. split; [done|]. exists resp. split; [|split; [by eexists|]].
  - destruct Hs as (l & Hlog & _). exists (l ++ [(BLE GetBleAddress, resp)]). rewrite Hlog, <- app_assoc.
    split; [done|]. apply elem_of_app. right. apply list_elem_of_here.
  - change (information _ _) with (WireMessage MESSAGE_GROUP_DEVICE_INFORMATION_EVENT MESSAGE_CODE_BLE_ADDRESS_UPDATED
      (be_bytes BT_ADDRESS_LENGTH (u64 (resp_value resp)))). rewrite <- Ht.
    change (frame _) with ([] ++ frame (wire_of (Message MESSAGE_GROUP_DEVICE_INFORMATION_EVENT MESSAGE_CODE_BLE_ADDRESS_UPDATED
      (Z.of_nat BT_ADDRESS_LENGTH) b'))).
    eapply sends_trans; [|exact Hs]. apply sends_none. by apply ext_one.
Qed.

(** A call that sends nothing before a message is sent. *)
Lemma sends_after p K s s1 s' bytes : ext K s s1 -> (forall r, K r -> not_stream r) -> sends p bytes s1 s' -> sends p bytes s s'.
Proof.
  intros (l & Hl & HK) Hn Hs. change bytes with ([] ++ bytes). eapply sends_trans; [|exact Hs].
  apply sends_none. exists l. split; [done|]. eapply Forall_impl; [|exact HK]. intros e. apply Hn.
Qed.

Lemma sends_called p bytes r resp w s s' :
  sends p bytes (Sys (st s) w ((r, resp) :: log s)) s' -> called r resp s s'.
Proof.
  intros (l & Hlog & _). exists (l ++ [(r, resp)]). rewrite Hlog, <- app_assoc.
  split; [done|]. apply elem_of_app. right. apply list_elem_of_here.
Qed.

Lemma called_sends p bytes r resp s1 s2 s3 : called r resp s1 s2 -> sends p bytes s2 s3 -> called r resp s1 s3.
Proof.
  intros (l1 & H1 & Hin) (l2 & H2 & _). exists (l2 ++ l1). rewrite H2, H1, app_assoc.
  split; [done|]. apply elem_of_app. by right.
Qed.

Lemma called_after p bytes r resp s1 s2 s3 : sends p bytes s1 s2 -> called r resp s2 s3 -> called r resp s1 s3.
Proof.
  intros (l1 & H1 & _) (l2 & H2 & Hin). exists (l2 ++ l1). rewrite H2, H1, app_assoc.
  split; [done|]. apply elem_of_app. by left.
Qed.

(** What the provider asks about its battery. *)
Definition battery_asked : hal_request :=
  BATTERY (GetBatteryInfo (Platform.BatteryInfo false (u8 INVALID_BATTERY_LEVEL) (u8 INVALID_BATTERY_LEVEL)
    (u8 INVALID_BATTERY_LEVEL) 0)).

Definition battery_messages (resp : hal_response) : list wire_message :=
  let b := resp_battery resp in
  let level l := u8 (Z.lor (if Platform.is_charging b then BATTERY_INFO_CHARGING else BATTERY_INFO_NOT_CHARGING)
                       (Z.land (u8 l) BATTERY_LEVEL_MASK)) in
  if status_ok (resp_status resp) then
    [information MESSAGE_CODE_BATTERY_UPDATED [level (left_bud_battery_level b); level (right_bud_battery_level b);
       level (charging_case_battery_level b)]]
  else [].

Definition time_messages (resp : hal_response) : list wire_message :=
  let minutes := u16 (remaining_time_minutes (resp_battery resp)) in
  if status_ok (resp_status resp) then
    [information MESSAGE_CODE_REMAINING_BATTERY_TIME
       (if 255 <? minutes then [minutes / 256; minutes mod 256] else [minutes])]
  else [].

Lemma SendBatteryInfoMessage_run p s :
  wp (SendBatteryInfoMessage p) (fun r s' => r = kNearbyStatusOK /\ st s' = st s /\ exists resp,
    called battery_asked resp s s' /\ sends p (concat (frame <$> battery_messages resp)) s s') s.
Proof.
  unfold SendBatteryInfoMessage, PrepareBatteryInfo. apply wp_bind, wp_uninit. intros levels Hl Hb.
  destruct levels as [|x [|y [|z []]]]; try done.
  apply wp_bind, wp_bind, wp_hal_map. intros resp w. set (s1 := Sys _ w _). cbv beta iota zeta.
  assert (ext not_stream s s1) as Hx by (by apply ext_one).
  destruct (status_ok (resp_status resp)) eqn:Es; cbn [negb].
  2:{ apply wp_ret, wp_ret. split; [done|]. split; [done|]. exists resp. unfold battery_messages. rewrite Es.
      split; [|by apply sends_none]. exists [(battery_asked, resp)]. split; [done|]. apply list_elem_of_here. }
  apply wp_ret. apply wp_bind. eapply wp_lift; [reflexivity|].
  cbn [Platform.is_charging left_bud_battery_level right_bud_battery_level charging_case_battery_level].
  eapply wp_mono; [apply send_run|].
  { split; [done|]. split; [done|]. split; [done|]. split; [|done].
    repeat (apply Forall_cons_2; [apply u8_byte|]). done. }
  intros r s' (Hr & Est & Hs). split; [done|]. split; [done|]. exists resp. split; [by eapply sends_called|].
  eapply sends_after; [exact Hx|done|]. unfold battery_messages. rewrite Es.
  cbn [fmap list_fmap concat]. rewrite app_nil_r. exact Hs.
Qed.

Lemma SendBatteryTimeMessage_run p s :
  wp (SendBatteryTimeMessage p) (fun r s' => r = kNearbyStatusOK /\ st s' = st s /\ exists resp,
    called battery_asked resp s s' /\ sends p (concat (frame <$> time_messages resp)) s s') s.
Proof.
  unfold SendBatteryTimeMessage, PrepareBatteryInfo. apply wp_bind, wp_uninit. intros time Hl Hb.
  destruct time as [|x [|y []]]; try done. apply Forall_cons_1 in Hb as [_ Hb].
  apply wp_bind, wp_bind, wp_hal_map. intros resp w. set (s1 := Sys _ w _). cbv beta iota zeta.
  assert (ext not_stream s s1) as Hx by (by apply ext_one).
  destruct (status_ok (resp_status resp)) eqn:Es; cbn [negb].
  2:{ apply wp_ret, wp_ret. split; [done|]. split; [done|]. exists resp. unfold time_messages. rewrite Es.
      split; [|by apply sends_none]. exists [(battery_asked, resp)]. split; [done|]. apply list_elem_of_here. }
  apply wp_ret. cbn [remaining_time_minutes]. set (minutes := u16 _).
  pose proof (u16_range (remaining_time_minutes (resp_battery resp))) as Hm. fold minutes in Hm. cbv zeta.
  assert (forall payload rest, (length payload = 1 \/ length payload = 2)%nat -> bytes_ok payload -> bytes_ok rest ->
    wp (nearby_message_stream_Send p (Message MESSAGE_GROUP_DEVICE_INFORMATION_EVENT
          MESSAGE_CODE_REMAINING_BATTERY_TIME (Z.of_nat (length payload)) (payload ++ rest)))
      (fun r s' => r = kNearbyStatusOK /\ st s' = st s /\ exists resp', called battery_asked resp' s s' /\
         resp' = resp /\ sends p (concat (frame <$> [information MESSAGE_CODE_REMAINING_BATTERY_TIME payload])) s s') s1) as Hsend.
  { intros payload rest Hpl Hpb Hrb. eapply wp_mono; [apply send_run|].
    { split; [done|]. split; [done|]. cbn. split; [lia|]. split; [by apply bytes_ok_app|]. rewrite length_app. lia. }
    intros r s' (Hr & Est & Hs). split; [done|]. split; [done|]. exists resp. split; [by eapply sends_called|].
    split; [done|]. eapply sends_after; [exact Hx|done|]. cbn [fmap list_fmap concat]. rewrite app_nil_r.
    unfold wire_of in Hs. cbn [MessageStream.message_group MessageStream.message_code message_length message_data] in Hs.
    rewrite Nat2Z.id, take_app_length in Hs. exact Hs. }
  apply wp_bind. destruct (Z.ltb_spec 255 minutes).
  - apply wp_bind. eapply wp_lift; [reflexivity|]. apply wp_bind. eapply wp_lift; [reflexivity|]. apply wp_ret.
    cbn beta iota. eapply wp_mono; [apply (Hsend [u8 (Z.shiftr minutes 8); u8 (Z.land minutes 0xff)] [])|].
    + by right.
    + repeat (apply Forall_cons_2; [apply u8_byte|]). done.
    + by apply bytes_ok_true.
    + intros r s' (Hr & Est & resp' & Hc & -> & Hs). split; [done|]. split; [done|]. exists resp. split; [done|].
      unfold time_messages. rewrite Es. fold minutes. destruct (Z.ltb_spec 255 minutes); [|lia].
      rewrite land_255, Z.shiftr_div_pow2 in Hs by lia. change (2 ^ 8) with 256 in Hs.
      rewrite !u8_id in Hs; [exact Hs|..]; unfold is_byte.
      * apply Z.mod_pos_bound. lia.
      * split; [apply Z.div_pos; lia|apply Z.div_lt_upper_bound; lia].
  - apply wp_bind. eapply wp_lift; [reflexivity|]. apply wp_ret.
    cbn beta iota. eapply wp_mono; [apply (Hsend [u8 minutes] [y])|].
    + by left.
    + apply Forall_cons_2; [apply u8_byte|done].
    + done.
    + intros r s' (Hr & Est & resp' & Hc & -> & Hs). split; [done|]. split; [done|]. exists resp. split; [done|].
      unfold time_messages. rewrite Es. fold minutes. destruct (Z.ltb_spec 255 minutes); [lia|].
      by rewrite u8_id in Hs by (unfold is_byte; lia).
Qed.

(** The entry that a new connection takes. *)
Lemma InitRfcommInput_quiet s p i :
  is_u64 p -> (i < length (rfcomm_inputs (st s)))%nat ->
  wp (InitRfcommInput p i) (fun _ s' => ext not_stream s s' /\ exists r,
    st s' = set_rfcomm_inputs (<[i := r]> (rfcomm_inputs (st s))) (st s) /\ buf SESSION_NONCE_SIZE (session_nonce r)
    /\ at_start (input_state r) /\ input_peer_address r = p /\ space (input_state r) = 22) s.
Proof.
  intros Hp Hi. destruct (lookup_lt_is_Some_2 _ _ Hi) as [r Hr].
  unfold InitRfcommInput. apply wp_bind. unfold wp at 1. rewrite (get_input_run s i r Hr).
  apply wp_bind. eapply wp_effects; [apply rand_fill_total with (n := 8%nat); [|by apply Nat.leb_le]|].
  { split; [done|]. apply bytes_ok_replicate. unfold is_byte. lia. }
  intros nonce s1 [E1 (l & Hl & HK)] Hn. rewrite <- E1 in Hr.
  unfold update_input. apply wp_bind. unfold wp at 1. rewrite (get_input_run s1 i r Hr).
  apply wp_modify. cbn [st]. split.
  - exists l. split; [done|]. eapply Forall_impl; [|exact HK]. by intros [[] ?].
  - eexists. split; [cbn; by rewrite E1|]. split; [done|]. split; [|done].
    split; [|done]. by destruct (ok_parser _ (fresh_input_ok p nonce 0 Hp Hn)) as [[? _]|[? _]].
Qed.

Lemma find_index_taken (f g : rfcomm_input -> bool) l i r o :
  find_index f l o = Some (o + i)%nat -> (forall x, g x = true -> f x = true) -> g r = true ->
  find_index g (<[i := r]> l) o = Some (o + i)%nat.
Proof.
  intros Hf Hg Hr. revert i o Hf. induction l as [|x l IH]; intros i o Hf; [done|]. cbn [find_index] in Hf.
  destruct (f x) eqn:Ef.
  - injection Hf as Hf. assert (i = 0%nat) as -> by lia. cbn. rewrite Hr. f_equal. lia.
  - destruct i as [|i].
    { apply find_index_some in Hf as (? & ? & _). lia. }
    cbn. destruct (g x) eqn:Eg; [by rewrite Hg in Ef|].
    rewrite <- Nat.add_succ_comm in Hf |- *. by apply IH.
Qed.

(** What a new connection is told. *)
Definition announcement (model address battery time : hal_response) (nonce : list Z) : list wire_message :=
  [information MESSAGE_CODE_MODEL_ID (be_bytes 3 (u32 (resp_value model)));
   information MESSAGE_CODE_BLE_ADDRESS_UPDATED (be_bytes 6 (u64 (resp_value address)));
   information MESSAGE_CODE_SESSION_NONCE nonce]
  ++ battery_messages battery ++ time_messages time.

Lemma announce_run s p i r buffer :
  rfcomm_inputs (st s) !! i = Some r -> buf SESSION_NONCE_SIZE (session_nonce r) ->
  buf MAX_MESSAGE_STREAM_PAYLOAD_SIZE buffer ->
  wp (announce_connection p i buffer) (fun _ s' => st s' = st s /\ exists model address battery time,
    called (BT GetModelId) model s s' /\ called (BLE GetBleAddress) address s s'
    /\ (exists w, address = fst (call (BLE GetBleAddress) w))
    /\ called battery_asked battery s s' /\ called battery_asked time s s'
    /\ sends p (concat (frame <$> announcement model address battery time (session_nonce r))) s s') s.
Proof.
  intros Hr [Hnl Hnb] [Hbl Hbb]. unfold announce_connection, nearby_fp_GattReadModelId.
  apply wp_bind, wp_bind. eapply wp_lift; [reflexivity|]. apply wp_bind, wp_hal_map. intros model w.
  set (s1 := Sys _ w _). assert (ext not_stream s s1) as Hx by (by apply ext_one).
  destruct (copied_prefix buffer (u32 (resp_value model)) FP_MODEL_ID_SIZE) as (b' & E & Hl' & Hb' & Ht);
    [rewrite Hbl; by apply Nat.leb_le|done|].
  apply wp_bind. eapply wp_lift; [exact E|]. apply wp_ret. cbv beta iota zeta.
  apply wp_bind. eapply wp_mono; [apply send_run|].
  { split; [done|]. split; [done|]. cbn. rewrite Hl', Hbl. split; [done|]. split; [done|by apply Z.leb_le]. }
  intros st1 s2 (-> & E2 & Hs2). cbn [status_ok negb]. pose proof (sends_called _ _ _ _ _ _ _ Hs2) as Hmodel.
  unfold wire_of in Hs2. cbn [MessageStream.message_group MessageStream.message_code message_length message_data] in Hs2.
  rewrite Nat2Z.id, Ht in Hs2. eapply sends_after in Hs2; [|exact Hx|done].
  apply wp_bind. eapply wp_mono; [apply SendBleAddressUpdated_run|].
  intros st2 s3 (-> & E3 & address & Haddr & Haw & Hs3). cbn [status_ok negb].
  apply wp_bind. unfold wp at 1. rewrite (get_input_run s3 i r) by (by rewrite E3, E2).
  apply wp_bind. eapply wp_mono; [apply send_run|].
  { split; [done|]. split; [done|]. cbn. rewrite Hnl. split; [done|]. split; [done|]. by apply Z.leb_le. }
  intros st3 s4 (-> & E4 & Hs4). cbn [status_ok negb].
  unfold wire_of in Hs4. cbn [MessageStream.message_group MessageStream.message_code message_length message_data] in Hs4.
  rewrite take_ge in Hs4 by (by rewrite Hnl).
  apply wp_bind. eapply wp_mono; [apply SendBatteryInfoMessage_run|].
  intros st4 s5 (-> & E5 & battery & Hbat & Hs5). cbn [status_ok negb].
  apply wp_bind. eapply wp_mono; [apply SendBatteryTimeMessage_run|].
  intros st5 s6 (-> & E6 & time & Htime & Hs6). cbn [status_ok negb].
  eapply wp_mono; [apply notify_event_run|]. intros _ s7 [E7 Hx7].
  split; [rewrite E7, E6, E5, E4, E3, E2; done|]. exists model, address, battery, time.
  pose proof (sends_none p _ _ Hx7) as Hs7.
  pose proof (sends_trans _ _ _ _ _ _ Hs2 Hs3) as S3. pose proof (sends_trans _ _ _ _ _ _ S3 Hs4) as S4.
  pose proof (sends_trans _ _ _ _ _ _ S4 Hs5) as S5. pose proof (sends_trans _ _ _ _ _ _ S5 Hs6) as S6.
  split; [eauto 10 using called_sends|]. split; [eauto 10 using called_sends, called_after|]. split; [exact Haw|].
  split; [eauto 10 using called_sends, called_after|]. split; [eauto 10 using called_sends, called_after|].
  pose proof (sends_trans _ _ _ _ _ _ S6 Hs7) as S7. rewrite app_nil_r in S7.
  unfold announcement. rewrite !fmap_app, !concat_app, app_assoc. cbn [fmap list_fmap concat].
  by rewrite app_nil_r, app_assoc.
Qed.

(** ** The seeker hears it *)
Context {ct : CharType} {Sur : Surroundings}.
Import Medium SeekerMessageStream MediumLoop.

(** What the observer is told of a level. *)
Definition shown (charging : bool) (l : Z) : SeekerStream.BatteryInfo :=
  let level := Z.land (u8 l) 0x7F in
  MakeBatteryInfo charging (if level =? 0x7F then None else Some level).

Definition heard_battery (resp : hal_response) : list Note :=
  let b := resp_battery resp in
  if status_ok (resp_status resp) then
    [OnBatteryUpdated (map (shown (Platform.is_charging b))
       [left_bud_battery_level b; right_bud_battery_level b; charging_case_battery_level b])]
  else [].
Definition heard_time (resp : hal_response) : list Note :=
  if status_ok (resp_status resp)
  then [OnRemainingBatteryTime (u16 (remaining_time_minutes (resp_battery resp)))] else [].

Lemma convert_shown (charging : bool) l :
  ConvertBatteryInfo (u8 (Z.lor (if charging then BATTERY_INFO_CHARGING else BATTERY_INFO_NOT_CHARGING)
    (Z.land (u8 l) BATTERY_LEVEL_MASK))) = shown charging l.
Proof.
  unfold shown, ConvertBatteryInfo, kUnknownBatteryLevel. pose proof (u8_byte l) as Hl. cbv zeta.
  set (level := u8 (Z.lor _ _)).
  assert (Bool.eqb (negb (Z.land level 0x80 =? 0)) charging && (Z.land level 0x7F =? Z.land (u8 l) 0x7F) = true) as H.
  { unfold level. destruct charging; revert Hl; generalize (u8 l); intros b Hb.
    - by apply (byte_cases (fun b => Bool.eqb (negb (Z.land (u8 (Z.lor 0x80 (Z.land b 0x7F))) 0x80 =? 0)) true
        && (Z.land (u8 (Z.lor 0x80 (Z.land b 0x7F))) 0x7F =? Z.land b 0x7F))).
    - by apply (byte_cases (fun b => Bool.eqb (negb (Z.land (u8 (Z.lor 0 (Z.land b 0x7F))) 0x80 =? 0)) false
        && (Z.land (u8 (Z.lor 0 (Z.land b 0x7F))) 0x7F =? Z.land b 0x7F))). }
  apply andb_prop in H as [H1%Bool.eqb_prop H2%Z.eqb_eq]. rewrite H1, H2. clearbody level. f_equal.
  by destruct (Z.land (u8 l) 127 =? 127).
Qed.

(** Messages of the group are handled as such. *)
Lemma information_handled code payload k :
  0 <= code < 128 ->
  notes (handle_message (seen (information code payload)) k)
  = notes (HandleDeviceInformationEvent (MakeMessage kDeviceInformationEvent code payload) k).
Proof.
  intros Hc. unfold handle_message, seen, information. cbn [wire_group wire_code wire_payload].
  rewrite !char_int_low by (done || (vm_compute; split; congruence)).
  unfold OnReceived, HandleDeviceInformationEvent. cbn. repeat case_match; first [done|congruence].
Qed.

Lemma battery_heard resp k :
  notes (handle_all (seen <$> battery_messages resp) k) = notes k ++ heard_battery resp.
Proof.
  unfold battery_messages, heard_battery. destruct (status_ok _); [|cbn; by rewrite app_nil_r].
  cbn [fmap list_fmap handle_all fold_left]. rewrite information_handled by (vm_compute; split; congruence).
  unfold HandleDeviceInformationEvent. cbn [SeekerStream.message_code payload length map].
  change (MESSAGE_CODE_BATTERY_UPDATED) with kBatteryUpdated. cbn [notes note set_notes Z.eqb]. by rewrite !convert_shown.
Qed.

Lemma time_heard resp k : notes (handle_all (seen <$> time_messages resp) k) = notes k ++ heard_time resp.
Proof.
  unfold time_messages, heard_time. destruct (status_ok _); [|cbn; by rewrite app_nil_r].
  cbn [fmap list_fmap handle_all fold_left]. rewrite information_handled by (vm_compute; split; congruence).
  set (minutes := u16 _). pose proof (Z.div_mod minutes 256 ltac:(lia)) as E.
  unfold HandleDeviceInformationEvent. cbn [SeekerStream.message_code payload].
  change MESSAGE_CODE_REMAINING_BATTERY_TIME with kRemainingBatteryTime.
  destruct (255 <? minutes); cbn [notes note set_notes Z.eqb]; [by rewrite <- E|done].
Qed.

Lemma handle_all_app ms ms' k : handle_all (ms ++ ms') k = handle_all ms' (handle_all ms k).
Proof. apply fold_left_app. Qed.

Lemma model_heard payload k : length payload = 3%nat ->
  notes (handle_message (seen (information MESSAGE_CODE_MODEL_ID payload)) k) = notes k ++ [OnModelId payload].
Proof.
  intros Hl. rewrite information_handled by (vm_compute; split; congruence).
  unfold HandleDeviceInformationEvent. cbn [SeekerStream.message_code SeekerStream.payload]. by rewrite Hl.
Qed.

Lemma address_heard payload k : length payload = 6%nat ->
  notes (handle_message (seen (information MESSAGE_CODE_BLE_ADDRESS_UPDATED payload)) k)
  = notes k ++ [OnBleAddressUpdated (ToString payload)].
Proof.
  intros Hl. rewrite information_handled by (vm_compute; split; congruence).
  unfold HandleDeviceInformationEvent. cbn [SeekerStream.message_code SeekerStream.payload]. by rewrite Hl.
Qed.

Lemma nonce_heard payload k :
  notes (handle_message (seen (information MESSAGE_CODE_SESSION_NONCE payload)) k) = notes k.
Proof. by rewrite information_handled by (vm_compute; split; congruence). Qed.

Lemma announcement_heard model address battery time nonce k :
  notes (handle_all (seen <$> announcement model address battery time nonce) k)
  = notes k ++ [OnModelId (be_bytes 3 (u32 (resp_value model)));
                OnBleAddressUpdated (ToString (be_bytes 6 (u64 (resp_value address))))]
      ++ heard_battery battery ++ heard_time time.
Proof.
  unfold announcement. rewrite !fmap_app, !handle_all_app, time_heard, battery_heard, <- !app_assoc.
  rewrite (app_assoc (notes k)). f_equal. cbn [fmap list_fmap handle_all fold_left].
  rewrite nonce_heard, address_heard, model_heard, <- app_assoc by apply be_bytes_length. done.
Qed.

(** Its frames are read whatever the signedness of [char]. *)
Lemma information_ok code payload :
  is_byte code -> bytes_ok payload -> (length payload <= 8)%nat ->
  wire_ok (information code payload)
  /\ length_readable (length (wire_payload (information code payload)))
  /\ stays_open (seen (information code payload)).
Proof.
  intros Hc Hb Hl. cbn [wire_payload information]. split; [|split].
  - split; [done|]. split; [done|]. split; [done|]. cbn. unfold MAX_WIRE_PAYLOAD. lia.
  - apply small_readable; [rewrite Z.div_small; lia|rewrite Z.mod_small; lia].
  - right. cbn. rewrite char_int_low by (vm_compute; split; congruence). done.
Qed.

Lemma announcement_ok model address battery time nonce :
  buf SESSION_NONCE_SIZE nonce ->
  Forall (fun w => wire_ok w /\ length_readable (length (wire_payload w)) /\ stays_open (seen w))
    (announcement model address battery time nonce).
Proof.
  intros [Hl Hb]. unfold announcement. apply Forall_app. split; [|apply Forall_app; split].
  - repeat apply Forall_cons_2; [| | |done]; apply information_ok; try done; try apply be_bytes_ok;
      rewrite ?be_bytes_length, ?Hl; unfold SESSION_NONCE_SIZE; lia.
  - unfold battery_messages. destruct (status_ok _); [|done]. apply Forall_singleton. apply information_ok; [done| |cbn; lia].
    repeat (apply Forall_cons_2; [apply u8_byte|]). done.
  - unfold time_messages. destruct (status_ok _); [|done]. apply Forall_singleton. set (minutes := u16 _).
    pose proof (u16_range (remaining_time_minutes (resp_battery time))) as Hm. fold minutes in Hm.
    pose proof (Z.mod_pos_bound minutes 256 ltac:(lia)).
    assert (0 <= minutes / 256 < 256) by (split; [apply Z.div_pos|apply Z.div_lt_upper_bound]; lia).
    destruct (Z.ltb_spec 255 minutes); apply information_ok; try done; try (cbn; lia);
      repeat (apply Forall_cons_2; [unfold is_byte; lia|]); done.
Qed.

(** The connection is announced; only the connection table changes. *)
Lemma announcement_run s p cut k :
  is_u64 p -> (INVALID_PEER_ADDRESS ∈ peers (st s) \/ p ∈ peers (st s)) ->
  loop k = between -> cancelled k = false ->
  wp (handle (StreamConnected p)) (fun _ s' => stream_ready (st s') p /\ (exists l, st s' = set_rfcomm_inputs l (st s))
    /\ exists model address battery time bytes,
    called (BT GetModelId) model s s' /\ called (BLE GetBleAddress) address s s'
    /\ (exists w, address = fst (call (BLE GetBleAddress) w))
    /\ called battery_asked battery s s' /\ called battery_asked time s s' /\ sends p bytes s s' /\
    let k' := arrive cut bytes k in
    loop k' = between /\
    notes k' = notes k ++ [OnModelId (be_bytes 3 (u32 (resp_value model)));
                           OnBleAddressUpdated (ToString (be_bytes 6 (u64 (resp_value address))))]
      ++ heard_battery battery ++ heard_time time) s.
Proof.
  intros Hp Hfree Hk Hc. cbn [handle]. unfold OnMessageStreamConnected. apply wp_bind, wp_uninit. intros buffer Hbl Hbb.
  unfold FindAvailableRfcommInput. apply wp_bind, wp_bind, wp_gets.
  destruct (find_index _ _ _) as [i|] eqn:Ef.
  2:{ exfalso. assert (exists r, r ∈ rfcomm_inputs (st s) /\
        (input_peer_address r =? INVALID_PEER_ADDRESS) || (input_peer_address r =? p) = true) as (r & Hr & Hb).
      { unfold peers in Hfree. destruct Hfree as [H|H]; apply list_elem_of_fmap in H as (r & E & Hr); exists r;
          (split; [done|]); rewrite <- E, Z.eqb_refl; [done|apply orb_true_r]. }
      by rewrite (find_index_none _ _ _ r Ef Hr) in Hb. }
  pose proof Ef as Ei. apply find_index_some in Ei as (r0 & _ & Hr0 & _). rewrite Nat.sub_0_r in Hr0.
  apply wp_bind. eapply wp_mono; [apply InitRfcommInput_quiet; [done|by eapply lookup_lt_Some]|].
  intros _ s1 (Hx & r & Es1 & Hn & Hat & Hpeer & Hsp).
  assert (rfcomm_inputs (st s1) = <[i := r]> (rfcomm_inputs (st s))) as Hins by (by rewrite Es1). apply wp_ret.
  assert (rfcomm_inputs (st s1) !! i = Some r) as Hr
    by (rewrite Hins; apply list_lookup_insert_eq; by eapply lookup_lt_Some).
  eapply wp_mono; [by apply (announce_run s1 p i r buffer)|].
  intros _ s2 [E2 (model & address & battery & time & H1 & H2 & Haw & H3 & H4 & Hs)].
  split.
  { exists i, r. rewrite E2. split; [|split; [done|split; [done|lia]]]. rewrite Hins.
    apply (find_index_taken _ _ _ i r 0 Ef); [|by apply Z.eqb_eq]. intros x ->. apply orb_true_r. }
  split; [eexists; by rewrite E2, Es1|].
  exists model, address, battery, time. eexists. pose proof (sends_none p _ _ Hx) as Hs0.
  split; [by eapply called_after|]. split; [by eapply called_after|]. split; [exact Haw|]. split; [by eapply called_after|].
  split; [by eapply called_after|]. split; [by eapply (sends_after p not_stream)|]. cbv zeta.
  apply announcement_ok with (model := model) (address := address) (battery := battery) (time := time) in Hn.
  rewrite arrive_frames; [|by eapply Forall_impl; [|exact Hn]; intros ? [??]..|done|done].
  split; [done|]. apply announcement_heard.
Qed.

(** C20. What the provider announces to a new connection is what the seeker's observer is
    told.  The provider takes a free entry for the peer and sends its model id, its BLE
    address, a session nonce and, if the platform knows its battery, the levels and the
    time left; the seeker, reading these bytes in pieces of any size, reports the
    same model id, the address in its printed form, for each component whether it is
    charging and its level (or that it is unknown) and the minutes left, in this order,
    and waits for the next message; the provider's parser is ready for a request. *)
Theorem Announcement_heard s p cut k :
  is_u64 p -> (INVALID_PEER_ADDRESS ∈ peers (st s) \/ p ∈ peers (st s)) ->
  loop k = between -> cancelled k = false ->
  wp (handle (StreamConnected p)) (fun _ s' => stream_ready (st s') p /\ exists model address battery time bytes,
    called (BT GetModelId) model s s' /\ called (BLE GetBleAddress) address s s'
    /\ called battery_asked battery s s' /\ called battery_asked time s s' /\ sends p bytes s s' /\
    let k' := arrive cut bytes k in
    loop k' = between /\
    notes k' = notes k ++ [OnModelId (be_bytes 3 (u32 (resp_value model)));
                           OnBleAddressUpdated (ToString (be_bytes 6 (u64 (resp_value address))))]
      ++ heard_battery battery ++ heard_time time) s.
Proof.
  intros Hp Hf Hk Hc. eapply wp_mono; [by apply (announcement_run s p cut k)|].
  intros _ s' (Hr & _ & model & address & battery & time & bytes & H1 & H2 & _ & H3). split; [done|].
  by exists model, address, battery, time, bytes.
Qed.

(** ** Active components *)

Lemma response_handled cut b k :
  is_byte b -> loop k = between -> cancelled k = false ->
  let k' := arrive cut (frame (information MESSAGE_CODE_ACTIVE_COMPONENT_RESPONSE [b])) k in
  cancelled k' = cancelled k /\
  match get_active_components_request_ k with
  | Some f => futures k' = settle f (Value b) (futures k) /\ get_active_components_request_ k' = None
  | None => futures k' = futures k /\ get_active_components_request_ k' = None
  end.
Proof.
  intros Hb Hk Hc. set (w := information _ _).
  assert (bytes_ok [b]) as Hbs by (apply Forall_singleton; done).
  pose proof (information_ok MESSAGE_CODE_ACTIVE_COMPONENT_RESPONSE [b] ltac:(done) Hbs ltac:(cbn; lia)) as Hok.
  fold w in Hok. rewrite <- (app_nil_r (frame w)). change (frame w ++ []) with (concat (frame <$> [w])).
  rewrite arrive_frames; [|apply Forall_singleton; tauto..|done|done].
  cbn [fmap list_fmap handle_all fold_left]. unfold handle_message, seen, w, information.
  cbn [wire_group wire_code wire_payload]. rewrite !char_int_low by (vm_compute; split; congruence).
  cbn. split; [by destruct (get_active_components_request_ k)|]. by destruct (get_active_components_request_ k) eqn:E; cbn; rewrite ?E.
Qed.

(** The answer to [GetActiveComponents] reaches the caller when it comes after the
    future is stored.  The future is stored after the request is sent, by another thread
    than the one that reads: an answer that comes in between is dropped, and the caller
    is left to the timeout. *)
Theorem ActiveComponents_order cut b k :
  is_byte b -> (forall n, write_ok n = true) -> loop k = between -> cancelled k = false -> socket_ k = true ->
  get_active_components_request_ k = None ->
  let '(status, f, k1) := GetActiveComponents_send k in
  let reply := frame (information MESSAGE_CODE_ACTIVE_COMPONENT_RESPONSE [b]) in
  status = kOk /\ written k1 = written k ++ [frame (information MESSAGE_CODE_ACTIVE_COMPONENT_REQUEST [])] /\
  futures (arrive cut reply (GetActiveComponents_store status f k1)) !! f = Some (Some (Value b)) /\
  futures (GetActiveComponents_store status f (arrive cut reply k1)) !! f = Some None.
Proof.
  intros Hb Hwr Hk Hc Hsock Hreq. unfold GetActiveComponents_send, new_future, Send.
  cbn [cancelled socket_ set_futures]. rewrite Hc, Hsock. cbn [orb negb]. rewrite Hwr. cbv beta iota zeta.
  split; [done|]. split; [done|]. set (k1 := set_written _ _). set (f := length (futures k)).
  assert (futures k1 !! f = Some None) as Hf
    by (change (futures k1) with (futures k ++ [None]); by apply list_lookup_middle).
  split.
  - set (k2 := GetActiveComponents_store kOk f k1).
    assert (get_active_components_request_ k2 = Some f) as Hr2 by done.
    assert (futures k2 = futures k1) as Hf2 by (unfold k2, GetActiveComponents_store; cbn; by rewrite Hreq).
    assert (cancelled k2 = false /\ loop k2 = between) as [Hc2 Hl2]
      by (unfold k2, GetActiveComponents_store; cbn; by rewrite Hreq).
    destruct (response_handled cut b k2 Hb Hl2 Hc2) as [_ H]. rewrite Hr2 in H. destruct H as [-> _].
    rewrite Hf2. unfold settle. rewrite Hf. apply list_lookup_insert_eq. by eapply lookup_lt_Some.
  - destruct (response_handled cut b k1 Hb Hk Hc) as [_ H]. cbn [get_active_components_request_ k1] in H.
    replace (get_active_components_request_ k1) with (@None nat) in H by done. destruct H as [H1 H2].
    unfold GetActiveComponents_store. rewrite H2. change (code_ok kOk) with true. cbv iota.
    cbn [futures set_active_components_request]. by rewrite H1.
Qed.

End Announcement.

(** * A stream on the test platform *)
Section Witness.
#[local] Existing Instance sass_config.
#[local] Existing Instance first_boot_platform.
#[local] Existing Instance unsigned_char.
Import Medium SeekerMessageStream MediumLoop.

#[local] Instance test_surroundings : Surroundings := {| write_ok := fun _ => true; on_ring := fun _ _ => true |}.

(** Three bytes at a time. *)
Definition test_cut (n : nat) : nat := 3.

Definition connected_stream : Stream :=
  fold_left (fun k e => stream_step e k) [OpenRfcommCall; RunOpen true; ConnectReturns true] (new_stream true true).

Definition streaming_sys : @sys first_boot_platform client :=
  match handle (StreamConnected 7) (@Sys first_boot_platform client (client_0 (C:=sass_config)) test_world_0 []) with
  | Done (_, s) => s
  | _ => @Sys first_boot_platform client client_0 test_world_0 []
  end.

Lemma streaming_ready : stream_ready (st streaming_sys) 7.
Proof.
  exists 0%nat. eexists. split; [vm_compute; reflexivity|]. split; [vm_compute; reflexivity|].
  split; [|vm_compute; discriminate]. split; [|vm_compute; reflexivity].
  split; vm_compute; repeat split; try discriminate. by apply bytes_ok_true.
Qed.

Example Ring_answered_witness :
  let '(f, k1) := Ring 3 5 connected_stream in
  exists request, written k1 = written connected_stream ++ [request] /\ f = length (futures connected_stream) /\
  wp (handle (StreamReceived 7 request)) (fun _ s' => exists resp reply,
    called (OS (Platform.Ring 3 (u16 (u8 5 * 10)))) resp streaming_sys s'
    /\ sends 7 reply streaming_sys s' /\ stream_ready (st s') 7 /\
    let k2 := arrive test_cut reply k1 in
    loop k2 = between /\
    if negb char_is_signed && status_ok (resp_status resp)
    then futures k2 = settle (hd f []) (Value 1) (futures connected_stream ++ [None])
         /\ waiting_for_ack_ k2 = ringing (tl ([] ++ [f]))
    else futures k2 = futures connected_stream ++ [None] /\ waiting_for_ack_ k2 = ringing ([] ++ [f])) streaming_sys.
Proof.
  apply (Ring_answered streaming_sys 7 test_cut 3 5 [] connected_stream).
  - exact streaming_ready.
  - by unfold is_byte.
  - reflexivity.
  - reflexivity.
  - reflexivity.
  - reflexivity.
  - reflexivity.
Defined.

Example Announcement_heard_witness :
  let s := @Sys first_boot_platform client (client_0 (C:=sass_config)) test_world_0 [] in
  wp (handle (StreamConnected 7)) (fun _ s' => stream_ready (st s') 7 /\ exists model address battery time bytes,
    called (BT GetModelId) model s s' /\ called (BLE GetBleAddress) address s s'
    /\ called battery_asked battery s s' /\ called battery_asked time s s' /\ sends 7 bytes s s' /\
    let k' := arrive test_cut bytes connected_stream in
    loop k' = between /\
    notes k' = notes connected_stream ++ [OnModelId (be_bytes 3 (u32 (resp_value model)));
                           OnBleAddressUpdated (ToString (be_bytes 6 (u64 (resp_value address))))]
      ++ heard_battery battery ++ heard_time time) s.
Proof.
  apply (Announcement_heard (P:=first_boot_platform)).
  - reflexivity.
  - by unfold is_u64.
  - left. vm_compute. apply list_elem_of_here.
  - reflexivity.
  - reflexivity.
Defined.

Example ActiveComponents_order_witness :
  let '(status, f, k1) := GetActiveComponents_send connected_stream in
  let reply := frame (information MESSAGE_CODE_ACTIVE_COMPONENT_RESPONSE [3]) in
  status = kOk
  /\ written k1 = written connected_stream ++ [frame (information MESSAGE_CODE_ACTIVE_COMPONENT_REQUEST [])] /\
  futures (arrive test_cut reply (GetActiveComponents_store status f k1)) !! f = Some (Some (Value 3)) /\
  futures (GetActiveComponents_store status f (arrive test_cut reply k1)) !! f = Some None.
Proof.
  apply (ActiveComponents_order test_cut 3 connected_stream).
  - by unfold is_byte.
  - reflexivity.
  - reflexivity.
  - reflexivity.
  - reflexivity.
  - reflexivity.
Defined.

(** The bytes of the announcement in pieces of three, and what the observer is told. *)
Example announcement_notes :
  notes (arrive test_cut (stream_data 7 (log streaming_sys)) connected_stream) =
  [OnConnectionResult kOk; OnModelId [0x10; 0x11; 0x12];
   OnBleAddressUpdated (BluetoothAddress.CanonicalizeBluetoothAddress [0; 0; 0xBA; 0xBA; 0xBA; 0xBA]);
   OnBatteryUpdated [MakeBatteryInfo true (Some 85); MakeBatteryInfo true (Some 80); MakeBatteryInfo true (Some 90)];
   OnRemainingBatteryTime 100].
Proof. vm_compute. reflexivity. Qed.

End Witness.

(** Where [char] is signed, a length with a byte of 128 or more is misread: a message of
    128 bytes ends the loop, and of a message of 384 bytes the first 128 are taken for
    the whole. *)
Example signed_lengths :
  MediumLoop.message_length (ct:=signed_char) 0 128 = -128
  /\ MediumLoop.message_length (ct:=signed_char) 1 128 = 128
  /\ MediumLoop.message_length (ct:=unsigned_char) 1 128 = 384.
Proof. vm_compute. auto. Qed.
