(* ===== verification/InteropRetroactive.v ===== *)
(** A retroactive pairing between the seeker ([SeekerRetroactive], C++) and the provider
    ([ClientRetroactive], C).  The devices have been paired by Bluetooth alone; the
    provider announces itself on the message stream, the seeker fetches its
    anti-spoofing key, asks for a retroactive pairing and writes an account key, which
    the provider stores.  All parts take part: the provider's handlers, its message
    stream, the seeker's message stream, controller and GATT client. *)

From Stdlib Require Import ZArith Lia.
From stdpp Require Import base list numbers.
From S2P Require Import Prelude Utils Platform SecureElement TestPlatform Crypto AccountKeys.
From S2P Require Import MessageStream Advertisement CryptoSafety AdvertisementSafety.
From S2P Require Import ClientState ClientAdvertising ClientPairing ClientStream.
From S2P Require Import ClientInvariant ClientAdvertisingSafety ClientPairingSafety.
From S2P Require Import ClientStreamSafety Client ClientTheorems ClientAcceptance ClientPairingRun ClientSass.
From S2P Require Import ClientRetroactive.
From S2P Require Import CppBase SeekerData SeekerHandshake SeekerSafety SeekerStream SeekerRetroactive.
From S2P Require Import InteropAdvertisement InteropPairing InteropStream.
Import Utils.

Open Scope Z_scope.
Open Scope fp_scope.

(** * The stream and the controller *)
Section Feed.
Context {ct : CharType} {O : OpenSSL} {K : OpenSSLKeys} {Stk : Stack} {Sur : Surroundings}.
Import MediumLoop Retroactive.
Implicit Types r : Retro.

(** The bytes reach the stream of the seeker in pieces, as in [feed]; the controller is
    told of each message as it is complete. *)
Fixpoint retro_feed (fuel : nat) (cut : nat -> nat) (input : list Z) r : outcome Retro :=
  match fuel, input, message_stream_ r with
  | S fuel, _ :: _, Some k =>
    let n := Nat.min (Nat.max 1 (cut (length input))) (wanted k) in
    if (n =? 0)%nat then Done r else
    let! r := retro_step (StreamDoes (ReadReturns (Ok (take n input)))) r in
    retro_feed fuel cut (drop n input) r
  | _, _, _ => Done r
  end.
Definition retro_arrive (cut : nat -> nat) (input : list Z) r : outcome Retro :=
  retro_feed (length input) cut input r.

(** What the provider announces. *)
Definition is_announcement (n : Note) : Prop :=
  match n with
  | OnModelId _ | OnBleAddressUpdated _ | OnBatteryUpdated _ | OnRemainingBatteryTime _ => True
  | _ => False
  end.

(** Such a message does not make the controller touch the stream. *)
Lemma SetPairingStep_fetch_stream k r :
  SetPairingStep kFetchAntiSpoofingKey (set_message_stream k r)
  = (let! r := SetPairingStep kFetchAntiSpoofingKey r in Done (set_message_stream k r)).
Proof.
  rewrite !SetPairingStep_unfold. change (pairing_step_ (set_message_stream k r)) with (pairing_step_ r).
  destruct (decide _); [done|]. set (r1 := set_pairing_step _ (ExitPairingStep (pairing_step_ r) r)).
  assert (set_pairing_step kFetchAntiSpoofingKey (ExitPairingStep (pairing_step_ r) (set_message_stream k r))
    = set_message_stream k r1) as -> by (unfold r1; by destruct (pairing_step_ r)).
  clearbody r1. cbn [EnterPairingStep]. unfold GetDataEncryptor, CreateDataEncryptor, Handshake.CreateAsync,
    Handshake.CreateAsyncWithKeyExchange, Handshake.CreateAsyncWithAccountKey, SetDataEncryptor, AddEncryptorListener.
  change (encryptor_ (set_message_stream k r1)) with (encryptor_ r1).
  change (retro_device (set_encryptor ?x (set_message_stream k r1))) with (retro_device r1).
  destruct (encryptor_ r1) as [[]|] eqn:E; cbn; rewrite ?E; try done.
  change (retro_device (set_encryptor ?x r1)) with (retro_device r1).
  destruct (metadata_ (retro_device r1)) eqn:Em; cbn; [|done].
  change (device_ (retro_client r1)) with (retro_device r1). rewrite Em.
  destruct (protocol_ _); cbn; try done. by destruct (negb _).
Qed.

Lemma OnNote_stream n k r :
  is_announcement n ->
  OnNote n (set_message_stream k r) = (let! r := OnNote n r in Done (set_message_stream k r)).
Proof.
  intros Hn.
  assert (forall r, on_model_id_or_address SetPairingStep (set_message_stream k r)
    = (let! r := on_model_id_or_address SetPairingStep r in Done (set_message_stream k r))) as H.
  { intros r'. unfold on_model_id_or_address.
    change (retro_device (set_message_stream k r')) with (retro_device r').
    cbn [alive pairing_step_ model_id_ set_message_stream].
    destruct (alive r'); [|done]. cbn [negb]. destruct (decide _); [|done].
    destruct (ble_address_ _), (model_id_ r'); try done. apply SetPairingStep_fetch_stream. }
  destruct n; try done; cbn [OnNote].
  - set (r1 := set_model_id _ r). change (set_model_id _ (set_message_stream k r)) with (set_message_stream k r1).
    cbn [model_id_observers_ set_message_stream]. destruct (model_id_observers_ r1); [apply H|done].
  - set (r1 := set_retro_device _ r).
    change (set_retro_device _ (set_message_stream k r)) with (set_message_stream k r1).
    cbn [address_rotation_observers_ set_message_stream]. destruct (address_rotation_observers_ r1); [apply H|done].
Qed.

Lemma OnNotes_stream ns k r :
  Forall is_announcement ns ->
  OnNotes ns (set_message_stream k r) = (let! r := OnNotes ns r in Done (set_message_stream k r)).
Proof.
  intros H. revert r. induction H as [|n ns Hn _ IH]; intros r; cbn [OnNotes]; [done|].
  rewrite OnNote_stream by done. destruct (OnNote n r); cbn; [apply IH|done|done].
Qed.

Lemma OnNotes_app ns ns' r : OnNotes (ns ++ ns') r = (let! r := OnNotes ns r in OnNotes ns' r).
Proof.
  revert r. induction ns as [|n ns IH]; intros r; cbn [app OnNotes]; [done|].
  rewrite outcome_bind_assoc. destruct (OnNote n r); cbn; [apply IH|done|done].
Qed.

(** The observer is only ever told more. *)
Lemma OnReceived_notes m k : exists ns, notes (SeekerMessageStream.OnReceived m k) = notes k ++ ns.
Proof.
  unfold SeekerMessageStream.OnReceived, SeekerMessageStream.HandleAcknowledgement, SeekerMessageStream.HandleBluetooth,
    SeekerMessageStream.HandleCompanionAppEvent, SeekerMessageStream.HandleDeviceInformationEvent,
    SeekerMessageStream.HandleDeviceActionEvent, SeekerMessageStream.SendAcknowledgement,
    SeekerMessageStream.FinishCall, Medium.Send.
  cbn. repeat case_match; simplify_eq; cbn; eauto using app_nil_r; by exists []; rewrite app_nil_r.
Qed.

Lemma RunLoop_end_notes k : exists ns, notes (RunLoop_end k) = notes k ++ ns.
Proof. unfold RunLoop_end. cbn. destruct (cancelled k); cbn; [exists []; by rewrite app_nil_r|by eexists]. Qed.

Lemma RunLoop_payload_notes g c n o k : exists ns, notes (RunLoop_payload g c n o k) = notes k ++ ns.
Proof.
  unfold RunLoop_payload, RunLoop_message. destruct o; [exists []; by rewrite app_nil_r| |apply RunLoop_end_notes].
  destruct (negb _); [apply RunLoop_end_notes|]. set (k1 := set_received _ k).
  destruct (OnReceived_notes (MakeMessage g c bytes) k1) as [ns Hns]. change (notes k1) with (notes k) in Hns.
  set (k2 := SeekerMessageStream.OnReceived _ k1) in *. unfold RunLoop. destruct (cancelled k2).
  - destruct (RunLoop_end_notes k2) as [ns' H]. exists (ns ++ ns'). by rewrite H, Hns, app_assoc.
  - by exists ns.
Qed.

Lemma on_read_notes c k : exists ns, notes (on_read c k) = notes k ++ ns.
Proof.
  assert (forall k', notes k' = notes k -> exists ns, notes k' = notes k ++ ns) as H0
    by (intros k' ->; exists []; by rewrite app_nil_r).
  unfold on_read. destruct (loop k); try (by apply H0); [|apply RunLoop_payload_notes].
  destruct (Medium.ReadExactly_turn r c) as [|b|]; [by apply H0| |apply RunLoop_end_notes].
  unfold RunLoop_header. destruct b as [|? [|? [|? [|? []]]]]; try apply RunLoop_end_notes.
  apply RunLoop_payload_notes.
Qed.

Lemma feed_notes fuel cut : forall input k, exists ns, notes (feed fuel cut input k) = notes k ++ ns.
Proof.
  induction fuel as [|fuel IH]; intros input k; [exists []; by rewrite app_nil_r|]. cbn [feed].
  destruct input as [|b input]; [exists []; by rewrite app_nil_r|]. set (n := Nat.min _ _).
  destruct (n =? 0)%nat; [exists []; by rewrite app_nil_r|].
  destruct (on_read_notes (Ok (take n (b :: input))) k) as [ns1 H1].
  destruct (IH (drop n (b :: input)) (on_read (Ok (take n (b :: input))) k)) as [ns2 H2].
  exists (ns1 ++ ns2). by rewrite H2, H1, app_assoc.
Qed.

Lemma set_stream_same k r : message_stream_ r = Some k -> set_message_stream (Some k) r = r.
Proof. intros <-. by destruct r. Qed.

(** The controller sees the messages in order, whatever the pieces. *)
Lemma retro_feed_notes fuel cut : forall input r k ns,
  message_stream_ r = Some k -> notes (feed fuel cut input k) = notes k ++ ns -> Forall is_announcement ns ->
  retro_feed fuel cut input r = OnNotes ns (set_message_stream (Some (feed fuel cut input k)) r).
Proof.
  induction fuel as [|fuel IH]; intros input r k ns Hk Hns Ha.
  { cbn [feed retro_feed] in *. rewrite <- (app_nil_r (notes k)) in Hns at 1. apply app_inv_head in Hns as <-.
    by rewrite set_stream_same. }
  cbn [feed retro_feed] in *. rewrite Hk. destruct input as [|b input].
  { rewrite <- (app_nil_r (notes k)) in Hns at 1. apply app_inv_head in Hns as <-. by rewrite set_stream_same. }
  set (n := Nat.min _ _) in *. destruct (n =? 0)%nat.
  { rewrite <- (app_nil_r (notes k)) in Hns at 1. apply app_inv_head in Hns as <-. by rewrite set_stream_same. }
  set (c := take n (b :: input)) in *. set (rest := drop n (b :: input)) in *. cbn [retro_step].
  unfold stream_does. rewrite Hk. cbn [stream_step].
  destruct (on_read_notes (Ok c) k) as [ns1 H1]. set (k1 := on_read (Ok c) k) in *.
  destruct (feed_notes fuel cut rest k1) as [ns2 H2]. set (kf := feed fuel cut rest k1) in *.
  rewrite H2, H1, <- app_assoc in Hns. apply app_inv_head in Hns as <-. apply Forall_app in Ha as [Ha1 Ha2].
  rewrite H1, drop_app_length, OnNotes_app, !OnNotes_stream by done.
  destruct (OnNotes ns1 r) as [r'| |]; cbn [mbind outcome_bind]; [|done|done].
  rewrite (IH rest (set_message_stream (Some k1) r') k1 ns2) by done. done.
Qed.
End Feed.

(** * The seeker's steps *)
Section SeekerSteps.
Context {C : Config} {P : Platform} {Aes : AesSpec P} {Sha : Sha256Spec P}.
Context {K : OpenSSLKeys} {Kspec : OpenSSLKeysSpec K} {Stk : Stack} {ct : CharType} {Sur : Surroundings}.
#[local] Existing Instance openssl.
Import FastPairCrypto GattServiceClient Handshake MediumLoop Retroactive.

(** The device as the seeker knows it: paired by Bluetooth, with its public address. *)
Definition paired_only (d : FastPairDevice) : Prop :=
  protocol_ d = kFastPairRetroactivePairing /\ ble_address_ d = [] /\ metadata_ d = None
  /\ exists address, public_address_ d = Some address.

Definition fresh_client (d : FastPairDevice) : Seeker :=
  MakeSeeker d false false false false false false None None false false [] false false
    false false false false [] false false 0 0 [].

(** The stream is connected and the seeker waits for the announcement. *)
Definition open_stream : Stream := stream_step (ConnectReturns true) (stream_step (RunOpen true)
  (stream_step OpenRfcommCall (new_stream true true))).
Definition waiting_announcement (d : FastPairDevice) (mac : list Z) (k : Stream) : Retro :=
  MakeRetro (fresh_client d) [] (Some k) kOk true true true None false false true mac
    kWaitForModelIdAndBleAddress None [] true.

Lemma seeker_opens d mac :
  paired_only d ->
  retro_steps [PairCall; StreamDoes (RunOpen true); StreamDoes (ConnectReturns true)]
    (new_retroactive d [] mac true) = Done (waiting_announcement d mac open_stream).
Proof.
  intros (Hp & Hb & Hm & address & Ha). destruct d. cbn in Hp, Hb, Hm, Ha. subst. vm_compute. reflexivity.
Qed.

(** It has heard the announcement and waits for the metadata. *)
Definition waiting_metadata (d : FastPairDevice) (mac address model : list Z) (k : Stream) : Retro :=
  MakeRetro (fresh_client (SetBleAddress address d)) (BluetoothAddress.BytesToHexString model) (Some k) kOk
    true false false (Some (Pending 1)) true false true mac kFetchAntiSpoofingKey None [] true.

Lemma seeker_hears d mac model address ns k :
  paired_only d -> model <> [] -> address <> [] ->
  Forall (fun n => match n with OnBatteryUpdated _ | OnRemainingBatteryTime _ => True | _ => False end) ns ->
  OnNotes ([OnModelId model; OnBleAddressUpdated address] ++ ns) (waiting_announcement d mac k)
  = Done (waiting_metadata d mac address model k).
Proof.
  intros (Hp & Hb & Hm & pa & Ha) Hmo Had Hns.
  assert (forall r, OnNotes ns r = Done r) as Hrest.
  { clear - Hns. induction Hns as [|n ns Hn _ IH]; intros r; [done|]. destruct n; try done; apply IH. }
  rewrite OnNotes_app.
  replace (OnNotes [_; _] _) with (Done (waiting_metadata d mac address model k)); [apply Hrest|].
  unfold waiting_metadata. cbn [OnNotes OnNote]. set (hex := BluetoothAddress.BytesToHexString model).
  assert (hex <> []) as Hhex by (by destruct model).
  clearbody hex. destruct hex; [done|]. destruct address; [done|].
  destruct d. cbn in Hp, Hb, Hm, Ha. subst. reflexivity.
Qed.

(** The data encryptor of the seeker: its first key pair. *)
Definition retro_encryptor (key : list Z) : option DataEncryptor :=
  (fun p => MakeEncryptor (shared_secret_key p) (Some (FastPairCrypto.public_key p)))
    <$> GenerateKeysWithEcdhKeyAgreement 0 key.

Definition retro_message (e : DataEncryptor) (address mac : list Z) : list Z :=
  EncryptBytes (shared_secret_key_ e) (CreateRequest (RAND_bytes 0) 0 kRetroactiveFlags address mac)
  ++ match public_key_ e with Some p => p | None => [] end.

Definition asked_client (d : FastPairDevice) (request : list Z) : Seeker :=
  MakeSeeker d true true true true false false None None false false [] false false
    false false false false [clear_current_state false] false false 1 1
    [ConnectToGattServer; CallRemoteFunction kKeyBasedCharacteristicIndex request].
Definition waiting_answer (d : FastPairDevice) (mac model : list Z) (e : DataEncryptor) (request : list Z) (k : Stream)
  : Retro :=
  MakeRetro (asked_client d request) model (Some k) kOk true false false (Some (Settled (Some e))) false true true mac
    kSendKeyBasedPairingRequest None [] true.

Lemma seeker_asks d mac model address k key e :
  paired_only d -> retro_encryptor key = Some e ->
  let d' := SetMetadata key (SetBleAddress address d) in
  retro_steps [MetadataReady (Some key); RunListener; RunListener] (waiting_metadata d mac address model k)
  = Done (waiting_answer d' mac (BluetoothAddress.BytesToHexString model) e (retro_message e address mac) k).
Proof.
  intros (Hp & Hb & Hm & pa & Ha) He. unfold waiting_metadata. set (hex := BluetoothAddress.BytesToHexString model).
  clearbody hex. destruct d. cbn in Hp, Hb, Hm, Ha. subst. unfold retro_encryptor in He.
  destruct (GenerateKeysWithEcdhKeyAgreement 0 key) as [p|] eqn:Ep; [|done]. injection He as <-.
  lazy -[GenerateKeysWithEcdhKeyAgreement retro_message CreateRequest EncryptBytes openssl]. rewrite Ep. reflexivity.
Qed.

(** The account key the seeker makes up. *)
Definition retro_account_key : list Z := CreateAccountKeyBlock (RAND_bytes 1).
Definition wrote_client (d : FastPairDevice) (e : DataEncryptor) (request : list Z) : Seeker :=
  MakeSeeker d true true true true false true (Some retro_account_key) None false false [] false false
    false false false false [] false false 2 1
    [ConnectToGattServer; CallRemoteFunction kKeyBasedCharacteristicIndex request;
     WriteCharacteristic kAccountKeyCharacteristicIndex (EncryptBytes (shared_secret_key_ e) retro_account_key)].
Definition waiting_write (d : FastPairDevice) (mac model : list Z) (e : DataEncryptor) (request : list Z) (k : Stream)
  : Retro :=
  MakeRetro (wrote_client d e request) model (Some k) kOk true false false (Some (Settled (Some e))) false true true mac
    kSendAccountKeyToProvider None [] true.

Lemma seeker_answered d mac model e request k value :
  exists r, retro_step (RequestAnswered (Ok value)) (waiting_answer d mac model e request k) = Done r
    /\ retro_steps [RunClientJob; RunClientJob] r = Done (waiting_write d mac model e request k).
Proof. eexists. split; [reflexivity|]. lazy -[CreateAccountKeyBlock EncryptBytes openssl]. reflexivity. Qed.

Lemma seeker_succeeds d mac model e request k :
  exists r, retro_steps [KeyWritten kOk; RunClientJob] (waiting_write d mac model e request k) = Done r
    /\ retro_device r = SetAccountKey retro_account_key d /\ pairing_step_ r = kSuccess
    /\ pairing_result_ r = Some kOk /\ executor_ (retro_client r) = [] /\ retro_executor_ r = []
    /\ message_stream_ r = Some k.
Proof.
  eexists. split; [lazy -[CreateAccountKeyBlock EncryptBytes openssl retro_account_key SetAccountKey]; reflexivity|].
  repeat split.
Qed.

Lemma retro_account_key_ok :
  length retro_account_key = 16%nat /\ bytes_ok retro_account_key /\ retro_account_key !! 0%nat = Some 4.
Proof.
  unfold retro_account_key, CreateAccountKeyBlock. pose proof (RAND_bytes_length 1) as Hl.
  split; [by rewrite length_insert|]. split; [apply bytes_ok_insert; [apply RAND_bytes_ok|done]|].
  apply list_lookup_insert_eq. lia.
Qed.

(** The block of the request. *)
Lemma retro_block random address mac a b :
  length random = 16%nat -> length a = 6%nat -> length b = 6%nat ->
  BluetoothAddress.ParseBluetoothAddress address stack_bytes = (true, a) ->
  BluetoothAddress.ParseBluetoothAddress mac stack_bytes = (true, b) -> mac <> [] ->
  CreateRequest random 0 kRetroactiveFlags address mac = [0; 0x10] ++ a ++ b ++ drop 14 random.
Proof.
  intros Hr Ha Hb Hpa Hpb Hm. unfold CreateRequest. rewrite Hpa, Hpb. destruct mac as [|c mac]; [done|].
  do 16 (destruct random as [|? random]; [done|]). do 6 (destruct a as [|? a]; [done|]).
  do 6 (destruct b as [|? b]; [done|]). destruct a, b; done.
Qed.
End SeekerSteps.

(** * Both sides *)
Section RetroDuet.
Context {C : Config} {P : Platform} {Aes : AesSpec P} {Sha : Sha256Spec P} {N : NotifySpec P}.
Context {B : BitmapSpec C P} {St : StoredListSpec C P} {Sec : SecretSpec P}.
Context {K : OpenSSLKeys} {Kspec : OpenSSLKeysSpec K} {Stk : Stack} {ct : CharType} {Sur : Surroundings}.
#[local] Existing Instance openssl.
Import FastPairCrypto GattServiceClient Handshake MediumLoop Retroactive.

(** The turns: a step of the seeker; an event of the provider; the provider announces
    the connection of [a] and its bytes reach the seeker, cut into pieces; the request
    or the write the seeker has just asked its GATT client for reaches the provider
    from the address [p].  As in [duet], the environment of the provider is arbitrary in
    each turn but for its condition. *)
Inductive RetroTurn : Type :=
| RetroDoes (e : RetroEvent)
| ProviderMeets (e : event)
| Announces (a : Z) (cut : nat -> nat)
| Asks (p : Z)
| Writes (p : Z) (T : sys client -> Prop).

Definition retro_output (r : Retro) : option Output := head (rev (output (retro_client r))).

Fixpoint retro_duet (ts : list RetroTurn) (Q : sys client -> Retro -> Prop) (s : sys client) (r : Retro) : Prop :=
  match ts with
  | [] => Q s r
  | RetroDoes e :: ts => exists r', retro_step e r = Done r' /\ retro_duet ts Q s r'
  | ProviderMeets e :: ts => forall w, wp (handle e) (fun _ s' => retro_duet ts Q s' r) (Sys (st s) w (log s))
  | Announces a cut :: ts => forall w, let s := Sys (st s) w (log s) in
      wp (handle (StreamConnected a)) (fun _ s' => exists bytes r',
        sends a bytes s s' /\ retro_arrive cut bytes r = Done r' /\ retro_duet ts Q s' r') s
  | Asks p :: ts =>
    match retro_output r with
    | Some (CallRemoteFunction c request) => forall w, let s := Sys (st s) w (log s) in
        wp (handle (GattWrite p (characteristic c) request)) (fun _ s' => exists value resp r',
          called (BLE (GattNotify p (characteristic c) value)) resp s s'
          /\ retro_step (RequestAnswered (Ok value)) r = Done r' /\ retro_duet ts Q s' r') s
    | _ => False
    end
  | Writes p T :: ts =>
    match retro_output r with
    | Some (WriteCharacteristic c value) => forall w, let s := Sys (st s) w (log s) in
        T s -> wp (handle (GattWrite p (characteristic c) value)) (fun _ s' => retro_duet ts Q s' r) s
    | _ => False
    end
  end.

Lemma retro_duet_steps es ts Q s r r' :
  retro_steps es r = Done r' -> retro_duet ts Q s r' -> retro_duet (map RetroDoes es ++ ts) Q s r.
Proof.
  revert r. induction es as [|e es IH]; intros r H HQ; cbn [retro_steps map app retro_duet] in *.
  - by injection H as ->.
  - apply bind_done_inv in H as (r1 & H1 & H). exists r1. split; [done|]. by apply IH.
Qed.

(** The provider's BLE address does not change during the pairing, and its connection
    takes what it sends. *)
Variables v : Z.
Hypothesis ble_is : forall w, u64 (resp_value (fst (call (BLE GetBleAddress) w))) = v.
Hypothesis stream_open : forall p d w, resp_status (fst (call (BT (SendMessageStream p d)) w)) = kNearbyStatusOK.

(** The entry of [p] is not older than a minute. *)
Definition entry_in_time (p : Z) (s : sys client) : Prop :=
  forall x, only_entry p x (retroactive_pairing_list (st s)) -> retro_in_time x s.

Definition retro_turns (p a : Z) (cut : nat -> nat) (key : list Z) : list RetroTurn :=
  ProviderMeets (Paired a)
  :: map RetroDoes [PairCall; StreamDoes (RunOpen true); StreamDoes (ConnectReturns true)]
  ++ Announces a cut
  :: map RetroDoes [MetadataReady (Some key); RunListener; RunListener]
  ++ Asks p
  :: map RetroDoes [RunClientJob; RunClientJob]
  ++ Writes p (entry_in_time p)
  :: map RetroDoes [KeyWritten kOk; RunClientJob].

(** The provider derives the seeker's key from its request and reads its block. *)
Lemma retro_message_public key e address mac a :
  agrees key -> retro_encryptor key = Some e -> 0 <= a < 2 ^ 48 ->
  BluetoothAddress.ParseBluetoothAddress address stack_bytes = (true, be_bytes 6 v) ->
  BluetoothAddress.ParseBluetoothAddress mac stack_bytes = (true, be_bytes 6 a) -> mac <> [] ->
  let request := retro_message e address mac in
  let raw := public_request (shared_secret_key_ e) request in
  bytes_ok request /\ length request = 80%nat /\ session_secret request = Some (shared_secret_key_ e)
  /\ take 6 (drop 2 raw) = be_bytes 6 v /\ retroactive_request raw kRetroactiveFlags a.
Proof.
  intros Hag He Ha Hpa Hpm Hm request raw.
  set (d := MakeDevice [] kFastPairInitialPairing (Some key) None []).
  assert (device_encryptor d = Some e) as Hd.
  { unfold device_encryptor, retro_encryptor in *. cbn. by destruct (GenerateKeysWithEcdhKeyAgreement 0 key). }
  destruct (first_encryptor d key e eq_refl eq_refl Hag Hd) as (pub & secret & Hpub & Hpl & Hpb & _ & Hsec & Hk).
  set (block := [0; 0x10] ++ be_bytes 6 v ++ be_bytes 6 a ++ drop 14 (RAND_bytes 0)).
  assert (length block = 16%nat) as Hbl
    by (unfold block; rewrite !length_app, !be_bytes_length, length_drop, RAND_bytes_length; done).
  assert (bytes_ok block) as Hbb.
  { unfold block. rewrite !bytes_ok_app. split; [by apply bytes_ok_true|]. split; [apply be_bytes_ok|].
    split; [apply be_bytes_ok|apply bytes_ok_drop, RAND_bytes_ok]. }
  assert (request = aes (shared_secret_key_ e) block ++ pub) as Er.
  { unfold request, retro_message. rewrite Hpub. unfold block.
    rewrite (retro_block _ _ _ (be_bytes 6 v) (be_bytes 6 a)) by (done || apply RAND_bytes_length || apply be_bytes_length).
    done. }
  assert (raw = block) as Eraw.
  { unfold raw, public_request, ENCRYPTED_REQUEST_LENGTH. rewrite Er, take_app_length' by (by rewrite aes_length).
    by apply aes_inv_aes. }
  rewrite Eraw, Er. split; [apply bytes_ok_app; split; [apply aes_ok|done]|].
  split; [by rewrite length_app, aes_length, Hpl|]. split.
  { unfold session_secret, ENCRYPTED_REQUEST_LENGTH, PUBLIC_KEY_LENGTH.
    rewrite drop_app_length' by (by rewrite aes_length). rewrite take_ge by (rewrite Hpl; done).
    rewrite Hsec. cbn. by rewrite Hk. }
  split; [unfold block; change (drop 2 ([0; 0x10] ++ ?x)) with x; by apply take_app_length'|].
  split; [done|]. split; [done|]. split; [done|].
  unfold block, KBPR_SEEKER_ADDRESS_OFFSET. change (drop 8 ([0; 0x10] ++ ?x)) with (drop 6 x).
  rewrite drop_app_length' by (by rewrite be_bytes_length). rewrite take_app_length' by (by rewrite be_bytes_length).
  rewrite be_value_be_bytes. by apply Z.mod_small.
Qed.

(** The notes of the announcement. *)
Lemma heard_announcement battery time :
  Forall (fun n => match n with OnBatteryUpdated _ | OnRemainingBatteryTime _ => True | _ => False end)
    (heard_battery battery ++ heard_time time).
Proof. unfold heard_battery, heard_time. do 2 destruct (status_ok _); repeat constructor. Qed.

Lemma printed_address :
  existsb (fun b => negb (b =? 0)) (be_bytes 6 v) = true ->
  SeekerMessageStream.ToString (be_bytes 6 v) = BluetoothAddress.CanonicalizeBluetoothAddress (be_bytes 6 v).
Proof.
  intros H. unfold SeekerMessageStream.ToString. rewrite be_bytes_length. cbn [Nat.eqb negb].
  destruct (forallb _ _) eqn:E; [|done]. apply existsb_exists in H as (b & Hin & Hb).
  rewrite forallb_forall in E. apply E in Hin. by rewrite Hin in Hb.
Qed.

Lemma canonical_nonempty bytes : length bytes = 6%nat -> BluetoothAddress.CanonicalizeBluetoothAddress bytes <> [].
Proof. destruct bytes; [done|]. done. Qed.

(** The seeker connects and hears the announcement of the provider, which has listed it. *)
Lemma retro_announced a s d mac cut ts Q :
  client_ok (st s) -> is_u64 a -> (INVALID_PEER_ADDRESS ∈ peers (st s) \/ a ∈ peers (st s)) ->
  existsb (fun b => negb (b =? 0)) (be_bytes 6 v) = true -> paired_only d ->
  (forall s' l model k, client_ok (st s') -> st s' = set_rfcomm_inputs l (st s) -> ext request_ok s s' ->
     retro_duet ts Q s' (waiting_metadata d mac
       (BluetoothAddress.CanonicalizeBluetoothAddress (be_bytes 6 v)) model k)) ->
  retro_duet (Announces a cut :: ts) Q s (waiting_announcement d mac open_stream).
Proof.
  intros Hc Ha Hpeers Hv Hd Hrest w s0.
  eapply wp_mono; [apply (wp_conj _ _ _ _
    (with_invariant (StreamConnected a) s0 (fun _ => True) Ha Hc ltac:(eapply wp_mono;
      [by apply (announcement_run stream_open s0 a cut open_stream)|done]))
    (announcement_run stream_open s0 a cut open_stream Ha Hpeers eq_refl eq_refl))|].
  intros _ s1 [(H1 & Hx1 & _) (_ & (l & El) & model & address & battery & time & bytes & _ & _ & [w1 ->] & _ & _ & Hs & Hk & Hn)].
  rewrite ble_is, printed_address in Hn by done. exists bytes. eexists. split; [done|]. split.
  - unfold retro_arrive. rewrite (retro_feed_notes _ cut bytes (waiting_announcement d mac open_stream) open_stream _ eq_refl Hn).
    + change (set_message_stream ?k _) with (waiting_announcement d mac (feed (length bytes) cut bytes open_stream)).
      apply seeker_hears; [done|done|apply canonical_nonempty, be_bytes_length|apply heard_announcement].
    + apply Forall_cons_2; [done|]. apply Forall_cons_2; [done|].
      eapply Forall_impl; [|exact (heard_announcement battery time)]. by intros [].
  - by eapply Hrest.
Qed.

(** The request and the key: the provider knows the seeker as the peer of the entry [x]. *)
Lemma retro_granted p a s d model mac k key e x L ts Q :
  client_ok (st s) -> is_u64 p -> pairing_failure_count (st s) < MAX_PAIRING_FAILURE_COUNT ->
  retroactive (st s) p = false -> listed_peer a (retroactive_pairing_list (st s)) = Some x ->
  abs_list (account_key_list (st s)) = L -> 0 <= a < 2 ^ 48 -> agrees key -> retro_encryptor key = Some e ->
  BluetoothAddress.ParseBluetoothAddress mac stack_bytes = (true, be_bytes 6 a) -> mac <> [] ->
  let address := BluetoothAddress.CanonicalizeBluetoothAddress (be_bytes 6 v) in
  let request := retro_message e address mac in
  (forall s', ext request_ok s s' ->
     abs_list (account_key_list (st s')) = lru_add (retro_account_key, if NEARBY_FP_ENABLE_SASS then p else 0) L ->
     list_saved (account_key_list (st s')) s s' ->
     retro_duet ts Q s' (waiting_write d mac model e request k)) ->
  retro_duet (Asks p :: map RetroDoes [RunClientJob; RunClientJob] ++ Writes p (entry_in_time p) :: ts) Q s
    (waiting_answer d mac model e request k).
Proof.
  intros Hc Hp Hf Hr Hx HL Ha Hag He Hmac Hm address request Hrest.
  destruct (retro_message_public key e address mac a Hag He Ha) as (Hrb & Hrl & Hsec & Hname & Hreq);
    [apply parse_canonical; [apply be_bytes_length|apply be_bytes_ok|apply stack_bytes_length]|done|done|].
  fold request in Hrb, Hrl, Hsec, Hname, Hreq. intros w s0.
  eapply wp_mono; [apply (retro_requested s0 p request (shared_secret_key_ e) kRetroactiveFlags a x); try done|].
  { left. unfold ble_address. by rewrite ble_is. }
  intros _ s1 (H1 & Hx1 & status & response & resp & _ & _ & _ & _ & Hcall & _).
  exists (aes (shared_secret_key_ e) response), resp.
  destruct (seeker_answered d mac model e request k (aes (shared_secret_key_ e) response)) as (r1 & Hr1 & Hsteps).
  exists r1. split; [done|]. split; [done|].
  eapply retro_duet_steps; [exact Hsteps|]. intros w2 s2 Ht.
  destruct (retro_account_key_ok (K:=K)) as (Hkl & Hkb & Hk4).
  assert (retro_session p (set_le p x) (shared_secret_key_ e) L (st s2)) as H2 by (by rewrite <- HL).
  eapply wp_mono; [apply (retro_key_written s2 p (set_le p x) (shared_secret_key_ e) L
      (aes (shared_secret_key_ e) retro_account_key)); [done|done|by apply Ht, H2|apply aes_ok|apply aes_length|by rewrite aes_inv_aes]|].
  rewrite aes_inv_aes by done. intros _ s3 (_ & Hx3 & Habs & resp' & Hsv).
  apply Hrest; [by eapply ext_trans; [exact Hx1|exact Hx3]|done|]. exists resp'. by eapply ext_called; [exact Hx1|].
Qed.

(** C7. A retroactive pairing of the seeker (C++) and the provider (C) of this
    repository.  The devices are paired by Bluetooth alone, and the provider lists the
    seeker's public address, has room for a peer in its tables, is not locked out by
    failures, and has no other pairing under way.  The seeker opens the message stream, reads the
    provider's announcement in pieces of any size, fetches the anti-spoofing key of the
    announced model, agrees on a session key and asks for a retroactive pairing in its
    own name; the provider recognises the listed peer and answers; the seeker writes a
    new account key.  If the key comes within a minute, the seeker reports success, the
    account key it keeps is the most recently used key of the provider, and the
    provider has saved its list. *)
Theorem Retroactive_pairing_interoperates p a s d mac cut key e :
  client_ok (st s) -> is_u64 p -> 0 <= a < 2 ^ 48 -> p <> INVALID_PEER_ADDRESS -> a <> INVALID_PEER_ADDRESS -> p <> a ->
  pairing_failure_count (st s) < MAX_PAIRING_FAILURE_COUNT ->
  pairing_state (st s) <> kPairingStateWaitingForPairingResult -> pending_account_key_info (st s) = zero_key_info ->
  retroactive (st s) p = false -> retroactive (st s) a = false ->
  listed_peer INVALID_PEER_ADDRESS (retroactive_pairing_list (st s)) <> None ->
  (INVALID_PEER_ADDRESS ∈ peers (st s) \/ a ∈ peers (st s)) ->
  existsb (fun b => negb (b =? 0)) (be_bytes 6 v) = true ->
  paired_only d -> mac = BluetoothAddress.CanonicalizeBluetoothAddress (be_bytes 6 a) ->
  agrees key -> retro_encryptor key = Some e ->
  retro_duet (retro_turns p a cut key) (fun s' r' =>
    pairing_result_ r' = Some kOk /\ pairing_step_ r' = kSuccess
    /\ executor_ (retro_client r') = [] /\ retro_executor_ r' = []
    /\ account_key_ (retro_device r') !! 0%nat = Some 4
    /\ abs_list (account_key_list (st s'))
       = lru_add (account_key_ (retro_device r'), if NEARBY_FP_ENABLE_SASS then p else 0)
           (abs_list (account_key_list (st s)))
    /\ list_saved (account_key_list (st s')) s s') s (new_retroactive d [] mac true).
Proof.
  intros Hc Hp Ha Hpi Hai Hpa Hf Hs Hpk Hrp Hra Hfree Hpeers Hv Hd Hmac Hag He.
  assert (is_u64 a) as Ha64 by (unfold is_u64; lia). unfold retro_turns. intros w. set (s0 := Sys _ w _).
  assert (listed_peer a (retroactive_pairing_list (st s0)) = None) as Hna.
  { destruct (listed_peer a _) eqn:E; [|done]. apply listed_retroactive in E. cbn in E. congruence. }
  eapply wp_mono; [eapply (with_invariant (Paired a) s0); [done|done|by apply Paired_listed]|].
  intros _ s1 (H1 & Hx1 & t & l & E1 & Hadd). cbn [st] in E1.
  eapply retro_duet_steps; [by apply seeker_opens|].
  apply (retro_announced a s1 d mac cut); [done|done|by rewrite E1|done|done|].
  intros s2 inputs model k H2 E2 Hx2. rewrite E1 in E2. destruct Hadd as [(x & Hx & _) _ Honly].
  eapply retro_duet_steps; [by apply seeker_asks|].
  apply (retro_granted p a s2) with (key := key) (x := x) (L := abs_list (account_key_list (st s)));
    try done; try (by rewrite E2).
  - rewrite E2. by apply Honly.
  - rewrite Hmac. apply parse_canonical; [apply be_bytes_length|apply be_bytes_ok|apply stack_bytes_length].
  - rewrite Hmac. apply canonical_nonempty, be_bytes_length.
  - intros s3 Hx3 Habs [resp Hsv]. set (r := waiting_write _ _ _ _ _ _).
    edestruct seeker_succeeds as (r' & Hr' & Hdev & Hstep & Hres & He1 & He2 & _).
    rewrite <- (app_nil_r (map RetroDoes _)). eapply retro_duet_steps; [exact Hr'|]. cbn [retro_duet].
    rewrite Hdev, Hstep, Hres. destruct (retro_account_key_ok (K:=K)) as (_ & _ & Hk4).
    split; [done|]. split; [done|]. split; [done|]. split; [done|]. split; [done|]. split; [done|].
    exists resp. eapply (ext_called request_ok); [|exact Hsv].
    eapply ext_trans; [exact Hx1|exact Hx2].
Qed.
End RetroDuet.

(** * A retroactive pairing on the test platform *)
Section Witness.
#[local] Existing Instance sass_config.
#[local] Existing Instance unsigned_char.
#[local] Existing Instance openssl.
Import FastPairCrypto GattServiceClient Handshake MediumLoop Retroactive.

(** The test platform in the state of the first boot, with an address that does not
    rotate. *)
Definition steady_platform : Platform := {|
  world := test_world;
  call := fun r w => match r with
    | BLE GetBleAddress => (value_response test_address, w)
    | PERSISTENCE (LoadValue kStoredKeyAccountKeyList _) => (ok_response, w)
    | _ => test_call r w
    end;
  garbage := fun _ n => replicate n 0xEE;
|}.

#[local] Instance steady_stored C : StoredListSpec C steady_platform.
Proof. intros n w. by left. Qed.
#[local, program] Instance steady_aes : AesSpec steady_platform := {|
  aes := toy_aes;
  aes_inv := toy_aes;
  aes_length := toy_aes_length;
  aes_ok := toy_aes_ok;
  aes_inv_length := toy_aes_length;
  aes_inv_ok := toy_aes_ok;
  aes_inv_aes := toy_aes_inv;
|}.
Solve Obligations with done.
#[local, program] Instance steady_sha256 : Sha256Spec steady_platform := {|
  sha256 := toy_sha256;
  sha256_length := toy_sha256_length;
  sha256_ok := toy_sha256_ok;
  hashed := tw_hashed;
|}.
Solve Obligations with done.
#[local, program] Instance steady_secret : SecretSpec steady_platform := {|
  shared_secret := fun k => Some (fit 32 k);
|}.
Next Obligation. intros pk d [= <-]. apply fit_length. Qed.
Next Obligation. intros pk d [= <-]. apply fit_ok. Qed.
Next Obligation. done. Qed.
#[local] Instance steady_bitmap C : BitmapSpec C steady_platform.
Proof. intros _ n w. cbn. lia. Qed.
#[local] Instance steady_notify : NotifySpec steady_platform.
Proof. done. Qed.
#[local] Instance retro_test_surroundings : Surroundings := {| write_ok := fun _ => true; on_ring := fun _ _ => true |}.
#[local] Instance retro_test_stack : Stack := {| stack_bytes := replicate 6 0xEE; stack_bytes_length := eq_refl |}.

(** One key, whose public point the platform agrees on. *)
#[local] Instance retro_test_keys : OpenSSLKeys := {|
  RAND_bytes := fun n => replicate 16 (u8 (Z.of_nat n + 1));
  ec_key := unit;
  EC_KEY_generate_key := fun _ => Some tt;
  EC_POINT_point2oct := fun _ => Some (4 :: replicate 64 1);
  EC_POINT_oct2point := fun _ => true;
  ECDH_shared := fun _ _ => Some (fit 32 (replicate 64 1));
|}.
#[local] Instance retro_test_keys_spec : OpenSSLKeysSpec retro_test_keys.
Proof.
  split.
  - done.
  - intros n. apply (Forall_replicate is_byte 16 (u8 (Z.of_nat n + 1))), u8_byte.
  - intros _ oct [= <-]. by apply bytes_ok_true.
Qed.

Definition test_mac : list Z :=
  BluetoothAddress.CanonicalizeBluetoothAddress (be_bytes 6 ClientPairingRun.seeker_address).
Definition paired_device : FastPairDevice :=
  MakeDevice [] kFastPairRetroactivePairing None
    (Some (BluetoothAddress.CanonicalizeBluetoothAddress (be_bytes 6 0xA0A1A2A3A4A5))) [].
Definition steady_sys : @sys steady_platform client :=
  @Sys steady_platform client (client_0 (C:=sass_config)) test_world_0 [].

Lemma retro_test_agrees : agrees (P:=steady_platform) (replicate 64 7).
Proof. intros [] oct secret [= <-] [= <-]. reflexivity. Qed.

Example Retroactive_pairing_interoperates_witness :
  retro_duet (retro_turns 7 ClientPairingRun.seeker_address test_cut (replicate 64 7)) (fun s' r' =>
    pairing_result_ r' = Some kOk /\ pairing_step_ r' = kSuccess
    /\ executor_ (retro_client r') = [] /\ retro_executor_ r' = []
    /\ account_key_ (retro_device r') !! 0%nat = Some 4
    /\ abs_list (account_key_list (st s'))
       = lru_add (account_key_ (retro_device r'), if NEARBY_FP_ENABLE_SASS then 7 else 0)
           (abs_list (account_key_list (st steady_sys)))
    /\ list_saved (account_key_list (st s')) steady_sys s') steady_sys (new_retroactive paired_device [] test_mac true).
Proof.
  apply (Retroactive_pairing_interoperates (P:=steady_platform) test_address ltac:(done) ltac:(done)
    7 ClientPairingRun.seeker_address steady_sys paired_device test_mac test_cut (replicate 64 7) found_encryptor).
  - exact client_0_ok.
  - unfold is_u64. lia.
  - unfold ClientPairingRun.seeker_address. lia.
  - discriminate.
  - discriminate.
  - discriminate.
  - reflexivity.
  - discriminate.
  - reflexivity.
  - reflexivity.
  - reflexivity.
  - vm_compute. discriminate.
  - left. vm_compute. apply list_elem_of_here.
  - reflexivity.
  - split; [done|]. split; [done|]. split; [done|]. by eexists.
  - reflexivity.
  - exact retro_test_agrees.
  - vm_compute. reflexivity.
Defined.

(** The events of the seeker in such a run. *)
Definition retro_events : list RetroEvent :=
  [PairCall; StreamDoes (RunOpen true); StreamDoes (ConnectReturns true);
   StreamDoes (ReadReturns (Ok [3; 1; 0; 3])); StreamDoes (ReadReturns (Ok [0x10; 0x11; 0x12]));
   StreamDoes (ReadReturns (Ok [3; 2; 0; 6])); StreamDoes (ReadReturns (Ok (be_bytes 6 test_address)));
   MetadataReady (Some (replicate 64 7)); RunListener; RunListener;
   RequestAnswered (Ok (replicate 16 0)); RunClientJob; RunClientJob; KeyWritten kOk; RunClientJob].

#[local] Existing Instance steady_platform.
Example Retroactive_success_key_written_witness :
  exists r, retro_steps retro_events (new_retroactive paired_device [] test_mac true) = Done r /\
  exists e m, metadata_ (retro_device r) = Some m /\ agreed m e
    /\ WriteCharacteristic kAccountKeyCharacteristicIndex
         (EncryptBytes (shared_secret_key_ e) (account_key_ (retro_device r))) ∈ output (retro_client r).
Proof.
  eexists. split; [vm_compute; reflexivity|].
  apply (Retroactive_success_key_written paired_device [] test_mac true retro_events).
  - reflexivity.
  - vm_compute. reflexivity.
  - reflexivity.
Defined.

(** Runs that do not end well.  A connection attempt that fails, or a model the
    repository does not know, leaves the pairing without a result and with nothing
    under way. *)
Definition stuck (r : Retro) : bool :=
  match pairing_result_ r, retro_executor_ r, executor_ (retro_client r) with
  | None, [], [] => negb (metadata_requested r)
  | _, _, _ => false
  end.

Example failed_connection_stuck :
  match retro_steps [PairCall; StreamDoes (RunOpen true); StreamDoes (ConnectReturns false)]
    (new_retroactive paired_device [] test_mac true) with
  | Done r => stuck r = true /\ pairing_step_ r = kOpenMessageStream
  | _ => False
  end.
Proof. vm_compute. done. Qed.

Example unknown_model_stuck :
  match retro_steps (take 7 retro_events ++ [MetadataReady None]) (new_retroactive paired_device [] test_mac true) with
  | Done r => stuck r = true /\ pairing_step_ r = kFetchAntiSpoofingKey
  | _ => False
  end.
Proof. vm_compute. done. Qed.

(** When the address and the model id are known as the stream is connected, the
    address observer is added after the step that removes it; it stays when the pairing
    is destroyed, and the next message with an address uses it. *)
Example dangling_observer :
  let d := SetBleAddress test_mac paired_device in
  let es := [PairCall; StreamDoes (RunOpen true); StreamDoes (ConnectReturns true); DestroyCall] in
  match retro_steps es (new_retroactive d [0x31] test_mac true) with
  | Done r => address_rotation_observers_ r = true /\ alive r = false
  | _ => False
  end /\
  retro_steps (es ++ [StreamDoes (ReadReturns (Ok [3; 2; 0; 6])); StreamDoes (ReadReturns (Ok (be_bytes 6 test_address)))])
    (new_retroactive d [0x31] test_mac true) = Fault.
Proof. vm_compute. done. Qed.
End Witness.
