(* ===== verification/BleData.v ===== *)
(** The data of the BLE medium of Nearby Connections, after
    src/connections/implementation/mediums/ble_v2 (ble_advertisement,
    ble_advertisement_header, ble_packet, bloom_filter, ble_utils), with the streams over
    a byte array they are read with (src/internal/platform/base_input_stream) and
    the identifiers of src/internal/platform/uuid.h.

    A [ByteArray] or [std::string] is the list of its bytes.  A class is a record, its
    constructor from parts a function [new_...], its constructor from bytes
    [..._of_bytes] and its conversion to bytes [..._bytes]; an object that is not valid
    keeps the members that were set before the constructor returned.  A version is the
    number of its enumerator, since any three bits can be read as one.  The hash
    functions, Base64 and the protocol buffers of the control frames are parameters. *)

From Stdlib Require Import ZArith Lia.
From stdpp Require Import base list numbers.
From S2P Require Import Prelude Utils CppBase.

Open Scope Z_scope.
Open Scope fp_scope.

(** * Streams over a byte array *)
Module BaseInputStream.

(** [ByteArray::CopyAt] with a source offset. *)
Definition CopyAt (offset : nat) (from : list Z) (source_offset : nat) (data : list Z) : bool * list Z :=
  if (length data <=? offset)%nat then (false, data) else
  if (length from <=? source_offset)%nat then (false, data) else
  let n := Nat.min (length data - offset) (length from - source_offset) in
  (true, take offset data ++ take n (drop source_offset from) ++ drop (offset + n) data).

Record BaseInputStream : Type := MakeInput { buffer_ : list Z; position_ : Z }.
Implicit Types s : BaseInputStream.

Definition new_input (buffer : list Z) : BaseInputStream := MakeInput buffer 0.

(** The comparison is one of [size_t]. *)
Definition IsAvailable (size : Z) s : bool :=
  u64 size <=? u64 (Z.of_nat (length (buffer_ s)) - position_ s).

Definition Read (size : Z) s : option (list Z) * BaseInputStream :=
  if negb (IsAvailable (s32 size) s) then (None, s) else
  let read_bytes := replicate (Z.to_nat size) 0 in
  let '(copied, read_bytes) := CopyAt 0 (buffer_ s) (Z.to_nat (position_ s)) read_bytes in
  if copied then (Some read_bytes, MakeInput (buffer_ s) (position_ s + size)) else (None, s).

Definition ReadBytes (size : Z) s : list Z * BaseInputStream :=
  let '(result, s) := Read size s in (default [] result, s).

Section Integers.
Context {ct : CharType}.

Definition ReadUint8 s : Z * BaseInputStream :=
  let '(read_bytes, s) := ReadBytes 1 s in
  match read_bytes with
  | [b] => (u8 (char_int b), s)
  | _ => (u8 (-1), s)
  end.

(** A [char] is converted to the unsigned type before it is shifted. *)
Definition ReadUint16 s : Z * BaseInputStream :=
  let '(read_bytes, s) := ReadBytes 2 s in
  match read_bytes with
  | [b0; b1] => (u16 (Z.lor (Z.shiftl (u16 (char_int b0)) 8) (u16 (char_int b1))), s)
  | _ => (u16 (-1), s)
  end.

Definition ReadUint32 s : Z * BaseInputStream :=
  let '(read_bytes, s) := ReadBytes 4 s in
  match read_bytes with
  | [b0; b1; b2; b3] =>
    (Z.lor (Z.lor (Z.lor (u32 (Z.shiftl (u32 (char_int b0)) 24)) (u32 (Z.shiftl (u32 (char_int b1)) 16)))
       (u32 (Z.shiftl (u32 (char_int b2)) 8))) (u32 (char_int b3)), s)
  | _ => (u32 (-1), s)
  end.
End Integers.
End BaseInputStream.

(** * Identifiers *)
Module Uuids.
Record Uuid : Type := MakeUuid { most_sig_bits_ : Z; least_sig_bits_ : Z }.
#[export] Instance Uuid_eq_dec : EqDecision Uuid.
Proof. solve_decision. Defined.

Definition no_uuid : Uuid := MakeUuid 0 0.
Definition IsEmpty (u : Uuid) : bool := (most_sig_bits_ u =? 0) && (least_sig_bits_ u =? 0).

(** [operator<] *)
Definition uuid_less (u v : Uuid) : bool :=
  if most_sig_bits_ u =? most_sig_bits_ v then least_sig_bits_ u <? least_sig_bits_ v
  else most_sig_bits_ u <? least_sig_bits_ v.

Definition kCopresenceServiceUuid : Uuid := MakeUuid 0x0000FEF300001000 0x800000805F9B34FB.
Definition kAdvertisementUuidMsb : Z := 0x0000000000003000.
Definition kAdvertisementUuidLsb : Z := 0x8000000000000000.

Definition GenerateAdvertisementUuid (slot : Z) : option Uuid :=
  if slot <? 0 then None else Some (MakeUuid kAdvertisementUuidMsb (u64 (Z.lor kAdvertisementUuidLsb slot))).
End Uuids.

(** * Hashes *)

(** [Crypto::Sha256], and the lower 64 bits of [MurmurHash3_x64_128] with the seed 0. *)
Class Hashes : Type := {
  Sha256 : list Z -> list Z;
  MurmurHash3_low64 : list Z -> Z;
}.
Class HashesSpec (H : Hashes) : Prop := {
  Sha256_length : forall m, length (Sha256 m) = 32%nat;
  Sha256_ok : forall m, bytes_ok (Sha256 m);
}.

(** [absl::WebSafeBase64Escape] and [WebSafeBase64Unescape]. *)
Class Base64 : Type := {
  WebSafeBase64Escape : list Z -> list Z;
  WebSafeBase64Unescape : list Z -> option (list Z);
}.
Class Base64Spec (B : Base64) : Prop := {
  unescape_escape : forall l, bytes_ok l -> WebSafeBase64Unescape (WebSafeBase64Escape l) = Some l;
}.

(** The flag kEnableBleV2. *)
Class BleFlags : Type := { kEnableBleV2 : bool }.

Section Hashing.
Context {H : Hashes}.
Definition Sha256Hash (source : list Z) (length : nat) : list Z :=
  snd (BaseInputStream.CopyAt 0 (Sha256 source) 0 (replicate length 0)).
End Hashing.

Definition Base64_Encode {B : Base64} (bytes : list Z) : list Z := WebSafeBase64Escape bytes.
Definition Base64_Decode {B : Base64} (base64_string : list Z) : list Z :=
  default [] (WebSafeBase64Unescape base64_string).

(** * Bloom filters *)
Module BloomFilter.

(** [BitSetImpl]: position [i] of the [std::bitset] is the [i]-th element; [set] and
    [test] throw on a position outside it. *)
Notation BitSet := (list bool).
Definition new_bits (capacity_in_bytes : nat) : BitSet := replicate (capacity_in_bytes * 8) false.
Definition bits_Set (pos : nat) (v : bool) (bits : BitSet) : outcome BitSet :=
  if (pos <? length bits)%nat then Done (<[pos := v]> bits) else Crash.
Definition bits_Test (pos : nat) (bits : BitSet) : outcome bool :=
  match bits !! pos with Some v => Done v | None => Crash end.
Definition bits_ToString (bits : BitSet) : list Z := map (fun v : bool => if v then 49 else 48) (rev bits).

Section Filter.
Context {ct : CharType} {H : Hashes}.

(** The two loops of the constructor from bytes. *)
Fixpoint set_byte (n bit_index byte_index : nat) (b : Z) (bits : BitSet) : outcome BitSet :=
  match n with
  | 0%nat => Done bits
  | S n =>
    let! bits := bits_Set (byte_index * 8 + bit_index)
      (nonzero (Z.land (Z.shiftr (char_int b) (Z.of_nat bit_index)) 0x01)) bits in
    set_byte n (S bit_index) byte_index b bits
  end.
Fixpoint set_bytes (bytes : list Z) (byte_index : nat) (bits : BitSet) : outcome BitSet :=
  match bytes with
  | [] => Done bits
  | b :: bytes =>
    let! bits := set_byte 8 0 byte_index b bits in
    set_bytes bytes (S byte_index) bits
  end.

Definition new_filter (bits : BitSet) (bytes : list Z) : outcome BitSet :=
  if (length bytes =? 0)%nat then Done bits else
  if negb (length bytes * 8 =? length bits)%nat then Done bits else
  set_bytes bytes 0 bits.

(** [safe_strtou32_base] with base 2 on eight digits. *)
Definition binary_value (digits : list Z) : Z := fold_left (fun v d => 2 * v + (d - 48)) digits 0.

(** The loop of the conversion: [i] counts the bits left. *)
Fixpoint filter_loop (n : nat) (i : Z) (digits : list Z) : outcome (list Z) :=
  match n with
  | 0%nat => Done []
  | S n =>
    let! byte_binary_string := substr digits (i - 8) 8 in
    let! rest := filter_loop n (i - 8) digits in
    Done (u8 (Z.land (binary_value byte_binary_string) 0xFF) :: rest)
  end.

(** The size is a multiple of eight, by the type of [BitSetImpl]. *)
Definition filter_bytes (bits : BitSet) : outcome (list Z) :=
  filter_loop (length bits / 8) (Z.of_nat (length bits)) (bits_ToString bits).

Definition kHasherNumberOfRepetitions : nat := 5.

(** [hash1 + (i * hash2)] is computed in [size_t]. *)
Definition combined_hash (hash1 hash2 : Z) (i : nat) : Z :=
  let combined := s32 (u64 (u64 hash1 + u64 (Z.of_nat i * u64 hash2))) in
  if combined <? 0 then Z.lnot combined else combined.

Definition GetHashes (s : list Z) : list Z :=
  let hash64 := MurmurHash3_low64 s in
  let hash1 := s32 (Z.land hash64 0xFFFFFFFF) in
  let hash2 := s32 (Z.land (Z.shiftr hash64 32) 0xFFFFFFFF) in
  map (combined_hash hash1 hash2) (seq 1 kHasherNumberOfRepetitions).

Definition position (hash : Z) (bits : BitSet) : nat := Z.to_nat (u64 hash mod Z.of_nat (length bits)).

Fixpoint add_hashes (hashes : list Z) (bits : BitSet) : outcome BitSet :=
  match hashes with
  | [] => Done bits
  | hash :: hashes =>
    let! bits := bits_Set (position hash bits) true bits in
    add_hashes hashes bits
  end.
Definition Add (s : list Z) (bits : BitSet) : outcome BitSet := add_hashes (GetHashes s) bits.

Fixpoint test_hashes (hashes : list Z) (bits : BitSet) : outcome bool :=
  match hashes with
  | [] => Done true
  | hash :: hashes =>
    let! t := bits_Test (position hash bits) bits in
    if negb t then Done false else test_hashes hashes bits
  end.
Definition PossiblyContains (s : list Z) (bits : BitSet) : outcome bool := test_hashes (GetHashes s) bits.
End Filter.
End BloomFilter.

(** * The advertisement header *)

(** The constants that classes share. *)
Definition kVersionBitmask : Z := 0x0E0.
Definition kServiceIdHashLength : Z := 3.
Definition kUndefinedVersion : Z := 0.
Definition kV1 : Z := 1.
Definition kV2 : Z := 2.

Module BleAdvertisementHeader.
Import BaseInputStream.

Definition kAdvertisementHashByteLength : Z := 4.
Definition kServiceIdBloomFilterByteLength : Z := 10.
Definition kDefaultPsmValue : Z := 0.
Definition kPsmValueByteLength : Z := 2.
Definition kVersionAndNumSlotsLength : Z := 1.
Definition kMinAdvertisementHeaderLength : Z :=
  kVersionAndNumSlotsLength + kServiceIdBloomFilterByteLength + kAdvertisementHashByteLength.
Definition kExtendedAdvertismentBitMask : Z := 0x010.
Definition kNumSlotsBitmask : Z := 0x00F.

Record BleAdvertisementHeader : Type := MakeHeader {
  header_version_ : Z;
  support_extended_advertisement_ : bool;
  num_slots_ : Z;
  service_id_bloom_filter_ : list Z;
  advertisement_hash_ : list Z;
  header_psm_ : Z;
}.
#[export] Instance BleAdvertisementHeader_eq_dec : EqDecision BleAdvertisementHeader.
Proof. solve_decision. Defined.

Definition no_header : BleAdvertisementHeader := MakeHeader kUndefinedVersion false 0 [] [] kDefaultPsmValue.
Definition header_IsValid (h : BleAdvertisementHeader) : bool := header_version_ h =? kV2.
Definition header_SetPsm (psm : Z) (h : BleAdvertisementHeader) : BleAdvertisementHeader :=
  MakeHeader (header_version_ h) (support_extended_advertisement_ h) (num_slots_ h)
    (service_id_bloom_filter_ h) (advertisement_hash_ h) psm.

Definition new_header (version : Z) (support_extended_advertisement : bool) (num_slots : Z)
    (service_id_bloom_filter advertisement_hash : list Z) (psm : Z) : BleAdvertisementHeader :=
  if negb (version =? kV2) || (num_slots <? 0)
     || negb (Z.of_nat (length service_id_bloom_filter) =? kServiceIdBloomFilterByteLength)
     || negb (Z.of_nat (length advertisement_hash) =? kAdvertisementHashByteLength)
  then no_header
  else MakeHeader version support_extended_advertisement num_slots service_id_bloom_filter advertisement_hash psm.

Section Header.
Context {ct : CharType} {B : Base64} {F : BleFlags}.

(** The part of the constructor after the length check. *)
Definition parse_header (bytes : list Z) : BleAdvertisementHeader :=
  let s := new_input bytes in
  let '(b, s) := ReadUint8 s in
  let version_and_num_slots_byte := char_int b in
  let version := Z.shiftr (Z.land version_and_num_slots_byte kVersionBitmask) 5 in
  if negb (version =? kV2) then MakeHeader version false 0 [] [] kDefaultPsmValue else
  let extended := Z.shiftr (Z.land version_and_num_slots_byte kExtendedAdvertismentBitMask) 4 =? 1 in
  let num_slots := Z.land version_and_num_slots_byte kNumSlotsBitmask in
  if num_slots <? 0 then MakeHeader kUndefinedVersion extended num_slots [] [] kDefaultPsmValue else
  let '(service_id_bloom_filter, s) := ReadBytes kServiceIdBloomFilterByteLength s in
  let '(advertisement_hash, s) := ReadBytes kAdvertisementHashByteLength s in
  let psm := if IsAvailable kPsmValueByteLength s then fst (ReadUint16 s) else kDefaultPsmValue in
  MakeHeader version extended num_slots service_id_bloom_filter advertisement_hash psm.

Definition header_of_bytes (ble_advertisement_header_bytes : list Z) : BleAdvertisementHeader :=
  let size := Z.of_nat (length ble_advertisement_header_bytes) in
  let decoded := Base64_Decode ble_advertisement_header_bytes in
  let raw :=
    match decoded with
    | _ :: _ => Some decoded
    | [] =>
      if kEnableBleV2 && ((size =? kMinAdvertisementHeaderLength) || (size =? kMinAdvertisementHeaderLength + 2))
      then Some ble_advertisement_header_bytes else None
    end in
  match raw with
  | None => no_header
  | Some bytes =>
    if Z.of_nat (length bytes) <? kMinAdvertisementHeaderLength then no_header else parse_header bytes
  end.

(** The two bytes of the PSM, as they are stored in [char]s. *)
Definition psm_bytes (psm : Z) : list Z := [u8 (Z.land psm 0xFF00); u8 (Z.land psm 0x00FF)].

Definition raw_header (h : BleAdvertisementHeader) : list Z :=
  let byte := u8 (Z.land (Z.shiftl (char_int (header_version_ h)) 5) kVersionBitmask) in
  let byte := u8 (Z.lor byte (Z.land (Z.shiftl (if support_extended_advertisement_ h then 1 else 0) 4)
                                kExtendedAdvertismentBitMask)) in
  let byte := u8 (Z.lor byte (Z.land (char_int (num_slots_ h)) kNumSlotsBitmask)) in
  byte :: service_id_bloom_filter_ h ++ advertisement_hash_ h ++ psm_bytes (header_psm_ h).

Definition header_bytes (h : BleAdvertisementHeader) : list Z :=
  if negb (header_IsValid h) then [] else
  if kEnableBleV2 then raw_header h else Base64_Encode (raw_header h).
End Header.
End BleAdvertisementHeader.

(** * Packets *)
Module BlePacket.
Import BaseInputStream.

(** The control frames of proto/mediums/ble_frames.proto; how protocol buffers encode them
    is a parameter.  A bytes field that is set from a [const char*] ends before the
    first zero byte. *)
Inductive SocketControlFrame : Type :=
| INTRODUCTION (service_id_hash : list Z)
| DISCONNECTION (service_id_hash : list Z)
| PACKET_ACKNOWLEDGEMENT (service_id_hash : list Z) (received_size : Z).
Class ControlFrames : Type := { SerializeToArray : SocketControlFrame -> list Z }.

Inductive BlePacketType : Type := kInvalid | kData | kControl.
#[export] Instance BlePacketType_eq_dec : EqDecision BlePacketType.
Proof. solve_decision. Defined.

Record BlePacket : Type := MakePacket {
  packet_type_ : BlePacketType;
  packet_service_id_hash_ : list Z;
  packet_data_ : list Z;
}.

Definition kControlPacketServiceIdHash : list Z := [0; 0; 0].
Definition kMaxDataSize : Z := u32 (2 ^ 31 - 1 - kServiceIdHashLength).

Definition packet_IsValid (p : BlePacket) : bool := bool_decide (packet_type_ p <> kInvalid).

Definition CreateControlPacket (data : list Z) : StatusOr BlePacket :=
  if kMaxDataSize <? Z.of_nat (length data) then Error kInvalidArgument
  else Ok (MakePacket kControl kControlPacketServiceIdHash data).

Fixpoint until_zero (s : list Z) : list Z :=
  match s with
  | [] => []
  | b :: s => if b =? 0 then [] else b :: until_zero s
  end.

Section Frames.
Context {CF : ControlFrames}.

Definition hash_size_ok (service_id_hash : list Z) : bool :=
  Z.of_nat (length service_id_hash) =? kServiceIdHashLength.

Definition CreateControlIntroductionPacket (service_id_hash : list Z) : StatusOr BlePacket :=
  if negb (hash_size_ok service_id_hash) then Error kInvalidArgument
  else CreateControlPacket (SerializeToArray (INTRODUCTION (until_zero service_id_hash))).
Definition CreateControlDisconnectionPacket (service_id_hash : list Z) : StatusOr BlePacket :=
  if negb (hash_size_ok service_id_hash) then Error kInvalidArgument
  else CreateControlPacket (SerializeToArray (DISCONNECTION (until_zero service_id_hash))).
Definition CreateControlPacketAcknowledgementPacket (service_id_hash : list Z) (received_size : Z)
  : StatusOr BlePacket :=
  if negb (hash_size_ok service_id_hash) then Error kInvalidArgument
  else CreateControlPacket (SerializeToArray (PACKET_ACKNOWLEDGEMENT (until_zero service_id_hash) received_size)).
End Frames.

Definition CreateDataPacket (service_id_hash data : list Z) : StatusOr BlePacket :=
  if kMaxDataSize <? Z.of_nat (length data) then Error kInvalidArgument else
  if negb (hash_size_ok service_id_hash) || bytes_eqb service_id_hash kControlPacketServiceIdHash
  then Error kInvalidArgument
  else Ok (MakePacket kData service_id_hash data).

Definition packet_of_bytes (bytes : list Z) : BlePacket :=
  if (length bytes =? 0)%nat then MakePacket kInvalid [] [] else
  if Z.of_nat (length bytes) <? kServiceIdHashLength then MakePacket kInvalid [] [] else
  let s := new_input bytes in
  let '(service_id_hash, s) := ReadBytes kServiceIdHashLength s in
  let packet_type := if bytes_eqb service_id_hash kControlPacketServiceIdHash then kControl else kData in
  let '(data, _) := ReadBytes (Z.of_nat (length bytes) - kServiceIdHashLength) s in
  MakePacket packet_type service_id_hash data.

Definition packet_bytes (p : BlePacket) : list Z :=
  if negb (packet_IsValid p) then [] else packet_service_id_hash_ p ++ packet_data_ p.

Definition GetPacketSize (p : BlePacket) : Z := s32 (Z.of_nat (length (packet_data_ p)) + kServiceIdHashLength).
End BlePacket.

(** * Advertisements *)
Module BleAdvertisement.
Import BaseInputStream BleAdvertisementHeader.

Definition kDeviceTokenLength : Z := 2.
Definition kVersionLength : Z := 1.
Definition kSocketVersionBitmask : Z := 0x01C.
Definition kFastAdvertisementFlagBitmask : Z := 0x002.
Definition kDataSizeLength : nat := 4.
Definition kFastDataSizeLength : nat := 1.
Definition kMinAdvertisementLength : Z := kVersionLength + kServiceIdHashLength + Z.of_nat kDataSizeLength.
Definition kMaxAdvertisementLength : Z := 512.
Definition kMinFastAdvertisementLegth : Z := kVersionLength + Z.of_nat kFastDataSizeLength.
Definition kMaxFastAdvertisementLength : Z := 27.
Definition kExtraFieldsMaskLength : Z := 1.
Definition kPsmBitmask : Z := 0x01.

Record BleAdvertisement : Type := MakeAdvertisement {
  version_ : Z;
  socket_version_ : Z;
  fast_advertisement_ : bool;
  service_id_hash_ : list Z;
  data_ : list Z;
  device_token_ : list Z;
  psm_ : Z;
}.
#[export] Instance BleAdvertisement_eq_dec : EqDecision BleAdvertisement.
Proof. solve_decision. Defined.

(** [IsSupportedVersion] and [IsSupportedSocketVersion] *)
Definition IsSupportedVersion (version : Z) : bool := (kV1 <=? version) && (version <=? kV2).
Definition IsValid (a : BleAdvertisement) : bool := IsSupportedVersion (version_ a).
Definition SetPsm (psm : Z) (a : BleAdvertisement) : BleAdvertisement :=
  MakeAdvertisement (version_ a) (socket_version_ a) (fast_advertisement_ a) (service_id_hash_ a) (data_ a)
    (device_token_ a) psm.

Definition ComputeAdvertisementLength (data_length total_optional_length : Z) (fast_advertisement : bool) : Z :=
  if fast_advertisement then kMinFastAdvertisementLegth + data_length + total_optional_length
  else kMinAdvertisementLength + data_length + total_optional_length.

(** The constructor from parts, with [DoInitialize]. *)
Definition new_advertisement (version socket_version : Z) (service_id_hash data device_token : list Z) (psm : Z)
  : BleAdvertisement :=
  let fast := (length service_id_hash =? 0)%nat in
  let invalid := MakeAdvertisement kUndefinedVersion kUndefinedVersion fast [] [] [] kDefaultPsmValue in
  if negb fast && negb (Z.of_nat (length service_id_hash) =? kServiceIdHashLength) then invalid else
  if negb (IsSupportedVersion version) || negb (IsSupportedVersion socket_version)
     || (negb (length device_token =? 0)%nat && negb (Z.of_nat (length device_token) =? kDeviceTokenLength))
  then invalid else
  let advertisement_length := ComputeAdvertisementLength (s32 (Z.of_nat (length data)))
    (s32 (Z.of_nat (length device_token))) fast in
  if (if fast then kMaxFastAdvertisementLength else kMaxAdvertisementLength) <? advertisement_length
  then invalid
  else MakeAdvertisement version socket_version fast (if fast then [] else service_id_hash) data device_token psm.

Section Advertisement.
Context {ct : CharType}.

(** [BleExtraFields] from bytes: the PSM. *)
Definition HasField (field_mask psm_bit : Z) : bool := 0 <? Z.land field_mask psm_bit.
Definition extra_fields_of_bytes (bytes : list Z) : Z :=
  match bytes with
  | [] => kDefaultPsmValue
  | _ =>
    let '(mask_byte, s) := ReadUint8 (new_input bytes) in
    if mask_byte =? 0 then kDefaultPsmValue else
    if HasField mask_byte kPsmBitmask && IsAvailable kPsmValueByteLength s then fst (ReadUint16 s)
    else kDefaultPsmValue
  end.
Definition extra_fields_bytes (psm : Z) : list Z :=
  if psm =? kDefaultPsmValue then [] else kPsmBitmask :: psm_bytes psm.

(** [.data()[0]] of an empty string is its terminator. *)
Definition first_char (bytes : list Z) : Z := char_int (default 0 (head bytes)).

Definition advertisement_of_bytes (bytes : list Z) : BleAdvertisement :=
  let undefined := MakeAdvertisement kUndefinedVersion kUndefinedVersion false [] [] [] kDefaultPsmValue in
  if (length bytes =? 0)%nat then undefined else
  if Z.of_nat (length bytes) <? kVersionLength then undefined else
  let '(b, s) := ReadUint8 (new_input bytes) in
  let version_byte := char_int b in
  let version := Z.shiftr (Z.land version_byte kVersionBitmask) 5 in
  if negb (IsSupportedVersion version)
  then MakeAdvertisement version kUndefinedVersion false [] [] [] kDefaultPsmValue else
  let socket_version := Z.shiftr (Z.land version_byte kSocketVersionBitmask) 2 in
  if negb (IsSupportedVersion socket_version)
  then MakeAdvertisement kUndefinedVersion socket_version false [] [] [] kDefaultPsmValue else
  let fast := nonzero (Z.shiftr (Z.land version_byte kFastAdvertisementFlagBitmask) 1) in
  let '(service_id_hash, s) := if fast then ([], s) else ReadBytes kServiceIdHashLength s in
  let '(expected_data_size, s) :=
    if fast then let '(bytes, s) := ReadBytes (Z.of_nat kFastDataSizeLength) s in (first_char bytes, s)
    else let '(size, s) := ReadUint32 s in (s32 size, s) in
  if expected_data_size <? 0
  then MakeAdvertisement kUndefinedVersion socket_version fast service_id_hash [] [] kDefaultPsmValue else
  let '(data, s) := ReadBytes expected_data_size s in
  if negb (Z.of_nat (length data) =? expected_data_size)
  then MakeAdvertisement kUndefinedVersion socket_version fast service_id_hash data [] kDefaultPsmValue else
  if negb (IsAvailable kDeviceTokenLength s)
  then MakeAdvertisement version socket_version fast service_id_hash data [] kDefaultPsmValue else
  let '(device_token, s) := ReadBytes kDeviceTokenLength s in
  let extra_fields_byte_number := kExtraFieldsMaskLength + kPsmValueByteLength in
  let psm := if IsAvailable extra_fields_byte_number s
             then extra_fields_of_bytes (fst (ReadBytes extra_fields_byte_number s)) else kDefaultPsmValue in
  MakeAdvertisement version socket_version fast service_id_hash data device_token psm.

(** The bytes of a [size_t] lie in memory in little-endian order. *)
Definition SerializeDataSize (fast_advertisement : bool) (data_size : Z) : list Z :=
  let data_size_length := if fast_advertisement then kFastDataSizeLength else kDataSizeLength in
  map (fun i => u8 (Z.shiftr data_size (8 * Z.of_nat (data_size_length - i - 1)))) (seq 0 data_size_length).

Definition version_byte (a : BleAdvertisement) : Z :=
  let b := u8 (Z.land (Z.shiftl (char_int (version_ a)) 5) kVersionBitmask) in
  let b := u8 (Z.lor b (Z.land (Z.shiftl (char_int (socket_version_ a)) 2) kSocketVersionBitmask)) in
  u8 (Z.lor b (Z.land (Z.shiftl (if fast_advertisement_ a then 1 else 0) 1) kFastAdvertisementFlagBitmask)).

Definition advertisement_bytes (a : BleAdvertisement) : list Z :=
  if negb (IsValid a) then [] else
  let data_size_bytes := SerializeDataSize (fast_advertisement_ a) (Z.of_nat (length (data_ a))) in
  if fast_advertisement_ a then version_byte a :: data_size_bytes ++ data_ a ++ device_token_ a
  else version_byte a :: service_id_hash_ a ++ data_size_bytes ++ data_ a ++ device_token_ a.

Definition ByteArrayWithExtraField (a : BleAdvertisement) : list Z :=
  advertisement_bytes a ++ extra_fields_bytes (psm_ a).
End Advertisement.
End BleAdvertisement.

(** * Hashes of identifiers and advertisements *)
Section BleUtils.
Context {H : Hashes}.

(** [GenerateServiceIdHash] with the default version, and [GenerateAdvertisementHash]. *)
Definition GenerateServiceIdHash (service_id : list Z) : list Z :=
  Sha256Hash service_id (Z.to_nat kServiceIdHashLength).
Definition GenerateAdvertisementHash (advertisement_bytes : list Z) : list Z :=
  Sha256Hash advertisement_bytes (Z.to_nat BleAdvertisementHeader.kAdvertisementHashByteLength).
End BleUtils.
