(* ===== verification/BleTheorems.v ===== *)
(** What the data of the BLE medium guarantees: advertisements, headers and packets
    read back as they were written (and exactly when they do not), and a Bloom filter
    contains what was added to it, on the receiving side too. *)

From Stdlib Require Import ZArith Lia.
From stdpp Require Import base list numbers.
From S2P Require Import Prelude Utils CppBase BleData.

Open Scope Z_scope.
Open Scope fp_scope.

(** * Reading a stream *)
Section Streams.
Import BaseInputStream.

(** The stream that has read [pre] and has [l] left. *)
Definition at_ (l pre : list Z) : BaseInputStream := MakeInput (pre ++ l) (Z.of_nat (length pre)).

Lemma new_input_at l : new_input l = at_ l [].
Proof. done. Qed.

Lemma IsAvailable_at n l pre :
  0 <= n < 2 ^ 31 -> Z.of_nat (length l) < 2 ^ 31 -> IsAvailable n (at_ l pre) = (n <=? Z.of_nat (length l)).
Proof.
  intros Hn Hl. unfold IsAvailable, at_. cbn [buffer_ position_]. rewrite length_app, Nat2Z.inj_add.
  rewrite (u64_id n) by lia. rewrite u64_id by lia. f_equal. lia.
Qed.

Lemma CopyAt_all pre x l : x <> [] ->
  CopyAt 0 (pre ++ x ++ l) (length pre) (replicate (length x) 0) = (true, x).
Proof.
  intros Hx. assert (0 < length x)%nat by (destruct x; [done|cbn; lia]). unfold CopyAt. rewrite length_replicate.
  destruct (Nat.leb_spec (length x) 0) as [?|_]; [lia|].
  rewrite !length_app. destruct (Nat.leb_spec (length pre + (length x + length l)) (length pre)) as [?|_]; [lia|].
  rewrite Nat.min_l by lia. rewrite drop_app_length, Nat.sub_0_r, take_app_length, Nat.add_0_l, drop_replicate, Nat.sub_diag.
  by rewrite take_0, app_nil_r.
Qed.

(** Reading as many bytes as [x] has. *)
Lemma ReadBytes_app n x l pre :
  n = Z.of_nat (length x) -> Z.of_nat (length (x ++ l)) < 2 ^ 31 ->
  ReadBytes n (at_ (x ++ l) pre) = (x, at_ l (pre ++ x)).
Proof.
  intros -> Hl. pose proof (length_app x l). unfold ReadBytes, Read. rewrite s32_id by lia.
  rewrite IsAvailable_at by lia. destruct (Z.leb_spec (Z.of_nat (length x)) (Z.of_nat (length (x ++ l)))); [|lia].
  cbn [negb]. unfold at_. cbn [buffer_ position_]. rewrite !Nat2Z.id. destruct x as [|b x].
  { cbn. by rewrite app_nil_r. }
  rewrite CopyAt_all by done. cbn [default]. rewrite <- app_assoc. f_equal. f_equal. rewrite length_app. lia.
Qed.

Lemma ReadBytes_short n l pre :
  Z.of_nat (length l) < n < 2 ^ 31 -> ReadBytes n (at_ l pre) = ([], at_ l pre).
Proof.
  intros H. unfold ReadBytes, Read. rewrite s32_id, IsAvailable_at by lia.
  by destruct (Z.leb_spec n (Z.of_nat (length l))); [lia|].
Qed.

Context {ct : CharType}.

Lemma char_int_u8 b : is_byte b -> u8 (char_int b) = b.
Proof.
  intros H. unfold char_int. destruct char_is_signed; apply Z.eqb_eq; revert H.
  - by apply (byte_cases (fun b => u8 (s8 b) =? b)).
  - by apply (byte_cases (fun b => u8 (u8 b) =? b)).
Qed.

Lemma char_int_small b : 0 <= b < 128 -> char_int b = b.
Proof.
  intros H. unfold char_int, s8. rewrite u8_id by (unfold is_byte; lia).
  destruct char_is_signed; [|done]. by destruct (Z.ltb_spec b 128); [|lia].
Qed.

Lemma ReadUint8_cons b l pre :
  is_byte b -> Z.of_nat (length (b :: l)) < 2 ^ 31 -> ReadUint8 (at_ (b :: l) pre) = (b, at_ l (pre ++ [b])).
Proof.
  intros Hb Hl. unfold ReadUint8. change (b :: l) with ([b] ++ l). rewrite ReadBytes_app by (done || exact Hl). by rewrite char_int_u8.
Qed.

(** Two bytes as they are read: where [char] is signed, a low byte of 128 or more sets
    the high byte. *)
Definition read_u16 (b0 b1 : Z) : Z := u16 (Z.lor (Z.shiftl (u16 (char_int b0)) 8) (u16 (char_int b1))).

Lemma ReadUint16_cons b0 b1 l pre :
  Z.of_nat (length (b0 :: b1 :: l)) < 2 ^ 31 ->
  ReadUint16 (at_ (b0 :: b1 :: l) pre) = (read_u16 b0 b1, at_ l (pre ++ [b0; b1])).
Proof. intros Hl. unfold ReadUint16. change (b0 :: b1 :: l) with ([b0; b1] ++ l). by rewrite ReadBytes_app by (done || exact Hl). Qed.

Definition read_u32 (b0 b1 b2 b3 : Z) : Z :=
  Z.lor (Z.lor (Z.lor (u32 (Z.shiftl (u32 (char_int b0)) 24)) (u32 (Z.shiftl (u32 (char_int b1)) 16)))
    (u32 (Z.shiftl (u32 (char_int b2)) 8))) (u32 (char_int b3)).

Lemma ReadUint32_cons b0 b1 b2 b3 l pre :
  Z.of_nat (length (b0 :: b1 :: b2 :: b3 :: l)) < 2 ^ 31 ->
  ReadUint32 (at_ (b0 :: b1 :: b2 :: b3 :: l) pre) = (read_u32 b0 b1 b2 b3, at_ l (pre ++ [b0; b1; b2; b3])).
Proof.
  intros Hl. unfold ReadUint32. change (b0 :: b1 :: b2 :: b3 :: l) with ([b0; b1; b2; b3] ++ l). by rewrite ReadBytes_app by (done || exact Hl).
Qed.
End Streams.

(** * Advertisements *)
Section Advertisements.
Context {ct : CharType}.
Import BaseInputStream BleAdvertisementHeader BleAdvertisement.
Implicit Types a : BleAdvertisement.

(** What the constructor from parts makes sure of, with room for two more bytes. *)
Record advertisement_ok a : Prop := {
  adv_version : IsSupportedVersion (version_ a) = true;
  adv_socket_version : IsSupportedVersion (socket_version_ a) = true;
  adv_hash : if fast_advertisement_ a then service_id_hash_ a = [] else length (service_id_hash_ a) = 3%nat;
  adv_token : device_token_ a = [] \/ length (device_token_ a) = 2%nat;
  adv_length : (length (data_ a) + length (device_token_ a) <= if fast_advertisement_ a then 27 else 506)%nat;
}.

Lemma new_advertisement_ok v sv hash data token psm :
  let a := new_advertisement v sv hash data token psm in
  Z.of_nat (length data) < 2 ^ 31 -> IsValid a = true ->
  advertisement_ok a /\ a = MakeAdvertisement v sv (length hash =? 0)%nat hash data token psm
  /\ (length data + length token <= if (length hash =? 0)%nat then 25 else 504)%nat.
Proof.
  intros a Hd Hv. unfold a, new_advertisement in *. set (fast := (length hash =? 0)%nat) in *.
  destruct (negb fast && _) eqn:E1; [done|]. destruct (negb (IsSupportedVersion v) || _ || _) eqn:E2; [done|].
  destruct (_ <? ComputeAdvertisementLength _ _ _) eqn:E3; [done|].
  apply orb_false_iff in E2 as [[E2v E2s]%orb_false_iff E2t]. apply negb_false_iff in E2v, E2s. apply Z.ltb_ge in E3.
  assert (token = [] \/ length token = 2%nat) as Ht.
  { destruct token as [|? token]; [by left|right]. cbn [length Nat.eqb negb andb] in E2t.
    apply negb_false_iff, Z.eqb_eq in E2t. unfold kDeviceTokenLength in E2t. cbn [length] in *. lia. }
  assert (Z.of_nat (length token) < 2 ^ 31) by (destruct Ht as [-> | ->]; cbn; lia).
  rewrite !s32_id in E3 by lia.
  assert (if fast then hash = [] else length hash = 3%nat) as Hh.
  { destruct fast eqn:Ef; unfold fast in Ef; [by apply Nat.eqb_eq in Ef; destruct hash|].
    cbn [negb andb] in E1. apply negb_false_iff, Z.eqb_eq in E1. unfold kServiceIdHashLength in E1. lia. }
  assert (length data + length token <= if fast then 25 else 504)%nat as Hl.
  { unfold ComputeAdvertisementLength, kMinFastAdvertisementLegth, kMinAdvertisementLength, kMaxFastAdvertisementLength,
      kMaxAdvertisementLength, kVersionLength, kServiceIdHashLength, kFastDataSizeLength, kDataSizeLength in E3.
    destruct fast; lia. }
  split; [split; cbn|split; [|done]].
  - done.
  - done.
  - by destruct fast.
  - done.
  - destruct fast; lia.
  - f_equal. by destruct fast.
Qed.

(** The first byte. *)
Lemma version_byte_read a :
  advertisement_ok a ->
  let b := version_byte a in
  is_byte b /\ Z.shiftr (Z.land (char_int b) kVersionBitmask) 5 = version_ a
  /\ Z.shiftr (Z.land (char_int b) kSocketVersionBitmask) 2 = socket_version_ a
  /\ nonzero (Z.shiftr (Z.land (char_int b) kFastAdvertisementFlagBitmask) 1) = fast_advertisement_ a.
Proof.
  intros [Hv Hs _ _ _]. destruct a as [v sv fast hash data token psm]. cbn in Hv, Hs.
  unfold IsSupportedVersion, kV1, kV2 in *. apply andb_true_iff in Hv as [Hv1 Hv2], Hs as [Hs1 Hs2].
  assert (v = 1 \/ v = 2) as Hv by lia. assert (sv = 1 \/ sv = 2) as Hs by lia.
  unfold version_byte, char_int, is_byte. cbn [version_ socket_version_ fast_advertisement_].
  destruct Hv as [-> | ->], Hs as [-> | ->], fast, char_is_signed; vm_compute; repeat split; congruence.
Qed.

(** The four bytes of the size, as they are read. *)
Lemma data_size_u32 n :
  0 <= n < 512 -> exists b2 b3, SerializeDataSize false n = [0; 0; b2; b3]
    /\ (let r := s32 (read_u32 0 0 b2 b3) in
        if char_is_signed && (128 <=? n mod 256) then r <? 0 else r =? n) = true.
Proof.
  intros Hn. exists (u8 (Z.shiftr n 8)), (u8 n). split.
  - change (SerializeDataSize false n)
      with [u8 (Z.shiftr n 24); u8 (Z.shiftr n 16); u8 (Z.shiftr n 8); u8 (Z.shiftr n 0)].
    rewrite !Z.shiftr_div_pow2 by lia. by rewrite (Z.div_small n (2 ^ 24)), (Z.div_small n (2 ^ 16)), Z.div_1_r by lia.
  - set (P := fun n => let r := s32 (read_u32 0 0 (u8 (Z.shiftr n 8)) (u8 n)) in
        if char_is_signed && (128 <=? n mod 256) then r <? 0 else r =? n).
    change (P n = true). apply (range_cases P 512); [|lia]. unfold P, read_u32, char_int.
    destruct char_is_signed; vm_compute; done.
Qed.
(** Whether the size of the data can be read back. *)
Definition size_readable a : bool :=
  fast_advertisement_ a || negb (char_is_signed && (128 <=? Z.of_nat (length (data_ a)) mod 256)).

(** The PSM that is read from what follows the data and the token. *)
Definition psm_read a (extra : list Z) : Z :=
  match device_token_ a with
  | [] => kDefaultPsmValue
  | _ => if (3 <=? length extra)%nat then extra_fields_of_bytes (take 3 extra) else kDefaultPsmValue
  end.

(** What the parser does after the size. *)
Lemma parse_rest a n extra pre :
  advertisement_ok a -> (length extra <= 3)%nat -> (device_token_ a = [] -> length extra < 2)%nat ->
  n = Z.of_nat (length (data_ a)) ->
  (let '(data, s) := ReadBytes n (at_ (data_ a ++ device_token_ a ++ extra) pre) in
   if negb (Z.of_nat (length data) =? n)
   then MakeAdvertisement kUndefinedVersion (socket_version_ a) (fast_advertisement_ a) (service_id_hash_ a) data [] kDefaultPsmValue else
   if negb (IsAvailable kDeviceTokenLength s)
   then MakeAdvertisement (version_ a) (socket_version_ a) (fast_advertisement_ a) (service_id_hash_ a) data [] kDefaultPsmValue else
   let '(device_token, s) := ReadBytes kDeviceTokenLength s in
   let extra_fields_byte_number := kExtraFieldsMaskLength + kPsmValueByteLength in
   let psm := if IsAvailable extra_fields_byte_number s
              then extra_fields_of_bytes (fst (ReadBytes extra_fields_byte_number s)) else kDefaultPsmValue in
   MakeAdvertisement (version_ a) (socket_version_ a) (fast_advertisement_ a) (service_id_hash_ a) data device_token psm)
  = SetPsm (psm_read a extra) a.
Proof.
  intros Ha Hx Ht ->. pose proof (adv_length _ Ha) as Hl.
  assert (length (data_ a) + length (device_token_ a) <= 506)%nat as Hl'
    by (destruct (fast_advertisement_ a); lia).
  rewrite ReadBytes_app by (rewrite ?length_app; lia). rewrite Z.eqb_refl. cbn [negb].
  unfold kDeviceTokenLength. rewrite IsAvailable_at by (rewrite ?length_app; lia).
  unfold psm_read, SetPsm. destruct (adv_token _ Ha) as [Et|Et].
  - rewrite Et. cbn [app]. destruct (Z.leb_spec 2 (Z.of_nat (length extra))); [specialize (Ht Et); lia|]. done.
  - rewrite length_app, Et. destruct (Z.leb_spec 2 (Z.of_nat (2 + length extra))); [|lia]. cbn [negb].
    rewrite ReadBytes_app by (rewrite ?length_app, ?Et; lia).
    change (kExtraFieldsMaskLength + kPsmValueByteLength) with 3. rewrite IsAvailable_at by lia.
    destruct (device_token_ a) as [|t token] eqn:E; [done|].
    destruct (Nat.leb_spec 3 (length extra)), (Z.leb_spec 3 (Z.of_nat (length extra))); try lia; [|done].
    rewrite <- (app_nil_r extra) at 1. rewrite ReadBytes_app by (rewrite ?app_nil_r; lia). cbn [fst].
    by rewrite take_ge by lia.
Qed.

(** Parsing what was written, possibly with extra fields behind it. *)
Lemma parse_advertisement a extra :
  advertisement_ok a -> (length extra <= 3)%nat -> (device_token_ a = [] -> length extra < 2)%nat ->
  if size_readable a then advertisement_of_bytes (advertisement_bytes a ++ extra) = SetPsm (psm_read a extra) a
  else IsValid (advertisement_of_bytes (advertisement_bytes a ++ extra)) = false.
Proof.
  intros Ha Hx Ht. pose proof Ha as [Hv Hs Hh _ Hl]. destruct (version_byte_read a Ha) as (Hb & Ev & Es & Ef).
  unfold advertisement_bytes, IsValid at 1 3. rewrite Hv. cbn [negb].
  assert (length (data_ a) + length (device_token_ a) <= 506)%nat as Hl' by (destruct (fast_advertisement_ a); lia).
  set (n := Z.of_nat (length (data_ a))). unfold size_readable. fold n.
  destruct (fast_advertisement_ a) eqn:Efast.
  - cbn [orb]. assert (SerializeDataSize true n = [n]) as ->.
    { change (SerializeDataSize true n) with [u8 (Z.shiftr n 0)]. by rewrite Z.shiftr_0_r, u8_id by (unfold is_byte; lia). }
    unfold advertisement_of_bytes. cbn [app length Nat.eqb]. rewrite <- !app_assoc.
    destruct (Z.ltb_spec (Z.of_nat (S (S (length (data_ a ++ device_token_ a ++ extra))))) kVersionLength) as [H|_];
      [unfold kVersionLength in H; lia|].
    rewrite new_input_at, ReadUint8_cons by (done || (cbn [length]; rewrite !length_app; lia)).
    rewrite Ev, Hv, Es, Hs, Ef. cbn [negb].
    change (n :: data_ a ++ device_token_ a ++ extra) with ([n] ++ data_ a ++ device_token_ a ++ extra).
    rewrite (ReadBytes_app (Z.of_nat kFastDataSizeLength)) by (done || (cbn [app length]; rewrite !length_app; lia)).
    assert (first_char [n] = n) as ->.
    { change (char_int n = n). apply char_int_small. lia. }
    destruct (Z.ltb_spec n 0); [lia|]. set (pre := _ ++ [n]).
    generalize (parse_rest a n extra pre Ha Hx Ht eq_refl). by rewrite Efast, Hh.
  - cbn [orb]. destruct (data_size_u32 n) as (b2 & b3 & -> & Hr); [lia|].
    replace ((version_byte a :: service_id_hash_ a ++ [0; 0; b2; b3] ++ data_ a ++ device_token_ a) ++ extra)
      with (version_byte a :: service_id_hash_ a ++ [0; 0; b2; b3] ++ data_ a ++ device_token_ a ++ extra)
      by (cbn [app]; by rewrite <- !app_assoc, <- !app_comm_cons, <- !app_assoc).
    assert (Z.of_nat (length (service_id_hash_ a ++ [0; 0; b2; b3] ++ data_ a ++ device_token_ a ++ extra)) < 2 ^ 30) as Hlen
      by (rewrite !length_app; cbn [length]; lia).
    unfold advertisement_of_bytes. cbn [length Nat.eqb].
    destruct (Z.ltb_spec (Z.of_nat (S (length (service_id_hash_ a ++ [0; 0; b2; b3] ++ data_ a ++ device_token_ a ++ extra))))
      kVersionLength) as [H|_]; [unfold kVersionLength in H; lia|].
    rewrite new_input_at, ReadUint8_cons by (done || (cbn [length]; lia)).
    rewrite Ev, Hv, Es, Hs, Ef. cbn [negb].
    rewrite ReadBytes_app by (by rewrite ?Hh || lia). rewrite !length_app in Hlen. cbn [length] in Hlen.
    cbn [app]. rewrite ReadUint32_cons by (cbn [length]; rewrite !length_app; lia).
    destruct (char_is_signed && (128 <=? n mod 256)); cbn [negb].
    + apply Z.ltb_lt in Hr. destruct (Z.ltb_spec (s32 (read_u32 0 0 b2 b3)) 0); [done|lia].
    + apply Z.eqb_eq in Hr. rewrite Hr. destruct (Z.ltb_spec n 0); [lia|]. rewrite <- Efast. by apply parse_rest.
Qed.
(** The PSM that arrives for the one that was sent: its high byte is lost, and where
    [char] is signed a low byte of 128 or more sets it again. *)
Definition psm_received (psm : Z) : Z :=
  let low := psm mod 256 in
  if char_is_signed && (128 <=? low) then 0xFF00 + low else low.

Lemma psm_bytes_eq psm : psm_bytes psm = [0; psm mod 256].
Proof.
  unfold psm_bytes. f_equal; [|f_equal].
  - unfold u8. rewrite <- Z.land_ones by lia. rewrite <- Z.land_assoc. by rewrite Z.land_0_r.
  - rewrite land_255. apply u8_id. unfold is_byte. apply Z.mod_pos_bound. lia.
Qed.

Lemma read_psm psm : read_u16 0 (psm mod 256) = psm_received psm.
Proof.
  unfold psm_received, read_u16, char_int. pose proof (Z.mod_pos_bound psm 256 ltac:(lia)) as H. revert H.
  generalize (psm mod 256). intros b H. apply Z.eqb_eq. destruct char_is_signed.
  - by apply (byte_cases (fun b => u16 (Z.lor (Z.shiftl (u16 (s8 0)) 8) (u16 (s8 b)))
      =? if true && (128 <=? b) then 0xFF00 + b else b)).
  - by apply (byte_cases (fun b => u16 (Z.lor (Z.shiftl (u16 (u8 0)) 8) (u16 (u8 b)))
      =? if false && (128 <=? b) then 0xFF00 + b else b)).
Qed.

Lemma extra_fields_read psm :
  extra_fields_of_bytes (kPsmBitmask :: psm_bytes psm) = psm_received psm.
Proof.
  unfold extra_fields_of_bytes. rewrite new_input_at, psm_bytes_eq, ReadUint8_cons by done.
  change (kPsmBitmask =? 0) with false. change (HasField kPsmBitmask kPsmBitmask) with true.
  unfold kPsmValueByteLength. rewrite IsAvailable_at by (cbn; lia). cbn [length Z.of_nat].
  rewrite ReadUint16_cons by (cbn; lia). apply read_psm.
Qed.

(** Without a device token the first two bytes of the extra field are read as one. *)
Lemma no_token_read v sv fast hash data psm :
  let a := MakeAdvertisement v sv fast hash data [] psm in
  advertisement_ok a -> (length data <= if fast then 25 else 504)%nat -> size_readable a = true ->
  advertisement_of_bytes (ByteArrayWithExtraField a)
  = MakeAdvertisement v sv fast hash data (take 2 (extra_fields_bytes psm)) kDefaultPsmValue.
Proof.
  intros a Ha Hl Hr. unfold ByteArrayWithExtraField. change (psm_ a) with psm. set (token := take 2 (extra_fields_bytes psm)).
  set (rest := drop 2 (extra_fields_bytes psm)). set (a' := MakeAdvertisement v sv fast hash data token kDefaultPsmValue).
  assert (token = [] \/ length token = 2%nat) as Ht.
  { unfold token, extra_fields_bytes. destruct (psm =? kDefaultPsmValue); [by left|by right]. }
  assert (advertisement_bytes a ++ extra_fields_bytes psm = advertisement_bytes a' ++ rest) as ->.
  { rewrite <- (take_drop 2 (extra_fields_bytes psm)) at 1. fold token rest. unfold advertisement_bytes.
    destruct Ha as [Hv _ _ _ _]. cbn in Hv. unfold IsValid. cbn. rewrite Hv. cbn.
    destruct fast; cbn; rewrite ?app_nil_r, <- ?app_assoc; cbn; rewrite <- ?app_assoc; done. }
  assert (advertisement_ok a') as Ha'.
  { destruct Ha as [H1 H2 H3 _ _]. split; try done. cbn. destruct Ht as [-> | ->], fast; cbn; lia. }
  pose proof (parse_advertisement a' rest Ha') as H. assert (length rest <= 1)%nat as Hx.
  { unfold rest, extra_fields_bytes. destruct (psm =? kDefaultPsmValue); rewrite length_drop; cbn; lia. }
  change (size_readable a') with (size_readable a) in H. rewrite Hr in H. rewrite H by lia. unfold psm_read. cbn [device_token_ a'].
  destruct token; [done|]. destruct (Nat.leb_spec 3 (length rest)); [lia|done].
Qed.

(** C32. An advertisement of the BLE medium that the constructor accepts, with less than
    2^31 bytes of data, is read back from its bytes: versions, service id hash, data and
    device token are those that were written.  The exception is exact: where [char] is
    signed and the length of the data of a regular advertisement has a low byte of 128 or
    more, the length is read as a negative number and the advertisement is refused.  With
    the extra field the receiver of an advertisement that has a device token gets only the
    low byte of the PSM, sign extended where [char] is signed; that of an advertisement
    without one gets no PSM at all, and takes the first two bytes of the field for the
    device token. *)
Theorem BleAdvertisement_roundtrip v sv hash data token psm :
  let a := new_advertisement v sv hash data token psm in
  Z.of_nat (length data) < 2 ^ 31 -> IsValid a = true ->
  (if size_readable a then advertisement_of_bytes (advertisement_bytes a) = SetPsm kDefaultPsmValue a
   else IsValid (advertisement_of_bytes (advertisement_bytes a)) = false)
  /\ (size_readable a = true -> advertisement_of_bytes (ByteArrayWithExtraField a) =
      match token with
      | [] => MakeAdvertisement v sv (fast_advertisement_ a) hash data (take 2 (extra_fields_bytes psm)) kDefaultPsmValue
      | _ => SetPsm (psm_received psm) a
      end).
Proof.
  intros a Hd Hv. destruct (new_advertisement_ok v sv hash data token psm Hd Hv) as (Ha & Ea & Hl). fold a in Ha, Ea. split.
  - pose proof (parse_advertisement a [] Ha) as H. rewrite app_nil_r in H. unfold psm_read in H.
    specialize (H ltac:(cbn; lia) ltac:(cbn; lia)). by destruct (size_readable a), (device_token_ a).
  - intros Hr. destruct token as [|t token].
    + pose proof (no_token_read v sv (length hash =? 0)%nat hash data psm) as H. rewrite <- Ea in H. cbv zeta in H.
      rewrite H; [|done|destruct (length hash =? 0)%nat; cbn in Hl; lia|done]. by rewrite Ea.
    + unfold ByteArrayWithExtraField. assert (psm_ a = psm /\ device_token_ a = t :: token) as [-> Etok] by (by rewrite Ea).
      pose proof (parse_advertisement a (extra_fields_bytes psm) Ha) as H. rewrite Hr in H. rewrite H.
      * unfold psm_read. rewrite Etok. f_equal. unfold extra_fields_bytes.
        destruct (Z.eqb_spec psm kDefaultPsmValue) as [->|]; [|apply extra_fields_read].
        unfold psm_received. by destruct char_is_signed.
      * unfold extra_fields_bytes. destruct (psm =? kDefaultPsmValue); cbn; lia.
      * by rewrite Etok.
Qed.
End Advertisements.

(** * Bloom filters *)
Section Filters.
Context {ct : CharType} {H : Hashes}.
Import BloomFilter.
Implicit Types bits : BitSet.

(** The byte of eight bits, the lowest first, and the bits of a byte as the
    constructor reads them. *)
Definition chunk_value (chunk : list bool) : Z := foldr (fun (v : bool) n => 2 * n + (if v then 1 else 0)) 0 chunk.
Definition read_bit (b : Z) (i : nat) : bool := nonzero (Z.land (Z.shiftr (char_int b) (Z.of_nat i)) 0x01).
Definition read_bits (b : Z) : list bool := map (read_bit b) (seq 0 8).

Lemma chunk_read chunk :
  length chunk = 8%nat -> is_byte (chunk_value chunk) /\ read_bits (chunk_value chunk) = chunk.
Proof.
  do 9 (destruct chunk as [|? chunk]; try done). intros _. unfold read_bits, read_bit, char_int, is_byte.
  repeat match goal with v : bool |- _ => destruct v end; destruct char_is_signed; vm_compute; repeat split; congruence.
Qed.

Lemma binary_value_chunk chunk :
  binary_value (map (fun v : bool => if v then 49 else 48) (rev chunk)) = chunk_value chunk.
Proof.
  unfold binary_value, chunk_value. rewrite map_rev, <- (fold_left_rev_right (fun d v => 2 * v + (d - 48))), rev_involutive.
  induction chunk as [|v chunk IH]; [done|]. cbn [map foldr]. rewrite IH. by destruct v.
Qed.

Fixpoint chunks (n : nat) bits : list Z :=
  match n with 0%nat => [] | S n => chunk_value (take 8 bits) :: chunks n (drop 8 bits) end.

Lemma filter_loop_chunks n : forall bits suffix,
  length bits = (8 * n)%nat ->
  filter_loop n (Z.of_nat (length bits)) (map (fun v : bool => if v then 49 else 48) (rev bits) ++ suffix)
  = Done (chunks n bits).
Proof.
  induction n as [|n IH]; intros bits suffix Hl; [done|]. cbn [filter_loop chunks].
  assert (exists c rest, bits = c ++ rest /\ length c = 8 /\ length rest = 8 * n)%nat as (c & rest & -> & Hc & Hr).
  { exists (take 8 bits), (drop 8 bits). rewrite take_drop, length_take, length_drop. split_and!; lia || done. }
  rewrite take_app_length', drop_app_length' by done. rewrite rev_app_distr, map_app, <- app_assoc, length_app. set (d := fun v : bool => if v then 49 else 48).
  assert (Z.of_nat (length c + length rest) - 8 = Z.of_nat (length rest)) as -> by lia.
  unfold substr. rewrite !length_app, length_map, length_rev.
  destruct (Z.leb_spec 0 (Z.of_nat (length rest))); [|lia].
  destruct (Z.leb_spec (Z.of_nat (length rest)) (Z.of_nat (length rest + (length (map d (rev c)) + length suffix)))); [|lia].
  cbn [andb]. rewrite Nat2Z.id, drop_app_length' by (by rewrite length_map, length_rev).
  rewrite take_app_length' by (rewrite length_map, length_rev, Hc; done). rewrite !done_bind.
  unfold d. rewrite IH by done. rewrite done_bind, binary_value_chunk. do 2 f_equal.
  rewrite land_255. destruct (chunk_read c Hc) as [Hb _]. unfold is_byte in Hb. rewrite Z.mod_small by lia. by apply u8_id.
Qed.

Lemma filter_bytes_chunks n bits :
  length bits = (8 * n)%nat -> filter_bytes bits = Done (chunks n bits) /\ length (chunks n bits) = n.
Proof.
  intros Hl. split.
  - unfold filter_bytes, bits_ToString. rewrite <- (app_nil_r (map _ (rev bits))).
    rewrite Hl at 1. rewrite (Nat.mul_comm 8 n), Nat.div_mul by done. by apply filter_loop_chunks.
  - clear Hl. revert bits. induction n as [|n IH]; intros bits; cbn; [done|]. by rewrite IH.
Qed.
(** The constructor from bytes. *)
Lemma set_byte_run n : forall i k b pre mid post,
  length pre = (k * 8 + i)%nat -> length mid = n ->
  set_byte n i k b (pre ++ mid ++ post) = Done (pre ++ map (read_bit b) (seq i n) ++ post).
Proof.
  induction n as [|n IH]; intros i k b pre mid post Hp Hm; [by destruct mid|]. destruct mid as [|x mid]; [done|].
  cbn [set_byte]. unfold bits_Set. rewrite <- Hp, length_app.
  destruct (Nat.ltb_spec (length pre) (length pre + length ((x :: mid) ++ post))) as [_|?]; [|cbn in *; lia].
  rewrite done_bind. cbn [app]. rewrite insert_app_r_alt, Nat.sub_diag by lia. cbn [insert list_insert].
  fold (read_bit b i). change (read_bit b i :: mid ++ post) with ([read_bit b i] ++ mid ++ post). rewrite app_assoc.
  rewrite IH; [|rewrite length_app; cbn; lia|by injection Hm]. by rewrite <- app_assoc.
Qed.

Lemma set_bytes_run bytes : forall k pre rest,
  length pre = (k * 8)%nat -> length rest = (8 * length bytes)%nat ->
  set_bytes bytes k (pre ++ rest) = Done (pre ++ mjoin (map read_bits bytes)).
Proof.
  induction bytes as [|b bytes IH]; intros k pre rest Hp Hr; cbn [set_bytes map].
  { by destruct rest. }
  cbn [length] in Hr. assert (exists c r, rest = c ++ r /\ length c = 8 /\ length r = 8 * length bytes)%nat as (c & r & -> & Hc & Hl).
  { exists (take 8 rest), (drop 8 rest). rewrite take_drop, length_take, length_drop. split_and!; lia || done. }
  rewrite (set_byte_run 8 0 k b pre c) by lia. rewrite done_bind, app_assoc, IH; [by rewrite <- app_assoc| |done].
  rewrite length_app, Hp, length_map, length_seq. lia.
Qed.

Lemma chunks_read n : forall bits, length bits = (8 * n)%nat -> mjoin (map read_bits (chunks n bits)) = bits.
Proof.
  induction n as [|n IH]; intros bits Hl; cbn [chunks map]; [by destruct bits|].
  rewrite <- (take_drop 8 bits) at 3. cbn [mjoin list_join]. f_equal.
  - apply chunk_read. rewrite length_take. lia.
  - apply IH. rewrite length_drop. lia.
Qed.

(** A filter survives its conversion to bytes. *)
Lemma filter_roundtrip n bits fresh :
  (0 < n)%nat -> length bits = (8 * n)%nat -> length fresh = (8 * n)%nat ->
  exists bytes, filter_bytes bits = Done bytes /\ length bytes = n /\ new_filter fresh bytes = Done bits.
Proof.
  intros Hn Hb Hf. destruct (filter_bytes_chunks n bits Hb) as [Hc Hl]. exists (chunks n bits). split; [done|].
  split; [done|]. unfold new_filter. rewrite Hl, Hf. destruct (Nat.eqb_spec n 0); [lia|].
  destruct (Nat.eqb_spec (n * 8) (8 * n)); [|lia]. cbn [negb].
  rewrite (set_bytes_run _ 0 [] fresh) by (rewrite ?Hl; done). cbn [app]. by rewrite chunks_read.
Qed.

(** Adding only sets bits. *)
Definition more bits bits' : Prop :=
  length bits' = length bits /\ forall i, bits !! i = Some true -> bits' !! i = Some true.
#[local] Instance more_preorder : PreOrder more.
Proof.
  split; [by intros bits|]. intros x y z [Hl H1] [Hl' H2]. split; [congruence|]. auto.
Qed.

Lemma position_below hash bits : bits <> [] -> (position hash bits < length bits)%nat.
Proof.
  intros Hb. assert (0 < length bits)%nat by (destruct bits; [done|cbn; lia]).
  unfold position. pose proof (Z.mod_pos_bound (u64 hash) (Z.of_nat (length bits)) ltac:(lia)). lia.
Qed.

Lemma position_same hash bits bits' : length bits' = length bits -> position hash bits' = position hash bits.
Proof. unfold position. by intros ->. Qed.

Lemma add_hashes_run hashes : forall bits,
  bits <> [] -> exists bits', add_hashes hashes bits = Done bits' /\ more bits bits'
    /\ Forall (fun hash => bits' !! position hash bits' = Some true) hashes.
Proof.
  induction hashes as [|hash hashes IH]; intros bits Hb; cbn [add_hashes].
  { exists bits. by split_and!. }
  pose proof (position_below hash bits Hb) as Hp. unfold bits_Set.
  destruct (Nat.ltb_spec (position hash bits) (length bits)); [|lia]. rewrite done_bind.
  set (bits1 := <[position hash bits := true]> bits).
  assert (more bits bits1) as H1.
  { split; [apply length_insert|]. intros i Hi. unfold bits1. destruct (decide (i = position hash bits)) as [->|].
    - by apply list_lookup_insert_eq.
    - by rewrite list_lookup_insert_ne. }
  assert (bits1 <> []) as Hb1. { intros E. destruct H1 as [Hl _]. rewrite E in Hl. by destruct bits. }
  destruct (IH bits1 Hb1) as (bits' & -> & H2 & Hf). exists bits'. split; [done|]. split; [by transitivity bits1|].
  constructor; [|done]. rewrite (position_same hash bits bits') by (destruct H1, H2; congruence).
  apply H2. unfold bits1. by apply list_lookup_insert_eq.
Qed.

Lemma test_hashes_true hashes bits :
  Forall (fun hash => bits !! position hash bits = Some true) hashes -> test_hashes hashes bits = Done true.
Proof. induction 1 as [|hash hashes E _ IH]; [done|]. cbn [test_hashes]. unfold bits_Test. by rewrite E. Qed.

Lemma test_hashes_more hashes bits bits' :
  more bits bits' -> test_hashes hashes bits = Done true -> test_hashes hashes bits' = Done true.
Proof.
  intros [Hl Hm]. induction hashes as [|hash hashes IH]; [done|]. cbn [test_hashes]. unfold bits_Test.
  rewrite (position_same hash bits bits') by done. destruct (bits !! position hash bits) as [v|] eqn:E; [|done].
  rewrite done_bind. destruct v; [|done]. rewrite (Hm _ E). apply IH.
Qed.

(** The services an advertiser puts into its filter, in turn. *)
Fixpoint add_all (services : list (list Z)) bits : outcome BitSet :=
  match services with
  | [] => Done bits
  | s :: services => let! bits := Add s bits in add_all services bits
  end.

Lemma add_all_run services : forall bits,
  bits <> [] -> exists bits', add_all services bits = Done bits' /\ more bits bits'
    /\ forall s, s ∈ services -> PossiblyContains s bits' = Done true.
Proof.
  induction services as [|s services IH]; intros bits Hb; cbn [add_all].
  { exists bits. split_and!; [done..|]. by intros s ?%not_elem_of_nil. }
  destruct (add_hashes_run (GetHashes s) bits Hb) as (bits1 & E1 & H1 & Hf). unfold Add. rewrite E1, done_bind.
  assert (bits1 <> []) as Hb1. { intros E. destruct H1 as [Hl _]. rewrite E in Hl. by destruct bits. }
  destruct (IH bits1 Hb1) as (bits' & -> & H2 & Hs). exists bits'. split; [done|]. split; [by transitivity bits1|].
  intros s' [->|Hin]%elem_of_cons; [|by apply Hs].
  unfold PossiblyContains. eapply test_hashes_more; [exact H2|]. by apply test_hashes_true.
Qed.

(** C33. The Bloom filter of an advertiser reaches the scanner without false negatives.
    For any capacity of [n] bytes and any services added to the filter, the conversion
    to bytes gives [n] bytes, the filter the scanner makes from them is that of the
    advertiser, and it contains every service that was added; no access is out of
    range. *)
Theorem BloomFilter_reaches_scanner n services s :
  (0 < n)%nat -> s ∈ services ->
  exists bits bytes, add_all services (new_bits n) = Done bits
    /\ filter_bytes bits = Done bytes /\ length bytes = n
    /\ new_filter (new_bits n) bytes = Done bits /\ PossiblyContains s bits = Done true.
Proof.
  intros Hn Hs. assert (length (new_bits n) = (8 * n)%nat) as Hl by (unfold new_bits; rewrite length_replicate; lia).
  destruct (add_all_run services (new_bits n)) as (bits & E & [Hm _] & Hc).
  { intros E. rewrite E in Hl. cbn in Hl. lia. }
  destruct (filter_roundtrip n bits (new_bits n) Hn) as (bytes & Hb & Hlb & Hf); [congruence|done|].
  exists bits, bytes. by split_and!; auto.
Qed.
End Filters.

(** * Headers *)
Section Headers.
Context {ct : CharType} {B : Base64} {Bspec : Base64Spec B} {F : BleFlags}.
Import BaseInputStream BleAdvertisementHeader.

Lemma header_byte_read extended slots :
  let h := MakeHeader kV2 extended slots [] [] 0 in
  let b := default 0 (head (raw_header h)) in
  0 <= slots -> is_byte b /\ Z.shiftr (Z.land (char_int b) kVersionBitmask) 5 = kV2
  /\ (Z.shiftr (Z.land (char_int b) kExtendedAdvertismentBitMask) 4 =? 1) = extended
  /\ Z.land (char_int b) kNumSlotsBitmask = slots mod 16.
Proof.
  intros h b Hs.
  assert (exists n, 0 <= n < 16 /\ n = slots mod 16) as (n & Hn & En)
    by (exists (slots mod 16); split; [apply Z.mod_pos_bound; lia|done]).
  assert (b = u8 (Z.lor (u8 (Z.lor 0x40 (if extended then 0x10 else 0))) n)) as ->.
  { unfold b, h, raw_header. cbn [head default header_version_ support_extended_advertisement_ num_slots_].
    assert (Z.land (char_int slots) kNumSlotsBitmask = n) as ->.
    { change kNumSlotsBitmask with 15. rewrite land_15, En. unfold char_int, s8, u8.
      destruct char_is_signed; [case_match|]; Z.div_mod_to_equations; lia. }
    change (char_int kV2) with (char_int 2). rewrite char_int_small by lia. by destruct extended. }
  rewrite <- En. clear -Hn. set (P := fun n => let b := u8 (Z.lor (u8 (Z.lor 0x40 (if extended then 0x10 else 0))) n) in
    (b <? 256) && (0 <=? b) && (Z.shiftr (Z.land (char_int b) kVersionBitmask) 5 =? kV2)
    && eqb (Z.shiftr (Z.land (char_int b) kExtendedAdvertismentBitMask) 4 =? 1) extended
    && (Z.land (char_int b) kNumSlotsBitmask =? n)).
  assert (P n = true) as HP.
  { apply (range_cases P 16); [|done]. unfold P, char_int. by destruct extended, char_is_signed; vm_compute. }
  unfold P in HP. rewrite !andb_true_iff in HP. destruct HP as ((((H1 & H2) & H3) & H4%eqb_prop) & H5).
  unfold is_byte. split; [lia|]. split; [by apply Z.eqb_eq|]. split; [done|]. by apply Z.eqb_eq.
Qed.

Lemma parse_raw_header extended slots filter hash psm :
  0 <= slots -> length filter = 10%nat -> length hash = 4%nat ->
  parse_header (raw_header (MakeHeader kV2 extended slots filter hash psm))
  = MakeHeader kV2 extended (slots mod 16) filter hash (psm_received psm).
Proof.
  intros Hs Hf Hh. destruct (header_byte_read extended slots Hs) as (Hb & Ev & Ee & En).
  change (raw_header _) with (default 0 (head (raw_header (MakeHeader kV2 extended slots [] [] 0))) ::
    filter ++ hash ++ psm_bytes psm). set (b := default 0 _) in *. clearbody b.
  unfold parse_header. rewrite psm_bytes_eq, new_input_at.
  rewrite ReadUint8_cons by (done || (cbn [length]; rewrite !length_app, Hf, Hh; cbn; lia)).
  rewrite Ev, Ee, En, Z.eqb_refl. cbn [negb].
  destruct (Z.ltb_spec (slots mod 16) 0) as [Hneg|_]; [pose proof (Z.mod_pos_bound slots 16); lia|].
  rewrite ReadBytes_app by (by rewrite ?Hf || (rewrite !length_app, Hf, Hh; cbn; lia)).
  rewrite ReadBytes_app by (by rewrite ?Hh || (rewrite !length_app, Hh; cbn; lia)).
  unfold kPsmValueByteLength. rewrite IsAvailable_at by (cbn; lia). cbn [length Z.of_nat].
  rewrite ReadUint16_cons by (cbn; lia). cbn [fst]. by rewrite read_psm.
Qed.

(** A header of the BLE medium is read back from its bytes: filter, hash and the
    flag of extended advertisements are those that were written, the number of slots
    modulo 16, and of the PSM the low byte.  With the flag kEnableBleV2 the bytes are
    sent as they are, and the reader must not take them for Base64 text; without it they
    are sent as Base64. *)
Theorem BleAdvertisementHeader_roundtrip extended slots filter hash psm :
  let h := new_header kV2 extended slots filter hash psm in
  header_IsValid h = true -> bytes_ok filter -> bytes_ok hash ->
  (kEnableBleV2 = true -> WebSafeBase64Unescape (header_bytes h) = None) ->
  header_of_bytes (header_bytes h) = MakeHeader kV2 extended (slots mod 16) filter hash (psm_received psm).
Proof.
  intros h Hv Hfb Hhb Hraw. unfold h, new_header in *. rewrite Z.eqb_refl in *. cbn [negb orb] in *.
  destruct (Z.ltb_spec slots 0) as [|Hs]; [done|]. cbn [orb] in *.
  destruct (Z.eqb_spec (Z.of_nat (length filter)) kServiceIdBloomFilterByteLength) as [Hf|]; [|done].
  destruct (Z.eqb_spec (Z.of_nat (length hash)) kAdvertisementHashByteLength) as [Hh|]; [|done].
  cbn [negb orb] in *. unfold kServiceIdBloomFilterByteLength, kAdvertisementHashByteLength in *.
  set (h0 := MakeHeader kV2 extended slots filter hash psm) in *. unfold header_bytes in *.
  change (header_IsValid h0) with true in *. cbn [negb] in *.
  assert (length (raw_header h0) = 17%nat) as Hl.
  { unfold raw_header, h0. cbn [length service_id_bloom_filter_ advertisement_hash_].
    rewrite !length_app. cbn. lia. }
  assert (bytes_ok (raw_header h0)) as Hb.
  { unfold raw_header. constructor; [apply u8_byte|]. rewrite !bytes_ok_app. split_and!; [done|done|].
    unfold psm_bytes. repeat constructor; apply u8_byte. }
  unfold header_of_bytes, Base64_Decode, Base64_Encode.
  assert (Z.of_nat (length (raw_header h0)) = 17) as Hl' by lia.
  assert ((Z.of_nat (length (raw_header h0)) <? kMinAdvertisementHeaderLength) = false) as Hmin by (by rewrite Hl').
  destruct kEnableBleV2.
  - rewrite Hraw by done. change (default [] None) with (@nil Z). cbv zeta iota.
    replace (true && _) with true by (by rewrite Hl'). rewrite Hmin. apply parse_raw_header; lia.
  - rewrite unescape_escape by done. change (default [] (Some ?x)) with x. cbv zeta.
    destruct (raw_header h0) as [|b l] eqn:E; [done|]. rewrite <- E in *. rewrite Hmin. apply parse_raw_header; lia.
Qed.
End Headers.
