(* ===== verification/BleTracker.v ===== *)
(** Discovery over Bluetooth LE in Nearby Connections, after
    src/connections/implementation/mediums/ble_v2/discovered_peripheral_tracker,
    advertisement_read_result and mediums/lost_entity_tracker.h: which advertisements of
    which services are around, and when a client is told that a peripheral is found or
    lost.

    The hash containers are [gmap] and [gset]; the order in which the code goes through
    one is that of the class [HashOrder], about which only that it is a permutation is
    known.  The objects [AdvertisementReadResult] are owned by a map and referred to by
    pointers while an advertisement is fetched: they live in a store of their own, and an
    access to one that has been deleted is a [Fault].

    A step ([TrackerEvent]) is a call from outside, which holds the mutex to its end, or a
    turn of the thread that reads GATT advertisements when the flag
    kEnableGattQueryInThread is set: the parts of its closure that hold the mutex, and
    the part in between, are turns of their own.  What a step sees of its surroundings is
    its [Environment]: the clock and which peripherals are in reach.  The callbacks of the
    clients are recorded in [reports]. *)

From Stdlib Require Import ZArith Lia.
From stdpp Require Import base list numbers gmap.
From S2P Require Import Prelude Utils CppBase BleData.
Import Uuids BleAdvertisementHeader BleAdvertisement.

Open Scope Z_scope.
Open Scope fp_scope.

(** The keys of the maps. *)
#[export] Instance Uuid_countable : Countable Uuid.
Proof.
  refine (inj_countable' (fun u => (most_sig_bits_ u, least_sig_bits_ u)) (fun '(m, l) => MakeUuid m l) _).
  by intros [].
Defined.
#[export] Instance BleAdvertisementHeader_countable : Countable BleAdvertisementHeader.
Proof.
  refine (inj_countable'
    (fun h => (header_version_ h, support_extended_advertisement_ h, num_slots_ h, service_id_bloom_filter_ h,
               advertisement_hash_ h, header_psm_ h))
    (fun '(v, e, n, f, a, p) => MakeHeader v e n f a p) _).
  by intros [].
Defined.
#[export] Instance BleAdvertisement_countable : Countable BleAdvertisement.
Proof.
  refine (inj_countable'
    (fun a => (version_ a, socket_version_ a, fast_advertisement_ a, service_id_hash_ a, data_ a, device_token_ a, psm_ a))
    (fun '(v, s, f, h, d, t, p) => MakeAdvertisement v s f h d t p) _).
  by intros [].
Defined.

Class HashOrder : Type := { in_order : forall {A : Type}, list A -> list A }.
Class HashOrderSpec (O : HashOrder) : Prop := {
  in_order_perm : forall {A : Type} (l : list A), in_order l ≡ₚ l;
}.

(** The flag kEnableGattQueryInThread. *)
Class ThreadFlag : Type := { kEnableGattQueryInThread : bool }.

(** * The results of reading *)
Module AdvertisementReadResult.

(** [kDefaultConfig], in milliseconds. *)
Definition backoff_multiplier : Z := 2.
Definition base_backoff_duration : Z := 1000.
Definition max_backoff_duration : Z := 5 * 60 * 1000.

Inductive RetryStatus : Type := kUnknownStatus | kRetry | kPreviouslySucceeded | kTooSoon.
Inductive Result : Type := kFailure | kSuccess.
#[export] Instance Result_eq_dec : EqDecision Result.
Proof. solve_decision. Defined.

Record AdvertisementReadResult : Type := MakeReadResult {
  advertisements_ : gmap Z (list Z);
  backoff_duration_ : Z;
  last_read_timestamp_ : Z;
  result_ : option Result;
}.
Implicit Types r : AdvertisementReadResult.

(** The clock is [now]. *)
Definition new_read_result (now : Z) : AdvertisementReadResult :=
  MakeReadResult ∅ base_backoff_duration (now - max_backoff_duration) None.

Definition AddAdvertisement (slot : Z) (advertisement : list Z) r : AdvertisementReadResult :=
  MakeReadResult (<[slot := advertisement]> (advertisements_ r)) (backoff_duration_ r) (last_read_timestamp_ r) (result_ r).
Definition HasAdvertisement (slot : Z) r : bool := bool_decide (is_Some (advertisements_ r !! slot)).

Definition GetAdvertisements {O : HashOrder} r : list (list Z) :=
  map snd (in_order (map_to_list (advertisements_ r))).

Definition GetDurationSinceRead (now : Z) r : Z := now - last_read_timestamp_ r.

Definition EvaluateRetryStatus (now : Z) r : RetryStatus :=
  if bool_decide (result_ r = Some kSuccess) then kPreviouslySucceeded else
  if GetDurationSinceRead now r <? backoff_duration_ r then kTooSoon else kRetry.

Definition RecordLastReadStatus (now : Z) (is_success : bool) r : AdvertisementReadResult :=
  let backoff :=
    if is_success then base_backoff_duration
    else if bool_decide (result_ r = Some kFailure)
    then Z.min (backoff_multiplier * backoff_duration_ r) max_backoff_duration
    else base_backoff_duration in
  MakeReadResult (advertisements_ r) backoff now (Some (if is_success then kSuccess else kFailure)).
End AdvertisementReadResult.
Import AdvertisementReadResult.

(** * Lost entities *)
Module LostEntityTracker.
Record LostEntityTracker : Type := MakeLostTracker {
  current_entities_ : gset BleAdvertisement;
  previously_found_entities_ : gset BleAdvertisement;
}.
Definition new_lost_tracker : LostEntityTracker := MakeLostTracker ∅ ∅.
Definition RecordFoundEntity (entity : BleAdvertisement) (t : LostEntityTracker) : LostEntityTracker :=
  MakeLostTracker ({[entity]} ∪ current_entities_ t) (previously_found_entities_ t).
Definition ComputeLostEntities (t : LostEntityTracker) : gset BleAdvertisement * LostEntityTracker :=
  (previously_found_entities_ t ∖ current_entities_ t, MakeLostTracker ∅ (current_entities_ t)).
End LostEntityTracker.
Import LostEntityTracker.

(** * The state *)

(** A [BleV2Peripheral]; its platform object is found by [unique_id_]. *)
Record BleV2Peripheral : Type := MakePeripheral {
  unique_id_ : option Z;
  id_ : list Z;
  peripheral_psm_ : Z;
}.
Definition SetId (id : list Z) (p : BleV2Peripheral) : BleV2Peripheral :=
  MakePeripheral (unique_id_ p) id (peripheral_psm_ p).
Definition peripheral_SetPsm (psm : Z) (p : BleV2Peripheral) : BleV2Peripheral :=
  MakePeripheral (unique_id_ p) (id_ p) psm.

Record Environment : Type := MakeEnvironment {
  now : Z;
  GetRemotePeripheral : Z -> bool;
}.
Definition peripheral_IsValid (w : Environment) (p : BleV2Peripheral) : bool :=
  match unique_id_ p with Some u => GetRemotePeripheral w u | None => false end.

Record BleAdvertisementData : Type := MakeData {
  is_extended_advertisement : bool;
  service_data : gmap Uuid (list Z);
}.

(** [fetch_advertisements]: reads advertisements into the result. *)
Definition AdvertisementFetcher : Type :=
  Environment -> BleV2Peripheral -> Z -> Z -> list (list Z) -> AdvertisementReadResult -> AdvertisementReadResult.

(** [client] tells apart the callbacks given to [StartTracking]. *)
Record ServiceIdInfo : Type := MakeServiceIdInfo {
  client : nat;
  lost_entity_tracker : LostEntityTracker;
  fast_advertisement_service_uuid : Uuid;
}.
Record GattAdvertisementInfo : Type := MakeInfo {
  service_id : list Z;
  advertisement_header : BleAdvertisementHeader;
  peripheral : BleV2Peripheral;
}.

Inductive Report : Type :=
| peripheral_discovered_cb (client : nat) (p : BleV2Peripheral) (service_id data : list Z) (fast : bool)
| peripheral_lost_cb (client : nat) (p : BleV2Peripheral) (service_id data : list Z) (fast : bool).

(** The closure [HandleAdvertisementHeader] gives to the executor, and how far the thread
    has come with one: it has found the header interesting, it has a pointer to the
    result, it has pointers to the bytes in the result. *)
Record Job : Type := MakeJob {
  job_peripheral : BleV2Peripheral;
  job_header : BleAdvertisementHeader;
  job_fetcher : AdvertisementFetcher;
  job_data : list Z;
}.
Inductive Thread : Type :=
| Idle
| Checked (j : Job)
| Fetching (j : Job) (result : nat) (service_ids : list (list Z))
| Fetched (j : Job) (result : nat) (bytes_list : list (list Z)).

Record Tracker : Type := MakeTracker {
  is_extended_advertisement_available_ : bool;
  service_id_infos_ : gmap (list Z) ServiceIdInfo;
  advertisement_read_results_ : gmap BleAdvertisementHeader nat;
  read_results : gmap nat AdvertisementReadResult;
  next_result : nat;
  gatt_advertisements_ : gmap BleAdvertisementHeader (gset BleAdvertisement);
  gatt_advertisement_infos_ : gmap BleAdvertisement GattAdvertisementInfo;
  fetching_advertisements_ : gset (list Z);
  executor_ : list Job;
  thread : Thread;
  reports : list Report;
}.

Section Setters.
Implicit Types t : Tracker.
Definition set_service_id_infos (v : gmap (list Z) ServiceIdInfo) t : Tracker :=
  MakeTracker (is_extended_advertisement_available_ t) v (advertisement_read_results_ t) (read_results t) (next_result t)
    (gatt_advertisements_ t) (gatt_advertisement_infos_ t) (fetching_advertisements_ t) (executor_ t) (thread t) (reports t).
Definition set_read_results (v : gmap BleAdvertisementHeader nat) (o : gmap nat AdvertisementReadResult) (n : nat) t : Tracker :=
  MakeTracker (is_extended_advertisement_available_ t) (service_id_infos_ t) v o n
    (gatt_advertisements_ t) (gatt_advertisement_infos_ t) (fetching_advertisements_ t) (executor_ t) (thread t) (reports t).
Definition set_gatt_advertisements (v : gmap BleAdvertisementHeader (gset BleAdvertisement)) t : Tracker :=
  MakeTracker (is_extended_advertisement_available_ t) (service_id_infos_ t) (advertisement_read_results_ t) (read_results t)
    (next_result t) v (gatt_advertisement_infos_ t) (fetching_advertisements_ t) (executor_ t) (thread t) (reports t).
Definition set_gatt_advertisement_infos (v : gmap BleAdvertisement GattAdvertisementInfo) t : Tracker :=
  MakeTracker (is_extended_advertisement_available_ t) (service_id_infos_ t) (advertisement_read_results_ t) (read_results t)
    (next_result t) (gatt_advertisements_ t) v (fetching_advertisements_ t) (executor_ t) (thread t) (reports t).
Definition set_fetching (v : gset (list Z)) (jobs : list Job) (th : Thread) t : Tracker :=
  MakeTracker (is_extended_advertisement_available_ t) (service_id_infos_ t) (advertisement_read_results_ t) (read_results t)
    (next_result t) (gatt_advertisements_ t) (gatt_advertisement_infos_ t) v jobs th (reports t).
Definition report (r : Report) t : Tracker :=
  MakeTracker (is_extended_advertisement_available_ t) (service_id_infos_ t) (advertisement_read_results_ t) (read_results t)
    (next_result t) (gatt_advertisements_ t) (gatt_advertisement_infos_ t) (fetching_advertisements_ t) (executor_ t)
    (thread t) (reports t ++ [r]).

(** The map that owns the read results.  An entry that is erased deletes its object. *)
Definition erase_read_result (h : BleAdvertisementHeader) t : Tracker :=
  match advertisement_read_results_ t !! h with
  | Some a => set_read_results (delete h (advertisement_read_results_ t)) (delete a (read_results t)) (next_result t) t
  | None => t
  end.
Definition clear_read_results t : Tracker := set_read_results ∅ ∅ (next_result t) t.
(** [insert], which keeps the entry of a key that is there, and [operator[]] with the
    creation of a missing result: the address of the entry. *)
Definition insert_read_result (now : Z) (h : BleAdvertisementHeader) t : nat * Tracker :=
  match advertisement_read_results_ t !! h with
  | Some a => (a, t)
  | None =>
    let a := next_result t in
    (a, set_read_results (<[h := a]> (advertisement_read_results_ t)) (<[a := new_read_result now]> (read_results t)) (S a) t)
  end.
Definition store_read_result (a : nat) (r : AdvertisementReadResult) t : Tracker :=
  set_read_results (advertisement_read_results_ t) (<[a := r]> (read_results t)) (next_result t) t.
End Setters.

Definition new_tracker (is_extended_advertisement_available : bool) : Tracker :=
  MakeTracker is_extended_advertisement_available ∅ ∅ ∅ 0 ∅ ∅ ∅ [] Idle [].

(** * The tracker *)
Module DiscoveredPeripheralTracker.
Section Operations.
Context {ct : CharType} {H : Hashes} {B : Base64} {F : BleFlags} {TF : ThreadFlag} {O : HashOrder}.
Implicit Types t : Tracker.

(** The service ids, in the order of an iteration over [service_id_infos_]. *)
Definition tracked_services t : list (list Z * ServiceIdInfo) := in_order (map_to_list (service_id_infos_ t)).

Definition ClearGattAdvertisement (gatt_advertisement : BleAdvertisement) t : Tracker :=
  match gatt_advertisement_infos_ t !! gatt_advertisement with
  | None => t
  | Some info =>
    let t := set_gatt_advertisement_infos (delete gatt_advertisement (gatt_advertisement_infos_ t)) t in
    let h := advertisement_header info in
    match gatt_advertisements_ t !! h with
    | None => t
    | Some gatt_advertisement_set =>
      let gatt_advertisement_set := gatt_advertisement_set ∖ {[gatt_advertisement]} in
      let t := set_gatt_advertisements (<[h := gatt_advertisement_set]> (gatt_advertisements_ t)) t in
      let t := erase_read_result h t in
      if bool_decide (gatt_advertisement_set = ∅)
      then set_gatt_advertisements (delete h (gatt_advertisements_ t)) t else t
    end
  end.

Definition ClearDataForServiceId (sid : list Z) t : Tracker :=
  let advertisement_list :=
    map fst (filter (fun it => service_id (snd it) = sid) (in_order (map_to_list (gatt_advertisement_infos_ t)))) in
  fold_left (fun t a => ClearGattAdvertisement a t) advertisement_list t.

Definition StartTracking (sid : list Z) (cb : nat) (fast_advertisement_service_uuid : Uuid) t : Tracker :=
  let info := MakeServiceIdInfo cb new_lost_tracker fast_advertisement_service_uuid in
  let t := set_service_id_infos (<[sid := info]> (service_id_infos_ t)) t in
  let t := clear_read_results t in
  ClearDataForServiceId sid t.

Definition StopTracking (sid : list Z) t : Tracker := set_service_id_infos (delete sid (service_id_infos_ t)) t.

(** [ProcessLostGattAdvertisements]: one lost advertisement of a service. *)
Definition process_lost (w : Environment) (cb : nat) (sid : list Z) (gatt_advertisement : BleAdvertisement) t : Tracker :=
  let t :=
    match gatt_advertisement_infos_ t !! gatt_advertisement with
    | Some info =>
      if peripheral_IsValid w (peripheral info)
      then report (peripheral_lost_cb cb (SetId (advertisement_bytes gatt_advertisement) (peripheral info)) sid
             (data_ gatt_advertisement) (fast_advertisement_ gatt_advertisement)) t
      else t
    | None => t
    end in
  ClearGattAdvertisement gatt_advertisement t.

Definition set_lost_tracker (sid : list Z) (l : LostEntityTracker) t : Tracker :=
  set_service_id_infos (alter (fun i => MakeServiceIdInfo (client i) l (fast_advertisement_service_uuid i)) sid
    (service_id_infos_ t)) t.

(** The turn of the loop for a service. *)
Definition process_lost_service (w : Environment) (sid : list Z) t : Tracker :=
  match service_id_infos_ t !! sid with
  | None => t
  | Some info =>
    let '(lost, l) := ComputeLostEntities (lost_entity_tracker info) in
    fold_left (fun t a => process_lost w (client info) sid a t) (in_order (elements lost)) (set_lost_tracker sid l t)
  end.
Definition ProcessLostGattAdvertisements (w : Environment) t : Tracker :=
  fold_left (fun t it => process_lost_service w (fst it) t) (tracked_services t) t.

Definition ExtractAdvertisementHeaderBytes (d : BleAdvertisementData) : list Z :=
  default [] (service_data d !! kCopresenceServiceUuid).

Definition IsSkippableGattAdvertisement (d : BleAdvertisementData) t : bool :=
  if negb (is_extended_advertisement_available_ t) then false else
  let h := header_of_bytes (ExtractAdvertisementHeaderBytes d) in
  header_IsValid h && support_extended_advertisement_ h.

(** The first service with data for its UUID. *)
Fixpoint first_service_data (services : list (list Z * ServiceIdInfo)) (d : BleAdvertisementData) : list Z :=
  match services with
  | [] => []
  | (_, info) :: services =>
    match service_data d !! fast_advertisement_service_uuid info with
    | Some bytes => bytes
    | None => first_service_data services d
    end
  end.
Definition ExtractInterestingAdvertisementBytes (d : BleAdvertisementData) t : list Z :=
  first_service_data (tracked_services t) d.

(** An empty Bloom filter of the size of a header's. *)
Definition empty_filter : outcome (list Z) :=
  BloomFilter.filter_bytes (BloomFilter.new_bits (Z.to_nat kServiceIdBloomFilterByteLength)).

Definition CreateAdvertisementHeader (bytes : list Z) : outcome BleAdvertisementHeader :=
  let! filter := empty_filter in
  Done (new_header kV2 false 1 filter (GenerateAdvertisementHash bytes) kDefaultPsmValue).

(** [ParseRawGattAdvertisements]: the loop over the services for one advertisement. *)
Fixpoint match_services (services : list (list Z * ServiceIdInfo)) (gatt_advertisement : BleAdvertisement)
    (service_uuid : Uuid) (parsed : gmap (list Z) BleAdvertisement) : gmap (list Z) BleAdvertisement :=
  match services with
  | [] => parsed
  | (sid, info) :: services =>
    let insert_ := match parsed !! sid with Some _ => parsed | None => <[sid := gatt_advertisement]> parsed end in
    if match parsed !! sid with Some a => version_ gatt_advertisement <? version_ a | None => false end
    then match_services services gatt_advertisement service_uuid parsed
    else if fast_advertisement_ gatt_advertisement && negb (IsEmpty service_uuid) then
      match_services services gatt_advertisement service_uuid
        (if bool_decide (fast_advertisement_service_uuid info = service_uuid) then insert_ else parsed)
    else if bytes_eqb (GenerateServiceIdHash sid) (service_id_hash_ gatt_advertisement) then insert_
    else match_services services gatt_advertisement service_uuid parsed
  end.

Definition ParseRawGattAdvertisements (bytes_list : list (list Z)) (service_uuid : Uuid) t
  : gmap (list Z) BleAdvertisement :=
  fold_left (fun parsed bytes =>
    let a := advertisement_of_bytes bytes in
    if negb (IsValid a) then parsed else match_services (tracked_services t) a service_uuid parsed)
    bytes_list ∅.

Definition ShouldNotifyForNewPsm (old_psm new_psm : Z) : bool :=
  negb (new_psm =? kDefaultPsmValue) && negb (old_psm =? new_psm).

Definition IsDummyAdvertisementHeader (h : BleAdvertisementHeader) : outcome bool :=
  let! filter := empty_filter in
  Done ((header_version_ h =? kV2) && (num_slots_ h =? 1) && bytes_eqb (service_id_bloom_filter_ h) filter).

Definition ShouldRemoveHeader (old_header new_header : BleAdvertisementHeader) t : outcome bool :=
  if bool_decide (old_header = new_header) then Done false else
  if is_extended_advertisement_available_ t then
    let! old_dummy := IsDummyAdvertisementHeader old_header in
    let! new_dummy := IsDummyAdvertisementHeader new_header in
    Done (negb (negb old_dummy && new_dummy))
  else Done true.

(** The variables of the loop of [HandleRawGattAdvertisements]: the peripheral, the
    new header and the set. *)
Record Handling : Type := MakeHandling {
  handled_peripheral : BleV2Peripheral;
  handled_header : BleAdvertisementHeader;
  handled_set : gset BleAdvertisement;
}.

(** One turn of the loop. *)
Definition handle_advertisement (w : Environment) (item : list Z * BleAdvertisement) (v : Handling) t
  : outcome (Handling * Tracker) :=
  let '(sid, a) := item in
  let old_header := match gatt_advertisement_infos_ t !! a with Some i => advertisement_header i | None => no_header end in
  let new_psm := header_psm_ (handled_header v) in
  let changed := negb (psm_ a =? kDefaultPsmValue) && negb (psm_ a =? new_psm) in
  let new_psm := if changed then psm_ a else new_psm in
  let h := if changed then header_SetPsm new_psm (handled_header v) else handled_header v in
  let v := MakeHandling (handled_peripheral v) h ({[a]} ∪ handled_set v) in
  let store (p : BleV2Peripheral) t :=
    Done (MakeHandling p h (handled_set v),
          set_gatt_advertisement_infos (<[a := MakeInfo sid h p]> (gatt_advertisement_infos_ t)) t) in
  if negb (header_IsValid old_header) || ShouldNotifyForNewPsm (header_psm_ old_header) new_psm then
    match service_id_infos_ t !! sid with
    | None => Done (v, t)
    | Some info =>
      if peripheral_IsValid w (handled_peripheral v) then
        let p := peripheral_SetPsm new_psm (handled_peripheral v) in
        store p (report (peripheral_discovered_cb (client info) (SetId (advertisement_bytes a) p) sid (data_ a)
                           (fast_advertisement_ a)) t)
      else store (handled_peripheral v) t
    end
  else if negb (header_psm_ old_header =? kDefaultPsmValue) && (header_psm_ h =? kDefaultPsmValue) then Done (v, t)
  else
    let! remove := ShouldRemoveHeader old_header h t in
    let t := if remove : bool
             then let t := erase_read_result old_header t in
                  set_gatt_advertisements (delete old_header (gatt_advertisements_ t)) t
             else t in
    store (handled_peripheral v) t.

Fixpoint handle_advertisements (w : Environment) (items : list (list Z * BleAdvertisement)) (v : Handling) t
  : outcome (Handling * Tracker) :=
  match items with
  | [] => Done (v, t)
  | item :: items =>
    let! '(v, t) := handle_advertisement w item v t in
    handle_advertisements w items v t
  end.

(** [insert] keeps the set of a header that is there. *)
Definition HandleRawGattAdvertisements (w : Environment) (p : BleV2Peripheral) (h : BleAdvertisementHeader)
    (bytes_list : list (list Z)) (service_uuid : Uuid) t : outcome (BleAdvertisementHeader * Tracker) :=
  let parsed := ParseRawGattAdvertisements bytes_list service_uuid t in
  let! '(v, t) := handle_advertisements w (in_order (map_to_list parsed)) (MakeHandling p h ∅) t in
  let t := match gatt_advertisements_ t !! handled_header v with
           | Some _ => t
           | None => set_gatt_advertisements (<[handled_header v := handled_set v]> (gatt_advertisements_ t)) t
           end in
  Done (handled_header v, t).

Definition record_found (a : BleAdvertisement) t : Tracker :=
  match gatt_advertisement_infos_ t !! a with
  | None => t
  | Some info =>
    match service_id_infos_ t !! service_id info with
    | Some i => set_lost_tracker (service_id info) (RecordFoundEntity a (lost_entity_tracker i)) t
    | None => t
    end
  end.
Definition UpdateCommonStateForFoundBleAdvertisement (h : BleAdvertisementHeader) t : Tracker :=
  match gatt_advertisements_ t !! h with
  | None => t
  | Some saved => fold_left (fun t a => record_found a t) (in_order (elements saved)) t
  end.

(** The UUID a fast or regular advertisement was found on. *)
Definition found_uuid (d : BleAdvertisementData) : Uuid :=
  match in_order (map_to_list (delete kCopresenceServiceUuid (service_data d))) with
  | (u, _) :: _ => u
  | [] => kCopresenceServiceUuid
  end.

Definition HandleAdvertisement (w : Environment) (p : BleV2Peripheral) (d : BleAdvertisementData) t : outcome Tracker :=
  let bytes := ExtractInterestingAdvertisementBytes d t in
  match bytes with
  | [] => Done t
  | _ =>
    let! h := CreateAdvertisementHeader bytes in
    let '(_, t) := insert_read_result (now w) h t in
    let! '(h, t) := HandleRawGattAdvertisements w p h [bytes] (found_uuid d) t in
    Done (UpdateCommonStateForFoundBleAdvertisement h t)
  end.

Fixpoint contains_one (bits : list bool) (services : list (list Z * ServiceIdInfo)) : outcome bool :=
  match services with
  | [] => Done false
  | (sid, _) :: services =>
    let! c := BloomFilter.PossiblyContains sid bits in
    if c : bool then Done true else contains_one bits services
  end.
Definition IsInterestingAdvertisementHeader (h : BleAdvertisementHeader) t : outcome bool :=
  let! bits := BloomFilter.new_filter (BloomFilter.new_bits (Z.to_nat kServiceIdBloomFilterByteLength))
    (service_id_bloom_filter_ h) in
  contains_one bits (tracked_services t).

Definition ShouldReadRawAdvertisementFromServer (w : Environment) (h : BleAdvertisementHeader) t : outcome bool :=
  match advertisement_read_results_ t !! h with
  | None => Done true
  | Some a =>
    match read_results t !! a with
    | None => Fault
    | Some r => Done (match EvaluateRetryStatus (now w) r with kRetry | kUnknownStatus => true | _ => false end)
    end
  end.

(** The fetcher on the result at [a]. *)
Definition fetch (w : Environment) (j : Job) (a : nat) (service_ids : list (list Z)) t : outcome Tracker :=
  match read_results t !! a with
  | None => Fault
  | Some r =>
    Done (store_read_result a (job_fetcher j w (job_peripheral j) (num_slots_ (job_header j)) (header_psm_ (job_header j))
            service_ids r) t)
  end.

Definition FetchRawAdvertisements (w : Environment) (j : Job) t : outcome (list (list Z) * Tracker) :=
  let '(a, t) := insert_read_result (now w) (job_header j) t in
  let! t := fetch w j a (map fst (tracked_services t)) t in
  match read_results t !! a with
  | None => Fault
  | Some r => Done (GetAdvertisements r, t)
  end.

Definition HandleAdvertisementHeader (w : Environment) (p : BleV2Peripheral) (d : BleAdvertisementData)
    (fetcher : AdvertisementFetcher) t : outcome Tracker :=
  let h := header_of_bytes (ExtractAdvertisementHeaderBytes d) in
  if negb (header_IsValid h) then Done t else
  let! interesting := IsInterestingAdvertisementHeader h t in
  if negb interesting then Done t else
  let! read := ShouldReadRawAdvertisementFromServer w h t in
  if negb read then Done (UpdateCommonStateForFoundBleAdvertisement h t) else
  if kEnableGattQueryInThread then
    let data := header_bytes h in
    if bool_decide (data ∈ fetching_advertisements_ t) then Done t else
    Done (set_fetching ({[data]} ∪ fetching_advertisements_ t) (executor_ t ++ [MakeJob p h fetcher data]) (thread t) t)
  else
    let! '(bytes_list, t) := FetchRawAdvertisements w (MakeJob p h fetcher []) t in
    let! t := (if (length bytes_list =? 0)%nat then Done t else
               let! '(_, t) := HandleRawGattAdvertisements w p h bytes_list no_uuid t in Done t) in
    Done (UpdateCommonStateForFoundBleAdvertisement h t).

Definition ProcessFoundBleAdvertisement (w : Environment) (p : BleV2Peripheral) (d : BleAdvertisementData)
    (fetcher : AdvertisementFetcher) t : outcome Tracker :=
  if bool_decide (service_id_infos_ t = ∅) then Done t else
  if negb (peripheral_IsValid w p) || bool_decide (service_data d = ∅) then Done t else
  if IsSkippableGattAdvertisement d t then Done t else
  let! t := HandleAdvertisement w p d t in
  HandleAdvertisementHeader w p d fetcher t.

(** * The thread *)

Definition run_thread (w : Environment) t : outcome Tracker :=
  match thread t with
  | Idle =>
    match executor_ t with
    | [] => Done t
    | j :: jobs =>
      let! interesting := IsInterestingAdvertisementHeader (job_header j) t in
      if negb interesting
      then Done (set_fetching (fetching_advertisements_ t ∖ {[job_data j]}) jobs Idle t)
      else Done (set_fetching (fetching_advertisements_ t) jobs (Checked j) t)
    end
  | Checked j =>
    let '(a, t) := insert_read_result (now w) (job_header j) t in
    Done (set_fetching (fetching_advertisements_ t) (executor_ t) (Fetching j a (map fst (tracked_services t))) t)
  | Fetching j a service_ids =>
    let! t := fetch w j a service_ids t in
    match read_results t !! a with
    | None => Fault
    | Some r => Done (set_fetching (fetching_advertisements_ t) (executor_ t) (Fetched j a (GetAdvertisements r)) t)
    end
  | Fetched j a bytes_list =>
    match bytes_list, read_results t !! a with
    | _ :: _, None => Fault
    | _, _ =>
      let! '(_, t) := HandleRawGattAdvertisements w (job_peripheral j) (job_header j) bytes_list no_uuid t in
      let t := UpdateCommonStateForFoundBleAdvertisement (job_header j) t in
      Done (set_fetching (fetching_advertisements_ t ∖ {[job_data j]}) (executor_ t) Idle t)
    end
  end.

(** * Steps *)

Inductive TrackerEvent : Type :=
| Start (sid : list Z) (cb : nat) (uuid : Uuid)
| Stop (sid : list Z)
| Found (p : BleV2Peripheral) (d : BleAdvertisementData) (fetcher : AdvertisementFetcher)
| LostAlarm
| ThreadTurn.

Definition tracker_step (w : Environment) (e : TrackerEvent) t : outcome Tracker :=
  match e with
  | Start sid cb uuid => Done (StartTracking sid cb uuid t)
  | Stop sid => Done (StopTracking sid t)
  | Found p d fetcher => ProcessFoundBleAdvertisement w p d fetcher t
  | LostAlarm => Done (ProcessLostGattAdvertisements w t)
  | ThreadTurn => run_thread w t
  end.

Fixpoint tracker_steps (es : list (Environment * TrackerEvent)) t : outcome Tracker :=
  match es with
  | [] => Done t
  | (w, e) :: es => let! t := tracker_step w e t in tracker_steps es t
  end.
End Operations.
End DiscoveredPeripheralTracker.
