(* ===== verification/BleTrackerSafety.v ===== *)
(** The tracker of the BLE medium is safe: without the reading thread it never accesses a
    deleted object and every step comes to an end, and a client is never told more
    often that a peripheral is lost than that it was found.  With the thread neither
    holds, as examples show. *)

From Stdlib Require Import ZArith Lia.
From stdpp Require Import base list numbers gmap.
From S2P Require Import Prelude Utils CppBase BleData BleTheorems BleTracker.
Import Uuids BleAdvertisementHeader BleAdvertisement AdvertisementReadResult LostEntityTracker.
Import DiscoveredPeripheralTracker.

Open Scope Z_scope.
Open Scope fp_scope.

(** * Counting reports *)
Section Counting.
Context {ct : CharType}.
Implicit Types t : Tracker.

Definition tells_found (id : list Z) (r : Report) : bool :=
  match r with peripheral_discovered_cb _ p _ _ _ => bytes_eqb (id_ p) id | _ => false end.
Definition tells_lost (id : list Z) (r : Report) : bool :=
  match r with peripheral_lost_cb _ p _ _ _ => bytes_eqb (id_ p) id | _ => false end.
Definition found_count (id : list Z) (l : list Report) : nat := length (filter (tells_found id) l).
Definition lost_count (id : list Z) (l : list Report) : nat := length (filter (tells_lost id) l).

(** The advertisements with the bytes [id] that the tracker knows. *)
Definition known (id : list Z) (infos : gmap BleAdvertisement GattAdvertisementInfo) : nat :=
  size (filter (fun a => advertisement_bytes a = id) (dom infos)).

Lemma known_delete id a infos :
  is_Some (infos !! a) ->
  known id infos = (known id (delete a infos) + (if bool_decide (advertisement_bytes a = id) then 1 else 0))%nat.
Proof.
  intros Ha. unfold known. rewrite dom_delete_L.
  assert (a ∈ dom infos) as Hin by (by apply elem_of_dom).
  set (P := fun a => advertisement_bytes a = id).
  assert (filter P (dom infos) = filter P {[a]} ∪ filter P (dom infos ∖ {[a]})) as ->.
  { apply set_eq. intros x. rewrite elem_of_union, !elem_of_filter, elem_of_difference, elem_of_singleton.
    destruct (decide (x = a)) as [->|]; intuition congruence. }
  rewrite size_union by (apply elem_of_disjoint; intros x [_ ->%elem_of_singleton]%elem_of_filter
    [_ [_ Hx]%elem_of_difference]%elem_of_filter; by apply Hx, elem_of_singleton).
  rewrite Nat.add_comm. f_equal. case_bool_decide as Hb.
  - replace (filter P {[a]}) with ({[a]} : gset BleAdvertisement); [apply size_singleton|].
    apply set_eq. intros x. rewrite elem_of_filter, elem_of_singleton. unfold P. intuition congruence.
  - replace (filter P {[a]}) with (∅ : gset BleAdvertisement); [apply size_empty|].
    apply set_eq. intros x. rewrite elem_of_filter, elem_of_singleton, elem_of_empty. unfold P. intuition congruence.
Qed.

Lemma known_insert id a i infos :
  known id (<[a := i]> infos) =
    (known id infos + (if bool_decide (infos !! a = None /\ advertisement_bytes a = id) then 1 else 0))%nat.
Proof.
  destruct (infos !! a) as [i'|] eqn:E.
  - rewrite bool_decide_false by (intuition congruence). rewrite Nat.add_0_r. unfold known. by rewrite dom_insert_lookup_L by eauto.
  - rewrite (known_delete id a (<[a := i]> infos)) by (rewrite lookup_insert_eq; eauto).
    rewrite delete_insert_id by done. f_equal. repeat case_bool_decide; intuition congruence.
Qed.

Lemma found_app id l r : found_count id (l ++ [r]) = (found_count id l + (if tells_found id r then 1 else 0))%nat.
Proof. unfold found_count. rewrite filter_app, length_app. by destruct (tells_found id r) eqn:E; cbn; rewrite ?E. Qed.
Lemma lost_app id l r : lost_count id (l ++ [r]) = (lost_count id l + (if tells_lost id r then 1 else 0))%nat.
Proof. unfold lost_count. rewrite filter_app, length_app. by destruct (tells_lost id r) eqn:E; cbn; rewrite ?E. Qed.

(** The invariant without the thread: the pointers to the results, and the counts. *)
Record results_ok t : Prop := {
  ok_results : forall h a, advertisement_read_results_ t !! h = Some a -> is_Some (read_results t !! a);
  ok_owned : forall h h' a, advertisement_read_results_ t !! h = Some a -> advertisement_read_results_ t !! h' = Some a -> h = h';
  ok_below : forall h a, advertisement_read_results_ t !! h = Some a -> (a < next_result t)%nat;
  ok_idle : thread t = Idle /\ executor_ t = [];
}.
Record counts_ok (infos : gmap BleAdvertisement GattAdvertisementInfo) (l : list Report) : Prop := {
  ok_known : forall id, (lost_count id l + known id infos <= found_count id l)%nat;
  ok_reports : forall id n, (lost_count id (take n l) <= found_count id (take n l))%nat;
}.
Definition tracker_ok t : Prop := results_ok t /\ counts_ok (gatt_advertisement_infos_ t) (reports t).

Lemma take_snoc_cases {A} n (l : list A) x : take n (l ++ [x]) = take n l \/ take n (l ++ [x]) = l ++ [x].
Proof.
  destruct (decide (n <= length l)%nat).
  - left. by rewrite take_app_le.
  - right. apply take_ge. rewrite length_app. cbn. lia.
Qed.

(** One more report. *)
Lemma counts_report infos infos' l r :
  counts_ok infos l ->
  (forall id, (lost_count id (l ++ [r]) + known id infos' <= found_count id (l ++ [r]))%nat) -> counts_ok infos' (l ++ [r]).
Proof.
  intros [Hk Hr] Hk'. split; [done|]. intros id n.
  destruct (take_snoc_cases n l r) as [-> | ->]; [apply Hr|]. specialize (Hk' id). lia.
Qed.

Lemma counts_same infos infos' l : counts_ok infos l -> (forall id, known id infos' <= known id infos)%nat -> counts_ok infos' l.
Proof. intros [Hk Hr] Hi. split; [|done]. intros id. specialize (Hk id). specialize (Hi id). lia. Qed.

Lemma counts_delete a infos l : counts_ok infos l -> counts_ok (delete a infos) l.
Proof.
  intros Hc. apply (counts_same infos); [done|]. intros id. destruct (infos !! a) eqn:E; [|by rewrite delete_id].
  rewrite (known_delete id a infos) by eauto. lia.
Qed.

(** An advertisement is reported lost and forgotten. *)
Lemma counts_lost a infos l cb p sid data fast :
  is_Some (infos !! a) -> id_ p = advertisement_bytes a -> counts_ok infos l ->
  counts_ok (delete a infos) (l ++ [peripheral_lost_cb cb p sid data fast]).
Proof.
  intros Ha Hp Hc. apply (counts_report infos); [done|]. intros id. destruct Hc as [Hk _]. specialize (Hk id).
  rewrite (known_delete id a infos Ha) in Hk. rewrite lost_app, found_app. cbn [tells_lost tells_found]. rewrite Hp.
  unfold bytes_eqb. destruct (bool_decide (advertisement_bytes a = id)); lia.
Qed.

(** An advertisement is reported found and kept, or kept once more. *)
Lemma counts_found a i infos l cb p sid data fast :
  id_ p = advertisement_bytes a -> counts_ok infos l ->
  counts_ok (<[a := i]> infos) (l ++ [peripheral_discovered_cb cb p sid data fast]).
Proof.
  intros Hp Hc. apply (counts_report infos); [done|]. intros id. destruct Hc as [Hk _]. specialize (Hk id).
  rewrite (known_insert id a i infos), lost_app, found_app. cbn [tells_lost tells_found]. rewrite Hp. unfold bytes_eqb.
  repeat case_bool_decide; try lia. intuition congruence.
Qed.

Lemma counts_kept a i infos l : is_Some (infos !! a) -> counts_ok infos l -> counts_ok (<[a := i]> infos) l.
Proof.
  intros [i' Ha] Hc. apply (counts_same infos); [done|]. intros id. rewrite known_insert, bool_decide_false; [lia|]. intuition congruence.
Qed.
End Counting.

(** * Every operation keeps the invariant *)
Section Safety.
Context {ct : CharType} {H : Hashes} {B : Base64} {F : BleFlags} {TF : ThreadFlag} {O : HashOrder}.
Implicit Types t : Tracker.


(** Operations that leave what the invariant reads. *)
Lemma services_ok v t : tracker_ok t -> tracker_ok (set_service_id_infos v t).
Proof. intros [[] Hc]. by split. Qed.
Lemma gatts_ok v t : tracker_ok t -> tracker_ok (set_gatt_advertisements v t).
Proof. intros [[] Hc]. by split. Qed.

Lemma erase_same h t :
  gatt_advertisement_infos_ (erase_read_result h t) = gatt_advertisement_infos_ t
  /\ reports (erase_read_result h t) = reports t /\ service_id_infos_ (erase_read_result h t) = service_id_infos_ t
  /\ gatt_advertisements_ (erase_read_result h t) = gatt_advertisements_ t.
Proof. unfold erase_read_result. by destruct (_ !! h). Qed.

Lemma erase_results h t : results_ok t -> results_ok (erase_read_result h t).
Proof.
  intros Ht. unfold erase_read_result. destruct (advertisement_read_results_ t !! h) as [a|] eqn:E; [|done].
  destruct Ht as [Hr Ho Hb]. split; cbn; auto.
  - intros h' a' [Hne Hl]%lookup_delete_Some. rewrite lookup_delete_ne; [by eapply Hr|]. intros ->. by apply Hne, Ho with a'.
  - intros h1 h2 a' [_ H1]%lookup_delete_Some [_ H2]%lookup_delete_Some. by eapply Ho.
  - intros h' a' [_ Hl]%lookup_delete_Some. by eapply Hb.
Qed.
Lemma erase_ok h t : tracker_ok t -> tracker_ok (erase_read_result h t).
Proof.
  intros [Hr Hc]. split; [by apply erase_results|]. by destruct (erase_same h t) as (-> & -> & _).
Qed.

Lemma clear_ok t : tracker_ok t -> tracker_ok (clear_read_results t).
Proof. intros [[] Hc]. split; [|done]. split; cbn; auto; intros *; by rewrite lookup_empty. Qed.

Lemma insert_result_ok n h t :
  tracker_ok t -> let '(a, t') := insert_read_result n h t in
  tracker_ok t' /\ advertisement_read_results_ t' !! h = Some a.
Proof.
  intros [Ht Hc]. unfold insert_read_result. destruct (advertisement_read_results_ t !! h) as [a|] eqn:E; [done|].
  destruct Ht as [Hr Ho Hb]. split; [|by cbn; rewrite lookup_insert_eq]. split; [|done]. split; cbn; auto.
  - intros h' a' [[<- <-]|[_ Hl]]%lookup_insert_Some; [rewrite lookup_insert_eq; eauto|].
    rewrite lookup_insert_ne; [by eapply Hr|]. intros <-. by apply Hb in Hl; lia.
  - intros h1 h2 a' [[<- <-]|[_ H1]]%lookup_insert_Some [[<- E2]|[_ H2]]%lookup_insert_Some; [done| | |by eapply Ho].
    + apply Hb in H2. lia.
    + subst a'. apply Hb in H1. lia.
  - intros h' a' [[<- <-]|[_ Hl]]%lookup_insert_Some; [lia|]. apply Hb in Hl. lia.
Qed.

Lemma stored_ok a r t : tracker_ok t -> tracker_ok (store_read_result a r t).
Proof.
  intros [[Hr] Hc]. split; [|done]. split; cbn; auto. intros h' a' Hl. destruct (decide (a = a')) as [->|].
  - rewrite lookup_insert_eq. eauto.
  - rewrite lookup_insert_ne by done. eauto.
Qed.

(** [ClearGattAdvertisement] forgets the advertisement. *)
Lemma ClearGatt_same a t :
  gatt_advertisement_infos_ (ClearGattAdvertisement a t) = delete a (gatt_advertisement_infos_ t)
  /\ reports (ClearGattAdvertisement a t) = reports t
  /\ service_id_infos_ (ClearGattAdvertisement a t) = service_id_infos_ t.
Proof.
  unfold ClearGattAdvertisement. destruct (gatt_advertisement_infos_ t !! a) as [i|] eqn:E; [|by rewrite delete_id].
  set (t1 := set_gatt_advertisement_infos _ t). destruct (gatt_advertisements_ t1 !! advertisement_header i) as [g|]; [|done].
  set (t2 := set_gatt_advertisements (<[_ := _]> _) t1). destruct (erase_same (advertisement_header i) t2) as (E1 & E2 & E3 & _).
  case_bool_decide; cbn; by rewrite E1, E2, E3.
Qed.

Lemma ClearGatt_results a t : results_ok t -> results_ok (ClearGattAdvertisement a t).
Proof.
  intros Ht. unfold ClearGattAdvertisement. destruct (gatt_advertisement_infos_ t !! a) as [i|] eqn:E; [|done].
  set (t1 := set_gatt_advertisement_infos _ t). assert (results_ok t1) by (by destruct Ht; split).
  destruct (gatt_advertisements_ t1 !! advertisement_header i) as [g|]; [|done].
  set (t2 := erase_read_result _ _). assert (results_ok t2) as Ht2 by (apply erase_results; by destruct Ht; split).
  case_bool_decide; [by destruct Ht2; split|done].
Qed.

Lemma ClearGatt_ok a t : tracker_ok t -> tracker_ok (ClearGattAdvertisement a t).
Proof.
  intros [Ht Hc]. split; [by apply ClearGatt_results|]. destruct (ClearGatt_same a t) as (-> & -> & _).
  by apply counts_delete.
Qed.

Lemma fold_ok {A} (f : Tracker -> A -> Tracker) l : forall t,
  (forall t x, tracker_ok t -> tracker_ok (f t x)) -> tracker_ok t -> tracker_ok (fold_left f l t).
Proof. induction l as [|x l IH]; intros t Hf Ht; cbn; [done|]. apply IH; auto. Qed.

Lemma StartTracking_ok sid cb uuid t : tracker_ok t -> tracker_ok (StartTracking sid cb uuid t).
Proof. intros Ht. apply fold_ok; [intros; by apply ClearGatt_ok|]. by apply clear_ok, services_ok. Qed.

Lemma process_lost_ok w cb sid a t : tracker_ok t -> tracker_ok (process_lost w cb sid a t).
Proof.
  intros Ht. unfold process_lost. destruct (gatt_advertisement_infos_ t !! a) as [i|] eqn:E; [|by apply ClearGatt_ok].
  destruct (peripheral_IsValid w (peripheral i)); [|by apply ClearGatt_ok]. destruct Ht as [Ht Hc].
  set (r := peripheral_lost_cb _ _ _ _ _). split; [apply ClearGatt_results; by destruct Ht; split|].
  destruct (ClearGatt_same a (report r t)) as (-> & -> & _). cbn. by apply counts_lost.
Qed.

Lemma ProcessLost_ok w t : tracker_ok t -> tracker_ok (ProcessLostGattAdvertisements w t).
Proof.
  apply fold_ok. intros t' [sid i] Ht'. cbn. unfold process_lost_service.
  destruct (service_id_infos_ t' !! sid) as [info|]; [|done].
  destruct (ComputeLostEntities _) as [lost l]. apply fold_ok; [intros; by apply process_lost_ok|]. by apply services_ok.
Qed.

(** The loop over the advertisements of a peripheral that is in reach. *)
Lemma empty_filter_done : empty_filter = Done (replicate 10 0).
Proof. reflexivity. Qed.

Lemma ShouldRemoveHeader_done h h' t : exists b, ShouldRemoveHeader h h' t = Done b.
Proof.
  unfold ShouldRemoveHeader, IsDummyAdvertisementHeader. rewrite empty_filter_done.
  case_bool_decide; [eauto|]. destruct (is_extended_advertisement_available_ t); cbn; eauto.
Qed.

Lemma handle_advertisement_ok w item v t :
  tracker_ok t -> peripheral_IsValid w (handled_peripheral v) = true ->
  exists v' t', handle_advertisement w item v t = Done (v', t') /\ tracker_ok t'
    /\ peripheral_IsValid w (handled_peripheral v') = true.
Proof.
  intros Ht Hv. unfold handle_advertisement. destruct item as [sid a].
  destruct (gatt_advertisement_infos_ t !! a) as [i|] eqn:Ei.
  2: { cbn [header_IsValid header_version_ no_header kUndefinedVersion kV2 Z.eqb negb orb].
       destruct (service_id_infos_ t !! sid) as [info|]; [|eauto 6]. cbn [handled_peripheral]. rewrite Hv.
       do 2 eexists. split; [done|]. split; [|done]. destruct Ht as [[] Hc]. split; [by split|]. cbn. by apply counts_found. }
  destruct (_ || _).
  { destruct (service_id_infos_ t !! sid) as [info|]; [|eauto 6]. cbn [handled_peripheral]. rewrite Hv.
    do 2 eexists. split; [done|]. split; [|done]. destruct Ht as [[] Hc]. split; [by split|]. cbn. by apply counts_found. }
  destruct (_ && _) in |- *; [eauto 6|].
  match goal with |- context [ShouldRemoveHeader ?h ?h' t] => destruct (ShouldRemoveHeader_done h h' t) as [remove ->] end.
  rewrite done_bind. do 2 eexists. split; [done|]. split; [|done].
  set (t1 := if remove then _ else t).
  assert (tracker_ok t1 /\ gatt_advertisement_infos_ t1 = gatt_advertisement_infos_ t) as [H1 E1].
  { unfold t1. destruct remove; [|done]. split; [by apply gatts_ok, erase_ok|]. cbn. apply erase_same. }
  destruct H1 as [[] Hc]. split; [by split|]. cbn. apply counts_kept; [rewrite E1; eauto|done].
Qed.

Lemma handle_advertisements_ok w items : forall v t,
  tracker_ok t -> peripheral_IsValid w (handled_peripheral v) = true ->
  exists v' t', handle_advertisements w items v t = Done (v', t') /\ tracker_ok t'.
Proof.
  induction items as [|item items IH]; intros v t Ht Hv; cbn [handle_advertisements]; [eauto|].
  destruct (handle_advertisement_ok w item v t Ht Hv) as (v' & t' & -> & Ht' & Hv'). by apply IH.
Qed.

Lemma HandleRaw_ok w p h l uuid t :
  tracker_ok t -> peripheral_IsValid w p = true ->
  exists h' t', HandleRawGattAdvertisements w p h l uuid t = Done (h', t') /\ tracker_ok t'.
Proof.
  intros Ht Hp. unfold HandleRawGattAdvertisements.
  destruct (handle_advertisements_ok w (in_order (map_to_list (ParseRawGattAdvertisements l uuid t))) (MakeHandling p h ∅) t Ht Hp)
    as (v' & t' & -> & Ht'). rewrite done_bind. do 2 eexists. split; [done|].
  destruct (gatt_advertisements_ t' !! _); [done|by apply gatts_ok].
Qed.

Lemma Update_ok h t : tracker_ok t -> tracker_ok (UpdateCommonStateForFoundBleAdvertisement h t).
Proof.
  intros Ht. unfold UpdateCommonStateForFoundBleAdvertisement. destruct (gatt_advertisements_ t !! h); [|done].
  apply fold_ok; [|done]. intros t' a Ht'. unfold record_found.
  destruct (gatt_advertisement_infos_ t' !! a) as [i|]; [|done].
  destruct (service_id_infos_ t' !! service_id i); [by apply services_ok|done].
Qed.

Lemma HandleAdvertisement_ok w p d t :
  tracker_ok t -> peripheral_IsValid w p = true -> exists t', HandleAdvertisement w p d t = Done t' /\ tracker_ok t'.
Proof.
  intros Ht Hp. unfold HandleAdvertisement. destruct (ExtractInterestingAdvertisementBytes d t) as [|b l]; [eauto|].
  unfold CreateAdvertisementHeader. rewrite empty_filter_done, !done_bind.
  pose proof (insert_result_ok (now w) (new_header kV2 false 1 (replicate 10 0) (GenerateAdvertisementHash (b :: l)) kDefaultPsmValue) t Ht)
    as Hi. destruct (insert_read_result _ _ t) as [a t1]. destruct Hi as [H1 _].
  edestruct HandleRaw_ok as (h' & t' & -> & Ht'); [exact H1|exact Hp|]. rewrite done_bind.
  eexists. split; [done|]. by apply Update_ok.
Qed.

(** The Bloom filter of any header can be tested. *)
Lemma test_hashes_done hashes bits : bits <> [] -> exists b, BloomFilter.test_hashes hashes bits = Done b.
Proof.
  intros Hb. induction hashes as [|hash hashes IH]; cbn [BloomFilter.test_hashes]; [eauto|]. unfold BloomFilter.bits_Test.
  destruct (lookup_lt_is_Some_2 bits (BloomFilter.position hash bits)) as [v ->]; [by apply position_below|].
  rewrite done_bind. destruct v; cbn [negb]; eauto.
Qed.

Lemma set_bytes_done bytes bits :
  length bits = (8 * length bytes)%nat -> BloomFilter.set_bytes bytes 0 bits = Done (mjoin (map read_bits bytes)).
Proof. intros Hl. by rewrite (set_bytes_run bytes 0 [] bits) by done. Qed.

Lemma IsInteresting_done h t : exists b, IsInterestingAdvertisementHeader h t = Done b.
Proof.
  unfold IsInterestingAdvertisementHeader. set (bits := BloomFilter.new_bits _).
  assert (length bits = 80%nat) as Hl by done. clearbody bits.
  assert (exists bits', BloomFilter.new_filter bits (service_id_bloom_filter_ h) = Done bits' /\ bits' <> []) as (bits' & -> & Hb).
  { assert (bits <> []) by (by destruct bits). unfold BloomFilter.new_filter.
    destruct (Nat.eqb_spec (length (service_id_bloom_filter_ h)) 0) as [|Hne]; [eauto|].
    destruct (Nat.eqb_spec (length (service_id_bloom_filter_ h) * 8) (length bits)) as [E|]; cbn [negb]; [|eauto].
    rewrite set_bytes_done by lia. eexists. split; [done|]. by destruct (service_id_bloom_filter_ h). }
  rewrite done_bind. induction (tracked_services t) as [|[sid i] services IH]; cbn [contains_one]; [eauto|].
  unfold BloomFilter.PossiblyContains. destruct (test_hashes_done (BloomFilter.GetHashes sid) bits' Hb) as [c ->].
  rewrite done_bind. destruct c; eauto.
Qed.

Hypothesis no_thread : kEnableGattQueryInThread = false.

Lemma HandleHeader_ok w p d fetcher t :
  tracker_ok t -> peripheral_IsValid w p = true ->
  exists t', HandleAdvertisementHeader w p d fetcher t = Done t' /\ tracker_ok t'.
Proof.
  intros Ht Hp. unfold HandleAdvertisementHeader. set (h := header_of_bytes _). destruct (header_IsValid h); [|eauto].
  cbn [negb]. destruct (IsInteresting_done h t) as [b ->]. rewrite done_bind. destruct b; cbn [negb]; [|eauto].
  assert (exists b, ShouldReadRawAdvertisementFromServer w h t = Done b) as [read ->].
  { unfold ShouldReadRawAdvertisementFromServer. destruct (advertisement_read_results_ t !! h) eqn:E; [|eauto].
    destruct Ht as [[Hr] _]. destruct (Hr _ _ E) as [r ->]. eauto. }
  rewrite done_bind. destruct read; cbn [negb]; [|eexists; split; [done|]; by apply Update_ok]. rewrite no_thread.
  unfold FetchRawAdvertisements, fetch. cbn [job_header]. pose proof (insert_result_ok (now w) h t Ht) as Hi.
  destruct (insert_read_result _ _ t) as [a t1]. destruct Hi as [Hok1 Ea].
  destruct (ok_results _ (proj1 Hok1) _ _ Ea) as [r ->]. rewrite done_bind. set (t2 := store_read_result a _ t1).
  assert (tracker_ok t2) as Hok2 by (by apply stored_ok). assert (is_Some (read_results t2 !! a)) as [r2 ->].
  { cbn. rewrite lookup_insert_eq. eauto. }
  rewrite done_bind. destruct (_ =? 0)%nat.
  - rewrite done_bind. eexists. split; [done|]. by apply Update_ok.
  - destruct (HandleRaw_ok w p h (GetAdvertisements r2) no_uuid t2 Hok2 Hp) as (h' & t' & -> & Ht'). rewrite !done_bind.
    eexists. split; [done|]. by apply Update_ok.
Qed.

Lemma tracker_step_ok w e t : tracker_ok t -> exists t', tracker_step w e t = Done t' /\ tracker_ok t'.
Proof.
  intros Ht. destruct e; cbn [tracker_step].
  - eexists. split; [done|]. by apply StartTracking_ok.
  - eexists. split; [done|]. by apply services_ok.
  - unfold ProcessFoundBleAdvertisement. case_bool_decide; [eauto|].
    destruct (peripheral_IsValid w p) eqn:Ep; cbn [negb orb]; [|eauto]. case_bool_decide; [eauto|].
    destruct (IsSkippableGattAdvertisement d t); [eauto|].
    destruct (HandleAdvertisement_ok w p d t Ht Ep) as (t1 & -> & Hok1). by apply HandleHeader_ok.
  - eexists. split; [done|]. by apply ProcessLost_ok.
  - unfold run_thread. destruct (ok_idle _ (proj1 Ht)) as [-> ->]. eauto.
Qed.

Lemma tracker_steps_ok es : forall t, tracker_ok t -> exists t', tracker_steps es t = Done t' /\ tracker_ok t'.
Proof.
  induction es as [|[w e] es IH]; intros t Ht; cbn [tracker_steps]; [eauto|].
  destruct (tracker_step_ok w e t Ht) as (t1 & -> & Hok1). by apply IH.
Qed.

Lemma new_tracker_ok extended : tracker_ok (new_tracker extended).
Proof.
  split; split; cbn; try done; try (intros *; by rewrite lookup_empty).
  intros id n. by rewrite take_nil.
Qed.

(** C10. The tracker of peripherals is safe and fair without the reading thread.  For any
    sequence of calls, any clock and any peripherals in reach, any advertisements and
    anything the fetcher does, every call returns: no read result is used after it
    was deleted, and no access to a Bloom filter is out of range.  At every moment
    the clients have been told at most as often that an advertisement is lost as that
    it was found. *)
Theorem Tracker_safe extended es id n :
  exists t, tracker_steps es (new_tracker extended) = Done t
    /\ (lost_count id (take n (reports t)) <= found_count id (take n (reports t)))%nat.
Proof.
  destruct (tracker_steps_ok es (new_tracker extended) (new_tracker_ok extended)) as (t & -> & [_ [_ Hr]]). eauto.
Qed.
End Safety.
