(* ===== verification/BleDiscovery.v ===== *)
(** What a client of the tracker of the BLE medium is told: for one service the tracker
    refines a simple account of which advertisements are around, and the delays between
    the attempts to read a header's advertisements.  The examples at the end run the
    code where it goes wrong: two services, a header that is read again, the reading
    thread. *)

From Stdlib Require Import ZArith Lia.
From stdpp Require Import base list numbers gmap.
From S2P Require Import Prelude Utils CppBase BleData BleTheorems BleTracker BleTrackerSafety.
Import Uuids BleAdvertisementHeader BleAdvertisement AdvertisementReadResult LostEntityTracker.
Import DiscoveredPeripheralTracker.

Open Scope Z_scope.
Open Scope fp_scope.

(** * Retries *)
Section Retries.

(** The result after [n] failures in a row, the last one at [now]. *)
Fixpoint failures (times : list Z) (r : AdvertisementReadResult) : AdvertisementReadResult :=
  match times with
  | [] => r
  | now :: times => failures times (RecordLastReadStatus now false r)
  end.

Definition backoff (n : nat) : Z := Z.min (base_backoff_duration * 2 ^ (Z.of_nat n - 1)) max_backoff_duration.

Lemma last_default (t : Z) times a b : List.last (t :: times) a = List.last (t :: times) b.
Proof. revert t. induction times as [|x times IH]; intros t; [done|]. apply IH. Qed.

Lemma failures_from n times : forall r,
  (0 < n)%nat -> result_ r = Some kFailure -> backoff_duration_ r = backoff n ->
  let r' := failures times r in
  result_ r' = Some kFailure /\ backoff_duration_ r' = backoff (n + length times)
  /\ last_read_timestamp_ r' = List.last times (last_read_timestamp_ r) /\ advertisements_ r' = advertisements_ r.
Proof.
  revert n. induction times as [|now times IH]; intros n r Hn Hr Hb; cbn [failures length].
  { rewrite Nat.add_0_r. by split_and!. }
  set (r1 := RecordLastReadStatus now false r).
  assert (backoff_duration_ r1 = backoff (S n)) as H1.
  { unfold r1, RecordLastReadStatus. cbn [backoff_duration_]. rewrite Hr, bool_decide_true by done. rewrite Hb.
    unfold backoff, backoff_multiplier. replace (Z.of_nat (S n) - 1) with (Z.succ (Z.of_nat n - 1)) by lia.
    rewrite Z.pow_succ_r by lia. unfold max_backoff_duration, base_backoff_duration. lia. }
  destruct (IH (S n) r1 ltac:(lia) eq_refl H1) as (E1 & E2 & E3 & E4).
  split; [done|]. split; [by rewrite E2, Nat.add_succ_r|]. split; [|done].
  rewrite E3. destruct times as [|x times]; [done|]. exact (last_default x times _ _).
Qed.

(** C40. The delay between attempts to read the advertisements of a header grows
    exponentially to a bound.  After [n] failures in a row, whatever happened before,
    the next attempt is due when [min (2 ^ (n - 1) s, 5 min)] have passed since the last
    one, and not earlier; after a success there is no further attempt. *)
Theorem Retry_backoff_exact r0 times at_ now' :
  (result_ r0 <> Some kFailure) -> times <> [] ->
  let r := failures times r0 in
  EvaluateRetryStatus now' r = (if now' - List.last times at_ <? backoff (length times) then kTooSoon else kRetry)
  /\ base_backoff_duration <= backoff (length times) <= max_backoff_duration
  /\ EvaluateRetryStatus now' (RecordLastReadStatus at_ true r) = kPreviouslySucceeded.
Proof.
  intros Hr Ht. destruct times as [|t0 times]; [done|]. cbn [failures length]. set (r1 := RecordLastReadStatus t0 false r0).
  assert (backoff_duration_ r1 = backoff 1) as H1.
  { unfold r1, RecordLastReadStatus. cbn [backoff_duration_]. by rewrite bool_decide_false. }
  destruct (failures_from 1 times r1 ltac:(lia) eq_refl H1) as (E1 & E2 & E3 & _).
  split; [|split; [|done]].
  - unfold EvaluateRetryStatus, GetDurationSinceRead. rewrite E1, bool_decide_false by done. rewrite E2, E3.
    destruct times as [|x times]; [done|].
    change (List.last (t0 :: x :: times) at_) with (List.last (x :: times) at_).
    by rewrite (last_default x times at_ (last_read_timestamp_ r1)).
  - unfold backoff. pose proof (Z.pow_pos_nonneg 2 (Z.of_nat (S (length times)) - 1) ltac:(lia) ltac:(lia)).
    unfold base_backoff_duration, max_backoff_duration. lia.
Qed.
End Retries.

(** * The advertisements of a service *)
Section Presence.
Context {ct : CharType} {H : Hashes} {Hspec : HashesSpec H} {B : Base64} {F : BleFlags} {TF : ThreadFlag}
  {O : HashOrder} {Ospec : HashOrderSpec O}.
Implicit Types (t : Tracker) (a : BleAdvertisement) (p : BleV2Peripheral).

(** The account: the advertisements around, with the peripheral each was last found on,
    those seen since the last alarm, those seen between the last two, and what the
    client has been told. *)
Record Presence : Type := MakePresence {
  around : gmap BleAdvertisement BleV2Peripheral;
  seen : gset BleAdvertisement;
  seen_before : gset BleAdvertisement;
  told : list Report;
}.

Variables (sid : list Z) (cb : nat) (uuid : Uuid).

Definition found_report p a : Report :=
  peripheral_discovered_cb cb (SetId (advertisement_bytes a) p) sid (data_ a) (fast_advertisement_ a).
Definition lost_report p a : Report :=
  peripheral_lost_cb cb (SetId (advertisement_bytes a) p) sid (data_ a) (fast_advertisement_ a).

(** An advertisement that is new is reported. *)
Definition presence_found p a (s : Presence) : Presence :=
  MakePresence (<[a := p]> (around s)) ({[a]} ∪ seen s) (seen_before s)
    (told s ++ match around s !! a with None => [found_report p a] | Some _ => [] end).

(** An advertisement that is lost is reported, if its peripheral is in reach, and
    forgotten. *)
Definition presence_lost (w : Environment) (s : Presence) a : Presence :=
  match around s !! a with
  | None => s
  | Some p => MakePresence (delete a (around s)) (seen s) (seen_before s)
                (told s ++ if peripheral_IsValid w p then [lost_report p a] else [])
  end.
(** At the alarm, what was seen before the last alarm and not after it is lost. *)
Definition presence_alarm (w : Environment) (s : Presence) : Presence :=
  fold_left (presence_lost w) (in_order (elements (seen_before s ∖ seen s)))
    (MakePresence (around s) ∅ (seen s) (told s)).

(** A peripheral advertises [a]; or the alarm goes off.  The peripheral has to be in reach;
    and an advertisement the length of which is not read back is never noticed. *)
Inductive Sighting : Type := Sees p a (fetcher : AdvertisementFetcher) (extended : bool) | Alarm.
Definition presence_step (w : Environment) (e : Sighting) (s : Presence) : Presence :=
  match e with
  | Sees p a _ _ => if peripheral_IsValid w p && size_readable a then presence_found p a s else s
  | Alarm => presence_alarm w s
  end.

Definition advertised_data (extended : bool) a : BleAdvertisementData :=
  MakeData extended {[uuid := advertisement_bytes a]}.
Definition sighting_event (e : Sighting) : TrackerEvent :=
  match e with Sees p a fetcher extended => Found p (advertised_data extended a) fetcher | Alarm => LostAlarm end.

(** The advertisements of the service: written without a PSM, and not themselves read as a
    header. *)
Record service_advertisement a : Prop := {
  sa_ok : advertisement_ok a;
  sa_psm : psm_ a = kDefaultPsmValue;
  sa_match : fast_advertisement_ a = true \/ service_id_hash_ a = GenerateServiceIdHash sid;
  sa_no_header : forall extended,
    header_IsValid (header_of_bytes (ExtractAdvertisementHeaderBytes (advertised_data extended a))) = false;
}.
Variable ads : BleAdvertisement -> Prop.
Hypothesis ads_ok : forall a, ads a -> service_advertisement a.
Hypothesis ads_distinct : forall a b, ads a -> ads b ->
  GenerateAdvertisementHash (advertisement_bytes a) = GenerateAdvertisementHash (advertisement_bytes b) -> a = b.
Hypothesis uuid_given : IsEmpty uuid = false.

Definition sighting_ok (e : Sighting) : Prop :=
  match e with Sees p a _ _ => ads a /\ peripheral_psm_ p = 0 | Alarm => True end.

(** ** The parts of a sighting *)
Definition header_for a : BleAdvertisementHeader :=
  MakeHeader kV2 false 1 (replicate 10 0) (GenerateAdvertisementHash (advertisement_bytes a)) kDefaultPsmValue.

Lemma Sha256Hash_length m n : (0 < n <= 32)%nat -> length (Sha256Hash m n) = n.
Proof.
  intros Hn. unfold Sha256Hash, BaseInputStream.CopyAt. rewrite length_replicate, Sha256_length.
  destruct (Nat.leb_spec n 0); [lia|]. destruct (Nat.leb_spec 32 0); [lia|]. cbn [snd].
  rewrite !length_app, !length_take, !length_drop, length_replicate, Sha256_length. lia.
Qed.

Lemma CreateHeader_run a : CreateAdvertisementHeader (advertisement_bytes a) = Done (header_for a).
Proof.
  unfold CreateAdvertisementHeader. rewrite empty_filter_done, done_bind. unfold new_header, GenerateAdvertisementHash.
  rewrite length_replicate, Sha256Hash_length by (unfold kAdvertisementHashByteLength; lia). done.
Qed.

Lemma header_for_inj a b : ads a -> ads b -> header_for a = header_for b -> a = b.
Proof. intros Ha Hb [= E]. by apply ads_distinct. Qed.

Lemma advertised_read a : ads a -> if size_readable a then advertisement_of_bytes (advertisement_bytes a) = a
  else IsValid (advertisement_of_bytes (advertisement_bytes a)) = false.
Proof.
  intros Ha. destruct (ads_ok a Ha) as [Hok Hp _ _].
  pose proof (parse_advertisement a [] Hok) as Hparse. rewrite app_nil_r in Hparse. specialize (Hparse ltac:(cbn; lia) ltac:(cbn; lia)).
  destruct (size_readable a); [|done]. rewrite Hparse. unfold psm_read. destruct a as [v s f h d tok psm]. cbn in *. subst psm. by destruct tok.
Qed.

Lemma advertised_valid a : ads a -> IsValid a = true.
Proof. intros Ha. by destruct (ads_ok a Ha) as [[] _ _ _]. Qed.

Lemma advertised_nonempty a : ads a -> advertisement_bytes a <> [].
Proof. intros Ha. unfold advertisement_bytes. rewrite (advertised_valid a Ha). by destruct (fast_advertisement_ a). Qed.

Lemma in_order_singleton {A} (x : A) : in_order [x] = [x].
Proof. apply Permutation_singleton_r. apply in_order_perm. Qed.

Lemma in_order_nil {A} : in_order ([] : list A) = [].
Proof. apply Permutation_nil_r. apply in_order_perm. Qed.

Lemma found_uuid_run extended a : found_uuid (advertised_data extended a) = uuid.
Proof.
  unfold found_uuid, advertised_data. cbn [service_data]. destruct (decide (uuid = kCopresenceServiceUuid)) as [->|].
  - rewrite delete_singleton_eq, map_to_list_empty. by rewrite in_order_nil.
  - rewrite delete_singleton_ne, map_to_list_singleton by done. by rewrite in_order_singleton.
Qed.

Definition service_info (s : Presence) : gmap (list Z) ServiceIdInfo :=
  {[sid := MakeServiceIdInfo cb (MakeLostTracker (seen s) (seen_before s)) uuid]}.

(** The tracker holds what the account says. *)
Record tracks t (s : Presence) : Prop := {
  tr_services : service_id_infos_ t = service_info s;
  tr_ads : forall a, is_Some (around s !! a) -> ads a /\ size_readable a = true;
  tr_infos : forall a, gatt_advertisement_infos_ t !! a = MakeInfo sid (header_for a) <$> around s !! a;
  tr_gatts : forall a, ads a -> size_readable a = true -> gatt_advertisements_ t !! header_for a = (fun _ => {[a]}) <$> around s !! a;
  tr_unread : forall a set, ads a -> size_readable a = false -> gatt_advertisements_ t !! header_for a = Some set -> set = ∅;
  tr_told : reports t = told s;
}.

Lemma tracked_run t s : tracks t s ->
  tracked_services t = [(sid, MakeServiceIdInfo cb (MakeLostTracker (seen s) (seen_before s)) uuid)].
Proof.
  intros Ht. unfold tracked_services. rewrite (tr_services _ _ Ht). unfold service_info.
  by rewrite map_to_list_singleton, in_order_singleton.
Qed.

Lemma ParseRaw_run t s a : tracks t s -> ads a ->
  ParseRawGattAdvertisements [advertisement_bytes a] uuid t = if size_readable a then {[sid := a]} else ∅.
Proof.
  intros Ht Ha. unfold ParseRawGattAdvertisements. cbn [fold_left]. pose proof (advertised_read a Ha) as Hread.
  destruct (size_readable a); [|by rewrite Hread]. rewrite Hread, (advertised_valid a Ha). cbn [negb].
  rewrite (tracked_run t s Ht). cbn [match_services]. rewrite lookup_empty, uuid_given. cbn [negb fast_advertisement_service_uuid].
  rewrite bool_decide_true by done. destruct (fast_advertisement_ a) eqn:Ef; [by rewrite insert_empty|].
  destruct (sa_match _ (ads_ok a Ha)) as [|Eh]; [congruence|]. rewrite Eh, bytes_eqb_refl. cbn. by rewrite insert_empty.
Qed.

Lemma peripheral_psm_same p : peripheral_psm_ p = 0 -> peripheral_SetPsm 0 p = p.
Proof. destruct p. cbn. by intros ->. Qed.
(** The turn of the loop for the advertisement. *)
Lemma handle_run w t s p a :
  tracks t s -> ads a -> peripheral_IsValid w p = true -> peripheral_psm_ p = 0 ->
  handle_advertisement w (sid, a) (MakeHandling p (header_for a) ∅) t =
    Done (MakeHandling p (header_for a) ({[a]} ∪ ∅),
      let t := match around s !! a with None => report (found_report p a) t | Some _ => t end in
      set_gatt_advertisement_infos (<[a := MakeInfo sid (header_for a) p]> (gatt_advertisement_infos_ t)) t).
Proof.
  intros Ht Ha Hv Hp. unfold handle_advertisement. rewrite (tr_infos _ _ Ht), (sa_psm _ (ads_ok a Ha)).
  cbn [handled_header handled_peripheral handled_set]. change (kDefaultPsmValue =? kDefaultPsmValue) with true.
  cbn [negb andb]. change (header_psm_ (header_for a)) with 0. destruct (around s !! a) as [p0|] eqn:E; cbn [fmap option_fmap option_map].
  - cbn [advertisement_header]. change (header_IsValid (header_for a)) with true. cbn [negb orb].
    change (header_psm_ (header_for a)) with 0. cbn. unfold ShouldRemoveHeader. rewrite bool_decide_true by done. done.
  - cbn [header_IsValid no_header header_version_]. change (negb (kUndefinedVersion =? kV2)) with true. cbn [orb].
    rewrite (tr_services _ _ Ht). unfold service_info. rewrite lookup_singleton_eq, Hv. cbn [client].
    rewrite peripheral_psm_same by done. done.
Qed.

(** An advertisement that is not read leaves no more than an entry without advertisements
    for its header. *)
Lemma unread_tracks w t s p a :
  tracks t s -> ads a -> size_readable a = false ->
  exists t', (let! '(h, t) := (let! '(v, t) := handle_advertisements w (in_order (map_to_list ∅)) (MakeHandling p (header_for a) ∅) t in
      let t := match gatt_advertisements_ t !! handled_header v with
               | Some _ => t
               | None => set_gatt_advertisements (<[handled_header v := handled_set v]> (gatt_advertisements_ t)) t
               end in
      Done (handled_header v, t)) in Done (UpdateCommonStateForFoundBleAdvertisement h t)) = Done t' /\ tracks t' s.
Proof.
  intros Ht Ha Hr. rewrite map_to_list_empty, in_order_nil. cbn [handle_advertisements]. rewrite !done_bind. cbn [handled_header handled_set].
  eexists. split; [done|]. unfold UpdateCommonStateForFoundBleAdvertisement.
  destruct (gatt_advertisements_ t !! header_for a) as [set|] eqn:E; cbn [gatt_advertisements_ set_gatt_advertisements].
  - apply (tr_unread _ _ Ht) in E as Es; [|done..]. subst set. by rewrite E, elements_empty, in_order_nil.
  - rewrite lookup_insert_eq, elements_empty, in_order_nil. cbn [fold_left]. destruct Ht as [H1 H2 H3 H4 H5 H6]. split; cbn; try done.
    + intros b Hb Hrb. rewrite lookup_insert_ne; [by apply H4|]. intros Eh%header_for_inj; [congruence|done..].
    + intros b set Hb Hrb. destruct (decide (header_for a = header_for b)) as [->|]; [rewrite lookup_insert_eq; congruence|].
      rewrite lookup_insert_ne by done. by apply H5.
Qed.

(** What the client is told and what is recorded. *)
Lemma HandleAdvertisement_tracks w t s p a extended :
  tracks t s -> ads a -> peripheral_IsValid w p = true -> peripheral_psm_ p = 0 ->
  exists t', HandleAdvertisement w p (advertised_data extended a) t = Done t'
    /\ tracks t' (if size_readable a then presence_found p a s else s).
Proof.
  intros Ht Ha Hv Hp. unfold HandleAdvertisement, ExtractInterestingAdvertisementBytes. rewrite (tracked_run t s Ht).
  cbn [first_service_data service_data advertised_data fast_advertisement_service_uuid]. rewrite lookup_singleton_eq.
  assert (forall X Y : outcome Tracker, match advertisement_bytes a with [] => X | _ :: _ => Y end = Y) as ->.
  { intros X Y. pose proof (advertised_nonempty a Ha). by destruct (advertisement_bytes a). }
  rewrite CreateHeader_run, done_bind. destruct (insert_read_result (now w) (header_for a) t) as [addr t1] eqn:E1.
  assert (tracks t1 s) as Ht1.
  { unfold insert_read_result in E1. destruct (advertisement_read_results_ t !! _); injection E1 as <- <-; [done|].
    by destruct Ht. }
  unfold HandleRawGattAdvertisements. rewrite found_uuid_run, (ParseRaw_run t1 s a Ht1 Ha).
  destruct (size_readable a) eqn:Hread; [|by apply unread_tracks]. rewrite map_to_list_singleton, in_order_singleton.
  cbn [handle_advertisements]. rewrite (handle_run w t1 s p a Ht1 Ha Hv Hp), !done_bind. cbn [handled_header handled_set].
  set (t1' := match around s !! a with None => report (found_report p a) t1 | Some _ => t1 end).
  cbv zeta. set (t2 := set_gatt_advertisement_infos _ t1').
  assert (service_id_infos_ t2 = service_info s /\ gatt_advertisements_ t2 = gatt_advertisements_ t1
    /\ gatt_advertisement_infos_ t2 = <[a := MakeInfo sid (header_for a) p]> (gatt_advertisement_infos_ t1)
    /\ reports t2 = told (presence_found p a s)) as (E2 & E3 & E4 & E5).
  { unfold t2, t1', presence_found. destruct Ht1 as [Hs _ _ _ _ Htold]. destruct (around s !! a); cbn; rewrite ?Hs, ?Htold, ?app_nil_r; done. }
  rewrite E3, (tr_gatts _ _ Ht1 a Ha Hread).
  set (t3 := match (fun _ => {[a]}) <$> around s !! a with
             | Some _ => t2
             | None => set_gatt_advertisements (<[header_for a := {[a]} ∪ ∅]> (gatt_advertisements_ t1)) t2
             end).
  assert (service_id_infos_ t3 = service_info s /\ gatt_advertisement_infos_ t3 = gatt_advertisement_infos_ t2
    /\ reports t3 = reports t2 /\ (forall b, ads b -> size_readable b = true -> gatt_advertisements_ t3 !! header_for b
         = (fun _ => {[b]}) <$> <[a := p]> (around s) !! b)
    /\ forall b, ads b -> size_readable b = false -> gatt_advertisements_ t3 !! header_for b = gatt_advertisements_ t1 !! header_for b)
    as (F2 & F3 & F4 & F5 & F6).
  { unfold t3. destruct (around s !! a) as [p0|] eqn:Ea; cbn [fmap option_fmap option_map]; split_and!; try done; intros b' Hb' Hr'.
    - rewrite E3, (tr_gatts _ _ Ht1 b' Hb' Hr'). destruct (decide (a = b')) as [<-|].
      + by rewrite Ea, lookup_insert_eq.
      + by rewrite lookup_insert_ne.
    - cbn. destruct (decide (a = b')) as [<-|Hne].
      + rewrite !lookup_insert_eq. cbn. by rewrite union_empty_r_L.
      + rewrite !lookup_insert_ne, (tr_gatts _ _ Ht1 b' Hb' Hr'); [done|done|]. intros E. by apply Hne, header_for_inj.
    - cbn. rewrite lookup_insert_ne; [done|]. intros E%header_for_inj; [congruence|done..]. }
  eexists. split; [done|]. unfold UpdateCommonStateForFoundBleAdvertisement.
  rewrite (F5 a Ha Hread), lookup_insert_eq. cbn [fmap option_fmap option_map]. rewrite elements_singleton, in_order_singleton.
  cbn [fold_left]. unfold record_found. rewrite F3, E4, lookup_insert_eq. cbn [service_id]. rewrite F2. unfold service_info at 1.
  rewrite lookup_singleton_eq. split; cbn.
  - rewrite F2. unfold service_info. rewrite alter_singleton_eq. done.
  - intros b' [<-|[_ Hb']]%lookup_insert_is_Some; [done|]. by apply (tr_ads _ _ Ht1).
  - intros b'. rewrite F3, E4. destruct (decide (a = b')) as [<-|].
    + by rewrite !lookup_insert_eq.
    + rewrite !lookup_insert_ne by done. apply (tr_infos _ _ Ht1).
  - exact F5.
  - intros b' set Hb' Hr'. rewrite F6 by done. by apply (tr_unread _ _ Ht1).
  - by rewrite F4, E5.
Qed.

Lemma Found_tracks w t s p a fetcher extended :
  tracks t s -> ads a -> peripheral_psm_ p = 0 ->
  exists t', tracker_step w (Found p (advertised_data extended a) fetcher) t = Done t'
    /\ tracks t' (presence_step w (Sees p a fetcher extended) s).
Proof.
  intros Ht Ha Hp. cbn [tracker_step presence_step]. unfold ProcessFoundBleAdvertisement.
  rewrite (tr_services _ _ Ht). unfold service_info. rewrite bool_decide_false by apply insert_non_empty.
  destruct (peripheral_IsValid w p) eqn:Hv; cbn [negb orb andb]; [|eauto].
  cbn [service_data advertised_data]. rewrite bool_decide_false by apply insert_non_empty.
  pose proof (sa_no_header _ (ads_ok a Ha) extended) as Hn.
  assert (IsSkippableGattAdvertisement (advertised_data extended a) t = false) as ->.
  { unfold IsSkippableGattAdvertisement. rewrite Hn. by destruct (negb _). }
  destruct (HandleAdvertisement_tracks w t s p a extended Ht Ha Hv Hp) as (t' & -> & Ht'). rewrite done_bind.
  unfold HandleAdvertisementHeader. rewrite Hn. cbn [negb]. eauto.
Qed.

(** ** The parts of an alarm *)
Lemma process_lost_tracks w t s a :
  tracks t s -> tracks (process_lost w cb sid a t) (presence_lost w s a).
Proof.
  intros Ht. unfold process_lost, presence_lost. rewrite (tr_infos _ _ Ht).
  destruct (around s !! a) as [p|] eqn:E; cbn [fmap option_fmap option_map].
  2: { unfold ClearGattAdvertisement. by rewrite (tr_infos _ _ Ht), E. }
  destruct (tr_ads _ _ Ht a ltac:(eauto)) as [Ha Hread]. cbn [peripheral].
  set (t1 := if peripheral_IsValid w p then _ else t).
  assert (service_id_infos_ t1 = service_info s /\ gatt_advertisements_ t1 = gatt_advertisements_ t
    /\ gatt_advertisement_infos_ t1 = gatt_advertisement_infos_ t
    /\ reports t1 = told s ++ if peripheral_IsValid w p then [lost_report p a] else []) as (E1 & E2 & E3 & E4).
  { unfold t1. destruct Ht as [Hs _ _ _ _ Htold]. destruct (peripheral_IsValid w p); cbn; rewrite ?Htold, ?app_nil_r; done. }
  clearbody t1. destruct (ClearGatt_same a t1) as (F1 & F2 & F3).
  assert (gatt_advertisements_ (ClearGattAdvertisement a t1) = delete (header_for a) (gatt_advertisements_ t)) as F4.
  { unfold ClearGattAdvertisement. rewrite E3, (tr_infos _ _ Ht), E. cbn [fmap option_fmap option_map advertisement_header].
    cbn [gatt_advertisements_ set_gatt_advertisement_infos]. rewrite E2, (tr_gatts _ _ Ht a Ha Hread), E. cbn [fmap option_fmap option_map].
    rewrite difference_diag_L, bool_decide_true by done. cbn [gatt_advertisements_ set_gatt_advertisements].
    match goal with |- context [erase_read_result ?h ?t'] => destruct (erase_same h t') as (_ & _ & _ & ->) end.
    cbn [gatt_advertisements_ set_gatt_advertisements]. by rewrite delete_insert_eq. }
  split; cbn.
  - by rewrite F3.
  - intros b [_ Hb]%lookup_delete_is_Some. by apply (tr_ads _ _ Ht).
  - intros b. rewrite F1, E3. destruct (decide (a = b)) as [<-|].
    + by rewrite !lookup_delete_eq.
    + rewrite !lookup_delete_ne by done. apply (tr_infos _ _ Ht).
  - intros b Hb Hr. rewrite F4. destruct (decide (a = b)) as [<-|Hne].
    + by rewrite !lookup_delete_eq.
    + rewrite !lookup_delete_ne; [by apply (tr_gatts _ _ Ht)|done|]. intros Eh. by apply Hne, header_for_inj.
  - intros b set Hb Hr. rewrite F4. intros [_ Es]%lookup_delete_Some. by apply (tr_unread _ _ Ht) in Es.
  - by rewrite F2, E4.
Qed.

Lemma Alarm_tracks w t s : tracks t s -> tracks (ProcessLostGattAdvertisements w t) (presence_alarm w s).
Proof.
  intros Ht. unfold ProcessLostGattAdvertisements. rewrite (tracked_run t s Ht). cbn [fold_left fst]. unfold process_lost_service.
  rewrite (tr_services _ _ Ht). unfold service_info. rewrite lookup_singleton_eq.
  cbn [ComputeLostEntities lost_entity_tracker client current_entities_ previously_found_entities_].
  unfold presence_alarm. set (s1 := MakePresence (around s) ∅ (seen s) (told s)). set (t1 := set_lost_tracker _ _ t).
  assert (tracks t1 s1) as Ht1.
  { destruct Ht as [Hs]. split; cbn; try done. rewrite Hs. unfold service_info. by rewrite alter_singleton_eq. }
  clearbody t1 s1. generalize (in_order (elements (seen_before s ∖ seen s))). intros l. clear Ht. revert t1 s1 Ht1.
  induction l as [|a l IH]; intros t1 s1 Ht1; [done|]. cbn [fold_left]. by apply IH, process_lost_tracks.
Qed.

Fixpoint presence_steps (es : list (Environment * Sighting)) (s : Presence) : Presence :=
  match es with [] => s | (w, e) :: es => presence_steps es (presence_step w e s) end.

Lemma steps_track es : forall t s,
  tracks t s -> Forall (fun e => sighting_ok (snd e)) es ->
  exists t', tracker_steps (map (fun '(w, e) => (w, sighting_event e)) es) t = Done t' /\ tracks t' (presence_steps es s).
Proof.
  induction es as [|[w e] es IH]; intros t s Ht Hes; cbn [map tracker_steps presence_steps]; [eauto|].
  apply Forall_cons in Hes as [He Hes]. destruct e as [p a fetcher extended|]; cbn [sighting_event].
  - destruct He as [Ha Hp]. destruct (Found_tracks w t s p a fetcher extended Ht Ha Hp) as (t1 & -> & Ht1). by apply IH.
  - apply IH; [by apply Alarm_tracks|done].
Qed.

(** C9. For a client that scans for one service, on a UUID that is not empty, the tracker
    implements the account [Presence].  The advertisements of the service are fast ones, or
    regular ones with the hash of the service in an extended advertisement, that were
    written without a PSM, that are not read as an advertisement header, and whose own
    4-byte hashes differ pairwise.  For any sequence of sightings of these, on peripherals
    that carry no PSM, and of alarms, the tracker returns from every call, and what it tells
    the client, in this order, is what the account says: an advertisement is reported found
    when it was not around, and lost at the first alarm after which it has not been seen for
    a whole period between two alarms, if its peripheral is in reach then.  A sighting
    counts if the peripheral is in reach, with one exception: where [char] is signed a
    regular advertisement whose data length has a low byte of 128 or more is refused, and
    never reported. *)
Theorem Tracker_refines_presence es extended :
  Forall (fun e => sighting_ok (snd e)) es ->
  exists t, tracker_steps (map (fun '(w, e) => (w, sighting_event e)) es)
      (StartTracking sid cb uuid (new_tracker extended)) = Done t
    /\ reports t = told (presence_steps es (MakePresence ∅ ∅ ∅ [])).
Proof.
  intros Hes. destruct (steps_track es (StartTracking sid cb uuid (new_tracker extended)) (MakePresence ∅ ∅ ∅ []))
    as (t & E & Ht); [|done|exists t; split; [done|apply Ht]].
  assert (StartTracking sid cb uuid (new_tracker extended)
    = set_service_id_infos {[sid := MakeServiceIdInfo cb new_lost_tracker uuid]} (new_tracker extended)) as ->.
  { unfold StartTracking, ClearDataForServiceId. cbn. rewrite map_to_list_empty, in_order_nil. by rewrite insert_empty. }
  split; cbn; try done. by intros a [x ?%lookup_empty_Some].
Qed.
End Presence.
