(* ===== verification/BleExamples.v ===== *)
(** The theorems about the BLE medium at concrete inputs, and runs of the tracker in which
    the code does what its clients do not expect: two services with one UUID, a header
    whose advertisements are read again, the reading thread. *)

From Stdlib Require Import ZArith Lia.
From stdpp Require Import base list numbers gmap.
From S2P Require Import Prelude Utils CppBase BleData BleTheorems BleTracker BleTrackerSafety BleDiscovery.
Import Uuids BleAdvertisementHeader BleAdvertisement AdvertisementReadResult LostEntityTracker.
Import DiscoveredPeripheralTracker.

Open Scope Z_scope.
Open Scope fp_scope.

(** * The surroundings *)

(** The hash keeps the start of its input, the text is the input after a dash, and a map
    is read in the order of its list. *)
#[local] Instance prefix_hashes : Hashes := {|
  Sha256 m := map u8 (take 32 (m ++ replicate 32 0));
  MurmurHash3_low64 m := fold_left (fun h b => u64 (31 * h + 7 * b)) m 1234567890123;
|}.
#[local] Instance prefix_hashes_spec : HashesSpec prefix_hashes.
Proof.
  split; intros m; cbn [Sha256 prefix_hashes].
  - rewrite length_map, length_take, length_app, length_replicate. lia.
  - apply Forall_map, Forall_true. intros x. apply u8_byte.
Qed.
#[local] Instance dashed_text : Base64 := {|
  WebSafeBase64Escape l := 45 :: l;
  WebSafeBase64Unescape l := match l with [] => Some [] | b :: l => if b =? 45 then Some l else None end;
|}.
#[local] Instance dashed_text_spec : Base64Spec dashed_text := {| unescape_escape l _ := eq_refl |}.
#[local] Instance with_ble_v2 : BleFlags := {| kEnableBleV2 := true |}.
#[local] Instance listed : HashOrder := {| in_order _ l := l |}.
#[local] Instance listed_spec : HashOrderSpec listed := {| in_order_perm _ l := reflexivity l |}.
#[local] Instance no_thread : ThreadFlag := {| kEnableGattQueryInThread := false |}.
Definition reading_thread : ThreadFlag := {| kEnableGattQueryInThread := true |}.
#[local] Existing Instance signed_char.

(** Two services and their advertisements. *)
Definition service1 : list Z := [1; 10; 11; 12].
Definition service2 : list Z := [2; 20; 21; 22].
Definition uuid1 : Uuid := MakeUuid 1 1.
Definition fast_ad : BleAdvertisement := new_advertisement 2 2 [] [7; 8; 9] [5; 6] 0.
Definition slow_ad : BleAdvertisement := new_advertisement 2 2 (GenerateServiceIdHash service1) [3; 4] [5; 6] 0.
Definition long_ad : BleAdvertisement := new_advertisement 2 1 (GenerateServiceIdHash service1) (replicate 200 4) [5; 6] 0.
Definition other_ad : BleAdvertisement := new_advertisement 2 2 (GenerateServiceIdHash service2) [8; 8] [5; 6] 0.
Definition phone : BleV2Peripheral := MakePeripheral (Some 42) [] 0.
Definition near (t : Z) : Environment := MakeEnvironment t (fun u => u =? 42).
Definition no_fetcher : AdvertisementFetcher := fun _ _ _ _ _ r => r.

(** * The data *)
Lemma BleAdvertisement_roundtrip_witness :
  let a := new_advertisement 2 1 [1; 2; 3] (replicate 100 7) [8; 9] 0x0180 in
  let b := new_advertisement 2 1 [1; 2; 3] (replicate 100 7) [] 0x0180 in
  (Z.of_nat (length (replicate 100 7)) < 2 ^ 31 /\ IsValid a = true /\ IsValid b = true /\ size_readable a = true) /\
  (advertisement_of_bytes (advertisement_bytes a) = SetPsm kDefaultPsmValue a
   /\ (size_readable a = true -> advertisement_of_bytes (ByteArrayWithExtraField a) = SetPsm 0xFF80 a)) /\
  (advertisement_of_bytes (advertisement_bytes b) = SetPsm kDefaultPsmValue b
   /\ (size_readable b = true ->
       advertisement_of_bytes (ByteArrayWithExtraField b) = MakeAdvertisement 2 1 false [1; 2; 3] (replicate 100 7) [1; 0] 0)).
Proof.
  split; [split_and!; by vm_compute|]. split.
  - exact (BleAdvertisement_roundtrip 2 1 [1; 2; 3] (replicate 100 7) [8; 9] 0x0180 eq_refl eq_refl).
  - exact (BleAdvertisement_roundtrip 2 1 [1; 2; 3] (replicate 100 7) [] 0x0180 eq_refl eq_refl).
Defined.

(** The PSM 0x0180 is received as 0xFF80, and 200 bytes of data are refused. *)
Example psm_sign_extended : psm_received 0x0180 = 0xFF80.
Proof. reflexivity. Qed.
Example long_data_refused :
  let a := new_advertisement 2 1 [1; 2; 3] (replicate 200 7) [8; 9] 0 in
  IsValid a = true /\ size_readable a = false.
Proof. by vm_compute. Qed.

Lemma BloomFilter_reaches_scanner_witness :
  ((0 < 10)%nat /\ service1 ∈ [service2; service1]) /\
  exists bits bytes, add_all [service2; service1] (BloomFilter.new_bits 10) = Done bits
    /\ BloomFilter.filter_bytes bits = Done bytes /\ length bytes = 10%nat
    /\ BloomFilter.new_filter (BloomFilter.new_bits 10) bytes = Done bits
    /\ BloomFilter.PossiblyContains service1 bits = Done true.
Proof.
  assert (service1 ∈ [service2; service1]) as Hs by (apply elem_of_cons; right; apply elem_of_cons; by left).
  split; [split; [lia|exact Hs]|].
  apply (BloomFilter_reaches_scanner 10 [service2; service1] service1); [lia|exact Hs].
Defined.

Lemma BleAdvertisementHeader_roundtrip_witness :
  let h := new_header kV2 true 19 (replicate 10 255) [1; 2; 3; 4] 0x0112 in
  (header_IsValid h = true /\ bytes_ok (replicate 10 255) /\ bytes_ok [1; 2; 3; 4]) /\
  header_of_bytes (header_bytes h) = MakeHeader kV2 true (19 mod 16) (replicate 10 255) [1; 2; 3; 4] (psm_received 0x0112).
Proof.
  assert (bytes_ok (replicate 10 255)) as Hf by (repeat constructor; lia).
  assert (bytes_ok [1; 2; 3; 4]) as Hh by (repeat constructor; lia).
  split; [by split_and!|].
  apply (BleAdvertisementHeader_roundtrip true 19 (replicate 10 255) [1; 2; 3; 4] 0x0112); [by vm_compute|exact Hf|exact Hh|].
  intros _. by vm_compute.
Defined.

(** * Retries *)
Lemma Retry_backoff_exact_witness :
  (result_ (new_read_result 0) <> Some kFailure /\ [1000; 2000; 4000] <> ([] : list Z)) /\
  let r := failures [1000; 2000; 4000] (new_read_result 0) in
  EvaluateRetryStatus 7000 r = kTooSoon
  /\ base_backoff_duration <= backoff 3 <= max_backoff_duration
  /\ EvaluateRetryStatus 7000 (RecordLastReadStatus 6000 true r) = kPreviouslySucceeded.
Proof.
  split; [by split|]. apply (Retry_backoff_exact (new_read_result 0) [1000; 2000; 4000] 6000 7000).
  - done.
  - done.
Defined.

(** * The tracker of one service *)
Definition visit : list (Environment * Sighting) :=
  [(near 0, Sees phone fast_ad no_fetcher false); (near 5, Sees phone long_ad no_fetcher true); (near 10, Sees phone slow_ad no_fetcher true); (near 20, Alarm);
   (near 30, Sees phone slow_ad no_fetcher true); (near 40, Alarm); (near 50, Alarm)].
Definition service1_ads (a : BleAdvertisement) : Prop := a = fast_ad \/ a = slow_ad \/ a = long_ad.

Lemma service1_ads_ok a : service1_ads a -> service_advertisement service1 uuid1 a.
Proof.
  intros [->|[->| ->]]; split; try done; try (by left); try (by right); try (intros []; by vm_compute);
    try (split; vm_compute; try done; try (by right); lia).
Qed.
Lemma service1_ads_distinct a b : service1_ads a -> service1_ads b ->
  GenerateAdvertisementHash (advertisement_bytes a) = GenerateAdvertisementHash (advertisement_bytes b) -> a = b.
Proof. intros [->|[->| ->]] [->|[->| ->]]; vm_compute; congruence. Qed.
Lemma visit_ok : Forall (fun e => sighting_ok service1_ads (snd e)) visit.
Proof. repeat constructor; by vm_compute; auto. Qed.

(** The fast and the short regular advertisement are found, the one with 200 bytes is not,
    as [char] is signed here, and the fast one, which does not come back, is lost at the
    second alarm. *)
Lemma Tracker_refines_presence_witness :
  Forall (fun e => sighting_ok service1_ads (snd e)) visit /\
  (exists t, tracker_steps (map (fun '(w, e) => (w, sighting_event uuid1 e)) visit)
      (StartTracking service1 1 uuid1 (new_tracker true)) = Done t
    /\ reports t = told (presence_steps service1 1 visit (MakePresence ∅ ∅ ∅ []))) /\
  told (presence_steps service1 1 visit (MakePresence ∅ ∅ ∅ [])) =
    [found_report service1 1 phone fast_ad; found_report service1 1 phone slow_ad; lost_report service1 1 phone fast_ad;
     lost_report service1 1 phone slow_ad].
Proof.
  split; [exact visit_ok|]. split; [|by vm_compute].
  apply (Tracker_refines_presence service1 1 uuid1 service1_ads service1_ads_ok service1_ads_distinct eq_refl visit true).
  exact visit_ok.
Defined.

(** * Two services *)

(** A header for both services, and the advertisements behind it. *)
Definition both_filter : list Z := replicate 10 255.
Definition both_header : BleAdvertisementHeader := new_header kV2 false 2 both_filter [1; 2; 3; 4] 0.
Definition header_data : BleAdvertisementData := MakeData false {[kCopresenceServiceUuid := header_bytes both_header]}.
Definition two_slots : AdvertisementFetcher := fun w _ _ _ _ r =>
  RecordLastReadStatus (now w) true
    (AddAdvertisement 0 (advertisement_bytes slow_ad) (AddAdvertisement 1 (advertisement_bytes other_ad) r)).

Definition header_visit : list (Environment * TrackerEvent) :=
  [(near 0, Start service1 1 uuid1); (near 1, Found phone header_data two_slots);
   (near 2, Start service2 2 (MakeUuid 2 2)); (near 3, Found phone header_data two_slots);
   (near 4, LostAlarm); (near 5, LostAlarm); (near 6, LostAlarm)].

Lemma Tracker_safe_witness :
  kEnableGattQueryInThread = false /\
  exists t, tracker_steps header_visit (new_tracker true) = Done t
    /\ (lost_count (advertisement_bytes slow_ad) (take 3 (reports t)) <= found_count (advertisement_bytes slow_ad) (take 3 (reports t)))%nat.
Proof. split; [done|]. apply (Tracker_safe (TF := no_thread) eq_refl true header_visit (advertisement_bytes slow_ad) 3). Defined.

Definition reports_of (o : outcome Tracker) : option (list Report) := match o with Done t => Some (reports t) | _ => None end.

(** The second service is tracked when the header is known already: its advertisement is
    found when the header is read again, but [gatt_advertisements_] keeps the old set,
    and the loss of the advertisement is never reported. *)
Example reread_header_never_lost :
  reports_of (tracker_steps header_visit (new_tracker true)) =
    Some [found_report service1 1 phone slow_ad; found_report service2 2 phone other_ad;
          lost_report service1 1 phone slow_ad].
Proof. by vm_compute. Qed.

(** Of two services that are scanned with one UUID for fast advertisements, one is told. *)
Example shared_uuid_told_once :
  reports_of (tracker_steps
    [(near 0, Start service1 1 uuid1); (near 1, Start service2 2 uuid1);
     (near 2, Found phone (advertised_data uuid1 false fast_ad) no_fetcher)] (new_tracker true)) =
  Some [found_report service1 1 phone fast_ad].
Proof. by vm_compute. Qed.

(** * The reading thread *)

(** A client that starts to scan while advertisements are fetched deletes the result the
    thread writes to. *)
Example start_during_fetch :
  tracker_steps (TF := reading_thread)
    [(near 0, Start service1 1 uuid1); (near 1, Found phone header_data two_slots); (near 2, ThreadTurn); (near 3, ThreadTurn);
     (near 4, Start service2 2 (MakeUuid 2 2)); (near 5, ThreadTurn)] (new_tracker true) = Fault.
Proof. by vm_compute. Qed.
