(* ===== verification/PresenceData.v ===== *)
(** The advertisements of Nearby Presence, after src/presence: data elements, the actions
    of a base advertisement (implementation/action_factory.cc), broadcast requests
    (implementation/base_broadcast_request.cc), how they are written
    (implementation/advertisement_factory.cc) and read again
    (implementation/advertisement_decoder.cc), the wrapper of the LDT cipher
    (implementation/ldt.cc) and what is given to the Bluetooth medium (mediums/ble.h).

    The cipher itself is a library in Rust: the class [Ldt] is its interface as
    implementation/np_ldt.h declares it, a handle standing for what it was created with;
    [LdtSpec] is what that header documents.  Random bytes are arguments.  The decoder
    refers to the credentials of its session by a pointer: an address in [memory],
    whose contents are the credentials that are alive. *)

From Stdlib Require Import ZArith Lia.
From stdpp Require Import base list numbers gmap.
From S2P Require Import Prelude Utils CppBase BleData BleTracker.

Open Scope Z_scope.
Open Scope fp_scope.

(** [absl::StatusOr] with an early return of the error. *)
Notation "'let?' x ':=' m 'in' k" := (match m with Ok x => k | Error code => Error code end)
  (at level 200, x ident, m at level 100, k at level 200) : fp_scope.

(** * Data elements *)
Module DataElement.

Definition kSaltFieldType : Z := 0.
Definition kPrivateIdentityFieldType : Z := 1.
Definition kTrustedIdentityFieldType : Z := 2.
Definition kPublicIdentityFieldType : Z := 3.
Definition kProvisionedIdentityFieldType : Z := 4.
Definition kTxPowerFieldType : Z := 5.
Definition kActionFieldType : Z := 6.
Definition kModelIdFieldType : Z := 7.
Definition kEddystoneIdFieldType : Z := 8.
Definition kAccountKeyDataFieldType : Z := 9.
Definition kConnectionStatusFieldType : Z := 10.
Definition kBatteryFieldType : Z := 11.
Definition kContextTimestampFieldType : Z := 13.
Definition kMaxDataElementLength : Z := 15.
Definition kMaxDataElementType : Z := 15.
Definition kDataElementLengthShift : Z := 4.

(** [ActionBit::kLastAction]; an action bit is its number. *)
Definition kLastAction : Z := 16.

Record DataElement : Type := MakeElement { type_ : Z; value_ : list Z }.
#[export] Instance DataElement_eq_dec : EqDecision DataElement.
Proof. solve_decision. Defined.

(** The constructors from a byte and from an action. *)
Definition byte_element (type value : Z) : DataElement := MakeElement type [u8 value].
Definition action_element (action : Z) : DataElement := byte_element kActionFieldType (u8 action).
End DataElement.
Import DataElement.

Definition kSaltSize : nat := 2.
Definition kBaseMetadataSize : nat := 14.

(** * Actions *)
Module ActionFactory.
Section Actions.
Context {ct : CharType}.

Definition kContentTimestampMask : Z := 0x0F.
Definition kContentTimestampShift : Z := 28.
Definition kEmptyMask : Z := 0.
Definition kActionSizeInBits : Z := 32.

Definition GetActionMask (action : Z) : Z :=
  if (action <? 0) || (kActionSizeInBits <=? action) then kEmptyMask
  else s32 (Z.shiftl 1 (kActionSizeInBits - 1 - action)).

Definition GetActionFromBit (bit : Z) : Z := kActionSizeInBits - 1 - bit.

Definition GetMask (element : DataElement) : Z :=
  if type_ element =? kContextTimestampFieldType then
    match value_ element with
    | b :: _ => s32 (Z.shiftl (Z.land (char_int b) kContentTimestampMask) kContentTimestampShift)
    | [] => kEmptyMask
    end
  else if type_ element =? kActionFieldType then
    match value_ element with
    | b :: _ => GetActionMask (char_int b)
    | [] => kEmptyMask
    end
  else kEmptyMask.

Definition CreateAction (data_elements : list DataElement) : Z :=
  fold_left (fun action element => Z.lor action (u32 (GetMask element))) data_elements 0.

Definition kFirstUsedBit : Z := kActionSizeInBits - kLastAction.

(** The loop over the bits from [i] on. *)
Fixpoint DecodeAction_loop (n : nat) (i action : Z) : list DataElement :=
  match n with
  | 0%nat => []
  | S n =>
    (if negb (Z.land action (u32 (Z.shiftl 1 i)) =? 0) then [action_element (GetActionFromBit i)] else [])
    ++ DecodeAction_loop n (i + 1) action
  end.

Definition DecodeAction (action : Z) (output : list DataElement) : list DataElement :=
  let context_timestamp := u8 (Z.land (Z.shiftr action kContentTimestampShift) kContentTimestampMask) in
  output ++ (if negb (context_timestamp =? 0) then [byte_element kContextTimestampFieldType context_timestamp] else [])
  ++ DecodeAction_loop (Z.to_nat (kContentTimestampShift - kFirstUsedBit)) kFirstUsedBit action.
End Actions.
End ActionFactory.
Import ActionFactory.

(** * Requests and credentials *)

Inductive IdentityType : Type :=
| IDENTITY_TYPE_UNSPECIFIED | IDENTITY_TYPE_PRIVATE | IDENTITY_TYPE_TRUSTED | IDENTITY_TYPE_PUBLIC
| IDENTITY_TYPE_PROVISIONED.
#[export] Instance IdentityType_eq_dec : EqDecision IdentityType.
Proof. solve_decision. Defined.
#[export] Instance IdentityType_countable : Countable IdentityType.
Proof.
  refine (inj_countable'
    (fun t => match t with
              | IDENTITY_TYPE_UNSPECIFIED => 0 | IDENTITY_TYPE_PRIVATE => 1 | IDENTITY_TYPE_TRUSTED => 2
              | IDENTITY_TYPE_PUBLIC => 3 | IDENTITY_TYPE_PROVISIONED => 4
              end)
    (fun n => if n =? 1 then IDENTITY_TYPE_PRIVATE else if n =? 2 then IDENTITY_TYPE_TRUSTED
              else if n =? 3 then IDENTITY_TYPE_PUBLIC else if n =? 4 then IDENTITY_TYPE_PROVISIONED
              else IDENTITY_TYPE_UNSPECIFIED) _).
  by intros [].
Defined.

Inductive PowerMode : Type := kNoPower | kLowPower | kBalanced | kLowLatency.

Record CredentialSelector : Type := MakeSelector {
  manager_app_id : list Z;
  account_name : list Z;
  selector_identity_type : IdentityType;
}.

(** The fields of the credentials that this part reads. *)
Record LocalCredential : Type := MakeLocalCredential {
  local_key_seed : list Z;
  start_time_millis : Z;
  metadata_encryption_key_v0 : list Z;
  consumed_salts : gset Z;
}.
Record SharedCredential : Type := MakeSharedCredential {
  shared_key_seed : list Z;
  metadata_encryption_key_tag_v0 : list Z;
}.

Record BroadcastSection : Type := MakeBroadcastSection {
  identity : IdentityType;
  section_properties : list DataElement;
  section_account_name : list Z;
  section_manager_app_id : list Z;
}.
(** The variant of a [BroadcastRequest]: its sections, or a legacy request. *)
Record BroadcastRequest : Type := MakeBroadcastRequest {
  request_tx_power : Z;
  request_power_mode : PowerMode;
  variant_sections : option (list BroadcastSection);
}.

(** A [BaseBroadcastRequest] whose variant is [BasePresence], the only one that is made. *)
Record BaseBroadcastRequest : Type := MakeBaseRequest {
  credential_selector : CredentialSelector;
  action : Z;
  salt : list Z;
  tx_power : Z;
  base_power_mode : PowerMode;
}.

(** [BaseBroadcastRequest::Create]; [random] is drawn for the salt. *)
Definition CreateBaseRequest {ct : CharType} (random : list Z) (request : BroadcastRequest)
  : StatusOr BaseBroadcastRequest :=
  match variant_sections request with
  | None => Error kUnimplemented
  | Some [] => Error kInvalidArgument
  | Some (section :: _) =>
    Ok (MakeBaseRequest
          (MakeSelector (section_manager_app_id section) (section_account_name section) (identity section))
          (CreateAction (section_properties section)) random (s8 (request_tx_power request)) (request_power_mode request))
  end.

(** [CredentialManagerImpl::CreatePublicCredential], what it gives to the fields above: the
    seed, and the hash of the metadata key as its tag. *)
Definition CreatePublicCredential {H : Hashes} (private_credential : LocalCredential) : SharedCredential :=
  MakeSharedCredential (local_key_seed private_credential) (Sha256 (metadata_encryption_key_v0 private_credential)).

(** * The LDT cipher *)
Class Ldt : Type := {
  NpLdtEncryptCreate : list Z -> bool;
  NpLdtDecryptCreate : list Z -> list Z -> bool;
  NpLdtEncrypt : list Z -> list Z -> list Z -> option (list Z);
  NpLdtDecryptAndVerify : list Z -> list Z -> list Z -> list Z -> option (list Z);
}.

(** The authentication tag the library computes for a metadata key, and what np_ldt.h says
    of 16 to 31 bytes: another tag does not verify. *)
Class LdtSpec (L : Ldt) : Type := {
  ldt_tag : list Z -> list Z -> list Z;
  ldt_tag_length : forall seed key, length (ldt_tag seed key) = 32%nat;
  ldt_encrypt_create : forall seed, NpLdtEncryptCreate seed = true;
  ldt_decrypt_create : forall seed tag, NpLdtDecryptCreate seed tag = true;
  ldt_encrypt_length : forall seed p s, (16 <= length p <= 31)%nat ->
    exists c, NpLdtEncrypt seed p s = Some c /\ length c = length p;
  ldt_decrypt : forall seed p s c, NpLdtEncrypt seed p s = Some c ->
    NpLdtDecryptAndVerify seed (ldt_tag seed (take kBaseMetadataSize p)) c s = Some p;
  ldt_mismatch : forall seed p s c tag, NpLdtEncrypt seed p s = Some c -> tag <> ldt_tag seed (take kBaseMetadataSize p) ->
    NpLdtDecryptAndVerify seed tag c s = None;
}.

Module LdtEncryptor.
Section Encryptor.
Context {L : Ldt}.

(** [FromStringView] into an array of [n] bytes. *)
Definition FromStringView (n : nat) (data : list Z) : list Z := take n (data ++ replicate n 0).

Record LdtEncryptor : Type := MakeEncryptor { encryptor_seed : list Z; encryptor_hmac : list Z }.

Definition CreateEncryptor (key_seed known_hmac : list Z) : StatusOr LdtEncryptor :=
  let seed := FromStringView 32 key_seed in
  let hmac := FromStringView 32 known_hmac in
  if negb (NpLdtEncryptCreate seed) then Error kUnavailable else
  if negb (NpLdtDecryptCreate seed hmac) then Error kUnavailable else
  Ok (MakeEncryptor seed hmac).

Definition Encrypt (e : LdtEncryptor) (data salt : list Z) : StatusOr (list Z) :=
  match NpLdtEncrypt (encryptor_seed e) data (FromStringView 2 salt) with
  | Some encrypted => Ok encrypted
  | None => Error kInternal
  end.

Definition DecryptAndVerify (e : LdtEncryptor) (data salt : list Z) : StatusOr (list Z) :=
  match NpLdtDecryptAndVerify (encryptor_seed e) (encryptor_hmac e) data (FromStringView 2 salt) with
  | Some decrypted => Ok decrypted
  | None => Error kInternal
  end.
End Encryptor.
End LdtEncryptor.
Import LdtEncryptor.

(** * Writing an advertisement *)
Module AdvertisementFactory.
Section Factory.
Context {L : Ldt}.

Definition kBaseVersion : Z := 0.

Definition CreateDataElementHeader (length data_type : Z) : StatusOr Z :=
  if kMaxDataElementLength <? length then Error kInvalidArgument else
  if kMaxDataElementType <? data_type then Error kInvalidArgument else
  Ok (u8 (Z.lor (Z.shiftl length kDataElementLengthShift) data_type)).

Definition AppendDataElement (data_type : Z) (data_element output : list Z) : StatusOr (list Z) :=
  let? header := CreateDataElementHeader (Z.of_nat (length data_element)) data_type in
  Ok (output ++ header :: data_element).

Definition GetIdentityFieldType (type : IdentityType) : Z :=
  match type with
  | IDENTITY_TYPE_PRIVATE => kPrivateIdentityFieldType
  | IDENTITY_TYPE_TRUSTED => kTrustedIdentityFieldType
  | IDENTITY_TYPE_PUBLIC => kPublicIdentityFieldType
  | _ => kProvisionedIdentityFieldType
  end.

(** [i] counts the bytes left. *)
Fixpoint SerializeAction_loop (i : nat) (input : Z) : list Z :=
  match i with
  | 0%nat => []
  | S i =>
    if input =? 0 then [] else
    let shift := 8 * Z.of_nat i in
    u8 (Z.land (Z.shiftr input shift) 0xFF) :: SerializeAction_loop i (Z.land input (Z.shiftl 1 shift - 1))
  end.
Definition SerializeAction (action : Z) : list Z := SerializeAction_loop 4 action.

Definition RequiresCredentials (identity_type : IdentityType) : bool :=
  match identity_type with
  | IDENTITY_TYPE_PRIVATE | IDENTITY_TYPE_TRUSTED | IDENTITY_TYPE_PROVISIONED => true
  | _ => false
  end.

Definition EncryptDataElements (credential : LocalCredential) (salt data_elements : list Z) : StatusOr (list Z) :=
  if negb (length (metadata_encryption_key_v0 credential) =? kBaseMetadataSize)%nat then Error kFailedPrecondition else
  let? encryptor := CreateEncryptor (local_key_seed credential) [] in
  Encrypt encryptor (metadata_encryption_key_v0 credential ++ data_elements) salt.

(** [CreateAdvertisement] of a presence request; the content of an [AdvertisementData]
    that is not extended. *)
Definition CreateBaseNpAdvertisement (request : BaseBroadcastRequest) (credential : option LocalCredential)
  : StatusOr (list Z) :=
  let payload := [kBaseVersion] in
  let tx := [u8 (tx_power request)] in
  let serialized := SerializeAction (action request) in
  let identity_type := GetIdentityFieldType (selector_identity_type (credential_selector request)) in
  if negb (identity_type =? kPublicIdentityFieldType) then
    if negb (length (salt request) =? kSaltSize)%nat then Error kInvalidArgument else
    match credential with
    | None => Error kFailedPrecondition
    | Some credential =>
      let? unencrypted := AppendDataElement kTxPowerFieldType tx [] in
      let? unencrypted := AppendDataElement kActionFieldType serialized unencrypted in
      let? encrypted := EncryptDataElements credential (salt request) unencrypted in
      if (length encrypted <=? kBaseMetadataSize)%nat then Error kOutOfRange else
      let? identity_header := CreateDataElementHeader (Z.of_nat (length encrypted - kBaseMetadataSize)) identity_type in
      Ok (payload ++ [identity_header] ++ salt request ++ encrypted)
    end
  else
    let? payload := AppendDataElement identity_type [] payload in
    let? payload := (if (length (salt request) =? 0)%nat then Ok payload
                     else AppendDataElement kSaltFieldType (salt request) payload) in
    let? payload := AppendDataElement kTxPowerFieldType tx payload in
    AppendDataElement kActionFieldType serialized payload.

Definition GetCredentialSelector (request : BaseBroadcastRequest) : StatusOr CredentialSelector :=
  if RequiresCredentials (selector_identity_type (credential_selector request))
  then Ok (credential_selector request) else Error kNotFound.
End Factory.
End AdvertisementFactory.
Import AdvertisementFactory.

(** * Reading an advertisement *)

Inductive ScanType : Type := kUnspecifiedScan | kFastPairScan | kPresenceScan.
Inductive ScanFilter : Type :=
| PresenceScanFilter (scan_type : ScanType) (extended_properties : list DataElement)
| LegacyPresenceScanFilter (scan_type : ScanType) (path_loss_threshold : Z)
    (remote_public_credentials : list SharedCredential) (actions : list Z) (extended_properties : list DataElement).

(** The fields that this part reads. *)
Record ScanRequest : Type := MakeScanRequest {
  scan_account_name : list Z;
  scan_manager_app_id : list Z;
  identity_types : list IdentityType;
  scan_filters : list ScanFilter;
  scan_power_mode : PowerMode;
}.

Record Advertisement : Type := MakeAdvertisement {
  version : Z;
  data_elements : list DataElement;
  public_credential : option SharedCredential;
  identity_type : IdentityType;
  metadata_key : list Z;
}.
Definition no_advertisement : Advertisement := MakeAdvertisement 0 [] None IDENTITY_TYPE_UNSPECIFIED [].

Definition Credentials : Type := gmap IdentityType (list SharedCredential).

Module AdvertisementDecoder.
Section Decoder.
Context {ct : CharType} {L : Ldt}.
Implicit Types ad : Advertisement.

Definition set_version (v : Z) ad : Advertisement :=
  MakeAdvertisement v (data_elements ad) (public_credential ad) (identity_type ad) (metadata_key ad).
Definition set_elements (l : list DataElement) ad : Advertisement :=
  MakeAdvertisement (version ad) l (public_credential ad) (identity_type ad) (metadata_key ad).
Definition push_element (e : DataElement) ad : Advertisement := set_elements (data_elements ad ++ [e]) ad.
Definition set_identity_type (t : IdentityType) ad : Advertisement :=
  MakeAdvertisement (version ad) (data_elements ad) (public_credential ad) t (metadata_key ad).
Definition set_decrypted (c : SharedCredential) (key : list Z) ad : Advertisement :=
  MakeAdvertisement (version ad) (data_elements ad) (Some c) (identity_type ad) key.

Definition kDataTypeMask : Z := Z.shiftl 1 kDataElementLengthShift - 1.
Definition kAdvertisementVersion : Z := 0.
Definition kEncryptedIdentityAdditionalLength : nat := kSaltSize + kBaseMetadataSize.
Definition kEddystoneAdditionalLength : nat := 20.

Definition GetDataElementType (header : Z) : Z := Z.land header kDataTypeMask.
Definition GetDataElementLength (header : Z) : Z := Z.shiftr header kDataElementLengthShift.

Definition IsEncryptedIdentity (data_type : Z) : bool :=
  (data_type =? kPrivateIdentityFieldType) || (data_type =? kTrustedIdentityFieldType)
  || (data_type =? kProvisionedIdentityFieldType).
Definition IsIdentity (data_type : Z) : bool := (data_type =? kPublicIdentityFieldType) || IsEncryptedIdentity data_type.

Definition IsDataElementAllowed (header : Z) : bool :=
  let data_type := GetDataElementType header in
  let length := GetDataElementLength header in
  if data_type =? kSaltFieldType then length =? 2 else
  if data_type =? kPublicIdentityFieldType then length =? 0 else
  if IsEncryptedIdentity data_type then (2 <=? length) && (length <=? 6) else
  if data_type =? kTxPowerFieldType then length =? 1 else
  if data_type =? kActionFieldType then (1 <=? length) && (length <=? 3) else
  if data_type =? kModelIdFieldType then length =? 3 else
  if data_type =? kEddystoneIdFieldType then length =? 0 else
  if data_type =? kAccountKeyDataFieldType then length <=? 12 else
  if data_type =? kConnectionStatusFieldType then length <=? 3 else
  if data_type =? kBatteryFieldType then length <=? 3 else false.

Definition GetIdentityType (data_type : Z) : IdentityType :=
  if data_type =? kPrivateIdentityFieldType then IDENTITY_TYPE_PRIVATE else
  if data_type =? kTrustedIdentityFieldType then IDENTITY_TYPE_TRUSTED else
  if data_type =? kProvisionedIdentityFieldType then IDENTITY_TYPE_PROVISIONED else
  if data_type =? kPublicIdentityFieldType then IDENTITY_TYPE_PUBLIC else IDENTITY_TYPE_UNSPECIFIED.

Definition GetDataElementTrueLength (header : Z) : nat :=
  let data_type := GetDataElementType header in
  let length := Z.to_nat (GetDataElementLength header) in
  if IsEncryptedIdentity data_type then length + kEncryptedIdentityAdditionalLength
  else if data_type =? kEddystoneIdFieldType then length + kEddystoneAdditionalLength
  else length.

(** The element and the index after it. *)
Definition ParseDataElement (input : list Z) (index : nat) : StatusOr (DataElement * nat) :=
  match input !! index with
  | None => Error kOutOfRange
  | Some b =>
    let header := u8 b in
    if negb (IsDataElementAllowed header) then Error kInvalidArgument else
    let data_type := GetDataElementType header in
    let len := GetDataElementTrueLength header in
    let start := S index in
    if (length input <? start + len)%nat then Error kOutOfRange else
    Ok (MakeElement data_type (take len (drop start input)), (start + len)%nat)
  end.

(** The loop over the bytes of an action. *)
Fixpoint action_bytes (bytes : list Z) (i : Z) (action : Z) : outcome Z :=
  match bytes with
  | [] => Done action
  | b :: bytes =>
    let! shifted := char_shift b ((4 - 1 - i) * 8) in
    action_bytes bytes (i + 1) (Z.lor action (u32 shifted))
  end.
Definition DecodeBaseAction (serialized_action : list Z) ad : outcome Advertisement :=
  if (length serialized_action =? 0)%nat || (3 <? length serialized_action)%nat then Done ad
  else
    let! action := action_bytes serialized_action 0 0 in
    Done (set_elements (DecodeAction action (data_elements ad)) ad).

Fixpoint DecryptLdt_loop (credentials : list SharedCredential) (salt data_elements : list Z) ad
  : StatusOr (list Z * Advertisement) :=
  match credentials with
  | [] => Error kUnavailable
  | credential :: credentials =>
    match CreateEncryptor (shared_key_seed credential) (metadata_encryption_key_tag_v0 credential) with
    | Error _ => DecryptLdt_loop credentials salt data_elements ad
    | Ok encryptor =>
      match DecryptAndVerify encryptor data_elements salt with
      | Ok result =>
        if (kBaseMetadataSize <? length result)%nat
        then Ok (drop kBaseMetadataSize result, set_decrypted credential (take kBaseMetadataSize result) ad)
        else DecryptLdt_loop credentials salt data_elements ad
      | Error _ => DecryptLdt_loop credentials salt data_elements ad
      end
    end
  end.
Definition DecryptLdt (credentials : list SharedCredential) (salt data_elements : list Z) ad
  : StatusOr (list Z * Advertisement) :=
  match credentials with
  | [] => Error kUnavailable
  | _ => DecryptLdt_loop credentials salt data_elements ad
  end.

Record AdvertisementDecoder : Type := MakeDecoder {
  scan_request_ : ScanRequest;
  credentials_ : option nat;
  banned_data_types_ : gset Z;
}.

(** [AddBannedDataTypes] *)
Definition unban (banned : gset Z) (t : IdentityType) : gset Z :=
  match t with
  | IDENTITY_TYPE_PRIVATE => banned ∖ {[kPrivateIdentityFieldType]}
  | IDENTITY_TYPE_TRUSTED => banned ∖ {[kTrustedIdentityFieldType]}
  | IDENTITY_TYPE_PUBLIC => banned ∖ {[kPublicIdentityFieldType]}
  | IDENTITY_TYPE_PROVISIONED => banned ∖ {[kProvisionedIdentityFieldType]}
  | IDENTITY_TYPE_UNSPECIFIED => banned
  end.
Definition AddBannedDataTypes (request : ScanRequest) : gset Z :=
  fold_left unban (identity_types request)
    {[kPrivateIdentityFieldType; kTrustedIdentityFieldType; kPublicIdentityFieldType; kProvisionedIdentityFieldType]}.
Definition new_decoder (request : ScanRequest) (credentials : option nat) : AdvertisementDecoder :=
  MakeDecoder request credentials (AddBannedDataTypes request).

(** The loop of [Decrypt] over the filters. *)
Fixpoint Decrypt_filters (filters : list ScanFilter) (salt encrypted : list Z) ad
  : option (list Z * Advertisement) :=
  match filters with
  | [] => None
  | LegacyPresenceScanFilter _ _ (c :: credentials) _ _ :: filters =>
    match DecryptLdt (c :: credentials) salt encrypted ad with
    | Ok decrypted => Some decrypted
    | Error _ => Decrypt_filters filters salt encrypted ad
    end
  | _ :: filters => Decrypt_filters filters salt encrypted ad
  end.

(** [operator[]] on the credentials adds an empty list where there is none. *)
Definition Decrypt (memory : nat -> option Credentials) (d : AdvertisementDecoder) (salt encrypted : list Z) ad
  : outcome (StatusOr (list Z * Advertisement)) :=
  match Decrypt_filters (scan_filters (scan_request_ d)) salt encrypted ad with
  | Some decrypted => Done (Ok decrypted)
  | None =>
    match credentials_ d with
    | None => Done (Error kFailedPrecondition)
    | Some a =>
      match memory a with
      | None => Fault
      | Some m => Done (DecryptLdt (default [] (m !! identity_type ad)) salt encrypted ad)
      end
    end
  end.

(** The loop over the decrypted elements. *)
Fixpoint decrypted_elements (fuel : nat) (decrypted : list Z) (index : nat) ad : outcome (StatusOr Advertisement) :=
  if (length decrypted <=? index)%nat then Done (Ok ad) else
  match fuel with
  | 0%nat => Fault
  | S fuel =>
    match ParseDataElement decrypted index with
    | Error code => Done (Error code)
    | Ok (internal_elem, index) =>
      let! ad := if type_ internal_elem =? kActionFieldType then DecodeBaseAction (value_ internal_elem) ad
                 else Done (push_element internal_elem ad) in
      decrypted_elements fuel decrypted index ad
    end
  end.

Definition DecryptDataElements (memory : nat -> option Credentials) (d : AdvertisementDecoder) (elem : DataElement) ad
  : outcome (StatusOr Advertisement) :=
  if (length (value_ elem) <=? kEncryptedIdentityAdditionalLength)%nat then Done (Error kOutOfRange) else
  let salt := take kSaltSize (value_ elem) in
  let ad := push_element (MakeElement kSaltFieldType salt) ad in
  let! decrypted := Decrypt memory d salt (drop kSaltSize (value_ elem)) ad in
  match decrypted with
  | Error code => Done (Error code)
  | Ok (decrypted, ad) => decrypted_elements (length decrypted) decrypted 0 ad
  end.

(** The loop of [DecodeAdvertisement]. *)
Fixpoint decode_elements (memory : nat -> option Credentials) (d : AdvertisementDecoder) (fuel : nat)
    (advertisement : list Z) (index : nat) ad : outcome (StatusOr Advertisement) :=
  if (length advertisement <=? index)%nat then Done (Ok ad) else
  match fuel with
  | 0%nat => Fault
  | S fuel =>
    match ParseDataElement advertisement index with
    | Error code => Done (Error code)
    | Ok (elem, index) =>
      if bool_decide (type_ elem ∈ banned_data_types_ d) then Done (Error kFailedPrecondition) else
      let ad := if IsIdentity (type_ elem) then set_identity_type (GetIdentityType (type_ elem)) ad else ad in
      if IsEncryptedIdentity (type_ elem) then
        let! status := DecryptDataElements memory d elem ad in
        match status with
        | Error code => Done (Error code)
        | Ok ad => decode_elements memory d fuel advertisement index ad
        end
      else
        let! ad := if type_ elem =? kActionFieldType then DecodeBaseAction (value_ elem) ad
                   else Done (push_element elem ad) in
        decode_elements memory d fuel advertisement index ad
    end
  end.

Definition DecodeAdvertisement (memory : nat -> option Credentials) (d : AdvertisementDecoder) (advertisement : list Z)
  : outcome (StatusOr Advertisement) :=
  match advertisement with
  | [] => Done (Error kOutOfRange)
  | b :: _ =>
    let version := u8 b in
    if negb (version =? kAdvertisementVersion) then Done (Error kUnimplemented) else
    decode_elements memory d (length advertisement) advertisement 1 (set_version version no_advertisement)
  end.

(** [std::find] on a vector. *)
Definition Contains (data_elements : list DataElement) (data_element : DataElement) : bool :=
  bool_decide (data_element ∈ data_elements).
Definition ContainsAll (data_elements extended_properties : list DataElement) : bool :=
  forallb (Contains data_elements) extended_properties.
Definition ContainsAny (data_elements : list DataElement) (actions : list Z) : bool :=
  match actions with
  | [] => true
  | _ => existsb (fun action => Contains data_elements (action_element action)) actions
  end.

Definition matches_filter (data_elements : list DataElement) (filter : ScanFilter) : bool :=
  match filter with
  | PresenceScanFilter _ extended_properties => ContainsAll data_elements extended_properties
  | LegacyPresenceScanFilter _ _ _ actions extended_properties =>
    ContainsAny data_elements actions && ContainsAll data_elements extended_properties
  end.
Definition MatchesScanFilter (d : AdvertisementDecoder) (data_elements : list DataElement) : bool :=
  match scan_filters (scan_request_ d) with
  | [] => true
  | filters => existsb (matches_filter data_elements) filters
  end.

Definition GetCredentialSelectors (scan_request : ScanRequest) : list CredentialSelector :=
  map (MakeSelector (scan_manager_app_id scan_request) (scan_account_name scan_request))
    (match identity_types scan_request with
     | [] => [IDENTITY_TYPE_PRIVATE; IDENTITY_TYPE_TRUSTED; IDENTITY_TYPE_PUBLIC; IDENTITY_TYPE_PROVISIONED]
     | types => types
     end).
End Decoder.
End AdvertisementDecoder.

(** * The medium *)
Definition kPresenceServiceUuid : Uuids.Uuid := Uuids.MakeUuid 0x0000fcf100001000 0x800000805f9b34fb.

Inductive TxPowerLevel : Type := kUnknownLevel | kUltraLow | kLow | kMedium | kHigh.
Definition ConvertPowerModeToPowerLevel (power_mode : PowerMode) : TxPowerLevel :=
  match power_mode with kNoPower => kUnknownLevel | kLowPower => kLow | kBalanced => kMedium | kLowLatency => kHigh end.

(** The data [Ble::StartAdvertising] gives to the medium. *)
Definition advertising_data (content : list Z) : BleAdvertisementData :=
  MakeData false {[kPresenceServiceUuid := content]}.
