(* ===== verification/PresenceTheorems.v ===== *)
(** What an advertisement of Nearby Presence carries: the actions of a broadcast as a
    scanner reads them, data elements, and whole advertisements, encrypted or public;
    where the shifts of negative characters are defined the decoder comes to an end. *)

From Stdlib Require Import ZArith Lia.
From stdpp Require Import base list numbers gmap.
From S2P Require Import Prelude Utils CppBase PresenceData.
Import DataElement ActionFactory LdtEncryptor AdvertisementFactory AdvertisementDecoder.

Open Scope Z_scope.
Open Scope fp_scope.

(** * Actions *)
Section Actions.
Context {ct : CharType}.

(** The properties a base advertisement can carry: a context timestamp, or one of the
    actions of [ActionBit]. *)
Definition base_property (e : DataElement) : Prop :=
  (type_ e = kContextTimestampFieldType /\ exists b rest, value_ e = b :: rest /\ is_byte b)
  \/ exists a, 8 <= a < kLastAction /\ e = action_element a.

Definition all_actions : list Z := [15; 14; 13; 12; 11; 10; 9; 8].

(** Timestamps are combined by a disjunction of their lower four bits. *)
Definition timestamp_bits (e : DataElement) : Z :=
  if type_ e =? kContextTimestampFieldType then Z.land (default 0 (head (value_ e))) kContentTimestampMask else 0.
Definition timestamp_of (props : list DataElement) : Z := fold_left (fun t e => Z.lor t (timestamp_bits e)) props 0.

Definition timestamp_elements (t : Z) : list DataElement :=
  if t =? 0 then [] else [byte_element kContextTimestampFieldType t].

(** What a scanner reads of them.  Where [char] is signed the action 8 is read together
    with the four highest bits, as the timestamp 15, and the actions 4 to 7. *)
Definition misread (props : list DataElement) : bool := char_is_signed && bool_decide (action_element 8 ∈ props).
Definition received (props : list DataElement) : list DataElement :=
  timestamp_elements (if misread props then 15 else timestamp_of props)
  ++ map action_element (filter (fun a => action_element a ∈ props) all_actions
                         ++ if misread props then [7; 6; 5; 4] else []).

(** By the letter of C++17 the scanner's behaviour is undefined, where [char] is signed, for
    a byte from 128 on: with a timestamp from 8 on or the action 8. *)
Definition shift_undefined (props : list DataElement) : bool :=
  negb shifts_defined && ((8 <=? timestamp_of props) || bool_decide (action_element 8 ∈ props)).

(** The word of a timestamp and the bits of the actions. *)
Definition action_word (t b : Z) : Z := Z.lor (Z.shiftl t 28) (Z.shiftl b 16).
Definition action_bit (e : DataElement) : Z :=
  match value_ e with [a] => if type_ e =? kActionFieldType then Z.shiftl 1 (15 - a) else 0 | _ => 0 end.

Lemma lor_bound n a b : 0 <= n -> 0 <= a < 2 ^ n -> 0 <= b < 2 ^ n -> 0 <= Z.lor a b < 2 ^ n.
Proof.
  intros Hn Ha Hb. replace (Z.lor a b) with (Z.lor a b mod 2 ^ n); [apply Z.mod_pos_bound; lia|].
  rewrite <- Z.land_ones, Z.land_lor_distr_l, !Z.land_ones by done. by rewrite !Z.mod_small.
Qed.

Lemma mask_of_property e : base_property e ->
  u32 (GetMask e) = action_word (timestamp_bits e) (action_bit e) /\ 0 <= timestamp_bits e < 2 ^ 4 /\ 0 <= action_bit e < 2 ^ 8.
Proof.
  intros [[Ht (b & rest & Hv & Hb)]|(a & Ha & ->)].
  - unfold GetMask, timestamp_bits, action_bit. rewrite Ht, Hv. cbn -[Z.shiftl Z.land u32 s32 Z.pow].
    replace (match rest with [] => 0 | _ :: _ => 0 end) with 0 by (by destruct rest).
    apply (byte_cases (fun b =>
      (u32 (s32 (Z.shiftl (Z.land (char_int b) kContentTimestampMask) kContentTimestampShift))
       =? action_word (Z.land b kContentTimestampMask) 0)
      && (0 <=? Z.land b kContentTimestampMask) && (Z.land b kContentTimestampMask <? 16))) in Hb;
      [lia|destruct ct as [[]]; by vm_compute].
  - unfold kLastAction in Ha. pose proof (range_cases (fun a => (a <? 8)
      || (u32 (GetMask (action_element a)) =? action_word (timestamp_bits (action_element a)) (action_bit (action_element a)))
         && (timestamp_bits (action_element a) =? 0)
         && (0 <=? action_bit (action_element a)) && (action_bit (action_element a) <? 256)) 16 a) as H.
    lapply H; [intros H'; specialize (H' ltac:(lia)); lia|]. destruct ct as [[]]; by vm_compute.
Qed.

Lemma CreateAction_from props : Forall base_property props -> forall t b, 0 <= t < 2 ^ 4 -> 0 <= b < 2 ^ 8 ->
  let t' := fold_left (fun t e => Z.lor t (timestamp_bits e)) props t in
  let b' := fold_left (fun b e => Z.lor b (action_bit e)) props b in
  fold_left (fun action element => Z.lor action (u32 (GetMask element))) props (action_word t b) = action_word t' b'
  /\ 0 <= t' < 2 ^ 4 /\ 0 <= b' < 2 ^ 8.
Proof.
  induction 1 as [|e props He _ IH]; intros t b Ht Hb; cbn [fold_left]; [done|].
  destruct (mask_of_property e He) as (-> & Ht' & Hb').
  replace (Z.lor (action_word t b) (action_word (timestamp_bits e) (action_bit e)))
    with (action_word (Z.lor t (timestamp_bits e)) (Z.lor b (action_bit e))).
  - apply IH; by apply lor_bound.
  - unfold action_word. rewrite !Z.shiftl_lor. rewrite <- !Z.lor_assoc. f_equal. rewrite !Z.lor_assoc. f_equal. apply Z.lor_comm.
Qed.

(** Which actions the bits stand for. *)
Lemma action_bits_spec props a : Forall base_property props -> 8 <= a < kLastAction -> forall b,
  Z.testbit (fold_left (fun b e => Z.lor b (action_bit e)) props b) (15 - a) = true
  <-> Z.testbit b (15 - a) = true \/ action_element a ∈ props.
Proof.
  intros Hp Ha. unfold kLastAction in Ha. induction Hp as [|e props He _ IH]; intros b; cbn [fold_left].
  { rewrite elem_of_nil. tauto. }
  rewrite IH, Z.lor_spec, orb_true_iff, elem_of_cons.
  assert (Z.testbit (action_bit e) (15 - a) = true <-> action_element a = e) as ->; [|tauto].
  destruct He as [[Ht (c & rest & Hv & _)]|(c & Hc & ->)].
  - unfold action_bit. rewrite Hv, Ht. cbn [kActionFieldType kContextTimestampFieldType Z.eqb Pos.eqb].
    replace (match rest with [] => 0 | _ :: _ => 0 end) with 0 by (by destruct rest). rewrite Z.bits_0.
    split; [done|]. intros <-. by destruct rest.
  - unfold kLastAction in Hc. unfold action_element, byte_element, action_bit. cbn [value_ type_ Z.eqb kActionFieldType Pos.eqb].
    assert (u8 (u8 c) = c /\ u8 (u8 a) = a) as [-> ->] by (by rewrite !u8_id by (rewrite ?u8_id; unfold is_byte; lia)).
    rewrite Z.shiftl_1_l, Z.pow2_bits_eqb, Z.eqb_eq by lia. split; [intros E; f_equal; f_equal; lia|intros [= E]; lia].
Qed.

(** What a scanner decodes of a word. *)
Lemma decode_word t b : 0 <= t < 2 ^ 4 -> 0 <= b < 2 ^ 8 -> action_word t b <> 0 ->
  let bytes := SerializeAction (action_word t b) in
  let wrong := char_is_signed && Z.testbit b 7 in
  (1 <= length bytes <= 2)%nat
  /\ (let! action := action_bytes bytes 0 0 in Done (DecodeAction action [])) =
      if negb shifts_defined && ((8 <=? t) || Z.testbit b 7) then Fault else
      Done (timestamp_elements (if wrong then 15 else t)
            ++ map action_element (filter (fun a => Z.testbit b (15 - a) = true) all_actions ++ if wrong then [7; 6; 5; 4] else [])).
Proof.
  intros Ht Hb Hw bytes wrong. subst bytes wrong.
  set (P := fun t b => (action_word t b =? 0)
    || let bytes := SerializeAction (action_word t b) in
       let wrong := char_is_signed && Z.testbit b 7 in
       (1 <=? length bytes)%nat && (length bytes <=? 2)%nat
       && match action_bytes bytes 0 0 with
          | Done action => negb (negb shifts_defined && ((8 <=? t) || Z.testbit b 7)) && bool_decide (DecodeAction action [] =
              timestamp_elements (if wrong then 15 else t)
              ++ map action_element (filter (fun a => Z.testbit b (15 - a) = true) all_actions ++ if wrong then [7; 6; 5; 4] else []))
          | Fault => negb shifts_defined && ((8 <=? t) || Z.testbit b 7)
          | Crash => false
          end).
  assert (P t b = true) as H.
  { apply (range_cases (fun t => P t b) 16 t); [|done]. apply forallb_forall. intros t' Ht'%list_elem_of_In.
    apply (range_cases (P t') 256 b); [|done]. revert t' Ht'. apply (proj1 (Forall_forall _ _)).
    apply Forall_forall. intros t' Ht'. apply list_elem_of_In in Ht'. revert t' Ht'. apply forallb_forall.
    destruct ct as [[] []]; vm_compute; reflexivity. }
  unfold P in H. clear P. apply orb_true_iff in H as [H|H]; [lia|]. cbv zeta in H.
  rewrite !andb_true_iff in H. destruct H as [[H1%Nat.leb_le H2%Nat.leb_le] H3]. split; [done|].
  destruct (action_bytes _ 0 0); [|done|by rewrite H3]. rewrite andb_true_iff, negb_true_iff, bool_decide_eq_true in H3.
  destruct H3 as [-> H3]. by rewrite done_bind, H3.
Qed.

Lemma DecodeAction_app w l : DecodeAction w l = l ++ DecodeAction w [].
Proof. done. Qed.

(** ** The actions of a broadcast *)
Lemma received_word props : Forall base_property props -> received props <> [] ->
  exists t b, CreateAction props = action_word t b /\ 0 <= t < 2 ^ 4 /\ 0 <= b < 2 ^ 8 /\ action_word t b <> 0
    /\ received props = timestamp_elements (if char_is_signed && Z.testbit b 7 then 15 else t)
         ++ map action_element (filter (fun a => Z.testbit b (15 - a) = true) all_actions
                                ++ if char_is_signed && Z.testbit b 7 then [7; 6; 5; 4] else [])
    /\ shift_undefined props = negb shifts_defined && ((8 <=? t) || Z.testbit b 7).
Proof.
  intros Hp Hr. destruct (CreateAction_from props Hp 0 0) as (E & Ht & Hb); [lia..|]. fold (timestamp_of props) in E, Ht.
  set (b := fold_left (fun b e => Z.lor b (action_bit e)) props 0) in *.
  assert (forall a, 8 <= a < kLastAction -> Z.testbit b (15 - a) = true <-> action_element a ∈ props) as Hs.
  { intros a Ha. unfold b. rewrite (action_bits_spec props a Hp Ha), Z.bits_0. by split; [intros [|]|right]. }
  assert (bool_decide (action_element 8 ∈ props) = Z.testbit b 7) as E8.
  { pose proof (Hs 8 ltac:(unfold kLastAction; lia)) as H8. change (15 - 8) with 7 in H8.
    destruct (Z.testbit b 7); [by rewrite bool_decide_true by tauto|]. rewrite bool_decide_false; [done|]. intros Hin.
    by apply H8 in Hin. }
  assert (received props = timestamp_elements (if char_is_signed && Z.testbit b 7 then 15 else timestamp_of props)
            ++ map action_element (filter (fun a => Z.testbit b (15 - a) = true) all_actions
                                   ++ if char_is_signed && Z.testbit b 7 then [7; 6; 5; 4] else [])) as Er.
  { assert (misread props = char_is_signed && Z.testbit b 7) as <-.
    { unfold misread. by rewrite E8. }
    unfold received. f_equal. f_equal. f_equal. apply filter_ext_in. intros a Ha. symmetry. apply Hs.
    unfold all_actions in Ha. unfold kLastAction. set_unfold in Ha. lia. }
  exists (timestamp_of props), b. split; [done|]. split; [done|]. split; [done|]. split; cycle 1.
  { split; [done|]. unfold shift_undefined. by rewrite E8. }
  intros E0. apply Hr. rewrite Er. unfold action_word in E0. apply Z.lor_eq_0_iff in E0 as [Et Eb].
  rewrite Z.shiftl_mul_pow2 in Et, Eb by lia. assert (timestamp_of props = 0) as -> by lia. assert (b = 0) as -> by lia.
  by destruct char_is_signed.
Qed.
End Actions.

(** * Advertisements *)
Section Advertisements.
Context {ct : CharType} {L : Ldt} {Lspec : LdtSpec L}.
Implicit Types (d : AdvertisementDecoder) (ad : Advertisement).

(** ** Elements *)
Lemma ParseDataElement_at pre h v post :
  u8 h = h -> IsDataElementAllowed h = true -> GetDataElementTrueLength h = length v ->
  ParseDataElement (pre ++ h :: v ++ post) (length pre)
    = Ok (MakeElement (GetDataElementType h) v, length (pre ++ h :: v)).
Proof.
  intros Hh Ha Hl. unfold ParseDataElement. rewrite list_lookup_middle by done. rewrite Hh, Ha, Hl. cbn [negb].
  rewrite !length_app. cbn [length]. rewrite length_app.
  destruct (Nat.ltb_spec (length pre + S (length v + length post)) (S (length pre) + length v)); [lia|].
  change (pre ++ h :: v ++ post) with (pre ++ [h] ++ (v ++ post)). rewrite app_assoc.
  rewrite drop_app_length' by (rewrite length_app; cbn; lia). rewrite take_app_length. do 2 f_equal. lia.
Qed.

Lemma ParseDataElement_next input index e index' :
  ParseDataElement input index = Ok (e, index') -> (index < index' <= length input)%nat.
Proof.
  unfold ParseDataElement. destruct (input !! index) as [b|] eqn:E; [|done]. apply lookup_lt_Some in E.
  destruct (negb _); [done|]. destruct (Nat.ltb_spec (length input) (S index + GetDataElementTrueLength (u8 b))); [done|].
  intros [= _ <-]. lia.
Qed.

(** The decoder comes to an end when its credentials are alive and shifts are defined. *)
Lemma action_bytes_ends bytes : shifts_defined = true -> forall i action, exists r, action_bytes bytes i action = Done r.
Proof.
  intros Hd. induction bytes as [|b bytes IH]; intros i action; cbn [action_bytes]; [eauto|].
  rewrite char_shift_done by done. apply IH.
Qed.

Lemma element_ends e ad : shifts_defined = true ->
  exists ad', (if type_ e =? kActionFieldType then DecodeBaseAction (value_ e) ad else Done (push_element e ad)) = Done ad'.
Proof.
  intros Hd. destruct (_ =? _); [|eauto]. unfold DecodeBaseAction. destruct (_ || _); [eauto|].
  destruct (action_bytes_ends (value_ e) Hd 0 0) as [r ->]. rewrite done_bind. eauto.
Qed.

Lemma decrypted_elements_ends decrypted fuel : shifts_defined = true -> forall index ad,
  (length decrypted - index <= fuel)%nat -> exists r, decrypted_elements fuel decrypted index ad = Done r.
Proof.
  intros Hs. induction fuel as [|fuel IH]; intros index ad Hf; cbn [decrypted_elements];
    (destruct (Nat.leb_spec (length decrypted) index); [eauto|]); [lia|].
  destruct (ParseDataElement decrypted index) as [[e index']|code] eqn:E; [|eauto].
  apply ParseDataElement_next in E. destruct (element_ends e ad Hs) as [ad' ->]. rewrite done_bind. apply IH. lia.
Qed.

Definition credentials_alive (memory : nat -> option Credentials) d : Prop :=
  forall a, credentials_ d = Some a -> is_Some (memory a).

Lemma Decrypt_ends memory d salt encrypted ad :
  credentials_alive memory d -> exists r, Decrypt memory d salt encrypted ad = Done r.
Proof.
  intros Hd. unfold Decrypt. destruct (Decrypt_filters _ salt encrypted ad); [eauto|].
  destruct (credentials_ d) as [a|] eqn:Ea; [|eauto]. destruct (Hd a Ea) as [m ->]. eauto.
Qed.

Lemma DecryptDataElements_ends memory d elem ad :
  shifts_defined = true -> credentials_alive memory d -> exists r, DecryptDataElements memory d elem ad = Done r.
Proof.
  intros Hs Hd. unfold DecryptDataElements. destruct (_ <=? _)%nat; [eauto|].
  match goal with |- context [Decrypt ?m ?d ?s ?e ?a] => destruct (Decrypt_ends m d s e a Hd) as [r ->] end.
  rewrite done_bind. destruct r as [[decrypted ad']|]; [|eauto]. apply decrypted_elements_ends; [done|lia].
Qed.

Lemma decode_elements_ends memory d advertisement fuel : shifts_defined = true -> credentials_alive memory d -> forall index ad,
  (length advertisement - index <= fuel)%nat -> exists r, decode_elements memory d fuel advertisement index ad = Done r.
Proof.
  intros Hs Hd. induction fuel as [|fuel IH]; intros index ad Hf; cbn [decode_elements];
    (destruct (Nat.leb_spec (length advertisement) index); [eauto|]); [lia|].
  destruct (ParseDataElement advertisement index) as [[e index']|code] eqn:E; [|eauto].
  apply ParseDataElement_next in E. destruct (bool_decide _); [eauto|]. destruct (IsEncryptedIdentity (type_ e)).
  2: { match goal with |- context [mbind _ (if _ then DecodeBaseAction _ ?ad else _)] => destruct (element_ends e ad Hs) as [ad' ->] end.
       rewrite done_bind. apply IH. lia. }
  match goal with |- context [DecryptDataElements ?m ?d ?e ?a] => destruct (DecryptDataElements_ends m d e a Hs Hd) as [r ->] end.
  rewrite done_bind. destruct r; [apply IH; lia|eauto].
Qed.

Lemma DecodeAdvertisement_ends memory d bytes :
  shifts_defined = true -> credentials_alive memory d -> exists r, DecodeAdvertisement memory d bytes = Done r.
Proof.
  intros Hs Hd. unfold DecodeAdvertisement. destruct bytes as [|b bytes]; [eauto|]. destruct (negb _); [eauto|].
  apply decode_elements_ends; [done..|]. cbn. lia.
Qed.

(** ** Written and read *)
Definition body (tx : Z) (bytes : list Z) : list Z := 0x15 :: tx :: u8 (Z.lor (Z.shiftl (Z.of_nat (length bytes)) 4) 6) :: bytes.

Lemma body_written tx bytes out : (1 <= length bytes <= 2)%nat ->
  (let? l := AppendDataElement kTxPowerFieldType [tx] out in AppendDataElement kActionFieldType bytes l)
    = Ok (out ++ body tx bytes).
Proof.
  intros Hn. unfold AppendDataElement. change (CreateDataElementHeader (Z.of_nat (length [tx])) kTxPowerFieldType) with (Ok 0x15).
  destruct bytes as [|x [|y [|]]]; cbn in Hn; try lia.
  - change (CreateDataElementHeader (Z.of_nat (length [x])) kActionFieldType) with (Ok 0x16). cbv beta iota. by rewrite <- app_assoc.
  - change (CreateDataElementHeader (Z.of_nat (length [x; y])) kActionFieldType) with (Ok 0x26). cbv beta iota. by rewrite <- app_assoc.
Qed.

Definition read_body (tx : Z) (bytes : list Z) ad : outcome Advertisement :=
  DecodeBaseAction bytes (push_element (MakeElement kTxPowerFieldType [tx]) ad).

Lemma body_decrypted tx bytes ad : (1 <= length bytes <= 2)%nat ->
  decrypted_elements (length (body tx bytes)) (body tx bytes) 0 ad = let! ad := read_body tx bytes ad in Done (Ok ad).
Proof. intros Hn. by destruct bytes as [|x [|y [|]]]; cbn in Hn; try lia. Qed.

Lemma read_body_elements tx props ad : Forall base_property props -> received props <> [] ->
  let bytes := SerializeAction (CreateAction props) in
  (1 <= length bytes <= 2)%nat
  /\ read_body tx bytes ad = if shift_undefined props then Fault else
       Done (set_elements (data_elements ad ++ MakeElement kTxPowerFieldType [tx] :: received props) ad).
Proof.
  intros Hp Hr bytes. destruct (received_word props Hp Hr) as (t & b & E & Ht & Hb & Hw & Er & Eu).
  subst bytes. rewrite E. destruct (decode_word t b Ht Hb Hw) as [Hl Hd]. split; [done|].
  unfold read_body, DecodeBaseAction. set (bytes := SerializeAction _) in *. rewrite <- Er, <- Eu in Hd.
  destruct (Nat.eqb_spec (length bytes) 0); [lia|]. destruct (Nat.ltb_spec 3 (length bytes)); [lia|]. cbn [orb].
  destruct (action_bytes bytes 0 0) as [action| |]; rewrite ?done_bind in *; destruct (shift_undefined props); try done.
  injection Hd as Hd. rewrite DecodeAction_app, Hd. cbn [data_elements push_element set_elements version public_credential identity_type metadata_key].
  unfold set_elements. cbn. by rewrite <- app_assoc.
Qed.

(** ** What a scanner bans *)
Lemma unban_subset types : forall banned, fold_left unban types banned ⊆ banned.
Proof.
  induction types as [|t types IH]; intros banned; [done|]. cbn [fold_left]. etransitivity; [apply IH|].
  destruct t; cbn; first [done|apply subseteq_difference_l; done].
Qed.

Lemma unban_removes types t : t ∈ types -> t <> IDENTITY_TYPE_UNSPECIFIED ->
  forall banned, GetIdentityFieldType t ∉ fold_left unban types banned.
Proof.
  intros Hin Ht. induction types as [|t' types IH]; intros banned; cbn [fold_left]; [by apply not_elem_of_nil in Hin|].
  apply elem_of_cons in Hin as [->|Hin]; [|by apply IH]. intros Hb%unban_subset.
  destruct t'; cbn in Hb; try done; by apply elem_of_difference in Hb as [_ []%not_elem_of_singleton].
Qed.

Lemma never_banned request data_type :
  IsIdentity data_type = false -> data_type ∉ AddBannedDataTypes request.
Proof.
  unfold AddBannedDataTypes. intros Hi Hb%unban_subset. set_unfold in Hb. destruct_or?; subst; done.
Qed.

(** ** Credentials *)

(** Whether the library takes the tag of a shared credential for that of the metadata
    key. *)
Definition verifies (c : LocalCredential) (shared : SharedCredential) : bool :=
  bool_decide (FromStringView 32 (metadata_encryption_key_tag_v0 shared)
    = ldt_tag (FromStringView 32 (local_key_seed c)) (metadata_encryption_key_v0 c)).

(** A credential of another broadcaster: it does not verify the message. *)
Definition unreadable (salt encrypted : list Z) (c : SharedCredential) : Prop :=
  match CreateEncryptor (shared_key_seed c) (metadata_encryption_key_tag_v0 c) with
  | Ok e => match DecryptAndVerify e encrypted salt with
            | Ok result => (length result <= kBaseMetadataSize)%nat
            | Error _ => True
            end
  | Error _ => True
  end.

Lemma FromStringView_id n data : length data = n -> FromStringView n data = data.
Proof. intros <-. unfold FromStringView. by rewrite take_app_length. Qed.

Lemma CreateEncryptor_ok seed hmac :
  CreateEncryptor seed hmac = Ok (MakeEncryptor (FromStringView 32 seed) (FromStringView 32 hmac)).
Proof. unfold CreateEncryptor. by rewrite ldt_encrypt_create, ldt_decrypt_create. Qed.

(** What is encrypted with a credential, and how it is read. *)
Lemma encrypted_read c salt elements :
  length (metadata_encryption_key_v0 c) = kBaseMetadataSize -> (2 <= length elements <= 17)%nat -> length salt = kSaltSize ->
  exists encrypted, EncryptDataElements c salt elements = Ok encrypted
    /\ length encrypted = (kBaseMetadataSize + length elements)%nat
    /\ forall shared, shared_key_seed shared = local_key_seed c ->
         exists e, CreateEncryptor (shared_key_seed shared) (metadata_encryption_key_tag_v0 shared) = Ok e
         /\ DecryptAndVerify e encrypted salt =
              if verifies c shared then Ok (metadata_encryption_key_v0 c ++ elements) else Error kInternal.
Proof.
  intros Hk He Hs. unfold EncryptDataElements. rewrite Hk. change (negb (kBaseMetadataSize =? kBaseMetadataSize)%nat) with false.
  cbv iota. rewrite CreateEncryptor_ok. set (seed := FromStringView 32 (local_key_seed c)).
  set (plain := metadata_encryption_key_v0 c ++ elements).
  destruct (ldt_encrypt_length seed plain (FromStringView 2 salt)) as (encrypted & E & Hl).
  { unfold plain. rewrite length_app, Hk. unfold kBaseMetadataSize. lia. }
  exists encrypted. unfold Encrypt. cbn [encryptor_seed]. rewrite E. split; [done|]. split.
  { rewrite Hl. unfold plain. by rewrite length_app, Hk. }
  intros shared Es. eexists. split; [apply CreateEncryptor_ok|]. unfold DecryptAndVerify.
  cbn [encryptor_seed encryptor_hmac]. rewrite Es. fold seed. unfold verifies. fold seed.
  assert (take kBaseMetadataSize plain = metadata_encryption_key_v0 c) as Et by (by apply take_app_length').
  case_bool_decide as Ht.
  - rewrite Ht. pose proof (ldt_decrypt seed plain _ _ E) as Hd. rewrite Et in Hd. by rewrite Hd.
  - by rewrite (ldt_mismatch seed plain _ _ (FromStringView 32 (metadata_encryption_key_tag_v0 shared)) E) by (by rewrite Et).
Qed.

(** No credential verifies the message. *)
Lemma DecryptLdt_none l salt encrypted ad : Forall (unreadable salt encrypted) l -> DecryptLdt l salt encrypted ad = Error kUnavailable.
Proof.
  intros Hl. assert (DecryptLdt_loop l salt encrypted ad = Error kUnavailable) as E.
  { induction Hl as [|c l Hc _ IH]; cbn [DecryptLdt_loop]; [done|].
    unfold unreadable in Hc. destruct (CreateEncryptor _ _) as [e|]; [|done]. destruct (DecryptAndVerify e _ _) as [r|]; [|done].
    by destruct (Nat.ltb_spec kBaseMetadataSize (length r)); [lia|]. }
  by destruct l.
Qed.

Lemma DecryptLdt_finds pre c post salt encrypted key elements e ad :
  Forall (unreadable salt encrypted) pre -> length key = kBaseMetadataSize -> elements <> [] ->
  CreateEncryptor (shared_key_seed c) (metadata_encryption_key_tag_v0 c) = Ok e ->
  DecryptAndVerify e encrypted salt = Ok (key ++ elements) ->
  DecryptLdt (pre ++ c :: post) salt encrypted ad = Ok (elements, set_decrypted c key ad).
Proof.
  intros Hpre Hk He Hc Hd.
  assert (DecryptLdt_loop (pre ++ c :: post) salt encrypted ad = Ok (elements, set_decrypted c key ad)) as E.
  { induction Hpre as [|c' pre Hc' _ IH]; cbn [app DecryptLdt_loop].
    - rewrite Hc, Hd, length_app, Hk. destruct (Nat.ltb_spec kBaseMetadataSize (kBaseMetadataSize + length elements)).
      + by rewrite drop_app_length', take_app_length' by done.
      + destruct elements; [done|]. cbn [length] in *. lia.
    - unfold unreadable in Hc'. destruct (CreateEncryptor _ _) as [e'|]; [|done]. destruct (DecryptAndVerify e' _ _) as [r|]; [|done].
      by destruct (Nat.ltb_spec kBaseMetadataSize (length r)); [lia|]. }
  unfold DecryptLdt. destruct (pre ++ c :: post) eqn:E0; [by destruct pre|done].
Qed.

Definition no_filter_credentials (request : ScanRequest) : Prop :=
  Forall (fun f => match f with LegacyPresenceScanFilter _ _ (_ :: _) _ _ => False | _ => True end) (scan_filters request).
Lemma Decrypt_filters_none filters salt encrypted ad :
  Forall (fun f => match f with LegacyPresenceScanFilter _ _ (_ :: _) _ _ => False | _ => True end) filters ->
  Decrypt_filters filters salt encrypted ad = None.
Proof. induction 1 as [|f filters Hf _ IH]; [done|]. cbn. by destruct f as [|? ? []]. Qed.

(** ** Whole advertisements *)
Lemma single_element memory d ad0 h v :
  u8 h = h -> IsDataElementAllowed h = true -> GetDataElementTrueLength h = length v ->
  GetDataElementType h ∉ banned_data_types_ d -> IsEncryptedIdentity (GetDataElementType h) = true ->
  decode_elements memory d (length (0 :: h :: v)) (0 :: h :: v) 1 ad0 =
    DecryptDataElements memory d (MakeElement (GetDataElementType h) v)
      (set_identity_type (GetIdentityType (GetDataElementType h)) ad0).
Proof.
  intros Hh Ha Hl Hb He. cbn [length decode_elements]. change (S (S (length v)) <=? 1)%nat with false. cbv iota.
  pose proof (ParseDataElement_at [0] h v [] Hh Ha Hl) as Hp. rewrite app_nil_r in Hp. cbn [app length] in Hp. rewrite Hp.
  cbn [type_]. rewrite bool_decide_false, He by done. unfold IsIdentity. rewrite He, orb_true_r.
  destruct (DecryptDataElements memory d _ _) as [[ad|]| |]; try done. rewrite done_bind. by rewrite Nat.leb_refl.
Qed.

(** None of some credentials verifies the message. *)
Definition others_fail (c : LocalCredential) (l : list SharedCredential) (salt : list Z) (tx : Z) (props : list DataElement) : Prop :=
  forall encrypted, EncryptDataElements c salt (body (u8 tx) (SerializeAction (CreateAction props))) = Ok encrypted ->
    Forall (unreadable salt encrypted) l.

Definition encrypted_identity (id : IdentityType) : Prop :=
  id = IDENTITY_TYPE_PRIVATE \/ id = IDENTITY_TYPE_TRUSTED \/ id = IDENTITY_TYPE_PROVISIONED.

(** The encrypted advertisement of a request, and what is read of it up to the
    decryption. *)
Section Private.
Variables (id : IdentityType) (c : LocalCredential) (props : list DataElement) (request : BaseBroadcastRequest).
Hypothesis id_encrypted : encrypted_identity id.
Hypothesis request_id : selector_identity_type (credential_selector request) = id.
Hypothesis request_action : action request = CreateAction props.
Hypothesis props_base : Forall base_property props.
Hypothesis props_received : received props <> [].
Hypothesis salt_length : length (salt request) = kSaltSize.
Hypothesis key_length : length (metadata_encryption_key_v0 c) = kBaseMetadataSize.

Let tx : Z := u8 (tx_power request).
Let elements : list Z := body tx (SerializeAction (CreateAction props)).
Definition salted : Advertisement :=
  push_element (MakeElement kSaltFieldType (salt request)) (set_identity_type id (set_version (u8 0) no_advertisement)).

Lemma private_content : exists encrypted content,
  EncryptDataElements c (salt request) elements = Ok encrypted
  /\ CreateBaseNpAdvertisement request (Some c) = Ok content
  /\ (forall shared, shared_key_seed shared = local_key_seed c ->
       exists e, CreateEncryptor (shared_key_seed shared) (metadata_encryption_key_tag_v0 shared) = Ok e
         /\ DecryptAndVerify e encrypted (salt request) =
              if verifies c shared then Ok (metadata_encryption_key_v0 c ++ elements) else Error kInternal)
  /\ forall memory d a m, GetIdentityFieldType id ∉ banned_data_types_ d -> no_filter_credentials (scan_request_ d) ->
       credentials_ d = Some a -> memory a = Some m ->
       DecodeAdvertisement memory d content =
         match DecryptLdt (default [] (m !! id)) (salt request) encrypted salted with
         | Error code => Done (Error code)
         | Ok (decrypted, ad) => decrypted_elements (length decrypted) decrypted 0 ad
         end.
Proof using All.
  destruct (read_body_elements tx props no_advertisement props_base props_received) as [Hn _].
  set (bytes := SerializeAction (CreateAction props)) in *.
  assert (length elements = 3 + length bytes)%nat as He by done.
  destruct (encrypted_read c (salt request) elements key_length ltac:(lia) salt_length) as (encrypted & E & Hle & Hread).
  set (h := u8 (Z.lor (Z.shiftl (Z.of_nat (length elements)) 4) (GetIdentityFieldType id))).
  exists encrypted, (0 :: h :: salt request ++ encrypted). split; [done|]. split; [|split; [done|]].
  { unfold CreateBaseNpAdvertisement. rewrite request_id, request_action, salt_length. fold bytes.
    assert (GetIdentityFieldType id =? kPublicIdentityFieldType = false) as -> by (by destruct id_encrypted as [->|[->| ->]]).
    change (negb (kSaltSize =? kSaltSize)%nat) with false. cbn [negb].
    pose proof (body_written tx bytes [] ltac:(lia)) as Hw. cbn [app] in Hw. fold elements in Hw. fold tx.
    destruct (AppendDataElement kTxPowerFieldType _ _) as [l|]; [|done]. rewrite Hw, E, Hle.
    destruct (Nat.leb_spec (kBaseMetadataSize + length elements) kBaseMetadataSize); [lia|].
    replace (kBaseMetadataSize + length elements - kBaseMetadataSize)%nat with (length elements) by lia.
    unfold CreateDataElementHeader. unfold kMaxDataElementLength. destruct (Z.ltb_spec 15 (Z.of_nat (length elements))); [lia|].
    assert (kMaxDataElementType <? GetIdentityFieldType id = false) as -> by (by destruct id_encrypted as [->|[->| ->]]). done. }
  intros memory d a m Hb Hf Ha Hm. unfold DecodeAdvertisement. change (negb (u8 0 =? kAdvertisementVersion)) with false. cbv iota.
  assert (u8 h = h /\ IsDataElementAllowed h = true /\ GetDataElementType h = GetIdentityFieldType id
    /\ IsEncryptedIdentity (GetDataElementType h) = true /\ GetIdentityType (GetDataElementType h) = id
    /\ GetDataElementTrueLength h = length (salt request ++ encrypted)) as (H1 & H2 & H3 & H4 & H5 & H6).
  { unfold h. rewrite length_app, salt_length, Hle. destruct (decide (length elements = 4)%nat) as [->|];
      [|assert (length elements = 5)%nat as -> by lia]; by destruct id_encrypted as [->|[->| ->]]. }
  rewrite single_element by (done || by rewrite H3). rewrite H5. unfold DecryptDataElements. cbn [value_].
  rewrite length_app, salt_length, Hle.
  destruct (Nat.leb_spec (kSaltSize + (kBaseMetadataSize + length elements)) kEncryptedIdentityAdditionalLength);
    [unfold kEncryptedIdentityAdditionalLength in *; lia|].
  rewrite <- salt_length, take_app_length, drop_app_length. unfold Decrypt. rewrite Decrypt_filters_none by done. rewrite Ha, Hm.
  cbn [identity_type push_element set_elements set_identity_type]. rewrite done_bind.
  by destruct (DecryptLdt _ _ _ _) as [[]|].
Qed.

(** It reaches a scanner that holds the credential shared for it, and no other one. *)
Lemma private_received : exists content, CreateBaseNpAdvertisement request (Some c) = Ok content
  /\ forall memory d a m pre shared post,
       GetIdentityFieldType id ∉ banned_data_types_ d -> no_filter_credentials (scan_request_ d) ->
       credentials_ d = Some a -> memory a = Some m -> m !! id = Some (pre ++ shared :: post) ->
       shared_key_seed shared = local_key_seed c -> others_fail c pre (salt request) (tx_power request) props ->
       (verifies c shared = false -> others_fail c post (salt request) (tx_power request) props) ->
       DecodeAdvertisement memory d content =
         if verifies c shared then
           if shift_undefined props then Fault else
           Done (Ok (MakeAdvertisement 0
             (MakeElement kSaltFieldType (salt request) :: MakeElement kTxPowerFieldType [tx] :: received props)
             (Some shared) id (metadata_encryption_key_v0 c)))
         else Done (Error kUnavailable).
Proof using All.
  destruct private_content as (encrypted & content & E & Ec & Hread & Hdec). exists content. split; [done|].
  intros memory d a m pre shared post Hb Hf Ha Hm Hl Hs Hpre Hpost. rewrite (Hdec memory d a m Hb Hf Ha Hm), Hl. cbn [default].
  unfold Datatypes.id. specialize (Hpre encrypted E). destruct (Hread shared Hs) as (e & He & Hv).
  destruct (verifies c shared) eqn:Ev.
  - rewrite (DecryptLdt_finds pre shared post _ _ (metadata_encryption_key_v0 c) elements e) by done.
    destruct (read_body_elements tx props (set_decrypted shared (metadata_encryption_key_v0 c) salted) props_base props_received)
      as [Hn Hbody].
    unfold elements. rewrite body_decrypted, Hbody by done. by destruct (shift_undefined props).
  - rewrite DecryptLdt_none; [done|]. apply Forall_app. split; [done|]. apply Forall_cons. split; [|by apply Hpost].
    unfold unreadable. by rewrite He, Hv.
Qed.
End Private.

Lemma plain_step memory d fuel pre h v post ad :
  u8 h = h -> IsDataElementAllowed h = true -> GetDataElementTrueLength h = length v ->
  GetDataElementType h ∉ banned_data_types_ d -> IsEncryptedIdentity (GetDataElementType h) = false ->
  decode_elements memory d (S fuel) (pre ++ h :: v ++ post) (length pre) ad =
    let ad := if IsIdentity (GetDataElementType h) then set_identity_type (GetIdentityType (GetDataElementType h)) ad else ad in
    let! ad := if GetDataElementType h =? kActionFieldType then DecodeBaseAction v ad
               else Done (push_element (MakeElement (GetDataElementType h) v) ad) in
    decode_elements memory d fuel ((pre ++ h :: v) ++ post) (length (pre ++ h :: v)) ad.
Proof.
  intros Hh Ha Hl Hb He. cbn [decode_elements]. rewrite length_app. cbn [length].
  destruct (Nat.leb_spec (length pre + S (length (v ++ post))) (length pre)); [lia|].
  rewrite ParseDataElement_at by done. cbn [type_ value_]. rewrite bool_decide_false, He by done.
  by rewrite <- (app_assoc pre).
Qed.

(** A public advertisement reaches every scanner that asks for public ones. *)
Lemma public_received memory d c tx props salt request :
  selector_identity_type (credential_selector request) = IDENTITY_TYPE_PUBLIC -> action request = CreateAction props ->
  tx_power request = tx -> PresenceData.salt request = salt ->
  Forall base_property props -> received props <> [] -> length salt = kSaltSize ->
  GetIdentityFieldType IDENTITY_TYPE_PUBLIC ∉ banned_data_types_ d ->
  banned_data_types_ d = AddBannedDataTypes (scan_request_ d) ->
  exists content, CreateBaseNpAdvertisement request c = Ok content
    /\ DecodeAdvertisement memory d content = if shift_undefined props then Fault else
         Done (Ok (MakeAdvertisement 0
           (MakeElement kPublicIdentityFieldType [] :: MakeElement kSaltFieldType salt
            :: MakeElement kTxPowerFieldType [u8 tx] :: received props)
           None IDENTITY_TYPE_PUBLIC [])).
Proof.
  intros Eid Eact <- <- Hp Hr Hs Hb Hbanned. set (tx := u8 (tx_power request)).
  destruct (read_body_elements tx props no_advertisement Hp Hr) as [Hn _].
  set (bytes := SerializeAction (CreateAction props)) in *.
  destruct (PresenceData.salt request) as [|s0 [|s1 [|]]] eqn:Es; try done.
  assert (CreateBaseNpAdvertisement request c = Ok (0 :: 0x03 :: 0x20 :: s0 :: s1 :: body tx bytes)) as ->.
  { unfold CreateBaseNpAdvertisement. rewrite Eid, Eact, Es. fold bytes. change (negb (_ =? _)) with false. cbv iota.
    change (AppendDataElement (GetIdentityFieldType IDENTITY_TYPE_PUBLIC) [] [kBaseVersion]) with (Ok [0; 0x03]). cbv iota.
    change (AppendDataElement kSaltFieldType [s0; s1] [0; 0x03]) with (Ok [0; 0x03; 0x20; s0; s1]).
    change (length [s0; s1] =? 0)%nat with false. cbv iota. by rewrite body_written. }
  eexists. split; [done|].
  assert (forall x, IsIdentity x = false -> x ∉ banned_data_types_ d) as Hx.
  { intros x Hx. rewrite Hbanned. by apply never_banned. }
  unfold DecodeAdvertisement. change (negb (u8 0 =? kAdvertisementVersion)) with false. cbv iota.
  set (ad := set_version (u8 0) no_advertisement). set (n := length bytes) in *.
  change (length (0 :: 0x03 :: 0x20 :: s0 :: s1 :: body tx bytes)) with (S (S (S (S (S (S (S (S n)))))))).
  etransitivity; [exact (plain_step memory d _ [0] 0x03 [] (0x20 :: s0 :: s1 :: body tx bytes) ad eq_refl eq_refl eq_refl Hb eq_refl)|].
  etransitivity; [exact (plain_step memory d _ [0; 0x03] 0x20 [s0; s1] (body tx bytes) _ eq_refl eq_refl eq_refl (Hx 0 eq_refl) eq_refl)|].
  set (hdr := u8 (Z.lor (Z.shiftl (Z.of_nat n) 4) 6)).
  etransitivity; [exact (plain_step memory d _ [0; 0x03; 0x20; s0; s1] 0x15 [tx] (hdr :: bytes) _ eq_refl eq_refl eq_refl (Hx 5 eq_refl) eq_refl)|].
  assert (u8 hdr = hdr /\ IsDataElementAllowed hdr = true /\ GetDataElementType hdr = 6 /\ GetDataElementTrueLength hdr = n)
    as (H1 & H2 & H3 & H4) by (unfold hdr; by destruct (decide (n = 1)%nat) as [->|]; [|assert (n = 2)%nat as -> by lia]).
  pose proof (plain_step memory d (S (S (S (S n)))) [0; 0x03; 0x20; s0; s1; 0x15; tx] hdr bytes []) as Hstep.
  rewrite app_nil_r, H3 in Hstep. etransitivity; [apply Hstep; try done; by apply (Hx 6)|]. cbn [Z.eqb Pos.eqb kActionFieldType].
  destruct (read_body_elements tx props (push_element (MakeElement kSaltFieldType [s0; s1])
     (push_element (MakeElement kPublicIdentityFieldType []) (set_identity_type IDENTITY_TYPE_PUBLIC ad))) Hp Hr) as [_ Hread].
  fold bytes in Hread. unfold read_body in Hread. cbv zeta.
  match type of Hread with ?m = _ => match goal with |- mbind ?k ?m' = _ => change m' with m end end.
  rewrite Hread. destruct (shift_undefined props); [done|].
  rewrite done_bind. cbn [decode_elements]. by rewrite app_nil_r, Nat.leb_refl.
Qed.
End Advertisements.
