(* ===== verification/PresenceBroadcast.v ===== *)
(** Broadcasts of Nearby Presence, after src/presence/implementation/broadcast_manager.cc:
    the sessions of the clients, the jobs the manager posts to the executor of the service
    controller, and the calls it makes.

    A closure given to the executor is a job, and [run_next_broadcast] lets the executor run
    the oldest one.  The callbacks given to the credential manager and to the Bluetooth
    medium are events.  Random numbers, and whether the medium starts to advertise, are
    the environment of a step. *)

From Stdlib Require Import ZArith Lia.
From stdpp Require Import base list numbers gmap.
From S2P Require Import Prelude Utils CppBase BleData BleTracker PresenceData.
Import Uuids DataElement AdvertisementFactory AdvertisementDecoder.

Open Scope Z_scope.
Open Scope fp_scope.

(** * Broadcasts *)
Module BroadcastManager.

(** [broadcast_callback_] is there until it is called. *)
Record BroadcastSessionState : Type := MakeBroadcastSession {
  broadcast_callback_ : bool;
  power_mode_ : PowerMode;
  advertising_session_ : bool;
}.

Inductive BroadcastJob : Type :=
| start_broadcast (id : Z) (power_mode : PowerMode) (request : BaseBroadcastRequest)
| advertise_non_public (id : Z) (request : BaseBroadcastRequest) (selector : CredentialSelector)
    (credentials : list LocalCredential)
| started_broadcast_cb (id : Z) (status : StatusCode)
| stop_broadcast (id : Z).

Inductive BroadcastOutput : Type :=
| start_broadcast_cb (id : option Z) (status : StatusCode)
| GetLocalCredentials (selector : CredentialSelector)
| StartAdvertising (id : Z) (data : BleAdvertisementData) (level : TxPowerLevel)
| stop_advertising (id : Z)
| UpdateLocalCredential (selector : CredentialSelector) (credential : LocalCredential).

(** A callback given to [GetLocalCredentials], with what it has captured.  It keeps copies of
    its own and can be called any number of times. *)
Record LocalFetch : Type := MakeLocalFetch {
  fetch_id : Z;
  fetch_request : BaseBroadcastRequest;
  fetch_selector : CredentialSelector;
}.

Record Broadcasts : Type := MakeBroadcasts {
  sessions_ : gmap Z BroadcastSessionState;
  fetches : list LocalFetch;
  broadcast_jobs : list BroadcastJob;
  broadcast_outputs : list BroadcastOutput;
}.
Definition new_broadcasts : Broadcasts := MakeBroadcasts ∅ [] [] [].

Record BroadcastEnvironment : Type := MakeBroadcastEnvironment { advertises : bool; RandData : nat -> Z }.

Section Broadcasts.
Context {ct : CharType} {L : Ldt}.
Implicit Types b : Broadcasts.

Definition set_sessions (m : gmap Z BroadcastSessionState) b : Broadcasts :=
  MakeBroadcasts m (fetches b) (broadcast_jobs b) (broadcast_outputs b).
Definition post (j : BroadcastJob) b : Broadcasts :=
  MakeBroadcasts (sessions_ b) (fetches b) (broadcast_jobs b ++ [j]) (broadcast_outputs b).
Definition emit (o : BroadcastOutput) b : Broadcasts :=
  MakeBroadcasts (sessions_ b) (fetches b) (broadcast_jobs b) (broadcast_outputs b ++ [o]).

Definition SaltToInt (salt : list Z) : Z :=
  match salt with
  | b0 :: b1 :: _ => u16 (Z.lor (Z.shiftl (u16 (char_int b0)) 8) (u16 (char_int b1)))
  | _ => 0
  end.
Definition SaltFromInt (x : Z) : list Z := [u8 (Z.land (Z.shiftr x 8) 0xFF); u8 (Z.land x 0xFF)].

Definition kMaxSaltSelectRetries : nat := 128.
(** The loop of [SelectSalt]: [i] counts the numbers drawn. *)
Fixpoint SelectSalt_loop (n i : nat) (random : nat -> Z) (consumed : gset Z) (s : Z) : Z :=
  match n with
  | 0%nat => s
  | S n => if bool_decide (s ∈ consumed) then SelectSalt_loop n (S i) random consumed (u16 (random i)) else s
  end.
Definition SelectSalt (random : nat -> Z) (credential : LocalCredential) (preferred_salt : list Z)
  : list Z * LocalCredential :=
  let s := SelectSalt_loop kMaxSaltSelectRetries 0 random (consumed_salts credential) (SaltToInt preferred_salt) in
  (SaltFromInt s,
   MakeLocalCredential (local_key_seed credential) (start_time_millis credential) (metadata_encryption_key_v0 credential)
     ({[s]} ∪ consumed_salts credential)).

(** [std::min_element] by the start time: the first of the smallest. *)
Fixpoint min_element (credential : LocalCredential) (credentials : list LocalCredential) : LocalCredential :=
  match credentials with
  | [] => credential
  | c :: credentials =>
    min_element (if start_time_millis c <? start_time_millis credential then c else credential) credentials
  end.
Definition SelectCredential (random : nat -> Z) (request : BaseBroadcastRequest) (credentials : list LocalCredential)
  : option LocalCredential * BaseBroadcastRequest :=
  match credentials with
  | [] => (None, request)
  | c :: credentials =>
    let '(salt', credential) := SelectSalt random (min_element c credentials) (salt request) in
    (Some credential,
     MakeBaseRequest (credential_selector request) (action request) salt' (tx_power request) (base_power_mode request))
  end.

Definition NotifyStartCallbackStatus (id : Z) (status : StatusCode) b : Broadcasts := post (started_broadcast_cb id status) b.

(** The credential to save, if any. *)
Definition Advertise (w : BroadcastEnvironment) (id : Z) (request : BaseBroadcastRequest)
    (credentials : list LocalCredential) b : option LocalCredential * Broadcasts :=
  match sessions_ b !! id with
  | None => (None, b)
  | Some session =>
    let '(credential, request) := SelectCredential (RandData w) request credentials in
    match CreateBaseNpAdvertisement request credential with
    | Error code => (None, NotifyStartCallbackStatus id code b)
    | Ok content =>
      let b := emit (StartAdvertising id (advertising_data content) (ConvertPowerModeToPowerLevel (power_mode_ session))) b in
      if negb (advertises w) then (None, NotifyStartCallbackStatus id kInternal b)
      else (credential, set_sessions
              (<[id := MakeBroadcastSession (broadcast_callback_ session) (power_mode_ session) true]> (sessions_ b)) b)
    end
  end.

Definition FetchCredentials (w : BroadcastEnvironment) (id : Z) (request : BaseBroadcastRequest) b : Broadcasts :=
  match GetCredentialSelector request with
  | Error _ => snd (Advertise w id request [] b)
  | Ok selector =>
    MakeBroadcasts (sessions_ b) (fetches b ++ [MakeLocalFetch id request selector]) (broadcast_jobs b)
      (broadcast_outputs b ++ [GetLocalCredentials selector])
  end.

(** A call of [StartBroadcast] that draws [id] and [random]. *)
Definition StartBroadcast (id : Z) (random : list Z) (broadcast_request : BroadcastRequest) b : Broadcasts :=
  match CreateBaseRequest random broadcast_request with
  | Error code => emit (start_broadcast_cb None code) b
  | Ok request => post (start_broadcast id (request_power_mode broadcast_request) request) b
  end.
Definition StopBroadcast (id : Z) b : Broadcasts := post (stop_broadcast id) b.

(** The credential manager calls the callback [n]. *)
Definition credentials_fetched_cb (n : nat) (credentials : StatusOr (list LocalCredential)) b : Broadcasts :=
  match fetches b !! n with
  | None => b
  | Some f =>
    match credentials with
    | Error code => NotifyStartCallbackStatus (fetch_id f) code b
    | Ok credentials => post (advertise_non_public (fetch_id f) (fetch_request f) (fetch_selector f) credentials) b
    end
  end.

Definition run_broadcast_job (w : BroadcastEnvironment) (j : BroadcastJob) b : Broadcasts :=
  match j with
  | start_broadcast id power_mode request =>
    let b := match sessions_ b !! id with
             | Some _ => b
             | None => set_sessions (<[id := MakeBroadcastSession true power_mode false]> (sessions_ b)) b
             end in
    FetchCredentials w id request b
  | advertise_non_public id request selector credentials =>
    let '(credential, b) := Advertise w id request credentials b in
    match credential with
    | Some credential => emit (UpdateLocalCredential selector credential) b
    | None => b
    end
  | started_broadcast_cb id status =>
    match sessions_ b !! id with
    | None => b
    | Some session =>
      let b := if broadcast_callback_ session then emit (start_broadcast_cb (Some id) status) b else b in
      if negb (code_ok status) then set_sessions (delete id (sessions_ b)) b
      else set_sessions (<[id := MakeBroadcastSession false (power_mode_ session) (advertising_session_ session)]> (sessions_ b)) b
    end
  | stop_broadcast id =>
    match sessions_ b !! id with
    | None => b
    | Some session =>
      let b := if advertising_session_ session then emit (stop_advertising id) b else b in
      set_sessions (delete id (sessions_ b)) b
    end
  end.

Definition run_next_broadcast (w : BroadcastEnvironment) b : Broadcasts :=
  match broadcast_jobs b with
  | [] => b
  | j :: jobs => run_broadcast_job w j (MakeBroadcasts (sessions_ b) (fetches b) jobs (broadcast_outputs b))
  end.

Inductive BroadcastEvent : Type :=
| CallStartBroadcast (id : Z) (random : list Z) (request : BroadcastRequest)
| CallStopBroadcast (id : Z)
| CredentialsFetched (n : nat) (credentials : StatusOr (list LocalCredential))
| AdvertisingResult (id : Z) (status : StatusCode)
| RunBroadcastJob.
Definition broadcast_step (w : BroadcastEnvironment) (e : BroadcastEvent) b : Broadcasts :=
  match e with
  | CallStartBroadcast id random request => StartBroadcast id random request b
  | CallStopBroadcast id => StopBroadcast id b
  | CredentialsFetched n credentials => credentials_fetched_cb n credentials b
  | AdvertisingResult id status => NotifyStartCallbackStatus id status b
  | RunBroadcastJob => run_next_broadcast w b
  end.
Definition broadcast_steps (es : list (BroadcastEnvironment * BroadcastEvent)) b : Broadcasts :=
  fold_left (fun b '(w, e) => broadcast_step w e b) es b.
End Broadcasts.
End BroadcastManager.
