(* ===== verification/PresenceScan.v ===== *)
(** Scans of Nearby Presence, after src/presence/implementation/scan_manager.cc: the sessions
    of the clients, the jobs the manager posts to the executor of the service controller,
    and the calls it makes.  Jobs and callbacks are as in PresenceBroadcast.v.

    The sessions live in an absl::flat_hash_map, whose elements move when it grows: each
    has an address, an insertion may move the others (the environment of a step says
    whether), and the decoder of a session keeps a pointer to the credentials of the
    session it was made in. *)

From Stdlib Require Import ZArith Lia.
From stdpp Require Import base list numbers gmap.
From S2P Require Import Prelude Utils CppBase BleData BleTracker PresenceData.
Import Uuids DataElement AdvertisementFactory AdvertisementDecoder.

Open Scope Z_scope.
Open Scope fp_scope.

(** * Scans *)
Module ScanManager.

(** [credentials_at] is the address of the member [credentials]. *)
Record ScanSessionState : Type := MakeScanSession {
  request : ScanRequest;
  credentials : Credentials;
  decoder : AdvertisementDecoder;
  credentials_at : nat;
  scanning_session : bool;
}.

(** What the client is given of a [PresenceDevice]. *)
Record PresenceDevice : Type := MakeDevice {
  bluetooth_mac_address : list Z;
  device_identity_type : IdentityType;
  decrypt_shared_credential : option SharedCredential;
  device_properties : list DataElement;
  actions_ : list Z;
}.

Inductive ScanJob : Type :=
| start_scan (id : Z) (request : ScanRequest)
| notify_found_ble (id : Z) (data : BleAdvertisementData) (address : list Z)
| stop_scan (id : Z)
| update_credentials (id : Z) (identity_type : IdentityType) (credentials : list SharedCredential).

Inductive ScanOutput : Type :=
| GetPublicCredentials (selector : CredentialSelector)
| StartScanning (id : Z) (level : TxPowerLevel)
| stop_scanning (id : Z)
| on_discovered_cb (id : Z) (device : PresenceDevice).

Record Scans : Type := MakeScans {
  scan_sessions_ : gmap Z ScanSessionState;
  next_address : nat;
  public_fetches : list (Z * IdentityType);
  scan_jobs : list ScanJob;
  scan_outputs : list ScanOutput;
}.
Definition new_scans : Scans := MakeScans ∅ 0 [] [] [].

(** Whether an insertion moves the elements, and whether the medium gives a session. *)
Record ScanEnvironment : Type := MakeScanEnvironment { moves : bool; scans : bool }.

Section Scans.
Context {ct : CharType} {L : Ldt}.
Implicit Types st : Scans.

Definition set_scan_sessions (m : gmap Z ScanSessionState) st : Scans :=
  MakeScans m (next_address st) (public_fetches st) (scan_jobs st) (scan_outputs st).
Definition post_scan (j : ScanJob) st : Scans :=
  MakeScans (scan_sessions_ st) (next_address st) (public_fetches st) (scan_jobs st ++ [j]) (scan_outputs st).
Definition emit_scan (o : ScanOutput) st : Scans :=
  MakeScans (scan_sessions_ st) (next_address st) (public_fetches st) (scan_jobs st) (scan_outputs st ++ [o]).

(** The credentials at an address. *)
Definition memory (m : gmap Z ScanSessionState) (a : nat) : option Credentials :=
  match filter (fun '(_, s) => credentials_at s = a) (map_to_list m) with
  | (_, s) :: _ => Some (credentials s)
  | [] => None
  end.

Definition move_to (a : nat) (s : ScanSessionState) : ScanSessionState :=
  MakeScanSession (request s) (credentials s) (decoder s) a (scanning_session s).

(** [insert]: the new element gets an address of its own, and so do the others when they
    move. *)
Definition insert_session (w : ScanEnvironment) (id : Z) (s : ScanSessionState) st : Scans :=
  match scan_sessions_ st !! id with
  | Some _ => st
  | None =>
    let n := next_address st in
    let others := if moves w then (fun s => move_to (S n + credentials_at s) s) <$> scan_sessions_ st else scan_sessions_ st in
    MakeScans (<[id := move_to n s]> others) (S n + n) (public_fetches st) (scan_jobs st) (scan_outputs st)
  end.

(** The loop of [FetchCredentials] over the selectors. *)
Definition fetch_public (id : Z) (selector : CredentialSelector) st : Scans :=
  match selector_identity_type selector with
  | IDENTITY_TYPE_UNSPECIFIED | IDENTITY_TYPE_PUBLIC => st
  | t => MakeScans (scan_sessions_ st) (next_address st) (public_fetches st ++ [(id, t)]) (scan_jobs st)
           (scan_outputs st ++ [GetPublicCredentials selector])
  end.
Definition FetchCredentials (id : Z) (scan_request : ScanRequest) st : Scans :=
  fold_left (fun st selector => fetch_public id selector st) (GetCredentialSelectors scan_request) st.

Definition StartScan (id : Z) (scan_request : ScanRequest) st : Scans := post_scan (start_scan id scan_request) st.
Definition StopScan (id : Z) st : Scans := post_scan (stop_scan id) st.

(** The loop over the elements of a found device; [PresenceAction] checks its argument. *)
Fixpoint device_actions (elements : list DataElement) : outcome (list Z) :=
  match elements with
  | [] => Done []
  | e :: elements =>
    if type_ e =? kActionFieldType then
      match value_ e with
      | [] => Fault
      | b :: _ =>
        if (1 <=? u8 b) && (u8 b <=? 255) then
          let! rest := device_actions elements in
          Done (u8 b :: rest)
        else Crash
      end
    else device_actions elements
  end.

Definition NotifyFoundBle (id : Z) (data : BleAdvertisementData) (remote_address : list Z) st : outcome Scans :=
  let advertisement_data := default [] (service_data data !! kPresenceServiceUuid) in
  match scan_sessions_ st !! id with
  | None => Done st
  | Some s =>
    let! advert := DecodeAdvertisement (memory (scan_sessions_ st)) (decoder s) advertisement_data in
    match advert with
    | Error _ => Done st
    | Ok advert =>
      if MatchesScanFilter (decoder s) (data_elements advert) then
        let! actions := device_actions (data_elements advert) in
        Done (emit_scan (on_discovered_cb id
          (MakeDevice remote_address (identity_type advert) (public_credential advert) (data_elements advert) actions)) st)
      else Done st
    end
  end.

Definition UpdateCredentials (id : Z) (identity_type : IdentityType) (l : list SharedCredential) st : Scans :=
  match scan_sessions_ st !! id with
  | None => st
  | Some s =>
    set_scan_sessions
      (<[id := MakeScanSession (request s) (<[identity_type := l]> (credentials s))
                 (new_decoder (request s) (Some (credentials_at s))) (credentials_at s) (scanning_session s)]>
         (scan_sessions_ st)) st
  end.

(** The credential manager calls the callback [n], which it may do again. *)
Definition public_credentials_fetched_cb (n : nat) (l : StatusOr (list SharedCredential)) st : Scans :=
  match public_fetches st !! n with
  | None => st
  | Some (id, identity_type) =>
    match l with
    | Error _ => st
    | Ok l => post_scan (update_credentials id identity_type l) st
    end
  end.

Definition run_scan_job (w : ScanEnvironment) (j : ScanJob) st : outcome Scans :=
  match j with
  | start_scan id scan_request =>
    let st := FetchCredentials id scan_request st in
    let st := emit_scan (StartScanning id (ConvertPowerModeToPowerLevel (scan_power_mode scan_request))) st in
    Done (insert_session w id (MakeScanSession scan_request ∅ (new_decoder scan_request None) 0 (scans w)) st)
  | notify_found_ble id data address => NotifyFoundBle id data address st
  | stop_scan id =>
    match scan_sessions_ st !! id with
    | None => Done st
    | Some s =>
      let st := if scanning_session s then emit_scan (stop_scanning id) st else st in
      Done (set_scan_sessions (delete id (scan_sessions_ st)) st)
    end
  | update_credentials id identity_type l => Done (UpdateCredentials id identity_type l st)
  end.

Definition run_next_scan (w : ScanEnvironment) st : outcome Scans :=
  match scan_jobs st with
  | [] => Done st
  | j :: jobs =>
    run_scan_job w j (MakeScans (scan_sessions_ st) (next_address st) (public_fetches st) jobs (scan_outputs st))
  end.

Inductive ScanEvent : Type :=
| CallStartScan (id : Z) (scan_request : ScanRequest)
| CallStopScan (id : Z)
| PublicCredentialsFetched (n : nat) (l : StatusOr (list SharedCredential))
| AdvertisementFound (id : Z) (data : BleAdvertisementData) (address : list Z)
| RunScanJob.
Definition scan_step (w : ScanEnvironment) (e : ScanEvent) st : outcome Scans :=
  match e with
  | CallStartScan id scan_request => Done (StartScan id scan_request st)
  | CallStopScan id => Done (StopScan id st)
  | PublicCredentialsFetched n l => Done (public_credentials_fetched_cb n l st)
  | AdvertisementFound id data address => Done (post_scan (notify_found_ble id data address) st)
  | RunScanJob => run_next_scan w st
  end.
Fixpoint scan_steps (es : list (ScanEnvironment * ScanEvent)) st : outcome Scans :=
  match es with
  | [] => Done st
  | (w, e) :: es => let! st := scan_step w e st in scan_steps es st
  end.
End Scans.
End ScanManager.
