(* ===== verification/PresenceSafety.v ===== *)
(** The managers of Nearby Presence are safe: a scanner whose table does not move never
    uses a dangling pointer, never fails a check, and tells a client only of devices it
    asked for; a broadcast starts to advertise once at most, and its client is told once
    at most. *)

From Stdlib Require Import ZArith Lia.
From stdpp Require Import base list numbers gmap.
From S2P Require Import Prelude Utils CppBase BleData BleTracker PresenceData PresenceTheorems PresenceBroadcast PresenceScan.
Import Uuids DataElement ActionFactory LdtEncryptor AdvertisementFactory AdvertisementDecoder.

Open Scope Z_scope.
Open Scope fp_scope.

(** * What is decoded *)
Section Decoded.
Context {ct : CharType} {L : Ldt}.
Implicit Types (d : AdvertisementDecoder) (ad : Advertisement).

Definition actions_fine (l : list DataElement) : Prop :=
  Forall (fun e => type_ e = kActionFieldType -> exists a, value_ e = [a] /\ 1 <= a <= 255) l.

Lemma actions_fine_loop n : forall i w, 16 <= i -> i + Z.of_nat n <= 28 -> actions_fine (DecodeAction_loop n i w).
Proof.
  induction n as [|n IH]; intros i w Hi Hn; cbn [DecodeAction_loop]; [constructor|].
  apply Forall_app. split; [|apply IH; lia]. destruct (negb _); [|constructor]. repeat constructor. intros _.
  exists (31 - i). unfold GetActionFromBit, kActionSizeInBits. split; [|lia]. cbn.
  by rewrite !u8_id by (rewrite ?u8_id; unfold is_byte; lia).
Qed.

Lemma actions_fine_decode w l : actions_fine l -> actions_fine (DecodeAction w l).
Proof.
  intros Hl. unfold DecodeAction. apply Forall_app. split; [done|]. apply Forall_app. split; [|by apply actions_fine_loop].
  destruct (negb _); [|constructor]. by repeat constructor.
Qed.

Lemma DecodeBaseAction_fine bytes ad ad' : DecodeBaseAction bytes ad = Done ad' -> actions_fine (data_elements ad) ->
  actions_fine (data_elements ad') /\ identity_type ad' = identity_type ad.
Proof.
  unfold DecodeBaseAction. destruct (_ || _); [by intros [= <-]|]. intros (action & _ & [= <-])%bind_done_inv Ha.
  split; [by apply actions_fine_decode|done].
Qed.

Lemma push_fine e ad : type_ e <> kActionFieldType -> actions_fine (data_elements ad) -> actions_fine (data_elements (push_element e ad)).
Proof. intros He Ha. apply Forall_app. split; [done|]. by repeat constructor. Qed.

(** What holds of every advertisement the decoder of a request returns. *)
Record decoded_ok (request : ScanRequest) ad : Prop := {
  dec_actions : actions_fine (data_elements ad);
  dec_identity : identity_type ad = IDENTITY_TYPE_UNSPECIFIED \/ identity_type ad ∈ identity_types request;
}.
Implicit Types request : ScanRequest.

Lemma decoded_add request e ad ad' :
  (if type_ e =? kActionFieldType then DecodeBaseAction (value_ e) ad else Done (push_element e ad)) = Done ad' ->
  decoded_ok request ad -> decoded_ok request ad'.
Proof.
  intros E [Ha Hi]. destruct (Z.eqb_spec (type_ e) kActionFieldType).
  - destruct (DecodeBaseAction_fine _ _ _ E Ha) as [? Et]. by split; [|rewrite Et].
  - injection E as <-. split; [by apply push_fine|done].
Qed.

Lemma decrypted_elements_ok request decrypted fuel : forall index ad ad',
  decoded_ok request ad -> decrypted_elements fuel decrypted index ad = Done (Ok ad') -> decoded_ok request ad'.
Proof.
  induction fuel as [|fuel IH]; intros index ad ad' Ha; cbn [decrypted_elements];
    (destruct (_ <=? _)%nat; [by intros [= <-]|]); [done|].
  destruct (ParseDataElement decrypted index) as [[e index']|]; [|done]. intros (ad1 & E1 & E)%bind_done_inv.
  apply (IH index' ad1); [by apply (decoded_add request e ad)|done].
Qed.

Lemma DecryptLdt_same credentials salt encrypted ad l ad' :
  DecryptLdt credentials salt encrypted ad = Ok (l, ad') -> data_elements ad' = data_elements ad /\ identity_type ad' = identity_type ad.
Proof.
  assert (forall credentials, DecryptLdt_loop credentials salt encrypted ad = Ok (l, ad') ->
    data_elements ad' = data_elements ad /\ identity_type ad' = identity_type ad) as H.
  { induction credentials0 as [|c cs IH]; cbn [DecryptLdt_loop]; [done|].
    destruct (CreateEncryptor _ _); [|done]. destruct (DecryptAndVerify _ _ _); [|done].
    destruct (_ <? _)%nat; [by intros [= _ <-]|done]. }
  unfold DecryptLdt. destruct credentials; [done|apply H].
Qed.

Lemma Decrypt_same memory d salt encrypted ad l ad' :
  Decrypt memory d salt encrypted ad = Done (Ok (l, ad')) -> data_elements ad' = data_elements ad /\ identity_type ad' = identity_type ad.
Proof.
  unfold Decrypt. destruct (Decrypt_filters _ salt encrypted ad) as [p|] eqn:E.
  - intros [= ->]. revert E. induction (scan_filters (scan_request_ d)) as [|f fs IH]; cbn [Decrypt_filters]; [done|].
    destruct f as [|? ? [|c cs]]; [apply IH|apply IH|].
    destruct (DecryptLdt (c :: cs) salt encrypted ad) eqn:Ed; [|apply IH]. intros [= ->]. by apply DecryptLdt_same in Ed.
  - destruct (credentials_ d); [|done]. destruct (memory n); [|done]. intros [= Ed]. by apply DecryptLdt_same in Ed.
Qed.

Lemma banned_spec x types : forall banned,
  x ∈ banned -> x ∉ fold_left unban types banned -> exists t, t ∈ types /\ GetIdentityFieldType t = x /\ t <> IDENTITY_TYPE_UNSPECIFIED.
Proof.
  induction types as [|t types IH]; intros banned Hx Hn; [done|]. cbn [fold_left] in Hn.
  destruct (decide (x ∈ unban banned t)) as [Hu|Hu].
  - destruct (IH _ Hu Hn) as (t' & Ht' & E). exists t'. split; [by right|done].
  - exists t. split; [by left|]. destruct (decide (GetIdentityFieldType t = x)) as [E|Hne].
    + split; [done|]. by intros ->.
    + destruct Hu. destruct t; cbn in *; try done; apply elem_of_difference; split; try done; by intros ->%elem_of_singleton.
Qed.

Lemma identity_requested request x : IsIdentity x = true -> x ∉ AddBannedDataTypes request ->
  GetIdentityType x ∈ identity_types request.
Proof.
  intros Hi Hb. unfold AddBannedDataTypes in Hb. apply banned_spec in Hb as (t & Ht & <- & Hu).
  - by destruct t.
  - unfold IsIdentity, IsEncryptedIdentity in Hi. rewrite !orb_true_iff, !Z.eqb_eq in Hi.
    destruct Hi as [-> | [[-> | ->]| ->]]; set_solver.
Qed.

Lemma decode_elements_ok request memory d advertisement fuel :
  banned_data_types_ d = AddBannedDataTypes request -> forall index ad ad',
  decoded_ok request ad -> decode_elements memory d fuel advertisement index ad = Done (Ok ad') -> decoded_ok request ad'.
Proof.
  intros Hd. induction fuel as [|fuel IH]; intros index ad ad' Ha; cbn [decode_elements];
    (destruct (_ <=? _)%nat; [by intros [= <-]|]); [done|].
  destruct (ParseDataElement advertisement index) as [[e index']|]; [|done].
  case_bool_decide as Hb; [done|]. rewrite Hd in Hb. cbv zeta.
  assert (decoded_ok request (if IsIdentity (type_ e) then set_identity_type (GetIdentityType (type_ e)) ad else ad)) as Ha'.
  { destruct (IsIdentity (type_ e)) eqn:Hi; [|done]. destruct Ha as [Ha _]. split; [done|]. right. by apply identity_requested. }
  set (ad1 := if IsIdentity (type_ e) then _ else ad) in *. clearbody ad1.
  destruct (IsEncryptedIdentity (type_ e)).
  2: { intros (ad2 & E1 & E)%bind_done_inv. apply (IH index' ad2); [by apply (decoded_add request e ad1)|done]. }
  destruct (DecryptDataElements memory d e ad1) as [r| |] eqn:E; [|done..]. rewrite done_bind. destruct r as [ad2|]; [|done].
  apply IH. revert E. unfold DecryptDataElements. destruct (_ <=? _)%nat; [done|].
  destruct (Decrypt memory d _ _ _) as [r| |] eqn:E; [|done..]. rewrite done_bind. destruct r as [[l ad3]|]; [|done].
  apply decrypted_elements_ok. apply Decrypt_same in E as [E1 E2]. destruct Ha' as [Ha1 Ha2].
  split; [rewrite E1; by apply push_fine|by rewrite E2].
Qed.

Lemma DecodeAdvertisement_ok request memory d bytes ad :
  banned_data_types_ d = AddBannedDataTypes request -> DecodeAdvertisement memory d bytes = Done (Ok ad) -> decoded_ok request ad.
Proof.
  intros Hd. unfold DecodeAdvertisement. destruct bytes as [|b bytes]; [done|]. destruct (negb _); [done|].
  apply decode_elements_ok; [done|]. split; [constructor|by left].
Qed.

Lemma device_actions_done l : actions_fine l -> exists r, ScanManager.device_actions l = Done r.
Proof.
  induction 1 as [|e l He _ [r IH]]; cbn [ScanManager.device_actions]; [eauto|].
  destruct (Z.eqb_spec (type_ e) kActionFieldType) as [Ht|]; [|eauto]. destruct (He Ht) as (a & -> & Ha).
  rewrite u8_id by (unfold is_byte; lia). destruct (Z.leb_spec 1 a); [|lia]. destruct (Z.leb_spec a 255); [|lia]. cbn [andb].
  rewrite IH, done_bind. eauto.
Qed.
End Decoded.

(** * The scanner *)
Section Scanner.
Import ScanManager.
Context {ct : CharType} {L : Ldt}.
Implicit Types st : Scans.

(** The addresses in the table. *)
Record addresses_ok (m : gmap Z ScanSessionState) (n : nat) : Prop := {
  addr_bound : forall id s, m !! id = Some s -> (credentials_at s < n)%nat;
  addr_distinct : forall id id' s s', m !! id = Some s -> m !! id' = Some s' -> credentials_at s = credentials_at s' -> id = id';
}.

Lemma memory_alive m n id s : addresses_ok m n -> m !! id = Some s -> memory m (credentials_at s) = Some (credentials s).
Proof.
  intros Hm Hs. unfold memory. destruct (filter _ (map_to_list m)) as [|[id' s'] l] eqn:E.
  - assert ((id, s) ∈ filter (fun '(_, s') => credentials_at s' = credentials_at s) (map_to_list m)) as Hin.
    { apply list_elem_of_filter. split; [done|]. by apply elem_of_map_to_list. }
    rewrite E in Hin. by apply not_elem_of_nil in Hin.
  - assert ((id', s') ∈ filter (fun '(_, s') => credentials_at s' = credentials_at s) (map_to_list m)) as Hin by (rewrite E; by left).
    apply list_elem_of_filter in Hin as [Ha Hin%elem_of_map_to_list].
    assert (id' = id) as -> by (by eapply addr_distinct). congruence.
Qed.

Lemma addresses_same m n id s s' : addresses_ok m n -> m !! id = Some s -> credentials_at s' = credentials_at s ->
  addresses_ok (<[id := s']> m) n.
Proof.
  intros [Hb Hd] Hs E. split.
  - intros id1 s1 [[<- <-]|[_ H1]]%lookup_insert_Some; [rewrite E|]; eauto.
  - intros id1 id2 s1 s2 [[<- <-]|[? H1]]%lookup_insert_Some [[<- <-]|[? H2]]%lookup_insert_Some Ea; try done; eauto.
    + eapply Hd; [exact Hs|exact H2|congruence].
    + eapply Hd; [exact H1|exact Hs|congruence].
Qed.

Lemma addresses_insert w id s st : addresses_ok (scan_sessions_ st) (next_address st) ->
  addresses_ok (scan_sessions_ (insert_session w id s st)) (next_address (insert_session w id s st)).
Proof.
  intros [Hb Hd]. unfold insert_session. destruct (scan_sessions_ st !! id) eqn:E; [by split|]. cbn.
  assert (forall id1 s1, (if moves w then (fun s => move_to (S (next_address st) + credentials_at s) s) <$> scan_sessions_ st
      else scan_sessions_ st) !! id1 = Some s1 -> exists s0, scan_sessions_ st !! id1 = Some s0
        /\ credentials_at s1 = if moves w then (S (next_address st) + credentials_at s0)%nat else credentials_at s0) as Ho.
  { intros id1 s1. destruct (moves w); [|eauto]. rewrite lookup_fmap. intros (s0 & H0 & ->)%fmap_Some. eauto. }
  split.
  - intros id1 s1 [[<- <-]|[_ H1]]%lookup_insert_Some; [cbn; lia|]. destruct (Ho _ _ H1) as (s0 & H0 & ->).
    pose proof (Hb _ _ H0). destruct (moves w); lia.
  - intros id1 id2 s1 s2 [[<- <-]|[? H1]]%lookup_insert_Some [[<- <-]|[? H2]]%lookup_insert_Some Ea; try done; cbn in Ea.
    + destruct (Ho _ _ H2) as (s0 & H0 & E2). pose proof (Hb _ _ H0). destruct (moves w); lia.
    + destruct (Ho _ _ H1) as (s0 & H0 & E1). pose proof (Hb _ _ H0). destruct (moves w); lia.
    + destruct (Ho _ _ H1) as (s3 & H3 & E1), (Ho _ _ H2) as (s4 & H4 & E2). apply (Hd id1 id2 s3 s4 H3 H4). destruct (moves w); lia.
Qed.

Lemma addresses_delete m n id : addresses_ok m n -> addresses_ok (delete id m) n.
Proof.
  intros [Hb Hd]. split.
  - intros id1 s1 [_ H1]%lookup_delete_Some. eauto.
  - intros id1 id2 s1 s2 [_ H1]%lookup_delete_Some [_ H2]%lookup_delete_Some. eauto.
Qed.

Lemma FetchCredentials_same id r st :
  let st' := FetchCredentials id r st in
  scan_sessions_ st' = scan_sessions_ st /\ next_address st' = next_address st /\ scan_jobs st' = scan_jobs st
  /\ (forall id dev, on_discovered_cb id dev ∈ scan_outputs st' <-> on_discovered_cb id dev ∈ scan_outputs st).
Proof.
  unfold FetchCredentials. revert st. induction (GetCredentialSelectors r) as [|sel l IH]; intros st; [done|]. cbn [fold_left].
  destruct (IH (fetch_public id sel st)) as (-> & -> & -> & H4).
  assert (scan_sessions_ (fetch_public id sel st) = scan_sessions_ st /\ next_address (fetch_public id sel st) = next_address st
    /\ scan_jobs (fetch_public id sel st) = scan_jobs st /\ forall id' dev,
      on_discovered_cb id' dev ∈ scan_outputs (fetch_public id sel st) <-> on_discovered_cb id' dev ∈ scan_outputs st) as (H1 & H2 & H3 & H5).
  { unfold fetch_public. destruct (selector_identity_type sel); cbn; split_and!; try done; intros;
      rewrite elem_of_app, list_elem_of_singleton; by split; [intros [|]|left]. }
  split_and!; [done..|]. intros. by rewrite H4.
Qed.

(** Devices are reported to those who asked for them. *)
Definition asked (starts : list (Z * ScanRequest)) (o : ScanOutput) : Prop :=
  match o with
  | on_discovered_cb id dev => exists r, (id, r) ∈ starts
      /\ (device_identity_type dev = IDENTITY_TYPE_UNSPECIFIED \/ device_identity_type dev ∈ identity_types r)
      /\ MatchesScanFilter (new_decoder r None) (device_properties dev) = true
  | _ => True
  end.

(** The invariant; [starts] are the scans that have been started. *)
Record scans_ok (starts : list (Z * ScanRequest)) st : Prop := {
  so_addresses : addresses_ok (scan_sessions_ st) (next_address st);
  so_decoder : forall id s, scan_sessions_ st !! id = Some s -> decoder s = new_decoder (request s) (credentials_ (decoder s));
  so_started : forall id s, scan_sessions_ st !! id = Some s -> (id, request s) ∈ starts;
  so_jobs : forall id r, start_scan id r ∈ scan_jobs st -> (id, r) ∈ starts;
  so_asked : Forall (asked starts) (scan_outputs st);
}.
(** Every pointer is one to the session it is in. *)
Definition pointers_ok st : Prop :=
  forall id s a, scan_sessions_ st !! id = Some s -> credentials_ (decoder s) = Some a -> a = credentials_at s.

Definition started_by (e : ScanEvent) : list (Z * ScanRequest) :=
  match e with CallStartScan id r => [(id, r)] | _ => [] end.

Lemma asked_mono starts starts' o : starts ⊆ starts' -> asked starts o -> asked starts' o.
Proof. intros Hs. destruct o; try done. intros (r & Hr & Ho). exists r. auto. Qed.

Lemma scans_ok_mono starts starts' st : starts ⊆ starts' -> scans_ok starts st -> scans_ok starts' st.
Proof.
  intros Hs [H1 H2 H3 H4 H5]. split; try done.
  - intros id s H. by apply Hs, H3.
  - intros id r H. by apply Hs, H4.
  - eapply Forall_impl; [exact H5|]. intros o. by apply asked_mono.
Qed.

Lemma scans_ok_change starts st st' :
  scans_ok starts st -> scan_sessions_ st' = scan_sessions_ st -> next_address st' = next_address st ->
  (forall id r, start_scan id r ∈ scan_jobs st' -> (id, r) ∈ starts) -> Forall (asked starts) (scan_outputs st') -> scans_ok starts st'.
Proof. intros [H1 H2 H3 H4 H5] E1 E2 Hj Ho. split; rewrite ?E1, ?E2; done. Qed.

Lemma NotifyFoundBle_ok starts id data address st st' :
  scans_ok starts st -> NotifyFoundBle id data address st = Done st' -> scans_ok starts st' /\ (pointers_ok st -> pointers_ok st').
Proof.
  intros Hst. unfold NotifyFoundBle. destruct (scan_sessions_ st !! id) as [s|] eqn:Es; [|by intros [= <-]].
  destruct (DecodeAdvertisement _ _ _) as [r| |] eqn:E; [|done..]. rewrite done_bind. destruct r as [ad|]; [|by intros [= <-]].
  destruct (MatchesScanFilter _ _) eqn:Em; [|by intros [= <-]]. destruct (device_actions _) as [l| |]; [|done..].
  rewrite done_bind. intros [= <-]. split; [|done]. apply (scans_ok_change starts st); [done..|apply Hst|]. cbn.
  apply Forall_app. split; [apply Hst|]. repeat constructor. cbn. exists (request s).
  pose proof (so_decoder _ _ Hst id s Es) as Hd. split; [by apply (so_started _ _ Hst)|].
  rewrite Hd in E, Em. apply (DecodeAdvertisement_ok (request s)) in E as [_ Hi]; [|done]. by split; [|].
Qed.

Lemma NotifyFoundBle_returns starts id data address st : shifts_defined = true -> scans_ok starts st -> pointers_ok st ->
  exists st', NotifyFoundBle id data address st = Done st'.
Proof.
  intros Hsh Hst Hp. unfold NotifyFoundBle. destruct (scan_sessions_ st !! id) as [s|] eqn:Es; [|eauto].
  assert (credentials_alive (memory (scan_sessions_ st)) (decoder s)) as Ha.
  { intros a Ea. rewrite (Hp _ _ _ Es Ea). erewrite memory_alive by (apply Hst || exact Es). eauto. }
  destruct (DecodeAdvertisement_ends _ (decoder s) (default [] (service_data data !! kPresenceServiceUuid)) Hsh Ha) as [r E].
  rewrite E, done_bind. destruct r as [ad|]; [|eauto]. destruct (MatchesScanFilter _ _); [|eauto].
  rewrite (so_decoder _ _ Hst id s Es) in E. apply (DecodeAdvertisement_ok (request s)) in E as [Hf _]; [|done].
  destruct (device_actions_done _ Hf) as [l ->]. rewrite done_bind. eauto.
Qed.

Lemma start_scan_ok starts w id r st : scans_ok starts st -> (id, r) ∈ starts ->
  scans_ok starts (insert_session w id (MakeScanSession r ∅ (new_decoder r None) 0 (scans w))
    (emit_scan (StartScanning id (ConvertPowerModeToPowerLevel (scan_power_mode r))) (FetchCredentials id r st))).
Proof.
  intros Hst Hr. set (s := MakeScanSession _ _ _ _ _). set (st1 := emit_scan _ _).
  assert (scans_ok starts st1) as H1.
  { destruct (FetchCredentials_same id r st) as (E1 & E2 & E3 & E4).
    apply (scans_ok_change starts st); [done..| |]; cbn; [rewrite E3; apply Hst|].
    apply Forall_app. split; [|by repeat constructor]. apply Forall_forall. intros [| | |id' dev]; try done.
    rewrite E4. intros Hin. exact (proj1 (Forall_forall _ _) (so_asked _ _ Hst) _ Hin). }
  destruct H1 as [Ha Hd Hs Hj Ho]. pose proof (addresses_insert w id s st1 Ha) as Ha'. clearbody st1.
  unfold insert_session in *. destruct (scan_sessions_ st1 !! id); [by split|]. cbn in Ha'.
  assert (forall id1 s1, <[id := move_to (next_address st1) s]>
      (if moves w then (fun s => move_to (S (next_address st1) + credentials_at s) s) <$> scan_sessions_ st1
       else scan_sessions_ st1) !! id1 = Some s1 ->
    (id1 = id /\ s1 = move_to (next_address st1) s) \/ exists s0 a, scan_sessions_ st1 !! id1 = Some s0 /\ s1 = move_to a s0) as Hc.
  { intros id1 s1 [[<- <-]|[_ H]]%lookup_insert_Some; [by left|]. right. destruct (moves w).
    - rewrite lookup_fmap in H. apply fmap_Some in H as (s0 & H0 & ->). eauto.
    - exists s1, (credentials_at s1). split; [done|]. by destruct s1. }
  split; cbn; try done.
  - intros id1 s1 [[-> ->]|(s0 & a & H0 & ->)]%Hc; [done|]. exact (Hd id1 s0 H0).
  - intros id1 s1 [[-> ->]|(s0 & a & H0 & ->)]%Hc; [done|]. exact (Hs id1 s0 H0).
Qed.

Lemma start_scan_pointers w id r st : moves w = false -> pointers_ok st ->
  pointers_ok (insert_session w id (MakeScanSession r ∅ (new_decoder r None) 0 (scans w))
    (emit_scan (StartScanning id (ConvertPowerModeToPowerLevel (scan_power_mode r))) (FetchCredentials id r st))).
Proof.
  intros Hw Hp. destruct (FetchCredentials_same id r st) as (E & _). unfold insert_session. cbn [scan_sessions_ emit_scan].
  rewrite E, Hw. destruct (scan_sessions_ st !! id) eqn:Es.
  - intros id1 s1 a. cbn. rewrite E. apply Hp.
  - intros id1 s1 a. cbn. intros [[<- <-]|[_ H1]]%lookup_insert_Some; [done|]. by apply Hp with id1.
Qed.

Lemma UpdateCredentials_ok starts id t l st : scans_ok starts st ->
  scans_ok starts (UpdateCredentials id t l st) /\ (pointers_ok st -> pointers_ok (UpdateCredentials id t l st)).
Proof.
  intros Hst. unfold UpdateCredentials. destruct (scan_sessions_ st !! id) as [s|] eqn:Es; [|done].
  destruct Hst as [Ha Hd Hs Hj Ho]. split; [split; cbn; try done|].
  - by apply (addresses_same _ _ _ s).
  - intros id1 s1 [[<- <-]|[_ H1]]%lookup_insert_Some; [done|]. exact (Hd id1 s1 H1).
  - intros id1 s1 [[<- <-]|[_ H1]]%lookup_insert_Some; [exact (Hs id s Es)|]. exact (Hs id1 s1 H1).
  - intros Hp id1 s1 a. cbn. intros [[<- <-]|[_ H1]]%lookup_insert_Some; [by intros [= <-]|]. by apply Hp with id1.
Qed.

Lemma run_scan_job_ok starts w j st : scans_ok starts st -> (forall id r, j = start_scan id r -> (id, r) ∈ starts) ->
  (forall st', run_scan_job w j st = Done st' -> scans_ok starts st')
  /\ (shifts_defined = true -> moves w = false -> pointers_ok st -> exists st', run_scan_job w j st = Done st' /\ pointers_ok st').
Proof.
  intros Hst Hj. destruct j as [id r|id data address|id|id t l]; cbn [run_scan_job].
  - split; [intros st' [= <-]; apply start_scan_ok; auto|]. intros _ Hw Hp. eexists. split; [done|]. by apply start_scan_pointers.
  - split; [intros st' E; apply (NotifyFoundBle_ok starts id data address st st' Hst E)|]. intros Hsh _ Hp.
    destruct (NotifyFoundBle_returns starts id data address st Hsh Hst Hp) as [st' E]. exists st'. split; [done|].
    destruct (NotifyFoundBle_ok starts id data address st st' Hst E) as [_ H]. by apply H.
  - destruct (scan_sessions_ st !! id) as [s|] eqn:Es; [|split; [by intros st' [= <-]|eauto]].
    set (st1 := if scanning_session s then _ else st).
    assert (scans_ok starts st1 /\ scan_sessions_ st1 = scan_sessions_ st) as [H1 E1].
    { unfold st1. destruct (scanning_session s); [|done]. split; [|done]. apply (scans_ok_change starts st); [done..|apply Hst|].
      apply Forall_app. split; [apply Hst|by repeat constructor]. }
    split; [intros st' [= <-]|].
    + destruct H1 as [Ha Hd Hs Hj1 Ho]. split; cbn; try done; [by apply addresses_delete| |];
        intros id1 s1 [_ H1]%lookup_delete_Some; eauto.
    + intros _ _ Hp. eexists. split; [done|]. intros id1 s1 a. cbn. rewrite E1. intros [_ H]%lookup_delete_Some. by apply Hp with id1.
  - destruct (UpdateCredentials_ok starts id t l st Hst) as [H1 H2]. split; [by intros st' [= <-]|eauto].
Qed.

Lemma scan_step_ok starts w e st : scans_ok starts st ->
  (forall st', scan_step w e st = Done st' -> scans_ok (starts ++ started_by e) st')
  /\ (shifts_defined = true -> moves w = false -> pointers_ok st -> exists st', scan_step w e st = Done st' /\ pointers_ok st').
Proof.
  intros Hst. assert (scans_ok (starts ++ started_by e) st) as Hst' by (eapply scans_ok_mono; [|done]; set_solver).
  destruct e as [id r|id|n l|id data address|]; cbn [scan_step started_by] in *; rewrite ?app_nil_r in *.
  - split; [intros st' [= <-]|eauto]. apply (scans_ok_change _ st); try done; [|apply Hst'].
    intros id1 r1. cbn. rewrite !elem_of_app, !list_elem_of_singleton. intros [H|[= <- <-]]; [left; by apply Hst|by right].
  - split; [intros st' [= <-]|eauto]. apply (scans_ok_change _ st); try done; [|apply Hst'].
    intros id1 r1. cbn. rewrite elem_of_app, list_elem_of_singleton. intros [H|]; [by apply Hst|done].
  - unfold public_credentials_fetched_cb. destruct (public_fetches st !! n) as [[id t]|]; [|split; [by intros st' [= <-]|eauto]].
    destruct l as [l|]; (split; [intros st' [= <-]|eauto]); (apply (scans_ok_change _ st); try done; [|apply Hst']); [|apply Hst].
    intros id1 r1. cbn. rewrite elem_of_app, list_elem_of_singleton. intros [H|]; [by apply Hst|done].
  - split; [intros st' [= <-]|eauto]. apply (scans_ok_change _ st); try done; [|apply Hst'].
    intros id1 r1. cbn. rewrite elem_of_app, list_elem_of_singleton. intros [H|]; [by apply Hst|done].
  - unfold run_next_scan. destruct (scan_jobs st) as [|j jobs] eqn:Ej; [split; [by intros st' [= <-]|eauto]|].
    apply (run_scan_job_ok starts w j (MakeScans (scan_sessions_ st) (next_address st) (public_fetches st) jobs (scan_outputs st))).
    + apply (scans_ok_change _ st); try done; [|apply Hst]. intros id r H. apply Hst. rewrite Ej. by right.
    + intros id r ->. apply Hst. rewrite Ej. by left.
Qed.

Definition all_started (es : list (ScanEnvironment * ScanEvent)) : list (Z * ScanRequest) := es ≫= fun e => started_by (snd e).

Lemma scan_steps_ok es : forall starts st, scans_ok starts st ->
  (forall st', scan_steps es st = Done st' -> scans_ok (starts ++ all_started es) st')
  /\ (shifts_defined = true -> Forall (fun e => moves (fst e) = false) es -> pointers_ok st -> exists st', scan_steps es st = Done st').
Proof.
  induction es as [|[w e] es IH]; intros starts st Hst; cbn [scan_steps].
  { split; [intros st' [= <-]; cbn; by rewrite app_nil_r|eauto]. }
  destruct (scan_step_ok starts w e st Hst) as [H1 H2]. split.
  - intros st' E. apply bind_done_inv in E as (st1 & E1 & E). cbn. rewrite app_assoc. apply (IH (starts ++ started_by e) st1); auto.
  - intros Hsh [Hw Hes]%Forall_cons Hp. destruct (H2 Hsh Hw Hp) as (st1 & E1 & Hp1). rewrite E1, done_bind.
    apply (IH (starts ++ started_by e) st1); auto.
Qed.

Lemma new_scans_ok : scans_ok [] new_scans /\ pointers_ok new_scans.
Proof.
  split; [split; [split| | | |]; cbn; intros; try (by rewrite lookup_empty in *); try done; by apply not_elem_of_nil in H|].
  intros id s a. cbn. by rewrite lookup_empty.
Qed.

(** C11. The scanner is safe and reports only what was asked for.  In any run, in which any
    clients start and stop scans, credentials arrive or not, any advertisements are
    received and the executor runs its jobs at any time, every device that is reported
    to a client belongs to a scan that the client has started: its identity type is one
    the scan asks for (or it has none), and it matches the filters.  As long as no
    insertion moves the sessions of the table, every step returns: no pointer dangles,
    every parse comes to an end and no check fails.  Here the compiler has to define the
    left shift of a negative [char], or [char] to be unsigned, as the decoder shifts the
    bytes of an action. *)
Theorem Scanner_safe es :
  (shifts_defined = true -> Forall (fun e => moves (fst e) = false) es -> exists st, scan_steps es new_scans = Done st)
  /\ forall st id dev, scan_steps es new_scans = Done st -> on_discovered_cb id dev ∈ scan_outputs st ->
       exists r, (id, r) ∈ all_started es
         /\ (device_identity_type dev = IDENTITY_TYPE_UNSPECIFIED \/ device_identity_type dev ∈ identity_types r)
         /\ MatchesScanFilter (new_decoder r None) (device_properties dev) = true.
Proof.
  destruct new_scans_ok as [H1 H2]. destruct (scan_steps_ok es [] new_scans H1) as [Hok Hret]. split; [auto|].
  intros st id dev E Hin. exact (proj1 (Forall_forall _ _) (so_asked _ _ (Hok st E)) _ Hin).
Qed.
End Scanner.


(** * The broadcaster *)
Section Broadcaster.
Import BroadcastManager.
Context {ct : CharType} {L : Ldt}.
Implicit Types b : Broadcasts.

Definition tally {A} (f : A -> bool) (l : list A) : nat := length (List.filter f l).
#[global] Arguments tally : simpl never.
Lemma tally_app {A} (f : A -> bool) l l' : tally f (l ++ l') = (tally f l + tally f l')%nat.
Proof. unfold tally. by rewrite List.filter_app, length_app. Qed.
Lemma tally_cons {A} (f : A -> bool) x l : tally f (x :: l) = ((if f x then 1 else 0) + tally f l)%nat.
Proof. unfold tally. cbn. by destruct (f x). Qed.
Lemma tally_nil {A} (f : A -> bool) : tally f [] = 0%nat.
Proof. done. Qed.
Ltac count := repeat (rewrite ?tally_app, ?tally_cons, ?tally_nil in *; cbn in * ).

(** What is counted for the session [id]. *)
Definition is_told (id : Z) (o : BroadcastOutput) : bool :=
  match o with start_broadcast_cb (Some id') _ => id' =? id | _ => false end.
Definition is_advertised (id : Z) (o : BroadcastOutput) : bool :=
  match o with StartAdvertising id' _ _ => id' =? id | _ => false end.
Definition is_stopped (id : Z) (o : BroadcastOutput) : bool :=
  match o with stop_advertising id' => id' =? id | _ => false end.
Definition is_start (id : Z) (j : BroadcastJob) : bool :=
  match j with start_broadcast id' _ _ => id' =? id | _ => false end.
Definition is_advertise (id : Z) (j : BroadcastJob) : bool :=
  match j with advertise_non_public id' _ _ _ => id' =? id | _ => false end.
Definition is_fetch (id : Z) (f : LocalFetch) : bool := fetch_id f =? id.
Definition is_started (id : Z) (e : BroadcastEvent) : bool :=
  match e with CallStartBroadcast id' _ _ => id' =? id | _ => false end.

Definition due (f : BroadcastSessionState -> bool) (id : Z) (m : gmap Z BroadcastSessionState) : nat :=
  match m !! id with Some s => if f s then 1 else 0 | None => 0 end.
#[global] Arguments due : simpl never.
Lemma due_insert f id id' s m : due f id (<[id' := s]> m) = if id' =? id then (if f s then 1 else 0)%nat else due f id m.
Proof.
  unfold due. destruct (Z.eqb_spec id' id) as [->|]; [by rewrite lookup_insert_eq|by rewrite lookup_insert_ne].
Qed.
Lemma due_delete f id id' m : due f id (delete id' m) = if id' =? id then 0%nat else due f id m.
Proof.
  unfold due. destruct (Z.eqb_spec id' id) as [->|]; [by rewrite lookup_delete_eq|by rewrite lookup_delete_ne].
Qed.

(** The callbacks for the session that have not been called; [i] is the index of the first
    one. *)
Fixpoint unanswered (id : Z) (A : gset nat) (i : nat) (l : list LocalFetch) : nat :=
  match l with
  | [] => 0
  | f :: l => (if is_fetch id f && bool_decide (i ∉ A) then 1 else 0) + unanswered id A (S i) l
  end.
Lemma unanswered_app id A i l f : (unanswered id A i (l ++ [f]) <= unanswered id A i l + (if is_fetch id f then 1 else 0))%nat.
Proof.
  revert i. induction l as [|g l IH]; intros i; cbn [app unanswered]; [|specialize (IH (S i)); lia].
  destruct (is_fetch id f), (bool_decide _); cbn; lia.
Qed.
Lemma unanswered_mono id A k i l : (unanswered id ({[k]} ∪ A) i l <= unanswered id A i l)%nat.
Proof.
  revert i. induction l as [|f l IH]; intros i; cbn [unanswered]; [done|]. specialize (IH (S i)).
  destruct (is_fetch id f); cbn [andb]; [|lia]. repeat case_bool_decide; try lia. set_solver.
Qed.
Lemma unanswered_answer id A k i l f : l !! k = Some f -> (i + k)%nat ∉ A ->
  (unanswered id ({[(i + k)%nat]} ∪ A) i l + (if is_fetch id f then 1 else 0) <= unanswered id A i l)%nat.
Proof.
  revert i k. induction l as [|g l IH]; intros i k; [by rewrite lookup_nil|]. cbn [unanswered]. destruct k as [|k]; cbn [lookup list_lookup].
  - intros [= ->] Hk. rewrite Nat.add_0_r in *. pose proof (unanswered_mono id A i (S i) l).
    rewrite bool_decide_false, bool_decide_true by set_solver. rewrite andb_false_r, andb_true_r. lia.
  - intros H Hk. rewrite Nat.add_succ_r in *. specialize (IH (S i) k H Hk). cbn [Nat.add] in IH.
    destruct (is_fetch id g); cbn [andb]; [|lia]. repeat case_bool_decide; try lia. set_solver.
Qed.

(** [jobs] are those still to run, with the one that is running. *)
Record told_ok (id : Z) (n m : nat) (A : gset nat) (jobs : list BroadcastJob) b : Prop := {
  to_told : (tally (is_told id) (broadcast_outputs b) + due broadcast_callback_ id (sessions_ b) + tally (is_start id) jobs <= n)%nat;
  to_advertised : (tally (is_advertised id) (broadcast_outputs b) + unanswered id A 0 (fetches b)
    + tally (is_start id) jobs + tally (is_advertise id) jobs <= n + m)%nat;
  to_stopped : (tally (is_stopped id) (broadcast_outputs b) + due advertising_session_ id (sessions_ b)
    <= tally (is_advertised id) (broadcast_outputs b))%nat;
}.

Lemma told_count id n m A jobs b b' :
  sessions_ b' = sessions_ b -> fetches b' = fetches b -> (tally (is_start id) (broadcast_jobs b') <= tally (is_start id) jobs)%nat ->
  (tally (is_advertise id) (broadcast_jobs b') <= tally (is_advertise id) jobs)%nat ->
  broadcast_outputs b' = broadcast_outputs b -> told_ok id n m A jobs b -> told_ok id n m A (broadcast_jobs b') b'.
Proof. intros E1 E2 E3 E4 E5 [H1 H2 H3]. split; rewrite ?E1, ?E2, ?E5; lia. Qed.

Lemma Advertise_told id n m A w id' r l j b : is_start id j || is_advertise id j = (id' =? id) ->
  told_ok id n m A (j :: broadcast_jobs b) b ->
  let b' := snd (Advertise w id' r l b) in told_ok id n m A (broadcast_jobs b') b'.
Proof.
  intros Ej Hb. unfold Advertise. destruct (sessions_ b !! id') as [s|] eqn:Es.
  2: { apply (told_count id n m A (j :: broadcast_jobs b) b); rewrite ?tally_cons; auto; cbn [snd]; lia. }
  destruct (SelectCredential _ _ _) as [c r']. destruct (CreateBaseNpAdvertisement r' c) as [content|code]; cycle 1.
  { apply (told_count id n m A (j :: broadcast_jobs b) b); try done; count; lia. }
  destruct Hb as [H1 H2 H3]. rewrite !tally_cons in *.
  assert (id' =? id = true -> forall f, due f id (sessions_ b) = if f s then 1%nat else 0%nat) as Hs.
  { intros ->%Z.eqb_eq f. unfold due. by rewrite Es. }
  destruct (advertises w); split; count; rewrite ?due_insert;
    destruct (id' =? id); try rewrite !(Hs eq_refl) in *; destruct (is_start id j), (is_advertise id j); try done; cbn in *; lia.
Qed.

Lemma due_some f id s m : m !! id = Some s -> due f id m = if f s then 1%nat else 0%nat.
Proof. unfold due. by intros ->. Qed.
Lemma due_none f id m : m !! id = None -> due f id m = 0%nat.
Proof. unfold due. by intros ->. Qed.

(** [E] is the lookup of the session [i], which is the one counted or not. *)
Ltac settle i id E :=
  count; rewrite ?due_insert, ?due_delete in *;
  destruct (Z.eqb_spec i id) as [->|]; [rewrite ?(due_some _ _ _ _ E), ?(due_none _ _ _ E) in *|]; cbn in *; lia.

Lemma run_broadcast_job_told id n m A w j b : told_ok id n m A (j :: broadcast_jobs b) b ->
  let b' := run_broadcast_job w j b in told_ok id n m A (broadcast_jobs b') b'.
Proof.
  intros Hb. destruct j as [id' pm r|id' r sel l|id' status|id']; cbn [run_broadcast_job].
  - set (b1 := match sessions_ b !! id' with Some _ => b | None => _ end).
    assert (told_ok id n m A (advertise_non_public id' r (credential_selector r) [] :: broadcast_jobs b1) b1) as H1.
    { destruct Hb as [H1 H2 H3]. unfold b1. destruct (sessions_ b !! id') as [s|] eqn:E; split; settle id' id E. }
    unfold BroadcastManager.FetchCredentials. destruct (GetCredentialSelector r) as [sel|code].
    + destruct H1 as [H1 H2 H3]. pose proof (unanswered_app id A 0 (fetches b1) (MakeLocalFetch id' r sel)).
      split; unfold is_fetch in *; count; lia.
    + apply (Advertise_told id n m A w id' r [] (advertise_non_public id' r (credential_selector r) []) b1 eq_refl H1).
  - assert (told_ok id n m A (broadcast_jobs (snd (Advertise w id' r l b))) (snd (Advertise w id' r l b))) as H1.
    { apply (Advertise_told id n m A w id' r l (advertise_non_public id' r sel l) b eq_refl Hb). }
    destruct (Advertise w id' r l b) as [[c|] b']; [|done]. cbn in H1. destruct H1 as [H1 H2 H3]. split; count; lia.
  - destruct Hb as [H1 H2 H3]. destruct (sessions_ b !! id') as [s|] eqn:E; [|split; count; lia].
    destruct s as [[] ? []], (negb (code_ok status)); split; settle id' id E.
  - destruct Hb as [H1 H2 H3]. destruct (sessions_ b !! id') as [s|] eqn:E; [|split; count; lia].
    destruct s as [[] ? []]; split; settle id' id E.
Qed.

(** The answers of the credential manager to what it has answered before; [A] are the
    callbacks that have been called. *)
Fixpoint repeated_answers (A : gset nat) (es : list BroadcastEvent) : nat :=
  match es with
  | [] => 0
  | CredentialsFetched k _ :: es => (if bool_decide (k ∈ A) then 1 else 0) + repeated_answers ({[k]} ∪ A) es
  | _ :: es => repeated_answers A es
  end.
Definition is_repeated (A : gset nat) (e : BroadcastEvent) : nat :=
  match e with CredentialsFetched k _ => if bool_decide (k ∈ A) then 1 else 0 | _ => 0 end.
Definition answered_by (A : gset nat) (e : BroadcastEvent) : gset nat :=
  match e with CredentialsFetched k _ => {[k]} ∪ A | _ => A end.
Lemma repeated_cons A e es : repeated_answers A (e :: es) = (is_repeated A e + repeated_answers (answered_by A e) es)%nat.
Proof. by destruct e. Qed.

Lemma broadcast_step_told id n m A w e b : told_ok id n m A (broadcast_jobs b) b ->
  let b' := broadcast_step w e b in
  told_ok id ((if is_started id e then 1 else 0) + n) (is_repeated A e + m) (answered_by A e) (broadcast_jobs b') b'.
Proof.
  intros Hb. destruct e as [id' random r|id'|k l|id' status|]; cbn [broadcast_step is_started is_repeated answered_by].
  - unfold StartBroadcast. destruct Hb as [H1 H2 H3]. destruct (CreateBaseRequest random r); split; count; lia.
  - destruct Hb as [H1 H2 H3]. split; count; lia.
  - unfold credentials_fetched_cb. destruct Hb as [H1 H2 H3]. pose proof (unanswered_mono id A k 0 (fetches b)) as Hm.
    destruct (fetches b !! k) as [f|] eqn:E; [|split; count; lia].
    pose proof (unanswered_answer id A k 0 (fetches b) f E) as Ha. cbn [Nat.add] in Ha.
    destruct l; (split; [count; lia| |count; lia]); count; unfold is_fetch in *; case_bool_decide as Hk;
      try specialize (Ha Hk); destruct (fetch_id f =? id); cbn in *; lia.
  - destruct Hb as [H1 H2 H3]. split; count; lia.
  - unfold run_next_broadcast. destruct (broadcast_jobs b) as [|j jobs] eqn:E; [by rewrite E|].
    apply (run_broadcast_job_told id n m A w j (MakeBroadcasts (sessions_ b) (fetches b) jobs (broadcast_outputs b))).
    by destruct Hb as [H1 H2 H3].
Qed.

Lemma broadcast_steps_told id es : forall n m A b, told_ok id n m A (broadcast_jobs b) b ->
  let b' := broadcast_steps es b in
  exists A', told_ok id (tally (is_started id) (map snd es) + n) (repeated_answers A (map snd es) + m) A' (broadcast_jobs b') b'.
Proof.
  induction es as [|[w e] es IH]; intros n m A b Hb; cbn [broadcast_steps fold_left map snd]; [by exists A|].
  rewrite tally_cons, repeated_cons. apply (broadcast_step_told id n m A w e) in Hb. apply IH in Hb as [A' Hb]. exists A'.
  replace ((if is_started id e then 1 else 0) + tally (is_started id) (map snd es) + n)%nat
    with (tally (is_started id) (map snd es) + ((if is_started id e then 1 else 0) + n))%nat by lia.
  replace (is_repeated A e + repeated_answers (answered_by A e) (map snd es) + m)%nat
    with (repeated_answers (answered_by A e) (map snd es) + (is_repeated A e + m))%nat by lia. exact Hb.
Qed.

(** C31. A broadcast is told once at most, and made once for each answer.  In any run, in
    which the clients start and stop broadcasts, the credential manager and the medium
    answer once, more often or never, advertising fails or not and the executor runs its
    jobs at any time: the callback of a session is called no more often than the session
    was started; the medium is started no more often than that, but for a further
    time with each answer that the credential manager repeats; and the medium is told to
    stop advertising no more often than it was told to start. *)
Theorem Broadcast_told_once es id :
  let outputs := broadcast_outputs (broadcast_steps es new_broadcasts) in
  (tally (is_told id) outputs <= tally (is_started id) (map snd es))%nat
  /\ (tally (is_advertised id) outputs <= tally (is_started id) (map snd es) + repeated_answers ∅ (map snd es))%nat
  /\ (tally (is_stopped id) outputs <= tally (is_advertised id) outputs)%nat.
Proof.
  assert (told_ok id 0 0 ∅ (broadcast_jobs new_broadcasts) new_broadcasts) as H
    by (split; cbn; rewrite ?tally_nil; unfold due; cbn; rewrite ?lookup_empty; lia).
  apply (broadcast_steps_told id es) in H as [A [H1 H2 H3]]. cbv zeta in *. lia.
Qed.
End Broadcaster.
