(* ===== verification/PresenceRun.v ===== *)
(** Broadcasters and scanners of Nearby Presence together: what one side broadcasts, by its
    own code, the client of the other is told of, by its own; and runs that show where the
    two do not agree. *)

From Stdlib Require Import ZArith Lia.
From stdpp Require Import base list numbers gmap.
From S2P Require Import Prelude Utils CppBase BleData BleTracker PresenceData PresenceTheorems PresenceBroadcast PresenceScan PresenceSafety.
Import Uuids DataElement ActionFactory LdtEncryptor AdvertisementFactory AdvertisementDecoder.

Open Scope Z_scope.
Open Scope fp_scope.

Section Together.
Context {ct : CharType} {HF : Hashes} {L : Ldt} {Lspec : LdtSpec L}.

(** ** The broadcaster's side *)

(** The salt and the credential a broadcaster takes for a broadcast of an identity that is
    not public. *)
Definition chosen (w : BroadcastManager.BroadcastEnvironment) (random : list Z) (c : LocalCredential) (cs : list LocalCredential)
  : list Z * LocalCredential := BroadcastManager.SelectSalt (BroadcastManager.RandData w) (BroadcastManager.min_element c cs) random.

(** A broadcast, from the call of its client to the saved credential. *)
Definition private_broadcast (w0 w : BroadcastManager.BroadcastEnvironment) (id : Z) (random : list Z) (request : BroadcastRequest)
    (n : nat) (l : list LocalCredential) : list (BroadcastManager.BroadcastEnvironment * BroadcastManager.BroadcastEvent) :=
  [(w0, BroadcastManager.CallStartBroadcast id random request); (w0, BroadcastManager.RunBroadcastJob);
   (w0, BroadcastManager.CredentialsFetched n (Ok l)); (w, BroadcastManager.RunBroadcastJob)].

(** The first section of a request. *)
Definition request_of (random : list Z) (sec : BroadcastSection) (request : BroadcastRequest) : BaseBroadcastRequest :=
  MakeBaseRequest (MakeSelector (section_manager_app_id sec) (section_account_name sec) (identity sec))
    (CreateAction (section_properties sec)) random (s8 (request_tx_power request)) (request_power_mode request).

Definition with_salt (salt' : list Z) (r : BaseBroadcastRequest) : BaseBroadcastRequest :=
  MakeBaseRequest (credential_selector r) (action r) salt' (tx_power r) (base_power_mode r).

Section Broadcaster.
Import BroadcastManager.
Implicit Types b : Broadcasts.

Lemma private_broadcast_runs b w0 w id random request sec secs c cs content :
  broadcast_jobs b = [] -> sessions_ b !! id = None -> advertises w = true ->
  variant_sections request = Some (sec :: secs) -> RequiresCredentials (identity sec) = true ->
  CreateBaseNpAdvertisement (with_salt (fst (chosen w random c cs)) (request_of random sec request))
    (Some (snd (chosen w random c cs))) = Ok content ->
  broadcast_outputs (broadcast_steps (private_broadcast w0 w id random request (length (fetches b)) (c :: cs)) b)
  = broadcast_outputs b ++
    [GetLocalCredentials (credential_selector (request_of random sec request));
     StartAdvertising id (advertising_data content) (ConvertPowerModeToPowerLevel (request_power_mode request));
     UpdateLocalCredential (credential_selector (request_of random sec request)) (snd (chosen w random c cs))].
Proof.
  intros Hj Hs Hw Hv Hc Hcontent. unfold broadcast_steps, private_broadcast. cbn [fold_left broadcast_step].
  unfold StartBroadcast, CreateBaseRequest. rewrite Hv. fold (request_of random sec request). set (r := request_of random sec request) in *.
  unfold post. rewrite Hj. cbn [app]. unfold run_next_broadcast at 2. cbn [broadcast_jobs run_broadcast_job sessions_]. rewrite Hs.
  unfold FetchCredentials, GetCredentialSelector. change (selector_identity_type (credential_selector r)) with (identity sec). rewrite Hc.
  unfold credentials_fetched_cb. cbn [fetches set_sessions sessions_ broadcast_jobs broadcast_outputs].
  rewrite list_lookup_middle by done. unfold post, run_next_broadcast. cbn [broadcast_jobs app run_broadcast_job fetch_id fetch_request fetch_selector].
  unfold Advertise. cbn [sessions_]. rewrite lookup_insert_eq. unfold SelectCredential. fold (chosen w (salt r) c cs).
  change (salt r) with random. destruct (chosen w random c cs) as [salt' c'] eqn:E. cbn [fst snd] in *. fold (with_salt salt' r).
  rewrite Hcontent, Hw. cbn. by rewrite <- !app_assoc.
Qed.

Lemma public_broadcast_runs b w0 w id random request sec secs content :
  broadcast_jobs b = [] -> sessions_ b !! id = None -> advertises w = true ->
  variant_sections request = Some (sec :: secs) -> identity sec = IDENTITY_TYPE_PUBLIC ->
  CreateBaseNpAdvertisement (request_of random sec request) None = Ok content ->
  broadcast_outputs (broadcast_steps [(w0, CallStartBroadcast id random request); (w, RunBroadcastJob)] b)
  = broadcast_outputs b ++
    [StartAdvertising id (advertising_data content) (ConvertPowerModeToPowerLevel (request_power_mode request))].
Proof.
  intros Hj Hs Hw Hv Hc Hcontent. unfold broadcast_steps. cbn [fold_left broadcast_step].
  unfold StartBroadcast, CreateBaseRequest. rewrite Hv. fold (request_of random sec request). set (r := request_of random sec request) in *.
  unfold post. rewrite Hj. cbn [app]. unfold run_next_broadcast. cbn [broadcast_jobs run_broadcast_job sessions_]. rewrite Hs.
  unfold FetchCredentials, GetCredentialSelector. change (selector_identity_type (credential_selector r)) with (identity sec). rewrite Hc.
  cbn [RequiresCredentials]. unfold Advertise. cbn [set_sessions sessions_]. rewrite lookup_insert_eq. cbn [SelectCredential].
  by rewrite Hcontent, Hw.
Qed.
End Broadcaster.

(** ** The scanner's side *)

(** The actions of the device a client is told of. *)
Definition received_actions (props : list DataElement) : list Z :=
  filter (fun a => action_element a ∈ props) all_actions ++ (if misread props then [7; 6; 5; 4] else []).

Section Scanner.
Import ScanManager.

Lemma device_actions_elements l l' : Forall (fun a => 1 <= a <= 255) l ->
  device_actions (map action_element l) = Done l /\
  (Forall (fun e => type_ e <> kActionFieldType) l' -> device_actions (l' ++ map action_element l) = Done l).
Proof.
  intros Hl. assert (device_actions (map action_element l) = Done l) as H.
  { induction Hl as [|a l Ha Hl IH]; [done|]. cbn [map device_actions action_element byte_element type_ value_].
    change (kActionFieldType =? kActionFieldType) with true. cbv iota. assert (u8 a = a) as Hu by (apply u8_id; unfold is_byte; lia). rewrite !Hu.
    destruct (Z.leb_spec 1 a); [|lia]. destruct (Z.leb_spec a 255); [|lia]. cbn [andb]. by rewrite IH. }
  split; [done|]. induction 1 as [|e l' He _ IH]; [done|]. cbn [app device_actions].
  by destruct (Z.eqb_spec (type_ e) kActionFieldType).
Qed.

Lemma received_device_actions pre props : Forall (fun e => type_ e <> kActionFieldType) pre ->
  device_actions (pre ++ received props) = Done (received_actions props).
Proof.
  intros Hpre. unfold received. rewrite app_assoc. apply device_actions_elements.
  - apply Forall_app. split.
    + apply Forall_forall. intros a [_ Ha]%list_elem_of_filter. revert a Ha. apply Forall_forall. repeat constructor; lia.
    + destruct (misread props); repeat constructor; lia.
  - apply Forall_app. split; [done|]. unfold timestamp_elements. destruct (_ =? _); [done|]. by repeat constructor.
Qed.

Lemma banned_asked request t : t ∈ identity_types request -> t <> IDENTITY_TYPE_UNSPECIFIED ->
  GetIdentityFieldType t ∉ AddBannedDataTypes request.
Proof. intros. by apply unban_removes. Qed.

(** An advertisement that reaches a session. *)
Lemma found_runs st w w' sid s content address :
  scan_jobs st = [] -> scan_sessions_ st !! sid = Some s ->
  scan_steps [(w, AdvertisementFound sid (advertising_data content) address); (w', RunScanJob)] st
  = let! advert := DecodeAdvertisement (memory (scan_sessions_ st)) (decoder s) content in
    match advert with
    | Error _ => Done st
    | Ok ad =>
      if MatchesScanFilter (decoder s) (data_elements ad) then
        let! actions := device_actions (data_elements ad) in
        Done (emit_scan (on_discovered_cb sid (MakeDevice address (identity_type ad) (public_credential ad) (data_elements ad) actions)) st)
      else Done st
    end.
Proof.
  intros Hj Hs. cbn [scan_steps scan_step]. rewrite done_bind. unfold run_next_scan, post_scan. rewrite Hj. cbn [scan_jobs app run_scan_job].
  unfold NotifyFoundBle. cbn [scan_sessions_]. rewrite Hs. unfold advertising_data. cbn [service_data]. rewrite lookup_singleton_eq. cbn [default].
  unfold Datatypes.id. cbn [scan_sessions_ next_address public_fetches scan_outputs scan_jobs].
  assert (MakeScans (scan_sessions_ st) (next_address st) (public_fetches st) [] (scan_outputs st) = st) as ->.
  { destruct st. cbn in Hj. by subst. }
  destruct (DecodeAdvertisement _ _ _) as [[ad|code]| |]; rewrite ?done_bind; try done.
  destruct (MatchesScanFilter _ _); [|done]. by destruct (device_actions _).
Qed.

Lemma credentials_arrive st w w' n sid t s l :
  scan_jobs st = [] -> scan_sessions_ st !! sid = Some s -> public_fetches st !! n = Some (sid, t) ->
  scan_steps [(w, PublicCredentialsFetched n (Ok l)); (w', RunScanJob)] st
  = Done (UpdateCredentials sid t l
      (MakeScans (scan_sessions_ st) (next_address st) (public_fetches st) [] (scan_outputs st))).
Proof.
  intros Hj Hs Hn. cbn [scan_steps scan_step]. rewrite done_bind. unfold public_credentials_fetched_cb. rewrite Hn.
  unfold run_next_scan, post_scan. cbn [scan_jobs]. by rewrite Hj.
Qed.

Lemma scan_steps_app es es' st : scan_steps (es ++ es') st = let! st := scan_steps es st in scan_steps es' st.
Proof. revert st. induction es as [|[w e] es IH]; intros st; [done|]. cbn. destruct (scan_step w e st); [|done..]. rewrite !done_bind. apply IH. Qed.

(** The session after its credentials have arrived: its pointer is to them. *)
Lemma updated_session starts t l sid s st st' :
  scans_ok starts st -> scan_sessions_ st !! sid = Some s -> st' = UpdateCredentials sid t l st ->
  exists s', scan_sessions_ st' !! sid = Some s' /\ decoder s' = new_decoder (ScanManager.request s) (Some (credentials_at s'))
    /\ scan_jobs st' = scan_jobs st /\ scan_outputs st' = scan_outputs st
    /\ memory (scan_sessions_ st') (credentials_at s') = Some (<[t := l]> (credentials s)).
Proof.
  intros Hst Hs ->. assert (scans_ok starts (UpdateCredentials sid t l st)) as Hst' by (apply UpdateCredentials_ok, Hst).
  destruct Hst' as [Ha _ _ _ _]. unfold UpdateCredentials in *. rewrite Hs in *. cbn [scan_sessions_ set_scan_sessions next_address] in *.
  set (s' := MakeScanSession _ _ _ _ _) in *. exists s'. rewrite lookup_insert_eq. do 4 (split; [done|]).
  apply (memory_alive _ _ sid s' Ha). apply lookup_insert_eq.
Qed.
End Scanner.

(** ** Both sides *)

(** A broadcaster that is free to broadcast the first section of a request: no job waits,
    the session is new, the medium accepts and the salt has two bytes.  The properties are
    context timestamps and actions from 8 to 15, and a scanner reads one of them at least. *)
Record may_broadcast (b : BroadcastManager.Broadcasts) (w : BroadcastManager.BroadcastEnvironment) (id : Z)
    (random : list Z) (request : BroadcastRequest) (sec : BroadcastSection) (secs : list BroadcastSection) : Prop := {
  mb_jobs : BroadcastManager.broadcast_jobs b = [];
  mb_new : BroadcastManager.sessions_ b !! id = None;
  mb_advertises : BroadcastManager.advertises w = true;
  mb_salt : length random = kSaltSize;
  mb_variant : variant_sections request = Some (sec :: secs);
  mb_properties : Forall base_property (section_properties sec);
  mb_received : received (section_properties sec) <> [];
}.

(** A scanner that any run has led to, with a session that asks for [t]. *)
Record scanning (es : list (ScanManager.ScanEnvironment * ScanManager.ScanEvent)) (st : ScanManager.Scans) (sid : Z)
    (s : ScanManager.ScanSessionState) (t : IdentityType) : Prop := {
  sc_reached : ScanManager.scan_steps es ScanManager.new_scans = Done st;
  sc_jobs : ScanManager.scan_jobs st = [];
  sc_session : ScanManager.scan_sessions_ st !! sid = Some s;
  sc_asked : t ∈ identity_types (ScanManager.request s);
}.

Lemma scanning_ok es st sid s t : scanning es st sid s t -> scans_ok (all_started es) st.
Proof. intros [H _ _ _]. destruct new_scans_ok as [Hn _]. by apply (scan_steps_ok es [] ScanManager.new_scans Hn). Qed.

(** The device the client is told of, if it passes the filters of the scan. *)
Definition told (s : ScanManager.ScanSessionState) (sid : Z) (address : list Z) (t : IdentityType)
    (c : option SharedCredential) (elements : list DataElement) (actions : list Z) : list ScanManager.ScanOutput :=
  if MatchesScanFilter (new_decoder (ScanManager.request s) None) elements
  then [ScanManager.on_discovered_cb sid (ScanManager.MakeDevice address t c elements actions)] else [].

Lemma found_told st w w' sid s s' content address ad actions :
  ScanManager.scan_jobs st = [] -> ScanManager.scan_sessions_ st !! sid = Some s' ->
  scan_request_ (ScanManager.decoder s') = ScanManager.request s ->
  DecodeAdvertisement (ScanManager.memory (ScanManager.scan_sessions_ st)) (ScanManager.decoder s') content = Done (Ok ad) ->
  ScanManager.device_actions (data_elements ad) = Done actions ->
  exists st', ScanManager.scan_steps [(w, ScanManager.AdvertisementFound sid (advertising_data content) address);
      (w', ScanManager.RunScanJob)] st = Done st'
    /\ ScanManager.scan_outputs st' = ScanManager.scan_outputs st
         ++ told s sid address (identity_type ad) (public_credential ad) (data_elements ad) actions.
Proof.
  intros Hj Hs Hr Hd Ha. rewrite (found_runs _ _ _ _ _ _ _ Hj Hs), Hd, done_bind. unfold told.
  assert (MatchesScanFilter (ScanManager.decoder s') (data_elements ad)
    = MatchesScanFilter (new_decoder (ScanManager.request s) None) (data_elements ad)) as ->.
  { unfold MatchesScanFilter. by rewrite Hr. }
  destruct (MatchesScanFilter _ _); [rewrite Ha, done_bind|]; eexists; (split; [done|]); [done|by rewrite app_nil_r].
Qed.

(** C18. What a scanner makes of a public broadcast.  From any state of the broadcaster in
    which it may broadcast (no job waits, the session is new, the medium accepts, the salt
    has two bytes), a client's broadcast, under the public identity, of context timestamps
    and actions from 8 to 15, not all of them empty, makes it advertise once.  A scanner in any state
    that a run leads to, with no job waiting and a session that asks for public identities,
    reports to this session the device at this address, with the salt, the power, one
    timestamp that combines the lower four bits of those broadcast, and the actions, unless
    the session's filters refuse them; with one exception.  Where [char] is signed (and
    shifted as GCC and Clang do) a broadcast of the action 8 is reported with the timestamp
    15, whatever was broadcast, and with the actions 7, 6, 5 and 4 besides, as [received]
    and [received_actions] say: against DecodeBaseNpV0PublicIdentityWithTxAndActionFields
    of advertisement_decoder_test.cc, which expects the action 8 alone.  By the letter of
    C++17 the scanner's behaviour is undefined where [char] is signed, for the action 8 and
    for timestamps from 8 on, and defined in all other cases. *)
Theorem Presence_public_discovered b w0 w id random request sec secs es st sid s address wf wf' :
  may_broadcast b w id random request sec secs -> identity sec = IDENTITY_TYPE_PUBLIC ->
  scanning es st sid s IDENTITY_TYPE_PUBLIC ->
  exists content,
    BroadcastManager.broadcast_outputs (BroadcastManager.broadcast_steps
      [(w0, BroadcastManager.CallStartBroadcast id random request); (w, BroadcastManager.RunBroadcastJob)] b)
    = BroadcastManager.broadcast_outputs b ++
        [BroadcastManager.StartAdvertising id (advertising_data content) (ConvertPowerModeToPowerLevel (request_power_mode request))]
    /\ let scan := ScanManager.scan_steps [(wf, ScanManager.AdvertisementFound sid (advertising_data content) address);
           (wf', ScanManager.RunScanJob)] st in
       if shift_undefined (section_properties sec) then scan = Fault
       else exists st', scan = Done st'
         /\ ScanManager.scan_outputs st' = ScanManager.scan_outputs st ++ told s sid address IDENTITY_TYPE_PUBLIC None
              (MakeElement kPublicIdentityFieldType [] :: MakeElement kSaltFieldType random
               :: MakeElement kTxPowerFieldType [u8 (s8 (request_tx_power request))] :: received (section_properties sec))
              (received_actions (section_properties sec)).
Proof.
  intros [Hj Hn Hw Hl Hv Hp Hr] Hid Hsc. pose proof (scanning_ok _ _ _ _ _ Hsc) as Hok. destruct Hsc as [_ Hsj Hs Ht].
  pose proof (so_decoder _ _ Hok sid s Hs) as Hd.
  destruct (public_received (ScanManager.memory (ScanManager.scan_sessions_ st)) (ScanManager.decoder s) None
    (s8 (request_tx_power request)) (section_properties sec) random (request_of random sec request)) as (content & Ec & Ed); try done.
  { rewrite Hd. by apply banned_asked. }
  { by rewrite Hd. }
  exists content. split; [by apply (public_broadcast_runs b w0 w id random request sec secs)|]. cbv zeta.
  destruct (shift_undefined (section_properties sec)).
  { by rewrite (found_runs _ _ _ _ _ _ _ Hsj Hs), Ed. }
  apply (found_told st wf wf' sid s s content address _ _ Hsj Hs ltac:(by rewrite Hd) Ed).
  apply (received_device_actions [_; _; _]). by repeat constructor.
Qed.

(** C8. When an encrypted broadcast is discovered.  From any state of the broadcaster in
    which it may broadcast, as in public, a client's broadcast of context timestamps and
    actions from 8 to 15 under a private, trusted or provisioned identity makes it ask for the credentials
    of the identity, advertise once under the first one to start, whose metadata key has 14
    bytes, and save that credential with the salt it has consumed.  A scanner in any state
    that a run leads to, with no job waiting, a session without credentials among its
    filters that asks for the identity, and a request for credentials that has been made,
    is given a list that holds the public credential the credential manager makes of that
    one, with none before it that verifies the same bytes.  If the tag in the public credential,
    which the manager computes by SHA-256 of the metadata key, is the one the cipher's
    library computes for this key (np_ldt.h: an HMAC), the client is told of the device at
    this address, with the credential, the salt, the power, the timestamp and the actions,
    unless the filters of the session refuse them; if the tags differ, and none after it
    verifies the bytes either, it is told nothing.
    As in public, where [char] is signed (and shifted as GCC and Clang do) the action 8 is
    reported with the timestamp 15 and the actions 7, 6, 5 and 4 besides, and by the letter
    of C++17 the behaviour is undefined for it and for timestamps from 8 on. *)
Theorem Presence_broadcast_discovered b w0 w id random request sec secs c cs es st sid s n t pre post address wf1 wf2 wf3 wf4 :
  may_broadcast b w id random request sec secs -> encrypted_identity t -> identity sec = t ->
  length (metadata_encryption_key_v0 (BroadcastManager.min_element c cs)) = kBaseMetadataSize ->
  scanning es st sid s t -> no_filter_credentials (ScanManager.request s) ->
  ScanManager.public_fetches st !! n = Some (sid, t) ->
  let salt' := fst (chosen w random c cs) in
  let mine := snd (chosen w random c cs) in
  let shared := CreatePublicCredential (BroadcastManager.min_element c cs) in
  others_fail mine pre salt' (s8 (request_tx_power request)) (section_properties sec) ->
  (verifies mine shared = false -> others_fail mine post salt' (s8 (request_tx_power request)) (section_properties sec)) ->
  exists content,
    BroadcastManager.broadcast_outputs (BroadcastManager.broadcast_steps
      (private_broadcast w0 w id random request (length (BroadcastManager.fetches b)) (c :: cs)) b)
    = BroadcastManager.broadcast_outputs b ++
        [BroadcastManager.GetLocalCredentials (credential_selector (request_of random sec request));
         BroadcastManager.StartAdvertising id (advertising_data content) (ConvertPowerModeToPowerLevel (request_power_mode request));
         BroadcastManager.UpdateLocalCredential (credential_selector (request_of random sec request)) mine]
    /\ let scan := ScanManager.scan_steps
           [(wf1, ScanManager.PublicCredentialsFetched n (Ok (pre ++ shared :: post))); (wf2, ScanManager.RunScanJob);
            (wf3, ScanManager.AdvertisementFound sid (advertising_data content) address); (wf4, ScanManager.RunScanJob)] st in
       if verifies mine shared && shift_undefined (section_properties sec) then scan = Fault
       else exists st', scan = Done st'
         /\ ScanManager.scan_outputs st' = ScanManager.scan_outputs st ++
              if verifies mine shared then
                told s sid address t (Some shared)
                  (MakeElement kSaltFieldType salt' :: MakeElement kTxPowerFieldType [u8 (s8 (request_tx_power request))]
                   :: received (section_properties sec))
                  (received_actions (section_properties sec))
              else [].
Proof.
  intros [Hj Hn Hw Hl Hv Hp Hr] Htt Hid Hk Hsc Hf Hfetch salt' mine shared Hpre Hpost. pose proof (scanning_ok _ _ _ _ _ Hsc) as Hok.
  destruct Hsc as [_ Hsj Hs Ht].
  set (st0 := ScanManager.MakeScans (ScanManager.scan_sessions_ st) (ScanManager.next_address st)
    (ScanManager.public_fetches st) [] (ScanManager.scan_outputs st)).
  assert (scans_ok (all_started es) st0) as Hok0.
  { apply (scans_ok_change _ st); try done; [|apply Hok]. intros id1 r1 H1. by apply not_elem_of_nil in H1. }
  set (l := pre ++ shared :: post). set (st1 := ScanManager.UpdateCredentials sid t l st0).
  destruct (updated_session _ t l sid s st0 st1 Hok0 Hs eq_refl) as (s' & Hs' & Hd & Ej1 & Eo1 & Hm).
  destruct (private_received t mine (section_properties sec) (with_salt salt' (request_of random sec request)) Htt Hid eq_refl Hp Hr eq_refl Hk)
    as (content & Ec & Ed).
  specialize (Ed (ScanManager.memory (ScanManager.scan_sessions_ st1)) (ScanManager.decoder s') (ScanManager.credentials_at s')
    (<[t := l]> (ScanManager.credentials s)) pre shared post
    ltac:(rewrite Hd; apply banned_asked; [done|by destruct Htt as [->|[->| ->]]]) ltac:(by rewrite Hd) ltac:(by rewrite Hd) Hm
    (lookup_insert_eq _ _ _) eq_refl Hpre Hpost).
  exists content. split.
  { apply (private_broadcast_runs b w0 w id random request sec secs c cs); try done. rewrite Hid. by destruct Htt as [->|[->| ->]]. }
  cbv zeta. assert (forall e1 e2 e3 e4, ScanManager.scan_steps [e1; e2; e3; e4] st = let! st := ScanManager.scan_steps [e1; e2] st in
    ScanManager.scan_steps [e3; e4] st) as Happ by (intros; exact (scan_steps_app [_; _] [_; _] st)).
  rewrite Happ, (credentials_arrive _ _ _ _ _ _ _ _ Hsj Hs Hfetch), done_bind. fold st0 st1.
  rewrite <- (Eo1 : _ = ScanManager.scan_outputs st). destruct (verifies mine shared); cbn [andb]; [destruct (shift_undefined _)|].
  - by rewrite (found_runs _ _ _ _ _ _ _ Ej1 Hs'), Ed.
  - apply (found_told st1 wf3 wf4 sid s s' content address _ _ Ej1 Hs' ltac:(by rewrite Hd) Ed).
    apply (received_device_actions [_; _]). by repeat constructor.
  - rewrite (found_runs _ _ _ _ _ _ _ Ej1 Hs'), Ed, done_bind. eexists. split; [done|]. by rewrite app_nil_r.
Qed.
End Together.
