(* ===== verification/PresenceExamples.v ===== *)
(** The theorems about Nearby Presence at concrete inputs, and runs in which the code does
    what its documentation does not say: a table that moves under the pointer of a
    decoder, a scan for all identities, a broadcast without actions, signed characters. *)

From Stdlib Require Import ZArith Lia.
From stdpp Require Import base list numbers gmap.
From S2P Require Import Prelude Utils CppBase BleData BleTracker.
From S2P Require Import PresenceData PresenceTheorems PresenceBroadcast PresenceScan PresenceSafety PresenceRun.
Import Uuids DataElement ActionFactory LdtEncryptor AdvertisementFactory AdvertisementDecoder.

Open Scope Z_scope.
Open Scope fp_scope.

(** * The surroundings *)

(** A cipher that reverses, with any function of the seed and the metadata key as the tag. *)
Definition reversing (tag_of : list Z -> list Z -> list Z) : Ldt := {|
  NpLdtEncryptCreate _ := true;
  NpLdtDecryptCreate _ _ := true;
  NpLdtEncrypt seed p s := if (16 <=? length p)%nat && (length p <=? 31)%nat then Some (reverse p) else None;
  NpLdtDecryptAndVerify seed tag c s :=
    if bool_decide (tag = tag_of seed (take kBaseMetadataSize (reverse c))) then Some (reverse c) else None;
|}.
Lemma reversing_spec tag_of : (forall seed key, length (tag_of seed key) = 32%nat) -> LdtSpec (reversing tag_of).
Proof.
  intros Hl. apply (Build_LdtSpec (reversing tag_of) tag_of); try done.
  - intros seed p s Hp. exists (reverse p). rewrite length_reverse. split; [|done]. unfold NpLdtEncrypt, reversing.
    rewrite (proj2 (Nat.leb_le 16 (length p))), (proj2 (Nat.leb_le (length p) 31)) by lia. done.
  - intros seed p s c. cbn. destruct (_ && _); [|done]. intros [= <-]. rewrite reverse_involutive. by rewrite bool_decide_true.
  - intros seed p s c tag. cbn. destruct (_ && _); [|done]. intros [= <-] Ht. rewrite reverse_involutive. by rewrite bool_decide_false.
Defined.

(** A hash that is the start of the message; a tag that is this hash, and one that is keyed
    by the seed, as an HMAC is. *)
Definition start_of (m : list Z) : list Z := take 32 (m ++ replicate 32 0).
Lemma start_of_length m : length (start_of m) = 32%nat.
Proof. unfold start_of. rewrite length_take, length_app, length_replicate. lia. Defined.
#[local] Instance start_hashes : Hashes := {| Sha256 := start_of; MurmurHash3_low64 _ := 0 |}.
Definition keyed_tag (seed key : list Z) : list Z := start_of (seed ++ key).
#[local] Instance same_tags : Ldt := reversing (fun _ => start_of).
#[local] Instance same_tags_spec : LdtSpec same_tags := reversing_spec _ (fun _ => start_of_length).
Definition keyed_tags : Ldt := reversing keyed_tag.
Definition keyed_tags_spec : LdtSpec keyed_tags := reversing_spec _ (fun seed key => start_of_length (seed ++ key)).
#[local] Existing Instance unsigned_char.

(** A credential of the user, which has consumed the salt that is drawn first, an older one
    and one of somebody else; a broadcast of two actions. *)
Definition mine : LocalCredential := MakeLocalCredential [1; 2; 3] 500 (replicate 14 9) {[0x1234]}.
Definition newer : LocalCredential := MakeLocalCredential [4; 5; 6] 600 (replicate 14 8) ∅.
Definition foreign : SharedCredential := MakeSharedCredential [7] (replicate 32 5).
Definition two_actions : list DataElement := [byte_element kContextTimestampFieldType 3; action_element 10; action_element 9].
Definition section_of (t : IdentityType) (props : list DataElement) : BroadcastSection := MakeBroadcastSection t props [65] [66].
Definition broadcast_of (t : IdentityType) (props : list DataElement) : BroadcastRequest :=
  MakeBroadcastRequest 30 kBalanced (Some [section_of t props]).
Definition working : BroadcastManager.BroadcastEnvironment :=
  BroadcastManager.MakeBroadcastEnvironment true (fun i => 0x5678 + Z.of_nat i).
Definition drawn : list Z := [0x12; 0x34].

Definition scan_for (types : list IdentityType) : ScanRequest := MakeScanRequest [65] [66] types [] kLowPower.
Definition still : ScanManager.ScanEnvironment := ScanManager.MakeScanEnvironment false true.
Definition moving : ScanManager.ScanEnvironment := ScanManager.MakeScanEnvironment true true.
Definition scan_run (types : list IdentityType) : list (ScanManager.ScanEnvironment * ScanManager.ScanEvent) :=
  [(still, ScanManager.CallStartScan 1 (scan_for types)); (still, ScanManager.RunScanJob)].
Definition after {L : Ldt} (es : list (ScanManager.ScanEnvironment * ScanManager.ScanEvent)) : ScanManager.Scans :=
  match ScanManager.scan_steps es ScanManager.new_scans with Done st => st | _ => ScanManager.new_scans end.
Definition session1 (st : ScanManager.Scans) : ScanManager.ScanSessionState :=
  default (ScanManager.MakeScanSession (scan_for []) ∅ (new_decoder (scan_for []) None) 0 false) (ScanManager.scan_sessions_ st !! 1).
Definition phone_address : list Z := [48; 48].

(** The data the broadcaster advertises. *)
Definition advertised (b : BroadcastManager.Broadcasts) : option BleAdvertisementData :=
  head (omap (fun o => match o with BroadcastManager.StartAdvertising _ data _ => Some data | _ => None end)
    (BroadcastManager.broadcast_outputs b)).
Definition public_broadcast {L : Ldt} (props : list DataElement) : BroadcastManager.Broadcasts :=
  BroadcastManager.broadcast_steps [(working, BroadcastManager.CallStartBroadcast 7 drawn (broadcast_of IDENTITY_TYPE_PUBLIC props));
    (working, BroadcastManager.RunBroadcastJob)] BroadcastManager.new_broadcasts.
Definition trusted_broadcast {L : Ldt} : BroadcastManager.Broadcasts :=
  BroadcastManager.broadcast_steps (private_broadcast working working 7 drawn (broadcast_of IDENTITY_TYPE_TRUSTED two_actions) 0 [newer; mine])
    BroadcastManager.new_broadcasts.
Definition data_of (b : BroadcastManager.Broadcasts) : BleAdvertisementData := default (MakeData false ∅) (advertised b).

(** * The theorems *)

Lemma may_broadcast_two id t : may_broadcast BroadcastManager.new_broadcasts working id drawn (broadcast_of t two_actions)
  (section_of t two_actions) [].
Proof.
  split; try done. apply Forall_cons_2; [|apply Forall_cons_2; [|apply Forall_cons_2; [|apply Forall_nil_2]]].
  - left. split; [done|]. exists 3, []. split; [done|]. unfold is_byte. lia.
  - right. exists 10. unfold kLastAction. split; [lia|done].
  - right. exists 9. unfold kLastAction. split; [lia|done].
Defined.

Lemma scanning_for {L : Ldt} t : scanning (scan_run [t]) (after (scan_run [t])) 1 (session1 (after (scan_run [t]))) t.
Proof. split; [by destruct t|by destruct t|by destruct t|]. destruct t; vm_compute; left. Defined.

(** A public broadcast, found by a scan for public identities. *)
Lemma Presence_public_discovered_witness :
  exists content,
    BroadcastManager.broadcast_outputs (public_broadcast two_actions)
    = [BroadcastManager.StartAdvertising 7 (advertising_data content) kMedium]
    /\ exists st', ScanManager.scan_steps [(still, ScanManager.AdvertisementFound 1 (advertising_data content) phone_address);
           (moving, ScanManager.RunScanJob)] (after (scan_run [IDENTITY_TYPE_PUBLIC])) = Done st'
         /\ ScanManager.scan_outputs st' = ScanManager.scan_outputs (after (scan_run [IDENTITY_TYPE_PUBLIC])) ++
              [ScanManager.on_discovered_cb 1 (ScanManager.MakeDevice phone_address IDENTITY_TYPE_PUBLIC None
                 [MakeElement 3 []; MakeElement 0 drawn; MakeElement 5 [30]; byte_element kContextTimestampFieldType 3; action_element 10; action_element 9] [10; 9])].
Proof.
  exact (Presence_public_discovered BroadcastManager.new_broadcasts working working 7 drawn (broadcast_of IDENTITY_TYPE_PUBLIC two_actions)
    (section_of IDENTITY_TYPE_PUBLIC two_actions) [] (scan_run [IDENTITY_TYPE_PUBLIC]) (after (scan_run [IDENTITY_TYPE_PUBLIC])) 1
    (session1 (after (scan_run [IDENTITY_TYPE_PUBLIC]))) phone_address still moving
    (may_broadcast_two 7 IDENTITY_TYPE_PUBLIC) eq_refl (scanning_for IDENTITY_TYPE_PUBLIC)).
Defined.

(** The credential of somebody else and the older one do not verify it, whichever tag the
    library has. *)
Lemma others_fail_two l : l = [foreign] \/ l = [CreatePublicCredential newer] ->
  others_fail (snd (chosen working drawn newer [mine])) l (fst (chosen working drawn newer [mine])) 30 two_actions.
Proof. intros [-> | ->] encrypted; vm_compute; intros [= <-]; repeat constructor. Defined.
Lemma others_fail_keyed l : l = [foreign] \/ l = [CreatePublicCredential newer] ->
  others_fail (L := keyed_tags) (snd (chosen working drawn newer [mine])) l (fst (chosen working drawn newer [mine])) 30 two_actions.
Proof. intros [-> | ->] encrypted; vm_compute; intros [= <-]; repeat constructor. Defined.

(** A trusted one.  The salt that was drawn has been used, so that another one is taken.
    With a library whose tag is the hash the credential manager computes it is found with
    the second of three credentials; with one whose tag is keyed it is not found. *)
Definition trusted_outputs (content : list Z) : list BroadcastManager.BroadcastOutput :=
  [BroadcastManager.GetLocalCredentials (MakeSelector [66] [65] IDENTITY_TYPE_TRUSTED);
   BroadcastManager.StartAdvertising 7 (advertising_data content) kMedium;
   BroadcastManager.UpdateLocalCredential (MakeSelector [66] [65] IDENTITY_TYPE_TRUSTED)
     (MakeLocalCredential [1; 2; 3] 500 (replicate 14 9) {[0x5678; 0x1234]})].
Definition trusted_scan (L : Ldt) (content : list Z) : outcome ScanManager.Scans :=
  ScanManager.scan_steps
    [(still, ScanManager.PublicCredentialsFetched 0 (Ok [foreign; CreatePublicCredential mine; CreatePublicCredential newer]));
     (still, ScanManager.RunScanJob);
     (still, ScanManager.AdvertisementFound 1 (advertising_data content) phone_address);
     (moving, ScanManager.RunScanJob)] (after (L := L) (scan_run [IDENTITY_TYPE_TRUSTED])).
Lemma Presence_broadcast_discovered_witness :
  (exists content, BroadcastManager.broadcast_outputs trusted_broadcast = trusted_outputs content
    /\ exists st', trusted_scan same_tags content = Done st'
         /\ ScanManager.scan_outputs st' = ScanManager.scan_outputs (after (scan_run [IDENTITY_TYPE_TRUSTED])) ++
              [ScanManager.on_discovered_cb 1 (ScanManager.MakeDevice phone_address IDENTITY_TYPE_TRUSTED (Some (CreatePublicCredential mine))
                 [MakeElement 0 [0x56; 0x78]; MakeElement 5 [30]; byte_element kContextTimestampFieldType 3; action_element 10; action_element 9]
                 [10; 9])])
  /\ (exists content, BroadcastManager.broadcast_outputs (trusted_broadcast (L := keyed_tags)) = trusted_outputs content
    /\ exists st', trusted_scan keyed_tags content = Done st'
         /\ ScanManager.scan_outputs st' = ScanManager.scan_outputs (after (L := keyed_tags) (scan_run [IDENTITY_TYPE_TRUSTED])) ++ []).
Proof.
  pose (run := fun L (spec : LdtSpec L) => Presence_broadcast_discovered (L := L) BroadcastManager.new_broadcasts working working 7 drawn
    (broadcast_of IDENTITY_TYPE_TRUSTED two_actions) (section_of IDENTITY_TYPE_TRUSTED two_actions) [] newer [mine]
    (scan_run [IDENTITY_TYPE_TRUSTED]) (after (scan_run [IDENTITY_TYPE_TRUSTED])) 1 (session1 (after (scan_run [IDENTITY_TYPE_TRUSTED])))
    0 IDENTITY_TYPE_TRUSTED [foreign] [CreatePublicCredential newer] phone_address still still still moving
    (may_broadcast_two 7 IDENTITY_TYPE_TRUSTED) (or_intror (or_introl eq_refl)) eq_refl eq_refl). split.
  - exact (run same_tags same_tags_spec (scanning_for IDENTITY_TYPE_TRUSTED) (List.Forall_nil _) eq_refl
      (others_fail_two _ (or_introl eq_refl)) (fun _ => others_fail_two _ (or_intror eq_refl))).
  - exact (run keyed_tags keyed_tags_spec (scanning_for IDENTITY_TYPE_TRUSTED) (List.Forall_nil _) eq_refl
      (others_fail_keyed _ (or_introl eq_refl)) (fun _ => others_fail_keyed _ (or_intror eq_refl))).
Defined.

(** The same run from the start. *)
Definition trusted_run (more : list (ScanManager.ScanEnvironment * ScanManager.ScanEvent))
  : list (ScanManager.ScanEnvironment * ScanManager.ScanEvent) :=
  scan_run [IDENTITY_TYPE_TRUSTED] ++ [(still, ScanManager.PublicCredentialsFetched 0 (Ok [CreatePublicCredential mine])); (still, ScanManager.RunScanJob)]
  ++ more ++ [(still, ScanManager.AdvertisementFound 1 (data_of trusted_broadcast) phone_address); (still, ScanManager.RunScanJob)].

Definition reported (st : ScanManager.Scans) : list ScanManager.PresenceDevice :=
  omap (fun o => match o with ScanManager.on_discovered_cb _ dev => Some dev | _ => None end) (ScanManager.scan_outputs st).
Definition trusted_device : ScanManager.PresenceDevice :=
  ScanManager.MakeDevice phone_address IDENTITY_TYPE_TRUSTED (Some (CreatePublicCredential mine))
    [MakeElement 0 [0x56; 0x78]; MakeElement 5 [30]; byte_element kContextTimestampFieldType 3; action_element 10; action_element 9] [10; 9].

Lemma Scanner_safe_witness :
  (exists st, ScanManager.scan_steps (trusted_run []) ScanManager.new_scans = Done st)
  /\ reported (after (trusted_run [])) = [trusted_device]
  /\ exists r, (1, r) ∈ all_started (trusted_run [])
       /\ (IDENTITY_TYPE_TRUSTED = IDENTITY_TYPE_UNSPECIFIED \/ IDENTITY_TYPE_TRUSTED ∈ identity_types r)
       /\ MatchesScanFilter (new_decoder r None) (ScanManager.device_properties trusted_device) = true.
Proof.
  destruct (Scanner_safe (trusted_run [])) as [H1 H2]. split; [apply H1; [done|by repeat constructor]|]. split; [by vm_compute|].
  apply (H2 (after (trusted_run [])) 1 trusted_device); [by vm_compute|]. vm_compute. right. right. left.
Defined.

(** * Where the two sides do not agree *)

(** The table moves when a second scan starts; the decoder of the first one still points
    to where its credentials were. *)
Example moved_session_dangles :
  ScanManager.scan_steps (trusted_run [(still, ScanManager.CallStartScan 2 (scan_for [IDENTITY_TYPE_PUBLIC])); (moving, ScanManager.RunScanJob)])
    ScanManager.new_scans = Fault
  /\ reported (after (trusted_run [(still, ScanManager.CallStartScan 2 (scan_for [IDENTITY_TYPE_PUBLIC])); (still, ScanManager.RunScanJob)]))
     = [trusted_device].
Proof. split; vm_compute; reflexivity. Qed.

(** A scan request without identity types asks the credential manager for those of all
    types, and refuses the advertisements of all types. *)
Definition content_of (b : BroadcastManager.Broadcasts) : list Z :=
  default [] (service_data (data_of b) !! kPresenceServiceUuid).
Example all_types_refused :
  length (GetCredentialSelectors (scan_for [])) = 4%nat
  /\ DecodeAdvertisement (fun _ => None) (new_decoder (scan_for []) None) (content_of (public_broadcast two_actions)) = Done (Error kFailedPrecondition)
  /\ exists ad, DecodeAdvertisement (fun _ => None) (new_decoder (scan_for [IDENTITY_TYPE_PUBLIC]) None)
       (content_of (public_broadcast two_actions)) = Done (Ok ad).
Proof. split; [done|]. split; [by vm_compute|]. eexists. vm_compute. reflexivity. Qed.

(** A broadcast without properties is advertised with an empty action, which the scanner
    refuses; so is one with an action above 23, which takes four bytes. *)
Example no_actions_refused :
  content_of (public_broadcast []) = [0; 3; 32; 18; 52; 21; 30; 6]
  /\ DecodeAdvertisement (fun _ => None) (new_decoder (scan_for [IDENTITY_TYPE_PUBLIC]) None) (content_of (public_broadcast []))
     = Done (Error kInvalidArgument).
Proof. split; vm_compute; reflexivity. Qed.

(** Where [char] is signed the action 8 alone arrives with a timestamp and four more. *)
Example action_misread :
  received (ct := signed_char) [action_element 8]
  = byte_element kContextTimestampFieldType 15 :: map action_element [8; 7; 6; 5; 4]
  /\ received (ct := unsigned_char) [action_element 8] = [action_element 8].
Proof. split; vm_compute; reflexivity. Qed.

(** The advertisement of DecodeBaseNpV0PublicIdentityWithTxAndActionFields, decoded as the
    test expects where [char] is unsigned, otherwise where it is signed, and not defined by
    the letter of C++17. *)
Definition decoded_actions (c : CharType) (bytes : list Z) : outcome (list DataElement) :=
  let! r := DecodeAdvertisement (ct := c) (fun _ => None) (new_decoder (scan_for [IDENTITY_TYPE_PUBLIC]) None) bytes in
  Done match r with Ok ad => data_elements ad | Error _ => [] end.
Example active_unlock_decoded :
  let before := [MakeElement 3 []; MakeElement 5 [0xff]] in
  decoded_actions unsigned_char [0x00; 0x03; 0x15; 0xff; 0x26; 0x00; 0x80] = Done (before ++ [action_element 8])
  /\ decoded_actions signed_char [0x00; 0x03; 0x15; 0xff; 0x26; 0x00; 0x80]
     = Done (before ++ byte_element kContextTimestampFieldType 15 :: map action_element [8; 7; 6; 5; 4])
  /\ decoded_actions strict_signed_char [0x00; 0x03; 0x15; 0xff; 0x26; 0x00; 0x80] = Fault.
Proof. repeat split; vm_compute; reflexivity. Qed.

(** A credential manager that answers one request twice makes the broadcaster start the
    medium twice for one broadcast. *)
Definition answered_twice : list (BroadcastManager.BroadcastEnvironment * BroadcastManager.BroadcastEvent) :=
  [(working, BroadcastManager.CallStartBroadcast 7 drawn (broadcast_of IDENTITY_TYPE_TRUSTED two_actions)); (working, BroadcastManager.RunBroadcastJob);
   (working, BroadcastManager.CredentialsFetched 0 (Ok [mine])); (working, BroadcastManager.CredentialsFetched 0 (Ok [mine]));
   (working, BroadcastManager.RunBroadcastJob); (working, BroadcastManager.RunBroadcastJob)].
Example answered_twice_advertises_twice :
  tally (is_advertised 7) (BroadcastManager.broadcast_outputs
    (BroadcastManager.broadcast_steps answered_twice BroadcastManager.new_broadcasts)) = 2%nat
  /\ tally (is_started 7) (map snd answered_twice) = 1%nat.
Proof. split; vm_compute; reflexivity. Qed.

(** Where [char] is signed a salt whose second byte is at least 0x80 loses its first one. *)
Example salt_extended :
  BroadcastManager.SaltToInt (ct := signed_char) [0x12; 0x80] = 0xff80 /\ BroadcastManager.SaltToInt (ct := unsigned_char) [0x12; 0x80] = 0x1280.
Proof. split; vm_compute; reflexivity. Qed.

(** A broadcast whose identity is not specified is taken for one that needs no credentials
    and then refused for the want of them. *)
Example unspecified_refused :
  BroadcastManager.broadcast_outputs (BroadcastManager.broadcast_steps
    [(working, BroadcastManager.CallStartBroadcast 7 drawn (broadcast_of IDENTITY_TYPE_UNSPECIFIED two_actions));
     (working, BroadcastManager.RunBroadcastJob); (working, BroadcastManager.RunBroadcastJob)] BroadcastManager.new_broadcasts)
  = [BroadcastManager.start_broadcast_cb (Some 7) kFailedPrecondition].
Proof. vm_compute. reflexivity. Qed.
